(* ===== verification/_CoqProject ===== *)
-Q . S2P
Prelude.v
KvNode.v
KvCodec.v
KvMap.v
KvPager.v
KvBTree.v
KvTree.v
KvTreePut.v
KvProps.v
KvDB.v
KvBucket.v
KvRepair.v
FastCDC.v
ChunkIndex.v
ChunkHash.v
Envelope.v
Pipeline.v
PipelineProofs.v
Core.v
Retention.v
RestorePlan.v
Calendar.v
GoStrings.v
Cron.v
Window.v
Scheduler.v
Documents.v
Jobs.v
AuditLog.v
Manifest.v
Repository.v
LocalStore.v
BackupSafety.v
GoText.v
LocalFiles.v
WriteOnce.v
Keys.v
Tokens.v
SecretOptions.v
Resources.v
Auth.v
RateLimit.v
Runner.v
JobApi.v
RetentionApi.v
Claims.v
Secrets.v
ResourceApi.v
Config.v
Seed.v
Routes.v
Engine.v
Executor.v
Http.v
Middleware.v
S3Sign.v
S3.v
S3Proofs.v
S3Credentials.v
Gcs.v
Azure.v
Sftp.v
AgentClient.v
Worker.v
Resp.v
RedisDriver.v
PgText.v
PgSplit.v
PgDump.v
PgWire.v
PgConn.v
PgDriver.v
MySqlText.v
MySqlWire.v
MySqlDriver.v
Bson.v
MongoWire.v
MongoDriver.v
