(* ===== verification/Prelude.v ===== *)
(** * Kronos: a verification library

    Kronos (src/) is a backup platform for databases: a server keeps its
    state in an embedded key/value store and schedules jobs, agents cut
    database dumps into chunks, deduplicate, compress, encrypt and upload
    them, and retention decides which backups may go. This library models the
    parts that carry this logic as executable Rocq functions and proves what
    makes them correct. This file is the prelude: outcomes and the state
    monad, machine integers, byte strings and their order, codecs, slices and
    sorting, shared by all others.

    ** Parts, files and sources (paths under src/internal)

    The key/value store (kvstore/), bottom up:
    - KvNode, KvCodec: one B+tree node, its search, insertion and splitting,
      and its page codec with the round trip (btree.go).
    - KvPager: the file as pages, metadata, allocation, the persistent free
      list (pager.go) and the invariant [pager_inv].
    - KvMap: sorted association lists, the abstract map of a tree.
    - KvBTree: [Get], [Put], [Delete], [Scan] (btree.go) against the class
      [NodeStore]; the pager is its instance.
    - KvTree, KvTreePut: the tree invariant over the laws
      [NodeStoreLaws], and the proofs for [Get] and [Put].
    - KvProps: the resulting theorems over the pager, and runs on which
      deletion and scanning depart from a map.
    - KvDB: the rollback journal as file operations with crashes between
      them, [Open], [Update], [View] (wal.go, db.go).
    - KvBucket: namespaces by key prefix (bucket.go). KvRepair: repair.go.

    The data path (chunk/):
    - FastCDC: content-defined chunking of a stream (fastcdc.go, gear.go).
    - ChunkIndex: deduplication index and Bloom filter (index.go).
    - ChunkHash: text form of hashes (hash.go). Envelope: the encrypted
      envelope (envelope.go).
    - Pipeline, PipelineProofs: the concurrent upload pipeline as a step
      relation, [Feed] and [Restore] (pipeline.go), against the class
      [Backend] of object stores.

    The repository (manifest/, repository/, storage/):
    - Manifest: the signed description of a backup (manifest.go).
    - Repository: commit and garbage collection (commit.go, gc.go) against
      the class [ObjectStore]; LocalStore: its instance, the listing of
      storage/local/local.go. LocalFiles: its paths and operations, [Put] as
      steps on the files of an object. WriteOnce: the pipelines of the agent
      (src/cmd/kronos/agent.go) over stores that never overwrite.
    - Http: what the clients of remote storage use of net/http and net/url
      (escaping, queries, headers, requests), and the class [HttpServer] of a
      service; the keys they accept (storage/backend.go).
    - S3Sign: signatures of S3 (s3/sigv4.go). S3: its client
      (s3/backend.go). S3Proofs: the laws of a service, what Put does under
      them, and concrete services. S3Credentials: the providers of
      credentials (s3/credentials.go).
    - Gcs, Azure: gcs/backend.go, azure/backend.go, each with the laws of its
      service. Sftp: sftp/backend.go over the class [SftpClient], the laws of
      a server of files and an instance.
    - BackupSafety: the statements from the pipeline to the repository.

    Policy and planning:
    - Core: identifiers, instants and records (core/).
    - Retention: retention/retention.go. RestorePlan: restore/plan.go.

    Scheduling:
    - Calendar: the UTC calendar of Go's time package. GoStrings: the string
      routines of the parsers.
    - Cron, Window: schedule/cron.go and schedule/window.go.
    - Scheduler: schedule/scheduler.go and the choice of parent backups of
      server/scheduler_runner.go. TargetQueue: schedule/queue.go.

    The control plane (server/ and, for the handlers, src/cmd/kronos/server.go):
    - Documents: records in buckets (resource_store.go) against the class
      [KV] of the embedded database. GoText, Base64: routines of Go's library.
    - Jobs: the job store and the orchestrator (job_store.go,
      orchestrator.go) against the class [JobTable], which [KV] implements.
    - Tokens: API tokens and roles (token_store.go). SecretOptions: secret
      options at rest and in answers (resource_secret.go). Resources: the
      other stores and what they accept (resource_store.go,
      notification_store.go).
    - Auth: who may do what, the handlers of tokens and users. RateLimit:
      the limiter of attempts. Agents: agents.go.
    - Runner: the scheduler runner (scheduler_runner.go).
    - JobApi: the handlers that create and finish jobs, restore evidence.
      RetentionApi: retention and protection of backups. Claims: the hand-out
      of jobs, and the step relation of all requests about jobs.
    - Secrets: secret references (secret/secret.go). ResourceApi: the
      handlers of the resources and the routes that decide who sees secrets.
    - AuditLog: audit/log.go.

    The agents (engine/, verify/, agent/):
    - Engine: backups and restores of a driver through the pipeline
      (engine/backup.go, drivers/driver.go), the verification of backups
      (verify/manifest.go), settings of the drivers.
    - Executor: jobs on an agent and what is reported of them
      (agent/executor.go, agent/worker.go), and concrete agents.

    The drivers (drivers/):
    - GoNumbers: decimal numbers of Go's library, lemmas on readers.
    - Resp: the Redis protocol (redis/resp.go). RedisDriver: its client and
      driver (redis/client.go, driver.go, psync.go), an instance of the
      drivers of Engine. The drivers' files end with concrete servers or
      databases and runs against them.
    - PgText: the text of a PostgreSQL dump (postgres/native_backup.go).
      PgSplit: the splitting of SQL (native_restore.go). PgDump: the
      statements of a dump. PgWire: messages and results (wire.go). PgConn:
      connections, authentication and TLS (wire.go, scram.go, md5.go,
      native.go). PgDriver: backups, restores and streams (driver.go and the
      above) over the class [pgNativeQueryer].
    - MySqlText: the rows of a MySQL dump and the splitting of its SQL
      (mysql/native_backup.go, native_restore.go). MySqlWire: packets,
      connections and settings (wire.go, native.go). MySqlDriver: backups,
      restores and streams (driver.go and the above) over the class
      [mysqlQueryer].
    - Bson: documents of MongoDB (mongodb/wire.go). MongoWire: its messages,
      sessions and cursors (wire.go, native.go). MongoDriver: native backups
      and restores, changes and the external tools (native_backup.go,
      native_restore.go, change_stream.go, driver.go) over the class
      [mongoQueryer].

    A handler is a function [handler S A] of the state to a reply and the
    state; [attempt] runs a step and answers its error as the code does.

    A Go struct is a record with the fields of the source, a method a
    function of the same name; a method that changes its receiver is a
    computation of the monad [M], which keeps the state also when it fails.

    ** What the theorems show

    - Store: a stopped process leaves the file of before or after the
      transaction ([update_crash_atomic]); an [Update] that fails restores the
      database ([update_rollback_restores], [db_put_atomic]); [Get] and [Put]
      implement a map ([btree_get_refines], [btree_put_refines],
      [btree_puts_then_get]); reopening gives back the contents
      ([open_restores]); buckets do not share keys; repair frees exactly the
      unreachable pages.
    - Data path: what [Feed] uploads, under every interleaving of its
      workers, [Restore] gives back ([feed_restore_roundtrip]) and no
      interleaving blocks ([feed_progress]); chunks concatenate to the input,
      however the reader cuts it; an envelope opens only what was sealed; the
      index is exact.
    - Repository: a committed backup loads and restores byte for byte after
      any garbage collection ([backup_survives_gc]), and a collection leaves
      no unreferenced chunk ([gc_sweeps_all]). A local object is written once
      and whole ([local_put_once]) and below the root
      ([local_paths_inside]); of a content that an agent has backed up no
      later backup succeeds ([later_backup_fails]).
    - Remote storage: whatever requests are lost, repeated or applied without
      an answer, a Put of S3 ([s3_put_exact]), Azure ([azure_put_exact]) or
      SFTP ([sftp_put_exact]) leaves the objects of before or the whole
      object under a key that had none; a signature of S3 binds the request
      ([sigv4_binds]); providers return complete credentials or fail; what
      GCS stores under a key with a slash is not found again
      ([gcs_stored_never_found]).
    - Policy: a policy keeps the ancestors of every kept backup, so that a
      kept backup can be restored ([kept_backup_restorable]); rules keep what
      they say; restore plans end and run from the root.
    - Scheduling: [Next] of a cron expression is the least matching instant
      ([cron_next_least]); windows, parents and queues behave as specified;
      ticks neither lose nor repeat occurrences ([tick_split_exact]).
    - Control plane: jobs follow their life cycle ([job_lifecycle]); requests
      one after the other never run two jobs on a target
      ([one_active_job_per_target]) nor exceed the capacity of the agents; a
      finished job is stored with its backup and evidence ([finish_exact]);
      applying a policy leaves every kept backup restorable from the store
      ([retention_apply_safe]); a due run is enqueued at most once
      ([tick_at_most_once]); the audit log verifies and is tamper evident up
      to its last hash.
    - Authorisation: tokens are verified exactly by their history
      ([token_verify_exact]); a scope is granted only to a live token whose
      owner's role covers it ([granted_only_to_live_token]); the bootstrap
      works once; attempts are limited ([rate_limit_bound]).
    - Stores: every stored record is valid and filed under its identifier
      ([stores_wellformed]), listings are complete, sealed options open to
      what they were.
    - Agents: a restore gives its driver exactly the records the driver of
      the backup wrote ([agent_backup_restores]); a chain of manifests is not
      restored in their order ([chain_restored_out_of_order]).
    - Secrets: an answer shows a secret only to a request granted agent:write
      ([secrets_need_agent_write]).
    - Drivers: a Redis command is read back as encoded
      ([resp_command_roundtrip]) and reading ends; no full backup of Redis
      starts ([redis_backup_cannot_start]). The rows of a PostgreSQL table
      survive a dump whatever they hold ([pg_rows_survive]) and a restore runs
      the statements of the dump in order ([pg_restore_runs_dump]), except
      that a view breaks it ([pg_view_breaks_restore]); results are read back
      exactly ([pg_result_roundtrip]); required TLS is kept
      ([pg_required_tls_kept]) but for one query
      ([pg_lsn_sends_password_in_clear]). Ordinary rows of MySQL survive a
      dump ([mysql_rows_survive]), a value that starts with 0x is run as SQL
      ([mysql_value_runs_as_sql]), and the native protocol crashes the agent
      ([mysql_native_panics]). Parsing a document of MongoDB ends on all
      bytes; its native protocol reaches no server
      ([mongo_native_cannot_start]) and a native restore changes nothing
      ([mongo_restore_changes_nothing]); files with passwords are removed
      ([mongo_password_files_removed]).
    - Departures: theorems of kind error exhibit inputs on which the code
      does not do what it means to; each is closed or has a concrete witness.

    ** Bounds and fuel

    [Fuel] is not a behaviour of the code. Tree walks take a fuel larger than
    the tree's height; the free list, retention and repair loops get one pass
    more than the pages or items they can visit, which is proved enough; the
    search of [Next] may run [2 ^ 28] passes, more than the seconds of its
    five-year horizon. The file has at most [maxPages = 2 ^ 51] pages, so that
    its size fits a signed 64-bit integer. [Put] is total while every entry
    takes at most [smallEntry = 180] bytes; above it the split by count can
    refuse an insertion, which [btree_put_refines] allows for and
    [count_split_refuses_small_value] exhibits. The start of a PostgreSQL
    connection and the pages of a Redis scan are bounded by an argument, since
    a server may never end them; what reads a finite stream is given fuel for
    its length, which is proved enough.

    ** What is not modelled

    Cryptographic primitives, JSON, compression codecs, the zone database and
    the operating system are parameters, with what the code relies on as
    hypotheses or classes and an instance that satisfies them. Locks are
    modelled by taking each method as one step; where the code holds no lock
    across two transactions, [concurrent_claims_share_a_job] shows what
    follows. Locations other than UTC are modelled for windows, not for cron
    expressions. The laws of [KV] hold of the B+tree but for the deletions and
    scans of KvProps, and are a hypothesis here. Handlers take decoded
    bodies; branches for stores that are not configured, the metadata of
    audit events and url.Parse are left out or parameters. [Delete] and
    [Scan] are not proved on the trees on which they are correct. The
    clients of remote storage are taken one call at a time, S3Proofs shows what
    two can do; cancellation and temporary files of uploads are left out. Key
    slots, configuration, metrics, the command line, the HTTP and gRPC interfaces
    and the web interface are input/output or glue and are left out. *)

From Stdlib Require Export ZArith Lia.
From Stdlib Require Import List Ascii String.
From Stdlib Require Import Strings.Byte.
From stdpp Require Export base list gmap strings sorting.

Local Open Scope Z_scope.

(** ** Hint databases and tactics of the development *)

Create HintDb kronos discriminated.
Create Rewrite HintDb klen.

(** [klia]: arithmetic after normalising list lengths. *)
Ltac klia := autorewrite with klen in *; simpl length in *; lia.

(** [case_bool E]: case on the first boolean test of the goal, keeping its
    value as [E]. *)
Ltac case_bool E :=
  match goal with
  | |- context [if ?b then _ else _] => destruct b eqn:E
  end.

(** ** Outcomes: what a Go call can do

    [Ok] is a normal return with a nil error, [Err] a non-nil error,
    [Panic] a run-time panic (index out of range), and [Fuel] marks that a
    fuel-bounded model of a loop ran out of fuel (it is not a behaviour of
    the code; the theorems show where it cannot occur). *)

Inductive outcome (A : Type) : Type :=
| Ok (a : A)
| Err (msg : string)
| Panic (msg : string)
| Fuel.

Arguments Ok {A} a.
Arguments Err {A} msg.
Arguments Panic {A} msg.
Arguments Fuel {A}.

Definition obind {A B} (m : outcome A) (k : A -> outcome B) : outcome B :=
  match m with
  | Ok a => k a
  | Err e => Err e
  | Panic e => Panic e
  | Fuel => Fuel
  end.

Definition is_ok {A} (m : outcome A) : bool :=
  match m with Ok _ => true | _ => false end.

(** A state-passing computation that keeps the state it has reached also
    when it fails: Go methods mutate their receiver before returning an
    error. *)
Definition M (S A : Type) : Type := S -> outcome A * S.

Definition mret {S A} (a : A) : M S A := fun s => (Ok a, s).
Definition merr {S A} (msg : string) : M S A := fun s => (Err msg, s).
Definition mpanic {S A} (msg : string) : M S A := fun s => (Panic msg, s).
Definition mfuel {S A} : M S A := fun s => (Fuel, s).
Definition mlift {S A} (o : outcome A) : M S A := fun s => (o, s).

Definition mbind {S A B} (m : M S A) (k : A -> M S B) : M S B :=
  fun s =>
    match m s with
    | (Ok a, s') => k a s'
    | (Err e, s') => (Err e, s')
    | (Panic e, s') => (Panic e, s')
    | (Fuel, s') => (Fuel, s')
    end.

Declare Scope kronos_scope.
Delimit Scope kronos_scope with kronos.

Notation "x <-- m ;; k" := (mbind m (fun x => k))
  (at level 100, m at next level, right associativity) : kronos_scope.
Notation "x <~ m ;; k" := (obind m (fun x => k))
  (at level 100, m at next level, right associativity) : kronos_scope.

Open Scope kronos_scope.

Lemma obind_ok {A B} (m : outcome A) (k : A -> outcome B) b :
  obind m k = Ok b -> exists a, m = Ok a /\ k a = Ok b.
Proof. destruct m; simpl; try discriminate. eauto. Qed.

Lemma mbind_ok {S A B} (m : M S A) (k : A -> M S B) s b s' :
  mbind m k s = (Ok b, s') ->
  exists a s1, m s = (Ok a, s1) /\ k a s1 = (Ok b, s').
Proof.
  unfold mbind. destruct (m s) as [[a|e|e|] s1] eqn:E; intros H; try discriminate.
  eauto.
Qed.

Lemma mbind_step {S A B} (m : M S A) (k : A -> M S B) s a s1 :
  m s = (Ok a, s1) -> mbind m k s = k a s1.
Proof. intros H. unfold mbind. now rewrite H. Qed.

Lemma mbind_fail {S A B} (m : M S A) (k : A -> M S B) s e s1 :
  m s = (Err e, s1) -> mbind m k s = (Err e, s1).
Proof. intros H. unfold mbind. now rewrite H. Qed.

Lemma mbind_assoc {S A B C} (m : M S A) (f : A -> M S B) (g : B -> M S C) s :
  mbind m (fun a => mbind (f a) g) s = mbind (mbind m f) g s.
Proof. unfold mbind. now destruct (m s) as [[a|e|e|] s1]. Qed.

(** Split every bind of a successful run into its two halves. *)
Ltac mrun H :=
  repeat (apply mbind_ok in H; destruct H as (? & ? & ? & H)).

(** ** Machine integers *)

Definition u64 (z : Z) : Z := z mod 2 ^ 64.
Definition u16 (z : Z) : Z := z mod 2 ^ 16.
Definition i64 (z : Z) : Z := (z + 2 ^ 63) mod 2 ^ 64 - 2 ^ 63.

Lemma u64_range z : 0 <= u64 z < 2 ^ 64.
Proof. unfold u64. apply Z.mod_pos_bound. lia. Qed.

Lemma i64_range z : - 2 ^ 63 <= i64 z < 2 ^ 63.
Proof. unfold i64. pose proof (Z.mod_pos_bound (z + 2 ^ 63) (2 ^ 64)). lia. Qed.

Lemma i64_id z : - 2 ^ 63 <= z < 2 ^ 63 -> i64 z = z.
Proof. intros H. unfold i64. rewrite Z.mod_small; lia. Qed.

Lemma u64_id z : 0 <= z < 2 ^ 64 -> u64 z = z.
Proof. intros H. unfold u64. apply Z.mod_small. lia. Qed.

(** ** Bytes *)

Abbreviation byte := Byte.byte.

#[export] Instance byte_eq_dec : EqDecision byte := Byte.byte_eq_dec.

Definition b2z (b : byte) : Z := Z.of_N (Byte.to_N b).

(** Conversion of an integer to [byte] keeps the low eight bits. *)
Definition z2b (z : Z) : byte :=
  match Byte.of_N (Z.to_N (z mod 256)) with
  | Some b => b
  | None => Byte.x00
  end.

Lemma b2z_range b : 0 <= b2z b < 256.
Proof. unfold b2z. pose proof (Byte.to_N_bounded b). lia. Qed.

Lemma b2z_z2b z : b2z (z2b z) = z mod 256.
Proof.
  unfold z2b, b2z. pose proof (Z.mod_pos_bound z 256 ltac:(lia)) as Hb.
  destruct (Byte.of_N (Z.to_N (z mod 256))) as [b|] eqn:E.
  - apply Byte.to_of_N in E. rewrite E. lia.
  - apply Byte.of_N_None_iff in E. lia.
Qed.

Lemma z2b_b2z b : z2b (b2z b) = b.
Proof.
  unfold z2b, b2z. pose proof (Byte.to_N_bounded b).
  rewrite Z.mod_small by lia. rewrite N2Z.id, Byte.of_to_N. reflexivity.
Qed.

Lemma b2z_inj a b : b2z a = b2z b -> a = b.
Proof. intros H. rewrite <- (z2b_b2z a), <- (z2b_b2z b). now rewrite H. Qed.

Abbreviation bytes := (list Byte.byte).

#[export] Instance byte_countable : Countable byte.
Proof. apply (inj_countable Byte.to_N Byte.of_N). intros b. apply Byte.of_to_N. Defined.

(** *** Little- and big-endian integers (encoding/binary) *)

Fixpoint le_encode (n : nat) (z : Z) : bytes :=
  match n with
  | O => []
  | S n' => z2b z :: le_encode n' (z / 256)
  end.

Fixpoint le_decode (l : bytes) : Z :=
  match l with
  | [] => 0
  | b :: r => b2z b + 256 * le_decode r
  end.

Definition be_encode (n : nat) (z : Z) : bytes := reverse (le_encode n z).
Definition be_decode (l : bytes) : Z := le_decode (reverse l).

Lemma le_encode_length n z : length (le_encode n z) = n.
Proof. revert z. induction n; simpl; auto. Qed.

Lemma be_encode_length n z : length (be_encode n z) = n.
Proof. unfold be_encode. rewrite length_reverse. apply le_encode_length. Qed.

Lemma le_decode_encode n z :
  le_decode (le_encode n z) = z mod 256 ^ Z.of_nat n.
Proof.
  revert z. induction n as [|n IH]; intros z.
  - simpl. now rewrite Z.mod_1_r.
  - cbn [le_encode le_decode]. rewrite IH, b2z_z2b.
    rewrite Nat2Z.inj_succ, Z.pow_succ_r by lia.
    rewrite Z.rem_mul_r by lia. lia.
Qed.

Lemma le_decode_bound l : 0 <= le_decode l < 256 ^ Z.of_nat (length l).
Proof.
  induction l as [|b r IH]; [simpl; lia|].
  cbn [le_decode length]. rewrite Nat2Z.inj_succ, Z.pow_succ_r by lia.
  pose proof (b2z_range b). lia.
Qed.

Lemma le_encode_decode l : le_encode (length l) (le_decode l) = l.
Proof.
  induction l as [|b r IH]; [reflexivity|].
  cbn [le_encode le_decode length].
  pose proof (b2z_range b) as Hb.
  replace ((b2z b + 256 * le_decode r) / 256) with (le_decode r).
  - rewrite IH. f_equal. apply b2z_inj. rewrite b2z_z2b.
    replace (b2z b + 256 * le_decode r) with (b2z b + le_decode r * 256) by lia.
    rewrite Z_mod_plus_full. apply Z.mod_small. lia.
  - replace (b2z b + 256 * le_decode r) with (b2z b + le_decode r * 256) by lia.
    rewrite Z_div_plus_full by lia. rewrite Z.div_small by lia. lia.
Qed.

Lemma le_decode_encode_small n z :
  0 <= z < 256 ^ Z.of_nat n -> le_decode (le_encode n z) = z.
Proof. intros H. rewrite le_decode_encode. now apply Z.mod_small. Qed.

Lemma be_decode_encode_small n z :
  0 <= z < 256 ^ Z.of_nat n -> be_decode (be_encode n z) = z.
Proof.
  intros H. unfold be_decode, be_encode. rewrite reverse_involutive.
  now apply le_decode_encode_small.
Qed.

#[export] Hint Rewrite @length_app @length_take @length_drop @length_replicate
  @le_encode_length @be_encode_length @length_reverse @length_fmap @length_insert : klen.

(** ** Slices of Go byte slices and arrays, with integer offsets *)

Definition zlen {A} (l : list A) : Z := Z.of_nat (length l).

(** [l[off : off+n]] *)
Definition zslice {A} (off n : Z) (l : list A) : list A :=
  take (Z.to_nat n) (drop (Z.to_nat off) l).

(** [copy(l[off : off+len(bs)], bs)] *)
Definition zput {A} (off : Z) (bs l : list A) : list A :=
  take (Z.to_nat off) l ++ bs ++ drop (Z.to_nat off + length bs) l.

Lemma zlen_nonneg {A} (l : list A) : 0 <= zlen l.
Proof. unfold zlen. lia. Qed.

Lemma zlen_app {A} (l k : list A) : zlen (l ++ k) = zlen l + zlen k.
Proof. unfold zlen. rewrite length_app. lia. Qed.

Lemma zlen_cons {A} (x : A) l : zlen (x :: l) = zlen l + 1.
Proof. unfold zlen. simpl length. lia. Qed.

Lemma zlen_nil {A} : zlen (@nil A) = 0.
Proof. reflexivity. Qed.

Lemma zlen_zslice {A} off n (l : list A) :
  0 <= off -> 0 <= n -> off + n <= zlen l -> zlen (zslice off n l) = n.
Proof. unfold zlen, zslice. intros. rewrite length_take, length_drop. lia. Qed.

Lemma zlen_zput {A} off (bs l : list A) :
  0 <= off -> off + zlen bs <= zlen l -> zlen (zput off bs l) = zlen l.
Proof.
  unfold zlen, zput. intros.
  rewrite !length_app, length_take, length_drop. lia.
Qed.

Lemma zslice_zput_same {A} off n (bs l : list A) :
  0 <= off -> n = zlen bs -> off + n <= zlen l -> zslice off n (zput off bs l) = bs.
Proof.
  unfold zlen, zslice, zput. intros H0 -> H1.
  rewrite drop_app_length' by (rewrite length_take; lia).
  rewrite Nat2Z.id. apply take_app_length.
Qed.

Lemma zslice_lookup {A} off n (l : list A) i :
  0 <= off -> zslice off n l !! i =
    if decide (Z.of_nat i < n) then l !! (Z.to_nat off + i)%nat else None.
Proof.
  intros. unfold zslice. case_decide.
  - rewrite lookup_take_lt by lia. apply lookup_drop.
  - apply lookup_take_ge. lia.
Qed.

Lemma zput_lookup_in {A} off (bs l : list A) i :
  0 <= off <= zlen l -> (Z.to_nat off <= i < Z.to_nat off + length bs)%nat ->
  zput off bs l !! i = bs !! (i - Z.to_nat off)%nat.
Proof.
  unfold zlen, zput. intros Ho Hi.
  rewrite lookup_app_r by (rewrite length_take; lia).
  rewrite length_take. rewrite lookup_app_l by lia. f_equal. lia.
Qed.

Lemma zput_lookup_out {A} off (bs l : list A) i :
  0 <= off -> off + zlen bs <= zlen l ->
  (i < Z.to_nat off \/ Z.to_nat off + length bs <= i)%nat ->
  zput off bs l !! i = l !! i.
Proof.
  unfold zlen, zput. intros Ho Hl [Hi|Hi].
  - rewrite lookup_app_l by (rewrite length_take; lia). apply lookup_take_lt. lia.
  - rewrite lookup_app_r by (rewrite length_take; lia).
    rewrite length_take. rewrite lookup_app_r by lia.
    rewrite lookup_drop. f_equal. lia.
Qed.

(** A write leaves every slice it does not overlap unchanged. *)
Lemma zslice_zput_disjoint {A} off o n (bs l : list A) :
  0 <= o -> 0 <= off -> o + n <= off \/ off + zlen bs <= o ->
  off + zlen bs <= zlen l ->
  zslice o n (zput off bs l) = zslice o n l.
Proof.
  intros Ho Hoff Hd Hl. apply list_eq. intros i.
  rewrite !zslice_lookup by lia. case_decide; [|reflexivity].
  unfold zlen in *. apply zput_lookup_out; unfold zlen; lia.
Qed.

#[export] Hint Rewrite @zlen_app @zlen_cons @zlen_nil : klen.

(** ** bytes.Compare: lexicographic order *)

Fixpoint bcompare (a b : bytes) : comparison :=
  match a, b with
  | [], [] => Eq
  | [], _ :: _ => Lt
  | _ :: _, [] => Gt
  | x :: a', y :: b' =>
      match b2z x ?= b2z y with
      | Eq => bcompare a' b'
      | c => c
      end
  end.

Definition bltb (a b : bytes) : bool :=
  match bcompare a b with Lt => true | _ => false end.

Definition beqb (a b : bytes) : bool :=
  match bcompare a b with Eq => true | _ => false end.

Definition blt (a b : bytes) : Prop := bcompare a b = Lt.

Lemma bcompare_refl a : bcompare a a = Eq.
Proof. induction a as [|x a IH]; simpl; [done|]. now rewrite Z.compare_refl. Qed.

Lemma bcompare_eq a b : bcompare a b = Eq <-> a = b.
Proof.
  split; [|intros ->; apply bcompare_refl].
  revert b. induction a as [|x a IH]; intros [|y b]; simpl; try discriminate; [done|].
  destruct (b2z x ?= b2z y) eqn:E; try discriminate.
  intros H. apply Z.compare_eq_iff in E. apply b2z_inj in E. f_equal; auto.
Qed.

Lemma bcompare_antisym a b : bcompare b a = CompOpp (bcompare a b).
Proof.
  revert b. induction a as [|x a IH]; intros [|y b]; simpl; try done.
  rewrite (Z.compare_antisym (b2z x) (b2z y)).
  destruct (b2z x ?= b2z y); simpl; auto.
Qed.

Lemma blt_trans a b c : blt a b -> blt b c -> blt a c.
Proof.
  unfold blt. revert b c.
  induction a as [|x a IH]; intros [|y b] [|z c]; simpl; try discriminate; [done..|].
  destruct (b2z x ?= b2z y) eqn:E1; destruct (b2z y ?= b2z z) eqn:E2; try discriminate;
    intros H1 H2.
  - apply Z.compare_eq_iff in E1. rewrite E1, E2. eauto.
  - apply Z.compare_eq_iff in E1. now rewrite E1, E2.
  - apply Z.compare_eq_iff in E2. now rewrite <- E2, E1.
  - rewrite Z.compare_lt_iff in E1, E2.
    replace (b2z x ?= b2z z) with Lt by (symmetry; apply Z.compare_lt_iff; lia). done.
Qed.

Lemma blt_irrefl a : ~ blt a a.
Proof. unfold blt. rewrite bcompare_refl. discriminate. Qed.

#[export] Instance blt_strict : StrictOrder blt.
Proof. split; [exact blt_irrefl|exact blt_trans]. Qed.

#[export] Instance blt_dec : RelDecision blt.
Proof. intros a b. unfold blt. solve_decision. Defined.

Lemma bltb_lt a b : bltb a b = true <-> blt a b.
Proof. unfold bltb, blt. destruct (bcompare a b); split; intros; congruence. Qed.

Lemma beqb_eq a b : beqb a b = true <-> a = b.
Proof.
  unfold beqb. rewrite <- bcompare_eq. destruct (bcompare a b); split; congruence.
Qed.

Lemma bltb_nlt a b : bltb a b = false <-> ~ blt a b.
Proof. rewrite <- bltb_lt. destruct (bltb a b); split; intros; congruence. Qed.

Lemma blt_trichotomy a b : blt a b \/ a = b \/ blt b a.
Proof.
  unfold blt. rewrite (bcompare_antisym a b), <- bcompare_eq.
  destruct (bcompare a b); simpl; auto.
Qed.

Lemma blt_not_lt_trans a b c : ~ blt b a -> blt b c -> blt a c.
Proof.
  intros H1 H2. destruct (blt_trichotomy a b) as [H|[->|H]]; [|done|contradiction].
  eapply blt_trans; eauto.
Qed.

Lemma blt_app_prefix p a b : blt (p ++ a) (p ++ b) <-> blt a b.
Proof.
  unfold blt. induction p as [|x p IH]; simpl; [done|]. now rewrite Z.compare_refl.
Qed.

(** ** sort.Slice and sort.SliceStable

    A stable insertion sort; [sort.Slice] is not stable, so a theorem about
    a caller of [sort.Slice] only uses the order of elements whose keys
    differ. *)

Fixpoint insert_by {A} (less : A -> A -> bool) (x : A) (l : list A) : list A :=
  match l with
  | [] => [x]
  | y :: r => if less y x then y :: insert_by less x r else x :: y :: r
  end.

Definition sort_by {A} (less : A -> A -> bool) (l : list A) : list A :=
  foldr (insert_by less) [] l.

Section sorting.
  Context {A : Type} (less : A -> A -> bool).

Lemma insert_by_perm x l : insert_by less x l ≡ₚ x :: l.
Proof.
  induction l as [|y r IH]; simpl; [done|].
  destruct (less y x); [|done]. rewrite IH. apply Permutation_swap.
Qed.

Lemma sort_by_perm l : sort_by less l ≡ₚ l.
Proof.
  induction l as [|x l IH]; simpl; [done|]. rewrite insert_by_perm. now constructor.
Qed.

Lemma sort_by_length l : length (sort_by less l) = length l.
Proof. now rewrite sort_by_perm. Qed.

Lemma sort_by_in l x : In x (sort_by less l) <-> In x l.
Proof. rewrite <- !list_elem_of_In. now rewrite sort_by_perm. Qed.

  (** [less] is a strict weak order. *)
  Context (less_irrefl : forall x, less x x = false)
          (less_trans : forall x y z, less x y = true -> less y z = true -> less x z = true)
          (nless_trans : forall x y z, less x y = false -> less y z = false -> less x z = false).

Lemma insert_by_sorted x l :
  StronglySorted (fun a b => less b a = false) l ->
  StronglySorted (fun a b => less b a = false) (insert_by less x l).
Proof using less_irrefl less_trans nless_trans.
  induction 1 as [|y r Hs IH Hf]; simpl; [repeat constructor|].
  destruct (less y x) eqn:E.
  - constructor; [exact IH|]. apply Forall_forall. intros z Hz.
    rewrite insert_by_perm in Hz. apply elem_of_cons in Hz as [->|Hz].
    + destruct (less x y) eqn:E2; [|done].
      pose proof (less_trans _ _ _ E2 E). pose proof (less_irrefl x). congruence.
    + rewrite Forall_forall in Hf. auto.
  - constructor; [constructor; auto|]. constructor; [done|].
    rewrite Forall_forall in *. intros z Hz. eapply nless_trans; [apply Hf, Hz|done].
Qed.

Lemma sort_by_sorted l :
  StronglySorted (fun a b => less b a = false) (sort_by less l).
Proof using less_irrefl less_trans nless_trans.
  induction l; simpl; [constructor|]. now apply insert_by_sorted.
Qed.
End sorting.
