(* ===== verification/KvNode.v ===== *)
(** * kvstore: one B+Tree node and its page layout

    Models the node half of src/internal/kvstore/btree.go: the node and entry
    records, the in-node operations (binary search, insertion, deletion,
    splitting, child selection, the size check) and the page codec
    ([decodeNode], [writeNode]'s page writing). *)

From S2P Require Import Prelude.
Local Open Scope Z_scope.

(** pager.go: [PageSize]; btree.go: layout constants and node kinds. *)
Definition PageSize : Z := 4096.
Definition nodeHeaderSize : Z := 16.
Definition nodeEntrySize : Z := 16.
Definition nodeLeaf : Z := 1.
Definition nodeBranch : Z := 2.

(** [btreeEntry]: a leaf entry uses [e_value], a branch entry [e_child]. *)
Record btreeEntry := mkEntry { e_key : bytes; e_value : bytes; e_child : Z }.

Record btreeNode := mkNode
  { n_id : Z; n_typ : Z; n_next : Z; n_entries : list btreeEntry }.

#[export] Instance btreeEntry_eq_dec : EqDecision btreeEntry.
Proof. solve_decision. Defined.

Definition with_entries (n : btreeNode) (es : list btreeEntry) : btreeNode :=
  mkNode (n_id n) (n_typ n) (n_next n) es.

(** ** Operations inside one node *)

(** The key of entry [i]; the callers below stay in range
    ([lowerBound_loop_spec]). *)
Definition key_at (es : list btreeEntry) (i : nat) : bytes :=
  match es !! i with Some e => e_key e | None => [] end.

Fixpoint lowerBound_loop (fuel : nat) (es : list btreeEntry) (key : bytes)
    (lo hi : nat) : nat :=
  match fuel with
  | O => lo
  | S f =>
      if (lo <? hi)%nat then
        let mid := (lo + (hi - lo) / 2)%nat in
        if bltb (key_at es mid) key
        then lowerBound_loop f es key (mid + 1) hi
        else lowerBound_loop f es key lo mid
      else lo
  end.

Definition lowerBound (es : list btreeEntry) (key : bytes) : nat :=
  lowerBound_loop (S (length es)) es key 0 (length es).

Definition search (es : list btreeEntry) (key : bytes) : option nat :=
  let idx := lowerBound es key in
  if (length es <=? idx)%nat || negb (beqb (key_at es idx) key) then None else Some idx.

Definition insertEntry (es : list btreeEntry) (e : btreeEntry) : list btreeEntry :=
  let idx := lowerBound es (e_key e) in
  if (idx <? length es)%nat && beqb (key_at es idx) (e_key e)
  then <[idx := e]> es
  else take idx es ++ e :: drop idx es.

Definition deleteEntry (es : list btreeEntry) (key : bytes) : option (list btreeEntry) :=
  match search es key with
  | None => None
  | Some idx => Some (take idx es ++ drop (S idx) es)
  end.

(** An empty list would make the second [make] panic with a negative
    length; [nodeFits] holds of an empty node, so no caller gets there. *)
Definition splitEntries (es : list btreeEntry)
    : outcome (list btreeEntry * list btreeEntry) :=
  match es with
  | [] => Panic "makeslice: len out of range"
  | _ =>
      let mid := (length es / 2)%nat in
      let mid := if (mid =? 0)%nat then 1%nat else mid in
      Ok (take mid es, drop mid es)
  end.

Definition firstKey (es : list btreeEntry) : bytes := key_at es 0.

(** [childIndexFor]: -1 on a node with no entries. *)
Definition childIndexFor (es : list btreeEntry) (key : bytes) : Z :=
  let idx := lowerBound es key in
  if (length es <=? idx)%nat then zlen es - 1
  else if bltb key (key_at es idx) && (0 <? idx)%nat then Z.of_nat idx - 1
  else Z.of_nat idx.

Definition childFor (n : btreeNode) (key : bytes) : outcome Z :=
  let es := n_entries n in
  if negb (n_typ n =? nodeBranch) then Err "node is not a branch"
  else if (length es =? 0)%nat then Err "branch node has no entries"
  else
    let idx := lowerBound es key in
    let idx := if (length es <=? idx)%nat then (length es - 1)%nat else idx in
    let idx := if bltb key (key_at es idx) && (0 <? idx)%nat then (idx - 1)%nat else idx in
    match es !! idx with
    | Some e => Ok (e_child e)
    | None => Panic "index out of range"
    end.

Definition entryBytes (e : btreeEntry) : Z := zlen (e_key e) + zlen (e_value e).

Definition payload (es : list btreeEntry) : Z :=
  foldr (fun e acc => entryBytes e + acc) 0 es.

Definition nodeSize (n : btreeNode) : Z :=
  nodeHeaderSize + zlen (n_entries n) * nodeEntrySize + payload (n_entries n).

Definition nodeFits (n : btreeNode) : bool := nodeSize n <=? PageSize.

(** ** Page codec *)

Definition get_u16 (off : Z) (page : bytes) : Z := le_decode (zslice off 2 page).
Definition get_u64 (off : Z) (page : bytes) : Z := le_decode (zslice off 8 page).
Definition put_u16 (off v : Z) (page : bytes) : bytes := zput off (le_encode 2 v) page.
Definition put_u64 (off v : Z) (page : bytes) : bytes := zput off (le_encode 8 v) page.
Definition zero_page : bytes := replicate (Z.to_nat PageSize) Byte.x00.

(** One iteration of [decodeNode]'s loop, up to the order check. *)
Definition decodeEntry (page : bytes) (i : Z) : outcome btreeEntry :=
  let base := nodeHeaderSize + i * nodeEntrySize in
  let keyOff := get_u16 base page in
  let keyLen := get_u16 (base + 2) page in
  let valOff := get_u16 (base + 4) page in
  let valLen := get_u16 (base + 6) page in
  let child := get_u64 (base + 8) page in
  if keyLen =? 0 then Err "entry has empty key"
  else if (keyOff <? 0) || (keyLen <? 0) || (PageSize <? keyOff + keyLen)
  then Err "entry key out of range"
  else if (valOff <? 0) || (valLen <? 0) || (PageSize <? valOff + valLen)
  then Err "entry value out of range"
  else Ok (mkEntry (zslice keyOff keyLen page) (zslice valOff valLen page) child).

Fixpoint decodeEntries (typ : Z) (page : bytes) (n : nat) (i : Z)
    (acc : list btreeEntry) : outcome (list btreeEntry) :=
  match n with
  | O => Ok acc
  | S n' =>
      e <~ decodeEntry page i ;;
      if match last acc with
         | Some prev => negb (bltb (e_key prev) (e_key e))
         | None => false
         end
      then Err "keys out of order"
      else if (typ =? nodeBranch) && (e_child e =? 0)
      then Err "branch entry has no child"
      else decodeEntries typ page n' (i + 1) (acc ++ [e])
  end.

Definition decodeNode (id : Z) (page : bytes) : outcome btreeNode :=
  if negb (zlen page =? PageSize) then Err "page has wrong size"
  else
    let typ := match page !! 0%nat with Some b => b2z b | None => 0 end in
    if negb (typ =? nodeLeaf) && negb (typ =? nodeBranch)
    then Err "page has invalid node type"
    else
      let count := get_u16 2 page in
      let next := get_u64 8 page in
      if PageSize <? nodeHeaderSize + count * nodeEntrySize
      then Err "page entry directory overflow"
      else
        es <~ decodeEntries typ page (Z.to_nat count) 0 [] ;;
        Ok (mkNode id typ next es).

(** [writeNode]'s entry loop: values and keys grow down from the page end,
    the directory grows up from the header. *)
Fixpoint writeEntries (es : list btreeEntry) (i cursor : Z) (page : bytes)
    : outcome unit * bytes :=
  match es with
  | [] => (Ok tt, page)
  | e :: r =>
      if (length (e_key e) =? 0)%nat then (Err "entry has empty key", page)
      else
        let valueOff := cursor - zlen (e_value e) in
        let page := zput valueOff (e_value e) page in
        let keyOff := valueOff - zlen (e_key e) in
        let page := zput keyOff (e_key e) page in
        let base := nodeHeaderSize + i * nodeEntrySize in
        let page := put_u16 base keyOff page in
        let page := put_u16 (base + 2) (zlen (e_key e)) page in
        let page := put_u16 (base + 4) valueOff page in
        let page := put_u16 (base + 6) (zlen (e_value e)) page in
        let page := put_u64 (base + 8) (e_child e) page in
        writeEntries r (i + 1) keyOff page
  end.

(** [writeNode] on the bytes of the node's page (mutated in place). *)
Definition encodeNode (n : btreeNode) (page : bytes) : outcome unit * bytes :=
  if negb (nodeFits n) then (Err "node does not fit in one page", page)
  else
    let page := zero_page in
    let page := zput 0 [z2b (n_typ n)] page in
    let page := put_u16 2 (zlen (n_entries n)) page in
    let page := put_u64 8 (n_next n) page in
    writeEntries (n_entries n) 0 PageSize page.

(** ** Well-formed nodes *)

Definition entry_lt (a b : btreeEntry) : Prop := blt (e_key a) (e_key b).

Definition sorted_entries (es : list btreeEntry) : Prop := StronglySorted entry_lt es.

Definition entry_ok (typ : Z) (e : btreeEntry) : Prop :=
  e_key e <> [] /\ 0 <= e_child e < 2 ^ 64 /\ (typ = nodeBranch -> e_child e <> 0).

Definition node_ok (n : btreeNode) : Prop :=
  (n_typ n = nodeLeaf \/ n_typ n = nodeBranch) /\
  0 <= n_next n < 2 ^ 64 /\
  Forall (entry_ok (n_typ n)) (n_entries n) /\
  sorted_entries (n_entries n).

(** ** Binary search *)

Lemma sorted_lookup es i j a b :
  sorted_entries es -> es !! i = Some a -> es !! j = Some b -> (i < j)%nat ->
  blt (e_key a) (e_key b).
Proof.
  intros Hs Ha Hb Hij.
  apply (StronglySorted_app_1_elem_of entry_lt (take j es) (drop j es)).
  - now rewrite take_drop.
  - apply list_elem_of_lookup_2 with i. rewrite lookup_take_lt; auto.
  - apply list_elem_of_lookup_2 with 0%nat. rewrite lookup_drop, Nat.add_0_r. auto.
Qed.

Lemma lowerBound_loop_spec fuel es key lo hi :
  sorted_entries es -> (lo <= hi <= length es)%nat -> (hi - lo < fuel)%nat ->
  (forall i e, es !! i = Some e -> (i < lo)%nat -> blt (e_key e) key) ->
  (forall i e, es !! i = Some e -> (hi <= i)%nat -> ~ blt (e_key e) key) ->
  let r := lowerBound_loop fuel es key lo hi in
  (r <= length es)%nat /\
  (forall i e, es !! i = Some e -> (i < r)%nat -> blt (e_key e) key) /\
  (forall i e, es !! i = Some e -> (r <= i)%nat -> ~ blt (e_key e) key).
Proof.
  intros Hs. revert lo hi. induction fuel as [|f IH]; intros lo hi Hb Hf Hlo Hhi; [lia|].
  cbn [lowerBound_loop]. destruct (Nat.ltb_spec lo hi) as [Hlt|Hge].
  2: { assert (lo = hi) by lia. subst. cbn. repeat split; auto. lia. }
  assert (Hd : ((hi - lo) / 2 < hi - lo)%nat) by (apply Nat.div_lt; lia).
  remember (lo + (hi - lo) / 2)%nat as mid eqn:Emid.
  destruct (lookup_lt_is_Some_2 es mid ltac:(lia)) as [em He].
  unfold key_at. rewrite He.
  destruct (bltb (e_key em) key) eqn:E.
  - apply bltb_lt in E. apply IH; try lia; [|exact Hhi].
    intros i e Hi Hlt'. destruct (decide (i = mid)) as [->|]; [congruence|].
    eapply blt_trans; [|exact E]. eapply sorted_lookup; eauto; lia.
  - apply bltb_nlt in E. apply IH; try lia; [exact Hlo|].
    intros i e Hi Hge Hc. destruct (decide (i = mid)) as [->|]; [congruence|].
    apply E. eapply blt_trans; [|exact Hc]. eapply sorted_lookup; eauto; lia.
Qed.

(** The binary search splits a sorted node at the first key not below [key]. *)
Lemma lowerBound_spec es key :
  sorted_entries es ->
  (lowerBound es key <= length es)%nat /\
  (forall i e, es !! i = Some e -> (i < lowerBound es key)%nat -> blt (e_key e) key) /\
  (forall i e, es !! i = Some e -> (lowerBound es key <= i)%nat -> ~ blt (e_key e) key).
Proof.
  intros Hs. apply lowerBound_loop_spec; auto; try lia.
  intros i e Hi Hc. apply lookup_lt_Some in Hi. lia.
Qed.

Lemma lowerBound_split es key :
  sorted_entries es ->
  exists pre suf, es = pre ++ suf /\ lowerBound es key = length pre /\
    Forall (fun e => blt (e_key e) key) pre /\
    Forall (fun e => ~ blt (e_key e) key) suf.
Proof.
  intros Hs. destruct (lowerBound_spec es key Hs) as (Hle & Hlt & Hge).
  exists (take (lowerBound es key) es), (drop (lowerBound es key) es).
  rewrite take_drop, length_take. repeat split; [lia| |].
  - apply Forall_lookup. intros i e Hi.
    apply lookup_take_Some in Hi as [Hi Hl]. eauto.
  - apply Forall_lookup. intros i e Hi. rewrite lookup_drop in Hi.
    eapply Hge; eauto. lia.
Qed.

(** The decomposition determines [lowerBound]. *)
Lemma lowerBound_app pre suf key :
  sorted_entries (pre ++ suf) ->
  Forall (fun e => blt (e_key e) key) pre ->
  Forall (fun e => ~ blt (e_key e) key) suf ->
  lowerBound (pre ++ suf) key = length pre.
Proof.
  intros Hs Hpre Hsuf. destruct (lowerBound_spec _ key Hs) as (Hle & Hlt & Hge).
  rewrite length_app in Hle.
  destruct (Nat.lt_trichotomy (lowerBound (pre ++ suf) key) (length pre)) as [H|[H|H]]; auto.
  - exfalso. destruct (lookup_lt_is_Some_2 pre _ H) as [e He].
    rewrite Forall_lookup in Hpre.
    apply (Hge (lowerBound (pre ++ suf) key) e); [|done|eapply Hpre; eauto].
    now apply lookup_app_l_Some.
  - exfalso. destruct (lookup_lt_is_Some_2 suf 0%nat ltac:(lia)) as [e He].
    rewrite Forall_lookup in Hsuf. eapply Hsuf; eauto.
    eapply (Hlt (length pre) e); auto.
    rewrite lookup_app_r, Nat.sub_diag; auto.
Qed.

(** Where a sorted list splits at a key, with the matching entry if any. *)
Inductive key_split (es : list btreeEntry) (key : bytes) : Type :=
| key_found pre e suf :
    es = pre ++ e :: suf -> e_key e = key ->
    Forall (fun e => blt (e_key e) key) pre ->
    Forall (fun e => blt key (e_key e)) suf -> key_split es key
| key_absent pre suf :
    es = pre ++ suf ->
    Forall (fun e => blt (e_key e) key) pre ->
    Forall (fun e => blt key (e_key e)) suf -> key_split es key.

Lemma key_split_of es key : sorted_entries es -> key_split es key.
Proof.
  induction es as [|x es IH]; intros Hs.
  - now apply (key_absent [] key [] []).
  - apply StronglySorted_cons in Hs as [Hx Hs].
    destruct (bcompare (e_key x) key) eqn:E.
    + apply bcompare_eq in E. apply (key_found _ _ [] x es); auto.
      eapply Forall_impl; [exact Hx|]. intros e He. now rewrite <- E.
    + destruct (IH Hs) as [pre e suf -> ? ? ?|pre suf -> ? ?].
      * apply (key_found _ _ (x :: pre) e suf); auto.
      * apply (key_absent _ _ (x :: pre) suf); auto.
    + assert (Hk : blt key (e_key x)).
      { unfold blt. rewrite bcompare_antisym, E. reflexivity. }
      apply (key_absent _ _ [] (x :: es)); auto. constructor; auto.
      eapply Forall_impl; [exact Hx|]. intros e He. eapply blt_trans; eauto.
Qed.

Lemma sorted_mid pre e suf :
  sorted_entries (pre ++ e :: suf) ->
  Forall (fun x => blt (e_key x) (e_key e)) pre /\
  Forall (fun x => blt (e_key e) (e_key x)) suf.
Proof.
  intros Hs. apply StronglySorted_app in Hs as (H1 & _ & H2).
  apply StronglySorted_cons in H2 as [H2 _]. split; [|exact H2].
  apply Forall_forall. intros x Hx. apply H1; auto. now left.
Qed.

Lemma blt_nlt_flip key (es : list btreeEntry) :
  Forall (fun e => blt key (e_key e)) es -> Forall (fun e => ~ blt (e_key e) key) es.
Proof.
  intros H. eapply Forall_impl; [exact H|]. intros e He Hc.
  exact (blt_irrefl _ (blt_trans _ _ _ He Hc)).
Qed.

Lemma lowerBound_found pre e suf key :
  sorted_entries (pre ++ e :: suf) -> e_key e = key ->
  lowerBound (pre ++ e :: suf) key = length pre.
Proof.
  intros Hs <-. destruct (sorted_mid _ _ _ Hs). apply lowerBound_app; auto.
  constructor; [apply blt_irrefl|]. now apply blt_nlt_flip.
Qed.

Lemma lowerBound_absent pre suf key :
  sorted_entries (pre ++ suf) ->
  Forall (fun e => blt (e_key e) key) pre -> Forall (fun e => blt key (e_key e)) suf ->
  lowerBound (pre ++ suf) key = length pre.
Proof. intros. apply lowerBound_app; auto. now apply blt_nlt_flip. Qed.

Lemma key_at_mid pre e suf : key_at (pre ++ e :: suf) (length pre) = e_key e.
Proof. unfold key_at. now rewrite list_lookup_middle. Qed.

Lemma absent_not_hit pre suf key :
  Forall (fun e => blt key (e_key e)) suf ->
  (length pre <? length (pre ++ suf))%nat && beqb (key_at (pre ++ suf) (length pre)) key = false.
Proof.
  intros Hs. destruct suf as [|e suf].
  - rewrite app_nil_r, Nat.ltb_irrefl. done.
  - rewrite key_at_mid. apply andb_false_iff. right.
    apply not_true_is_false. rewrite beqb_eq. intros <-.
    inv Hs. eapply blt_irrefl; eauto.
Qed.

(** *** What the in-node operations compute on a sorted node *)

Lemma insertEntry_found pre e suf e' :
  sorted_entries (pre ++ e :: suf) -> e_key e = e_key e' ->
  insertEntry (pre ++ e :: suf) e' = pre ++ e' :: suf.
Proof.
  intros Hs Hk. unfold insertEntry.
  rewrite (lowerBound_found _ _ _ _ Hs Hk), key_at_mid, Hk.
  replace (beqb (e_key e') (e_key e')) with true by (symmetry; now apply beqb_eq).
  destruct (Nat.ltb_spec (length pre) (length (pre ++ e :: suf))) as [|H].
  2: { rewrite length_app in H. simpl in H. lia. }
  simpl. rewrite insert_app_r_alt, Nat.sub_diag; auto.
Qed.

Lemma insertEntry_absent pre suf e :
  sorted_entries (pre ++ suf) ->
  Forall (fun x => blt (e_key x) (e_key e)) pre ->
  Forall (fun x => blt (e_key e) (e_key x)) suf ->
  insertEntry (pre ++ suf) e = pre ++ e :: suf.
Proof.
  intros Hs Hp Hf. unfold insertEntry. rewrite (lowerBound_absent _ _ _ Hs Hp Hf).
  rewrite absent_not_hit by auto. now rewrite take_app_length, drop_app_length.
Qed.

Lemma sorted_replace pre e suf e' :
  sorted_entries (pre ++ e :: suf) -> e_key e = e_key e' -> sorted_entries (pre ++ e' :: suf).
Proof.
  intros Hs Hk. apply StronglySorted_app in Hs as (H1 & H2 & H3).
  apply StronglySorted_cons in H3 as [H3 H4].
  apply StronglySorted_app. repeat split; auto.
  - intros a b Ha Hb. apply elem_of_cons in Hb as [->|Hb].
    + unfold entry_lt. rewrite <- Hk. apply H1; auto. now left.
    + apply H1; auto. now right.
  - apply StronglySorted_cons. split; auto. unfold entry_lt in *. now rewrite <- Hk.
Qed.

Lemma sorted_insert pre e suf :
  sorted_entries (pre ++ suf) ->
  Forall (fun x => blt (e_key x) (e_key e)) pre ->
  Forall (fun x => blt (e_key e) (e_key x)) suf ->
  sorted_entries (pre ++ e :: suf).
Proof.
  intros Hs Hp Hf. apply StronglySorted_app in Hs as (H1 & H2 & H3).
  apply StronglySorted_app. repeat split; auto.
  - intros a b Ha Hb. apply elem_of_cons in Hb as [->|Hb]; [|auto].
    rewrite Forall_forall in Hp. now apply Hp.
  - apply StronglySorted_cons. auto.
Qed.

Lemma sorted_remove pre e suf :
  sorted_entries (pre ++ e :: suf) -> sorted_entries (pre ++ suf).
Proof.
  intros Hs. apply StronglySorted_app in Hs as (H1 & H2 & H3).
  apply StronglySorted_cons in H3 as [H3 H4].
  apply StronglySorted_app. repeat split; auto.
  intros a b Ha Hb. apply H1; auto. now right.
Qed.

Lemma insertEntry_sorted es e : sorted_entries es -> sorted_entries (insertEntry es e).
Proof.
  intros Hs. destruct (key_split_of es (e_key e) Hs) as [pre x suf -> Hk Hp Hf|pre suf -> Hp Hf].
  - rewrite insertEntry_found by auto. eapply sorted_replace; eauto.
  - rewrite insertEntry_absent by auto. now apply sorted_insert.
Qed.

Lemma search_found pre e suf :
  sorted_entries (pre ++ e :: suf) -> search (pre ++ e :: suf) (e_key e) = Some (length pre).
Proof.
  intros Hs. unfold search. rewrite (lowerBound_found _ _ _ (e_key e) Hs eq_refl), key_at_mid.
  replace (beqb (e_key e) (e_key e)) with true by (symmetry; now apply beqb_eq).
  destruct (Nat.leb_spec (length (pre ++ e :: suf)) (length pre)) as [H|H]; [|done].
  rewrite length_app in H. simpl in H. lia.
Qed.

Lemma search_absent pre suf key :
  sorted_entries (pre ++ suf) ->
  Forall (fun e => blt (e_key e) key) pre -> Forall (fun e => blt key (e_key e)) suf ->
  search (pre ++ suf) key = None.
Proof.
  intros Hs Hp Hf. unfold search. rewrite (lowerBound_absent _ _ _ Hs Hp Hf).
  pose proof (absent_not_hit pre suf key Hf) as H.
  rewrite Nat.leb_antisym, <- negb_andb. now rewrite H.
Qed.

Lemma deleteEntry_found pre e suf :
  sorted_entries (pre ++ e :: suf) ->
  deleteEntry (pre ++ e :: suf) (e_key e) = Some (pre ++ suf).
Proof.
  intros Hs. unfold deleteEntry. rewrite search_found by auto.
  rewrite take_app_length. f_equal. f_equal.
  rewrite drop_app_ge by lia. now replace (S (length pre) - length pre)%nat with 1%nat by lia.
Qed.

Lemma deleteEntry_absent pre suf key :
  sorted_entries (pre ++ suf) ->
  Forall (fun e => blt (e_key e) key) pre -> Forall (fun e => blt key (e_key e)) suf ->
  deleteEntry (pre ++ suf) key = None.
Proof. intros. unfold deleteEntry. now rewrite search_absent. Qed.

(** Both child selectors pick the last entry whose key is not above [key],
    or the first entry. *)
Definition child_split (es : list btreeEntry) (key : bytes)
    (pre : list btreeEntry) (c : btreeEntry) (suf : list btreeEntry) : Prop :=
  es = pre ++ c :: suf /\
  Forall (fun e => blt key (e_key e)) suf /\
  (pre = [] \/ ~ blt key (e_key c)).

Lemma bltb_refl key : bltb key key = false.
Proof. apply bltb_nlt, blt_irrefl. Qed.

Lemma childIndexFor_split es key :
  sorted_entries es -> es <> [] ->
  exists pre c suf, child_split es key pre c suf /\ childIndexFor es key = zlen pre.
Proof.
  intros Hs Hne. unfold childIndexFor, child_split.
  destruct (key_split_of es key Hs) as [pre x suf -> Hk Hp Hf|pre suf -> Hp Hf].
  - exists pre, x, suf. split; [repeat split; auto; right; rewrite Hk; apply blt_irrefl|].
    rewrite (lowerBound_found _ _ _ _ Hs Hk), key_at_mid, Hk, bltb_refl.
    destruct (Nat.leb_spec (length (pre ++ x :: suf)) (length pre)); [|done].
    rewrite length_app in *. simpl in *. lia.
  - pose proof (lowerBound_absent _ _ _ Hs Hp Hf) as Hl. rewrite Hl.
    destruct pre as [|p pre' _] using rev_ind.
    + destruct suf as [|x suf]; [done|]. exists [], x, suf. inv Hf. simpl.
      rewrite andb_false_r. auto.
    + exists pre', p, suf. apply Forall_app in Hp as [Hp Hpx]. inv Hpx.
      split; [rewrite <- app_assoc; repeat split; auto; right; intros Hc;
              eapply blt_irrefl, blt_trans; eauto|].
      destruct suf as [|y suf].
      * rewrite app_nil_r in *. rewrite Nat.leb_refl. unfold zlen. rewrite length_app. simpl. lia.
      * rewrite key_at_mid. inv Hf.
        replace (bltb key (e_key y)) with true by (symmetry; now apply bltb_lt).
        destruct (Nat.leb_spec (length ((pre' ++ [p]) ++ y :: suf)) (length (pre' ++ [p])));
          rewrite !length_app in *; simpl in *; [lia|].
        destruct (Nat.ltb_spec 0 (length pre' + 1)); [|lia]. unfold zlen. lia.
Qed.

(** [childFor] follows the pointer [childIndexFor] selects. *)
Lemma childFor_index n key :
  sorted_entries (n_entries n) -> n_entries n <> [] -> n_typ n = nodeBranch ->
  childFor n key =
    match n_entries n !! Z.to_nat (childIndexFor (n_entries n) key) with
    | Some e => Ok (e_child e)
    | None => Panic "index out of range"
    end.
Proof.
  intros Hs Hne Ht. unfold childFor, childIndexFor. rewrite Ht. simpl.
  destruct (lowerBound_spec (n_entries n) key Hs) as (Hle & Hlt & Hge).
  destruct (n_entries n) as [|e0 es0] eqn:E; [done|]. rewrite <- E in *.
  destruct (Nat.eqb_spec (length (n_entries n)) 0) as [H0|_]; [rewrite E in H0; done|].
  destruct (Nat.leb_spec (length (n_entries n)) (lowerBound (n_entries n) key)) as [H|H].
  - assert (Hb : bltb key (key_at (n_entries n) (length (n_entries n) - 1)) = false).
    { apply bltb_nlt. intros Hc.
      assert (length (n_entries n) > 0)%nat by (rewrite E; simpl; lia).
      destruct (lookup_lt_is_Some_2 (n_entries n) (length (n_entries n) - 1)%nat ltac:(lia))
        as [e He].
      unfold key_at in Hc. rewrite He in Hc.
      eapply blt_irrefl, blt_trans; [exact Hc|]. eapply Hlt; eauto. lia. }
    rewrite Hb. simpl.
    replace (Z.to_nat (zlen (n_entries n) - 1)) with (length (n_entries n) - 1)%nat
      by (unfold zlen; lia). done.
  - destruct (bltb key (key_at (n_entries n) (lowerBound (n_entries n) key)) &&
              (0 <? lowerBound (n_entries n) key)%nat).
    + replace (Z.to_nat (Z.of_nat (lowerBound (n_entries n) key) - 1))
        with (lowerBound (n_entries n) key - 1)%nat by lia. done.
    + now rewrite Nat2Z.id.
Qed.

Lemma childFor_split n key :
  sorted_entries (n_entries n) -> n_entries n <> [] -> n_typ n = nodeBranch ->
  exists pre c suf, child_split (n_entries n) key pre c suf /\
    childIndexFor (n_entries n) key = zlen pre /\ childFor n key = Ok (e_child c).
Proof.
  intros Hs Hne Ht. destruct (childIndexFor_split _ key Hs Hne) as (pre & c & suf & Hc & Hi).
  exists pre, c, suf. split; [done|]. split; [done|].
  rewrite childFor_index, Hi by auto. destruct Hc as (-> & _).
  unfold zlen. now rewrite Nat2Z.id, list_lookup_middle.
Qed.
