(* ===== verification/KvCodec.v ===== *)
(** * kvstore: the page codec round trip

    [writeNode] followed by [decodeNode] gives back the node, for every
    well-formed node that fits in a page (btree.go). *)

From S2P Require Import Prelude KvNode.
Local Open Scope Z_scope.

Lemma zlen_zero_page : zlen zero_page = PageSize.
Proof. reflexivity. Qed.

Lemma zlen_le_encode n z : zlen (le_encode n z) = Z.of_nat n.
Proof. unfold zlen. now rewrite le_encode_length. Qed.

Lemma payload_nonneg es : 0 <= payload es.
Proof.
  induction es as [|e es IH]; simpl; [lia|].
  unfold entryBytes. pose proof (zlen_nonneg (e_key e)). pose proof (zlen_nonneg (e_value e)). lia.
Qed.

Lemma entryBytes_nonneg e : 0 <= entryBytes e.
Proof.
  unfold entryBytes. pose proof (zlen_nonneg (e_key e)). pose proof (zlen_nonneg (e_value e)). lia.
Qed.

Lemma payload_cons e es : payload (e :: es) = entryBytes e + payload es.
Proof. reflexivity. Qed.

Lemma payload_app a b : payload (a ++ b) = payload a + payload b.
Proof. induction a as [|e a IH]; simpl; [done|]. lia. Qed.

(** Side conditions of the slice lemmas. *)
Ltac page_side :=
  unfold put_u16, put_u64, nodeHeaderSize, nodeEntrySize, PageSize in *;
  rewrite ?zlen_le_encode; try lia.

(** Directory slot [i] of [page] describes [e], whose key and value bytes lie
    at or above offset [lo]. *)
Definition slot_holds (page : bytes) (i lo : Z) (e : btreeEntry) : Prop :=
  let base := nodeHeaderSize + i * nodeEntrySize in
  exists keyOff valOff,
    zslice base 2 page = le_encode 2 keyOff /\
    zslice (base + 2) 2 page = le_encode 2 (zlen (e_key e)) /\
    zslice (base + 4) 2 page = le_encode 2 valOff /\
    zslice (base + 6) 2 page = le_encode 2 (zlen (e_value e)) /\
    zslice (base + 8) 8 page = le_encode 8 (e_child e) /\
    zslice keyOff (zlen (e_key e)) page = e_key e /\
    zslice valOff (zlen (e_value e)) page = e_value e /\
    0 <= lo <= keyOff /\ keyOff + zlen (e_key e) <= PageSize /\
    lo <= valOff /\ valOff + zlen (e_value e) <= PageSize.

(** The page [writeEntries] leaves after its first entry. *)
Definition write_one (e : btreeEntry) (i cursor : Z) (page : bytes) : bytes :=
  let valueOff := cursor - zlen (e_value e) in
  let keyOff := valueOff - zlen (e_key e) in
  let base := nodeHeaderSize + i * nodeEntrySize in
  put_u64 (base + 8) (e_child e)
    (put_u16 (base + 6) (zlen (e_value e))
      (put_u16 (base + 4) valueOff
        (put_u16 (base + 2) (zlen (e_key e))
          (put_u16 base keyOff
            (zput keyOff (e_key e) (zput valueOff (e_value e) page)))))).

Lemma writeEntries_cons e r i cursor page :
  e_key e <> [] ->
  writeEntries (e :: r) i cursor page =
  writeEntries r (i + 1) (cursor - entryBytes e) (write_one e i cursor page).
Proof.
  intros Hk. cbn [writeEntries]. destruct (e_key e) as [|k ks] eqn:E; [done|].
  rewrite <- E. replace (length (e_key e) =? 0)%nat with false by (now rewrite E).
  unfold entryBytes, write_one. f_equal; lia.
Qed.

Section write_one.
  Context (e : btreeEntry) (i cursor : Z) (page : bytes).
  Context (Hi : 0 <= i) (Hlen : zlen page = PageSize) (Hc : cursor <= PageSize)
          (Hroom : nodeHeaderSize + (i + 1) * nodeEntrySize <= cursor - entryBytes e).

Local Ltac lens :=
  repeat rewrite zlen_zput; rewrite ?zlen_le_encode; unfold entryBytes in *;
  pose proof (zlen_nonneg (e_key e)); pose proof (zlen_nonneg (e_value e)); page_side.

Lemma write_one_length : zlen (write_one e i cursor page) = PageSize.
Proof using Hi Hlen Hc Hroom.
  unfold write_one, put_u16, put_u64. lens.
Qed.

(** The bytes outside the entry's slot, key and value are untouched. *)
Lemma write_one_frame o n :
  0 <= o -> 0 <= n ->
  (o + n <= nodeHeaderSize + i * nodeEntrySize \/
   (nodeHeaderSize + (i + 1) * nodeEntrySize <= o /\ o + n <= cursor - entryBytes e) \/
   cursor <= o) ->
  zslice o n (write_one e i cursor page) = zslice o n page.
Proof using Hi Hlen Hc Hroom.
  intros Ho Hn Hd. unfold write_one, put_u16, put_u64.
  rewrite !zslice_zput_disjoint; [done|..]; lens.
Qed.

Lemma write_one_slot : slot_holds (write_one e i cursor page) i (cursor - entryBytes e) e.
Proof using Hi Hlen Hc Hroom.
  unfold slot_holds, write_one, put_u16, put_u64.
  exists (cursor - zlen (e_value e) - zlen (e_key e)), (cursor - zlen (e_value e)).
  repeat split; try (lens; fail).
  all: repeat (first
    [ rewrite zslice_zput_same by lens; reflexivity
    | rewrite zslice_zput_disjoint by lens ]).
Qed.
End write_one.

(** A slot survives writes that avoid its slot bytes and data area. *)
Lemma slot_holds_frame page page' i lo lo' e :
  0 <= i -> 0 <= lo' <= lo -> slot_holds page i lo e ->
  (forall o n, 0 <= o -> 0 <= n ->
     o + n <= nodeHeaderSize + (i + 1) * nodeEntrySize \/ lo <= o ->
     zslice o n page' = zslice o n page) ->
  slot_holds page' i lo' e.
Proof.
  intros Hi Hlo (ko & vo & H1 & H2 & H3 & H4 & H5 & H6 & H7 & Hk & Hk2 & Hv & Hv2) Hf.
  pose proof (zlen_nonneg (e_key e)). pose proof (zlen_nonneg (e_value e)).
  unfold nodeHeaderSize, nodeEntrySize in *.
  exists ko, vo. rewrite !Hf by page_side. repeat split; auto; lia.
Qed.

Lemma writeEntries_spec es : forall i cursor page,
  0 <= i -> zlen page = PageSize -> cursor <= PageSize ->
  nodeHeaderSize + (i + zlen es) * nodeEntrySize <= cursor - payload es ->
  Forall (fun e => e_key e <> []) es ->
  exists page', writeEntries es i cursor page = (Ok tt, page') /\
    zlen page' = PageSize /\
    (forall o n, 0 <= o -> 0 <= n ->
       o + n <= nodeHeaderSize + i * nodeEntrySize \/ cursor <= o ->
       zslice o n page' = zslice o n page) /\
    (forall k e, es !! k = Some e -> slot_holds page' (i + Z.of_nat k) 0 e).
Proof.
  induction es as [|e es IH]; intros i cursor page Hi Hlen Hc Hroom Hk.
  { exists page. simpl. repeat split; auto. intros k e He. done. }
  inv Hk. rewrite payload_cons, zlen_cons in Hroom.
  pose proof (entryBytes_nonneg e) as Hb. pose proof (payload_nonneg es) as Hpb.
  pose proof (zlen_nonneg es) as Hes.
  assert (Hr1 : nodeHeaderSize + (i + 1) * nodeEntrySize <= cursor - entryBytes e)
    by (unfold nodeEntrySize in *; lia).
  rewrite writeEntries_cons by auto.
  destruct (IH (i + 1) (cursor - entryBytes e) (write_one e i cursor page))
    as (page' & Hw & Hl & Hfr & Hs); auto; try lia.
  { now apply write_one_length. }
  exists page'. split; [done|]. split; [done|]. split.
  - intros o n Ho Hn Hd. rewrite Hfr by (unfold nodeEntrySize in *; lia).
    apply write_one_frame; auto. lia.
  - intros [|k] e' He'; simpl in He'.
    + injection He' as <-. rewrite Z.add_0_r.
      apply (slot_holds_frame (write_one e i cursor page) page' i (cursor - entryBytes e) 0 e);
        [lia|page_side|now apply write_one_slot|auto].
    + replace (i + Z.of_nat (S k)) with (i + 1 + Z.of_nat k) by lia. now apply Hs.
Qed.

Lemma le_decode_16 v : 0 <= v <= PageSize -> le_decode (le_encode 2 v) = v.
Proof. intros H. apply le_decode_encode_small. unfold PageSize in H. simpl. lia. Qed.

Lemma slot_holds_decode page i e :
  e_key e <> [] -> 0 <= e_child e < 2 ^ 64 -> slot_holds page i 0 e ->
  decodeEntry page i = Ok e.
Proof.
  intros Hk Hc (ko & vo & H1 & H2 & H3 & H4 & H5 & H6 & H7 & Hk1 & Hk2 & Hv1 & Hv2).
  pose proof (zlen_nonneg (e_key e)). pose proof (zlen_nonneg (e_value e)).
  unfold decodeEntry, get_u16, get_u64. rewrite H1, H2, H3, H4, H5.
  rewrite !le_decode_16 by lia. rewrite (le_decode_encode_small 8) by (simpl; lia).
  assert (zlen (e_key e) <> 0).
  { unfold zlen. destruct (e_key e); [done|]. simpl. lia. }
  destruct (Z.eqb_spec (zlen (e_key e)) 0); [lia|].
  destruct (Z.ltb_spec ko 0); [lia|]. destruct (Z.ltb_spec (zlen (e_key e)) 0); [lia|].
  destruct (Z.ltb_spec PageSize (ko + zlen (e_key e))); [lia|].
  destruct (Z.ltb_spec vo 0); [lia|]. destruct (Z.ltb_spec (zlen (e_value e)) 0); [lia|].
  destruct (Z.ltb_spec PageSize (vo + zlen (e_value e))); [lia|]. simpl.
  rewrite H6, H7. now destruct e.
Qed.

Lemma decodeEntries_spec typ page es : forall acc i,
  i = zlen acc ->
  Forall (entry_ok typ) (acc ++ es) -> sorted_entries (acc ++ es) ->
  (forall k e, es !! k = Some e -> slot_holds page (i + Z.of_nat k) 0 e) ->
  decodeEntries typ page (length es) i acc = Ok (acc ++ es).
Proof.
  induction es as [|e es IH]; intros acc i -> Hok Hs Hsl; simpl.
  { now rewrite app_nil_r. }
  pose proof (Hsl 0%nat e eq_refl) as He. rewrite Z.add_0_r in He.
  assert (Hoke : entry_ok typ e) by (rewrite Forall_app, Forall_cons in Hok; tauto).
  destruct Hoke as (Hk & Hch & Hbr).
  rewrite (slot_holds_decode _ _ _ Hk Hch He). simpl.
  replace (match last acc with Some prev => negb (bltb (e_key prev) (e_key e)) | None => false end)
    with false.
  2: { destruct (last acc) as [prev|] eqn:El; [|done]. symmetry. apply negb_false_iff, bltb_lt.
       apply last_Some in El as [acc' ->]. rewrite <- app_assoc in Hs.
       apply StronglySorted_app_1_r in Hs. apply StronglySorted_cons in Hs as [Hs _].
       now inv Hs. }
  replace ((typ =? nodeBranch) && (e_child e =? 0)) with false.
  2: { symmetry. apply andb_false_iff. destruct (Z.eqb_spec typ nodeBranch) as [Hb|]; [|auto].
       right. apply Z.eqb_neq. auto. }
  rewrite (IH (acc ++ [e])); rewrite <- ?app_assoc; auto.
  - autorewrite with klen. lia.
  - intros k e' He'. replace (zlen acc + 1 + Z.of_nat k) with (zlen acc + Z.of_nat (S k)) by lia.
    now apply Hsl.
Qed.

(** The header bytes [writeNode] leaves before the entry loop. *)
Lemma header_page typ count next :
  let page := put_u64 8 next (put_u16 2 count (zput 0 [z2b typ] zero_page)) in
  zlen page = PageSize /\ zslice 0 1 page = [z2b typ] /\
  zslice 2 2 page = le_encode 2 count /\ zslice 8 8 page = le_encode 8 next.
Proof.
  repeat split.
Qed.

Lemma lookup0_slice (page : bytes) b : zslice 0 1 page = [b] -> page !! 0%nat = Some b.
Proof.
  intros H. assert (zslice 0 1 page !! 0%nat = Some b) as H' by now rewrite H.
  rewrite zslice_lookup in H' by lia. now case_decide.
Qed.

Lemma nodeFits_room n :
  nodeFits n = true ->
  nodeHeaderSize + (0 + zlen (n_entries n)) * nodeEntrySize <= PageSize - payload (n_entries n).
Proof. unfold nodeFits, nodeSize. rewrite Z.leb_le. lia. Qed.

Lemma encode_decode n page :
  node_ok n -> nodeFits n = true -> 
  exists page', encodeNode n page = (Ok tt, page') /\ zlen page' = PageSize /\
    decodeNode (n_id n) page' = Ok n.
Proof.
  intros (Ht & Hn & Hok & Hs) Hfit. unfold encodeNode. rewrite Hfit. simpl negb. cbv iota.
  destruct (header_page (n_typ n) (zlen (n_entries n)) (n_next n)) as (Hl & H0 & H2 & H8).
  destruct (writeEntries_spec (n_entries n) 0 PageSize _ ltac:(lia) Hl ltac:(lia)
              (nodeFits_room n Hfit)) as (page' & Hw & Hl' & Hfr & Hsl).
  { eapply Forall_impl; [exact Hok|]. intros e He. apply He. }
  exists page'. split; [done|]. split; [done|].
  pose proof (nodeFits_room n Hfit) as Hroom. pose proof (payload_nonneg (n_entries n)).
  pose proof (zlen_nonneg (n_entries n)) as Hnn.
  unfold nodeHeaderSize, nodeEntrySize, PageSize in Hroom.
  unfold decodeNode. rewrite Hl', Z.eqb_refl. simpl negb. cbv iota.
  rewrite <- (Hfr 0 1) in H0 by (unfold nodeHeaderSize; lia).
  rewrite <- (Hfr 2 2) in H2 by (unfold nodeHeaderSize; lia).
  rewrite <- (Hfr 8 8) in H8 by (unfold nodeHeaderSize; lia).
  rewrite (lookup0_slice _ _ H0), b2z_z2b.
  unfold get_u16, get_u64. rewrite H2, H8.
  rewrite le_decode_16 by (unfold PageSize; lia).
  rewrite (le_decode_encode_small 8) by (simpl; lia).
  replace (n_typ n mod 256) with (n_typ n) by (destruct Ht as [-> | ->]; reflexivity).
  replace (negb (n_typ n =? nodeLeaf) && negb (n_typ n =? nodeBranch)) with false
    by (destruct Ht as [-> | ->]; reflexivity).
  destruct (Z.ltb_spec PageSize (nodeHeaderSize + zlen (n_entries n) * nodeEntrySize)) as [Hx|_].
  { unfold nodeHeaderSize, nodeEntrySize, PageSize in Hx. lia. }
  unfold zlen at 1. rewrite Nat2Z.id.
  rewrite (decodeEntries_spec (n_typ n) page' (n_entries n) [] 0); auto.
  now destruct n.
Qed.
