(* ===== verification/KvMap.v ===== *)
(** * kvstore: the abstract map a tree stands for

    Sorted association lists of byte keys, their insertion, deletion and
    lookup, and their reading as stdpp finite maps. The B+Tree theorems are
    stated against this file. *)

From S2P Require Import Prelude KvNode.
Local Open Scope Z_scope.

Abbreviation kvs := (list (bytes * bytes)).

Definition kv_lt (a b : bytes * bytes) : Prop := blt (fst a) (fst b).
Definition kv_sorted (m : kvs) : Prop := StronglySorted kv_lt m.

Fixpoint kv_insert (k v : bytes) (m : kvs) : kvs :=
  match m with
  | [] => [(k, v)]
  | (k', v') :: r =>
      match bcompare k k' with
      | Lt => (k, v) :: m
      | Eq => (k, v) :: r
      | Gt => (k', v') :: kv_insert k v r
      end
  end.

Fixpoint kv_delete (k : bytes) (m : kvs) : kvs :=
  match m with
  | [] => []
  | (k', v') :: r =>
      match bcompare k k' with
      | Lt => m
      | Eq => r
      | Gt => (k', v') :: kv_delete k r
      end
  end.

Fixpoint kv_lookup (k : bytes) (m : kvs) : option bytes :=
  match m with
  | [] => None
  | (k', v') :: r => if beqb k' k then Some v' else kv_lookup k r
  end.

(** The finite map an association list denotes. *)
Definition kv_map (m : kvs) : gmap bytes bytes := list_to_map m.

Definition below (k : bytes) (m : kvs) : Prop := Forall (fun p => blt (fst p) k) m.
Definition above (k : bytes) (m : kvs) : Prop := Forall (fun p => blt k (fst p)) m.

Lemma bcompare_gt a b : bcompare a b = Gt <-> blt b a.
Proof. unfold blt. rewrite (bcompare_antisym a b). destruct (bcompare a b); simpl; split; congruence. Qed.

Lemma kv_insert_below k v a b : below k a -> kv_insert k v (a ++ b) = a ++ kv_insert k v b.
Proof.
  induction 1 as [|[k' v'] a Hk Ha IH]; [done|]. simpl.
  replace (bcompare k k') with Gt by (symmetry; now apply bcompare_gt). now rewrite IH.
Qed.

Lemma kv_insert_above k v a b : above k b -> kv_insert k v (a ++ b) = kv_insert k v a ++ b.
Proof.
  intros Hb. induction a as [|[k' v'] a IH]; simpl.
  - destruct b as [|[k' v'] b]; [done|]. inv Hb. simpl in *.
    unfold blt in H1. now rewrite H1.
  - destruct (bcompare k k'); simpl; [done..|]. now rewrite IH.
Qed.

Lemma kv_delete_below k a b : below k a -> kv_delete k (a ++ b) = a ++ kv_delete k b.
Proof.
  induction 1 as [|[k' v'] a Hk Ha IH]; [done|]. simpl.
  replace (bcompare k k') with Gt by (symmetry; now apply bcompare_gt). now rewrite IH.
Qed.

Lemma kv_delete_above_id k b : above k b -> kv_delete k b = b.
Proof.
  destruct b as [|[k' v'] b]; [done|]. intros Hb. inv Hb. simpl in *.
  unfold blt in H1. now rewrite H1.
Qed.

Lemma kv_delete_above k a b : above k b -> kv_delete k (a ++ b) = kv_delete k a ++ b.
Proof.
  intros Hb. induction a as [|[k' v'] a IH]; simpl.
  - now apply kv_delete_above_id.
  - destruct (bcompare k k'); simpl; [done..|]. now rewrite IH.
Qed.

Lemma kv_lookup_app k a b :
  kv_lookup k (a ++ b) = match kv_lookup k a with Some v => Some v | None => kv_lookup k b end.
Proof. induction a as [|[k' v'] a IH]; simpl; [done|]. now destruct (beqb k' k). Qed.

Lemma kv_lookup_below k a : below k a -> kv_lookup k a = None.
Proof.
  induction 1 as [|[k' v'] a Hk Ha IH]; [done|]. simpl in *.
  destruct (beqb k' k) eqn:E; [|done]. apply beqb_eq in E. subst. now apply blt_irrefl in Hk.
Qed.

Lemma kv_lookup_above k a : above k a -> kv_lookup k a = None.
Proof.
  induction 1 as [|[k' v'] a Hk Ha IH]; [done|]. simpl in *.
  destruct (beqb k' k) eqn:E; [|done]. apply beqb_eq in E. subst. now apply blt_irrefl in Hk.
Qed.

Lemma kv_lookup_map k m : kv_lookup k m = kv_map m !! k.
Proof.
  unfold kv_map. induction m as [|[k' v'] m IH]; simpl; [done|].
  destruct (beqb k' k) eqn:E.
  - apply beqb_eq in E. subst. now rewrite lookup_insert_eq.
  - rewrite lookup_insert_ne; [done|]. intros ->. rewrite (proj2 (beqb_eq k k)) in E; done.
Qed.

Lemma kv_insert_map k v m : kv_map (kv_insert k v m) = <[k := v]> (kv_map m).
Proof.
  unfold kv_map. induction m as [|[k' v'] m IH]; simpl; [done|].
  destruct (bcompare k k') eqn:E; simpl; [|done|].
  - apply bcompare_eq in E. subst. now rewrite insert_insert_eq.
  - rewrite IH. apply insert_insert_ne. intros ->. rewrite bcompare_refl in E. done.
Qed.

Lemma kv_delete_map k m : kv_sorted m -> kv_map (kv_delete k m) = delete k (kv_map m).
Proof.
  intros Hs. induction Hs as [|[k' v'] m Hs IH Hf]; simpl; [now rewrite delete_empty|].
  destruct (bcompare k k') eqn:E; simpl.
  - apply bcompare_eq in E. subst. symmetry. rewrite delete_insert_id; [done|].
    rewrite <- kv_lookup_map. now apply kv_lookup_above.
  - change (kv_map ((k', v') :: m) = delete k (kv_map ((k', v') :: m))).
    symmetry. apply delete_id. rewrite <- kv_lookup_map.
    apply kv_lookup_above. constructor; [done|].
    eapply Forall_impl; [exact Hf|]. intros p Hp. eapply blt_trans; [exact E|exact Hp].
  - unfold kv_map in *. rewrite IH. symmetry. apply delete_insert_ne.
    intros ->. rewrite bcompare_refl in E. done.
Qed.

Lemma kv_insert_keys k v m x : In x (kv_insert k v m) -> x = (k, v) \/ In x m.
Proof.
  induction m as [|[k' v'] m IH]; simpl; [intuition auto|].
  destruct (bcompare k k'); simpl; intuition auto.
Qed.

Lemma kv_insert_ne k v m : kv_insert k v m <> [].
Proof. destruct m as [|[k' v'] m]; simpl; [done|]. destruct (bcompare k k'); done. Qed.

Lemma kv_insert_sorted k v m : kv_sorted m -> kv_sorted (kv_insert k v m).
Proof.
  induction 1 as [|[k' v'] m Hs IH Hf]; simpl; [repeat constructor|].
  destruct (bcompare k k') eqn:E.
  - apply bcompare_eq in E. subst. now constructor.
  - constructor; [now constructor|]. constructor; [exact E|].
    eapply Forall_impl; [exact Hf|]. intros p Hp. eapply blt_trans; [exact E|exact Hp].
  - constructor; [exact IH|]. rewrite Forall_forall in *. intros x Hx.
    apply list_elem_of_In, kv_insert_keys in Hx as [->|Hx].
    + now apply bcompare_gt.
    + apply Hf. now apply list_elem_of_In.
Qed.

Lemma kv_delete_sublist k m : kv_delete k m `sublist_of` m.
Proof.
  induction m as [|[k' v'] m IH]; simpl; [done|].
  destruct (bcompare k k'); [now constructor|done|now constructor].
Qed.

Lemma kv_delete_sorted k m : kv_sorted m -> kv_sorted (kv_delete k m).
Proof.
  induction 1 as [|[k' v'] m Hs IH Hf]; simpl; [constructor|].
  destruct (bcompare k k'); [done|now constructor|].
  constructor; [exact IH|].
  rewrite Forall_forall in *. intros x Hx. apply Hf.
  eapply elem_of_submseteq; [exact Hx|]. apply sublist_submseteq, kv_delete_sublist.
Qed.

Lemma kv_sorted_app a b :
  kv_sorted (a ++ b) <->
  kv_sorted a /\ kv_sorted b /\ (forall x y, x ∈ a -> y ∈ b -> blt (fst x) (fst y)).
Proof. unfold kv_sorted. rewrite StronglySorted_app. unfold kv_lt. naive_solver. Qed.

(** ** Leaf entries as a map *)

Definition entry_kv (e : btreeEntry) : bytes * bytes := (e_key e, e_value e).
Definition leaf_kvs (es : list btreeEntry) : kvs := map entry_kv es.

Lemma leaf_kvs_app a b : leaf_kvs (a ++ b) = leaf_kvs a ++ leaf_kvs b.
Proof. apply map_app. Qed.

Lemma leaf_kvs_below k es :
  Forall (fun e => blt (e_key e) k) es -> below k (leaf_kvs es).
Proof. intros H. apply Forall_map. exact H. Qed.

Lemma leaf_kvs_above k es :
  Forall (fun e => blt k (e_key e)) es -> above k (leaf_kvs es).
Proof. intros H. apply Forall_map. exact H. Qed.

Lemma leaf_kvs_sorted es : sorted_entries es -> kv_sorted (leaf_kvs es).
Proof.
  induction 1 as [|e es Hs IH Hf]; simpl; constructor; auto. apply Forall_map. exact Hf.
Qed.

Lemma insertEntry_kvs es e :
  sorted_entries es ->
  leaf_kvs (insertEntry es e) = kv_insert (e_key e) (e_value e) (leaf_kvs es).
Proof.
  intros Hs. destruct (key_split_of es (e_key e) Hs) as [pre x suf -> Hk Hp Hf|pre suf -> Hp Hf].
  - rewrite insertEntry_found by auto. rewrite !leaf_kvs_app.
    rewrite kv_insert_below by now apply leaf_kvs_below. simpl.
    rewrite Hk, bcompare_refl. done.
  - rewrite insertEntry_absent by auto. rewrite !leaf_kvs_app.
    rewrite kv_insert_below by now apply leaf_kvs_below. simpl.
    rewrite <- (app_nil_l (leaf_kvs suf)). rewrite kv_insert_above by now apply leaf_kvs_above. done.
Qed.

Lemma search_kvs es key :
  sorted_entries es ->
  match search es key with
  | Some i => exists e, es !! i = Some e /\ kv_lookup key (leaf_kvs es) = Some (e_value e)
  | None => kv_lookup key (leaf_kvs es) = None
  end.
Proof.
  intros Hs. destruct (key_split_of es key Hs) as [pre x suf -> Hk Hp Hf|pre suf -> Hp Hf].
  - subst key. rewrite search_found by auto. exists x. split; [apply list_lookup_middle; done|].
    rewrite leaf_kvs_app, kv_lookup_app, kv_lookup_below by now apply leaf_kvs_below. simpl.
    now rewrite (proj2 (beqb_eq _ _) eq_refl).
  - rewrite search_absent by auto. rewrite leaf_kvs_app, kv_lookup_app.
    rewrite kv_lookup_below by now apply leaf_kvs_below. now apply kv_lookup_above, leaf_kvs_above.
Qed.

Lemma deleteEntry_kvs es key :
  sorted_entries es ->
  match deleteEntry es key with
  | Some es' => leaf_kvs es' = kv_delete key (leaf_kvs es) /\ sorted_entries es'
                /\ (forall e, e ∈ es' -> e ∈ es) /\ kv_lookup key (leaf_kvs es) <> None
  | None => kv_lookup key (leaf_kvs es) = None /\ kv_delete key (leaf_kvs es) = leaf_kvs es
  end.
Proof.
  intros Hs. destruct (key_split_of es key Hs) as [pre x suf -> Hk Hp Hf|pre suf -> Hp Hf].
  - subst key. rewrite deleteEntry_found by auto. rewrite !leaf_kvs_app.
    rewrite kv_delete_below by now apply leaf_kvs_below. simpl. rewrite bcompare_refl.
    split_and!; [done|eapply sorted_remove; eauto| |].
    + intros e He. set_solver.
    + rewrite kv_lookup_app, kv_lookup_below by now apply leaf_kvs_below. simpl.
      now rewrite (proj2 (beqb_eq _ _) eq_refl).
  - rewrite deleteEntry_absent by auto. rewrite leaf_kvs_app, kv_lookup_app.
    rewrite kv_lookup_below by now apply leaf_kvs_below.
    rewrite kv_delete_below by now apply leaf_kvs_below.
    split; [now apply kv_lookup_above, leaf_kvs_above|].
    now rewrite kv_delete_above_id by now apply leaf_kvs_above.
Qed.
