(* ===== verification/KvPager.v ===== *)
(** * kvstore: the pager

    Models src/internal/kvstore/pager.go: the mapped file as a list of pages,
    the metadata page, page allocation and the persistent free list.

    The mapping is shared ([MAP_SHARED]), so the mapped bytes and the file
    bytes are one value here; [Truncate], [Mmap], [Munmap], [WriteAt], [Sync]
    and [Close] are assumed to succeed, and the mutex of [Pager] makes each
    exported method one atomic step. *)

From S2P Require Import Prelude KvNode KvCodec.
Local Open Scope Z_scope.

Definition pagerVersion : Z := 1.
Definition metaPageID : Z := 0.

(** "KRKV" *)
Definition pagerMagic : bytes := [Byte.x4b; Byte.x52; Byte.x4b; Byte.x56].

Record pagerMeta := mkMeta
  { PageCount : Z; FreeHead : Z; FreeCount : Z; RootPage : Z }.

Record Pager := mkPager
  { p_data : list bytes;
    p_meta : pagerMeta;
    p_freeSet : gset Z;
    p_closed : bool }.

Definition set_data (p : Pager) (d : list bytes) : Pager :=
  mkPager d (p_meta p) (p_freeSet p) (p_closed p).
Definition set_meta (p : Pager) (m : pagerMeta) : Pager :=
  mkPager (p_data p) m (p_freeSet p) (p_closed p).
Definition set_freeSet (p : Pager) (f : gset Z) : Pager :=
  mkPager (p_data p) (p_meta p) f (p_closed p).

(** Write through the slice that [pageLocked id] returned. *)
Definition set_page (id : Z) (page : bytes) (p : Pager) : Pager :=
  set_data p (<[Z.to_nat id := page]> (p_data p)).

Definition ensureOpen : M Pager unit :=
  fun p => if p_closed p then (Err "pager is closed", p)
           else match p_data p with
                | [] => (Err "pager is not open", p)
                | _ => (Ok tt, p)
                end.

Definition pageLocked (id : Z) : M Pager bytes :=
  fun p => if PageCount (p_meta p) <=? id then (Err "page out of range", p)
           else match p_data p !! Z.to_nat id with
                | Some page => (Ok page, p)
                | None => (Panic "slice bounds out of range", p)
                end.

(** The bytes [writeMeta] puts into page zero. *)
Definition metaBytes (m : pagerMeta) : bytes :=
  put_u64 32 (RootPage m)
    (put_u64 24 (FreeCount m)
      (put_u64 16 (FreeHead m)
        (put_u64 8 (PageCount m)
          (put_u16 6 PageSize
            (put_u16 4 pagerVersion
              (zput 0 pagerMagic zero_page)))))).

Definition writeMeta : M Pager unit :=
  fun p => match p_data p with
           | [] => (Err "pager mapping too small", p)
           | _ => (Ok tt, set_page 0 (metaBytes (p_meta p)) p)
           end.

Definition decodeMeta (page : bytes) : outcome pagerMeta :=
  if negb (beqb (zslice 0 4 page) pagerMagic) then Err "invalid pager magic"
  else if negb (get_u16 4 page =? pagerVersion) then Err "unsupported pager version"
  else if negb (get_u16 6 page =? PageSize) then Err "unsupported page size"
  else Ok (mkMeta (get_u64 8 page) (get_u64 16 page) (get_u64 24 page) (get_u64 32 page)).

Definition readMeta : M Pager unit :=
  fun p => match p_data p with
           | [] => (Err "pager mapping too small", p)
           | page :: _ =>
               match decodeMeta page with
               | Ok m => (Ok tt, set_meta p m)
               | Err e => (Err e, p)
               | Panic e => (Panic e, p)
               | Fuel => (Fuel, p)
               end
           end.

(** [resize]: truncate or zero-extend the file, then map it again. *)
Definition resize (n : Z) : M Pager unit :=
  fun p => (Ok tt, set_data p (take (Z.to_nat n) (p_data p) ++
             replicate (Z.to_nat n - length (p_data p)) zero_page)).

Definition AllocPage : M Pager Z :=
  _ <-- ensureOpen ;;
  fun p =>
    let m := p_meta p in
    if negb (FreeHead m =? 0) then
      let id := FreeHead m in
      (page <-- pageLocked id ;;
       fun p =>
         let next := get_u64 0 page in
         let p := set_freeSet p (p_freeSet p ∖ {[ id ]}) in
         let p := set_meta p (mkMeta (PageCount m) next (u64 (FreeCount m - 1)) (RootPage m)) in
         let p := set_page id zero_page p in
         (_ <-- writeMeta ;; mret id) p) p
    else
      let id := PageCount m in
      let p := set_meta p (mkMeta (u64 (PageCount m + 1)) (FreeHead m) (FreeCount m) (RootPage m)) in
      (_ <-- resize (PageCount (p_meta p)) ;;
       _ <-- pageLocked id ;;
       fun p => (_ <-- writeMeta ;; mret id) (set_page id zero_page p)) p.

Definition FreePage (id : Z) : M Pager unit :=
  _ <-- ensureOpen ;;
  fun p =>
    let m := p_meta p in
    if id =? metaPageID then (Err "cannot free meta page", p)
    else if PageCount m <=? id then (Err "page out of range", p)
    else if bool_decide (id ∈ p_freeSet p) then (Err "page already free", p)
    else
      (_ <-- pageLocked id ;;
       fun p =>
         let p := set_page id (put_u64 0 (FreeHead m) zero_page) p in
         let p := set_meta p (mkMeta (PageCount m) id (u64 (FreeCount m + 1)) (RootPage m)) in
         let p := set_freeSet p (p_freeSet p ∪ {[ id ]}) in
         writeMeta p) p.

Definition Page (id : Z) : M Pager bytes := _ <-- ensureOpen ;; pageLocked id.

Definition IsFree (p : Pager) (id : Z) : bool := bool_decide (id ∈ p_freeSet p).

Definition SetRootPage (id : Z) : M Pager unit :=
  _ <-- ensureOpen ;;
  fun p =>
    let m := p_meta p in
    if negb (id =? 0) && (PageCount m <=? id) then (Err "root page out of range", p)
    else writeMeta (set_meta p (mkMeta (PageCount m) (FreeHead m) (FreeCount m) id)).

(** The loop of [rebuildFreeSet]; [seen] pages were visited. *)
Fixpoint rebuildFreeSet_loop (fuel : nat) (id seen : Z) : M Pager unit :=
  fun p =>
    if id =? 0 then
      if Z.of_nat (size (p_freeSet p)) =? FreeCount (p_meta p) then (Ok tt, p)
      else (Err "free list count mismatch", p)
    else match fuel with
    | O => (Fuel, p)
    | S f =>
        if FreeCount (p_meta p) <=? seen then (Err "free list cycle or count mismatch", p)
        else if PageCount (p_meta p) <=? id then (Err "free page out of range", p)
        else if bool_decide (id ∈ p_freeSet p) then (Err "free list cycle at page", p)
        else
          (page <-- pageLocked id ;;
           rebuildFreeSet_loop f (get_u64 0 page) (seen + 1))
          (set_freeSet p (p_freeSet p ∪ {[ id ]}))
    end.

(** A free list visits each mapped page at most once, so one more step than
    the number of mapped pages is enough ([rebuildFreeSet_loop_total]). *)
Definition rebuildFreeSet : M Pager unit :=
  fun p => rebuildFreeSet_loop (S (length (p_data p))) (FreeHead (p_meta p)) 0
             (set_freeSet p ∅).

(** [OpenPager]/[open] on a file whose size is a multiple of [PageSize]
    ([data] holds its pages). *)
Definition openPager (data : list bytes) : outcome Pager :=
  match data with
  | [] =>
      (* new file: truncated to one zero page, metadata written *)
      let p := mkPager [zero_page] (mkMeta 1 0 0 0) ∅ false in
      match writeMeta p with
      | (Ok _, p') => Ok p' | (Err e, _) => Err e | (Panic e, _) => Panic e | (Fuel, _) => Fuel
      end
  | _ =>
      let p := mkPager data (mkMeta 0 0 0 0) ∅ false in
      match readMeta p with
      | (Ok _, p) =>
          if (PageCount (p_meta p) =? 0) || (zlen data <? PageCount (p_meta p))
          then Err "invalid page count"
          else match rebuildFreeSet p with
               | (Ok _, p') => Ok p' | (Err e, _) => Err e
               | (Panic e, _) => Panic e | (Fuel, _) => Fuel
               end
      | (Err e, _) => Err e | (Panic e, _) => Panic e | (Fuel, _) => Fuel
      end
  end.

(** [Flush]: the metadata page is rewritten and the mapping written out. *)
Definition Flush : M Pager unit := _ <-- ensureOpen ;; writeMeta.

(** [Close] flushes and marks the pager closed; closing twice is a no-op. *)
Definition Close : M Pager unit :=
  fun p => if p_closed p then (Ok tt, p)
           else let (o, p') := writeMeta p in
                (o, mkPager (p_data p') (p_meta p') (p_freeSet p') true).

(** ** Invariant: the free list threads exactly the free pages *)

Inductive free_chain (data : list bytes) : Z -> list Z -> Prop :=
| fc_nil : free_chain data 0 []
| fc_cons id page l :
    0 < id -> data !! Z.to_nat id = Some page ->
    free_chain data (get_u64 0 page) l -> free_chain data id (id :: l).

(** The page count stays where [int64(PageCount) * PageSize] cannot
    overflow. *)
Definition maxPages : Z := 2 ^ 51.

Record pager_inv (p : Pager) (l : list Z) : Prop := {
  pi_open : p_closed p = false;
  pi_count : 1 <= PageCount (p_meta p) <= maxPages;
  pi_mapped : PageCount (p_meta p) <= zlen (p_data p);
  pi_pages : Forall (fun pg => zlen pg = PageSize) (p_data p);
  pi_root : 0 <= RootPage (p_meta p) < PageCount (p_meta p);
  pi_chain : free_chain (p_data p) (FreeHead (p_meta p)) l;
  pi_nodup : NoDup l;
  pi_range : Forall (fun id => 1 <= id < PageCount (p_meta p)) l;
  pi_fcount : FreeCount (p_meta p) = zlen l;
  pi_set : p_freeSet p = list_to_set l;
  pi_meta : p_data p !! 0%nat = Some (metaBytes (p_meta p))
}.

Lemma free_chain_frame data data' head l :
  free_chain data head l ->
  (forall id, id ∈ l -> data' !! Z.to_nat id = data !! Z.to_nat id) ->
  free_chain data' head l.
Proof.
  induction 1 as [|id page l Hid Hp Hc IH]; intros Hf; [constructor|].
  econstructor; [done|rewrite Hf by (now left); exact Hp|].
  apply IH. intros j Hj. apply Hf. now right.
Qed.

Lemma free_chain_head_0 data l : free_chain data 0 l -> l = [].
Proof. intros H. inversion H; subst; [done|lia]. Qed.

Lemma free_chain_head_ne data head l :
  free_chain data head l -> head <> 0 ->
  exists page l', l = head :: l' /\ 0 < head /\ data !! Z.to_nat head = Some page /\
    free_chain data (get_u64 0 page) l'.
Proof. intros H Hne. inversion H; subst; [done|]. eauto 10. Qed.

Lemma free_chain_nonneg data head l : free_chain data head l -> 0 <= head.
Proof. intros H. inversion H; subst; lia. Qed.

(** A list of distinct page numbers below [n] has at most [n] elements. *)
Lemma nodup_bound (l : list Z) n :
  NoDup l -> Forall (fun id => 1 <= id < n) l -> zlen l <= Z.max 0 (n - 1).
Proof.
  intros Hd Hr. unfold zlen.
  assert (H : (length l <= length (seq 1 (Z.to_nat (n - 1))))%nat).
  { rewrite <- (length_fmap Z.to_nat l). apply submseteq_length.
    apply NoDup_submseteq.
    - apply NoDup_fmap_2_strong; [|done]. intros x y Hx Hy Hxy.
      rewrite Forall_forall in Hr. apply Hr in Hx. apply Hr in Hy. lia.
    - intros x Hx. apply list_elem_of_fmap in Hx as (y & -> & Hy).
      rewrite Forall_forall in Hr. apply Hr in Hy. apply elem_of_seq. lia. }
  rewrite length_seq in H. lia.
Qed.

Lemma zlen_put_u64 off v pg :
  0 <= off -> off + 8 <= zlen pg -> zlen (put_u64 off v pg) = zlen pg.
Proof. intros. unfold put_u64. apply zlen_zput; [done|]. now rewrite zlen_le_encode. Qed.

Lemma zlen_metaBytes m : zlen (metaBytes m) = PageSize.
Proof. reflexivity. Qed.

Lemma get_put_u64 off v pg :
  0 <= off -> off + 8 <= zlen pg -> 0 <= v < 2 ^ 64 -> get_u64 off (put_u64 off v pg) = v.
Proof.
  intros. unfold get_u64, put_u64.
  rewrite zslice_zput_same; rewrite ?zlen_le_encode; try lia.
  apply le_decode_encode_small. simpl. lia.
Qed.

(** [readMeta] after [writeMeta]: the metadata survives the page. *)
Lemma decodeMeta_metaBytes m :
  0 <= PageCount m < 2 ^ 64 -> 0 <= FreeHead m < 2 ^ 64 ->
  0 <= FreeCount m < 2 ^ 64 -> 0 <= RootPage m < 2 ^ 64 ->
  decodeMeta (metaBytes m) = Ok m.
Proof.
  intros H1 H2 H3 H4. unfold decodeMeta.
  change (beqb (zslice 0 4 (metaBytes m)) pagerMagic) with true.
  change (get_u16 4 (metaBytes m)) with 1. change (get_u16 6 (metaBytes m)) with 4096. simpl.
  change (get_u64 8 (metaBytes m)) with (le_decode (le_encode 8 (PageCount m))).
  change (get_u64 16 (metaBytes m)) with (le_decode (le_encode 8 (FreeHead m))).
  change (get_u64 24 (metaBytes m)) with (le_decode (le_encode 8 (FreeCount m))).
  change (get_u64 32 (metaBytes m)) with (le_decode (le_encode 8 (RootPage m))).
  rewrite !(le_decode_encode_small 8) by (simpl; lia). now destruct m.
Qed.

(** ** The operations preserve the invariant *)

Section pager_ops.
  Context (p : Pager) (l : list Z) (Hinv : pager_inv p l).

Lemma pi_data_ne : exists pg rest, p_data p = pg :: rest.
Proof using Hinv.
  destruct Hinv. destruct (p_data p); [discriminate|eauto].
Qed.

Lemma ensureOpen_ok : ensureOpen p = (Ok tt, p).
Proof using Hinv.
  destruct pi_data_ne as (pg & rest & E). unfold ensureOpen.
  rewrite (pi_open _ _ Hinv), E. done.
Qed.

Lemma mapped_lookup id :
  0 <= id < PageCount (p_meta p) ->
  exists pg, p_data p !! Z.to_nat id = Some pg /\ zlen pg = PageSize.
Proof using Hinv.
  intros Hid. destruct Hinv.
  destruct (lookup_lt_is_Some_2 (p_data p) (Z.to_nat id)) as [pg Hpg].
  { unfold zlen in *. lia. }
  exists pg. split; [done|]. rewrite Forall_forall in pi_pages0.
  apply pi_pages0. eapply list_elem_of_lookup_2; eauto.
Qed.

Lemma pageLocked_ok id :
  0 <= id < PageCount (p_meta p) ->
  exists pg, pageLocked id p = (Ok pg, p) /\ p_data p !! Z.to_nat id = Some pg /\
             zlen pg = PageSize.
Proof using Hinv.
  intros Hid. destruct (mapped_lookup id Hid) as (pg & Hpg & Hl).
  exists pg. split; [|done]. unfold pageLocked.
  destruct (Z.leb_spec (PageCount (p_meta p)) id); [lia|]. now rewrite Hpg.
Qed.

Lemma Page_ok id :
  0 <= id < PageCount (p_meta p) ->
  exists pg, Page id p = (Ok pg, p) /\ p_data p !! Z.to_nat id = Some pg /\ zlen pg = PageSize.
Proof using Hinv.
  intros Hid. destruct (pageLocked_ok id Hid) as (pg & H & H').
  exists pg. split; [|done]. unfold Page. erewrite mbind_step by apply ensureOpen_ok. done.
Qed.

Lemma free_in_range id : id ∈ l -> 1 <= id < PageCount (p_meta p).
Proof using Hinv. intros H. pose proof (pi_range _ _ Hinv) as Hr. rewrite Forall_forall in Hr. auto. Qed.

Lemma free_count_bound : 0 <= FreeCount (p_meta p) < maxPages.
Proof using Hinv.
  destruct Hinv. rewrite pi_fcount0. pose proof (zlen_nonneg l).
  pose proof (nodup_bound l _ pi_nodup0 pi_range0). lia.
Qed.

Lemma free_head_bound : 0 <= FreeHead (p_meta p) < PageCount (p_meta p).
Proof using Hinv.
  destruct (decide (FreeHead (p_meta p) = 0)) as [E|E].
  - rewrite E. pose proof (pi_count _ _ Hinv). lia.
  - destruct (free_chain_head_ne _ _ _ (pi_chain _ _ Hinv) E) as (pg & l' & El & Hp & _).
    assert (Hin : FreeHead (p_meta p) ∈ l) by (rewrite El; now left).
    pose proof (free_in_range _ Hin). lia.
Qed.

(** Writing a page that is neither free nor the metadata page. *)
Lemma set_page_inv id pg :
  1 <= id < PageCount (p_meta p) -> id ∉ l -> zlen pg = PageSize ->
  pager_inv (set_page id pg p) l.
Proof using Hinv.
  intros Hid Hf Hl. destruct Hinv. unfold set_page, set_data.
  constructor; simpl; auto.
  - unfold zlen in *. rewrite length_insert. lia.
  - apply Forall_insert; auto.
  - eapply free_chain_frame; [exact pi_chain0|]. intros j Hj.
    rewrite Forall_forall in pi_range0. apply pi_range0 in Hj as Hj'.
    apply list_lookup_insert_ne. intros E. assert (id = j) by lia. congruence.
  - rewrite list_lookup_insert_ne by lia. done.
Qed.
End pager_ops.

(** Rewriting the metadata page re-establishes the invariant. *)
Lemma writeMeta_ok p :
  p_data p <> [] -> writeMeta p = (Ok tt, set_page 0 (metaBytes (p_meta p)) p).
Proof. intros H. unfold writeMeta. now destruct (p_data p). Qed.

(** What [AllocPage] promises. *)
Definition alloc_post (p : Pager) (l : list Z) (id : Z) (p' : Pager) (l' : list Z) : Prop :=
  pager_inv p' l' /\
  1 <= id < PageCount (p_meta p') /\ (id ∉ l') /\
  ((id ∈ l) \/ id = PageCount (p_meta p)) /\
  (forall j, j ∈ l' -> j ∈ l) /\
  PageCount (p_meta p) <= PageCount (p_meta p') <= PageCount (p_meta p) + 1 /\
  RootPage (p_meta p') = RootPage (p_meta p) /\
  p_data p' !! Z.to_nat id = Some zero_page /\
  (forall j, 1 <= j < PageCount (p_meta p) -> j <> id ->
     p_data p' !! Z.to_nat j = p_data p !! Z.to_nat j).

Lemma AllocPage_reuse p l :
  pager_inv p l -> FreeHead (p_meta p) <> 0 ->
  exists id p' l', AllocPage p = (Ok id, p') /\ alloc_post p l id p' l'.
Proof.
  intros Hinv Hne.
  destruct (free_chain_head_ne _ _ _ (pi_chain _ _ Hinv) Hne) as (pg & l' & El & Hpos & Hpg & Hch).
  set (id := FreeHead (p_meta p)) in *.
  assert (Hr : 1 <= id < PageCount (p_meta p)).
  { eapply free_in_range; [exact Hinv|]. rewrite El. now left. }
  destruct (pageLocked_ok p l Hinv id ltac:(lia)) as (pg' & Hpl & Hpg' & Hlen).
  assert (pg' = pg) by congruence. subst pg'.
  pose proof (free_count_bound p l Hinv) as Hfc.
  pose proof (pi_fcount _ _ Hinv) as Hfl. rewrite El in Hfl. autorewrite with klen in Hfl.
  pose proof (zlen_nonneg l').
  eexists id, _, l'. unfold AllocPage. erewrite mbind_step by (eapply ensureOpen_ok; eauto).
  destruct (Z.eqb_spec (FreeHead (p_meta p)) 0) as [|_]; [done|]. simpl negb. cbv iota zeta.
  fold id. erewrite mbind_step by exact Hpl. cbv beta.
  erewrite mbind_step.
  2: { apply writeMeta_ok. destruct (pi_data_ne p l Hinv) as (x & y & E).
       cbn. rewrite E. destruct (Z.to_nat id); discriminate. }
  split; [reflexivity|]. pose proof Hinv as Hinv0. destruct Hinv.
  assert (Hnl : id ∉ l') by (rewrite El in pi_nodup0; now inv pi_nodup0).
  rewrite El in pi_range0. apply Forall_cons in pi_range0 as [_ Hr'].
  unfold alloc_post. cbn [p_meta p_data p_freeSet p_closed set_page set_data set_meta set_freeSet
    PageCount FreeHead FreeCount RootPage].
  assert (Hz : forall j, 1 <= j -> j <> id ->
     (<[Z.to_nat 0:=metaBytes (mkMeta (PageCount (p_meta p)) (get_u64 0 pg)
        (u64 (FreeCount (p_meta p) - 1)) (RootPage (p_meta p)))]>
        (<[Z.to_nat id:=zero_page]> (p_data p))) !! Z.to_nat j = p_data p !! Z.to_nat j).
  { intros j Hj Hne'. rewrite !list_lookup_insert_ne by lia. done. }
  split_and!; auto; try lia.
  - constructor; cbn; auto; try lia.
    + unfold zlen in *. rewrite !length_insert. lia.
    + apply Forall_insert; [apply Forall_insert; auto|apply zlen_metaBytes].
    + eapply free_chain_frame; [exact Hch|]. intros j Hj. apply Hz; [|congruence].
      rewrite Forall_forall in Hr'. apply Hr' in Hj. lia.
    + rewrite El in pi_nodup0. now inv pi_nodup0.
    + rewrite u64_id by (unfold maxPages in *; lia). lia.
    + rewrite pi_set0, El. simpl. set_solver.
    + rewrite list_lookup_insert_eq; [done|]. rewrite length_insert. unfold zlen in *. lia.
  - left. rewrite El. now left.
  - intros j Hj. rewrite El. now right.
  - rewrite list_lookup_insert_ne by lia. rewrite list_lookup_insert_eq; [done|].
    unfold zlen in *. lia.
  - intros j Hj Hne'. apply Hz; auto. lia.
Qed.

(** After [resize (n+1)] the first [n] pages are unchanged and page [n] exists. *)
Lemma resize_lookup (d : list bytes) n j :
  0 <= n -> n <= zlen d -> 0 <= j < n ->
  (take (Z.to_nat (n + 1)) d ++ replicate (Z.to_nat (n + 1) - length d) zero_page) !! Z.to_nat j
  = d !! Z.to_nat j.
Proof.
  unfold zlen. intros. rewrite lookup_app_l by (rewrite length_take; lia).
  apply lookup_take_lt. lia.
Qed.

Lemma resize_length (d : list bytes) n :
  0 <= n -> n <= zlen d ->
  length (take (Z.to_nat (n + 1)) d ++ replicate (Z.to_nat (n + 1) - length d) zero_page)
  = Z.to_nat (n + 1).
Proof. unfold zlen. intros. rewrite length_app, length_take, length_replicate. lia. Qed.

Lemma AllocPage_grow p l :
  pager_inv p l -> FreeHead (p_meta p) = 0 -> PageCount (p_meta p) < maxPages ->
  exists id p' l', AllocPage p = (Ok id, p') /\ alloc_post p l id p' l'.
Proof.
  intros Hinv H0 Hmax. pose proof Hinv as Hinv0. destruct Hinv.
  remember (PageCount (p_meta p)) as n eqn:En.
  assert (El : l = []) by (eapply free_chain_head_0; rewrite <- H0; eauto). subst l.
  remember (take (Z.to_nat (n + 1)) (p_data p) ++
            replicate (Z.to_nat (n + 1) - length (p_data p)) zero_page) as d eqn:Ed.
  assert (Hlen : length d = Z.to_nat (n + 1)) by (subst d; apply resize_length; lia).
  assert (Hd : forall j, 0 <= j < n -> d !! Z.to_nat j = p_data p !! Z.to_nat j)
    by (intros; subst d; apply resize_lookup; lia).
  assert (Hdl : Forall (fun pg => zlen pg = PageSize) d).
  { subst d. apply Forall_app. split; [now apply Forall_take|].
    apply Forall_replicate. reflexivity. }
  destruct (lookup_lt_is_Some_2 d (Z.to_nat n)) as [pg Hpg]; [lia|].
  eexists n, _, []. unfold AllocPage. erewrite mbind_step by (eapply ensureOpen_ok; eauto).
  rewrite H0. simpl negb. cbv iota zeta. rewrite <- En.
  rewrite u64_id by (unfold maxPages in *; lia).
  erewrite mbind_step by reflexivity. cbn [p_meta set_meta PageCount p_data]. rewrite <- Ed.
  erewrite mbind_step.
  2: { unfold pageLocked. cbn. destruct (Z.leb_spec (n + 1) n); [lia|]. rewrite Hpg. reflexivity. }
  erewrite mbind_step.
  2: { apply writeMeta_ok. cbn. intros E. apply (f_equal length) in E.
       rewrite length_insert in E. simpl in E. lia. }
  split; [reflexivity|]. unfold alloc_post.
  cbn [p_meta p_data p_freeSet p_closed set_page set_data set_meta set_freeSet
    PageCount FreeHead FreeCount RootPage].
  rewrite <- En. split_and!; auto; try lia; try (intros; set_solver).
  - constructor; cbn; auto; try lia.
    + unfold zlen. rewrite !length_insert, Hlen. lia.
    + apply Forall_insert; [apply Forall_insert; auto|apply zlen_metaBytes].
    + constructor.
    + rewrite list_lookup_insert_eq; [done|]. rewrite length_insert. lia.
  - rewrite list_lookup_insert_ne by lia. rewrite list_lookup_insert_eq; [done|]. lia.
  - intros j Hj Hne. rewrite !list_lookup_insert_ne by lia. apply Hd. lia.
Qed.

(** [AllocPage] returns a zeroed page that is neither free nor in use, and
    leaves every other page alone. *)
Lemma AllocPage_spec p l :
  pager_inv p l -> PageCount (p_meta p) < maxPages ->
  exists id p' l', AllocPage p = (Ok id, p') /\ alloc_post p l id p' l'.
Proof.
  intros Hinv Hmax. destruct (decide (FreeHead (p_meta p) = 0)).
  - now apply AllocPage_grow.
  - now apply AllocPage_reuse.
Qed.

Definition free_post (p : Pager) (l : list Z) (id : Z) (p' : Pager) : Prop :=
  pager_inv p' (id :: l) /\
  FreeHead (p_meta p') = id /\
  PageCount (p_meta p') = PageCount (p_meta p) /\
  RootPage (p_meta p') = RootPage (p_meta p) /\
  (forall j, 1 <= j < PageCount (p_meta p) -> j <> id ->
     p_data p' !! Z.to_nat j = p_data p !! Z.to_nat j).

Lemma FreePage_spec p l id :
  pager_inv p l -> 1 <= id < PageCount (p_meta p) -> id ∉ l ->
  exists p', FreePage id p = (Ok tt, p') /\ free_post p l id p'.
Proof.
  intros Hinv Hid Hnl. pose proof Hinv as Hinv0. destruct Hinv.
  pose proof (free_count_bound p l Hinv0) as Hfc. pose proof (free_head_bound p l Hinv0) as Hfh.
  destruct (pageLocked_ok p l Hinv0 id ltac:(lia)) as (pg & Hpl & Hpg & Hlen).
  eexists. unfold FreePage. erewrite mbind_step by (eapply ensureOpen_ok; eauto). cbv zeta.
  destruct (Z.eqb_spec id metaPageID) as [->|_]; [unfold metaPageID in Hid; lia|].
  destruct (Z.leb_spec (PageCount (p_meta p)) id); [lia|].
  rewrite bool_decide_eq_false_2.
  2: { rewrite pi_set0. rewrite elem_of_list_to_set. exact Hnl. }
  erewrite mbind_step by exact Hpl. rewrite writeMeta_ok.
  2: { destruct (pi_data_ne p l Hinv0) as (x & y & E). cbn. rewrite E.
       destruct (Z.to_nat id); discriminate. }
  split; [reflexivity|]. unfold free_post.
  cbn [p_meta p_data p_freeSet p_closed set_page set_data set_meta set_freeSet
    PageCount FreeHead FreeCount RootPage].
  assert (Hidl : (Z.to_nat id < length (p_data p))%nat) by (unfold zlen in *; lia).
  split_and!; auto.
  - constructor; cbn; auto; try lia.
    + unfold zlen in *. rewrite !length_insert. lia.
    + apply Forall_insert; [apply Forall_insert; auto|apply zlen_metaBytes].
    + econstructor; [lia| |].
      * rewrite list_lookup_insert_ne by lia. now apply list_lookup_insert_eq.
      * rewrite get_put_u64.
        -- eapply free_chain_frame; [exact pi_chain0|]. intros j Hj.
           pose proof (free_in_range p l Hinv0 j Hj).
           rewrite !list_lookup_insert_ne; [done| |lia]. intros E. assert (id = j) by lia. congruence.
        -- lia.
        -- rewrite zlen_zero_page. unfold PageSize. lia.
        -- unfold maxPages in *. lia.
    + constructor; auto.
    + autorewrite with klen. rewrite u64_id by (unfold maxPages in *; lia). lia.
    + rewrite pi_set0. simpl. set_solver.
    + rewrite list_lookup_insert_eq; [done|]. rewrite length_insert. unfold zlen in *. lia.
  - intros j Hj Hne. rewrite !list_lookup_insert_ne by lia. done.
Qed.

Lemma SetRootPage_spec p l id :
  pager_inv p l -> 0 <= id < PageCount (p_meta p) ->
  exists p', SetRootPage id p = (Ok tt, p') /\ pager_inv p' l /\
    RootPage (p_meta p') = id /\ PageCount (p_meta p') = PageCount (p_meta p) /\
    (forall j, 1 <= j -> p_data p' !! Z.to_nat j = p_data p !! Z.to_nat j).
Proof.
  intros Hinv Hid. pose proof Hinv as Hinv0. destruct Hinv.
  eexists. unfold SetRootPage. erewrite mbind_step by (eapply ensureOpen_ok; eauto). cbv zeta.
  replace (negb (id =? 0) && (PageCount (p_meta p) <=? id)) with false.
  2: { symmetry. apply andb_false_iff. right. apply Z.leb_gt. lia. }
  rewrite writeMeta_ok.
  2: { destruct (pi_data_ne p l Hinv0) as (x & y & E). cbn. rewrite E. discriminate. }
  split; [reflexivity|]. cbn [p_meta p_data p_freeSet p_closed set_page set_data set_meta
    PageCount FreeHead FreeCount RootPage].
  assert (Hf : forall j, 1 <= j -> forall x, <[Z.to_nat 0:=x]> (p_data p) !! Z.to_nat j =
                                  p_data p !! Z.to_nat j).
  { intros j Hj x. apply list_lookup_insert_ne. lia. }
  split_and!; auto.
  constructor; cbn; auto.
  - unfold zlen in *. rewrite length_insert. lia.
  - apply Forall_insert; auto.
  - eapply free_chain_frame; [exact pi_chain0|]. intros j Hj.
    pose proof (free_in_range p l Hinv0 j Hj). apply Hf. lia.
  - rewrite list_lookup_insert_eq; [done|]. unfold zlen in *. lia.
Qed.

(** ** Reopening the file *)

Lemma rebuildFreeSet_loop_ok fuel : forall id l seen p,
  free_chain (p_data p) id l -> NoDup l ->
  Forall (fun j => 1 <= j < PageCount (p_meta p)) l ->
  (forall j, j ∈ l -> j ∉ p_freeSet p) -> (length l <= fuel)%nat ->
  seen + zlen l = FreeCount (p_meta p) ->
  Z.of_nat (size (p_freeSet p)) + zlen l = FreeCount (p_meta p) ->
  rebuildFreeSet_loop fuel id seen p =
    (Ok tt, set_freeSet p (p_freeSet p ∪ list_to_set l)).
Proof.
  induction fuel as [|f IH]; intros id l seen p Hc Hnd Hr Hdis Hfuel Hseen Hsz;
    destruct l as [|i l].
  1, 3: inversion Hc; subst; simpl; autorewrite with klen in *; rewrite Z.add_0_r in Hsz;
        rewrite Hsz, Z.eqb_refl, union_empty_r_L; destruct p; reflexivity.
  { simpl in Hfuel. lia. }
  inversion Hc as [|id' page l' Hid Hp Hc']; subst. simpl in Hfuel. autorewrite with klen in *.
  apply Forall_cons in Hr as [Hi Hr]. apply NoDup_cons in Hnd as [Hni Hnd].
  pose proof (zlen_nonneg l).
  cbn [rebuildFreeSet_loop]. destruct (Z.eqb_spec i 0); [lia|].
  destruct (Z.leb_spec (FreeCount (p_meta p)) seen); [lia|].
  destruct (Z.leb_spec (PageCount (p_meta p)) i); [lia|].
  rewrite bool_decide_eq_false_2 by (apply Hdis; now left).
  erewrite mbind_step.
  2: { unfold pageLocked. cbn. destruct (Z.leb_spec (PageCount (p_meta p)) i); [lia|].
       rewrite Hp. reflexivity. }
  rewrite (IH _ l); cbn; auto; try lia.
  - unfold set_freeSet. cbn. f_equal. f_equal. set_solver.
  - intros j Hj. rewrite not_elem_of_union, not_elem_of_singleton. split; [|congruence].
    apply Hdis. now right.
  - rewrite size_union by (assert (i ∉ p_freeSet p) by (apply Hdis; now left); set_solver).
    rewrite size_singleton. lia.
Qed.

(** Opening the pages of a consistent pager gives back its metadata and free
    set. *)
Lemma openPager_reload p l :
  pager_inv p l -> openPager (p_data p) = Ok p.
Proof.
  intros Hinv. pose proof Hinv as Hinv0. destruct Hinv.
  pose proof (free_count_bound p l Hinv0). pose proof (free_head_bound p l Hinv0).
  unfold openPager. destruct (p_data p) as [|pg0 rest] eqn:Ed; [discriminate|].
  unfold readMeta. cbn [p_data]. injection pi_meta0 as ->.
  rewrite decodeMeta_metaBytes by (unfold maxPages in *; lia).
  cbn [p_meta set_meta]. 
  destruct (Z.eqb_spec (PageCount (p_meta p)) 0); [lia|].
  destruct (Z.ltb_spec (zlen (metaBytes (p_meta p) :: rest)) (PageCount (p_meta p))); [lia|].
  cbn [orb]. unfold rebuildFreeSet. cbn [p_data set_freeSet set_meta p_meta].
  erewrite rebuildFreeSet_loop_ok; cbn [p_data p_meta p_freeSet set_freeSet]; eauto.
  - unfold set_freeSet. cbn. rewrite union_empty_l_L, <- pi_set0, <- Ed, <- pi_open0. now destruct p.
  - set_solver.
  - pose proof (nodup_bound l _ pi_nodup0 pi_range0). unfold zlen in *. lia.
Qed.

(** The free-list walk stops on every file, corrupted ones included. *)
Lemma rebuildFreeSet_loop_total fuel : forall id seen p,
  0 <= id -> PageCount (p_meta p) <= zlen (p_data p) ->
  (forall j, j ∈ p_freeSet p -> 1 <= j < PageCount (p_meta p)) ->
  (length (p_data p) < fuel + size (p_freeSet p))%nat ->
  fst (rebuildFreeSet_loop fuel id seen p) <> Fuel.
Proof.
  induction fuel as [|f IH]; intros id seen p Hid Hpc Hr Hm.
  - exfalso. pose proof (nodup_bound (elements (p_freeSet p)) (PageCount (p_meta p))) as Hb.
    rewrite Forall_forall in Hb. unfold zlen in *.
    specialize (Hb (NoDup_elements _)).
    assert (Hs : size (p_freeSet p) = length (elements (p_freeSet p))) by reflexivity.
    rewrite <- Hs in Hb. specialize (Hb ltac:(intros j Hj; apply Hr; now apply elem_of_elements)). lia.
  - cbn [rebuildFreeSet_loop]. destruct (Z.eqb_spec id 0).
    { destruct (Z.of_nat _ =? _); discriminate. }
    destruct (_ <=? seen); [discriminate|].
    destruct (Z.leb_spec (PageCount (p_meta p)) id); [discriminate|].
    case_bool_decide as Hin; [discriminate|].
    unfold mbind, pageLocked. cbn.
    destruct (Z.leb_spec (PageCount (p_meta p)) id); [discriminate|].
    destruct (p_data p !! Z.to_nat id) as [page|] eqn:Ep; [|discriminate].
    apply IH; cbn; auto.
    + unfold get_u64. apply le_decode_bound.
    + intros j Hj. apply elem_of_union in Hj as [Hj|Hj]; [auto|].
      apply elem_of_singleton in Hj. subst. lia.
    + rewrite size_union by set_solver. rewrite size_singleton. lia.
Qed.
