(* ===== verification/KvBTree.v ===== *)
(** * kvstore: B+Tree operations

    Models the tree half of src/internal/kvstore/btree.go. The operations are
    written against the node store the pager provides ([NodeStore]); the
    pager's instance is given at the end. Recursion through pages is bounded
    by [fuel]: a tree of height [h] needs [S h] ([btree_get_refines],
    [btree_put_refines] of KvProps); a page graph that is not a tree can exhaust any fuel. *)

From S2P Require Import Prelude KvNode KvCodec KvPager.
Local Open Scope Z_scope.

(** ** Interface: what the tree needs from the pages under it *)

Class NodeStore (S : Type) := {
  ns_read : Z -> M S btreeNode;
  ns_write : btreeNode -> M S unit;
  ns_alloc : M S Z;
  ns_free : Z -> M S unit
}.

Section ops.
  Context {S : Type} `{NodeStore S}.

(** [node.entries[idx].child], with Go's bounds check. *)
Definition child_at (es : list btreeEntry) (idx : Z) : M S Z :=
  if idx <? 0 then mpanic "index out of range"
  else match es !! Z.to_nat idx with
       | Some e => mret (e_child e)
       | None => mpanic "index out of range"
       end.

(** [node.entries[idx].key = key] *)
Definition set_key_at (es : list btreeEntry) (idx : Z) (key : bytes) : list btreeEntry :=
  alter (fun e => mkEntry key (e_value e) (e_child e)) (Z.to_nat idx) es.

Definition leaf_entry (key value : bytes) : btreeEntry := mkEntry key value 0.

Fixpoint getAt (fuel : nat) (pageID : Z) (key : bytes) : M S (option bytes) :=
  match fuel with
  | O => mfuel
  | Datatypes.S f =>
      node <-- ns_read pageID ;;
      if n_typ node =? nodeLeaf then
        match search (n_entries node) key with
        | None => mret None
        | Some idx =>
            match n_entries node !! idx with
            | Some e => mret (Some (e_value e))
            | None => mpanic "index out of range"
            end
        end
      else if n_typ node =? nodeBranch then
        child <-- mlift (childFor node key) ;;
        getAt f child key
      else merr "unsupported node type"
  end.

Definition Get (fuel : nat) (root : Z) (key : bytes) : M S (option bytes) :=
  if (length key =? 0)%nat then merr "key is required" else getAt fuel root key.

Definition splitNonRoot (node : btreeNode) : M S (option btreeEntry) :=
  halves <-- mlift (splitEntries (n_entries node)) ;;
  let '(leftEntries, rightEntries) := halves in
  rightID <-- ns_alloc ;;
  let leaf := n_typ node =? nodeLeaf in
  let left := mkNode (n_id node) (n_typ node) (if leaf then rightID else 0) leftEntries in
  let right := mkNode rightID (n_typ node) (if leaf then n_next node else 0) rightEntries in
  _ <-- ns_write left ;;
  _ <-- ns_write right ;;
  mret (Some (mkEntry (firstKey rightEntries) [] rightID)).

(** [splitRootBranch] and [splitRootLeaf]: two fresh children under the root
    page; leaves are chained through [next]. *)
Definition splitRoot (typ : Z) (root : btreeNode) : M S unit :=
  halves <-- mlift (splitEntries (n_entries root)) ;;
  let '(leftEntries, rightEntries) := halves in
  leftID <-- ns_alloc ;;
  rightID <-- ns_alloc ;;
  let left := mkNode leftID typ (if typ =? nodeLeaf then rightID else 0) leftEntries in
  let right := mkNode rightID typ 0 rightEntries in
  let newRoot := mkNode (n_id root) nodeBranch 0
    [mkEntry (firstKey leftEntries) [] leftID; mkEntry (firstKey rightEntries) [] rightID] in
  _ <-- ns_write left ;;
  _ <-- ns_write right ;;
  ns_write newRoot.

Definition splitRootBranch (root : btreeNode) : M S unit := splitRoot nodeBranch root.
Definition splitRootLeaf (root : btreeNode) : M S unit := splitRoot nodeLeaf root.

Fixpoint putNonRoot (fuel : nat) (node : btreeNode) (key value : bytes)
    : M S (option btreeEntry) :=
  match fuel with
  | O => mfuel
  | Datatypes.S f =>
      if n_typ node =? nodeLeaf then
        let node := with_entries node (insertEntry (n_entries node) (leaf_entry key value)) in
        if nodeFits node then (_ <-- ns_write node ;; mret None) else splitNonRoot node
      else if n_typ node =? nodeBranch then
        let childIndex := childIndexFor (n_entries node) key in
        childID <-- child_at (n_entries node) childIndex ;;
        child <-- ns_read childID ;;
        split <-- putNonRoot f child key value ;;
        child <-- ns_read childID ;;
        let es := set_key_at (n_entries node) childIndex (firstKey (n_entries child)) in
        let es := match split with Some e => insertEntry es e | None => es end in
        let node := with_entries node es in
        if nodeFits node then (_ <-- ns_write node ;; mret None) else splitNonRoot node
      else merr "unsupported node type"
  end.

Definition putRootBranch (fuel : nat) (root : btreeNode) (key value : bytes) : M S unit :=
  let childIndex := childIndexFor (n_entries root) key in
  childID <-- child_at (n_entries root) childIndex ;;
  child <-- ns_read childID ;;
  split <-- putNonRoot fuel child key value ;;
  child <-- ns_read childID ;;
  let es := set_key_at (n_entries root) childIndex (firstKey (n_entries child)) in
  let es := match split with Some e => insertEntry es e | None => es end in
  let root := with_entries root es in
  if nodeFits root then ns_write root else splitRootBranch root.

Definition Put (fuel : nat) (rootID : Z) (key value : bytes) : M S unit :=
  if (length key =? 0)%nat then merr "key is required"
  else
    root <-- ns_read rootID ;;
    if n_typ root =? nodeLeaf then
      let root := with_entries root (insertEntry (n_entries root) (leaf_entry key value)) in
      if nodeFits root then ns_write root else splitRootLeaf root
    else if n_typ root =? nodeBranch then putRootBranch fuel root key value
    else merr "unsupported node type".

(** The tail of [deleteFromBranch]: [child] has lost an entry. *)
Definition delete_fixup (node child : btreeNode) (childIndex : Z) (isRoot : bool) : M S bool :=
  if (length (n_entries child) =? 0)%nat then
    let es := take (Z.to_nat childIndex) (n_entries node) ++
              drop (Datatypes.S (Z.to_nat childIndex)) (n_entries node) in
    _ <-- (if isRoot then mret tt else ns_free (n_id child)) ;;
    _ <-- ns_write (with_entries node es) ;;
    mret true
  else
    _ <-- ns_write child ;;
    let es := set_key_at (n_entries node) childIndex (firstKey (n_entries child)) in
    _ <-- ns_write (with_entries node es) ;;
    mret true.

Fixpoint deleteFromBranch (fuel : nat) (node : btreeNode) (key : bytes) (isRoot : bool)
    : M S bool :=
  match fuel with
  | O => mfuel
  | Datatypes.S f =>
      if (length (n_entries node) =? 0)%nat then merr "branch node has no entries"
      else
        let childIndex := childIndexFor (n_entries node) key in
        childID <-- child_at (n_entries node) childIndex ;;
        child <-- ns_read childID ;;
        if n_typ child =? nodeLeaf then
          match deleteEntry (n_entries child) key with
          | None => mret false
          | Some next => delete_fixup node (with_entries child next) childIndex isRoot
          end
        else if n_typ child =? nodeBranch then
          deleted <-- deleteFromBranch f child key false ;;
          if (deleted : bool) then
            child <-- ns_read (n_id child) ;;
            delete_fixup node child childIndex isRoot
          else mret false
        else merr "unsupported node type"
  end.

Definition Delete (fuel : nat) (rootID : Z) (key : bytes) : M S unit :=
  if (length key =? 0)%nat then merr "key is required"
  else
    root <-- ns_read rootID ;;
    if n_typ root =? nodeLeaf then
      match deleteEntry (n_entries root) key with
      | None => mret tt
      | Some next => ns_write (with_entries root next)
      end
    else if n_typ root =? nodeBranch then
      deleted <-- deleteFromBranch fuel root key true ;;
      if (deleted : bool) then
        root <-- ns_read (n_id root) ;;
        match n_entries root with
        | [e] =>
            only <-- ns_read (e_child e) ;;
            ns_write (mkNode rootID (n_typ only) (n_next only) (n_entries only))
        | _ => ns_write root
        end
      else mret tt
    else merr "unsupported node type".

Definition CreateBTree : M S Z :=
  root <-- ns_alloc ;;
  _ <-- ns_write (mkNode root nodeLeaf 0 []) ;;
  mret root.

(** ** Iteration *)

Record Iterator := mkIter
  { it_node : btreeNode; it_index : nat; it_end : option bytes; it_err : option string }.

Fixpoint firstLeafAt (fuel : nat) (pageID : Z) (key : bytes) : M S btreeNode :=
  match fuel with
  | O => mfuel
  | Datatypes.S f =>
      node <-- ns_read pageID ;;
      if n_typ node =? nodeLeaf then mret node
      else if n_typ node =? nodeBranch then
        child <-- mlift (childFor node key) ;;
        firstLeafAt f child key
      else merr "unsupported node type"
  end.

Definition pastEnd (it : Iterator) : bool :=
  match it_end it with
  | None => false
  | Some e => negb (bltb (key_at (n_entries (it_node it)) (it_index it)) e)
  end.

Definition Valid (it : Iterator) : bool :=
  match it_err it with
  | Some _ => false
  | None => (n_typ (it_node it) =? nodeLeaf) &&
            (it_index it <? length (n_entries (it_node it)))%nat && negb (pastEnd it)
  end.

(** [skipEmpty]: follow [next] until the index is inside a leaf; an error of
    [readNode] is kept in the iterator. *)
Fixpoint skipEmpty (fuel : nat) (it : Iterator) : M S Iterator :=
  match it_err it with
  | Some _ => mret it
  | None =>
      if (n_typ (it_node it) =? nodeLeaf) &&
         (length (n_entries (it_node it)) <=? it_index it)%nat &&
         negb (n_next (it_node it) =? 0)
      then match fuel with
           | O => mfuel
           | Datatypes.S f => fun s =>
               match ns_read (n_next (it_node it)) s with
               | (Ok next, s') => skipEmpty f (mkIter next 0 (it_end it) None) s'
               | (Err e, s') => (Ok (mkIter (it_node it) (it_index it) (it_end it) (Some e)), s')
               | (Panic e, s') => (Panic e, s')
               | (Fuel, s') => (Fuel, s')
               end
           end
      else mret it
  end.

Definition empty_node : btreeNode := mkNode 0 0 0 [].

Definition Scan (fuel : nat) (root : Z) (start : bytes) (end_ : option bytes) : M S Iterator :=
  if match end_ with Some e => negb (bltb start e) | None => false end
  then mret (mkIter empty_node 0 None None)
  else
    leaf <-- firstLeafAt fuel root start ;;
    skipEmpty fuel (mkIter leaf (lowerBound (n_entries leaf) start) end_ None).

Definition Next (fuel : nat) (it : Iterator) : M S Iterator :=
  if Valid it
  then skipEmpty fuel (mkIter (it_node it) (it_index it + 1) (it_end it) (it_err it))
  else mret it.

(** The loop every caller of [Scan] writes:
    [for it.Valid() { use(it.Key(), it.Value()); it.Next() }; it.Err()]. *)
Fixpoint drain (n fuel : nat) (it : Iterator) : M S (list (bytes * bytes)) :=
  if Valid it then
    match n with
    | O => mfuel
    | Datatypes.S n' =>
        match n_entries (it_node it) !! it_index it with
        | Some e =>
            it' <-- Next fuel it ;;
            rest <-- drain n' fuel it' ;;
            mret ((e_key e, e_value e) :: rest)
        | None => mpanic "index out of range"
        end
    end
  else match it_err it with Some e => merr e | None => mret [] end.
End ops.

(** ** The pager as node store *)

Definition readNode (pageID : Z) : M Pager btreeNode :=
  page <-- Page pageID ;;
  mlift (decodeNode pageID page).

(** [writeNode] mutates the mapped page in place, also when it fails. *)
Definition writeNode (node : btreeNode) : M Pager unit :=
  page <-- Page (n_id node) ;;
  fun p => let (o, page') := encodeNode node page in (o, set_page (n_id node) page' p).

#[export] Instance pager_nodes : NodeStore Pager := {|
  ns_read := readNode; ns_write := writeNode;
  ns_alloc := AllocPage; ns_free := FreePage |}.
