(* ===== verification/KvTree.v ===== *)
(** * kvstore: the B+Tree refines a finite map

    The tree invariant over any lawful node store: which map a page graph
    stands for, and how the invariant frames. Here and in KvTreePut it is proved
    that [Get] and [Put] (btree.go) are lookup and insertion of that map. *)

From S2P Require Import Prelude KvNode KvCodec KvMap KvPager KvBTree.
Local Open Scope Z_scope.

(** ** Laws of a node store

    [ns_used s id] says the page is allocated to the client, [ns_view] is the
    node stored there, and [ns_room s n] says [n] more pages can be
    allocated. *)

Class NodeStoreLaws (S : Type) `{NodeStore S} := {
  ns_ok : S -> Prop;
  ns_used : S -> Z -> Prop;
  ns_view : S -> Z -> option btreeNode;
  ns_room : S -> nat -> Prop;
  room_mono : forall s j k, ns_room s k -> (j <= k)%nat -> ns_room s j;
  used_range : forall s id, ns_used s id -> 1 <= id < 2 ^ 64;
  view_id : forall s id n, ns_view s id = Some n -> n_id n = id;
  read_law : forall s id n,
    ns_ok s -> ns_used s id -> ns_view s id = Some n -> ns_read id s = (Ok n, s);
  write_law : forall s n,
    ns_ok s -> ns_used s (n_id n) -> node_ok n -> nodeFits n = true ->
    exists s', ns_write n s = (Ok tt, s') /\ ns_ok s' /\
      ns_view s' (n_id n) = Some n /\
      (forall id, ns_used s' id <-> ns_used s id) /\
      (forall id, ns_used s id -> id <> n_id n -> ns_view s' id = ns_view s id) /\
      (forall k, ns_room s k -> ns_room s' k);
  write_nofit : forall s n,
    ns_ok s -> ns_used s (n_id n) -> nodeFits n = false ->
    exists s', ns_write n s = (Err "node does not fit in one page", s') /\ ns_ok s';
  alloc_law : forall s k,
    ns_ok s -> ns_room s (Datatypes.S k) ->
    exists id s', ns_alloc s = (Ok id, s') /\ ns_ok s' /\ ns_room s' k /\
      ~ ns_used s id /\ ns_used s' id /\
      (forall j, ns_used s j -> ns_used s' j /\ ns_view s' j = ns_view s j)
}.

(** ** The pager is a lawful node store *)

Definition pager_ok (p : Pager) : Prop := exists l, pager_inv p l.
Definition pager_used (p : Pager) (id : Z) : Prop :=
  1 <= id < PageCount (p_meta p) /\ PageCount (p_meta p) <= maxPages /\ id ∉ p_freeSet p.
Definition pager_view (p : Pager) (id : Z) : option btreeNode :=
  match p_data p !! Z.to_nat id with
  | Some page => match decodeNode id page with Ok n => Some n | _ => None end
  | None => None
  end.
Definition pager_room (p : Pager) (n : nat) : Prop :=
  PageCount (p_meta p) + Z.of_nat n <= maxPages.

Lemma decodeNode_id id page n : decodeNode id page = Ok n -> n_id n = id.
Proof.
  unfold decodeNode. intros H.
  repeat (case_match; simplify_eq/=; try discriminate).
  apply obind_ok in H as (es & _ & H). now simplify_eq.
Qed.

Lemma readNode_view p l id n :
  pager_inv p l -> pager_used p id -> pager_view p id = Some n -> readNode id p = (Ok n, p).
Proof.
  intros Hinv (Hid & _) Hv. unfold readNode.
  destruct (Page_ok p l Hinv id ltac:(lia)) as (pg & Hp & Hd & _).
  erewrite mbind_step by exact Hp. unfold pager_view in Hv. rewrite Hd in Hv.
  unfold mlift. destruct (decodeNode id pg); congruence.
Qed.

Lemma writeNode_page p l n :
  pager_inv p l -> pager_used p (n_id n) ->
  exists pg, p_data p !! Z.to_nat (n_id n) = Some pg /\ zlen pg = PageSize /\
    writeNode n p = (let (o, page') := encodeNode n pg in (o, set_page (n_id n) page' p)).
Proof.
  intros Hinv (Hid & _).
  destruct (Page_ok p l Hinv (n_id n) ltac:(lia)) as (pg & Hp & Hd & Hl).
  exists pg. split; [done|]. split; [done|]. unfold writeNode. now erewrite mbind_step by exact Hp.
Qed.

Lemma writeNode_ok p l n :
  pager_inv p l -> pager_used p (n_id n) -> node_ok n -> nodeFits n = true ->
  exists pg, writeNode n p = (Ok tt, set_page (n_id n) pg p) /\
    pager_inv (set_page (n_id n) pg p) l /\
    decodeNode (n_id n) pg = Ok n.
Proof.
  intros Hinv Hu Hok Hfit. destruct (writeNode_page p l n Hinv Hu) as (pg & _ & Hl & Hw).
  destruct (encode_decode n pg Hok Hfit) as (pg' & He & Hl' & Hd).
  exists pg'. rewrite Hw, He. split_and!; auto. destruct Hu as (Hid & _ & Hnf).
  apply set_page_inv; auto. rewrite (pi_set _ _ Hinv) in Hnf.
  now rewrite elem_of_list_to_set in Hnf.
Qed.

#[export] Program Instance pager_laws : NodeStoreLaws Pager := {|
  ns_ok := pager_ok; ns_used := pager_used; ns_view := pager_view; ns_room := pager_room |}.
Next Obligation. intros p j k. unfold pager_room. lia. Qed.
Next Obligation. intros p id (Hid & Hm & _). unfold maxPages in Hm. lia. Qed.
Next Obligation.
  intros p id n Hv. unfold pager_view in Hv.
  destruct (p_data p !! Z.to_nat id); [|done].
  destruct (decodeNode id l) eqn:E; try done. injection Hv as <-. eapply decodeNode_id; eauto.
Qed.
Next Obligation. intros p id n [l Hinv] Hu Hv. eapply readNode_view; eauto. Qed.
Next Obligation.
  intros p n [l Hinv] Hu Hok Hfit.
  destruct (writeNode_ok p l n Hinv Hu Hok Hfit) as (pg & Hw & Hinv' & Hd).
  eexists. split; [exact Hw|]. split; [now exists l|].
  assert (Hlt : (Z.to_nat (n_id n) < length (p_data p))%nat).
  { destruct Hu as (Hid & _). pose proof (pi_mapped _ _ Hinv). unfold zlen in *. lia. }
  unfold pager_view, set_page, set_data. cbn. split_and!.
  - rewrite list_lookup_insert_eq by done. now rewrite Hd.
  - done.
  - intros id (Hid & _) Hne. destruct Hu as (Hn & _).
    rewrite list_lookup_insert_ne by lia. done.
  - done.
Qed.
Next Obligation.
  intros p n [l Hinv] Hu Hfit. destruct (writeNode_page p l n Hinv Hu) as (pg & Hd & _ & Hw).
  cbn. rewrite Hw. unfold encodeNode. rewrite Hfit. cbn. eexists. split; [done|].
  exists l. unfold set_page. rewrite list_insert_id by done. now destruct p.
Qed.
Next Obligation.
  intros p k [l Hinv] Hroom. unfold pager_room in *.
  destruct (AllocPage_spec p l Hinv ltac:(lia)) as (id & p' & l' & Ha & Hpost).
  destruct Hpost as (Hinv' & Hid & Hnl & Hin & Hsub & Hpc & _ & _ & Hfr).
  pose proof (pi_set _ _ Hinv) as Hset. pose proof (pi_set _ _ Hinv') as Hset'.
  pose proof (pi_count _ _ Hinv') as Hc'.
  exists id, p'. split; [exact Ha|]. split; [now exists l'|]. split; [lia|].
  assert (Hnu : ~ pager_used p id).
  { intros (Hr & _ & Hnf). destruct Hin as [Hin| ->]; [|lia].
    apply Hnf. rewrite Hset. now rewrite elem_of_list_to_set. }
  split; [exact Hnu|]. split.
  - unfold pager_used. rewrite Hset', elem_of_list_to_set. split; [lia|]. split; [lia|done].
  - intros j Hu. pose proof Hu as (Hj & Hm & Hnf).
    assert (Hne : j <> id) by (intros ->; done).
    split.
    + unfold pager_used. rewrite Hset', elem_of_list_to_set. split; [lia|]. split; [lia|].
      intros Hj'. apply Hnf. rewrite Hset, elem_of_list_to_set. auto.
    + unfold pager_view. now rewrite Hfr by (auto; lia).
Qed.

(** ** The tree predicate *)

Definition head_key (m : kvs) : option bytes := fst <$> head m.

(** A branch's entries: each child holds a non-empty run of the map whose
    first key is the entry's key. *)
Inductive branch_rep (T : Z -> kvs -> list Z -> Prop)
    : list btreeEntry -> kvs -> list Z -> Prop :=
| br_nil : branch_rep T [] [] []
| br_cons e es mi fi m f :
    T (e_child e) mi fi -> head_key mi = Some (e_key e) -> e_value e = [] ->
    branch_rep T es m f -> branch_rep T (e :: es) (mi ++ m) (fi ++ f).

Definition htyp (h : nat) : Z := match h with O => nodeLeaf | _ => nodeBranch end.

Section tree.
  Context {S : Type} {NS : NodeStore S} {NL : NodeStoreLaws S}.

(** [tree s h id m fp]: page [id] roots a tree of height [h] that stores [m]
    and occupies the pages [fp]. *)
Fixpoint tree (s : S) (h : nat) (id : Z) (m : kvs) (fp : list Z) : Prop :=
  exists n fc, ns_used s id /\ ns_view s id = Some n /\ node_ok n /\ nodeFits n = true /\
    fp = id :: fc /\ n_typ n = htyp h /\
    match h with
    | O => m = leaf_kvs (n_entries n) /\ fc = []
    | Datatypes.S h' => n_entries n <> [] /\ branch_rep (tree s h') (n_entries n) m fc
    end.

(** The entries [es] of a node at height [h] store [m] in the pages [fc]. *)
Definition contents (s : S) (h : nat) (es : list btreeEntry) (m : kvs) (fc : list Z) : Prop :=
  match h with
  | O => m = leaf_kvs es /\ fc = []
  | Datatypes.S h' => branch_rep (tree s h') es m fc
  end.

Lemma tree_inv s h id m fp :
  tree s h id m fp <->
  exists n fc, ns_used s id /\ ns_view s id = Some n /\ node_ok n /\ nodeFits n = true /\
    fp = id :: fc /\ n_typ n = htyp h /\ (h = O \/ n_entries n <> []) /\
    contents s h (n_entries n) m fc.
Proof.
  destruct h; simpl; split; intros (n & fc & ?); exists n, fc; intuition auto; congruence.
Qed.

Lemma branch_rep_app T es1 m1 f1 es2 m2 f2 :
  branch_rep T es1 m1 f1 -> branch_rep T es2 m2 f2 ->
  branch_rep T (es1 ++ es2) (m1 ++ m2) (f1 ++ f2).
Proof.
  induction 1; intros Hr2; [exact Hr2|]. simpl. rewrite <- !app_assoc. constructor; auto.
Qed.

Lemma branch_rep_split T es1 es2 m f :
  branch_rep T (es1 ++ es2) m f ->
  exists m1 m2 f1 f2, m = m1 ++ m2 /\ f = f1 ++ f2 /\
    branch_rep T es1 m1 f1 /\ branch_rep T es2 m2 f2.
Proof.
  revert m f. induction es1 as [|e es1 IH]; intros m f Hb; simpl in *.
  - exists [], m, [], f. split_and!; auto. constructor.
  - inversion Hb as [|e' es' mi fi m' f' HT Hk Hv Hr]; subst.
    destruct (IH _ _ Hr) as (m1 & m2 & f1 & f2 & -> & -> & H1 & H2).
    exists (mi ++ m1), m2, (fi ++ f1), f2. rewrite !app_assoc. split_and!; auto.
    now constructor.
Qed.

Lemma contents_app s h es1 m1 f1 es2 m2 f2 :
  contents s h es1 m1 f1 -> contents s h es2 m2 f2 ->
  contents s h (es1 ++ es2) (m1 ++ m2) (f1 ++ f2).
Proof.
  destruct h; simpl.
  - intros [-> ->] [-> ->]. now rewrite leaf_kvs_app.
  - apply branch_rep_app.
Qed.

Lemma contents_split s h es1 es2 m f :
  contents s h (es1 ++ es2) m f ->
  exists m1 m2 f1 f2, m = m1 ++ m2 /\ f = f1 ++ f2 /\
    contents s h es1 m1 f1 /\ contents s h es2 m2 f2.
Proof.
  destruct h; simpl.
  - intros [-> ->]. exists (leaf_kvs es1), (leaf_kvs es2), [], []. now rewrite leaf_kvs_app.
  - apply branch_rep_split.
Qed.

(** Trees only depend on their own pages. *)
Definition agrees (s s' : S) (fp : list Z) : Prop :=
  forall j, j ∈ fp -> ns_used s' j /\ ns_view s' j = ns_view s j.

Lemma agrees_app s s' a b : agrees s s' (a ++ b) -> agrees s s' a /\ agrees s s' b.
Proof. unfold agrees. intros Ha. split; intros j Hj; apply Ha; set_solver. Qed.

Lemma branch_rep_mono (T T' : Z -> kvs -> list Z -> Prop) es m f :
  branch_rep T es m f ->
  (forall id mi fi, T id mi fi -> (forall j, j ∈ fi -> j ∈ f) -> T' id mi fi) ->
  branch_rep T' es m f.
Proof.
  induction 1 as [|e es mi fi m f HT Hk Hv Hr IH]; intros Himp; constructor; auto.
  - apply Himp; [done|]. set_solver.
  - apply IH. intros id mj fj HT' Hsub. apply Himp; [done|]. set_solver.
Qed.

Lemma tree_frame s s' h : forall id m fp,
  tree s h id m fp -> agrees s s' fp -> tree s' h id m fp.
Proof.
  induction h as [|h IH]; intros id m fp Ht Ha.
  - destruct Ht as (n & fc & Hu & Hv & Hok & Hfit & -> & Ht & Hm).
    destruct (Ha id ltac:(now left)) as [Hu' Hv'].
    exists n, fc. rewrite Hv'. auto 10.
  - destruct Ht as (n & fc & Hu & Hv & Hok & Hfit & -> & Ht & Hne & Hb).
    destruct (Ha id ltac:(now left)) as [Hu' Hv'].
    exists n, fc. rewrite Hv'. split_and!; auto.
    eapply branch_rep_mono; [exact Hb|]. intros id' mi fi HT Hsub.
    apply IH; [exact HT|]. intros j Hj. apply Ha. right. auto.
Qed.

Lemma contents_frame s s' h es m fc :
  contents s h es m fc -> agrees s s' fc -> contents s' h es m fc.
Proof.
  destruct h; simpl; [auto|]. intros Hb Ha.
  eapply branch_rep_mono; [exact Hb|]. intros id mi fi HT Hsub.
  eapply tree_frame; [exact HT|]. intros j Hj. apply Ha. auto.
Qed.

Lemma head_key_app m1 m2 k : head_key m1 = Some k -> head_key (m1 ++ m2) = Some k.
Proof. destruct m1; [done|]. done. Qed.

Lemma head_key_in m k : head_key m = Some k -> exists v, (k, v) ∈ m.
Proof. destruct m as [|[k' v] m]; [done|]. intros [= ->]. exists v. now left. Qed.

Lemma contents_head s h e es m fc :
  contents s h (e :: es) m fc -> head_key m = Some (e_key e).
Proof.
  destruct h; simpl.
  - intros [-> _]. done.
  - intros Hb. inversion Hb; subst. now apply head_key_app.
Qed.

Lemma contents_firstKey s h es m fc :
  contents s h es m fc -> es <> [] -> head_key m = Some (firstKey es).
Proof.
  destruct es as [|e es]; [done|]. intros Hc _. rewrite (contents_head _ _ _ _ _ _ Hc). done.
Qed.

Lemma contents_keys s h es m fc e :
  contents s h es m fc -> e ∈ es -> exists v, (e_key e, v) ∈ m.
Proof.
  intros Hc He. apply list_elem_of_split in He as (pre & suf & ->).
  apply contents_split in Hc as (m1 & m2 & f1 & f2 & -> & _ & _ & H2).
  apply contents_head, head_key_in in H2 as [v Hv]. exists v. set_solver.
Qed.

Lemma contents_sorted s h es m fc :
  contents s h es m fc -> kv_sorted m -> sorted_entries es.
Proof.
  revert m fc. induction es as [|e es IH]; intros m fc Hc Hs; [constructor|].
  change (e :: es) with ([e] ++ es) in Hc.
  apply contents_split in Hc as (m1 & m2 & f1 & f2 & -> & -> & H1 & H2).
  apply kv_sorted_app in Hs as (Hs1 & Hs2 & Hlt).
  constructor; [eapply IH; eauto|]. apply Forall_forall. intros e' He'.
  apply contents_head, head_key_in in H1 as [v Hv].
  destruct (contents_keys _ _ _ _ _ _ H2 He') as [v' Hv'].
  exact (Hlt _ _ Hv Hv').
Qed.
End tree.

(** ** kvstore: [Get] is lookup in the map the tree stands for *)

Section get.
  Context {S : Type} {NS : NodeStore S} {NL : NodeStoreLaws S}.
  Implicit Types s : S.

Lemma sorted_head_le m k x : kv_sorted m -> head_key m = Some k -> x ∈ m -> ~ blt (fst x) k.
Proof.
  destruct m as [|[k' v'] m]; [done|]. intros Hs [= ->] Hx Hc.
  apply elem_of_cons in Hx as [->|Hx]; [now apply blt_irrefl in Hc|].
  apply StronglySorted_cons in Hs as [Hf _]. rewrite Forall_forall in Hf.
  apply Hf in Hx. exact (blt_irrefl _ (blt_trans _ _ _ Hx Hc)).
Qed.

(** The child the code descends into holds the part of the map where [key]
    belongs: everything before it is below [key], everything after above. *)
Lemma child_part s h es m fc key pre c suf :
  contents s (Datatypes.S h) es m fc -> kv_sorted m -> child_split es key pre c suf ->
  exists A mc B FA fcc FB, m = A ++ mc ++ B /\ fc = FA ++ fcc ++ FB /\
    contents s (Datatypes.S h) pre A FA /\ tree s h (e_child c) mc fcc /\
    contents s (Datatypes.S h) suf B FB /\
    head_key mc = Some (e_key c) /\ e_value c = [] /\
    below key A /\ above key B.
Proof.
  intros Hc Hs (-> & Hsuf & Hpre).
  apply contents_split in Hc as (A & m' & FA & f' & -> & -> & HA & Hr).
  simpl in Hr. inversion Hr as [|e es' mc fcc B FB HT Hk Hv HB]; subst.
  exists A, mc, B, FA, fcc, FB. split_and!; auto.
  - apply kv_sorted_app in Hs as (_ & _ & Hlt).
    destruct Hpre as [->|Hnlt].
    { simpl in HA. inversion HA. constructor. }
    apply Forall_forall. intros x Hx. destruct (head_key_in _ _ Hk) as [v Hv'].
    destruct (blt_trichotomy (e_key c) key) as [Hl|[<-|Hg]]; [|apply (Hlt x (e_key c, v)); set_solver|done].
    eapply blt_trans; [|exact Hl]. apply (Hlt x (e_key c, v)); set_solver.
  - apply kv_sorted_app in Hs as (_ & Hs & _). apply kv_sorted_app in Hs as (_ & Hs & _).
    destruct suf as [|e' suf]; [inversion HB; constructor|].
    apply Forall_cons in Hsuf as [He' _].
    pose proof (contents_head s (Datatypes.S h) e' suf B FB HB) as Hh.
    apply Forall_forall. intros x Hx. pose proof (sorted_head_le _ _ _ Hs Hh Hx) as Hn.
    destruct (blt_trichotomy key (fst x)) as [Hl|[->|Hc]]; [exact Hl| |].
    + contradiction.
    + exfalso. apply Hn. eapply blt_trans; eauto.
Qed.

Lemma kv_lookup_part key A mc B :
  below key A -> above key B -> kv_lookup key (A ++ mc ++ B) = kv_lookup key mc.
Proof.
  intros HA HB. rewrite kv_lookup_app, kv_lookup_below by done.
  rewrite kv_lookup_app, (kv_lookup_above key B) by done. now destruct (kv_lookup key mc).
Qed.

Lemma getAt_tree h : forall fuel s id m fp key,
  (h < fuel)%nat -> ns_ok s -> tree s h id m fp -> kv_sorted m ->
  getAt fuel id key s = (Ok (kv_lookup key m), s).
Proof.
  induction h as [|h IH]; intros [|f] s id m fp key Hf Hok Ht Hs; try lia;
    apply tree_inv in Ht as (n & fc & Hu & Hv & Hnok & Hfit & -> & Htyp & Hne & Hc);
    cbn [getAt]; erewrite mbind_step by (eapply read_law; eauto); rewrite Htyp.
  - destruct Hc as [-> _]. change (htyp 0 =? nodeLeaf) with true. cbv iota.
    pose proof (search_kvs (n_entries n) key ltac:(apply Hnok)) as Hsr.
    destruct (search (n_entries n) key) as [i|].
    + destruct Hsr as (e & He & ->). now rewrite He.
    + now rewrite Hsr.
  - change (htyp (Datatypes.S h) =? nodeLeaf) with false.
    change (htyp (Datatypes.S h) =? nodeBranch) with true. cbv iota.
    destruct Hne as [|Hne]; [done|].
    assert (Hse : sorted_entries (n_entries n)) by apply Hnok.
    destruct (childFor_split n key Hse Hne Htyp) as (pre & c & suf & Hcs & _ & Hcf).
    rewrite Hcf. erewrite mbind_step by reflexivity.
    destruct (child_part _ _ _ _ _ _ _ _ _ Hc Hs Hcs)
      as (A & mc & B & FA & fcc & FB & -> & -> & _ & Htc & _ & _ & _ & HA & HB).
    rewrite (IH f s (e_child c) mc fcc key); auto; [|lia|].
    + now rewrite kv_lookup_part.
    + apply kv_sorted_app in Hs as (_ & Hs & _). now apply kv_sorted_app in Hs as (Hs & _ & _).
Qed.

(** On a tree, [Get] returns exactly what the finite map holds and changes
    nothing, for any fuel above the height. *)
Lemma get_tree h fuel s id m fp key :
  (h < fuel)%nat -> ns_ok s -> tree s h id m fp -> kv_sorted m -> key <> [] ->
  Get fuel id key s = (Ok (kv_map m !! key), s).
Proof.
  intros Hf Hok Ht Hs Hk. unfold Get. destruct key as [|b key]; [done|].
  change (length (b :: key) =? 0)%nat with false. cbv iota.
  erewrite getAt_tree by eauto. now rewrite kv_lookup_map.
Qed.
End get.
