(* ===== verification/KvTreePut.v ===== *)
(** * kvstore: [Put] is insertion into the map the tree stands for

    [Put] either inserts (and keeps the tree invariant) or reports that a
    half of a split node does not fit its page; the latter cannot happen
    while every entry takes at most [smallEntry] bytes. *)

From S2P Require Import Prelude KvNode KvCodec KvMap KvPager KvBTree KvTree.
Local Open Scope Z_scope.

(** ** Sizes of split nodes *)

(** Directory slot, key and value of one entry. *)
Definition smallEntry : Z := 180.

Definition small_kv (m : kvs) : Prop :=
  Forall (fun p => nodeEntrySize + zlen (fst p) + zlen (snd p) <= smallEntry) m.

Definition esum (es : list btreeEntry) : Z := zlen es * nodeEntrySize + payload es.

Lemma esum_app a b : esum (a ++ b) = esum a + esum b.
Proof. unfold esum. rewrite zlen_app, payload_app. lia. Qed.

Lemma esum_cons e es : esum (e :: es) = nodeEntrySize + entryBytes e + esum es.
Proof. unfold esum. rewrite zlen_cons. simpl payload. lia. Qed.

Lemma nodeSize_esum n : nodeSize n = nodeHeaderSize + esum (n_entries n).
Proof. unfold nodeSize, esum. lia. Qed.

Lemma esum_bounds es :
  Forall (fun e => 17 <= nodeEntrySize + entryBytes e <= smallEntry) es ->
  17 * zlen es <= esum es <= smallEntry * zlen es.
Proof.
  induction 1 as [|e es He Hes IH]; [done|].
  rewrite esum_cons, zlen_cons. unfold smallEntry in *. lia.
Qed.

(** Halving by entry count leaves two halves that fit, for small entries. *)
Lemma halves_fit es :
  Forall (fun e => 17 <= nodeEntrySize + entryBytes e <= smallEntry) es ->
  PageSize - nodeHeaderSize < esum es <= PageSize - nodeHeaderSize + 2 * smallEntry ->
  let mid := (length es / 2)%nat in
  esum (take mid es) <= PageSize - nodeHeaderSize /\
  esum (drop mid es) <= PageSize - nodeHeaderSize.
Proof.
  intros Hf Hs mid.
  assert (Hsum : esum es = esum (take mid es) + esum (drop mid es))
    by (rewrite <- esum_app, take_drop; done).
  pose proof (esum_bounds (take mid es) ltac:(now apply Forall_take)) as HL.
  pose proof (esum_bounds (drop mid es) ltac:(now apply Forall_drop)) as HR.
  assert (Hmid : (2 * mid <= length es <= 2 * mid + 1)%nat).
  { unfold mid. pose proof (Nat.div_mod_eq (length es) 2).
    pose proof (Nat.mod_upper_bound (length es) 2). lia. }
  assert (HzL : zlen (take mid es) = Z.of_nat mid) by (unfold zlen; rewrite length_take; lia).
  assert (HzR : zlen (drop mid es) = Z.of_nat (length es) - Z.of_nat mid)
    by (unfold zlen; rewrite length_drop; lia).
  unfold PageSize, nodeHeaderSize, smallEntry in *. lia.
Qed.

Section put.
  Context {S : Type} {NS : NodeStore S} {NL : NodeStoreLaws S}.
  Implicit Types s : S.

Definition nofit : string := "node does not fit in one page".

Lemma contents_small s h es m fc :
  contents s h es m fc -> Forall (entry_ok (htyp h)) es -> small_kv m ->
  Forall (fun e => 17 <= nodeEntrySize + entryBytes e <= smallEntry) es.
Proof.
  intros Hc Hok Hsm. apply Forall_forall. intros e He.
  rewrite Forall_forall in Hok. destruct (Hok e He) as (Hk & _).
  assert (1 <= zlen (e_key e)).
  { unfold zlen. destruct (e_key e); [done|]. simpl. lia. }
  pose proof (zlen_nonneg (e_value e)). unfold small_kv in Hsm. rewrite Forall_forall in Hsm.
  unfold entryBytes. destruct h; simpl in Hc.
  - destruct Hc as [-> _]. specialize (Hsm (entry_kv e)). simpl in Hsm.
    assert (entry_kv e ∈ leaf_kvs es) by (apply list_elem_of_fmap; eauto).
    unfold nodeEntrySize in *. specialize (Hsm ltac:(done)). lia.
  - assert (Hc' : contents s (Datatypes.S h) es m fc) by exact Hc.
    destruct (contents_keys _ _ _ _ _ _ Hc' He) as [v Hv].
    assert (Hev : e_value e = []).
    { clear -Hc He. induction Hc; [set_solver|].
      apply elem_of_cons in He as [->|He]; auto. }
    specialize (Hsm _ Hv). simpl in Hsm. rewrite Hev, zlen_nil.
    pose proof (zlen_nonneg v). unfold nodeEntrySize in *. lia.
Qed.

Lemma tree_used s h : forall id m fp j, tree s h id m fp -> j ∈ fp -> ns_used s j.
Proof.
  induction h as [|h IH]; intros id m fp j Ht Hj.
  - destruct Ht as (n & fc & Hu & _ & _ & _ & -> & _ & _ & ->).
    apply list_elem_of_singleton in Hj. now subst.
  - destruct Ht as (n & fc & Hu & _ & _ & _ & -> & _ & _ & Hb).
    apply elem_of_cons in Hj as [->|Hj]; [done|].
    revert Hj. induction Hb as [|e es mi fi m f HT Hk Hv Hr IHb]; [set_solver|].
    intros Hj. apply elem_of_app in Hj as [Hj|Hj]; eauto.
Qed.

Lemma contents_used s h es m fc j : contents s h es m fc -> j ∈ fc -> ns_used s j.
Proof.
  destruct h; simpl; [intros [_ ->]; set_solver|].
  induction 1 as [|e es mi fi m f HT Hk Hv Hr IHb]; [set_solver|].
  intros Hj. apply elem_of_app in Hj as [Hj|Hj]; eauto using tree_used.
Qed.

(** What an insertion into the subtree [fp] rooted at [id] leaves behind. *)
Definition put_post s (fp : list Z) s' (h : nat) (id : Z) (m : kvs) (split : option btreeEntry)
    : Prop :=
  ns_ok s' /\
  (forall j, ns_used s j -> ns_used s' j) /\
  (forall j, ns_used s j -> j ∉ fp -> ns_view s' j = ns_view s j) /\
  match split with
  | None => exists fp', tree s' h id m fp' /\ NoDup fp' /\
      (forall j, j ∈ fp' -> (j ∈ fp) \/ ~ ns_used s j)
  | Some e => exists ml mr fl fr, m = ml ++ mr /\
      tree s' h id ml fl /\ tree s' h (e_child e) mr fr /\ ml <> [] /\
      head_key mr = Some (e_key e) /\ e_value e = [] /\ entry_ok nodeBranch e /\
      NoDup (fl ++ fr) /\ (forall j, j ∈ fl ++ fr -> (j ∈ fp) \/ ~ ns_used s j)
  end.

Lemma put_post_trans s s1 s2 fp fp1 h id m sp :
  (forall j, ns_used s j -> ns_used s1 j) ->
  (forall j, ns_used s j -> j ∉ fp -> ns_view s1 j = ns_view s j /\ (j ∉ fp1)) ->
  (forall j, j ∈ fp1 -> (j ∈ fp) \/ ~ ns_used s j) ->
  put_post s1 fp1 s2 h id m sp -> put_post s fp s2 h id m sp.
Proof.
  intros Hmono Hfr Hsub (Hok & Hu & Hv & Hsp).
  assert (Hf : forall j, (j ∈ fp1) \/ ~ ns_used s1 j -> (j ∈ fp) \/ ~ ns_used s j).
  { intros j [Hj|Hj]; auto. }
  split_and!; auto.
  - intros j Hj Hnj. destruct (Hfr j Hj Hnj) as [He Hn]. rewrite Hv; auto.
  - destruct sp as [e|].
    + destruct Hsp as (ml & mr & fl & fr & ?). exists ml, mr, fl, fr. intuition auto.
    + destruct Hsp as (fp' & ?). exists fp'. intuition auto.
Qed.

(** Writing a node over its contents re-establishes the tree. *)
Lemma write_tree s h n m fc :
  ns_ok s -> ns_used s (n_id n) -> node_ok n -> nodeFits n = true -> n_typ n = htyp h ->
  (h = O \/ n_entries n <> []) -> contents s h (n_entries n) m fc -> n_id n ∉ fc ->
  exists s', ns_write n s = (Ok tt, s') /\ ns_ok s' /\
    tree s' h (n_id n) m (n_id n :: fc) /\
    (forall j, ns_used s' j <-> ns_used s j) /\
    (forall j, ns_used s j -> j <> n_id n -> ns_view s' j = ns_view s j) /\
    (forall k, ns_room s k -> ns_room s' k).
Proof.
  intros Hok Hu Hn Hfit Ht Hne Hc Hnf.
  destruct (write_law s n Hok Hu Hn Hfit) as (s' & Hw & Hok' & Hv & Hus & Hvs & Hr).
  exists s'. split_and!; auto. apply tree_inv. exists n, fc. split_and!; auto.
  - now apply Hus.
  - eapply contents_frame; [exact Hc|]. intros j Hj.
    pose proof (contents_used _ _ _ _ _ _ Hc Hj). split; [now apply Hus|].
    apply Hvs; [done|]. intros ->. done.
Qed.

(** Two sibling nodes written one after the other. *)
Lemma write_pair s h L R m1 f1 m2 f2 r :
  ns_ok s -> ns_room s r -> ns_used s (n_id L) -> ns_used s (n_id R) ->
  node_ok L -> node_ok R -> n_typ L = htyp h -> n_typ R = htyp h ->
  n_entries L <> [] -> (n_entries R = [] -> nodeFits L = false) ->
  contents s h (n_entries L) m1 f1 -> contents s h (n_entries R) m2 f2 ->
  NoDup (n_id L :: n_id R :: f1 ++ f2) ->
  (exists s', mbind (ns_write L) (fun _ => ns_write R) s = (Ok tt, s') /\
     n_entries R <> [] /\ ns_ok s' /\ ns_room s' r /\
     tree s' h (n_id L) m1 (n_id L :: f1) /\ tree s' h (n_id R) m2 (n_id R :: f2) /\
     (forall j, ns_used s' j <-> ns_used s j) /\
     (forall j, ns_used s j -> j <> n_id L -> j <> n_id R -> ns_view s' j = ns_view s j)) \/
  (exists s', mbind (ns_write L) (fun _ => ns_write R) s = (Err nofit, s') /\
     (nodeFits L = false \/ nodeFits R = false) /\ ns_ok s').
Proof.
  intros Hok Hroom HuL HuR HnL HnR HtL HtR HeL HeR HcL HcR Hnd.
  apply NoDup_cons in Hnd as [HndL Hnd]. apply NoDup_cons in Hnd as [HndR Hnd].
  destruct (nodeFits L) eqn:HfL; cycle 1.
  { right. destruct (write_nofit s L Hok HuL HfL) as (s' & Hw & Hok').
    exists s'. erewrite mbind_fail by exact Hw. auto. }
  assert (HeR' : n_entries R <> []) by (intros E; discriminate (HeR E)). clear HeR.
  destruct (write_tree s h L m1 f1) as (s1 & Hw1 & Hok1 & Ht1 & Hu1 & Hv1 & Hr1); auto;
    [set_solver|].
  erewrite mbind_step by exact Hw1.
  destruct (nodeFits R) eqn:HfR.
  2: { right. destruct (write_nofit s1 R Hok1 ltac:(now apply Hu1) HfR) as (s' & Hw & Hok').
       exists s'. auto. }
  left. assert (HcR1 : contents s1 h (n_entries R) m2 f2).
  { eapply contents_frame; [exact HcR|]. intros j Hj.
    pose proof (contents_used _ _ _ _ _ _ HcR Hj). split; [now apply Hu1|].
    apply Hv1; [done|]. intros ->. set_solver. }
  destruct (write_tree s1 h R m2 f2) as (s2 & Hw2 & Hok2 & Ht2 & Hu2 & Hv2 & Hr2); auto;
    [now apply Hu1|set_solver|].
  exists s2. split_and!; auto.
  - eapply tree_frame; [exact Ht1|]. intros j Hj.
    pose proof (tree_used _ _ _ _ _ _ Ht1 Hj). split; [now apply Hu2|].
    apply Hv2; [done|]. intros ->. set_solver.
  - intros j. now rewrite Hu2.
  - intros j Hj H1 H2. rewrite Hv2, Hv1; auto. now apply Hu1.
Qed.

Lemma splitEntries_spec es :
  es <> [] -> exists a b, splitEntries es = Ok (a, b) /\ es = a ++ b /\ a <> [] /\
    ((1 < length es)%nat -> a = take (length es / 2)%nat es /\ b = drop (length es / 2)%nat es).
Proof.
  intros Hne. unfold splitEntries. destruct es as [|e es]; [done|].
  set (mid := if (length (e :: es) / 2 =? 0)%nat then 1%nat else (length (e :: es) / 2)%nat).
  exists (take mid (e :: es)), (drop mid (e :: es)). rewrite take_drop.
  assert (Hm : (mid <> 0)%nat).
  { unfold mid. destruct (Nat.eqb_spec (length (e :: es) / 2) 0); lia. }
  split_and!; auto.
  - destruct mid; done.
  - intros Hl. unfold mid. destruct (Nat.eqb_spec (length (e :: es) / 2) 0) as [H0|]; [|done].
    apply Nat.div_small_iff in H0; lia.
Qed.

(** A node that has outgrown its page by at most two small entries splits
    into two nodes that fit. *)
Lemma split_fits h s es m fc a b :
  contents s h es m fc -> Forall (entry_ok (htyp h)) es -> small_kv m ->
  PageSize < nodeHeaderSize + esum es <= PageSize + 2 * smallEntry ->
  splitEntries es = Ok (a, b) ->
  nodeHeaderSize + esum a <= PageSize /\ nodeHeaderSize + esum b <= PageSize.
Proof.
  intros Hc Hok Hsm Hsz Hsp.
  pose proof (contents_small _ _ _ _ _ Hc Hok Hsm) as Hf.
  assert (Hl : (1 < length es)%nat).
  { destruct es as [|e [|e' es]]; simpl; [|inv Hf|lia].
    - change (esum []) with 0 in Hsz. unfold PageSize, nodeHeaderSize in *. lia.
    - rewrite esum_cons in Hsz. change (esum []) with 0 in Hsz.
      unfold PageSize, smallEntry, nodeHeaderSize in *. lia. }
  destruct (splitEntries_spec es) as (a' & b' & Hsp' & _ & _ & Hmid); [now intros ->|].
  rewrite Hsp in Hsp'. injection Hsp' as <- <-. destruct (Hmid Hl) as [-> ->].
  pose proof (halves_fit es Hf ltac:(lia)) as [H1 H2]. lia.
Qed.

Definition put_result s (fp : list Z) (h : nat) (id : Z) (m : kvs) (r : nat)
    (res : outcome (option btreeEntry) * S) : Prop :=
  match fst res with
  | Ok sp => put_post s fp (snd res) h id m sp /\ ns_room (snd res) r
  | Err e => e = nofit /\ ~ small_kv m /\ ns_ok (snd res)
  | Panic _ | Fuel => False
  end.

Lemma nodeFits_esum n : nodeFits n = true <-> nodeHeaderSize + esum (n_entries n) <= PageSize.
Proof. unfold nodeFits. rewrite nodeSize_esum. apply Z.leb_le. Qed.

Lemma nodeFits_esum_false n :
  nodeFits n = false <-> PageSize < nodeHeaderSize + esum (n_entries n).
Proof. unfold nodeFits. rewrite nodeSize_esum. apply Z.leb_gt. Qed.

Lemma node_ok_part h id next es m fc s :
  contents s h es m fc -> kv_sorted m -> Forall (entry_ok (htyp h)) es ->
  0 <= next < 2 ^ 64 -> node_ok (mkNode id (htyp h) next es).
Proof.
  intros Hc Hs Hok Hnx. unfold node_ok. simpl. split_and!; auto; try lia.
  - destruct h; auto.
  - eapply contents_sorted; eauto.
Qed.

(** What splitting an overfull node gives: two halves of its entries, of the
    map it stands for and of the pages below it. *)
Lemma split_halves s h n m fc :
  Forall (entry_ok (htyp h)) (n_entries n) -> kv_sorted m ->
  contents s h (n_entries n) m fc -> nodeFits n = false ->
  (small_kv m -> nodeHeaderSize + esum (n_entries n) <= PageSize + 2 * smallEntry) ->
  exists a b m1 m2 f1 f2,
    splitEntries (n_entries n) = Ok (a, b) /\ m = m1 ++ m2 /\ fc = f1 ++ f2 /\ a <> [] /\
    contents s h a m1 f1 /\ contents s h b m2 f2 /\ kv_sorted m1 /\ kv_sorted m2 /\
    Forall (entry_ok (htyp h)) a /\ Forall (entry_ok (htyp h)) b /\
    (b = [] -> PageSize < nodeHeaderSize + esum a) /\
    (PageSize < nodeHeaderSize + esum a \/ PageSize < nodeHeaderSize + esum b -> ~ small_kv m).
Proof.
  intros Heok Hs Hc Hfit Hsz. apply nodeFits_esum_false in Hfit.
  destruct (splitEntries_spec (n_entries n)) as (a & b & Hsp & Hab & Ha & _).
  { intros E. rewrite E in Hfit. change (esum []) with 0 in Hfit.
    unfold PageSize, nodeHeaderSize in *. lia. }
  assert (Hfits : small_kv m ->
            nodeHeaderSize + esum a <= PageSize /\ nodeHeaderSize + esum b <= PageSize).
  { intros Hsm. eapply split_fits; eauto. }
  rewrite Hab in Hc, Heok, Hfit. apply Forall_app in Heok as [Hea Heb].
  pose proof (contents_split _ _ _ _ _ _ Hc) as (m1 & m2 & f1 & f2 & -> & -> & Hc1 & Hc2).
  pose proof Hs as Hs'. apply kv_sorted_app in Hs' as (Hs1 & Hs2 & _).
  exists a, b, m1, m2, f1, f2. split_and!; auto.
  - intros ->. now rewrite app_nil_r in Hfit.
  - intros Hbig Hsm. specialize (Hfits Hsm). lia.
Qed.

Lemma agrees_sub s s' fc fc' :
  agrees s s' fc -> (forall j, j ∈ fc' -> j ∈ fc) -> agrees s s' fc'.
Proof. unfold agrees. auto. Qed.

Lemma splitNonRoot_spec s h n m fc r :
  ns_ok s -> ns_used s (n_id n) -> ns_room s (Datatypes.S r) -> n_typ n = htyp h ->
  0 <= n_next n < 2 ^ 64 -> Forall (entry_ok (htyp h)) (n_entries n) -> kv_sorted m ->
  contents s h (n_entries n) m fc -> NoDup (n_id n :: fc) -> nodeFits n = false ->
  (small_kv m -> nodeHeaderSize + esum (n_entries n) <= PageSize + 2 * smallEntry) ->
  put_result s (n_id n :: fc) h (n_id n) m r (splitNonRoot n s).
Proof.
  intros Hok Hu Hroom Ht Hnx Heok Hs Hc Hnd Hfit Hsz.
  pose proof (fun j => contents_used s h (n_entries n) m fc j Hc) as Husd.
  destruct (split_halves _ _ _ _ _ Heok Hs Hc Hfit Hsz) as
    (a & b & m1 & m2 & f1 & f2 & Hsp & -> & -> & Ha & Hc1 & Hc2 & Hs1 & Hs2 & Hea & Heb & Hnil & Hbig).
  unfold splitNonRoot. rewrite Hsp, Ht. erewrite mbind_step by reflexivity. cbv beta iota.
  destruct (alloc_law s r Hok Hroom) as (rid & s1 & Hal & Hok1 & Hr1 & Hnu & Hu1 & Hk1).
  erewrite mbind_step by exact Hal.
  assert (agrees s s1 (f1 ++ f2)) as [Hag1 Hag2]%agrees_app by (intros j Hj; apply Hk1; auto).
  pose proof (contents_frame _ _ _ _ _ _ Hc1 Hag1) as Hc1'.
  pose proof (contents_frame _ _ _ _ _ _ Hc2 Hag2) as Hc2'.
  assert (Hrid : rid ∉ n_id n :: f1 ++ f2).
  { intros Hj. apply Hnu. apply elem_of_cons in Hj as [->|Hj]; auto. }
  pose proof (used_range _ _ Hu1) as Hridr. apply NoDup_cons in Hnd as [Hn1 Hn2].
  set (L := mkNode (n_id n) (htyp h) (if htyp h =? nodeLeaf then rid else 0) a).
  set (R := mkNode rid (htyp h) (if htyp h =? nodeLeaf then n_next n else 0) b).
  rewrite mbind_assoc.
  destruct (write_pair s1 h L R m1 f1 m2 f2 r) as
    [(s2 & Hw & Hb & Hok2 & Hr2 & HtL & HtR & Hu2 & Hv2)|(s2 & Hw & Hnf & Hok2)]; simpl; auto.
  - now apply Hk1.
  - eapply node_ok_part; eauto. case_match; lia.
  - eapply node_ok_part; eauto. case_match; lia.
  - intros E. apply nodeFits_esum_false. auto.
  - constructor; [set_solver|]. constructor; [set_solver|done].
  - erewrite mbind_step by exact Hw. split; [|exact Hr2]. unfold put_post. simpl in *.
    split_and!; auto.
    + intros j Hj. apply Hu2. now apply Hk1.
    + intros j Hj Hnj. rewrite Hv2; [now apply Hk1|now apply Hk1|set_solver|]. intros ->. done.
    + exists m1, m2, (n_id n :: f1), (rid :: f2). split_and!; auto.
      * intros ->. destruct a; [done|]. apply contents_head in Hc1. done.
      * now apply (contents_firstKey _ _ _ _ _ Hc2).
      * destruct b as [|e b]; [done|]. inv Heb. split; [|simpl; lia].
        change (firstKey (e :: b)) with (e_key e). apply H1.
      * apply NoDup_app in Hn2 as (? & ? & ?).
        apply NoDup_app. split_and!; [constructor; set_solver|set_solver|constructor; set_solver].
      * intros j Hj. destruct (decide (j = rid)) as [->|]; [now right|left]. set_solver.
  - erewrite mbind_fail by exact Hw. split; [done|]. split; [|done].
    rewrite !nodeFits_esum_false in Hnf. auto.
Qed.

(** ** The last step of an insertion: write the node, or split it *)

Definition write_or_split (n : btreeNode) : M S (option btreeEntry) :=
  if nodeFits n then (_ <-- ns_write n ;; mret None) else splitNonRoot n.

Lemma write_or_split_spec s h n m fc r :
  ns_ok s -> ns_used s (n_id n) -> ns_room s (Datatypes.S r) -> n_typ n = htyp h ->
  0 <= n_next n < 2 ^ 64 -> Forall (entry_ok (htyp h)) (n_entries n) -> kv_sorted m ->
  contents s h (n_entries n) m fc -> n_entries n <> [] -> NoDup (n_id n :: fc) ->
  (small_kv m -> nodeHeaderSize + esum (n_entries n) <= PageSize + 2 * smallEntry) ->
  put_result s (n_id n :: fc) h (n_id n) m r (write_or_split n s).
Proof.
  intros Hok Hu Hroom Ht Hnx Heok Hs Hc Hne Hnd Hsz. unfold write_or_split.
  destruct (nodeFits n) eqn:Hfit; [|now apply splitNonRoot_spec].
  destruct (write_tree s h n m fc) as (s1 & Hw & Hok1 & Ht1 & Hu1 & Hv1 & Hr1); auto.
  { destruct n; simpl in *; subst. eapply node_ok_part; eauto. }
  { now apply NoDup_cons in Hnd as [? _]. }
  erewrite mbind_step by exact Hw. split; simpl; [|eapply room_mono; [apply Hr1, Hroom|lia]].
  unfold put_post. split_and!; auto.
  - intros j Hj. now apply Hu1.
  - intros j Hj Hnj. apply Hv1; [done|set_solver].
  - exists (n_id n :: fc). split_and!; auto.
Qed.

Lemma put_result_trans s s1 fp fp1 h id m r res :
  (forall j, ns_used s j -> ns_used s1 j) ->
  (forall j, ns_used s j -> j ∉ fp -> ns_view s1 j = ns_view s j /\ (j ∉ fp1)) ->
  (forall j, j ∈ fp1 -> (j ∈ fp) \/ ~ ns_used s j) ->
  put_result s1 fp1 h id m r res -> put_result s fp h id m r res.
Proof.
  intros Hm Hf Hsub. unfold put_result. destruct res as [[sp|e|e|] s2]; simpl; auto.
  intros [Hp Hr]. split; [|exact Hr]. eapply put_post_trans; eauto.
Qed.

(** ** What a parent sees of a child that was inserted into *)

Lemma tree_firstKey s h id m fp :
  ns_ok s -> tree s h id m fp -> m <> [] ->
  exists n, ns_read id s = (Ok n, s) /\ head_key m = Some (firstKey (n_entries n)) /\
    firstKey (n_entries n) <> [].
Proof.
  intros Hok Ht Hm. apply tree_inv in Ht as (n & fc & Hu & Hv & Hn & Hf & -> & Ht & Hne & Hc).
  exists n. split; [eapply read_law; eauto|].
  assert (Hes : n_entries n <> []).
  { destruct Hne as [->|]; [|done]. destruct Hc as [-> _]. intros E. now rewrite E in Hm. }
  split; [eapply contents_firstKey; eauto|].
  destruct Hn as (_ & _ & Hall & _). destruct (n_entries n) as [|e es]; [done|].
  inv Hall. apply H1.
Qed.

Lemma child_grown s s1 fcc h cid m sp :
  put_post s fcc s1 h cid m sp -> m <> [] -> 1 <= cid < 2 ^ 64 ->
  exists child fcc', ns_read cid s1 = (Ok child, s1) /\
    contents s1 (Datatypes.S h) (mkEntry (firstKey (n_entries child)) [] cid :: option_list sp)
      m fcc' /\
    Forall (entry_ok nodeBranch)
      (mkEntry (firstKey (n_entries child)) [] cid :: option_list sp) /\
    NoDup fcc' /\ (forall j, j ∈ fcc' -> (j ∈ fcc) \/ ~ ns_used s j).
Proof.
  intros (Hok & Hu & Hv & Hsp) Hm Hcid. destruct sp as [e|]; simpl.
  - destruct Hsp as (ml & mr & fl & fr & -> & Hl & Hr & Hml & Hk & Hve & Heok & Hnd & Hsub).
    destruct (tree_firstKey _ _ _ _ _ Hok Hl Hml) as (child & Hrd & Hh & Hne).
    exists child, (fl ++ fr). split_and!; auto.
    + apply (br_cons _ (mkEntry _ [] cid)); auto.
      rewrite <- (app_nil_r mr), <- (app_nil_r fr). apply br_cons; auto. constructor.
    + repeat constructor; simpl; auto; try lia; apply Heok.
  - destruct Hsp as (fp' & Ht & Hnd & Hsub).
    destruct (tree_firstKey _ _ _ _ _ Hok Ht Hm) as (child & Hrd & Hh & Hne).
    exists child, fp'. split_and!; auto.
    + rewrite <- (app_nil_r m), <- (app_nil_r fp').
      apply (br_cons _ (mkEntry _ [] cid)); auto. constructor.
    + repeat constructor; simpl; auto; lia.
Qed.

Lemma set_key_at_mid pre c suf k :
  set_key_at (pre ++ c :: suf) (zlen pre) k = pre ++ mkEntry k (e_value c) (e_child c) :: suf.
Proof.
  unfold set_key_at, zlen. rewrite Nat2Z.id.
  rewrite <- (Nat.add_0_r (length pre)), alter_app_r. done.
Qed.

(** The split-off sibling lands right behind the child it came from. *)
Lemma insert_sibling pre c' suf sp :
  sorted_entries (pre ++ (c' :: option_list sp) ++ suf) ->
  match sp with Some e => insertEntry (pre ++ c' :: suf) e | None => pre ++ c' :: suf end =
  pre ++ (c' :: option_list sp) ++ suf.
Proof.
  destruct sp as [e|]; [|done]. simpl. intros Hs.
  replace (pre ++ c' :: e :: suf) with ((pre ++ [c']) ++ e :: suf) in *
    by now rewrite <- app_assoc.
  replace (pre ++ c' :: suf) with ((pre ++ [c']) ++ suf) by now rewrite <- app_assoc.
  destruct (sorted_mid _ _ _ Hs) as [H1 H2].
  apply insertEntry_absent; auto. eapply sorted_remove; eauto.
Qed.

Lemma kv_insert_part key value A mc B :
  below key A -> above key B ->
  kv_insert key value (A ++ mc ++ B) = A ++ kv_insert key value mc ++ B.
Proof. intros HA HB. now rewrite kv_insert_below, kv_insert_above. Qed.

Lemma small_kv_app a b : small_kv (a ++ b) <-> small_kv a /\ small_kv b.
Proof. apply Forall_app. Qed.

Lemma kv_insert_elem k v m : (k, v) ∈ kv_insert k v m.
Proof.
  induction m as [|[k' v'] m IH]; simpl; [set_solver|].
  destruct (bcompare k k'); set_solver.
Qed.

(** The shared prefix of [putNonRoot] on a branch and of [putRootBranch];
    [k] is what the caller does with the updated node. *)
Definition branch_put {A} (f : nat) (node : btreeNode) (key value : bytes)
    (k : btreeNode -> M S A) : M S A :=
  let childIndex := childIndexFor (n_entries node) key in
  childID <-- child_at (n_entries node) childIndex ;;
  child <-- ns_read childID ;;
  split <-- putNonRoot f child key value ;;
  child <-- ns_read childID ;;
  let es := set_key_at (n_entries node) childIndex (firstKey (n_entries child)) in
  let es := match split with Some e => insertEntry es e | None => es end in
  k (with_entries node es).

(** The induction hypothesis of the insertion proof, at height [h]. *)
Definition put_ok_at (h : nat) : Prop := forall fuel s n m fp r key value,
  (h < fuel)%nat -> ns_ok s -> ns_view s (n_id n) = Some n -> tree s h (n_id n) m fp ->
  kv_sorted m -> NoDup fp -> ns_room s (Datatypes.S h + r) -> key <> [] ->
  put_result s fp h (n_id n) (kv_insert key value m) r (putNonRoot fuel n key value s).

Definition grown s (id : Z) (fc : list Z) (h : nat) (m : kvs) (r : nat)
    s1 (es : list btreeEntry) (fc' : list Z) : Prop :=
  ns_ok s1 /\ ns_room s1 r /\ contents s1 (Datatypes.S h) es m fc' /\ es <> [] /\
  Forall (entry_ok nodeBranch) es /\ NoDup (id :: fc') /\
  (forall j, ns_used s j -> ns_used s1 j) /\
  (forall j, ns_used s j -> j ∉ fc -> ns_view s1 j = ns_view s j) /\
  (forall j, j ∈ fc' -> (j ∈ fc) \/ ~ ns_used s j).

Lemma grow_middle s s1 id pre suf ces A mc B FA fcc fcc' FB h r :
  ns_used s id -> NoDup (id :: FA ++ fcc ++ FB) ->
  contents s (Datatypes.S h) pre A FA -> contents s (Datatypes.S h) suf B FB ->
  contents s1 (Datatypes.S h) ces mc fcc' -> ces <> [] ->
  Forall (entry_ok nodeBranch) (pre ++ ces ++ suf) ->
  NoDup fcc' -> (forall j, j ∈ fcc' -> (j ∈ fcc) \/ ~ ns_used s j) ->
  ns_ok s1 -> ns_room s1 r -> (forall j, ns_used s j -> ns_used s1 j) ->
  (forall j, ns_used s j -> j ∉ fcc -> ns_view s1 j = ns_view s j) ->
  grown s id (FA ++ fcc ++ FB) h (A ++ mc ++ B) r s1 (pre ++ ces ++ suf) (FA ++ fcc' ++ FB).
Proof.
  intros Hid Hnd HA HB Hc Hne Heok Hnd' Hsub Hok Hr Hu Hv.
  apply NoDup_cons in Hnd as [Hidn Hnd].
  apply NoDup_app in Hnd as (HndA & HdA & Hnd). apply NoDup_app in Hnd as (_ & HdB & HndB).
  assert (HuA : forall j, j ∈ FA -> ns_used s j) by (intros j Hj; eauto using contents_used).
  assert (HuB : forall j, j ∈ FB -> ns_used s j) by (intros j Hj; eauto using contents_used).
  assert (Hfr : forall j, ns_used s j -> j ∉ fcc -> j ∉ fcc').
  { intros j Hj Hn Hc'. destruct (Hsub j Hc'); auto. }
  unfold grown. split_and!; auto.
  - apply contents_app; [|apply contents_app; [exact Hc|]].
    + eapply contents_frame; [exact HA|]. intros j Hj. split; [auto|].
      apply Hv; auto. intros Hc'. apply (HdA j Hj). set_solver.
    + eapply contents_frame; [exact HB|]. intros j Hj. split; [auto|].
      apply Hv; auto. intros Hc'. exact (HdB j Hc' Hj).
  - destruct pre; [destruct ces; done|done].
  - constructor.
    + rewrite !elem_of_app. intros [Hj|[Hj|Hj]]; [set_solver| |set_solver].
      apply (Hfr id Hid); [set_solver|done].
    + apply NoDup_app. split_and!; auto.
      * intros j Hj. rewrite elem_of_app. intros [Hc'|Hc'].
        { apply (Hfr j); auto. intros ?. apply (HdA j Hj). set_solver. }
        { apply (HdA j Hj). set_solver. }
      * apply NoDup_app. split_and!; auto.
        intros j Hj Hj'. apply (Hfr j); auto. intros Hc'. exact (HdB j Hc' Hj').
  - intros j Hj Hn. apply Hv; auto. set_solver.
  - intros j. rewrite !elem_of_app. intros [Hj|[Hj|Hj]]; auto.
    destruct (Hsub j Hj); auto.
Qed.

Lemma ces_small s h c sp m fc :
  contents s (Datatypes.S h) (c :: option_list sp) m fc ->
  Forall (entry_ok nodeBranch) (c :: option_list sp) -> small_kv m ->
  esum (c :: option_list sp) <= 2 * smallEntry.
Proof.
  intros Hc Hok Hsm.
  pose proof (esum_bounds _ (contents_small _ _ _ _ _ Hc Hok Hsm)) as [_ Hb].
  unfold smallEntry in *. destruct sp; simpl in *; autorewrite with klen in Hb; lia.
Qed.

Lemma child_at_mid pre c suf s :
  child_at (pre ++ c :: suf) (zlen pre) s = (Ok (e_child c), s).
Proof.
  unfold child_at. destruct (Z.ltb_spec (zlen pre) 0); [pose proof (zlen_nonneg pre); lia|].
  unfold zlen. now rewrite Nat2Z.id, list_lookup_middle.
Qed.

Lemma branch_put_spec {A} h (IH : put_ok_at h) f s n m fc r key value
    (k : btreeNode -> M S A) :
  (h < f)%nat -> ns_ok s -> ns_used s (n_id n) -> node_ok n -> nodeFits n = true ->
  n_typ n = nodeBranch -> n_entries n <> [] ->
  contents s (Datatypes.S h) (n_entries n) m fc -> kv_sorted m -> NoDup (n_id n :: fc) ->
  ns_room s (Datatypes.S h + r) -> key <> [] ->
  (exists s', branch_put f n key value k s = (Err nofit, s') /\
     ~ small_kv (kv_insert key value m) /\ ns_ok s') \/
  (exists s1 es' fc', branch_put f n key value k s = k (with_entries n es') s1 /\
     grown s (n_id n) fc h (kv_insert key value m) r s1 es' fc' /\
     (small_kv (kv_insert key value m) ->
      nodeHeaderSize + esum es' <= PageSize + 2 * smallEntry)).
Proof.
  intros Hf Hok Hu (_ & _ & Heok & Hse) Hfit Ht Hne Hc Hs Hnd Hroom Hk.
  destruct (childIndexFor_split _ key Hse Hne) as (pre & c & suf & Hcs & Hidx).
  destruct (child_part _ _ _ _ _ _ _ _ _ Hc Hs Hcs)
    as (mA & mc & mB & FA & fcc & FB & -> & -> & HA & Htc & HB & _ & Hcv & HbA & HbB).
  destruct Hcs as (Hes & _ & _).
  assert (Hsc : kv_sorted mc).
  { apply kv_sorted_app in Hs as (_ & Hs & _). now apply kv_sorted_app in Hs as (Hs & _ & _). }
  pose proof (kv_insert_sorted key value _ Hs) as Hs'.
  rewrite kv_insert_part in * by auto.
  unfold branch_put. cbv zeta. rewrite Hidx, Hes. erewrite mbind_step by apply child_at_mid.
  pose proof Htc as Htc'.
  apply tree_inv in Htc as (nc & fcc0 & Huc & Hvc & _ & _ & _ & _).
  erewrite mbind_step by (eapply read_law; eauto).
  pose proof (view_id _ _ _ Hvc) as Hidc. rewrite <- Hidc in Hvc, Htc'.
  assert (Hndc : NoDup fcc).
  { apply NoDup_cons in Hnd as [_ Hnd]. apply NoDup_app in Hnd as (_ & _ & Hnd).
    now apply NoDup_app in Hnd as (Hnd & _). }
  pose proof (IH f s nc mc fcc r key value Hf Hok Hvc Htc' Hsc Hndc Hroom Hk) as Hres.
  unfold put_result in Hres.
  destruct (putNonRoot f nc key value s) as [[sp|e|e|] s1] eqn:Hpn;
    cbn [fst snd] in Hres; [|left|done|done].
  2: { destruct Hres as (-> & Hns & Hok1). exists s1. erewrite mbind_fail by exact Hpn.
       split; [done|]. split; [|done].
       rewrite !small_kv_app. tauto. }
  right. destruct Hres as [Hpost Hr1]. rewrite Hidc in Hpost.
  destruct (child_grown _ _ _ _ _ _ _ Hpost (kv_insert_ne _ _ _) (used_range _ _ Huc))
    as (child & fcc' & Hrd & Hcc & Heokc & Hndc' & Hsub).
  erewrite mbind_step by exact Hpn. erewrite mbind_step by exact Hrd.
  rewrite set_key_at_mid, Hcv.
  set (ces := mkEntry (firstKey (n_entries child)) [] (e_child c) :: option_list sp) in *.
  rewrite Ht, Hes in Heok. apply Forall_app in Heok as [Hep Heok]. inv Heok.
  destruct Hpost as (Hok1 & Hu1 & Hv1 & _).
  assert (Hg : grown s (n_id n) (FA ++ fcc ++ FB) h (mA ++ kv_insert key value mc ++ mB) r s1
                 (pre ++ ces ++ suf) (FA ++ fcc' ++ FB)).
  { apply grow_middle; auto; try done. rewrite !Forall_app. auto. }
  exists s1, (pre ++ ces ++ suf), (FA ++ fcc' ++ FB). split_and!; [|exact Hg|].
  - f_equal. f_equal. apply insert_sibling. destruct Hg as (_ & _ & Hg & _).
    eapply contents_sorted; [exact Hg|done].
  - intros Hsm. rewrite !small_kv_app in Hsm.
    pose proof (ces_small _ _ _ _ _ _ Hcc Heokc ltac:(tauto)) as Hcb. fold ces in Hcb.
    apply nodeFits_esum in Hfit. rewrite Hes, !esum_app, esum_cons in Hfit.
    rewrite !esum_app. unfold entryBytes, nodeEntrySize in Hfit.
    pose proof (zlen_nonneg (e_key c)). pose proof (zlen_nonneg (e_value c)). lia.
Qed.

Lemma insertEntry_esum es e :
  sorted_entries es -> esum (insertEntry es e) <= esum es + nodeEntrySize + entryBytes e.
Proof.
  intros Hs. destruct (key_split_of es (e_key e) Hs) as [pre x suf -> Hk Hp Hf|pre suf -> Hp Hf].
  - rewrite insertEntry_found by auto. rewrite !esum_app, !esum_cons.
    unfold entryBytes, nodeEntrySize. pose proof (zlen_nonneg (e_key x)).
    pose proof (zlen_nonneg (e_value x)). lia.
  - rewrite insertEntry_absent by auto. rewrite !esum_app, !esum_cons. lia.
Qed.

Lemma insertEntry_forall (P : btreeEntry -> Prop) es e :
  Forall P es -> P e -> Forall P (insertEntry es e).
Proof.
  intros Hes He. unfold insertEntry. case_match.
  - now apply Forall_insert.
  - apply Forall_app. split; [now apply Forall_take|].
    constructor; [done|now apply Forall_drop].
Qed.

Lemma insertEntry_ne es e : insertEntry es e <> [].
Proof.
  unfold insertEntry. case_match eqn:E; intros H0; apply (f_equal length) in H0; revert H0.
  - rewrite length_insert. simpl. destruct es; [done|]. simpl. lia.
  - rewrite length_app. simpl. lia.
Qed.

Lemma leaf_put s n m fc key value :
  node_ok n -> nodeFits n = true -> n_typ n = nodeLeaf -> contents s 0 (n_entries n) m fc ->
  key <> [] ->
  let es := insertEntry (n_entries n) (leaf_entry key value) in
  contents s 0 es (kv_insert key value m) [] /\ es <> [] /\ fc = [] /\
  Forall (entry_ok (htyp 0)) es /\
  (small_kv (kv_insert key value m) ->
   nodeHeaderSize + esum es <= PageSize + 2 * smallEntry).
Proof.
  intros (_ & _ & Heok & Hse) Hfit Ht [-> ->] Hk es. unfold es. split_and!; auto.
  - split; [|done]. now rewrite insertEntry_kvs.
  - apply insertEntry_ne.
  - rewrite Ht in Heok. apply insertEntry_forall; [exact Heok|].
    split; [done|]. simpl. split; [lia|done].
  - intros Hsm. apply nodeFits_esum in Hfit.
    pose proof (insertEntry_esum (n_entries n) (leaf_entry key value) Hse) as He.
    unfold small_kv in Hsm. rewrite Forall_forall in Hsm.
    specialize (Hsm _ (kv_insert_elem key value _)). unfold entryBytes in He.
    cbn [fst snd e_key e_value leaf_entry] in *. unfold smallEntry in *. lia.
Qed.

Lemma put_result_grown s s1 id fp1 fc h m r res :
  grown s id fc h m r s1 fp1.1 fp1.2 ->
  ns_used s id -> id ∉ fc ->
  put_result s1 (id :: fp1.2) (Datatypes.S h) id m r res ->
  put_result s (id :: fc) (Datatypes.S h) id m r res.
Proof.
  destruct fp1 as [es fc']. simpl. intros (_ & _ & _ & _ & _ & Hnd & Hu & Hv & Hsub) Hid Hnf.
  apply put_result_trans; auto.
  - intros j Hj Hn. split; [apply Hv; set_solver|].
    intros Hc. apply elem_of_cons in Hc as [->|Hc]; [set_solver|].
    destruct (Hsub j Hc); set_solver.
  - intros j Hj. apply elem_of_cons in Hj as [->|Hj]; [left; set_solver|].
    destruct (Hsub j Hj); [left; set_solver|now right].
Qed.

Lemma put_ok_all h : put_ok_at h.
Proof.
  induction h as [|h IH]; intros [|f] s n m fp r key value Hf Hok Hv Ht Hs Hnd Hroom Hk; try lia;
    apply tree_inv in Ht as (n' & fc & Hu & Hv' & Hn & Hfit & -> & Ht & Hne & Hc);
    rewrite Hv in Hv'; injection Hv' as <-; cbn [putNonRoot]; rewrite Ht.
  - change (htyp 0 =? nodeLeaf) with true. cbv iota.
    destruct (leaf_put s n m fc key value Hn Hfit Ht Hc Hk) as (Hc' & Hne' & -> & Heok & Hsz).
    apply (write_or_split_spec s 0 (with_entries n _)); auto; [apply Hn|].
    now apply kv_insert_sorted.
  - change (htyp (Datatypes.S h) =? nodeLeaf) with false.
    change (htyp (Datatypes.S h) =? nodeBranch) with true. cbv iota.
    destruct Hne as [|Hne]; [done|].
    assert (Hroom' : ns_room s (Datatypes.S h + Datatypes.S r)).
    { eapply room_mono; [exact Hroom|lia]. }
    destruct (branch_put_spec h IH f s n m fc (Datatypes.S r) key value write_or_split)
      as [(s' & Hp & Hns & Hok')|(s1 & es' & fc' & Hp & Hg & Hsz)]; auto; [lia| |];
      unfold branch_put, write_or_split in Hp; cbv zeta in Hp |- *; rewrite Hp; [done|].
    apply (put_result_grown s s1 (n_id n) (es', fc')); auto.
    { cbn [fst snd]. destruct Hg as (? & Hr1 & Hg). split; [done|]. split; [|exact Hg].
      eapply room_mono; [exact Hr1|lia]. }
    { now apply NoDup_cons in Hnd as [? _]. }
    destruct Hg as (Hok1 & Hr1 & Hc1 & Hne1 & Heok1 & Hnd1 & Hu1 & _).
    apply (write_or_split_spec s1 (Datatypes.S h) (with_entries n es')); auto.
    + apply Hn.
    + now apply kv_insert_sorted.
Qed.

(** ** The root *)

(** What [Put] at the root page [id] leaves behind: a tree at the same page,
    of height at most [hmax], storing [m]; only pages of the old tree or
    fresh ones have changed. *)
Definition root_result s (fp : list Z) (hmax : nat) (id : Z) (m : kvs) (r : nat)
    (res : outcome unit * S) : Prop :=
  match fst res with
  | Ok _ => ns_ok (snd res) /\ ns_room (snd res) r /\
      (forall j, ns_used s j -> ns_used (snd res) j) /\
      (forall j, ns_used s j -> j ∉ fp -> ns_view (snd res) j = ns_view s j) /\
      exists h' fp', (h' <= hmax)%nat /\ tree (snd res) h' id m fp' /\ NoDup fp' /\
        (forall j, j ∈ fp' -> (j ∈ fp) \/ ~ ns_used s j)
  | Err e => e = nofit /\ ~ small_kv m /\ ns_ok (snd res)
  | Panic _ | Fuel => False
  end.

Lemma alloc_two s r :
  ns_ok s -> ns_room s (Datatypes.S (Datatypes.S r)) ->
  exists a b s1 s2, ns_alloc s = (Ok a, s1) /\ ns_alloc s1 = (Ok b, s2) /\ ns_ok s2 /\
    ns_room s2 r /\ a <> b /\ ~ ns_used s a /\ ~ ns_used s b /\ ns_used s2 a /\ ns_used s2 b /\
    (forall j, ns_used s j -> ns_used s2 j /\ ns_view s2 j = ns_view s j).
Proof.
  intros Hok Hr.
  destruct (alloc_law s _ Hok Hr) as (a & s1 & Ha & Hok1 & Hr1 & Hna & Hua & Hk1).
  destruct (alloc_law s1 _ Hok1 Hr1) as (b & s2 & Hb & Hok2 & Hr2 & Hnb & Hub & Hk2).
  exists a, b, s1, s2. split_and!; auto.
  - intros ->. done.
  - intros Hc. apply Hnb. now apply Hk1.
  - now apply Hk2.
  - intros j Hj. destruct (Hk1 j Hj) as [H1 H2]. destruct (Hk2 j H1) as [H3 H4].
    split; [done|]. now rewrite H4.
Qed.

(** Writing the new root above its two children. *)
Lemma write_root2 s h id a b ka kb m1 m2 f1 f2 r :
  ns_ok s -> ns_room s r -> ns_used s id -> 1 <= a < 2 ^ 64 -> 1 <= b < 2 ^ 64 ->
  tree s h a m1 f1 -> tree s h b m2 f2 -> kv_sorted (m1 ++ m2) ->
  head_key m1 = Some ka -> head_key m2 = Some kb -> ka <> [] -> kb <> [] ->
  NoDup (id :: f1 ++ f2) ->
  let root := mkNode id nodeBranch 0 [mkEntry ka [] a; mkEntry kb [] b] in
  (exists s', ns_write root s = (Ok tt, s') /\ ns_ok s' /\ ns_room s' r /\
     tree s' (Datatypes.S h) id (m1 ++ m2) (id :: f1 ++ f2) /\
     (forall j, ns_used s' j <-> ns_used s j) /\
     (forall j, ns_used s j -> j <> id -> ns_view s' j = ns_view s j)) \/
  (exists s', ns_write root s = (Err nofit, s') /\ ~ small_kv (m1 ++ m2) /\ ns_ok s').
Proof.
  intros Hok Hr Hu Ha Hb Ht1 Ht2 Hs Hk1 Hk2 Hn1 Hn2 Hnd root.
  assert (Hc : contents s (Datatypes.S h) (n_entries root) (m1 ++ m2) (f1 ++ f2)).
  { simpl. apply (br_cons _ (mkEntry ka [] a)); auto.
    rewrite <- (app_nil_r m2), <- (app_nil_r f2).
    apply (br_cons _ (mkEntry kb [] b)); auto. constructor. }
  assert (Heok : Forall (entry_ok (htyp (Datatypes.S h))) (n_entries root)).
  { repeat constructor; simpl; auto; lia. }
  destruct (nodeFits root) eqn:Hfit.
  - left. destruct (write_tree s (Datatypes.S h) root (m1 ++ m2) (f1 ++ f2))
      as (s' & Hw & Hok' & Ht' & Hu' & Hv' & Hr'); auto.
    { eapply (node_ok_part (Datatypes.S h)); eauto. lia. }
    { now apply NoDup_cons in Hnd as [? _]. }
    exists s'. split_and!; auto.
  - right. destruct (write_nofit s root Hok Hu Hfit) as (s' & Hw & Hok'). exists s'.
    split; [done|]. split; [|done]. intros Hsm. pose proof (contents_small _ _ _ _ _ Hc Heok Hsm) as Hf.
    apply esum_bounds in Hf. apply nodeFits_esum_false in Hfit. simpl in Hf, Hfit.
    autorewrite with klen in Hf. unfold smallEntry, PageSize, nodeHeaderSize in *. lia.
Qed.

(** The root page written over two fresh children. *)
Lemma root_over_pair s s2 h id lid rid ka kb m1 m2 f1 f2 r :
  ns_ok s2 -> ns_room s2 r -> ns_used s id -> ~ ns_used s lid -> ~ ns_used s rid -> lid <> rid ->
  (forall j, ns_used s j -> ns_used s2 j /\ ns_view s2 j = ns_view s j) ->
  1 <= lid < 2 ^ 64 -> 1 <= rid < 2 ^ 64 ->
  tree s2 h lid m1 (lid :: f1) -> tree s2 h rid m2 (rid :: f2) -> kv_sorted (m1 ++ m2) ->
  head_key m1 = Some ka -> head_key m2 = Some kb -> ka <> [] -> kb <> [] ->
  NoDup (id :: f1 ++ f2) -> lid ∉ id :: f1 ++ f2 -> rid ∉ id :: f1 ++ f2 ->
  root_result s (id :: f1 ++ f2) (Datatypes.S h) id (m1 ++ m2) r
    (ns_write (mkNode id nodeBranch 0 [mkEntry ka [] lid; mkEntry kb [] rid]) s2).
Proof.
  intros Hok Hr Hu Hnl Hnr Hlr Hk Hl1 Hr1 HtL HtR Hs Hka Hkb Ha Hb Hnd Hfl Hfr.
  apply NoDup_cons in Hnd as [Hnid Hnd].
  assert (Hnd' : NoDup (id :: (lid :: f1) ++ rid :: f2)).
  { apply NoDup_app in Hnd as (? & ? & ?). constructor; [set_solver|].
    apply NoDup_app. split_and!; [constructor; set_solver|set_solver|constructor; set_solver]. }
  destruct (write_root2 s2 h id lid rid ka kb m1 m2 (lid :: f1) (rid :: f2) r) as
    [(s3 & Hw3 & Hok3 & Hr3 & Ht3 & Hu3 & Hv3)|(s3 & Hw3 & Hns & Hok3)]; auto.
  { now apply Hk. }
  2: { rewrite Hw3. done. }
  rewrite Hw3. unfold root_result. cbn [fst snd]. split_and!; auto.
  - intros j Hj. apply Hu3. now apply Hk.
  - intros j Hj Hn. rewrite Hv3; [now apply Hk|now apply Hk|set_solver].
  - exists (Datatypes.S h). eexists. split; [done|]. split; [exact Ht3|]. split; [done|].
    intros j Hj. destruct (decide (j = lid)) as [->|]; [now right|].
    destruct (decide (j = rid)) as [->|]; [now right|left]. set_solver.
Qed.

Lemma splitRoot_spec s h n m fc r :
  ns_ok s -> ns_used s (n_id n) -> ns_room s (Datatypes.S (Datatypes.S r)) ->
  Forall (entry_ok (htyp h)) (n_entries n) -> kv_sorted m ->
  contents s h (n_entries n) m fc -> NoDup (n_id n :: fc) -> nodeFits n = false ->
  (small_kv m -> nodeHeaderSize + esum (n_entries n) <= PageSize + 2 * smallEntry) ->
  root_result s (n_id n :: fc) (Datatypes.S h) (n_id n) m r (splitRoot (htyp h) n s).
Proof.
  intros Hok Hu Hroom Heok Hs Hc Hnd Hfit Hsz.
  pose proof (fun j => contents_used s h (n_entries n) m fc j Hc) as Husd.
  destruct (split_halves _ _ _ _ _ Heok Hs Hc Hfit Hsz) as
    (a & b & m1 & m2 & f1 & f2 & Hsp & -> & -> & Ha & Hc1 & Hc2 & Hs1 & Hs2 & Hea & Heb & Hnil & Hbig).
  unfold splitRoot. rewrite Hsp. erewrite mbind_step by reflexivity. cbv beta iota.
  destruct (alloc_two s r Hok Hroom) as
    (lid & rid & s0 & s1 & Hal & Har & Hok1 & Hr1 & Hlr & Hnl & Hnr & Hul & Hur & Hk1).
  erewrite mbind_step by exact Hal. erewrite mbind_step by exact Har.
  assert (agrees s s1 (f1 ++ f2)) as [Hag1 Hag2]%agrees_app by (intros j Hj; auto).
  pose proof (contents_frame _ _ _ _ _ _ Hc1 Hag1) as Hc1'.
  pose proof (contents_frame _ _ _ _ _ _ Hc2 Hag2) as Hc2'.
  pose proof (used_range _ _ Hul) as Hlr'. pose proof (used_range _ _ Hur) as Hrr'.
  apply NoDup_cons in Hnd as [Hnid Hnd].
  assert (Hfresh : forall j, ~ ns_used s j -> j ∉ n_id n :: f1 ++ f2).
  { intros j Hj Hin. apply Hj. apply elem_of_cons in Hin as [->|Hin]; auto. }
  pose proof (Hfresh lid Hnl) as Hfl. pose proof (Hfresh rid Hnr) as Hfr.
  set (L := mkNode lid (htyp h) (if htyp h =? nodeLeaf then rid else 0) a).
  set (R := mkNode rid (htyp h) 0 b). rewrite mbind_assoc.
  destruct (write_pair s1 h L R m1 f1 m2 f2 r) as
    [(s2 & Hw & Hb & Hok2 & Hr2 & HtL & HtR & Hu2 & Hv2)|(s2 & Hw & Hnf & Hok2)]; simpl; auto.
  { eapply node_ok_part; eauto. case_match; lia. }
  { eapply node_ok_part; eauto. lia. }
  { intros E. apply nodeFits_esum_false. auto. }
  { constructor; [set_solver|]. constructor; [set_solver|done]. }
  2: { erewrite mbind_fail by exact Hw. split; [done|]. split; [|done].
       rewrite !nodeFits_esum_false in Hnf. auto. }
  erewrite mbind_step by exact Hw. simpl in Hb.
  apply root_over_pair; auto.
  - intros j Hj. split; [now apply Hu2, Hk1|].
    rewrite Hv2; [now apply Hk1|now apply Hk1| |]; intros ->; done.
  - now apply (contents_firstKey _ _ _ _ _ Hc1).
  - now apply (contents_firstKey _ _ _ _ _ Hc2).
  - destruct a as [|e a]; [done|]. inv Hea. apply H1.
  - destruct b as [|e b]; [done|]. inv Heb. apply H1.
  - now constructor.
Qed.

(** Writing the root in place, or splitting it. *)
Lemma write_or_split_root s h n m fc r :
  ns_ok s -> ns_used s (n_id n) -> ns_room s (Datatypes.S (Datatypes.S r)) ->
  n_typ n = htyp h -> 0 <= n_next n < 2 ^ 64 ->
  Forall (entry_ok (htyp h)) (n_entries n) -> kv_sorted m ->
  contents s h (n_entries n) m fc -> n_entries n <> [] -> NoDup (n_id n :: fc) ->
  (small_kv m -> nodeHeaderSize + esum (n_entries n) <= PageSize + 2 * smallEntry) ->
  root_result s (n_id n :: fc) (Datatypes.S h) (n_id n) m r
    ((if nodeFits n then ns_write n else splitRoot (htyp h) n) s).
Proof.
  intros Hok Hu Hroom Ht Hnx Heok Hs Hc Hne Hnd Hsz.
  destruct (nodeFits n) eqn:Hfit; [|now apply splitRoot_spec].
  destruct (write_tree s h n m fc) as (s1 & Hw & Hok1 & Ht1 & Hu1 & Hv1 & Hr1); auto.
  { destruct n; simpl in *; subst. eapply node_ok_part; eauto. }
  { now apply NoDup_cons in Hnd as [? _]. }
  rewrite Hw. unfold root_result. cbn [fst snd]. split_and!; auto.
  - eapply room_mono; [apply Hr1, Hroom|lia].
  - intros j Hj. now apply Hu1.
  - intros j Hj Hn. apply Hv1; [done|set_solver].
  - exists h, (n_id n :: fc). split_and!; auto.
Qed.

Lemma root_result_grown s s1 id es fc fc' h m r r' res :
  grown s id fc h m r' s1 es fc' -> ns_used s id -> id ∉ fc ->
  root_result s1 (id :: fc') (Datatypes.S (Datatypes.S h)) id m r res ->
  root_result s (id :: fc) (Datatypes.S (Datatypes.S h)) id m r res.
Proof.
  intros (_ & _ & _ & _ & _ & Hnd & Hu & Hv & Hsub) Hid Hnf. unfold root_result.
  destruct res as [[[]|e|e|] s2]; simpl; auto.
  assert (Hin : forall j, j ∈ id :: fc' -> (j ∈ id :: fc) \/ ~ ns_used s j).
  { intros j Hj. apply elem_of_cons in Hj as [->|Hj]; [left; set_solver|].
    destruct (Hsub j Hj); [left; set_solver|now right]. }
  intros (Hok & Hr & Hu2 & Hv2 & h' & fp' & Hh & Ht & Hn & Hs'). split_and!; auto.
  - intros j Hj Hn'. rewrite Hv2, Hv; auto; [set_solver|]. intros Hc. destruct (Hin j Hc); auto.
  - exists h', fp'. split_and!; auto. intros j Hj. destruct (Hs' j Hj) as [Hj'|Hj']; auto.
Qed.

(** [Put] on a tree of height [h] with room for [h + 2] pages. *)
Lemma put_tree h fuel s id m fp r key value :
  (h < fuel)%nat -> ns_ok s -> tree s h id m fp -> kv_sorted m -> NoDup fp ->
  ns_room s (h + 2 + r) -> key <> [] ->
  root_result s fp (Datatypes.S h) id (kv_insert key value m) r (Put fuel id key value s).
Proof.
  intros Hf Hok Ht Hs Hnd Hroom Hk. unfold Put. destruct key as [|b0 key]; [done|].
  change (length (b0 :: key) =? 0)%nat with false. cbv iota.
  remember (b0 :: key) as k eqn:Ek. clear b0 key Ek.
  apply tree_inv in Ht as (n & fc & Hu & Hv & Hn & Hfit & -> & Ht & Hne & Hc).
  pose proof (view_id _ _ _ Hv) as Hid. subst id.
  erewrite mbind_step by (eapply read_law; eauto). rewrite Ht. destruct h as [|h].
  - change (htyp 0 =? nodeLeaf) with true. cbv iota zeta.
    destruct (leaf_put s n m fc k value Hn Hfit Ht Hc Hk) as (Hc' & Hne' & -> & Heok & Hsz).
    apply (write_or_split_root s 0 (with_entries n _)); auto; [apply Hn|].
    now apply kv_insert_sorted.
  - change (htyp (Datatypes.S h) =? nodeLeaf) with false.
    change (htyp (Datatypes.S h) =? nodeBranch) with true. cbv iota.
    destruct Hne as [|Hne]; [done|].
    assert (Hroom' : ns_room s (Datatypes.S h + (2 + r))) by (eapply room_mono; eauto; lia).
    destruct (branch_put_spec h (put_ok_all h) fuel s n m fc (2 + r) k value
                (fun n => if nodeFits n then ns_write n else splitRootBranch n))
      as [(s' & Hp & Hns & Hok')|(s1 & es' & fc' & Hp & Hg & Hsz)]; auto; [lia| |];
      unfold putRootBranch; unfold branch_put in Hp; cbv zeta in Hp |- *; rewrite Hp; [done|].
    eapply root_result_grown; [exact Hg|done|now apply NoDup_cons in Hnd as [? _]|].
    destruct Hg as (Hok1 & Hr1 & Hc1 & Hne1 & Heok1 & Hnd1 & Hu1 & _).
    apply (write_or_split_root s1 (Datatypes.S h) (with_entries n es')); auto.
    + apply Hn.
    + now apply kv_insert_sorted.
Qed.
End put.

(** ** A fresh file *)

Definition fresh_meta : pagerMeta := mkMeta 1 0 0 0.
Definition fresh_pager : Pager := mkPager [metaBytes fresh_meta] fresh_meta ∅ false.

Lemma openPager_fresh : openPager [] = Ok fresh_pager.
Proof. reflexivity. Qed.

Lemma fresh_inv : pager_inv fresh_pager [].
Proof.
  constructor; try done; try (simpl; unfold maxPages; lia).
  - constructor; [apply zlen_metaBytes|constructor].
  - constructor.
  - constructor.
Qed.

Lemma create_tree {S} {NS : NodeStore S} {NL : NodeStoreLaws S} (s : S) r :
  ns_ok s -> ns_room s (Datatypes.S r) ->
  exists id s', CreateBTree s = (Ok id, s') /\ ns_ok s' /\ ns_room s' r /\ tree s' 0 id [] [id].
Proof.
  intros Hok Hr. destruct (alloc_law s r Hok Hr) as (id & s1 & Ha & Hok1 & Hr1 & _ & Hu1 & _).
  destruct (write_tree s1 0 (mkNode id nodeLeaf 0 []) [] [])
    as (s2 & Hw & Hok2 & Ht & _ & _ & Hr2); auto; try done.
  - split; [now left|]. split; [simpl; lia|]. split; constructor.
  - set_solver.
  - exists id, s2. split_and!; auto. unfold CreateBTree.
    erewrite mbind_step by exact Ha. erewrite mbind_step by exact Hw. done.
Qed.
