(* ===== verification/KvProps.v ===== *)
(** * kvstore: properties of the B+Tree over the pager

    End-to-end statements over a fresh database file, and concrete runs that
    exhibit where deletion, scanning and splitting depart from a map. *)

From S2P Require Import Prelude KvNode KvCodec KvMap KvPager KvBTree KvTree KvTreePut.
Local Open Scope Z_scope.

(** ** Sequences of insertions *)

Fixpoint puts (fuel : nat) (root : Z) (l : kvs) : M Pager unit :=
  match l with
  | [] => mret tt
  | (k, v) :: r => _ <-- Put fuel root k v ;; puts fuel root r
  end.

Definition inserts (l m : kvs) : kvs := foldl (fun m p => kv_insert (fst p) (snd p) m) m l.

Definition small_put (p : bytes * bytes) : Prop :=
  fst p <> [] /\ nodeEntrySize + zlen (fst p) + zlen (snd p) <= smallEntry.

Lemma small_kv_insert k v m :
  small_kv m -> nodeEntrySize + zlen k + zlen v <= smallEntry -> small_kv (kv_insert k v m).
Proof.
  intros Hm Hk. unfold small_kv in *. rewrite Forall_forall in *. intros x Hx.
  apply list_elem_of_In, kv_insert_keys in Hx as [->|Hx]; [done|].
  apply Hm. now apply list_elem_of_In.
Qed.

Lemma puts_tree l : forall h fuel p root m fp,
  (h + length l < fuel)%nat -> pager_ok p -> tree p h root m fp -> kv_sorted m -> NoDup fp ->
  pager_room p ((h + length l + 2) * length l) ->
  Forall small_put l -> small_kv m ->
  exists h' fp' p', (h' < fuel)%nat /\ puts fuel root l p = (Ok tt, p') /\ pager_ok p' /\
    tree p' h' root (inserts l m) fp' /\ kv_sorted (inserts l m).
Proof.
  induction l as [|[k v] l IH]; intros h fuel p root m fp Hf Hok Ht Hs Hnd Hroom Hl Hm.
  - exists h, fp, p. simpl in *. split_and!; auto. lia.
  - inv Hl. destruct H1 as [Hk Hkv]. simpl in Hf, Hroom, Hk, Hkv.
    pose proof (small_kv_insert k v m Hm Hkv) as Hm'.
    assert (Hr : ns_room p (h + 2 + (Datatypes.S h + length l + 2) * length l)).
    { simpl. unfold pager_room in *. lia. }
    pose proof (put_tree h fuel p root m fp _ k v ltac:(lia) Hok Ht Hs Hnd Hr Hk) as Hput.
    unfold root_result in Hput. cbn [puts inserts foldl fst snd].
    destruct (Put fuel root k v p) as [[[]|e|e|] p1] eqn:Ep; cbn [fst snd] in Hput;
      [|tauto|done|done].
    erewrite mbind_step by exact Ep.
    destruct Hput as (Hok1 & Hr1 & _ & _ & h' & fp' & Hh & Ht' & Hnd' & _).
    apply (IH h' fuel p1 root _ fp'); auto; [lia|now apply kv_insert_sorted|].
    eapply room_mono in Hr1; [exact Hr1|]. apply Nat.mul_le_mono_r. lia.
Qed.

Lemma inserts_map l : forall m, kv_map (inserts l m) = list_to_map (reverse l) ∪ kv_map m.
Proof.
  induction l as [|[k v] l IH]; intros m; [simpl; now rewrite (left_id_L ∅ (∪))|].
  unfold inserts in *. cbn [foldl fst snd]. rewrite IH, kv_insert_map, reverse_cons.
  rewrite list_to_map_app. simpl. rewrite insert_empty, <- (assoc_L (∪)).
  now rewrite insert_union_singleton_l.
Qed.

(** Everything the B+Tree does on a fresh file when [l] is inserted. *)
Definition fill (fuel : nat) (l : kvs) : M Pager Z :=
  root <-- CreateBTree ;;
  _ <-- puts fuel root l ;;
  mret root.

(** On a fresh database file, inserting any list of up to 2^20 non-empty
    keys whose entries (16-byte slot, key and value) take at most 180 bytes
    succeeds: no error, no panic, no non-termination; and afterwards [Get] of
    any key returns the value of its last insertion, or reports it absent,
    and leaves the file unchanged. *)
Theorem btree_puts_then_get (l : kvs) (key : bytes)
    (Hl : Forall small_put l) (Hn : zlen l <= 2 ^ 20) (Hk : key <> []) :
  exists root p,
    fill (Datatypes.S (length l)) l fresh_pager = (Ok root, p) /\
    Get (Datatypes.S (length l)) root key p = (Ok (list_to_map (M := gmap bytes bytes) (reverse l) !! key), p).
Proof.
  destruct (create_tree fresh_pager ((0 + length l + 2) * length l)) as
    (root & p0 & Hc & Hok & Hr & Ht).
  { exists []. apply fresh_inv. }
  { unfold zlen in Hn. change (2 ^ 20) with 1048576 in Hn.
    simpl. unfold pager_room, maxPages. simpl. nia. }
  destruct (puts_tree l 0 (Datatypes.S (length l)) p0 root [] [root]) as
    (h' & fp' & p' & Hh & Hp & Hok' & Ht' & Hs'); auto; try done; try constructor; [set_solver|constructor|].
  exists root, p'. split.
  - unfold fill. erewrite mbind_step by exact Hc. erewrite mbind_step by exact Hp. done.
  - erewrite get_tree by eauto. rewrite inserts_map. unfold kv_map. simpl.
    now rewrite (right_id_L ∅ (∪)).
Qed.

Definition k1 (z : Z) : bytes := [z2b z].

Lemma btree_puts_then_get_witness :
  exists root p,
    fill 3 [(k1 1, k1 7); (k1 1, k1 8)] fresh_pager = (Ok root, p) /\
    Get 3 root (k1 1) p = (Ok (Some (k1 8)), p).
Proof.
  apply (btree_puts_then_get [(k1 1, k1 7); (k1 1, k1 8)] (k1 1)); [|vm_compute; discriminate|done].
  repeat constructor; vm_compute; discriminate.
Defined.

(** C5: [Put] refines map insertion on every tree of height [h], whatever the
    entry sizes: it never panics and never loops; when it succeeds the pager
    is still consistent, the page of the root is unchanged, the tree there is
    well formed (ordered, every node in its page) and stores the map with the
    key set to the value, and no page outside the tree has changed; when it
    fails the error is that a node does not fit its page, and the new map has
    an entry larger than [smallEntry]. *)
Theorem btree_put_refines (h fuel : nat) (p : Pager) (root : Z) (m : kvs) (fp : list Z)
    (key value : bytes)
    (Hf : (h < fuel)%nat) (Hok : pager_ok p) (Ht : tree p h root m fp) (Hs : kv_sorted m)
    (Hnd : NoDup fp) (Hroom : pager_room p (h + 2)) (Hk : key <> []) :
  (exists p' h' m' fp',
     Put fuel root key value p = (Ok tt, p') /\ pager_ok p' /\
     tree p' h' root m' fp' /\ kv_sorted m' /\ NoDup fp' /\ (h' <= S h)%nat /\
     kv_map m' = <[key := value]> (kv_map m) /\
     (forall j, pager_used p j -> j ∉ fp -> pager_view p' j = pager_view p j)) \/
  (exists p', Put fuel root key value p = (Err "node does not fit in one page", p') /\
     ~ small_kv (kv_insert key value m)).
Proof.
  assert (Hr : ns_room p (h + 2 + 0)) by (simpl; now rewrite Nat.add_0_r).
  pose proof (put_tree h fuel p root m fp 0 key value Hf Hok Ht Hs Hnd Hr Hk) as Hput.
  unfold root_result in Hput.
  destruct (Put fuel root key value p) as [[[]|e|e|] p1]; cbn [fst snd] in Hput; [| |done|done].
  - left. destruct Hput as (Hok1 & _ & _ & Hv & h' & fp' & Hh & Ht' & Hnd' & _).
    exists p1, h', (kv_insert key value m), fp'.
    split_and!; auto; [now apply kv_insert_sorted|apply kv_insert_map].
  - right. destruct Hput as (-> & Hns & _). now exists p1.
Qed.

Lemma fresh_tree : exists root p,
  CreateBTree fresh_pager = (Ok root, p) /\ pager_ok p /\ pager_room p 2 /\
  tree p 0 root [] [root].
Proof.
  destruct (create_tree fresh_pager 2) as (root & p & H).
  - exists []. apply fresh_inv.
  - simpl. unfold pager_room, maxPages. simpl. lia.
  - exists root, p. exact H.
Qed.

Lemma btree_put_refines_witness :
  exists root p, CreateBTree fresh_pager = (Ok root, p) /\
    ((exists p' h' m' fp',
       Put 1 root (k1 1) (k1 2) p = (Ok tt, p') /\ pager_ok p' /\
       tree p' h' root m' fp' /\ kv_sorted m' /\ NoDup fp' /\ (h' <= 1)%nat /\
       kv_map m' = <[k1 1 := k1 2]> (kv_map []) /\
       (forall j, pager_used p j -> j ∉ [root] -> pager_view p' j = pager_view p j)) \/
     (exists p', Put 1 root (k1 1) (k1 2) p = (Err "node does not fit in one page", p') /\
        ~ small_kv (kv_insert (k1 1) (k1 2) []))).
Proof.
  destruct fresh_tree as (root & p & Hc & Hok & Hr & Ht). exists root, p. split; [done|].
  apply (btree_put_refines 0 1 p root [] [root] (k1 1) (k1 2)); auto; try done; try lia.
  - constructor.
  - apply NoDup_singleton.
Defined.

(** [Get] refines map lookup: on a tree of height [h] with more than [h]
    steps of recursion it returns exactly the value the tree's map holds for
    the key (nothing when absent), and changes no page. *)
Theorem btree_get_refines (h fuel : nat) (p : Pager) (root : Z) (m : kvs) (fp : list Z)
    (key : bytes)
    (Hf : (h < fuel)%nat) (Hok : pager_ok p) (Ht : tree p h root m fp) (Hs : kv_sorted m)
    (Hk : key <> []) :
  Get fuel root key p = (Ok (kv_map m !! key), p).
Proof. eapply get_tree; eauto. Qed.

Lemma btree_get_refines_witness :
  exists root p, CreateBTree fresh_pager = (Ok root, p) /\
    Get 1 root (k1 1) p = (Ok (kv_map [] !! k1 1), p).
Proof.
  destruct fresh_tree as (root & p & Hc & Hok & Hr & Ht). exists root, p. split; [done|].
  apply (btree_get_refines 0 1 p root [] [root] (k1 1)); auto; try done; try lia.
  constructor.
Defined.

(** ** Deletion, scanning and splitting: where the code departs from a map *)

Definition run {A} (m : M Pager A) : outcome A := fst (m fresh_pager).

Fixpoint deletes (fuel : nat) (root : Z) (l : list bytes) : M Pager unit :=
  match l with
  | [] => mret tt
  | k :: r => _ <-- Delete fuel root k ;; deletes fuel root r
  end.

Definition scan_all (fuel : nat) (root : Z) : M Pager (list bytes) :=
  it <-- Scan fuel root [] None ;;
  l <-- drain 40 fuel it ;;
  mret (map fst l).

(** Four entries of 1300 bytes: a root with two leaves. *)
Definition wide : kvs := map (fun z => (k1 z, replicate 1300 Byte.x61)) [1; 2; 3; 4].

(** Ten keys of 1201 bytes: a tree of three levels. *)
Definition longkey (z : Z) : bytes := z2b z :: replicate 1200 Byte.x6b.
Definition tall : kvs := map (fun z => (longkey z, [])) [1; 2; 3; 4; 5; 6; 7; 8; 9; 10].

(** A scan can return a key that was deleted: with two leaves under the
    root, deleting both keys of the second leaf leaves [Get] of the last key
    empty, but the first leaf still links to the unlinked leaf page and the
    scan yields the deleted key from it. *)
Theorem scan_yields_deleted_key :
  run (root <-- fill 9 wide ;;
       _ <-- deletes 9 root [k1 3; k1 4] ;;
       g <-- Get 9 root (k1 4) ;;
       l <-- scan_all 9 root ;;
       mret (g, l)) = Ok (None, [k1 1; k1 2; k1 4]).
Proof. vm_compute. reflexivity. Qed.

(** A scan can fail after a deletion that succeeded: in a tree of three
    levels, emptying a leaf frees its page while the previous leaf still links
    to it, and the next full scan stops with a decoding error. *)
Theorem scan_fails_on_freed_leaf :
  run (root <-- fill 9 tall ;;
       _ <-- deletes 9 root [longkey 3; longkey 4] ;;
       l <-- scan_all 9 root ;;
       mret l) = Err "page has invalid node type".
Proof. vm_compute. reflexivity. Qed.

(** Deleting every key can leave a root that is a branch without
    entries; from then on [Get] reports an error and [Put] panics with an
    index out of range. *)
Theorem empty_root_breaks_put :
  let empty := root <-- fill 9 tall ;;
               _ <-- deletes 9 root (map longkey [2; 3; 4; 5; 6; 7; 8; 9; 10; 1]) ;;
               mret root in
  run (root <-- empty ;; Get 9 root (longkey 1)) = Err "branch node has no entries" /\
  run (root <-- empty ;; Put 9 root (longkey 1) []) = Panic "index out of range".
Proof. vm_compute. split; reflexivity. Qed.

(** A leaf is split by entry count, not by size: with three 1300-byte
    entries and seven tiny ones in a leaf, inserting a 140-byte value is
    refused although every entry is far below the page size. *)
Theorem count_split_refuses_small_value :
  run (root <-- fill 9 (map (fun z => (k1 z, replicate 1300 Byte.x61)) [1; 3; 4] ++
                        map (fun z => (k1 z, [])) [5; 6; 7; 8; 9; 10; 11]) ;;
       Put 9 root (k1 2) (replicate 140 Byte.x61)) = Err "node does not fit in one page".
Proof. vm_compute. reflexivity. Qed.
