(* ===== verification/KvDB.v ===== *)
(** * kvstore: rollback journal, transactions and crash recovery

    Models src/internal/kvstore/wal.go and src/internal/kvstore/db.go over a
    file system that is a finite map from path to contents. Each routine of
    wal.go is the sequence of file operations it performs, so that a process
    can stop between any two of them, or in the middle of an append. The
    operating system's calls are assumed not to fail on their own, and a
    stopped process loses none of the operations it has completed.

    The database file is mapped shared, so while the database is open its
    contents are those of the pager ([disk]); a process that stops during a
    transaction body can leave any bytes in that file. *)

From S2P Require Import Prelude KvNode KvCodec KvMap KvPager KvBTree KvTree KvTreePut.
Local Open Scope Z_scope.

(** ** Files *)

Abbreviation files := (gmap string bytes).

Inductive fsop : Type :=
| OCreate (f : string)                  (* O_CREATE|O_TRUNC *)
| OAppend (f : string) (bs : bytes)
| ORename (a b : string)
| ORemove (f : string).

Definition exec (op : fsop) (d : files) : files :=
  match op with
  | OCreate f => <[f := []]> d
  | OAppend f bs => match d !! f with Some c => <[f := c ++ bs]> d | None => d end
  | ORename a b => match d !! a with Some c => <[b := c]> (delete a d) | None => d end
  | ORemove f => delete f d
  end.

Definition execs (ops : list fsop) (d : files) : files := foldl (fun d op => exec op d) d ops.

(** The states a process that stops somewhere in [ops] can leave. *)
Inductive crash : list fsop -> files -> files -> Prop :=
| crash_here ops d : crash ops d d
| crash_mid f bs k ops d : crash (OAppend f bs :: ops) d (exec (OAppend f (take k bs)) d)
| crash_next op ops d d' : crash ops (exec op d) d' -> crash (op :: ops) d d'.

(** ** wal.go *)

(** "KRWAL001" *)
Definition rollbackWALMagic : bytes :=
  [Byte.x4b; Byte.x52; Byte.x57; Byte.x41; Byte.x4c; Byte.x30; Byte.x30; Byte.x31].

Definition rollbackWALPath (dbPath : string) : string := dbPath +:+ ".wal".
Definition walTmpPath (dbPath : string) : string := rollbackWALPath dbPath +:+ ".tmp".
Definition recoveringPath (dbPath : string) : string := dbPath +:+ ".recovering".

(** [writeRollbackWAL]: journal the whole file under a temporary name, then
    rename it into place. *)
Definition writeRollbackWAL (dbPath : string) (d : files) : outcome (list fsop) :=
  if (String.length dbPath =? 0)%nat then Err "database path is required"
  else match d !! dbPath with
       | None => Err "file does not exist"
       | Some content =>
           let tmp := walTmpPath dbPath in
           Ok [OCreate tmp; OAppend tmp rollbackWALMagic; OAppend tmp content;
               ORename tmp (rollbackWALPath dbPath)]
       end.

(** [recoverRollbackWAL]: nothing to do without a journal. *)
Definition recoverRollbackWAL (dbPath : string) (d : files) : outcome (list fsop) :=
  match d !! rollbackWALPath dbPath with
  | None => Ok []
  | Some wal =>
      if (length wal <? length rollbackWALMagic)%nat then Err "read rollback wal magic"
      else if negb (beqb (take (length rollbackWALMagic) wal) rollbackWALMagic)
      then Err "invalid rollback wal magic"
      else
        let tmp := recoveringPath dbPath in
        Ok [OCreate tmp; OAppend tmp (drop (length rollbackWALMagic) wal);
            ORename tmp dbPath; ORemove (rollbackWALPath dbPath)]
  end.

Definition removeRollbackWAL (dbPath : string) : list fsop := [ORemove (rollbackWALPath dbPath)].

(** Run the operations a routine computed. *)
Definition run_ops (r : outcome (list fsop)) (d : files) : outcome files :=
  match r with
  | Ok ops => Ok (execs ops d)
  | Err e => Err e
  | Panic e => Panic e
  | Fuel => Fuel
  end.

(** ** OpenPager on a file *)

Fixpoint split_pages (n : nat) (bs : bytes) : list bytes :=
  match n with
  | O => []
  | S n' => take (Z.to_nat PageSize) bs :: split_pages n' (drop (Z.to_nat PageSize) bs)
  end.

Definition pages (bs : bytes) : list bytes := split_pages (Z.to_nat (zlen bs / PageSize)) bs.

Definition OpenPager (dbPath : string) (d : files) : outcome Pager :=
  if (String.length dbPath =? 0)%nat then Err "pager path is required"
  else
    let content := default [] (d !! dbPath) in
    if negb (zlen content mod PageSize =? 0) then Err "invalid pager file size"
    else openPager (pages content).

(** ** db.go *)

Record DB := mkDB
  { db_path : string; db_fs : files; db_pager : Pager; db_root : Z; db_closed : bool }.

Record Tx := mkTx { tx_root : Z; tx_writable : bool }.

Definition file_of (p : Pager) : bytes := concat (p_data p).

(** The files as the operating system has them: the mapping is the file. *)
Definition disk (db : DB) : files := <[db_path db := file_of (db_pager db)]> (db_fs db).

Definition ensureOpenDB (db : DB) : outcome unit :=
  if db_closed db then Err "database is closed" else Ok tt.

Definition Open (dbPath : string) (d : files) : outcome DB :=
  d1 <~ run_ops (recoverRollbackWAL dbPath d) d ;;
  p <~ OpenPager dbPath d1 ;;
  let root := RootPage (p_meta p) in
  if root =? 0 then
    match (root <-- CreateBTree ;; _ <-- SetRootPage root ;; _ <-- Flush ;; mret root) p with
    | (Ok root, p') => Ok (mkDB dbPath d1 p' root false)
    | (Err e, _) => Err e
    | (Panic e, _) => Panic e
    | (Fuel, _) => Fuel
    end
  else Ok (mkDB dbPath d1 p root false).

(** [DB.Close] *)
Definition CloseDB : M DB unit := fun db =>
  if db_closed db then (Ok tt, db)
  else let (o, p) := Close (db_pager db) in
       (o, mkDB (db_path db) (<[db_path db := file_of p]> (db_fs db)) p (db_root db) true).

(** Transaction operations. *)
Definition TxGet (fuel : nat) (tx : Tx) (key : bytes) : M Pager (option bytes) :=
  Get fuel (tx_root tx) key.

Definition TxPut (fuel : nat) (tx : Tx) (key value : bytes) : M Pager unit :=
  if negb (tx_writable tx) then merr "transaction is read-only"
  else Put fuel (tx_root tx) key value.

Definition TxDelete (fuel : nat) (tx : Tx) (key : bytes) : M Pager unit :=
  if negb (tx_writable tx) then merr "transaction is read-only"
  else Delete fuel (tx_root tx) key.

Definition TxScan (fuel : nat) (tx : Tx) (start : bytes) (end_ : option bytes)
    : M Pager Iterator := Scan fuel (tx_root tx) start end_.

Definition View {A} (fn : Tx -> M Pager A) : M DB A := fun db =>
  match ensureOpenDB db with
  | Ok _ =>
      let (o, p) := fn (mkTx (db_root db) false) (db_pager db) in
      (o, mkDB (db_path db) (db_fs db) p (db_root db) (db_closed db))
  | Err e => (Err e, db)
  | Panic e => (Panic e, db)
  | Fuel => (Fuel, db)
  end.

Definition with_pager (db : DB) (d : files) (p : Pager) : DB :=
  mkDB (db_path db) d p (db_root db) (db_closed db).

(** [rollbackLocked], on the files [d] of the database [db]. *)
Definition rollbackLocked (db : DB) (d : files) : outcome unit * DB :=
  match Close (db_pager db) with
  | (Err e, p) => (Err e, with_pager db d p)
  | (Panic e, p) => (Panic e, with_pager db d p)
  | (Fuel, p) => (Fuel, with_pager db d p)
  | (Ok _, p) =>
      let d := <[db_path db := file_of p]> d in
      match (d1 <~ run_ops (recoverRollbackWAL (db_path db) d) d ;;
             p1 <~ OpenPager (db_path db) d1 ;;
             if RootPage (p_meta p1) =? 0
             then Err "database root is missing after rollback"
             else Ok (mkDB (db_path db) d1 p1 (RootPage (p_meta p1)) false)) with
      | Ok db' => (Ok tt, db')
      | Err e => (Err e, with_pager db d p)
      | Panic e => (Panic e, with_pager db d p)
      | Fuel => (Fuel, with_pager db d p)
      end
  end.

(** [Update]: journal, run the body, then either flush and drop the journal
    or roll back. A panic of the body leaves journal and pager as they are. *)
Definition Update (fn : Tx -> M Pager unit) : M DB unit := fun db =>
  match ensureOpenDB db with
  | Ok _ =>
      match run_ops (writeRollbackWAL (db_path db) (disk db)) (disk db) with
      | Ok d =>
          match fn (mkTx (db_root db) true) (db_pager db) with
          | (Ok _, p) =>
              match Flush p with
              | (Ok _, p') =>
                  (Ok tt, with_pager db
                     (execs (removeRollbackWAL (db_path db)) (<[db_path db := file_of p']> d)) p')
              | (Err e, p') => (Err e, with_pager db d p')
              | (Panic e, p') => (Panic e, with_pager db d p')
              | (Fuel, p') => (Fuel, with_pager db d p')
              end
          | (Err e, p) =>
              match rollbackLocked (with_pager db d p) d with
              | (Ok _, db') => (Err e, db')
              | (Err r, db') =>
                  (Err ("rollback transaction after error " +:+ e +:+ ": " +:+ r), db')
              | (o, db') => (o, db')
              end
          | (Panic e, p) => (Panic e, with_pager db d p)
          | (Fuel, p) => (Fuel, with_pager db d p)
          end
      | Err e => (Err e, db)
      | Panic e => (Panic e, db)
      | Fuel => (Fuel, db)
      end
  | Err e => (Err e, db)
  | Panic e => (Panic e, db)
  | Fuel => (Fuel, db)
  end.

Definition GetDB (fuel : nat) (key : bytes) : M DB (option bytes) :=
  View (fun tx => TxGet fuel tx key).
Definition PutDB (fuel : nat) (key value : bytes) : M DB unit :=
  Update (fun tx => TxPut fuel tx key value).
Definition DeleteDB (fuel : nat) (key : bytes) : M DB unit :=
  Update (fun tx => TxDelete fuel tx key).

(** ** Path names *)

Lemma append_nil_inv s t : s = s +:+ t -> t = EmptyString.
Proof.
  induction s as [|a s IH]; simpl; [auto|]. intros H. injection H as H. auto.
Qed.

Lemma append_assoc s t u : (s +:+ t) +:+ u = s +:+ (t +:+ u).
Proof.
  induction s as [|a s IH]; [done|].
  change (String a ((s +:+ t) +:+ u) = String a (s +:+ (t +:+ u))). now rewrite IH.
Qed.

Section paths.
  Context (path : string).

Lemma wal_ne : rollbackWALPath path <> path.
Proof. intros H. symmetry in H. now apply append_nil_inv in H. Qed.
Lemma tmp_ne : walTmpPath path <> path.
Proof.
  unfold walTmpPath, rollbackWALPath. rewrite append_assoc. intros H. symmetry in H.
  now apply append_nil_inv in H.
Qed.
Lemma rec_ne : recoveringPath path <> path.
Proof. intros H. symmetry in H. now apply append_nil_inv in H. Qed.
Lemma tmp_wal_ne : walTmpPath path <> rollbackWALPath path.
Proof. intros H. symmetry in H. now apply append_nil_inv in H. Qed.
Lemma rec_wal_ne : recoveringPath path <> rollbackWALPath path.
Proof. unfold recoveringPath, rollbackWALPath. intros H. now apply (inj _) in H. Qed.
End paths.

Create HintDb paths discriminated.
#[local] Hint Resolve wal_ne tmp_ne rec_ne tmp_wal_ne rec_wal_ne not_eq_sym : paths.

(** Look a path up through the operations of the routines above. *)
Ltac fs_simp :=
  repeat (progress
    (simpl exec in *; simpl execs in *;
     repeat first
       [ rewrite lookup_insert_eq in *
       | rewrite lookup_delete_eq in *
       | rewrite lookup_insert_ne in * by auto with paths
       | rewrite lookup_delete_ne in * by auto with paths ])).

(** ** What the journal promises *)

Definition settled (path : string) (c : bytes) (d : files) : Prop :=
  d !! rollbackWALPath path = None /\ d !! path = Some c.

Definition journalled (path : string) (c : bytes) (d : files) : Prop :=
  d !! rollbackWALPath path = Some (rollbackWALMagic ++ c).

(** The next recovery brings the database file to [c]. *)
Definition recovers_to (path : string) (c : bytes) (d : files) : Prop :=
  settled path c d \/ journalled path c d.

Lemma crash_nil d d' : crash [] d d' -> d' = d.
Proof. inversion 1; auto. Qed.

Lemma crash_cons op ops d d' :
  crash (op :: ops) d d' ->
  d' = d \/ (exists f bs k, op = OAppend f bs /\ d' = exec (OAppend f (take k bs)) d) \/
  crash ops (exec op d) d'.
Proof. inversion 1; subst; eauto 10. Qed.

Lemma beqb_refl a : beqb a a = true.
Proof. now apply beqb_eq. Qed.

Lemma recover_journalled path c d :
  journalled path c d ->
  recoverRollbackWAL path d =
    Ok [OCreate (recoveringPath path); OAppend (recoveringPath path) c;
        ORename (recoveringPath path) path; ORemove (rollbackWALPath path)].
Proof.
  intros H. unfold recoverRollbackWAL. rewrite H.
  destruct (Nat.ltb_spec (length (rollbackWALMagic ++ c)) (length rollbackWALMagic)) as [Hl|_].
  { rewrite length_app in Hl. lia. }
  now rewrite take_app_length, beqb_refl, drop_app_length.
Qed.

Lemma recover_settled path c d : settled path c d -> recoverRollbackWAL path d = Ok [].
Proof. intros [H _]. unfold recoverRollbackWAL. now rewrite H. Qed.

(** Recovery succeeds and settles the file. *)
Lemma recovers_to_recover path c d :
  recovers_to path c d ->
  exists d', run_ops (recoverRollbackWAL path d) d = Ok d' /\ settled path c d'.
Proof.
  intros [H|H].
  - rewrite (recover_settled _ _ _ H). eauto.
  - rewrite (recover_journalled _ _ _ H). eexists. split; [reflexivity|].
    unfold settled, journalled in *. fs_simp. done.
Qed.

(** Stopping inside recovery loses nothing. *)
Lemma crash_recover path c d ops d' :
  recovers_to path c d -> recoverRollbackWAL path d = Ok ops -> crash ops d d' ->
  recovers_to path c d'.
Proof.
  intros [H|H] Hr Hc.
  - rewrite (recover_settled _ _ _ H) in Hr. injection Hr as <-. apply crash_nil in Hc as ->. now left.
  - rewrite (recover_journalled _ _ _ H) in Hr. injection Hr as <-.
    unfold recovers_to, settled, journalled in *.
    repeat (apply crash_cons in Hc as [->|[(f & bs & k & [=] & ->)|Hc]]; subst; fs_simp; auto).
    apply crash_nil in Hc as ->. fs_simp. auto.
Qed.

Lemma writeWAL_ops path c d :
  path <> EmptyString -> d !! path = Some c ->
  writeRollbackWAL path d =
    Ok [OCreate (walTmpPath path); OAppend (walTmpPath path) rollbackWALMagic;
        OAppend (walTmpPath path) c; ORename (walTmpPath path) (rollbackWALPath path)].
Proof.
  intros Hp Hd. unfold writeRollbackWAL. rewrite Hd.
  destruct path; [done|]. reflexivity.
Qed.

(** Stopping while the journal is written leaves the old file in charge. *)
Lemma crash_writeWAL path c d ops d' :
  path <> EmptyString -> settled path c d -> writeRollbackWAL path d = Ok ops ->
  crash ops d d' -> recovers_to path c d'.
Proof.
  intros Hp [Hw Hd] Hr Hc. rewrite (writeWAL_ops _ _ _ Hp Hd) in Hr. injection Hr as <-.
  unfold recovers_to, settled, journalled.
  repeat (apply crash_cons in Hc as [->|[(f & bs & k & [=] & ->)|Hc]]; subst; fs_simp; auto).
  apply crash_nil in Hc as ->. fs_simp. auto.
Qed.

Lemma writeWAL_journalled path c d :
  path <> EmptyString -> d !! path = Some c ->
  exists d', run_ops (writeRollbackWAL path d) d = Ok d' /\ journalled path c d' /\
    d' !! path = Some c.
Proof.
  intros Hp Hd. rewrite (writeWAL_ops _ _ _ Hp Hd). eexists. split; [reflexivity|].
  unfold journalled. fs_simp. auto.
Qed.

(** ** Where a transaction can stop *)

(** The files a process that stops during [Update] leaves behind, from [d],
    when the committed file is [new]: inside the journal's writing, anywhere
    in the body or the flush (the database file then holds any bytes [x]), or
    after the journal's removal. *)
Inductive update_crash (path : string) (new : bytes) (d : files) : bool -> files -> Prop :=
| uc_journal ops d' :
    writeRollbackWAL path d = Ok ops -> crash ops d d' -> update_crash path new d false d'
| uc_body d1 x :
    run_ops (writeRollbackWAL path d) d = Ok d1 ->
    update_crash path new d false (<[path := x]> d1)
| uc_commit d1 :
    run_ops (writeRollbackWAL path d) d = Ok d1 ->
    update_crash path new d true (execs (removeRollbackWAL path) (<[path := new]> d1)).

(** Further attempts to recover, each of them stopped somewhere. *)
Inductive recover_attempts (path : string) : files -> files -> Prop :=
| ra_done d : recover_attempts path d d
| ra_step d ops d1 d2 :
    recoverRollbackWAL path d = Ok ops -> crash ops d d1 ->
    recover_attempts path d1 d2 -> recover_attempts path d d2.

Lemma update_crash_recovers path old new d b d' :
  path <> EmptyString -> settled path old d -> update_crash path new d b d' ->
  recovers_to path (if b then new else old) d'.
Proof.
  intros Hp Hs Hc. destruct Hc as [ops d' Hw Hc|d1 x Hw|d1 Hw].
  - eapply crash_writeWAL; eauto.
  - right. destruct Hs as [_ Hd]. destruct (writeWAL_journalled _ _ _ Hp Hd) as (d2 & Hw' & Hj & _).
    rewrite Hw in Hw'. injection Hw' as <-. unfold journalled in *. now fs_simp.
  - left. unfold settled. fs_simp. auto.
Qed.

Lemma recover_attempts_keep path c d d' :
  recovers_to path c d -> recover_attempts path d d' -> recovers_to path c d'.
Proof. intros H Ha. induction Ha; eauto using crash_recover. Qed.

(** C2: Transactions are atomic under process crashes: if the process stops
    anywhere in [Update] (inside the journal write, anywhere in the body with
    arbitrary bytes left in the database file, or after the commit), and then
    any number of recoveries are themselves stopped halfway, the next complete
    recovery succeeds, removes the journal and leaves exactly the old contents
    before the commit and exactly the new contents after it. *)
Theorem update_crash_atomic (path : string) (old new : bytes) (d : files) (b : bool)
    (d1 d2 : files)
    (Hp : path <> EmptyString) (Hs : settled path old d)
    (Hc : update_crash path new d b d1) (Ha : recover_attempts path d1 d2) :
  exists d3, run_ops (recoverRollbackWAL path d2) d2 = Ok d3 /\
    d3 !! path = Some (if b then new else old) /\ d3 !! rollbackWALPath path = None.
Proof.
  destruct (recovers_to_recover path (if b then new else old) d2) as (d3 & Hr & Hw & Hd).
  - eapply recover_attempts_keep; [|exact Ha]. eapply update_crash_recovers; eauto.
  - eauto.
Qed.

Lemma update_crash_atomic_witness :
  let d : files := {[ "k" := [Byte.x01] ]} in
  let d1 : files := <["k" := [Byte.x07; Byte.x07]]>
                      (execs [OCreate (walTmpPath "k"); OAppend (walTmpPath "k") rollbackWALMagic;
                        OAppend (walTmpPath "k") [Byte.x01];
                        ORename (walTmpPath "k") (rollbackWALPath "k")] d) in
  exists d3, run_ops (recoverRollbackWAL "k" d1) d1 = Ok d3 /\
    d3 !! "k" = Some [Byte.x01] /\ d3 !! rollbackWALPath "k" = None.
Proof.
  intros d d1.
  apply (update_crash_atomic "k" [Byte.x01] [Byte.x02] d false d1 d1).
  - discriminate.
  - split; reflexivity.
  - apply uc_body. reflexivity.
  - apply ra_done.
Defined.

(** ** Reopening what a consistent pager left on disk *)

Lemma split_pages_concat (l : list bytes) :
  Forall (fun pg => zlen pg = PageSize) l -> split_pages (length l) (concat l) = l.
Proof.
  induction 1 as [|pg l Hpg Hl IH]; [done|]. simpl concat. simpl length. cbn [split_pages].
  assert (Hn : length pg = Z.to_nat PageSize) by (unfold zlen in Hpg; lia).
  rewrite <- Hn, take_app_length, drop_app_length. now rewrite IH.
Qed.

Lemma zlen_concat_pages (l : list bytes) :
  Forall (fun pg => zlen pg = PageSize) l -> zlen (concat l) = zlen l * PageSize.
Proof.
  induction 1 as [|pg l Hpg Hl IH]; [done|]. simpl concat.
  rewrite zlen_app, zlen_cons, Hpg, IH. lia.
Qed.

Lemma pages_concat (l : list bytes) : Forall (fun pg => zlen pg = PageSize) l -> pages (concat l) = l.
Proof.
  intros Hl. unfold pages. rewrite (zlen_concat_pages l Hl).
  rewrite Z.div_mul by done. unfold zlen. rewrite Nat2Z.id. now apply split_pages_concat.
Qed.

Lemma OpenPager_reload path d p l :
  path <> EmptyString -> pager_inv p l -> d !! path = Some (file_of p) ->
  OpenPager path d = Ok p.
Proof.
  intros Hp Hinv Hd. unfold OpenPager. rewrite Hd. destruct path; [done|].
  simpl default. change (String.length (String a path) =? 0)%nat with false. cbv iota zeta.
  unfold file_of. rewrite (zlen_concat_pages _ (pi_pages _ _ Hinv)), Z.mod_mul by done.
  rewrite (pages_concat _ (pi_pages _ _ Hinv)). now apply openPager_reload with l.
Qed.

(** ** Database invariant *)

Record db_wf (db : DB) (h : nat) (m : kvs) : Prop := {
  wf_path : db_path db <> EmptyString;
  wf_open : db_closed db = false;
  wf_pager : pager_ok (db_pager db);
  wf_root : RootPage (p_meta (db_pager db)) = db_root db;
  wf_root_ne : db_root db <> 0;
  wf_wal : db_fs db !! rollbackWALPath (db_path db) = None;
  wf_tree : exists fp, tree (db_pager db) h (db_root db) m fp /\ NoDup fp;
  wf_sorted : kv_sorted m
}.

Lemma disk_settled db h m :
  db_wf db h m -> settled (db_path db) (file_of (db_pager db)) (disk db).
Proof.
  intros [Hp Ho Hpg Hr Hne Hw Ht Hs]. unfold settled, disk.
  rewrite lookup_insert_eq, lookup_insert_ne by auto with paths. auto.
Qed.

(** Closing and reopening, or opening after a crash that recovered to the
    same contents, gives the same database. *)
Lemma Open_settled path d p l :
  path <> EmptyString -> pager_inv p l -> RootPage (p_meta p) <> 0 ->
  recovers_to path (file_of p) d ->
  exists d', Open path d = Ok (mkDB path d' p (RootPage (p_meta p)) false) /\
    settled path (file_of p) d'.
Proof.
  intros Hp Hinv Hne Hr. destruct (recovers_to_recover _ _ _ Hr) as (d' & Hrun & Hs).
  exists d'. split; [|done]. unfold Open. rewrite Hrun. simpl obind.
  rewrite (OpenPager_reload path d' p l Hp Hinv (proj2 Hs)). simpl obind.
  destruct (Z.eqb_spec (RootPage (p_meta p)) 0); [done|]. reflexivity.
Qed.

(** ** Operations keep the root pointer and the mapping *)

Section keeps.
  Context {S : Type} {NS : NodeStore S} (R : S -> S -> Prop) `{!PreOrder R}.

Definition keeps {A} (m : M S A) : Prop := forall s, R s (snd (m s)).

Lemma keeps_pure {A} (o : outcome A) : keeps (fun s => (o, s)).
Proof using PreOrder0. intros s. simpl. reflexivity. Qed.

Lemma keeps_bind {A B} (m : M S A) (k : A -> M S B) :
  keeps m -> (forall a, keeps (k a)) -> keeps (mbind m k).
Proof using PreOrder0.
  intros Hm Hk s. unfold mbind. specialize (Hm s).
  destruct (m s) as [[a|e|e|] s1]; simpl in *; auto. etransitivity; [exact Hm|]. apply Hk.
Qed.

  Context (Kread : forall id, keeps (ns_read id)) (Kwrite : forall n, keeps (ns_write n))
          (Kalloc : keeps ns_alloc) (Kfree : forall id, keeps (ns_free id)).

Ltac keep_step :=
  first [ apply keeps_bind; [|intros ?] | apply Kread | apply Kwrite | apply Kalloc | apply Kfree
        | apply keeps_pure | assumption ].
Ltac keep := repeat (cbv zeta; first [keep_step | case_match]).

Lemma keeps_child_at es i : keeps (child_at es i).
Proof using PreOrder0. unfold child_at. keep. Qed.

Lemma keeps_splitNonRoot n : keeps (splitNonRoot n).
Proof using All. unfold splitNonRoot. keep. Qed.

Lemma keeps_splitRoot t n : keeps (splitRoot t n).
Proof using All. unfold splitRoot. keep. Qed.

Lemma keeps_putNonRoot fuel : forall n k v, keeps (putNonRoot fuel n k v).
Proof using All.
  induction fuel as [|f IH]; intros n k v; cbn [putNonRoot]; keep;
    auto using keeps_splitNonRoot, keeps_child_at.
Qed.

Lemma keeps_Put fuel root k v : keeps (Put fuel root k v).
Proof using All.
  unfold Put, putRootBranch, splitRootLeaf, splitRootBranch. keep;
    auto using keeps_splitRoot, keeps_putNonRoot, keeps_child_at.
Qed.
End keeps.

(** What every tree operation preserves of the pager. *)
Definition same_root (p p' : Pager) : Prop :=
  RootPage (p_meta p') = RootPage (p_meta p) /\ p_closed p' = p_closed p.

#[export] Instance same_root_preorder : PreOrder same_root.
Proof.
  split.
  - intros p. split; auto.
  - intros p q r (H1 & H2) (H4 & H5). split; congruence.
Qed.

Lemma writeMeta_keeps : keeps same_root writeMeta.
Proof. intros p. unfold writeMeta. destruct (p_data p); split; reflexivity. Qed.

(** Operations that only look at the pager. *)
Ltac keep_read :=
  intros p; unfold ensureOpen, pageLocked, mlift; repeat case_match; reflexivity.

Lemma Page_keeps id : keeps same_root (Page id).
Proof. apply (keeps_bind same_root); [keep_read|intros _; keep_read]. Qed.

Lemma readNode_keeps id : keeps same_root (readNode id).
Proof. apply (keeps_bind same_root); [apply Page_keeps|intros pg; keep_read]. Qed.

Lemma writeNode_keeps n : keeps same_root (writeNode n).
Proof.
  apply (keeps_bind same_root); [apply Page_keeps|]. intros pg p.
  destruct (encodeNode n pg) as [o pg']. split; reflexivity.
Qed.


(** Allocation and freeing copy the root pointer. *)
Ltac keep_meta :=
  intros p; cbv [mbind mret ensureOpen pageLocked writeMeta resize set_meta set_data set_page
    set_freeSet p_data p_meta p_freeSet p_closed];
  repeat case_match; simplify_eq; split; reflexivity.

Lemma AllocPage_keeps : keeps same_root AllocPage.
Proof. unfold AllocPage. keep_meta. Qed.

Lemma FreePage_keeps id : keeps same_root (FreePage id).
Proof. unfold FreePage. keep_meta. Qed.

Lemma Put_keeps fuel root k v : keeps same_root (Put (S := Pager) fuel root k v).
Proof.
  apply (keeps_Put same_root).
  - apply readNode_keeps.
  - apply writeNode_keeps.
  - apply AllocPage_keeps.
  - apply FreePage_keeps.
Qed.

(** ** Commit and rollback *)

Lemma writeMeta_inv p l : pager_inv p l -> writeMeta p = (Ok tt, p).
Proof.
  intros Hinv. pose proof (pi_meta _ _ Hinv) as Hm. unfold writeMeta, set_page.
  destruct (p_data p) eqn:E; [done|]. rewrite <- E in *.
  change (Z.to_nat 0) with 0%nat. rewrite list_insert_id by done. now destruct p.
Qed.

Lemma Flush_inv p l : pager_inv p l -> Flush p = (Ok tt, p).
Proof.
  intros Hinv. unfold Flush. erewrite mbind_step by (eapply ensureOpen_ok; eauto).
  eapply writeMeta_inv; eauto.
Qed.

Definition closed_pager (p : Pager) : Pager := mkPager (p_data p) (p_meta p) (p_freeSet p) true.

Lemma Close_inv p l : pager_inv p l -> Close p = (Ok tt, closed_pager p).
Proof.
  intros Hinv. unfold Close. rewrite (pi_open _ _ Hinv), (writeMeta_inv p l Hinv). done.
Qed.

Lemma Update_commit db h m fn p l :
  db_wf db h m -> fn (mkTx (db_root db) true) (db_pager db) = (Ok tt, p) -> pager_inv p l ->
  exists d, Update fn db = (Ok tt, with_pager db d p) /\ settled (db_path db) (file_of p) d.
Proof.
  intros Hwf Hfn Hinv. pose proof (disk_settled db h m Hwf) as [_ Hd].
  destruct Hwf as [Hp Ho _ _ _ _ _ _].
  destruct (writeWAL_journalled _ _ _ Hp Hd) as (d1 & Hw & _ & _).
  eexists. unfold Update, ensureOpenDB. rewrite Ho, Hw, Hfn, (Flush_inv p l Hinv).
  split; [reflexivity|]. unfold settled. simpl. fs_simp. auto.
Qed.

(** Whatever an aborted body did to the pager, the database is back where it
    was. *)
Lemma Update_abort db h m fn e p l :
  db_wf db h m -> fn (mkTx (db_root db) true) (db_pager db) = (Err e, p) -> pager_inv p l ->
  exists d, Update fn db = (Err e, mkDB (db_path db) d (db_pager db) (db_root db) false) /\
    settled (db_path db) (file_of (db_pager db)) d.
Proof.
  intros Hwf Hfn Hinv. pose proof (disk_settled db h m Hwf) as [_ Hd].
  destruct Hwf as [Hp Ho [l0 Hpg] Hr Hne _ _ _].
  destruct (writeWAL_journalled _ _ _ Hp Hd) as (d1 & Hw & Hj & _).
  unfold Update, ensureOpenDB. rewrite Ho, Hw, Hfn. unfold rollbackLocked, with_pager.
  cbn [db_pager db_path db_root db_closed]. rewrite (Close_inv p l Hinv).
  assert (Hj' : journalled (db_path db) (file_of (db_pager db))
                  (<[db_path db := file_of (closed_pager p)]> d1)).
  { unfold journalled in *. now fs_simp. }
  destruct (recovers_to_recover _ _ _ (or_intror Hj')) as (d2 & Hrun & Hs). rewrite Hrun.
  cbn [obind]. rewrite (OpenPager_reload _ d2 (db_pager db) l0 Hp Hpg (proj2 Hs)).
  cbn [obind]. rewrite Hr. destruct (Z.eqb_spec (db_root db) 0); [done|].
  exists d2. split; [reflexivity|exact Hs].
Qed.

(** An aborted transaction leaves no trace: whatever pages the body of
    [Update] changed before it returned an error, [Update] returns that error,
    the pager (every page, the metadata, the free set) and the root are those
    from before the transaction, the database stays open, the file on disk has
    its old contents and the journal is gone. *)
Theorem update_rollback_restores (db : DB) (h : nat) (m : kvs) (fn : Tx -> M Pager unit)
    (e : string) (p : Pager)
    (Hwf : db_wf db h m)
    (Hfn : fn (mkTx (db_root db) true) (db_pager db) = (Err e, p)) (Hp : pager_ok p) :
  exists db', Update fn db = (Err e, db') /\ db_pager db' = db_pager db /\
    db_root db' = db_root db /\ db_wf db' h m /\
    disk db' !! db_path db = disk db !! db_path db.
Proof.
  destruct Hp as [l Hinv].
  destruct (Update_abort db h m fn e p l Hwf Hfn Hinv) as (d & Hu & Hs).
  eexists. split; [exact Hu|]. destruct Hwf. split_and!; auto.
  - constructor; simpl; auto. apply Hs.
  - unfold disk. simpl. now rewrite !lookup_insert_eq.
Qed.

(** C3: [DB.Put] is an atomic map insertion on the whole database: on a
    well-formed database it never panics; either it succeeds and the database
    is well formed, stores the map with the key set, and is on disk without a
    journal, or it reports that a node does not fit its page (only possible
    with an entry larger than [smallEntry]) and the database is exactly the
    one before the call. *)
Theorem db_put_atomic (db : DB) (h fuel : nat) (m : kvs) (key value : bytes)
    (Hwf : db_wf db h m) (Hf : (h < fuel)%nat) (Hroom : pager_room (db_pager db) (h + 2))
    (Hk : key <> []) :
  (exists db' h' m', PutDB fuel key value db = (Ok tt, db') /\ db_wf db' h' m' /\
     kv_map m' = <[key := value]> (kv_map m) /\
     disk db' !! db_path db = Some (file_of (db_pager db'))) \/
  (exists db', PutDB fuel key value db = (Err "node does not fit in one page", db') /\
     db_pager db' = db_pager db /\ db_wf db' h m /\ ~ small_kv (kv_insert key value m)).
Proof.
  destruct (wf_tree _ _ _ Hwf) as (fp & Ht & Hnd).
  assert (Hr : ns_room (db_pager db) (h + 2 + 0)) by (simpl; now rewrite Nat.add_0_r).
  pose proof (put_tree h fuel (db_pager db) (db_root db) m fp 0 key value Hf
                (wf_pager _ _ _ Hwf) Ht (wf_sorted _ _ _ Hwf) Hnd Hr Hk) as Hput.
  pose proof (Put_keeps fuel (db_root db) key value (db_pager db)) as [Hrt _].
  unfold root_result in Hput.
  destruct (Put fuel (db_root db) key value (db_pager db)) as [[[]|e|e|] p1] eqn:Ep;
    cbn [fst snd] in *; [| |done|done].
  - left. destruct Hput as ([l Hinv] & _ & _ & _ & h' & fp' & _ & Ht' & Hnd' & _).
    destruct (Update_commit db h m (fun tx => TxPut fuel tx key value) p1 l Hwf Ep Hinv)
      as (d & Hu & Hs).
    eexists _, h', (kv_insert key value m). split; [exact Hu|].
    destruct Hwf. split_and!.
    + constructor; simpl; auto; [now exists l|congruence|apply Hs|eauto|now apply kv_insert_sorted].
    + apply kv_insert_map.
    + unfold disk. simpl. now rewrite lookup_insert_eq.
  - right. destruct Hput as (-> & Hns & l & Hinv).
    destruct (Update_abort db h m (fun tx => TxPut fuel tx key value) _ p1 l Hwf Ep Hinv)
      as (d & Hu & Hs).
    eexists. split; [exact Hu|]. split; [done|]. split; [|done].
    destruct Hwf. constructor; cbn [db_path db_closed db_pager db_root db_fs]; auto. apply Hs.
Qed.

(** ** Creating a database *)

Lemma pager_tree_frame p p' l l' h id m fp :
  pager_inv p l -> pager_inv p' l' -> l' = l ->
  PageCount (p_meta p') = PageCount (p_meta p) ->
  (forall j, 1 <= j -> p_data p' !! Z.to_nat j = p_data p !! Z.to_nat j) ->
  tree p h id m fp -> tree p' h id m fp.
Proof.
  intros Hinv Hinv' -> Hpc Hd Ht. eapply tree_frame; [exact Ht|]. intros j Hj.
  pose proof (tree_used _ _ _ _ _ _ Ht Hj) as Hu. simpl in Hu |- *.
  unfold pager_used, pager_view in *. rewrite Hpc, Hd by lia.
  rewrite (pi_set _ _ Hinv'), <- (pi_set _ _ Hinv). auto.
Qed.

Lemma Open_fresh (path : string) (d : files) (n : nat) (Hn : Z.of_nat n < 2 ^ 50)
    (Hp : path <> EmptyString) (Hd : d !! path = None)
    (Hw : d !! rollbackWALPath path = None) :
  exists db, Open path d = Ok db /\ db_wf db 0 [] /\ db_path db = path /\
    pager_room (db_pager db) n.
Proof.
  destruct (create_tree fresh_pager n) as (root & p & Hc & [l Hinv] & Hr & Ht).
  { exists []. apply fresh_inv. }
  { simpl. unfold pager_room, maxPages. simpl. lia. }
  pose proof (tree_used _ _ _ _ _ root Ht ltac:(set_solver)) as Hu. simpl in Hu.
  destruct (SetRootPage_spec p l root Hinv) as (p' & Hsr & Hinv' & Hroot & Hpc & Hdat).
  { destruct Hu as (? & _). lia. }
  exists (mkDB path d p' root false). split_and!; auto.
  - unfold Open, recoverRollbackWAL. rewrite Hw. cbn [run_ops execs foldl obind].
    unfold OpenPager. rewrite Hd. destruct path; [done|].
    change (String.length (String a path) =? 0)%nat with false. cbv iota zeta.
    change (negb (zlen (default (@nil byte) None) mod PageSize =? 0)) with false. cbv iota.
    change (openPager (pages (default [] None))) with (Ok fresh_pager). cbn [obind].
    change (RootPage (p_meta fresh_pager) =? 0) with true. cbv iota.
    erewrite mbind_step by exact Hc. erewrite mbind_step by exact Hsr.
    erewrite mbind_step by (eapply Flush_inv; eauto). done.
  - destruct Hu as (Hu & _).
    constructor; cbn [db_path db_closed db_pager db_root db_fs]; auto.
    + now exists l.
    + lia.
    + exists [root]. split; [|apply NoDup_singleton]. eapply (pager_tree_frame p); eauto.
    + constructor.
  - simpl in *. unfold pager_room in *. now rewrite Hpc.
Qed.

(** Opening a path with neither a database file nor a journal creates a
    well-formed empty database: recovery, file creation, the root leaf, the
    root pointer and the flush all succeed; it has room for any [n] more
    pages below the 2^50 mark. *)
Theorem open_creates_empty (path : string) (d : files) (n : nat) (Hn : Z.of_nat n < 2 ^ 50)
    (Hp : path <> EmptyString) (Hd : d !! path = None)
    (Hw : d !! rollbackWALPath path = None) :
  exists db, Open path d = Ok db /\ db_wf db 0 [] /\ db_path db = path /\
    pager_room (db_pager db) n.
Proof. now apply Open_fresh. Qed.

Lemma open_creates_empty_witness :
  exists db, Open "k" ∅ = Ok db /\ db_wf db 0 [] /\ db_path db = "k" /\
    pager_room (db_pager db) 9.
Proof. apply (open_creates_empty "k" ∅ 9); [lia|discriminate|reflexivity|reflexivity]. Defined.

Lemma fresh_db : exists db, db_wf db 0 [] /\ pager_room (db_pager db) 2 /\ pager_ok (db_pager db).
Proof.
  destruct (Open_fresh "k" ∅ 9) as (db & _ & Hwf & _ & Hr); [lia|done..|]. exists db.
  split; [done|]. split; [unfold pager_room in *; lia|apply Hwf].
Qed.

Lemma update_rollback_restores_witness :
  exists db, db_wf db 0 [] /\
    exists db', Update (fun tx => TxPut 1 tx [] []) db = (Err "key is required", db') /\
      db_pager db' = db_pager db /\ db_root db' = db_root db /\ db_wf db' 0 [] /\
      disk db' !! db_path db = disk db !! db_path db.
Proof.
  destruct fresh_db as (db & Hwf & Hr & Hok). exists db. split; [done|].
  apply (update_rollback_restores db 0 [] (fun tx => TxPut 1 tx [] []) "key is required"
           (db_pager db)); [done|reflexivity|done].
Defined.

Lemma db_put_atomic_witness :
  exists db, db_wf db 0 [] /\
    ((exists db' h' m', PutDB 1 [Byte.x01] [] db = (Ok tt, db') /\ db_wf db' h' m' /\
        kv_map m' = <[[Byte.x01] := []]> (kv_map []) /\
        disk db' !! db_path db = Some (file_of (db_pager db'))) \/
     (exists db', PutDB 1 [Byte.x01] [] db = (Err "node does not fit in one page", db') /\
        db_pager db' = db_pager db /\ db_wf db' 0 [] /\ ~ small_kv (kv_insert [Byte.x01] [] []))).
Proof.
  destruct fresh_db as (db & Hwf & Hr & Hok). exists db. split; [done|].
  apply (db_put_atomic db 0 1 [] [Byte.x01] []); [done|lia|exact Hr|discriminate].
Defined.

(** ** Closing and reopening *)

(** A database survives closing and reopening, and crashing and
    reopening: whenever the files recover to the contents of a well-formed
    database, [Open] returns a database with the same pager and root, hence
    the same tree and map, and no journal. *)
Theorem open_restores (db : DB) (h : nat) (m : kvs) (d : files)
    (Hwf : db_wf db h m) (Hr : recovers_to (db_path db) (file_of (db_pager db)) d) :
  exists db', Open (db_path db) d = Ok db' /\ db_pager db' = db_pager db /\
    db_root db' = db_root db /\ db_wf db' h m.
Proof.
  destruct Hwf as [Hp Ho [l Hpg] Hroot Hne Hw Ht Hs].
  destruct (Open_settled (db_path db) d (db_pager db) l Hp Hpg) as (d' & Hopen & Hset);
    [congruence|done|].
  eexists. split; [exact Hopen|]. split_and!; auto.
  constructor; simpl; auto; [now exists l|congruence|apply Hset|now rewrite Hroot].
Qed.

Lemma open_restores_witness :
  exists db, db_wf db 0 [] /\
    exists db', Open (db_path db) (disk db) = Ok db' /\ db_pager db' = db_pager db /\
      db_root db' = db_root db /\ db_wf db' 0 [].
Proof.
  destruct fresh_db as (db & Hwf & Hr & Hok). exists db. split; [done|].
  apply (open_restores db 0 [] (disk db)); [done|]. left. now apply (disk_settled db 0 []).
Defined.
