(* ===== verification/KvBucket.v ===== *)
(** * kvstore: buckets

    Models src/internal/kvstore/bucket.go: namespaces inside one tree, built
    from key prefixes. Shows that no two (bucket path, key) pairs share a
    stored key, and that a bucket scan's range is exactly the bucket's
    prefix. *)

From S2P Require Import Prelude KvNode KvMap KvPager KvBTree KvDB.
Local Open Scope Z_scope.

Definition bucketSeparator : bytes := [Byte.x00].

Definition has_separator (bs : bytes) : bool := existsb (fun b => b2z b =? 0) bs.

Definition bucketPrefix (parent name : bytes) : bytes := parent ++ name ++ bucketSeparator.

(** The loop of [prefixEnd], from the last byte down: drop trailing 0xff
    bytes, increment the byte before them. *)
Fixpoint prefixEnd_rev (rev : bytes) : option bytes :=
  match rev with
  | [] => None
  | b :: r => if b2z b =? 255 then prefixEnd_rev r else Some (z2b (b2z b + 1) :: r)
  end.

Definition prefixEnd (prefix : bytes) : option bytes :=
  match prefixEnd_rev (reverse prefix) with
  | Some r => Some (reverse r)
  | None => None
  end.

Record Bucket := mkBucket { b_tx : Tx; b_prefix : bytes }.

(** [Tx.Bucket] and [Bucket.Bucket]: the parent's prefix is empty for a
    top-level bucket. *)
Definition openBucket (tx : Tx) (parent name : bytes) : outcome Bucket :=
  if (length name =? 0)%nat || has_separator name then Err "invalid bucket name"
  else Ok (mkBucket tx (bucketPrefix parent name)).

Definition TxBucket (tx : Tx) (name : bytes) : outcome Bucket := openBucket tx [] name.
Definition BucketBucket (b : Bucket) (name : bytes) : outcome Bucket :=
  openBucket (b_tx b) (b_prefix b) name.

(** [Bucket.key] *)
Definition bucket_key (b : Bucket) (key : bytes) : outcome bytes :=
  if (length key =? 0)%nat || has_separator key then Err "invalid bucket key"
  else Ok (b_prefix b ++ key).

Definition BucketGet (fuel : nat) (b : Bucket) (key : bytes) : M Pager (option bytes) :=
  full <-- mlift (bucket_key b key) ;;
  TxGet fuel (b_tx b) full.

Definition BucketPut (fuel : nat) (b : Bucket) (key value : bytes) : M Pager unit :=
  full <-- mlift (bucket_key b key) ;;
  TxPut fuel (b_tx b) full value.

Definition BucketDelete (fuel : nat) (b : Bucket) (key : bytes) : M Pager unit :=
  full <-- mlift (bucket_key b key) ;;
  TxDelete fuel (b_tx b) full.

Definition BucketScan (fuel : nat) (b : Bucket) (start : bytes) (end_ : option bytes)
    : M Pager Iterator :=
  startKey <-- mlift (bucket_key b start) ;;
  endKey <-- mlift (match end_ with
                    | None => Ok (prefixEnd (b_prefix b))
                    | Some e => k <~ bucket_key b e ;; Ok (Some k)
                    end) ;;
  TxScan fuel (b_tx b) startKey endKey.

Definition BucketValid (b : Bucket) (it : Iterator) : bool :=
  Valid it && beqb (take (length (b_prefix b))
                      (key_at (n_entries (it_node it)) (it_index it))) (b_prefix b).

Definition BucketKey (b : Bucket) (it : Iterator) : option bytes :=
  if BucketValid b it
  then Some (drop (length (b_prefix b)) (key_at (n_entries (it_node it)) (it_index it)))
  else None.

(** ** Prefix ranges *)

Lemma reverse_snoc_split (p : bytes) b r : reverse p = b :: r -> p = reverse r ++ [b].
Proof. intros H. rewrite <- (reverse_involutive p), H. apply reverse_cons. Qed.

Lemma blt_nil_r a : ~ blt a [].
Proof. destruct a; discriminate. Qed.

Lemma blt_cons x a y b :
  blt (x :: a) (y :: b) <-> b2z x < b2z y \/ (x = y /\ blt a b).
Proof.
  unfold blt. simpl. destruct (b2z x ?= b2z y) eqn:E.
  - apply Z.compare_eq_iff in E. pose proof E as E'. apply b2z_inj in E' as ->.
    split; [tauto|]. intros [H|[_ H]]; [lia|done].
  - rewrite Z.compare_lt_iff in E. split; auto.
  - rewrite Z.compare_gt_iff in E. split; [done|]. intros [H|[-> H]]; lia.
Qed.

(** Keys against [p ++ [b]] compared with those against [p ++ [b+1]]. *)
Lemma prefix_range_last p b b' k :
  b2z b' = b2z b + 1 ->
  (~ blt k (p ++ [b]) /\ blt k (p ++ [b'])) <-> exists s, k = p ++ b :: s.
Proof.
  intros Hb. revert k. induction p as [|x p IH]; intros k; simpl.
  - destruct k as [|y k].
    + split; [|intros [s [=]]]. intros [H _]. exfalso. apply H. reflexivity.
    + rewrite !blt_cons. split.
      * intros [H1 H2]. exists k. f_equal. apply b2z_inj.
        destruct H2 as [H2|[_ H2]]; [|now apply blt_nil_r in H2]. lia.
      * intros [s [= -> ->]]. split; [|lia].
        intros [H|[_ H]]; [lia|now apply blt_nil_r in H].
  - destruct k as [|y k].
    + split; [|intros [s [=]]]. intros [H _]. exfalso. apply H. reflexivity.
    + rewrite !blt_cons. split.
      * intros [H1 H2]. assert (y = x) as ->.
        { destruct H2 as [H2|[-> _]]; [|done]. exfalso. apply H1. now left. }
        destruct (proj1 (IH k)) as [s ->]; [|now exists s].
        split; [intros Hc; apply H1; now right|]. destruct H2 as [H2|[_ H2]]; [lia|done].
      * intros [s [= -> ->]].
        destruct (proj2 (IH (p ++ b :: s)) ltac:(now exists s)) as [H1 H2].
        split; [|now right]. intros [H|[_ H]]; [lia|done].
Qed.

Lemma b2z_ff b : b2z b = 255 -> b = Byte.xff.
Proof. intros H. apply b2z_inj. rewrite H. reflexivity. Qed.

Lemma ff_above_all n s : ~ blt s (replicate n Byte.xff) ->
  exists t, s = replicate n Byte.xff ++ t.
Proof.
  revert s. induction n as [|n IH]; intros s H; [now exists s|]. simpl in *.
  destruct s as [|y s]; [exfalso; apply H; reflexivity|]. rewrite blt_cons in H.
  assert (y = Byte.xff) as ->.
  { apply b2z_ff. pose proof (b2z_range y). change (b2z Byte.xff) with 255 in H. lia. }
  destruct (IH s) as [t ->]; [tauto|]. now exists t.
Qed.

Lemma not_blt_ff n t : ~ blt (replicate n Byte.xff ++ t) (replicate n Byte.xff).
Proof.
  induction n as [|n IH]; simpl; [apply blt_nil_r|]. rewrite blt_cons. intros [H|[_ H]]; [lia|auto].
Qed.

Lemma prefixEnd_rev_spec rev :
  match prefixEnd_rev rev with
  | Some r => exists n b r0, rev = replicate n Byte.xff ++ b :: r0 /\ b2z b <> 255 /\
                r = z2b (b2z b + 1) :: r0
  | None => rev = replicate (length rev) Byte.xff
  end.
Proof.
  induction rev as [|b rev IH]; simpl; [done|].
  destruct (Z.eqb_spec (b2z b) 255) as [E|E].
  - apply b2z_ff in E as ->. destruct (prefixEnd_rev rev) as [r|].
    + destruct IH as (n & b & r0 & -> & Hb & ->). now exists (S n), b, r0.
    + now rewrite <- IH.
  - now exists 0%nat, b, rev.
Qed.

Lemma reverse_replicate_ff n : reverse (replicate n Byte.xff) = replicate n Byte.xff.
Proof. apply reverse_replicate. Qed.

Lemma blt_app_iff p n s :
  blt (p ++ s) (p ++ replicate n Byte.xff) <-> blt s (replicate n Byte.xff).
Proof. apply blt_app_prefix. Qed.

(** The range a bucket scan covers is exactly the bucket: a key lies
    between the prefix (included) and [prefixEnd prefix] (excluded) if and
    only if it starts with the prefix; when [prefixEnd] has no bound to give
    (every byte of the prefix is 0xff), every key from the prefix on starts
    with it. *)
Theorem prefixEnd_range (prefix key : bytes) :
  (~ blt key prefix /\ match prefixEnd prefix with Some e => blt key e | None => True end) <->
  exists s, key = prefix ++ s.
Proof.
  unfold prefixEnd. pose proof (prefixEnd_rev_spec (reverse prefix)) as H.
  destruct (prefixEnd_rev (reverse prefix)) as [r|].
  - destruct H as (n & b & r0 & Hr & Hb & ->).
    assert (Hp : prefix = (reverse r0 ++ [b]) ++ replicate n Byte.xff).
    { rewrite <- (reverse_involutive prefix), Hr, reverse_app, reverse_cons.
      now rewrite reverse_replicate_ff. }
    rewrite reverse_cons.
    assert (Hb' : b2z (z2b (b2z b + 1)) = b2z b + 1).
    { rewrite b2z_z2b. pose proof (b2z_range b). apply Z.mod_small. lia. }
    pose proof (prefix_range_last (reverse r0) b _ key Hb') as Hl. rewrite Hp. split.
    + intros [H1 H2].
      assert (Hn : ~ blt key (reverse r0 ++ [b])).
      { intros Hc. apply H1. clear -Hc. revert Hc. generalize (reverse r0 ++ [b]) as q.
        intros q. revert key. induction q as [|x q IH]; intros key Hc; [now apply blt_nil_r in Hc|].
        destruct key as [|y key]; [reflexivity|]. simpl. rewrite blt_cons in *.
        destruct Hc as [Hc|[-> Hc]]; auto. }
      destruct (proj1 Hl (conj Hn H2)) as [s ->].
      replace (reverse r0 ++ b :: s) with ((reverse r0 ++ [b]) ++ s) in *
        by now rewrite <- app_assoc.
      rewrite blt_app_iff in H1. destruct (ff_above_all n s H1) as [t ->].
      exists t. now rewrite <- !app_assoc.
    + intros [s ->]. split.
      * rewrite <- (app_assoc (reverse r0 ++ [b])). rewrite blt_app_iff. apply not_blt_ff.
      * apply (proj2 Hl). exists (replicate n Byte.xff ++ s). now rewrite <- !app_assoc.
  - assert (Hp : prefix = replicate (length prefix) Byte.xff).
    { rewrite <- (reverse_involutive prefix), H, reverse_replicate_ff at 1.
      now rewrite length_reverse. }
    rewrite Hp. split.
    + intros [H1 _]. now apply ff_above_all.
    + intros [s ->]. split; [apply not_blt_ff|done].
Qed.

(** ** Separation of buckets *)

Definition clean (bs : bytes) : Prop := bs <> [] /\ has_separator bs = false.

Lemma guard_clean (bs : bytes) :
  (length bs =? 0)%nat || has_separator bs = false <-> clean bs.
Proof.
  unfold clean. destruct bs as [|b bs]; simpl; [split; [done|intros [? _]; done]|].
  split; [auto|intros [_ H]; exact H].
Qed.

Lemma sep_split a b x y :
  has_separator a = false -> has_separator b = false ->
  a ++ Byte.x00 :: x = b ++ Byte.x00 :: y -> a = b /\ x = y.
Proof.
  revert b. induction a as [|c a IH]; intros [|e b] Ha Hb H; simpl in *.
  - injection H as <-. auto.
  - injection H as <- H. discriminate.
  - injection H as -> H. discriminate.
  - injection H as -> H. apply orb_false_iff in Ha as [_ Ha]. apply orb_false_iff in Hb as [_ Hb].
    destruct (IH b Ha Hb H) as [-> ->]. auto.
Qed.

Lemma sep_absent a x k : has_separator k = false -> a ++ Byte.x00 :: x <> k.
Proof.
  intros Hk <-. unfold has_separator in Hk. rewrite existsb_app in Hk. simpl in Hk.
  apply orb_false_iff in Hk as [_ Hk]. discriminate.
Qed.

(** The bucket at a path of names, opened one level at a time. *)
Fixpoint bucket_at (b : outcome Bucket) (path : list bytes) : outcome Bucket :=
  match path with
  | [] => b
  | name :: r => bucket_at (parent <~ b ;; BucketBucket parent name) r
  end.

Definition bucket_path (tx : Tx) (name : bytes) (rest : list bytes) : outcome Bucket :=
  bucket_at (TxBucket tx name) rest.

Definition path_prefix (names : list bytes) : bytes :=
  concat (map (fun n => n ++ bucketSeparator) names).

Lemma openBucket_ok tx parent name b :
  openBucket tx parent name = Ok b -> clean name /\ b = mkBucket tx (bucketPrefix parent name).
Proof.
  unfold openBucket. destruct (_ || _) eqn:E; [done|]. apply guard_clean in E.
  intros [= <-]. auto.
Qed.

Lemma bucket_at_fail path : forall o b, (forall b', o <> Ok b') -> bucket_at o path <> Ok b.
Proof.
  induction path as [|n path IH]; intros o b Ho; simpl; [auto|].
  apply IH. intros b'. destruct o as [b0|e|e|]; simpl; try done. now destruct (Ho b0).
Qed.

Lemma bucket_at_ok path : forall b0 b,
  bucket_at (Ok b0) path = Ok b ->
  Forall clean path /\ b = mkBucket (b_tx b0) (b_prefix b0 ++ path_prefix path).
Proof.
  induction path as [|n path IH]; intros b0 b H; simpl in H.
  - injection H as <-. unfold path_prefix. simpl. rewrite app_nil_r. destruct b0; auto.
  - destruct (BucketBucket b0 n) as [b1|e|e|] eqn:E.
    2-4: exfalso; revert H; apply bucket_at_fail; done.
    apply openBucket_ok in E as [Hc ->]. destruct (IH _ _ H) as [Hp ->]. split; [auto|].
    simpl. unfold bucketPrefix, path_prefix. simpl. now rewrite <- !app_assoc.
Qed.

Lemma bucket_path_ok tx name rest b :
  bucket_path tx name rest = Ok b ->
  Forall clean (name :: rest) /\ b = mkBucket tx (path_prefix (name :: rest)).
Proof.
  unfold bucket_path. destruct (TxBucket tx name) as [b0|e|e|] eqn:E; intros H.
  2-4: exfalso; revert H; apply bucket_at_fail; done.
  apply openBucket_ok in E as [Hc ->]. apply bucket_at_ok in H as [Hp ->]. split; [auto|].
  simpl. unfold bucketPrefix, path_prefix. simpl. reflexivity.
Qed.

Lemma path_prefix_inj p1 : forall p2 k1 k2,
  Forall clean p1 -> Forall clean p2 -> has_separator k1 = false -> has_separator k2 = false ->
  path_prefix p1 ++ k1 = path_prefix p2 ++ k2 -> p1 = p2 /\ k1 = k2.
Proof.
  induction p1 as [|n1 p1 IH]; intros [|n2 p2] k1 k2 H1 H2 Hk1 Hk2 H;
    unfold path_prefix, bucketSeparator in *; simpl in *; auto.
  - rewrite <- !app_assoc in H. simpl in H. symmetry in H. now apply sep_absent in H.
  - rewrite <- !app_assoc in H. simpl in H. now apply sep_absent in H.
  - apply Forall_cons in H1 as [[_ Hn1] H1]. apply Forall_cons in H2 as [[_ Hn2] H2].
    rewrite <- !app_assoc in H. simpl in H. apply sep_split in H as [-> H]; auto.
    destruct (IH p2 k1 k2 H1 H2 Hk1 Hk2 H) as [-> ->]. auto.
Qed.

(** Buckets do not overlap: if two accepted keys of two buckets, at any
    nesting depth, are stored under the same tree key, then the bucket paths
    and the local keys are the same. *)
Theorem bucket_keys_disjoint (tx : Tx) (n1 n2 : bytes) (r1 r2 : list bytes)
    (b1 b2 : Bucket) (k1 k2 full : bytes)
    (Hb1 : bucket_path tx n1 r1 = Ok b1) (Hb2 : bucket_path tx n2 r2 = Ok b2)
    (Hk1 : bucket_key b1 k1 = Ok full) (Hk2 : bucket_key b2 k2 = Ok full) :
  n1 = n2 /\ r1 = r2 /\ k1 = k2.
Proof.
  apply bucket_path_ok in Hb1 as [Hp1 ->]. apply bucket_path_ok in Hb2 as [Hp2 ->].
  unfold bucket_key in *.
  destruct ((length k1 =? 0)%nat || has_separator k1) eqn:E1; [done|].
  destruct ((length k2 =? 0)%nat || has_separator k2) eqn:E2; [done|].
  apply guard_clean in E1 as [_ E1]. apply guard_clean in E2 as [_ E2].
  injection Hk1 as <-. injection Hk2 as H. symmetry in H.
  destruct (path_prefix_inj _ _ _ _ Hp1 Hp2 E1 E2 H) as [[= -> ->] ->]. auto.
Qed.

Lemma bucket_keys_disjoint_witness :
  let tx := mkTx 1 true in
  let b := mkBucket tx [Byte.x61; Byte.x00; Byte.x62; Byte.x00] in
  [Byte.x61] = [Byte.x61] /\ [[Byte.x62]] = [[Byte.x62]] /\ [Byte.x63] = [Byte.x63].
Proof.
  intros tx b.
  apply (bucket_keys_disjoint tx [Byte.x61] [Byte.x61] [[Byte.x62]] [[Byte.x62]] b b
           [Byte.x63] [Byte.x63] [Byte.x61; Byte.x00; Byte.x62; Byte.x00; Byte.x63]);
    reflexivity.
Defined.
