(* ===== verification/KvRepair.v ===== *)
(** * kvstore: repair

    Models src/internal/kvstore/repair.go. Repair marks the pages reachable
    from the root and threads every other page into a new free list. *)

From S2P Require Import Prelude KvNode KvCodec KvPager KvBTree KvTree KvDB.
Local Open Scope Z_scope.

(** [collectReachablePages]: depth-first marking of the page graph. A call
    either returns at once on a marked page or marks a new one below
    [PageCount], so recursion is at most [PageCount + 1] deep. *)
Fixpoint collectReachablePages (fuel : nat) (p : Pager) (id : Z) (reachable : gset Z)
    : outcome (gset Z) :=
  match fuel with
  | O => Fuel
  | S f =>
      if bool_decide (id ∈ reachable) then Ok reachable
      else if PageCount (p_meta p) <=? id then Err "reachable page out of range"
      else
        page <~ fst (pageLocked id p) ;;
        node <~ decodeNode id page ;;
        let reachable := reachable ∪ {[ id ]} in
        if n_typ node =? nodeLeaf then
          if negb (n_next node =? 0)
          then collectReachablePages f p (n_next node) reachable
          else Ok reachable
        else
          (fix children (es : list btreeEntry) (reachable : gset Z) : outcome (gset Z) :=
             match es with
             | [] => Ok reachable
             | e :: r =>
                 reachable <~ collectReachablePages f p (e_child e) reachable ;;
                 children r reachable
             end) (n_entries node) reachable
  end.

(** The loop of [rebuildFreeListFromReachable], for page ids [k] down to 1. *)
Fixpoint rebuild_loop (k : nat) (reachable : gset Z) : M Pager unit :=
  match k with
  | O => mret tt
  | S k' =>
      let id := Z.of_nat k in
      if bool_decide (id ∈ reachable) then rebuild_loop k' reachable
      else
        _ <-- pageLocked id ;;
        fun p =>
          let m := p_meta p in
          let p := set_page id (put_u64 0 (FreeHead m) zero_page) p in
          let p := set_meta p (mkMeta (PageCount m) id (u64 (FreeCount m + 1)) (RootPage m)) in
          let p := set_freeSet p (p_freeSet p ∪ {[ id ]}) in
          rebuild_loop k' reachable p
  end.

Definition rebuildFreeListFromReachable (reachable : gset Z) : M Pager unit := fun p =>
  let m := p_meta p in
  let p := set_freeSet p ∅ in
  let p := set_meta p (mkMeta (PageCount m) 0 0 (RootPage m)) in
  rebuild_loop (Z.to_nat (PageCount m - 1)) reachable p.

(** [Repair], from the opened pager on. *)
Definition repairPager : M Pager unit :=
  _ <-- ensureOpen ;;
  fun p =>
    match (if RootPage (p_meta p) =? 0 then Ok {[ metaPageID ]}
           else collectReachablePages (S (Z.to_nat (PageCount (p_meta p)))) p
                  (RootPage (p_meta p)) {[ metaPageID ]}) with
    | Ok reachable => (_ <-- rebuildFreeListFromReachable reachable ;; writeMeta) p
    | Err e => (Err e, p)
    | Panic e => (Panic e, p)
    | Fuel => (Fuel, p)
    end.

Definition Repair (dbPath : string) (d : files) : outcome files :=
  d1 <~ run_ops (recoverRollbackWAL dbPath d) d ;;
  p <~ OpenPager dbPath d1 ;;
  match repairPager p with
  | (Ok _, p') => Ok (<[dbPath := file_of p']> d1)
  | (Err e, _) => Err e
  | (Panic e, _) => Panic e
  | (Fuel, _) => Fuel
  end.

(** ** The rebuilt free list *)

(** State of the loop after the pages above [k] were visited: [l] threads the
    unreachable ones among them; pages at or below [k] and reachable pages
    are as in [p0]. *)
Record rebuilt (p0 : Pager) (reachable : gset Z) (k : Z) (p : Pager) (l : list Z) : Prop := {
  rb_open : p_closed p = p_closed p0;
  rb_count : PageCount (p_meta p) = PageCount (p_meta p0);
  rb_rootp : RootPage (p_meta p) = RootPage (p_meta p0);
  rb_len : length (p_data p) = length (p_data p0);
  rb_pages : Forall (fun pg => zlen pg = PageSize) (p_data p);
  rb_chain : free_chain (p_data p) (FreeHead (p_meta p)) l;
  rb_in : forall id, id ∈ l <-> k < id < PageCount (p_meta p0) /\ id ∉ reachable;
  rb_nodup : NoDup l;
  rb_fcount : FreeCount (p_meta p) = zlen l;
  rb_set : p_freeSet p = list_to_set l;
  rb_same : forall j, 0 <= j -> (j <= k \/ j ∈ reachable) ->
              p_data p !! Z.to_nat j = p_data p0 !! Z.to_nat j
}.

Lemma rebuild_step p0 reachable k p l :
  1 <= PageCount (p_meta p0) <= maxPages -> PageCount (p_meta p0) <= zlen (p_data p0) ->
  0 < k < PageCount (p_meta p0) -> k ∉ reachable -> rebuilt p0 reachable k p l ->
  let p1 := set_freeSet
    (set_meta (set_page k (put_u64 0 (FreeHead (p_meta p)) zero_page) p)
       (mkMeta (PageCount (p_meta p)) k (u64 (FreeCount (p_meta p) + 1)) (RootPage (p_meta p))))
    (p_freeSet p ∪ {[ k ]}) in
  rebuilt p0 reachable (k - 1) p1 (k :: l).
Proof.
  intros Hc Hm Hk Hnr [Ho Hpc Hrp Hlen Hpg Hch Hin Hnd Hfc Hset Hsame]. cbv zeta.
  assert (Hkl : k ∉ l) by (rewrite Hin; lia).
  assert (Hlt : (Z.to_nat k < length (p_data p))%nat) by (unfold zlen in Hm; lia).
  assert (Hlb : zlen l <= maxPages).
  { pose proof (nodup_bound l (PageCount (p_meta p0)) Hnd) as Hb.
    assert (Forall (fun id => 1 <= id < PageCount (p_meta p0)) l).
    { apply Forall_forall. intros id Hid. apply Hin in Hid. lia. }
    specialize (Hb ltac:(done)). unfold maxPages in *. lia. }
  assert (Hhead : 0 <= FreeHead (p_meta p) < 2 ^ 64).
  { destruct (decide (FreeHead (p_meta p) = 0)) as [->|Hne]; [lia|].
    destruct (free_chain_head_ne _ _ _ Hch Hne) as (pg & l' & El & Hpos & _).
    assert (FreeHead (p_meta p) ∈ l) as Hh by (rewrite El; now left).
    apply Hin in Hh. unfold maxPages in *. lia. }
  constructor; cbn; auto.
  - now rewrite length_insert.
  - apply Forall_insert; [done|]. rewrite zlen_put_u64; [reflexivity|lia|].
    rewrite zlen_zero_page. unfold PageSize. lia.
  - econstructor; [lia|now rewrite list_lookup_insert_eq|].
    rewrite get_put_u64.
    + eapply free_chain_frame; [exact Hch|]. intros id Hid.
      rewrite list_lookup_insert_ne; [done|]. apply Hin in Hid. lia.
    + lia.
    + rewrite zlen_zero_page. unfold PageSize. lia.
    + lia.
  - intros id. rewrite elem_of_cons, Hin. split.
    + intros [->|[H1 H2]]; [split; [lia|done]|split; [lia|done]].
    + intros [H1 H2]. destruct (decide (id = k)) as [->|]; [now left|right]. split; [lia|done].
  - now constructor.
  - rewrite Hfc, zlen_cons. apply u64_id. pose proof (zlen_nonneg l). unfold maxPages in *. lia.
  - rewrite Hset. simpl. set_solver.
  - intros j Hj Hor. assert (j <> k) by (intros ->; destruct Hor; [lia|done]).
    rewrite list_lookup_insert_ne by lia. apply Hsame; [done|]. destruct Hor; [left; lia|now right].
Qed.

Lemma rebuild_loop_spec p0 reachable k : forall p l,
  1 <= PageCount (p_meta p0) <= maxPages -> PageCount (p_meta p0) <= zlen (p_data p0) ->
  Z.of_nat k < PageCount (p_meta p0) -> rebuilt p0 reachable (Z.of_nat k) p l ->
  exists p' l', rebuild_loop k reachable p = (Ok tt, p') /\ rebuilt p0 reachable 0 p' l'.
Proof.
  induction k as [|k IH]; intros p l Hc Hm Hk Hrb; [eauto|].
  cbn [rebuild_loop]. cbv zeta. case_bool_decide as Hr.
  - apply (IH p l); auto; [lia|]. destruct Hrb. constructor; auto.
    + intros id. rewrite rb_in0. split.
      * intros [? ?]. split; [lia|done].
      * intros [H1 H2]. split; [|done]. destruct (decide (id = Z.of_nat (S k))) as [->|]; [done|lia].
    + intros j Hj Hor. apply rb_same0; [done|]. destruct Hor; [left; lia|now right].
  - pose proof (rb_count _ _ _ _ _ Hrb) as Hpc. pose proof (rb_len _ _ _ _ _ Hrb) as Hlen.
    assert (Hpl : exists pg, pageLocked (Z.of_nat (S k)) p = (Ok pg, p)).
    { unfold pageLocked. destruct (Z.leb_spec (PageCount (p_meta p)) (Z.of_nat (S k))); [lia|].
      destruct (lookup_lt_is_Some_2 (p_data p) (Z.to_nat (Z.of_nat (S k)))) as [pg Hpg].
      { unfold zlen in Hm. lia. }
      rewrite Hpg. eauto. }
    destruct Hpl as [pg Hpl]. erewrite mbind_step by exact Hpl.
    eapply (IH _ (Z.of_nat (S k) :: l)); auto; [lia|].
    replace (Z.of_nat k) with (Z.of_nat (S k) - 1) by lia.
    apply (rebuild_step p0 reachable (Z.of_nat (S k)) p l); auto. lia.
Qed.

(** Rebuilding the free list is exact: on any mapped file whose page
    count is valid (the old free list may be arbitrary), the pages of the new
    free list are exactly the unreachable ones, the pager invariant holds
    again once the metadata is written, and no reachable page has changed. *)
Theorem repair_free_list_exact (p : Pager) (reachable : gset Z)
    (Ho : p_closed p = false)
    (Hc : 1 <= PageCount (p_meta p) <= maxPages)
    (Hm : PageCount (p_meta p) <= zlen (p_data p))
    (Hpg : Forall (fun pg => zlen pg = PageSize) (p_data p))
    (Hroot : 0 <= RootPage (p_meta p) < PageCount (p_meta p))
    (H0 : metaPageID ∈ reachable) :
  exists p' l, (_ <-- rebuildFreeListFromReachable reachable ;; writeMeta) p = (Ok tt, p') /\
    pager_inv p' l /\
    (forall id, id ∈ l <-> 1 <= id < PageCount (p_meta p) /\ id ∉ reachable) /\
    (forall j, 1 <= j -> j ∈ reachable -> p_data p' !! Z.to_nat j = p_data p !! Z.to_nat j).
Proof.
  set (p1 := set_meta (set_freeSet p ∅) (mkMeta (PageCount (p_meta p)) 0 0 (RootPage (p_meta p)))).
  destruct (rebuild_loop_spec p reachable (Z.to_nat (PageCount (p_meta p) - 1)) p1 [])
    as (p' & l & Hrun & [Ho' Hpc Hrp Hlen Hpg' Hch Hin Hnd Hfc Hset Hsame]); auto; [lia| |].
  { constructor; cbn; auto; try constructor. 
    - intros H. inversion H.
    - lia. }
  assert (Hne : p_data p' <> []).
  { intros E. rewrite E in Hlen. unfold zlen in Hm. simpl in Hlen. lia. }
  exists (set_page 0 (metaBytes (p_meta p')) p'), l. split_and!.
  - erewrite mbind_step by exact Hrun. now apply writeMeta_ok.
  - constructor; cbn; auto.
    + congruence.
    + lia.
    + unfold zlen in *. rewrite length_insert. lia.
    + apply Forall_insert; [done|]. apply zlen_metaBytes.
    + lia.
    + eapply free_chain_frame; [exact Hch|]. intros id Hid. apply Hin in Hid.
      rewrite list_lookup_insert_ne by lia. done.
    + apply Forall_forall. intros id Hid. apply Hin in Hid. lia.
    + rewrite list_lookup_insert_eq; [done|]. destruct (p_data p'); [done|simpl; lia].
  - intros id. rewrite Hin. split; intros [? ?]; (split; [lia|done]).
  - intros j Hj Hr. cbn. rewrite list_lookup_insert_ne by lia. apply Hsame; [lia|now right].
Qed.

Lemma repair_free_list_exact_witness :
  let p := mkPager [metaBytes (mkMeta 3 2 9 1); zero_page; zero_page] (mkMeta 3 2 9 1) ∅ false in
  exists p' l, (_ <-- rebuildFreeListFromReachable {[0; 1]} ;; writeMeta) p = (Ok tt, p') /\
    pager_inv p' l /\
    (forall id, id ∈ l <-> 1 <= id < 3 /\ id ∉ ({[0; 1]} : gset Z)) /\
    (forall j, 1 <= j -> j ∈ ({[0; 1]} : gset Z) -> p_data p' !! Z.to_nat j = p_data p !! Z.to_nat j).
Proof.
  intros p. apply (repair_free_list_exact p {[0; 1]}).
  - reflexivity.
  - simpl. unfold maxPages. lia.
  - unfold zlen. simpl. lia.
  - repeat constructor.
  - simpl. lia.
  - unfold metaPageID. set_solver.
Defined.

(** ** Marking terminates *)

Definition in_file (p : Pager) (r : gset Z) : Prop :=
  forall j, j ∈ r -> 0 <= j < PageCount (p_meta p).

Lemma in_file_size p r : in_file p r -> Z.of_nat (size r) <= Z.max 0 (PageCount (p_meta p)).
Proof.
  intros H. rewrite <- (Z2Nat.id (Z.max 0 _)) by lia. apply Nat2Z.inj_le.
  transitivity (size (list_to_set (seqZ 0 (PageCount (p_meta p))) : gset Z)).
  - apply subseteq_size. intros j Hj. apply elem_of_list_to_set, elem_of_seqZ.
    specialize (H j Hj). lia.
  - rewrite size_list_to_set by apply NoDup_seqZ. rewrite length_seqZ. lia.
Qed.

(** What every call guarantees: no fuel shortage, and the marks only grow,
    inside the file. *)
Definition marked_from (p : Pager) (r : gset Z) (o : outcome (gset Z)) : Prop :=
  match o with
  | Ok r' => r ⊆ r' /\ in_file p r'
  | Fuel => False
  | _ => True
  end.

Lemma decodeNode_no_fuel id page : decodeNode id page <> Fuel.
Proof.
  assert (He : forall i, decodeEntry page i <> Fuel).
  { intros i. unfold decodeEntry. repeat case_match; done. }
  assert (Hl : forall typ n i acc, decodeEntries typ page n i acc <> Fuel).
  { intros typ n. induction n as [|n IH]; intros i acc; simpl; [done|].
    pose proof (He i). destruct (decodeEntry page i); simpl; try done.
    repeat case_match; done. }
  unfold decodeNode. repeat case_match; try done.
  match goal with |- context [decodeEntries ?t ?pg ?n ?i ?acc] =>
    pose proof (Hl t n i acc); destruct (decodeEntries t pg n i acc) end; done.
Qed.

Lemma collect_total fuel : forall p id r,
  0 <= id -> PageCount (p_meta p) < Z.of_nat fuel + Z.of_nat (size r) ->
  0 <= PageCount (p_meta p) -> in_file p r ->
  (forall i page n, decodeNode i page = Ok n ->
     0 <= n_next n /\ Forall (fun e => 0 <= e_child e) (n_entries n)) ->
  marked_from p r (collectReachablePages fuel p id r).
Proof.
  induction fuel as [|f IH]; intros p id r Hid Hf Hpc Hin Hdec.
  { pose proof (in_file_size p r Hin). lia. }
  cbn [collectReachablePages]. case_bool_decide as Hm; [simpl; auto|].
  destruct (Z.leb_spec (PageCount (p_meta p)) id) as [|Hlt]; [done|].
  destruct (fst (pageLocked id p)) as [page|e|e|] eqn:Epl; simpl obind; try done.
  2: { unfold pageLocked in Epl. repeat case_match; discriminate. }
  destruct (decodeNode id page) as [node|e|e|] eqn:Ed; simpl obind; try done.
  2: { now destruct (decodeNode_no_fuel id page). }
  destruct (Hdec _ _ _ Ed) as [Hnx Hch].
  assert (Hin' : in_file p (r ∪ {[id]})).
  { intros j Hj. apply elem_of_union in Hj as [Hj|Hj]; [auto|]. apply elem_of_singleton in Hj. lia. }
  assert (Hsz : PageCount (p_meta p) < Z.of_nat f + Z.of_nat (size (r ∪ {[id]}))).
  { rewrite size_union by set_solver. rewrite size_singleton. lia. }
  assert (Hsub : forall o, marked_from p (r ∪ {[id]}) o -> marked_from p r o).
  { intros [r'|e|e|]; simpl; auto. intros [? ?]. split; [set_solver|done]. }
  apply Hsub. case_match.
  { case_match; [now apply IH|simpl; auto]. }
  clear Hsub Hin Hf. revert Hin' Hsz. generalize (r ∪ {[id]}) as q.
  induction Hch as [|e es He Hes IHes]; intros q Hq Hs; [simpl; auto|].
  pose proof (IH p (e_child e) q He Hs Hpc Hq Hdec) as Hc.
  destruct (collectReachablePages f p (e_child e) q) as [q'|x|x|]; simpl in Hc |- *; auto.
  destruct Hc as [Hqq Hq']. pose proof (subseteq_size _ _ Hqq).
  specialize (IHes q' Hq' ltac:(lia)). 
  match goal with |- marked_from _ _ ?o => destruct o as [q2|?|?|] end; simpl in *; auto.
  destruct IHes. split; [set_solver|done].
Qed.

Lemma decodeNode_nonneg id page n :
  decodeNode id page = Ok n -> 0 <= n_next n /\ Forall (fun e => 0 <= e_child e) (n_entries n).
Proof.
  unfold decodeNode. intros H. repeat (case_match; simplify_eq/=; try discriminate).
  apply obind_ok in H as (es & Hes & H). injection H as <-. simpl.
  split; [apply le_decode_bound|].
  assert (Hl : forall typ k i acc out, decodeEntries typ page k i acc = Ok out ->
            Forall (fun e => 0 <= e_child e) acc -> Forall (fun e => 0 <= e_child e) out).
  { intros typ k. induction k as [|k IH]; intros i acc out Ho Ha; simpl in Ho.
    - now injection Ho as <-.
    - apply obind_ok in Ho as (e & He & Ho).
      assert (0 <= e_child e).
      { unfold decodeEntry in He.
        repeat match type of He with
               | (if ?b then _ else _) = _ => destruct b; try discriminate
               end.
        injection He as <-. simpl. unfold get_u64.
        match goal with |- 0 <= le_decode ?l => pose proof (le_decode_bound l) end. lia. }
      destruct (last acc) as [prev|];
        repeat match type of Ho with
               | (if ?b then _ else _) = _ => destruct b; try discriminate
               end;
        apply (IH _ _ _ Ho), Forall_app; auto. }
  eapply Hl; [exact Hes|constructor].
Qed.

(** C38: Marking always terminates, on corrupted files too: from any root page
    the recursion is at most [PageCount + 1] calls deep, cycles included, and
    when it succeeds the marked set contains the metadata page and only pages
    of the file. *)
Theorem repair_marking_terminates (p : Pager) (root : Z)
    (Hroot : 0 <= root) (Hpc : 1 <= PageCount (p_meta p)) :
  match collectReachablePages (S (Z.to_nat (PageCount (p_meta p)))) p root {[ metaPageID ]} with
  | Ok r => metaPageID ∈ r /\ in_file p r
  | Fuel => False
  | _ => True
  end.
Proof.
  pose proof (collect_total (S (Z.to_nat (PageCount (p_meta p)))) p root {[ metaPageID ]} Hroot)
    as H. rewrite size_singleton in H.
  assert (Hm : marked_from p {[metaPageID]} (collectReachablePages
            (S (Z.to_nat (PageCount (p_meta p)))) p root {[ metaPageID ]})).
  { apply H; [lia|lia| |apply decodeNode_nonneg].
    intros j Hj. apply elem_of_singleton in Hj. unfold metaPageID in Hj. lia. }
  unfold marked_from in Hm. case_match; auto. destruct Hm as [Hsub Hin]. split; [set_solver|done].
Qed.

Lemma repair_marking_terminates_witness :
  let p := mkPager [zero_page; zero_page] (mkMeta 2 0 0 1) ∅ false in
  match collectReachablePages (S (Z.to_nat (PageCount (p_meta p)))) p 1 {[ metaPageID ]} with
  | Ok r => metaPageID ∈ r /\ in_file p r
  | Fuel => False
  | _ => True
  end.
Proof. intros p. apply (repair_marking_terminates p 1); simpl; lia. Defined.

(** Repair cannot repair a broken free list: on a two-page file whose
    free count disagrees with its (empty) free list, [Repair] stops with the
    pager's own free-list error before it marks anything. *)
Theorem repair_rejects_broken_free_list :
  let page := fst (writeNode (mkNode 1 nodeLeaf 0 []) (mkPager [zero_page; zero_page] (mkMeta 2 0 0 1) ∅ false)) in
  let leaf := snd (encodeNode (mkNode 1 nodeLeaf 0 []) zero_page) in
  page = Ok tt /\
  Repair "k" {[ "k" := metaBytes (mkMeta 2 0 1 1) ++ leaf ]} = Err "free list count mismatch".
Proof. vm_compute. split; reflexivity. Qed.
