(* ===== verification/FastCDC.v ===== *)
(** * chunk: content-defined chunking

    Models src/internal/chunk/fastcdc.go and gear.go. A reader is the list of
    results its [Read] calls give; a call asked for fewer bytes than the next
    result holds returns what fits and keeps the rest, so every list models
    one way of cutting a stream into reads. *)

From S2P Require Import Prelude.
Local Open Scope Z_scope.

(** gear.go *)
Definition gearTable : list Z :=
  [0x3da2d746e143c8b7; 0xb4d12f1a6c96a55f; 0x7f6ad3c8d9e73a19; 0x1c9f125e42b1d897;
   0x9028c33b0a95d4dd; 0x6ce0890f2f61f4ab; 0xdd0e3f63b2a56c4d; 0x48e7c0a37fbb2f11;
   0x07a4b7d92763f5e3; 0xe7f2d15c34981a0f; 0x5f9172e0c9d8b2a7; 0xa8ce31f719406d5b;
   0x2c014b879a64d3ef; 0xca37e8f5b0129d43; 0x81f49a6c2d7e05b1; 0x19e5d3a8f607bc4f;
   0xf1a6540c98b2e73d; 0x6a30d2bf4c8915e7; 0x4379e1a5bdc0682f; 0xc0927f6b4d3a81e5;
   0x2fa18c7e934bd560; 0xb7d40359e81a6c2f; 0x74be2d19c60f8a35; 0x0de6f8492c5173ab;
   0x9a58b3e1d7420fc6; 0x51c73f0e8a29d4b5; 0xe36d9b1257a0c84f; 0x3b0f5a6c91d2e748;
   0xac852e1f6b49d307; 0x65d7c3a84f109b2e; 0x0f2b8d94e751c6a3; 0xd94017b6c85e2f3a;
   0x8c1f63a0d2b7e945; 0x14d9e27b6f50a3c8; 0xf605c9a12e3b47d8; 0x6b7a30d4c981f25e;
   0x20e8b5f73c16d49a; 0xb3160a8e4d7c95f2; 0x7dc5e92a0f48b631; 0x04a6f3d91b7e2c85;
   0x9f73c0d48b251ae6; 0x56a1e8b03d9c742f; 0xe0c49f715a2d8b36; 0x3d7b2e0c96f1a548;
   0xa713d58e402f9c6b; 0x6ef02b947c1a35d8; 0x078d4c3bfa6192e5; 0xd2b96e1f508a4c73;
   0x8a40f7c2d31e9b56; 0x12e5a8b7c06d3f94; 0xf84c317e9a25d60b; 0x617e0db593c8a24f;
   0x2b95c6f01e7d438a; 0xb0e3a74d8f215c96; 0x79c12f6a30d4e8b5; 0x0176d9c48b3e5a2f;
   0x9c2a4f81d7e063b5; 0x54f8b1c62d0e9a37; 0xeb0d639f27a4c185; 0x35a7e2d90f6b4c81;
   0xa0c516f8b43d7e92; 0x68f3d0a5c91e2b47; 0x0b4e97c2f51a6d38; 0xd7c0a35e8b249f61;
   0x83f6b14d0e7a29c5; 0x1e2d8c7b504fa693; 0xf3a90e6c2b7d4518; 0x6d481f95c0e3a7b2;
   0x25f0c7a91d4e83b6; 0xbd6a12e50f9c7348; 0x7043d8f6a1b92c5e; 0x0a9b5e37c2f0d614;
   0x9517c4e0b86a3d2f; 0x5dca2f7194e06b38; 0xe945b0c68f3d1a27; 0x30f7a1d5c29e846b;
   0xab2e6c03f8d49175; 0x6390d7b41e5a2fc8; 0x09c81f6e35a7d204; 0xd40f73a9c25e81b6;
   0x8e73d1b604f9a25c; 0x16b5a8e2d70c3f91; 0xfb2c0d69a84f1735; 0x6381e4b7c0d29f5a;
   0x2d5a9c10e7b63f84; 0xb62f71d8a3c04e95; 0x7e91c43f0a6d25b8; 0x06d3b8a59f4c710e;
   0x91e0c62a7d3b58f4; 0x59a4f1d8c70e2b63; 0xe27d06b3f9a14c58; 0x3ac9e5f0176b2d84;
   0xa5f14b7e302c9d68; 0x6f3c90a5d8e2174b; 0x0875e2c1b69f4a30; 0xd1a46f8b03c9e572;
   0x8b29f0d74e1a63c5; 0x13c6a95e20f7d4b8; 0xfc0e3b71a6d24985; 0x64b7d8a30f1e95c2;
   0x2f0c85d6b31a7e49; 0xb8174a93e0d6c25f; 0x73d9e2b0f64c1a85; 0x0c5e71a8d3f902b6;
   0x97a3d0e54c8b216f; 0x5e1f8c72b0a6d493; 0xe6c40b9f351a7d28; 0x31b7f2d08e6c954a;
   0xa9d05c7e138b6f24; 0x629e3a0fb5d7c841; 0x0e4b81c6d2f07a95; 0xd6f39a14c82e70b5;
   0x80a7e5d13f4c9b62; 0x18f2b6c90d7a43e5; 0xf5c81e3a62b7d094; 0x6c4d90f7b1e32a85;
   0x24e7b3c01d9f586a; 0xbe1a6d94c3f02758; 0x76c5f018a9d3e42b; 0x00f48b6d27c9a531;
   0x9b6e20d5f8a1437c; 0x53a1d7c40e9f6b82; 0xec7b3901a5d84f26; 0x34d0e6b7c19a258f;
   0xaf08c3d5e7419b62; 0x67b52f0a9e3d8c41; 0x0d1f84c6b72a935e; 0xd8e3a7094c1f6b25;
   0x826f1d95e0b4c73a; 0x1a94c8b30f6d2e57; 0xf02b7e51d8a3c694; 0x6a5d0f83c1e7b249;
   0x22c9a6f07d3b5e81; 0xba704d1e95c2f638; 0x75e2b90c4f18a6d3; 0x0f8a37d6b1c5e204;
   0x90d4f16b8a35c7e2; 0x58b0a7e3d29f4c61; 0xe1f6930d5c87a24b; 0x3c85d2f0a64e1b79;
   0xa6137e9c20d5f84b; 0x6ed8a40f7b1c9352; 0x074c1f96d3e8b25a; 0xd3a50e7b29c6f814;
   0x8d7e2b04f1a693c5; 0x1543c9f6a0d72e8b; 0xf9d6a107c4e82b35; 0x613b8e5d20f7a4c9;
   0x2a8f13c7e5d0b694; 0xb42d7a90c6f1385e; 0x7c61e4b309a5d2f8; 0x05b7c2e8f0149a6d;
   0x9e0a6f35d8b2c741; 0x55c3d9187e0f4a6b; 0xe873a5c02d9f1b46; 0x32f1b70e6c4d95a8;
   0xad4c890f2e7b1365; 0x6540f7d3a9c18e2b; 0x0a2e6b91d4f8c573; 0xd5b7c40e8a2f1963;
   0x8f1a53d7c0e6b924; 0x17e6c92b4f0a3d85; 0xfa3d0b6e91c7f258; 0x62c814f7a30d9e5b;
   0x2c75e0a6d9b31f84; 0xb5f03c8a1e7d2496; 0x7f2a6d91c4e0b538; 0x08d5b3f70a6c1e49;
   0x93c0e51a7f4d86b2; 0x5b6d28f0c3a91e74; 0xe4a1c7d53f0b6892; 0x3f0e92b6d8a45c17;
   0xa8b5d31f6c0e9472; 0x60f79a42d5c81e3b; 0x0c3a81e6b7d40f95; 0xd7e0b51c9a3f6824;
   0x81c49f7a20e6d35b; 0x19a7e3d0f58b4c26; 0xf4e2196b83c0d75a; 0x6e0b5c37a1f8d294].

Definition gear (b : byte) : Z := nth (Z.to_nat (b2z b)) gearTable 0.

Record FastCDC := mkCDC { minSize : Z; avgSize : Z; maxSize : Z; mask : Z }.

Record Chunk := mkChunk { c_offset : Z; c_size : Z; c_data : bytes }.

(** [maskForAverage]: [size] doubles until it reaches [avg]. *)
Fixpoint mask_bits (fuel : nat) (size avg bits : Z) : outcome Z :=
  if size <? avg then
    match fuel with
    | O => Fuel
    | S f => mask_bits f (i64 (Z.shiftl size 1)) avg (bits + 1)
    end
  else Ok bits.

Definition maskForAverage (avg : Z) : outcome Z :=
  bits <~ mask_bits 63 1 avg 0 ;;
  Ok (if bits <=? 0 then 0 else u64 (Z.shiftl 1 bits - 1)).

Definition NewFastCDC (minSize avgSize maxSize : Z) : outcome FastCDC :=
  if minSize <=? 0 then Err "min size must be greater than zero"
  else if avgSize <? minSize then Err "average size must be >= min size"
  else if maxSize <? avgSize then Err "max size must be >= average size"
  else
    m <~ maskForAverage avgSize ;;
    Ok (mkCDC minSize avgSize maxSize m).

Definition DefaultMinSize : Z := 512 * 1024.
Definition DefaultAverageSize : Z := 2 * 1024 * 1024.
Definition DefaultMaxSize : Z := 8 * 1024 * 1024.

Definition NewDefaultFastCDC : outcome FastCDC :=
  m <~ maskForAverage DefaultAverageSize ;;
  Ok (mkCDC DefaultMinSize DefaultAverageSize DefaultMaxSize m).

(** The loop of [boundary] at index [i], over the bytes from [i] to the
    limit. *)
Fixpoint boundary_loop (c : FastCDC) (rest : bytes) (i fp : Z) : Z :=
  match rest with
  | [] => i
  | b :: r =>
      let fp := u64 (u64 (Z.shiftl fp 1) + gear b) in
      if (avgSize c / 2 <=? i) && (Z.land fp (mask c) =? 0) then i + 1
      else boundary_loop c r (i + 1) fp
  end.

Definition boundary (c : FastCDC) (data : bytes) : Z :=
  if zlen data <=? minSize c then zlen data
  else
    let limit := if maxSize c <? zlen data then maxSize c else zlen data in
    boundary_loop c (zslice (minSize c) (limit - minSize c) data) (minSize c) 0.

(** ** Readers *)

Inductive read_result : Type :=
| RData (bs : bytes)               (* n bytes, nil error *)
| REOF (bs : bytes)                (* n bytes, io.EOF *)
| RErr (bs : bytes) (msg : string) (* n bytes, another error *).

Definition result_bytes (r : read_result) : bytes :=
  match r with RData bs | REOF bs | RErr bs _ => bs end.

Definition with_bytes (r : read_result) (bs : bytes) : read_result :=
  match r with RData _ => RData bs | REOF _ => REOF bs | RErr _ m => RErr bs m end.

(** [r.Read(buf[:limit])]: at the end of the list the stream is at EOF. *)
Definition read (limit : Z) (r : list read_result) : read_result * list read_result :=
  match r with
  | [] => (REOF [], [])
  | x :: rest =>
      let bs := result_bytes x in
      if limit <? zlen bs
      then (RData (take (Z.to_nat limit) bs), with_bytes x (drop (Z.to_nat limit) bs) :: rest)
      else (x, rest)
  end.

Definition scratchSize : Z := 64 * 1024.

Record feed := mkFeed { f_buf : bytes; f_eof : bool; f_rest : list read_result }.

(** The inner loop of [ForEach]: fill the buffer. *)
Fixpoint fill (fuel : nat) (c : FastCDC) (s : feed) : outcome feed :=
  if negb (f_eof s) && (zlen (f_buf s) <? maxSize c) then
    match fuel with
    | O => Fuel
    | S f =>
        let remaining := maxSize c - zlen (f_buf s) in
        let limit := if remaining <? scratchSize then remaining else scratchSize in
        let (x, rest) := read limit (f_rest s) in
        let buf := f_buf s ++ result_bytes x in
        match x with
        | REOF _ => Ok (mkFeed buf true rest)
        | RErr _ m => Err m
        | RData bs =>
            if (length bs =? 0)%nat then Ok (mkFeed buf false rest)
            else fill f c (mkFeed buf false rest)
        end
    end
  else Ok s.

(** [ForEach], with the callback in a state monad. *)
Fixpoint forEach_loop {T} (fuel : nat) (c : FastCDC) (fn : Chunk -> M T unit)
    (offset : Z) (s : feed) : M T unit :=
  match fuel with
  | O => mfuel
  | S f =>
      s <-- mlift (fill fuel c s) ;;
      let buf := f_buf s in
      if (length buf =? 0)%nat then mret tt
      else
        let size := boundary c buf in
        _ <-- fn (mkChunk offset size (take (Z.to_nat size) buf)) ;;
        forEach_loop f c fn (i64 (offset + size))
          (mkFeed (drop (Z.to_nat size) buf) (f_eof s) (f_rest s))
  end.

Definition stream_size (r : list read_result) : nat :=
  (length r + sum_list (map (fun x => length (result_bytes x)) r))%nat.

(** Every iteration of either loop consumes a byte or a read. *)
Definition ForEach {T} (c : FastCDC) (r : list read_result) (fn : Chunk -> M T unit) : M T unit :=
  forEach_loop (S (S (stream_size r))) c fn 0 (mkFeed [] false r).

Definition Split (c : FastCDC) (r : list read_result) : outcome unit * list Chunk :=
  ForEach c r (fun chunk chunks => (Ok tt, chunks ++ [chunk])) [].

(** ** Reference: cut the whole stream at once *)

Fixpoint cut (fuel : nat) (c : FastCDC) (offset : Z) (data : bytes) : list Chunk :=
  match fuel, data with
  | O, _ => []
  | _, [] => []
  | S f, _ =>
      let size := boundary c (take (Z.to_nat (maxSize c)) data) in
      mkChunk offset size (take (Z.to_nat size) data)
        :: cut f c (offset + size) (drop (Z.to_nat size) data)
  end.

Definition cuts (c : FastCDC) (data : bytes) : list Chunk := cut (length data) c 0 data.

Definition content (r : list read_result) : bytes := concat (map result_bytes r).

(** Readers that report no error and never return zero bytes without EOF. *)
Fixpoint regular (r : list read_result) : Prop :=
  match r with
  | [] => True
  | RData bs :: r' => bs <> [] /\ regular r'
  | REOF _ :: r' => r' = []
  | RErr _ _ :: _ => False
  end.

Definition cdc_ok (c : FastCDC) : Prop := 0 < minSize c /\ minSize c <= avgSize c <= maxSize c.

(** A callback run over a list of chunks. *)
Fixpoint miter {T} (fn : Chunk -> M T unit) (l : list Chunk) : M T unit :=
  match l with
  | [] => mret tt
  | x :: r => _ <-- fn x ;; miter fn r
  end.

(** ** Bounds of [boundary] *)

Lemma boundary_loop_range c rest : forall i fp,
  i <= boundary_loop c rest i fp <= i + zlen rest /\
  (rest <> [] -> i < boundary_loop c rest i fp).
Proof.
  induction rest as [|b r IH]; intros i fp; cbn [boundary_loop]; cbv zeta.
  - autorewrite with klen. split; [lia|done].
  - autorewrite with klen. case_bool E.
    + pose proof (zlen_nonneg r). lia.
    + destruct (IH (i + 1) (u64 (u64 (Z.shiftl fp 1) + gear b))) as [H _]. lia.
Qed.

Lemma boundary_range c data :
  cdc_ok c -> data <> [] ->
  1 <= boundary c data <= zlen data /\ boundary c data <= maxSize c /\
  (minSize c < zlen data -> minSize c <= boundary c data).
Proof.
  intros (Hmin & Hav) Hne. unfold boundary.
  assert (Hp : 1 <= zlen data) by (unfold zlen; destruct data; [done|simpl; lia]).
  destruct (Z.leb_spec (zlen data) (minSize c)) as [H|H]; [lia|]. cbv zeta.
  set (limit := if maxSize c <? zlen data then maxSize c else zlen data).
  assert (Hl : minSize c <= limit <= zlen data /\ limit <= maxSize c).
  { unfold limit. destruct (Z.ltb_spec (maxSize c) (zlen data)); lia. }
  pose proof (boundary_loop_range c (zslice (minSize c) (limit - minSize c) data)
                (minSize c) 0) as [Hr _].
  rewrite zlen_zslice in Hr by lia. lia.
Qed.

(** ** The buffer loop *)

Lemma content_cons x r : content (x :: r) = result_bytes x ++ content r.
Proof. reflexivity. Qed.

Lemma stream_size_cons x r :
  stream_size (x :: r) = S (length (result_bytes x) + stream_size r).
Proof. unfold stream_size. simpl. lia. Qed.

Lemma with_bytes_bytes x bs : result_bytes (with_bytes x bs) = bs.
Proof. now destruct x. Qed.

(** One read of a regular stream: data that the stream had next, or its end. *)
Lemma read_regular limit r x r' :
  0 < limit -> regular r -> read limit r = (x, r') ->
  regular r' /\ content r = result_bytes x ++ content r' /\ zlen (result_bytes x) <= limit /\
  match x with
  | RData bs => bs <> [] /\ (length bs + stream_size r' <= stream_size r)%nat /\
                (stream_size r' < stream_size r)%nat
  | REOF bs => r' = [] /\ (length bs <= stream_size r)%nat
  | RErr _ _ => False
  end.
Proof.
  intros Hl Hr H. destruct r as [|y r]; simpl in H.
  - injection H as <- <-. split_and!; auto. unfold zlen. simpl. lia.
  - destruct (Z.ltb_spec limit (zlen (result_bytes y))) as [Hlt|Hge]; injection H as <- <-.
    + unfold zlen in Hlt.
      assert (Hn : (Z.to_nat limit < length (result_bytes y))%nat) by lia.
      split_and!; simpl.
      * destruct y as [bs|bs|bs m]; simpl in *; auto. destruct Hr as [_ Hr]. split; [|done].
        intros E. apply (f_equal length) in E. rewrite length_drop in E. simpl in E. lia.
      * rewrite !content_cons, with_bytes_bytes, app_assoc, take_drop. done.
      * unfold zlen. rewrite length_take. lia.
      * intros E. apply (f_equal length) in E. rewrite length_take in E. simpl in E. lia.
      * rewrite !stream_size_cons, with_bytes_bytes, length_take, length_drop. lia.
      * rewrite !stream_size_cons, with_bytes_bytes, length_drop. lia.
    + rewrite content_cons. split_and!; auto.
      * destruct y; simpl in *; [tauto|now subst|done].
      * rewrite stream_size_cons. destruct y as [bs|bs|bs m]; simpl in *; [|now subst; split; [|lia]|done].
        split; [tauto|]. lia.
Qed.

(** State of the two loops. *)
Record feed_ok (c : FastCDC) (s : feed) : Prop := {
  fo_reg : regular (f_rest s);
  fo_eof : f_eof s = true -> content (f_rest s) = [];
  fo_len : zlen (f_buf s) <= maxSize c
}.

Definition pending (s : feed) : bytes := f_buf s ++ content (f_rest s).
Definition feed_size (s : feed) : nat := (length (f_buf s) + stream_size (f_rest s))%nat.

Lemma fill_spec fuel : forall c s,
  feed_ok c s -> (stream_size (f_rest s) < fuel)%nat ->
  exists s', fill fuel c s = Ok s' /\ feed_ok c s' /\ pending s' = pending s /\
    (feed_size s' <= feed_size s)%nat /\
    f_buf s' = take (Z.to_nat (maxSize c)) (pending s).
Proof.
  induction fuel as [|f IH]; intros c s Hok Hf; [lia|].
  pose proof Hok as [Hreg Heof Hlen]. cbn [fill]. destruct (negb (f_eof s) && (zlen (f_buf s) <? maxSize c)) eqn:E.
  2: { exists s. split_and!; auto. apply andb_false_iff in E as [E|E].
       - apply negb_false_iff in E. unfold pending. rewrite (Heof E), app_nil_r.
         rewrite take_ge; [done|]. unfold zlen in Hlen. lia.
       - apply Z.ltb_ge in E. unfold pending. symmetry. apply take_app_length'.
         unfold zlen in *. lia. }
  apply andb_true_iff in E as [E1 E2]. apply Z.ltb_lt in E2. cbv zeta.
  set (limit := if maxSize c - zlen (f_buf s) <? scratchSize then maxSize c - zlen (f_buf s)
                else scratchSize).
  assert (Hlim : 0 < limit <= maxSize c - zlen (f_buf s)).
  { unfold limit, scratchSize.
    destruct (Z.ltb_spec (maxSize c - zlen (f_buf s)) (64 * 1024)); lia. }
  destruct (read limit (f_rest s)) as [x rest] eqn:Er.
  destruct (read_regular limit _ _ _ ltac:(lia) Hreg Er) as (Hreg' & Hcont & Hxl & Hx).
  assert (Hpend : f_buf s ++ content (f_rest s) =
                  (f_buf s ++ result_bytes x) ++ content rest) by (rewrite Hcont; apply app_assoc).
  assert (Hlen' : zlen (f_buf s ++ result_bytes x) <= maxSize c) by (rewrite zlen_app; lia).
  destruct x as [bs|bs|bs m]; [| |done]; simpl in Hxl, Hpend, Hlen'.
  - destruct Hx as (Hne & Hs1 & Hs2).
    destruct (Nat.eqb_spec (length bs) 0) as [H0|_]; [now destruct bs|].
    destruct (IH c (mkFeed (f_buf s ++ bs) false rest)) as (s' & Hfill & Hok' & Hp' & Hsz & Hb).
    { constructor; simpl; auto. done. }
    { simpl. lia. }
    unfold pending in *. simpl in *. exists s'. rewrite Hpend. split_and!; auto.
    + unfold feed_size in *. simpl in *. rewrite length_app in Hsz. lia.
  - destruct Hx as (-> & Hs1). exists (mkFeed (f_buf s ++ bs) true []).
    unfold pending, feed_size in *. simpl in *. rewrite Hpend.
    split_and!; auto.
    + constructor; simpl; auto.
    + rewrite length_app. change (stream_size []) with 0%nat. lia.
    + rewrite app_nil_r. symmetry. apply take_ge. unfold zlen in Hlen'. lia.
Qed.

Lemma boundary_pos c data : cdc_ok c -> data <> [] -> (1 <= Z.to_nat (boundary c data))%nat.
Proof. intros Hc Hne. pose proof (boundary_range c data Hc Hne). lia. Qed.

(** The outer loop runs the callback over the reference chunks of what is
    pending. *)
Lemma forEach_loop_spec {T} (fn : Chunk -> M T unit) c fuel : forall offset s t n,
  cdc_ok c -> feed_ok c s -> (feed_size s < fuel)%nat -> (length (pending s) <= n)%nat ->
  0 <= offset -> offset + zlen (pending s) < 2 ^ 63 ->
  forEach_loop fuel c fn offset s t = miter fn (cut n c offset (pending s)) t.
Proof.
  induction fuel as [|f IH]; intros offset s t n Hc Hok Hf Hn Ho Hsz; [lia|].
  cbn [forEach_loop].
  destruct (fill_spec (S f) c s Hok) as (s' & Hfill & Hok' & Hpend & Hfs & Hbuf).
  { unfold feed_size in Hf. lia. }
  rewrite Hfill. erewrite mbind_step by reflexivity. cbv zeta.
  assert (Hmax : (1 <= Z.to_nat (maxSize c))%nat) by (destruct Hc; lia).
  destruct (pending s) as [|b data] eqn:Ep.
  { rewrite Hbuf, take_nil. destruct n; reflexivity. }
  rewrite <- Ep in *.
  destruct n as [|n]; [rewrite Ep in Hn; simpl in Hn; lia|].
  assert (Hne : f_buf s' <> []).
  { rewrite Hbuf, Ep. destruct (Z.to_nat (maxSize c)); [lia|done]. }
  destruct (Nat.eqb_spec (length (f_buf s')) 0) as [H0|_]; [now destruct (f_buf s')|].
  pose proof (boundary_range c _ Hc Hne) as (Hb & Hbm & _).
  assert (Hcut : cut (S n) c offset (pending s) =
            mkChunk offset (boundary c (f_buf s'))
              (take (Z.to_nat (boundary c (f_buf s'))) (f_buf s'))
            :: cut n c (offset + boundary c (f_buf s'))
                 (drop (Z.to_nat (boundary c (f_buf s'))) (pending s))).
  { rewrite Ep. cbn [cut]. rewrite <- Ep, <- Hbuf. f_equal. f_equal.
    rewrite <- Hpend. apply take_app_le. unfold zlen in Hb. lia. }
  rewrite Hcut. cbn [miter]. unfold mbind.
  destruct (fn _ t) as [[[]|e|e|] t']; try reflexivity.
  assert (Hdrop : drop (Z.to_nat (boundary c (f_buf s'))) (pending s) =
                  drop (Z.to_nat (boundary c (f_buf s'))) (f_buf s') ++ content (f_rest s')).
  { rewrite <- Hpend. unfold pending. apply drop_app_le. unfold zlen in Hb. lia. }
  assert (Hsz' : zlen (pending s) = boundary c (f_buf s') +
            zlen (drop (Z.to_nat (boundary c (f_buf s'))) (pending s))).
  { unfold zlen. rewrite length_drop.
    assert (length (f_buf s') <= length (pending s))%nat.
    { rewrite <- Hpend. unfold pending. rewrite length_app. lia. }
    unfold zlen in Hb. lia. }
  pose proof (zlen_nonneg (drop (Z.to_nat (boundary c (f_buf s'))) (pending s))).
  rewrite i64_id by lia. rewrite Hdrop.
  set (s2 := mkFeed (drop (Z.to_nat (boundary c (f_buf s'))) (f_buf s')) (f_eof s') (f_rest s')).
  change (drop (Z.to_nat (boundary c (f_buf s'))) (f_buf s') ++ content (f_rest s'))
    with (pending s2).
  assert (Hp2 : pending s2 = drop (Z.to_nat (boundary c (f_buf s'))) (pending s)) by now rewrite Hdrop.
  apply IH; auto.
  - destruct Hok' as [H1 H2 H3]. constructor; simpl; auto. unfold zlen in *.
    rewrite length_drop. lia.
  - unfold feed_size in *. simpl. rewrite length_drop. unfold zlen in Hb. lia.
  - rewrite Hp2, length_drop. lia.
  - lia.
  - rewrite Hp2. lia.
Qed.

Lemma ForEach_reference {T} c r (fn : Chunk -> M T unit) t :
  cdc_ok c -> regular r -> zlen (content r) < 2 ^ 63 ->
  ForEach c r fn t = miter fn (cuts c (content r)) t.
Proof.
  intros Hc Hr Hsz. unfold ForEach, cuts.
  change (content r) with (pending (mkFeed [] false r)) at 2.
  apply forEach_loop_spec; auto.
  - constructor; simpl; auto; [done|]. unfold zlen. simpl. destruct Hc. lia.
  - unfold feed_size. simpl. lia.
Qed.

Lemma miter_append l : forall acc,
  miter (fun x acc => (Ok tt, acc ++ [x])) l acc = (Ok tt, acc ++ l).
Proof.
  induction l as [|x l IH]; intros acc; simpl; [now rewrite app_nil_r|].
  unfold mbind. rewrite IH. now rewrite <- app_assoc.
Qed.

(** ** Shape of the reference chunks *)

(** Chunks laid end to end from [offset]. *)
Fixpoint laid_out (c : FastCDC) (offset : Z) (l : list Chunk) : Prop :=
  match l with
  | [] => True
  | x :: r =>
      c_offset x = offset /\ c_size x = zlen (c_data x) /\ 1 <= c_size x <= maxSize c /\
      (r <> [] -> minSize c <= c_size x) /\ laid_out c (offset + c_size x) r
  end.

Lemma cut_shape c n : forall offset data,
  cdc_ok c -> (length data <= n)%nat ->
  concat (map c_data (cut n c offset data)) = data /\ laid_out c offset (cut n c offset data).
Proof.
  induction n as [|n IH]; intros offset data Hc Hn.
  { destruct data; [done|simpl in Hn; lia]. }
  destruct data as [|b data]; [done|]. remember (b :: data) as d eqn:Ed.
  assert (Hne : take (Z.to_nat (maxSize c)) d <> []).
  { subst d. destruct Hc as [? ?]. destruct (Z.to_nat (maxSize c)) eqn:E; [lia|done]. }
  pose proof (boundary_range c _ Hc Hne) as (Hb & Hbm & Hmin).
  set (size := boundary c (take (Z.to_nat (maxSize c)) d)) in *.
  assert (Hl : zlen (take (Z.to_nat (maxSize c)) d) <= zlen d).
  { unfold zlen. rewrite length_take. lia. }
  assert (Hcut : cut (S n) c offset d =
            mkChunk offset size (take (Z.to_nat size) d)
            :: cut n c (offset + size) (drop (Z.to_nat size) d)).
  { subst d. reflexivity. }
  destruct (IH (offset + size) (drop (Z.to_nat size) d) Hc) as [IH1 IH2].
  { rewrite length_drop. subst d. simpl in *. lia. }
  rewrite Hcut. simpl. split; [now rewrite IH1, take_drop|].
  assert (Hsz : size = zlen (take (Z.to_nat size) d)).
  { unfold zlen in *. rewrite length_take. lia. }
  split_and!; auto; try lia. intros Hrest.
  (* a further chunk means the buffer was longer than the minimum *)
  destruct (Z.le_gt_cases (zlen (take (Z.to_nat (maxSize c)) d)) (minSize c)) as [Hle|];
    [|apply Hmin; lia].
  assert (size = zlen (take (Z.to_nat (maxSize c)) d)) as Hs.
  { unfold size, boundary. destruct (Z.leb_spec (zlen (take (Z.to_nat (maxSize c)) d)) (minSize c)); lia. }
  destruct Hc as [? ?].
  assert (Hd : drop (Z.to_nat size) d = [] \/ zlen (take (Z.to_nat (maxSize c)) d) = maxSize c).
  { rewrite Hs. unfold zlen in *. rewrite length_take in *.
    destruct (decide (length d <= Z.to_nat (maxSize c))%nat); [left; apply drop_ge; lia|right; lia]. }
  destruct Hd as [Hd|Hd]; [rewrite Hd in Hrest; destruct n; done|lia].
Qed.

(** Chunking loses nothing and respects the size bounds: for every reader
    that reports no error (and no empty non-EOF read), [Split] terminates
    without error, the chunk data concatenated in order is the stream, the
    offsets are consecutive from 0, every recorded size is the data's length,
    between 1 and the maximum, and every chunk but the last is at least the
    minimum size. *)
Theorem split_reassembles (c : FastCDC) (r : list read_result)
    (Hc : cdc_ok c) (Hr : regular r) (Hsz : zlen (content r) < 2 ^ 63) :
  exists chunks, Split c r = (Ok tt, chunks) /\
    concat (map c_data chunks) = content r /\ laid_out c 0 chunks.
Proof.
  exists (cuts c (content r)). split.
  - unfold Split. rewrite ForEach_reference by auto. apply miter_append.
  - apply cut_shape; auto.
Qed.

Definition tiny : FastCDC := mkCDC 2 4 8 3.

Lemma split_reassembles_witness :
  exists chunks, Split tiny [RData [Byte.x01; Byte.x02]; REOF [Byte.x03]] = (Ok tt, chunks) /\
    concat (map c_data chunks) = [Byte.x01; Byte.x02; Byte.x03] /\ laid_out tiny 0 chunks.
Proof.
  apply (split_reassembles tiny [RData [Byte.x01; Byte.x02]; REOF [Byte.x03]]).
  - unfold cdc_ok. simpl. lia.
  - simpl. split; [discriminate|reflexivity].
  - vm_compute. reflexivity.
Defined.

(** Chunk boundaries depend on the bytes only: two readers that deliver
    the same stream in different read sizes give the same chunks, so the same
    content deduplicates however it arrives. *)
Theorem split_read_size_independent (c : FastCDC) (r1 r2 : list read_result)
    (Hc : cdc_ok c) (H1 : regular r1) (H2 : regular r2)
    (Heq : content r1 = content r2) (Hsz : zlen (content r1) < 2 ^ 63) :
  Split c r1 = Split c r2.
Proof.
  unfold Split. rewrite !ForEach_reference by (auto; congruence). now rewrite Heq.
Qed.

Lemma split_read_size_independent_witness :
  Split tiny [RData [Byte.x01]; RData [Byte.x02]; REOF []] =
  Split tiny [REOF [Byte.x01; Byte.x02]].
Proof.
  apply (split_read_size_independent tiny [RData [Byte.x01]; RData [Byte.x02]; REOF []]
           [REOF [Byte.x01; Byte.x02]]).
  - unfold cdc_ok. simpl. lia.
  - simpl. repeat split; discriminate.
  - reflexivity.
  - reflexivity.
  - vm_compute. reflexivity.
Defined.

(** ** The mask *)

Lemma mask_bits_spec fuel : forall k avg,
  0 <= k -> 1 <= avg <= 2 ^ 62 -> (k = 0 \/ 2 ^ (k - 1) < avg) -> 62 - k < Z.of_nat fuel ->
  mask_bits fuel (2 ^ k) avg k = Ok (Z.log2_up avg).
Proof.
  induction fuel as [|f IH]; intros k avg Hk Ha Hp Hf; [|cbn [mask_bits]].
  - (* k > 62 *)
    destruct Hp as [->|Hp]; [lia|]. exfalso.
    assert (2 ^ 62 <= 2 ^ (k - 1)) by (apply Z.pow_le_mono_r; lia). lia.
  - destruct (Z.ltb_spec (2 ^ k) avg) as [Hlt|Hge].
    + assert (Hk62 : k < 62).
      { destruct (Z.lt_ge_cases k 62); [done|]. exfalso.
        assert (2 ^ 62 <= 2 ^ k) by (apply Z.pow_le_mono_r; lia). lia. }
      rewrite Z.shiftl_mul_pow2 by lia. replace (2 ^ k * 2 ^ 1) with (2 ^ (k + 1))
        by (rewrite Z.pow_add_r by lia; lia).
      rewrite i64_id.
      2: { assert (2 ^ (k + 1) <= 2 ^ 62) by (apply Z.pow_le_mono_r; lia). lia. }
      apply IH; try lia. right. now replace (k + 1 - 1) with k by lia.
    + f_equal. destruct Hp as [->|Hp].
      * simpl in Hge. replace avg with 1 by lia. reflexivity.
      * destruct (decide (k = 0)) as [->|].
        { simpl in Hge. replace avg with 1 by lia. reflexivity. }
        symmetry. apply Z.log2_up_unique; [lia|]. rewrite <- Z.sub_1_r. lia.
Qed.

(** The mask loop terminates for every average size up to 2^62 and gives
    the low [log2_up avg] bits, so [NewFastCDC] on valid sizes succeeds and
    asks for as many zero bits as the average size has binary digits. *)
Theorem new_fastcdc_mask (mn avg mx : Z)
    (Hmn : 0 < mn) (Ha : mn <= avg) (Hm : avg <= mx) (Hb : avg <= 2 ^ 62) :
  NewFastCDC mn avg mx = Ok (mkCDC mn avg mx (2 ^ Z.log2_up avg - 1)).
Proof.
  unfold NewFastCDC. destruct (Z.leb_spec mn 0); [lia|].
  destruct (Z.ltb_spec avg mn); [lia|]. destruct (Z.ltb_spec mx avg); [lia|].
  unfold maskForAverage. change 1 with (2 ^ 0) at 1.
  rewrite (mask_bits_spec 63 0 avg) by (auto; lia). simpl obind. f_equal. f_equal.
  pose proof (Z.log2_up_nonneg avg). destruct (Z.leb_spec (Z.log2_up avg) 0) as [Hl|Hl].
  - replace (Z.log2_up avg) with 0 by lia. reflexivity.
  - rewrite Z.shiftl_1_l. apply u64_id.
    assert (2 ^ 0 <= 2 ^ Z.log2_up avg) by (apply Z.pow_le_mono_r; lia).
    assert (Z.log2_up avg <= 62) by (apply Z.log2_up_le_pow2; lia).
    assert (2 ^ Z.log2_up avg <= 2 ^ 62) by (apply Z.pow_le_mono_r; lia). lia.
Qed.

Lemma new_fastcdc_mask_witness :
  NewFastCDC 512 3000 8192 = Ok (mkCDC 512 3000 8192 (2 ^ Z.log2_up 3000 - 1)).
Proof. apply (new_fastcdc_mask 512 3000 8192); lia. Defined.

(** ** Departures *)

(** A read that returns no bytes and no error, which the reader contract
    allows, ends the stream when the buffer is empty: the bytes after it are
    dropped and [Split] reports success. *)
Theorem split_drops_after_empty_read :
  Split tiny [RData []; REOF [Byte.x01; Byte.x02; Byte.x03]] = (Ok tt, []).
Proof. vm_compute. reflexivity. Qed.

Lemma gear_high b : 180 <= b2z b -> gear b = 0.
Proof.
  intros Hb. unfold gear. apply nth_overflow. change (length gearTable) with 180%nat. lia.
Qed.

Lemma boundary_loop_high c rest : forall i,
  Forall (fun b => 180 <= b2z b) rest -> rest <> [] -> avgSize c / 2 <= i ->
  boundary_loop c rest i 0 = i + 1.
Proof.
  intros i Hr Hne Hi. destruct rest as [|b r]; [done|]. inv Hr. cbn [boundary_loop].
  rewrite gear_high by done. cbn. destruct (Z.leb_spec (avgSize c / 2) i); [|lia]. done.
Qed.

(** The gear table has only 180 of its 256 entries; the others are zero.
    On data whose bytes are all 180 or above the fingerprint stays zero, so a
    chunker with a minimum of at least half the average cuts every chunk one
    byte after the minimum, whatever the data. *)
Theorem high_bytes_cut_at_minimum (c : FastCDC) (data : bytes)
    (Hc : cdc_ok c) (Hh : Forall (fun b => 180 <= b2z b) data)
    (Hav : avgSize c / 2 <= minSize c < maxSize c) (Hl : minSize c < zlen data) :
  boundary c data = minSize c + 1.
Proof.
  unfold boundary. destruct (Z.leb_spec (zlen data) (minSize c)); [lia|]. cbv zeta.
  destruct Hc as [Hmin _].
  apply boundary_loop_high; [| |lia].
  - apply Forall_take, Forall_drop, Hh.
  - intros E. apply (f_equal zlen) in E. rewrite zlen_nil in E.
    destruct (Z.ltb_spec (maxSize c) (zlen data)); rewrite zlen_zslice in E; lia.
Qed.

Lemma high_bytes_cut_at_minimum_witness :
  boundary tiny (replicate 6 Byte.xff) = 3.
Proof.
  apply (high_bytes_cut_at_minimum tiny (replicate 6 Byte.xff)).
  - unfold cdc_ok. simpl. lia.
  - repeat constructor; vm_compute; discriminate.
  - split; vm_compute; congruence.
  - vm_compute. reflexivity.
Defined.
