(* ===== verification/ChunkIndex.v ===== *)
(** * chunk: deduplication index and Bloom filter

    Models src/internal/chunk/index.go. The mutex of [Index] makes each
    method one step. *)

From S2P Require Import Prelude.
Local Open Scope Z_scope.

(** hash/fnv, 64 bit: FNV-1a and FNV-1. *)
Definition fnvOffset : Z := 14695981039346656037.
Definition fnvPrime : Z := 1099511628211.

Definition fnv1a (data : bytes) : Z :=
  foldl (fun h b => u64 (Z.lxor h (b2z b) * fnvPrime)) fnvOffset data.
Definition fnv1 (data : bytes) : Z :=
  foldl (fun h b => Z.lxor (u64 (h * fnvPrime)) (b2z b)) fnvOffset data.

Definition bloomHashes (data : bytes) : Z * Z :=
  let h1 := fnv1a data in
  let h2 := fnv1 (le_encode 8 (zlen data) ++ data) in
  (h1, if h2 =? 0 then 11400714819323198485 else h2).

Record BloomFilter := mkBloom { bl_bits : list Z; bl_nbits : Z; bl_hashes : Z }.

Definition NewBloomFilter (bitCount hashCount : Z) : outcome BloomFilter :=
  if bitCount <=? 0 then Err "bloom bit count must be greater than zero"
  else if hashCount <=? 0 then Err "bloom hash count must be greater than zero"
  else Ok (mkBloom (replicate (Z.to_nat ((bitCount + 63) / 64)) 0) bitCount hashCount).

(** The bit that probe [i] looks at. *)
Definition probe (b : BloomFilter) (h : Z * Z) (i : Z) : Z :=
  u64 (fst h + u64 (i * snd h)) mod bl_nbits b.

Definition set_bit (bits : list Z) (idx : Z) : list Z :=
  alter (fun w => Z.lor w (Z.shiftl 1 (idx mod 64))) (Z.to_nat (idx / 64)) bits.

(** [b.bits[idx/64] & (1 << (idx%64)) != 0]; an index beyond the slice would
    panic, [probe_in_range] shows it cannot happen. *)
Definition test_bit (bits : list Z) (idx : Z) : bool :=
  match bits !! Z.to_nat (idx / 64) with
  | Some w => negb (Z.land w (Z.shiftl 1 (idx mod 64)) =? 0)
  | None => false
  end.

Definition probes (b : BloomFilter) (data : bytes) : list Z :=
  let h := bloomHashes data in map (probe b h) (seqZ 0 (bl_hashes b)).

Definition BloomAdd (b : BloomFilter) (data : bytes) : BloomFilter :=
  mkBloom (foldl set_bit (bl_bits b) (probes b data)) (bl_nbits b) (bl_hashes b).

Definition BloomMaybeContains (b : BloomFilter) (data : bytes) : bool :=
  forallb (test_bit (bl_bits b)) (probes b data).

Record Index := mkIndex { ix_entries : gset bytes; ix_bloom : BloomFilter }.

Definition NewIndex (expectedEntries : Z) : outcome Index :=
  let n := if expectedEntries <=? 0 then 1 else expectedEntries in
  bloom <~ NewBloomFilter (n * 10) 7 ;;
  Ok (mkIndex ∅ bloom).

Definition IndexAdd (i : Index) (hash : bytes) : bool * Index :=
  if bool_decide (hash ∈ ix_entries i) then (false, i)
  else (true, mkIndex (ix_entries i ∪ {[ hash ]}) (BloomAdd (ix_bloom i) hash)).

Definition IndexContains (i : Index) (hash : bytes) : bool :=
  if negb (BloomMaybeContains (ix_bloom i) hash) then false
  else bool_decide (hash ∈ ix_entries i).

Definition IndexMaybeContains (i : Index) (hash : bytes) : bool :=
  BloomMaybeContains (ix_bloom i) hash.

Definition IndexLen (i : Index) : Z := Z.of_nat (size (ix_entries i)).

(** ** Bits *)

Record bloom_ok (b : BloomFilter) : Prop := {
  bo_pos : 0 < bl_nbits b;
  bo_words : bl_nbits b <= 64 * zlen (bl_bits b);
  bo_nonneg : Forall (fun w => 0 <= w) (bl_bits b)
}.

Lemma probe_in_range b h i : bloom_ok b -> 0 <= probe b h i < 64 * zlen (bl_bits b).
Proof.
  intros [Hp Hw _]. unfold probe.
  pose proof (Z.mod_pos_bound (u64 (fst h + u64 (i * snd h))) (bl_nbits b) Hp). lia.
Qed.

Lemma test_bit_spec bits idx :
  0 <= idx < 64 * zlen bits -> Forall (fun w => 0 <= w) bits ->
  test_bit bits idx = match bits !! Z.to_nat (idx / 64) with
                      | Some w => Z.testbit w (idx mod 64) | None => false end.
Proof.
  intros Hi Hn. unfold test_bit. destruct (bits !! Z.to_nat (idx / 64)) as [w|] eqn:E; [|done].
  pose proof (Z.mod_pos_bound idx 64 ltac:(lia)) as Hm.
  rewrite Z.shiftl_1_l. destruct (Z.testbit w (idx mod 64)) eqn:T.
  - apply negb_true_iff, Z.eqb_neq. intros H0.
    assert (Ht : Z.testbit (Z.land w (2 ^ (idx mod 64))) (idx mod 64) = true).
    { rewrite Z.land_spec, T, Z.pow2_bits_true by lia. done. }
    now rewrite H0, Z.bits_0 in Ht.
  - apply negb_false_iff, Z.eqb_eq. apply Z.bits_inj'. intros n Hnn.
    rewrite Z.land_spec, Z.bits_0, Z.pow2_bits_eqb by lia.
    destruct (Z.eqb_spec (idx mod 64) n) as [<-|]; [now rewrite T|now rewrite andb_false_r].
Qed.

Lemma set_bit_length bits idx : length (set_bit bits idx) = length bits.
Proof. apply length_alter. Qed.

Lemma set_bit_nonneg bits idx :
  Forall (fun w => 0 <= w) bits -> Forall (fun w => 0 <= w) (set_bit bits idx).
Proof.
  intros H. unfold set_bit. apply Forall_alter; [done|]. intros w _ Hw.
  apply Z.lor_nonneg. split; [done|]. apply Z.shiftl_nonneg. lia.
Qed.

Lemma set_bit_lookup bits idx j :
  0 <= idx -> set_bit bits idx !! j =
  if decide (j = Z.to_nat (idx / 64))
  then (fun w => Z.lor w (2 ^ (idx mod 64))) <$> bits !! j else bits !! j.
Proof.
  intros Hi. unfold set_bit. destruct (decide (j = Z.to_nat (idx / 64))) as [E|E].
  - subst. rewrite list_lookup_alter_eq. destruct (bits !! _); simpl; [|done].
    now rewrite Z.shiftl_1_l.
  - now rewrite list_lookup_alter_ne.
Qed.

(** Setting a bit makes its test true and never clears another. *)
Lemma set_bit_test bits idx idx' :
  0 <= idx < 64 * zlen bits -> 0 <= idx' < 64 * zlen bits ->
  Forall (fun w => 0 <= w) bits ->
  idx = idx' \/ test_bit bits idx' = true -> test_bit (set_bit bits idx) idx' = true.
Proof.
  intros Hi Hi' Hn Hor.
  assert (Hl : zlen (set_bit bits idx) = zlen bits) by (unfold zlen; now rewrite set_bit_length).
  pose proof (Z.mod_pos_bound idx 64 ltac:(lia)). pose proof (Z.mod_pos_bound idx' 64 ltac:(lia)).
  rewrite test_bit_spec by (try apply set_bit_nonneg; auto; lia).
  rewrite set_bit_lookup by lia.
  assert (Hlt : (Z.to_nat (idx' / 64) < length bits)%nat).
  { unfold zlen in Hi'. pose proof (Z.div_pos idx' 64). assert (idx' / 64 < Z.of_nat (length bits)) by (apply Z.div_lt_upper_bound; lia). lia. }
  destruct (lookup_lt_is_Some_2 bits _ Hlt) as [w Hw]. rewrite Hw.
  assert (Hold : test_bit bits idx' = true -> Z.testbit w (idx' mod 64) = true).
  { rewrite test_bit_spec by auto. now rewrite Hw. }
  case_decide as E; simpl.
  - rewrite Z.lor_spec, Z.pow2_bits_eqb by lia.
    destruct Hor as [->|Ht]; [now rewrite Z.eqb_refl, orb_true_r|now rewrite Hold].
  - destruct Hor as [->|Ht]; [done|auto].
Qed.

Definition in_bits (bits : list Z) (idx : Z) : Prop := 0 <= idx < 64 * zlen bits.

Lemma set_bits_test l : forall bits idx,
  Forall (in_bits bits) l -> in_bits bits idx -> Forall (fun w => 0 <= w) bits ->
  In idx l \/ test_bit bits idx = true -> test_bit (foldl set_bit bits l) idx = true.
Proof.
  induction l as [|x l IH]; intros bits idx Hl Hi Hn Hor; simpl.
  - destruct Hor; [done|auto].
  - inv Hl. assert (Hz : zlen (set_bit bits x) = zlen bits) by (unfold zlen; now rewrite set_bit_length).
    apply IH.
    + eapply Forall_impl; [exact H2|]. unfold in_bits. intros. now rewrite Hz.
    + unfold in_bits in *. now rewrite Hz.
    + now apply set_bit_nonneg.
    + destruct Hor as [[->|Hin]|Ht]; auto; right; apply set_bit_test; auto.
Qed.

Lemma set_bits_shape l : forall bits,
  length (foldl set_bit bits l) = length bits /\
  (Forall (fun w => 0 <= w) bits -> Forall (fun w => 0 <= w) (foldl set_bit bits l)).
Proof.
  induction l as [|x l IH]; intros bits; simpl; [auto|].
  destruct (IH (set_bit bits x)) as [H1 H2]. rewrite H1, set_bit_length.
  split; [done|]. intros H. now apply H2, set_bit_nonneg.
Qed.

Lemma BloomAdd_ok b data : bloom_ok b -> bloom_ok (BloomAdd b data).
Proof.
  intros [H1 H2 H3]. destruct (set_bits_shape (probes b data) (bl_bits b)) as [Hl Hn].
  constructor; simpl; auto. unfold zlen. now rewrite Hl.
Qed.

Lemma probes_in_bits b data : bloom_ok b -> Forall (in_bits (bl_bits b)) (probes b data).
Proof.
  intros Hb. apply Forall_map, Forall_forall. intros i _. now apply probe_in_range.
Qed.

Lemma BloomAdd_contains b data data' :
  bloom_ok b -> data = data' \/ BloomMaybeContains b data' = true ->
  BloomMaybeContains (BloomAdd b data) data' = true.
Proof.
  intros Hb Hor. unfold BloomMaybeContains. apply forallb_forall. intros idx Hin.
  change (probes (BloomAdd b data) data') with (probes b data') in Hin. simpl.
  pose proof (probes_in_bits b data Hb) as Hp. pose proof (probes_in_bits b data' Hb) as Hp'.
  apply set_bits_test; auto.
  - rewrite Forall_forall in Hp'. apply Hp'. now apply list_elem_of_In.
  - apply bo_nonneg, Hb.
  - destruct Hor as [->|Ht]; [now left|right].
    unfold BloomMaybeContains in Ht. rewrite forallb_forall in Ht. auto.
Qed.

(** ** The index *)

Record index_ok (i : Index) : Prop := {
  io_bloom : bloom_ok (ix_bloom i);
  io_covered : forall h, h ∈ ix_entries i -> BloomMaybeContains (ix_bloom i) h = true
}.

Lemma IndexAdd_ok i h : index_ok i -> index_ok (snd (IndexAdd i h)).
Proof.
  intros [Hb Hc]. unfold IndexAdd. case_bool_decide; simpl; [done|].
  constructor; simpl; [now apply BloomAdd_ok|].
  intros h' Hh'. apply BloomAdd_contains; [done|].
  apply elem_of_union in Hh' as [Hh'|Hh']; [right; auto|left]. set_solver.
Qed.

Lemma NewIndex_ok n : exists i, NewIndex n = Ok i /\ index_ok i /\ ix_entries i = ∅.
Proof.
  unfold NewIndex. set (k := if n <=? 0 then 1 else n).
  assert (Hk : 1 <= k) by (unfold k; destruct (Z.leb_spec n 0); lia).
  unfold NewBloomFilter. destruct (Z.leb_spec (k * 10) 0); [lia|].
  change (7 <=? 0) with false. cbv iota. simpl obind. eexists. split; [reflexivity|].
  split; [|done]. constructor; [constructor|]; simpl.
  - lia.
  - unfold zlen. rewrite length_replicate.
    assert (0 <= (k * 10 + 63) / 64) by (apply Z.div_pos; lia).
    pose proof (Z.div_mod (k * 10 + 63) 64). pose proof (Z.mod_pos_bound (k * 10 + 63) 64). lia.
  - apply Forall_replicate. lia.
  - set_solver.
Qed.

Definition adds (i : Index) (l : list bytes) : Index := foldl (fun i h => snd (IndexAdd i h)) i l.

Lemma adds_ok l : forall i, index_ok i -> index_ok (adds i l) /\
  ix_entries (adds i l) = ix_entries i ∪ list_to_set l.
Proof.
  induction l as [|h l IH]; intros i Hi; simpl; [split; [done|set_solver]|].
  destruct (IH _ (IndexAdd_ok i h Hi)) as [H1 H2]. split; [done|]. rewrite H2.
  unfold IndexAdd. case_bool_decide; simpl; set_solver.
Qed.

Lemma IndexContains_entries i h :
  index_ok i -> IndexContains i h = bool_decide (h ∈ ix_entries i).
Proof.
  intros [_ Hc]. unfold IndexContains. destruct (BloomMaybeContains (ix_bloom i) h) eqn:E; [done|].
  symmetry. apply bool_decide_eq_false_2. intros Hin. now rewrite Hc in E.
Qed.

(** The deduplication index is exact although it asks a Bloom filter
    first: after any sequence of additions to a new index of any size hint,
    [Contains] answers true for exactly the added hashes, [MaybeContains]
    never misses one, [Len] counts the distinct ones, and [Add] reports a hash
    as new exactly when it was not added before. *)
Theorem index_exact (n : Z) (l : list bytes) (h : bytes) :
  exists i, NewIndex n = Ok i /\
    (IndexContains (adds i l) h = true <-> h ∈ l) /\
    (h ∈ l -> IndexMaybeContains (adds i l) h = true) /\
    (fst (IndexAdd (adds i l) h) = true <-> h ∉ l) /\
    IndexLen (adds i l) = Z.of_nat (size (list_to_set l : gset bytes)).
Proof.
  destruct (NewIndex_ok n) as (i & Hn & Hi & He). exists i. split; [done|].
  destruct (adds_ok l i Hi) as [Hok Hent]. rewrite He, (left_id_L ∅ (∪)) in Hent.
  split_and!.
  - rewrite IndexContains_entries, bool_decide_eq_true, Hent by done. set_solver.
  - intros Hin. apply Hok. rewrite Hent. set_solver.
  - unfold IndexAdd. rewrite Hent. case_bool_decide as Hd; simpl; set_solver.
  - unfold IndexLen. now rewrite Hent.
Qed.
