(* ===== verification/ChunkHash.v ===== *)
(** * chunk: content hashes and their text form

    Models src/internal/chunk/hash.go (with encoding/hex) and [contentKey] of
    pipeline.go. BLAKE3 itself is a parameter of the components that use
    it. Go strings are byte lists here. *)

From S2P Require Import Prelude.
Local Open Scope Z_scope.

Definition HashSize : Z := 32.

(** "0123456789abcdef" *)
Definition hexDigit (n : Z) : byte := z2b (if n <? 10 then 48 + n else 87 + n).

Definition hexValue (b : byte) : option Z :=
  let c := b2z b in
  if (48 <=? c) && (c <=? 57) then Some (c - 48)
  else if (97 <=? c) && (c <=? 102) then Some (c - 87)
  else if (65 <=? c) && (c <=? 70) then Some (c - 55)
  else None.

(** hex.EncodeToString *)
Fixpoint hexEncode (bs : bytes) : bytes :=
  match bs with
  | [] => []
  | b :: r => hexDigit (b2z b / 16) :: hexDigit (b2z b mod 16) :: hexEncode r
  end.

(** hex.DecodeString *)
Fixpoint hexDecode (s : bytes) : outcome bytes :=
  match s with
  | [] => Ok []
  | [c] => match hexValue c with
           | None => Err "encoding/hex: invalid byte"
           | Some _ => Err "encoding/hex: odd length hex string"
           end
  | a :: b :: r =>
      match hexValue a, hexValue b with
      | Some x, Some y => rest <~ hexDecode r ;; Ok (z2b (16 * x + y) :: rest)
      | _, _ => Err "encoding/hex: invalid byte"
      end
  end.

(** [Hash.String] *)
Definition hashString (h : bytes) : bytes := hexEncode h.

Definition ParseHash (value : bytes) : outcome bytes :=
  data <~ hexDecode value ;;
  if negb (zlen data =? HashSize) then Err "hash must be 32 bytes" else Ok data.

(** "data/" and "/" *)
Definition dataPrefix : bytes := [Byte.x64; Byte.x61; Byte.x74; Byte.x61; Byte.x2f].
Definition slash : bytes := [Byte.x2f].

Definition contentKey (hash : bytes) : bytes :=
  let value := hashString hash in
  dataPrefix ++ take 2 value ++ slash ++ take 2 (drop 2 value) ++ slash ++ value.

#[global] Arguments contentKey : simpl never.

(** ** Round trip *)

Lemma hexValue_digit n : 0 <= n < 16 -> hexValue (hexDigit n) = Some n.
Proof.
  intros Hn. unfold hexValue, hexDigit. cbv zeta.
  destruct (Z.ltb_spec n 10); rewrite b2z_z2b, Z.mod_small by lia;
    repeat match goal with |- context [?a <=? ?b] => destruct (Z.leb_spec a b); try lia end;
    simpl; f_equal; lia.
Qed.

Lemma nibbles b : 0 <= b2z b / 16 < 16 /\ 0 <= b2z b mod 16 < 16 /\
  z2b (16 * (b2z b / 16) + b2z b mod 16) = b.
Proof.
  pose proof (b2z_range b). pose proof (Z.mod_pos_bound (b2z b) 16 ltac:(lia)).
  split_and!; try lia.
  - apply Z.div_pos; lia.
  - apply Z.div_lt_upper_bound; lia.
  - rewrite <- Z.div_mod by lia. apply z2b_b2z.
Qed.

Lemma hexDecode_encode bs : hexDecode (hexEncode bs) = Ok bs.
Proof.
  induction bs as [|b bs IH]; [done|]. cbn [hexEncode hexDecode].
  destruct (nibbles b) as (H1 & H2 & H3). rewrite !hexValue_digit, IH by done. simpl. now rewrite H3.
Qed.

Lemma hexEncode_inj a b : hexEncode a = hexEncode b -> a = b.
Proof.
  intros H. apply (f_equal hexDecode) in H. rewrite !hexDecode_encode in H. now injection H.
Qed.

Lemma hexEncode_length bs : length (hexEncode bs) = (2 * length bs)%nat.
Proof. induction bs; simpl; lia. Qed.

(** A chunk hash survives its text form: parsing the hexadecimal string
    of any 32-byte hash gives the hash back. *)
Theorem parse_hash_roundtrip (h : bytes) (Hl : zlen h = HashSize) :
  ParseHash (hashString h) = Ok h.
Proof.
  unfold ParseHash, hashString. rewrite hexDecode_encode. simpl obind.
  now rewrite Hl, Z.eqb_refl.
Qed.

Lemma parse_hash_roundtrip_witness :
  ParseHash (hashString (replicate 32 Byte.xab)) = Ok (replicate 32 Byte.xab).
Proof. apply (parse_hash_roundtrip (replicate 32 Byte.xab)). reflexivity. Defined.

Lemma contentKey_inj a b : length a = length b -> contentKey a = contentKey b -> a = b.
Proof.
  intros Hl H. unfold contentKey in H. cbv zeta in H. rewrite !app_assoc in H.
  apply app_inj_2 in H as [_ H]; [now apply hexEncode_inj|].
  unfold hashString. rewrite !hexEncode_length. now rewrite Hl.
Qed.
