(* ===== verification/Envelope.v ===== *)
(** * chunk: the encrypted envelope

    Models src/internal/chunk/envelope.go. The AEAD cipher behind
    [kcrypto.Cipher] (crypto/cipher and x/crypto) is a parameter. *)

From S2P Require Import Prelude.
Local Open Scope Z_scope.

(** [kcrypto.Cipher]; [NewNonce] draws random bytes, so each sealing call
    takes the nonce it drew as an argument. *)
Record Cipher := mkCipher
  { ci_algorithm : string;
    ci_seal : bytes -> bytes -> bytes -> bytes;
    ci_open : bytes -> bytes -> bytes -> outcome bytes }.

Definition AlgorithmAES256GCM : string := "aes-256-gcm".
Definition AlgorithmChaCha20Poly1305 : string := "chacha20-poly1305".

(** "KCHK" *)
Definition envelopeMagic : bytes := [Byte.x4b; Byte.x43; Byte.x48; Byte.x4b].
Definition EnvelopeVersion : Z := 1.
Definition algorithmAES256GCM : Z := 2.
Definition algorithmChaCha20 : Z := 3.

Record EnvelopeHeader := mkHeader
  { eh_version : Z; eh_algorithm : Z; eh_keyID : bytes; eh_nonce : bytes }.

Definition envelopeAlgorithm (name : string) : outcome Z :=
  if String.eqb name AlgorithmAES256GCM then Ok algorithmAES256GCM
  else if String.eqb name AlgorithmChaCha20Poly1305 then Ok algorithmChaCha20
  else Err "unsupported cipher algorithm".

Definition marshalHeader (h : EnvelopeHeader) : outcome bytes :=
  if negb (eh_version h =? EnvelopeVersion) then Err "unsupported envelope version"
  else if negb (eh_algorithm h =? algorithmAES256GCM) && negb (eh_algorithm h =? algorithmChaCha20)
  then Err "unsupported envelope algorithm"
  else if (length (eh_nonce h) =? 0)%nat || (255 <? zlen (eh_nonce h))
  then Err "nonce length must be between 1 and 255 bytes"
  else if (length (eh_keyID h) =? 0)%nat || (65535 <? zlen (eh_keyID h))
  then Err "key id length must be between 1 and 65535 bytes"
  else Ok (envelopeMagic ++ [z2b (eh_version h); z2b (eh_algorithm h); z2b (zlen (eh_nonce h))]
             ++ be_encode 2 (zlen (eh_keyID h)) ++ eh_nonce h ++ eh_keyID h).

(** io.ReadFull of [n] bytes from a bytes.Reader. *)
Definition readFull (n : nat) (what : string) (r : bytes) : outcome (bytes * bytes) :=
  if (length r <? n)%nat then Err what else Ok (take n r, drop n r).

Definition readByte (what : string) (r : bytes) : outcome (Z * bytes) :=
  match r with [] => Err what | b :: r' => Ok (b2z b, r') end.

Definition ParseEnvelopeHeader (envelope : bytes) : outcome (EnvelopeHeader * Z) :=
  x <~ readFull 4 "read envelope magic" envelope ;;
  let (magic, r) := x in
  if negb (beqb magic envelopeMagic) then Err "invalid envelope magic"
  else
    x <~ readByte "read envelope version" r ;;
    let (version, r) := x in
    if negb (version =? EnvelopeVersion) then Err "unsupported envelope version"
    else
      x <~ readByte "read envelope algorithm" r ;;
      let (algorithm, r) := x in
      x <~ readByte "read envelope nonce length" r ;;
      let (nonceLen, r) := x in
      x <~ readFull 2 "read envelope key id length" r ;;
      let (keyLenBytes, r) := x in
      let keyLen := be_decode keyLenBytes in
      if nonceLen =? 0 then Err "envelope nonce is empty"
      else if keyLen =? 0 then Err "envelope key id is empty"
      else
        x <~ readFull (Z.to_nat nonceLen) "read envelope nonce" r ;;
        let (nonce, r) := x in
        x <~ readFull (Z.to_nat keyLen) "read envelope key id" r ;;
        let (key, r) := x in
        Ok (mkHeader version algorithm key nonce, 4 + 1 + 1 + 1 + 2 + nonceLen + keyLen).

Definition makeAdditionalData (header additionalData : bytes) : bytes := header ++ additionalData.

Definition SealEnvelope (cipher : Cipher) (nonce keyID plaintext additionalData : bytes)
    : outcome bytes :=
  if (length keyID =? 0)%nat then Err "key id is required"
  else
    algorithm <~ envelopeAlgorithm (ci_algorithm cipher) ;;
    header <~ marshalHeader (mkHeader EnvelopeVersion algorithm keyID nonce) ;;
    Ok (header ++ ci_seal cipher nonce plaintext (makeAdditionalData header additionalData)).

Definition OpenEnvelope (cipher : Cipher) (envelope additionalData : bytes)
    : outcome (bytes * EnvelopeHeader) :=
  x <~ ParseEnvelopeHeader envelope ;;
  let (header, headerLen) := x in
  algorithm <~ envelopeAlgorithm (ci_algorithm cipher) ;;
  if negb (eh_algorithm header =? algorithm) then Err "envelope algorithm does not match cipher"
  else
    let authData := makeAdditionalData (take (Z.to_nat headerLen) envelope) additionalData in
    plaintext <~ ci_open cipher (eh_nonce header) (drop (Z.to_nat headerLen) envelope) authData ;;
    Ok (plaintext, header).

(** ** The header format *)

Lemma readFull_app n what a r : length a = n -> readFull n what (a ++ r) = Ok (a, r).
Proof.
  intros <-. unfold readFull. destruct (Nat.ltb_spec (length (a ++ r)) (length a)) as [H|_].
  { rewrite length_app in H. lia. }
  now rewrite take_app_length, drop_app_length.
Qed.

Lemma readFull_inv n what r a b : readFull n what r = Ok (a, b) -> r = a ++ b /\ length a = n.
Proof.
  unfold readFull. destruct (Nat.ltb_spec (length r) n); [done|]. intros [= <- <-].
  rewrite take_drop, length_take. split; [done|lia].
Qed.

Lemma marshalHeader_ok h bs :
  marshalHeader h = Ok bs ->
  eh_version h = EnvelopeVersion /\
  (eh_algorithm h = algorithmAES256GCM \/ eh_algorithm h = algorithmChaCha20) /\
  1 <= zlen (eh_nonce h) <= 255 /\ 1 <= zlen (eh_keyID h) <= 65535 /\
  bs = envelopeMagic ++ [z2b (eh_version h); z2b (eh_algorithm h); z2b (zlen (eh_nonce h))]
         ++ be_encode 2 (zlen (eh_keyID h)) ++ eh_nonce h ++ eh_keyID h.
Proof.
  unfold marshalHeader. destruct (Z.eqb_spec (eh_version h) EnvelopeVersion); [|done].
  cbn [negb]. case_bool Ea; [done|]. case_bool En; [done|]. case_bool Ek; [done|].
  intros [= <-]. apply orb_false_iff in En as [En1 En2]. apply orb_false_iff in Ek as [Ek1 Ek2].
  apply Nat.eqb_neq in En1. apply Nat.eqb_neq in Ek1. apply Z.ltb_ge in En2. apply Z.ltb_ge in Ek2.
  unfold zlen in *. split_and!; auto; try lia.
Qed.

Lemma parse_marshal h bs rest :
  marshalHeader h = Ok bs -> ParseEnvelopeHeader (bs ++ rest) = Ok (h, zlen bs).
Proof.
  intros H. apply marshalHeader_ok in H as (Hv & Ha & Hn & Hk & ->).
  destruct h as [v a key nonce].
  cbn [eh_version eh_algorithm eh_keyID eh_nonce] in *. subst v.
  unfold ParseEnvelopeHeader.
  rewrite <- !app_assoc. rewrite (readFull_app 4) by done. cbn [obind].
  change (beqb envelopeMagic envelopeMagic) with true. cbn [negb app readByte obind].
  change (b2z (z2b EnvelopeVersion) =? EnvelopeVersion) with true. cbn [negb].
  assert (Hba : b2z (z2b a) = a) by (destruct Ha as [-> | ->]; reflexivity).
  assert (Hbn : b2z (z2b (zlen nonce)) = zlen nonce) by (rewrite b2z_z2b; apply Z.mod_small; lia).
  rewrite Hba, Hbn. rewrite (readFull_app 2) by apply be_encode_length. cbn [obind].
  rewrite be_decode_encode_small by (simpl; lia).
  destruct (Z.eqb_spec (zlen nonce) 0); [lia|]. destruct (Z.eqb_spec (zlen key) 0); [lia|].
  rewrite readFull_app by (unfold zlen; lia). cbn [obind].
  rewrite readFull_app by (unfold zlen; lia). cbn [obind].
  f_equal. f_equal. autorewrite with klen. unfold zlen. rewrite be_encode_length.
  change (length envelopeMagic) with 4%nat. lia.
Qed.

(** ** Seal and open *)

(** What the AEAD promises: opening with the right nonce and additional data
    returns what was sealed. *)
Definition aead_correct (c : Cipher) : Prop :=
  forall nonce pt ad, ci_open c nonce (ci_seal c nonce pt ad) ad = Ok pt.

(** Authenticity: only outputs of [ci_seal] for that nonce and additional
    data are accepted. *)
Definition aead_authentic (c : Cipher) : Prop :=
  forall nonce ct ad pt, ci_open c nonce ct ad = Ok pt -> ct = ci_seal c nonce pt ad.

Lemma open_seal c nonce keyID pt ad env :
  aead_correct c -> SealEnvelope c nonce keyID pt ad = Ok env ->
  exists alg, envelopeAlgorithm (ci_algorithm c) = Ok alg /\
    OpenEnvelope c env ad = Ok (pt, mkHeader EnvelopeVersion alg keyID nonce).
Proof.
  intros Hc Hs. unfold SealEnvelope in Hs. destruct (length keyID =? 0)%nat; [done|].
  apply obind_ok in Hs as (alg & Ha & Hs). apply obind_ok in Hs as (hd & Hh & Hs).
  injection Hs as <-. exists alg. split; [done|]. unfold OpenEnvelope.
  rewrite (parse_marshal _ _ _ Hh). cbn [obind]. rewrite Ha. cbn [obind eh_algorithm].
  rewrite Z.eqb_refl. cbn [negb]. unfold zlen. rewrite Nat2Z.id, take_app_length, drop_app_length.
  cbn [eh_nonce]. rewrite Hc. reflexivity.
Qed.

(** Sealing then opening a chunk envelope with the same cipher and
    additional data returns the plaintext and the header (version, algorithm,
    key id, nonce) it was sealed with, for every cipher whose AEAD opens what
    it sealed. *)
Theorem envelope_roundtrip (c : Cipher) (nonce keyID pt ad env : bytes)
    (Hc : aead_correct c) (Hs : SealEnvelope c nonce keyID pt ad = Ok env) :
  exists alg, envelopeAlgorithm (ci_algorithm c) = Ok alg /\
    OpenEnvelope c env ad = Ok (pt, mkHeader EnvelopeVersion alg keyID nonce).
Proof. now apply open_seal. Qed.

(** A toy AEAD: the ciphertext is the plaintext, followed by nonce and
    additional data as the tag. *)
Definition toyCipher : Cipher := mkCipher AlgorithmAES256GCM
  (fun nonce pt ad => pt ++ nonce ++ ad)
  (fun nonce ct ad =>
     let n := (length ct - length (nonce ++ ad))%nat in
     if (length (nonce ++ ad) <=? length ct)%nat && beqb (drop n ct) (nonce ++ ad)
     then Ok (take n ct) else Err "authentication failed").

Lemma toy_correct : aead_correct toyCipher.
Proof.
  intros nonce pt ad. simpl. rewrite !length_app.
  replace (length pt + (length nonce + length ad) - (length nonce + length ad))%nat
    with (length pt) by lia.
  rewrite drop_app_length, take_app_length, (proj2 (beqb_eq _ _) eq_refl).
  destruct (Nat.leb_spec (length nonce + length ad) (length pt + (length nonce + length ad))); [done|lia].
Qed.

Lemma toy_authentic : aead_authentic toyCipher.
Proof.
  intros nonce ct ad pt. simpl. destruct (_ && _) eqn:E; [|done]. intros [= <-].
  apply andb_true_iff in E as [_ E]. apply beqb_eq in E.
  remember (length ct - length (nonce ++ ad))%nat as n. rewrite <- E. symmetry. apply take_drop.
Qed.

Lemma envelope_roundtrip_witness :
  exists alg, envelopeAlgorithm AlgorithmAES256GCM = Ok alg /\
    OpenEnvelope toyCipher
      (match SealEnvelope toyCipher [Byte.x01] [Byte.x6b] [Byte.x05] [] with Ok e => e | _ => [] end) []
    = Ok ([Byte.x05], mkHeader EnvelopeVersion alg [Byte.x6b] [Byte.x01]).
Proof.
  apply (envelope_roundtrip toyCipher [Byte.x01] [Byte.x6b] [Byte.x05] []);
    [exact toy_correct|reflexivity].
Defined.

(** ** What an accepted envelope looks like *)

Lemma readByte_inv what r v r' : readByte what r = Ok (v, r') -> exists b, r = b :: r' /\ v = b2z b.
Proof. destruct r as [|b r0]; [done|]. intros [= <- <-]. eauto. Qed.

Lemma be_encode_decode2 l : length l = 2%nat -> be_encode 2 (be_decode l) = l.
Proof.
  intros Hl. unfold be_encode, be_decode. rewrite <- Hl, <- (length_reverse l).
  rewrite le_encode_decode. apply reverse_involutive.
Qed.

Lemma parse_inv env h n :
  ParseEnvelopeHeader env = Ok (h, n) ->
  eh_version h = EnvelopeVersion /\ 1 <= zlen (eh_nonce h) <= 255 /\
  1 <= zlen (eh_keyID h) <= 65535 /\
  exists rest, env = (envelopeMagic ++
      [z2b (eh_version h); z2b (eh_algorithm h); z2b (zlen (eh_nonce h))]
      ++ be_encode 2 (zlen (eh_keyID h)) ++ eh_nonce h ++ eh_keyID h) ++ rest /\
    n = 9 + zlen (eh_nonce h) + zlen (eh_keyID h).
Proof.
  unfold ParseEnvelopeHeader. intros H.
  apply obind_ok in H as ([magic r0] & H0 & H). apply readFull_inv in H0 as [-> Hm].
  destruct (beqb magic envelopeMagic) eqn:Em; [|done]. apply beqb_eq in Em as ->. cbn [negb] in H.
  apply obind_ok in H as ([v r1] & H1 & H). apply readByte_inv in H1 as (bv & -> & ->).
  destruct (Z.eqb_spec (b2z bv) EnvelopeVersion) as [Ev|]; [|done]. cbn [negb] in H.
  apply obind_ok in H as ([a r2] & H2 & H). apply readByte_inv in H2 as (ba & -> & ->).
  apply obind_ok in H as ([nl r3] & H3 & H). apply readByte_inv in H3 as (bn & -> & ->).
  apply obind_ok in H as ([kl r4] & H4 & H). apply readFull_inv in H4 as [-> Hkl].
  destruct (Z.eqb_spec (b2z bn) 0) as [|Hn0]; [done|].
  destruct (Z.eqb_spec (be_decode kl) 0) as [|Hk0]; [done|].
  apply obind_ok in H as ([nonce r5] & H5 & H). apply readFull_inv in H5 as [-> Hnl].
  apply obind_ok in H as ([key r6] & H6 & H). apply readFull_inv in H6 as [-> Hkk].
  injection H as <- <-. cbn [eh_version eh_algorithm eh_keyID eh_nonce].
  pose proof (b2z_range bn). pose proof (le_decode_bound (reverse kl)) as Hb.
  change (le_decode (reverse kl)) with (be_decode kl) in Hb.
  rewrite length_reverse, Hkl in Hb. simpl in Hb.
  assert (Hzn : zlen nonce = b2z bn) by (unfold zlen; lia).
  assert (Hzk : zlen key = be_decode kl) by (unfold zlen; lia).
  split_and!; auto; try lia. exists r6. rewrite Hzn, Hzk, !z2b_b2z, be_encode_decode2 by done.
  split; [|lia]. now rewrite <- !app_assoc.
Qed.

(** An accepted envelope is exactly one that sealing makes: if opening
    succeeds under an authentic AEAD, the envelope is the serialization of the
    returned header followed by the sealing of the returned plaintext, with
    the header and the caller's additional data both authenticated; so no
    header byte can be altered and no other chunk's envelope is accepted
    under this chunk's hash. *)
Theorem envelope_accepts_only_sealed (c : Cipher) (env ad pt : bytes) (h : EnvelopeHeader)
    (Hc : aead_authentic c) (Ho : OpenEnvelope c env ad = Ok (pt, h)) :
  exists hd, marshalHeader h = Ok hd /\
    env = hd ++ ci_seal c (eh_nonce h) pt (hd ++ ad) /\
    SealEnvelope c (eh_nonce h) (eh_keyID h) pt ad = Ok env.
Proof.
  unfold OpenEnvelope in Ho. apply obind_ok in Ho as ([h' n] & Hp & Ho).
  apply obind_ok in Ho as (alg & Ha & Ho).
  destruct (Z.eqb_spec (eh_algorithm h') alg) as [Hal|]; [|done]. cbn [negb] in Ho.
  apply obind_ok in Ho as (pt' & Hopen & Ho). injection Ho as -> ->.
  destruct (parse_inv _ _ _ Hp) as (Hv & Hn & Hk & rest & -> & ->).
  set (hd := envelopeMagic ++ [z2b (eh_version h); z2b (eh_algorithm h); z2b (zlen (eh_nonce h))]
               ++ be_encode 2 (zlen (eh_keyID h)) ++ eh_nonce h ++ eh_keyID h) in *.
  assert (Hlen : Z.to_nat (9 + zlen (eh_nonce h) + zlen (eh_keyID h)) = length hd).
  { unfold hd, zlen. rewrite !length_app, be_encode_length. simpl length. lia. }
  rewrite Hlen, take_app_length, drop_app_length in Hopen. apply Hc in Hopen as ->.
  assert (Hm : marshalHeader h = Ok hd).
  { unfold marshalHeader. rewrite Hv, Z.eqb_refl. cbn [negb].
    assert (Halg : eh_algorithm h = algorithmAES256GCM \/ eh_algorithm h = algorithmChaCha20).
    { rewrite Hal. unfold envelopeAlgorithm in Ha.
      repeat (case_match; try done); injection Ha as <-; auto. }
    replace (negb (eh_algorithm h =? algorithmAES256GCM) && negb (eh_algorithm h =? algorithmChaCha20))
      with false by (destruct Halg as [-> | ->]; reflexivity).
    unfold zlen in Hn, Hk.
    destruct (Nat.eqb_spec (length (eh_nonce h)) 0); [lia|].
    destruct (Nat.eqb_spec (length (eh_keyID h)) 0); [lia|].
    unfold zlen at 1. destruct (Z.ltb_spec 255 (Z.of_nat (length (eh_nonce h)))); [lia|].
    unfold zlen at 1. destruct (Z.ltb_spec 65535 (Z.of_nat (length (eh_keyID h)))); [lia|].
    cbn [orb]. unfold hd. now rewrite Hv. }
  exists hd. split; [done|]. split; [done|]. unfold SealEnvelope.
  unfold zlen in Hk. destruct (Nat.eqb_spec (length (eh_keyID h)) 0); [lia|].
  rewrite Ha. cbn [obind]. destruct h as [v a key nonce].
  cbn [eh_version eh_algorithm eh_keyID eh_nonce] in *. subst v a.
  rewrite Hm. reflexivity.
Qed.

Lemma envelope_accepts_only_sealed_witness :
  let env := match SealEnvelope toyCipher [Byte.x01] [Byte.x6b] [Byte.x05] [] with
             | Ok e => e | _ => [] end in
  let h := mkHeader 1 2 [Byte.x6b] [Byte.x01] in
  exists hd, marshalHeader h = Ok hd /\ env = hd ++ ci_seal toyCipher [Byte.x01] [Byte.x05] (hd ++ []) /\
    SealEnvelope toyCipher [Byte.x01] [Byte.x6b] [Byte.x05] [] = Ok env.
Proof.
  intros env h.
  apply (envelope_accepts_only_sealed toyCipher env [] [Byte.x05] h);
    [exact toy_authentic|vm_compute; reflexivity].
Defined.
