(* ===== verification/Pipeline.v ===== *)
(** * chunk: the upload pipeline and restore

    Models src/internal/chunk/pipeline.go with the default stage functions.
    The worker goroutines of [Feed] move items from stage to stage: a state
    holds what waits before each stage, and one step runs one stage function
    on any waiting item, so the steps cover every schedule of every number of
    workers and every channel capacity. Context cancellation is not modelled.

    BLAKE3, the AEAD cipher, gzip and zstd are parameters; the storage backend
    is the interface [Backend]. *)

From S2P Require Import Prelude FastCDC ChunkIndex ChunkHash Envelope.
Local Open Scope Z_scope.

(** ** What the pipeline uses *)

(** [kcompress.Compressor]: a whole chunk through the writer, and back. *)
Record Compressor := mkCompressor
  { co_algorithm : string; co_write : bytes -> outcome bytes; co_read : bytes -> outcome bytes }.

Definition noneCompressor : Compressor := mkCompressor "none" Ok Ok.

(** [kcompress.New] *)
Definition NewCompressor (gzip zstd : Compressor) (algorithm : string) : outcome Compressor :=
  if String.eqb algorithm "none" then Ok noneCompressor
  else if String.eqb algorithm "gzip" then Ok gzip
  else if String.eqb algorithm "zstd" then Ok zstd
  else Err "unsupported compression algorithm".

(** [storage.Backend], as far as the pipeline uses it: [Put] returns the
    stored size and the entity tag. *)
Class Backend (B : Type) := {
  be_put : bytes -> bytes -> B -> outcome (Z * bytes) * B;
  be_get : bytes -> B -> outcome bytes
}.

Class BackendLaws (B : Type) `{Backend B} := {
  put_get : forall k v b i b', be_put k v b = (Ok i, b') -> be_get k b' = Ok v;
  put_other : forall k k' v b i b',
    be_put k v b = (Ok i, b') -> k' <> k -> be_get k' b' = be_get k' b
}.

(** A finite map is a lawful backend. *)
#[export] Instance map_backend : Backend (gmap bytes bytes) := {|
  be_put k v b := (Ok (zlen v, []), <[k := v]> b);
  be_get k b := match b !! k with Some v => Ok v | None => Err "not found" end |}.

#[export] Program Instance map_backend_laws : BackendLaws (gmap bytes bytes).
Next Obligation. intros k v b i b' [= _ <-]. simpl. now rewrite lookup_insert_eq. Qed.
Next Obligation. intros k k' v b i b' [= _ <-] Hne. simpl. now rewrite lookup_insert_ne. Qed.

(** ** Data *)

Record PipelineChunk := mkPC { pc_seq : Z; pc_offset : Z; pc_size : Z; pc_data : bytes }.
Record HashedChunk := mkHC { hc_chunk : PipelineChunk; hc_hash : bytes; hc_dup : bool }.
Record EncodedChunk := mkEC
  { ec_chunk : HashedChunk; ec_key : bytes; ec_compression : string; ec_encryption : string;
    ec_keyID : bytes; ec_payload : bytes }.
Record ChunkRef := mkRef
  { cr_seq : Z; cr_hash : bytes; cr_key : bytes; cr_offset : Z; cr_size : Z;
    cr_stored : Z; cr_etag : bytes; cr_compression : string; cr_encryption : string;
    cr_keyID : bytes; cr_dup : bool }.
Record Stats := mkStats
  { st_chunks : Z; st_bytesIn : Z; st_uploaded : Z; st_deduped : Z; st_bytesUploaded : Z }.

Record Pipeline := mkPipeline
  { pl_chunker : FastCDC; pl_compressor : option Compressor; pl_cipher : option Cipher;
    pl_keyID : bytes }.

(** The dedup decision: the pipeline's index, or a map local to the run. *)
Inductive dedup : Type :=
| DSeen (seen : gset bytes)
| DIndex (i : Index).

Definition dedup_entries (d : dedup) : gset bytes :=
  match d with DSeen s => s | DIndex i => ix_entries i end.

Definition dedup_add (d : dedup) (h : bytes) : bool * dedup :=
  match d with
  | DIndex i => let (added, i') := IndexAdd i h in (negb added, DIndex i')
  | DSeen s => if bool_decide (h ∈ s) then (true, d) else (false, DSeen (s ∪ {[ h ]}))
  end.

Section pipeline.
  Context (hashBytes : bytes -> bytes) (gzip zstd : Compressor).
  Context {B : Type} `{BE : Backend B}.

(** ** Stage functions *)

(** [chunkFunc]: number the chunks and send them. *)
Definition chunkFunc (p : Pipeline) (r : list read_result)
    : outcome unit * (Z * list PipelineChunk) :=
  ForEach (pl_chunker p) r
    (fun c st => (Ok tt, (fst st + 1, snd st ++ [mkPC (fst st) (c_offset c) (c_size c) (c_data c)])))
    (0, []).

Definition hashFunc (d : dedup) (c : PipelineChunk) : HashedChunk * dedup :=
  let h := hashBytes (pc_data c) in
  let (dup, d') := dedup_add d h in
  (mkHC c h dup, d').

Definition runCompressor (p : Pipeline) : Compressor :=
  match pl_compressor p with Some c => c | None => noneCompressor end.

Definition encodeFunc (p : Pipeline) (nonce : bytes) (c : HashedChunk) : outcome EncodedChunk :=
  let compressor := runCompressor p in
  let key := contentKey (hc_hash c) in
  if hc_dup c then
    Ok (match pl_cipher p with
        | Some ci => mkEC c key (co_algorithm compressor) (ci_algorithm ci) (pl_keyID p) []
        | None => mkEC c key (co_algorithm compressor) "" [] []
        end)
  else match pl_cipher p with
  | None => Err "cipher is required"
  | Some ci =>
      if (length (pl_keyID p) =? 0)%nat then Err "key id is required"
      else
        compressed <~ co_write compressor (pc_data (hc_chunk c)) ;;
        payload <~ SealEnvelope ci nonce (pl_keyID p) compressed (hc_hash c) ;;
        Ok (mkEC c key (co_algorithm compressor) (ci_algorithm ci) (pl_keyID p) payload)
  end.

Definition refOf (c : EncodedChunk) (stored : Z) (etag : bytes) : ChunkRef :=
  let h := ec_chunk c in
  mkRef (pc_seq (hc_chunk h)) (hc_hash h) (ec_key c) (pc_offset (hc_chunk h))
    (pc_size (hc_chunk h)) stored etag (ec_compression c) (ec_encryption c) (ec_keyID c) (hc_dup h).

Definition uploadFunc (c : EncodedChunk) : M B ChunkRef := fun b =>
  if hc_dup (ec_chunk c) then (Ok (refOf c 0 []), b)
  else match be_put (ec_key c) (ec_payload c) b with
       | (Ok (size, etag), b') => (Ok (refOf c size etag), b')
       | (Err e, b') => (Err e, b')
       | (Panic e, b') => (Panic e, b')
       | (Fuel, b') => (Fuel, b')
       end.

(** ** Feed *)

Record pstate := mkPS
  { ps_chunks : list PipelineChunk; ps_hashed : list HashedChunk;
    ps_encoded : list EncodedChunk; ps_refs : list ChunkRef;
    ps_dedup : dedup; ps_backend : B }.

(** One worker finishes one stage of one waiting item. *)
Inductive pstep (p : Pipeline) : pstate -> pstate -> Prop :=
| st_hash l1 c l2 hs es rs d b h d' :
    hashFunc d c = (h, d') ->
    pstep p (mkPS (l1 ++ c :: l2) hs es rs d b) (mkPS (l1 ++ l2) (hs ++ [h]) es rs d' b)
| st_encode cs l1 h l2 es rs d b nonce e :
    encodeFunc p nonce h = Ok e ->
    pstep p (mkPS cs (l1 ++ h :: l2) es rs d b) (mkPS cs (l1 ++ l2) (es ++ [e]) rs d b)
| st_upload cs hs l1 e l2 rs d b r b' :
    uploadFunc e b = (Ok r, b') ->
    pstep p (mkPS cs hs (l1 ++ e :: l2) rs d b) (mkPS cs hs (l1 ++ l2) (rs ++ [r]) d b').

(** A stage function fails: [Feed] reports the error and no references. *)
Inductive pfail (p : Pipeline) : pstate -> string -> Prop :=
| fail_encode cs l1 h l2 es rs d b nonce e :
    encodeFunc p nonce h = Err e ->
    pfail p (mkPS cs (l1 ++ h :: l2) es rs d b) ("encode chunk: " +:+ e)
| fail_upload cs hs l1 c l2 rs d b e b' :
    uploadFunc c b = (Err e, b') ->
    pfail p (mkPS cs hs (l1 ++ c :: l2) rs d b) ("upload chunk: " +:+ e).

Definition addRef (s : Stats) (r : ChunkRef) : Stats :=
  if cr_dup r
  then mkStats (st_chunks s + 1) (st_bytesIn s + cr_size r) (st_uploaded s) (st_deduped s + 1)
         (st_bytesUploaded s)
  else mkStats (st_chunks s + 1) (st_bytesIn s + cr_size r) (st_uploaded s + 1) (st_deduped s)
         (st_bytesUploaded s + cr_stored r).

Definition noStats : Stats := mkStats 0 0 0 0 0.

Definition ref_less (a b : ChunkRef) : bool := cr_seq a <? cr_seq b.

Definition feed_start (p : Pipeline) (r : list read_result) (d : dedup) (b : B) : pstate :=
  mkPS (snd (snd (chunkFunc p r))) [] [] [] d b.

(** The results a run of [Feed] can have. *)
Inductive Feed (p : Pipeline) (r : list read_result) (d : dedup) (b : B)
    : outcome (list ChunkRef * Stats) -> dedup -> B -> Prop :=
| feed_done rs d' b' :
    fst (chunkFunc p r) = Ok tt ->
    rtc (pstep p) (feed_start p r d b) (mkPS [] [] [] rs d' b') ->
    Feed p r d b (Ok (sort_by ref_less rs, foldl addRef noStats rs)) d' b'
| feed_input_error e s :
    fst (chunkFunc p r) = Err e -> rtc (pstep p) (feed_start p r d b) s ->
    Feed p r d b (Err ("chunk pipeline input: " +:+ e)) (ps_dedup s) (ps_backend s)
| feed_stage_error e s :
    rtc (pstep p) (feed_start p r d b) s -> pfail p s e ->
    Feed p r d b (Err e) (ps_dedup s) (ps_backend s).

(** ** Restore *)

Definition compressorFor (p : Pipeline) (algorithm : string) : outcome Compressor :=
  if String.eqb algorithm "" then
    match pl_compressor p with
    | Some c => Ok c
    | None => NewCompressor gzip zstd "none"
    end
  else NewCompressor gzip zstd algorithm.

(** One iteration of [Restore]: the bytes it writes to [w], and its result.
    The bytes are written before the hash is compared. *)
Definition restoreChunk (p : Pipeline) (cipher : Cipher) (b : B) (ref : ChunkRef)
    : outcome Z * bytes :=
  if (length (cr_key ref) =? 0)%nat then (Err "chunk key is empty", [])
  else
    match (envelope <~ be_get (cr_key ref) b ;;
           opened <~ OpenEnvelope cipher envelope (cr_hash ref) ;;
           compressor <~ compressorFor p (cr_compression ref) ;;
           co_read compressor (fst opened)) with
    | Ok data =>
        if negb (beqb (hashBytes data) (cr_hash ref)) then (Err "chunk hash mismatch", data)
        else if (0 <=? cr_size ref) && negb (zlen data =? cr_size ref)
        then (Err "chunk size mismatch", data)
        else (Ok (zlen data), data)
    | Err e => (Err e, [])
    | Panic e => (Panic e, [])
    | Fuel => (Fuel, [])
    end.

Fixpoint restore_loop (p : Pipeline) (cipher : Cipher) (b : B) (refs : list ChunkRef)
    (st : Stats) (out : bytes) : outcome Stats * bytes :=
  match refs with
  | [] => (Ok st, out)
  | ref :: r =>
      match restoreChunk p cipher b ref with
      | (Ok size, data) =>
          restore_loop p cipher b r
            (mkStats (st_chunks st + 1) (st_bytesIn st + size) (st_uploaded st) (st_deduped st)
               (st_bytesUploaded st)) (out ++ data)
      | (Err e, data) => (Err e, out ++ data)
      | (Panic e, data) => (Panic e, out ++ data)
      | (Fuel, data) => (Fuel, out ++ data)
      end
  end.

Definition Restore (p : Pipeline) (b : B) (refs : list ChunkRef) : outcome Stats * bytes :=
  match pl_cipher p with
  | None => (Err "cipher is required", [])
  | Some cipher => restore_loop p cipher b (sort_by ref_less refs) noStats []
  end.
End pipeline.
