(* ===== verification/PipelineProofs.v ===== *)
(** * chunk: the pipeline round trip

    Every complete run of [Feed], under every schedule of its workers, leaves
    references and a backend from which [Restore] writes the input stream. *)

From S2P Require Import Prelude FastCDC ChunkIndex ChunkHash Envelope Pipeline.
Local Open Scope Z_scope.

(** ** Sorting by a key without duplicates *)

Lemma sorted_perm_unique {A} (key : A -> Z) (l1 l2 : list A) :
  l1 ≡ₚ l2 -> StronglySorted (fun a b => key a <= key b) l1 ->
  StronglySorted (fun a b => key a < key b) l2 -> l1 = l2.
Proof.
  revert l2. induction l1 as [|x l1 IH]; intros l2 Hp H1 H2.
  - symmetry in Hp. apply Permutation_nil_r in Hp. congruence.
  - destruct l2 as [|y l2]; [now apply Permutation_nil_r in Hp|].
    apply StronglySorted_cons in H1 as [F1 H1]. apply StronglySorted_cons in H2 as [F2 H2].
    rewrite Forall_forall in F1, F2.
    assert (x = y) as ->.
    { assert (Hx : x ∈ y :: l2) by (rewrite <- Hp; now left).
      assert (Hy : y ∈ x :: l1) by (rewrite Hp; now left).
      apply elem_of_cons in Hx as [->|Hx]; [done|]. apply elem_of_cons in Hy as [->|Hy]; [done|].
      apply F2 in Hx. apply F1 in Hy. lia. }
    f_equal. apply IH; auto. now apply Permutation_cons_inv in Hp.
Qed.

Lemma ref_sort_sorted (l : list ChunkRef) :
  StronglySorted (fun a b => cr_seq a <= cr_seq b) (sort_by ref_less l).
Proof.
  pose proof (sort_by_sorted ref_less
    ltac:(intros; unfold ref_less; apply Z.ltb_irrefl)
    ltac:(unfold ref_less; intros x y z ? ?; rewrite Z.ltb_lt in *; lia)
    ltac:(unfold ref_less; intros x y z ? ?; rewrite Z.ltb_ge in *; lia) l) as Hs.
  induction Hs as [|x r Hs IH Hf]; constructor; auto.
  eapply Forall_impl; [exact Hf|]. unfold ref_less. intros y Hy. apply Z.ltb_ge in Hy. done.
Qed.

Lemma StronglySorted_map {A C} (f : A -> C) (R : C -> C -> Prop) l :
  StronglySorted (fun a b => R (f a) (f b)) l -> StronglySorted R (map f l).
Proof. induction 1; simpl; constructor; auto. now apply Forall_map. Qed.

Lemma dedup_add_spec d h :
  let (dup, d') := dedup_add d h in
  (dup = true <-> h ∈ dedup_entries d) /\ dedup_entries d' = dedup_entries d ∪ {[ h ]}.
Proof.
  unfold dedup_add. destruct d as [s|i]; simpl.
  - case_bool_decide as Hin; simpl; (split; [naive_solver|]); set_solver.
  - unfold IndexAdd. case_bool_decide as Hin; simpl; (split; [naive_solver|]); set_solver.
Qed.

Section proofs.
  Context (hashBytes : bytes -> bytes) (gzip zstd : Compressor).
  Context {B : Type} {BE : Backend B} {BL : BackendLaws B}.
  Context (p : Pipeline) (cipher : Cipher).
  Context (Hcipher : pl_cipher p = Some cipher).

(** Documented behaviour of the parts outside the repository. *)
Context (Haead : aead_correct cipher).
Context (hash_size : forall x, zlen (hashBytes x) = HashSize).

(** What the run's compressor writes, the compressor of that name reads. *)
Definition compressor_roundtrip : Prop :=
  forall x y, co_write (runCompressor p) x = Ok y ->
    exists c, compressorFor gzip zstd p (co_algorithm (runCompressor p)) = Ok c /\ co_read c y = Ok x.
Context (Hcomp : compressor_roundtrip).

(** The chunks of the stream, as the chunk stage numbers them. *)
Context (all : list PipelineChunk).

(** No two different chunks of the stream share a hash. *)
Definition no_collision : Prop := forall x y, x ∈ all -> y ∈ all ->
  hashBytes (pc_data x) = hashBytes (pc_data y) -> pc_data x = pc_data y.
Context (Hnc : no_collision).

(** The object under [h]'s key decrypts and decompresses to [data]. *)
Definition holds (b : B) (h data : bytes) : Prop :=
  (envelope <~ be_get (contentKey h) b ;;
   opened <~ OpenEnvelope cipher envelope h ;;
   compressor <~ compressorFor gzip zstd p (co_algorithm (runCompressor p)) ;;
   co_read compressor (fst opened)) = Ok data.

Definition good (b : B) (h : bytes) : Prop :=
  forall c, c ∈ all -> hashBytes (pc_data c) = h -> holds b h (pc_data c).

(** What identifies a chunk in the manifest. *)
Definition view (c : PipelineChunk) : Z * Z * Z * bytes :=
  (pc_seq c, pc_offset c, pc_size c, hashBytes (pc_data c)).
Definition ref_view (r : ChunkRef) : Z * Z * Z * bytes :=
  (cr_seq r, cr_offset r, cr_size r, cr_hash r).

Definition hashed_ok (h : HashedChunk) : Prop :=
  hc_chunk h ∈ all /\ hc_hash h = hashBytes (pc_data (hc_chunk h)).
Definition encoded_ok (e : EncodedChunk) : Prop :=
  hashed_ok (ec_chunk e) /\ ec_key e = contentKey (hc_hash (ec_chunk e)) /\
  ec_compression e = co_algorithm (runCompressor p) /\
  (hc_dup (ec_chunk e) = false ->
   forall b i b', be_put (ec_key e) (ec_payload e) b = (Ok i, b') ->
     holds b' (hc_hash (ec_chunk e)) (pc_data (hc_chunk (ec_chunk e)))).
Definition ref_ok (r : ChunkRef) : Prop :=
  cr_key r = contentKey (cr_hash r) /\ cr_compression r = co_algorithm (runCompressor p).

Definition fresh_count {A} (dup : A -> bool) (l : list A) : Z :=
  zlen (List.filter (fun x => negb (dup x)) l).

(** The invariant of a run from dedup entries [e0]. *)
Record run_inv (e0 : gset bytes) (s : pstate) : Prop := {
  ri_views : map view (ps_chunks s) ++ map (fun h => view (hc_chunk h)) (ps_hashed s) ++
             map (fun e => view (hc_chunk (ec_chunk e))) (ps_encoded s) ++
             map ref_view (ps_refs s) ≡ₚ map view all;
  ri_chunks : Forall (fun c => c ∈ all) (ps_chunks s);
  ri_hashed : Forall hashed_ok (ps_hashed s);
  ri_encoded : Forall encoded_ok (ps_encoded s);
  ri_refs : Forall ref_ok (ps_refs s);
  ri_seen : forall h, h ∈ map hc_hash (ps_hashed s) ++
                          map (fun e => hc_hash (ec_chunk e)) (ps_encoded s) ++
                          map cr_hash (ps_refs s) -> h ∈ dedup_entries (ps_dedup s);
  ri_covered : forall h, h ∈ dedup_entries (ps_dedup s) ->
      (exists x, x ∈ ps_hashed s /\ hc_dup x = false /\ hc_hash x = h) \/
      (exists x, x ∈ ps_encoded s /\ hc_dup (ec_chunk x) = false /\ hc_hash (ec_chunk x) = h) \/
      good (ps_backend s) h;
  ri_fresh : fresh_count hc_dup (ps_hashed s) +
             fresh_count (fun e => hc_dup (ec_chunk e)) (ps_encoded s) +
             fresh_count cr_dup (ps_refs s) + Z.of_nat (size e0)
             = Z.of_nat (size (dedup_entries (ps_dedup s)))
}.

Lemma fresh_count_app {A} (dup : A -> bool) l k :
  fresh_count dup (l ++ k) = fresh_count dup l + fresh_count dup k.
Proof. unfold fresh_count. rewrite List.filter_app, zlen_app. done. Qed.

Lemma fresh_count_one {A} (dup : A -> bool) x : fresh_count dup [x] = if dup x then 0 else 1.
Proof. unfold fresh_count. simpl. now destruct (dup x). Qed.

Lemma fresh_count_mid {A} (dup : A -> bool) l1 x l2 :
  fresh_count dup (l1 ++ x :: l2) = fresh_count dup (l1 ++ l2) + (if dup x then 0 else 1).
Proof.
  change (x :: l2) with ([x] ++ l2). rewrite !fresh_count_app, fresh_count_one. lia.
Qed.

Lemma contentKey_hash_inj c c' :
  contentKey (hashBytes c) = contentKey (hashBytes c') -> hashBytes c = hashBytes c'.
Proof.
  apply contentKey_inj. pose proof (hash_size c). pose proof (hash_size c').
  unfold zlen in *. lia.
Qed.

Lemma hash_run_inv e0 l1 c l2 hs es rs d b h d' :
  hashFunc hashBytes d c = (h, d') ->
  run_inv e0 (mkPS (l1 ++ c :: l2) hs es rs d b) ->
  run_inv e0 (mkPS (l1 ++ l2) (hs ++ [h]) es rs d' b).
Proof.
  unfold hashFunc. intros Hh [Hv Hc Hhs Hes Hrs Hseen Hcov Hfr]. cbn in *.
  pose proof (dedup_add_spec d (hashBytes (pc_data c))) as Hd.
  destruct (dedup_add d (hashBytes (pc_data c))) as [dup d1]. injection Hh as <- <-.
  destruct Hd as [Hdup Hent].
  apply Forall_app in Hc as [Hc1 Hc2]. apply Forall_cons in Hc2 as [Hca Hc2].
  constructor; cbn.
  - rewrite <- Hv, !map_app. cbn. rewrite <- !app_assoc. solve_Permutation.
  - now apply Forall_app.
  - apply Forall_app. split; [done|]. repeat constructor; auto.
  - done.
  - done.
  - intros h. rewrite Hent, map_app. cbn. rewrite <- app_assoc.
    rewrite !elem_of_app, list_elem_of_singleton, elem_of_union, elem_of_singleton.
    intros [Hi|[Hi|Hi]]; auto; left; apply Hseen; rewrite !elem_of_app; tauto.
  - intros h. rewrite Hent, elem_of_union, elem_of_singleton. intros Hor.
    destruct (decide (h ∈ dedup_entries d)) as [Hin|Hnin].
    + destruct (Hcov h Hin) as [(x & Hx1 & Hx2)|Hr]; auto. left. exists x. set_solver.
    + destruct Hor as [Hi| ->]; [done|]. left. eexists. split; [apply elem_of_app; right; now left|].
      cbn. split; [|done]. destruct dup; [|done]. exfalso. tauto.
  - rewrite fresh_count_app, fresh_count_one, Hent. cbn. destruct dup.
    + assert (hashBytes (pc_data c) ∈ dedup_entries d) by tauto.
      replace (dedup_entries d ∪ {[hashBytes (pc_data c)]}) with (dedup_entries d) by set_solver. lia.
    + assert (hashBytes (pc_data c) ∉ dedup_entries d) by (intros ?; intuition congruence).
      rewrite size_union by set_solver. rewrite size_singleton. lia.
Qed.

Lemma encode_ok nonce h e :
  hashed_ok h -> encodeFunc p nonce h = Ok e -> ec_chunk e = h /\ encoded_ok e.
Proof.
  intros Hh He. unfold encodeFunc in He. rewrite Hcipher in He. cbv zeta in He.
  destruct (hc_dup h) eqn:Ed.
  - injection He as <-. split; [done|]. unfold encoded_ok. cbn. rewrite Ed. split_and!; auto. done.
  - destruct (length (pl_keyID p) =? 0)%nat; [done|].
    apply obind_ok in He as (z & Hz & He). apply obind_ok in He as (pay & Hp & He).
    injection He as <-. split; [done|]. unfold encoded_ok. cbn. split_and!; auto.
    intros _ b i b' Hput. unfold holds. rewrite (put_get _ _ _ _ _ Hput). cbn [obind].
    destruct (open_seal _ _ _ _ _ _ Haead Hp) as (alg & _ & ->). cbn [obind].
    destruct (Hcomp _ _ Hz) as (c & -> & Hr). exact Hr.
Qed.

Lemma encode_run_inv e0 cs l1 h l2 es rs d b nonce e :
  encodeFunc p nonce h = Ok e ->
  run_inv e0 (mkPS cs (l1 ++ h :: l2) es rs d b) ->
  run_inv e0 (mkPS cs (l1 ++ l2) (es ++ [e]) rs d b).
Proof.
  intros He [Hv Hc Hhs Hes Hrs Hseen Hcov Hfr]. cbn in *.
  apply Forall_app in Hhs as [Hh1 Hh2]. apply Forall_cons in Hh2 as [Hh Hh2].
  destruct (encode_ok _ _ _ Hh He) as [Hech Hok]. constructor; cbn; auto.
  - rewrite <- Hv, !map_app. cbn. rewrite Hech, <- !app_assoc. solve_Permutation.
  - now apply Forall_app.
  - apply Forall_app. auto.
  - intros x Hx. apply Hseen. revert Hx. rewrite !map_app. cbn. rewrite Hech.
    rewrite !elem_of_app, !elem_of_cons. pose proof (not_elem_of_nil x). tauto.
  - intros x Hx. destruct (Hcov x Hx) as [(y & Hy & Hd & Hxy)|[(y & Hy & Hd & Hxy)|Hg]].
    + apply elem_of_app in Hy as [Hy|Hy]; [left; exists y; set_solver|].
      apply elem_of_cons in Hy as [->|Hy]; [|left; exists y; set_solver].
      right. left. exists e. rewrite Hech. set_solver.
    + right. left. exists y. set_solver.
    + auto.
  - rewrite fresh_count_mid in Hfr. rewrite (fresh_count_app _ es), fresh_count_one, Hech. lia.
Qed.

Lemma good_put b k v i b' h :
  be_put (contentKey k) v b = (Ok i, b') -> (exists x, k = hashBytes x) ->
  h <> k -> good b h -> good b' h.
Proof.
  intros Hput [x ->] Hne Hg c Hc Hh. specialize (Hg c Hc Hh). unfold holds in *.
  rewrite (put_other _ _ _ _ _ _ Hput); [done|]. subst h.
  intros E. apply contentKey_hash_inj in E. auto.
Qed.

Lemma upload_run_inv e0 cs hs l1 e l2 rs d b r b' :
  uploadFunc e b = (Ok r, b') ->
  run_inv e0 (mkPS cs hs (l1 ++ e :: l2) rs d b) ->
  run_inv e0 (mkPS cs hs (l1 ++ l2) (rs ++ [r]) d b').
Proof.
  intros Hup [Hv Hc Hhs Hes Hrs Hseen Hcov Hfr]. cbn in *.
  apply Forall_app in Hes as [He1 He2]. apply Forall_cons in He2 as [He He2].
  pose proof He as ((Hall & Hhash) & Hkey & Hcmp & Hput).
  assert (Hr : exists stored etag, r = refOf e stored etag /\
    (forall h, h = hc_hash (ec_chunk e) /\ hc_dup (ec_chunk e) = false \/ good b h -> good b' h)).
  { unfold uploadFunc in Hup. destruct (hc_dup (ec_chunk e)) eqn:Ed.
    - injection Hup as <- <-. do 2 eexists. split; [done|]. intros h [[_ ?]|?]; done.
    - destruct (be_put (ec_key e) (ec_payload e) b) as [[[st et]|m|m|] b1] eqn:Eput; try done.
      injection Hup as <- <-. do 2 eexists. split; [done|]. specialize (Hput eq_refl _ _ _ Eput).
      assert (Hself : good b1 (hc_hash (ec_chunk e))).
      { intros c Hc' Hh. rewrite Hhash in Hh. rewrite (Hnc c _ Hc' Hall Hh). done. }
      intros h [[-> _]|Hg]; [done|].
      destruct (decide (h = hc_hash (ec_chunk e))) as [->|Hne]; [done|].
      rewrite Hkey in Eput. eapply good_put; eauto. }
  destruct Hr as (stored & etag & -> & Hgood).
  assert (Hrv : ref_view (refOf e stored etag) = view (hc_chunk (ec_chunk e))).
  { unfold ref_view, view. cbn. now rewrite Hhash. }
  constructor; cbn; auto.
  - rewrite <- Hv, !map_app. cbn [map]. rewrite Hrv, <- !app_assoc. solve_Permutation.
  - now apply Forall_app.
  - apply Forall_app. split; [done|]. repeat constructor; cbn; auto.
  - intros x Hx. apply Hseen. revert Hx. rewrite !map_app. cbn.
    rewrite !elem_of_app, !elem_of_cons. pose proof (not_elem_of_nil x). tauto.
  - intros x Hx. destruct (Hcov x Hx) as [(y & Hy & Hd & Hxy)|[(y & Hy & Hd & Hxy)|Hg]].
    + left. exists y. auto.
    + apply elem_of_app in Hy as [Hy|Hy]; [right; left; exists y; set_solver|].
      apply elem_of_cons in Hy as [->|Hy]; [|right; left; exists y; set_solver].
      right. right. apply Hgood. left. auto.
    + right. right. auto.
  - rewrite fresh_count_mid in Hfr. rewrite (fresh_count_app _ rs), fresh_count_one. cbn. lia.
Qed.

Lemma run_inv_step e0 s s' : pstep hashBytes p s s' -> run_inv e0 s -> run_inv e0 s'.
Proof.
  intros [l1 c l2 hs es rs d b h d' Hh|cs l1 h l2 es rs d b nonce e He
         |cs hs l1 e l2 rs d b r b' Hu] Hinv.
  - eapply hash_run_inv; eauto.
  - eapply encode_run_inv; eauto.
  - eapply upload_run_inv; eauto.
Qed.

Lemma run_inv_rtc e0 s s' : rtc (pstep hashBytes p) s s' -> run_inv e0 s -> run_inv e0 s'.
Proof. induction 1; eauto using run_inv_step. Qed.

Lemma run_inv_start d b :
  (forall h, h ∈ dedup_entries d -> good b h) ->
  run_inv (dedup_entries d) (mkPS all [] [] [] d b).
Proof.
  intros Hg. constructor; cbn; auto.
  - now rewrite !app_nil_r.
  - now apply Forall_forall.
  - set_solver.
Qed.

(** ** Restoring *)

Definition numbered (l : list PipelineChunk) : Prop :=
  StronglySorted (fun a b => pc_seq a < pc_seq b) l /\
  Forall (fun c => pc_size c = zlen (pc_data c)) l.

Lemma restore_chunk_ok b c r :
  c ∈ all -> ref_view r = view c -> ref_ok r -> good b (cr_hash r) ->
  pc_size c = zlen (pc_data c) ->
  restoreChunk hashBytes gzip zstd p cipher b r = (Ok (zlen (pc_data c)), pc_data c).
Proof.
  unfold ref_view, view. intros Hc [= Hs Ho Hz Hh] [Hk Hcmp] Hg Hsz.
  unfold restoreChunk. rewrite Hk, Hcmp, Hh in *.
  destruct (Nat.eqb_spec (length (contentKey (hashBytes (pc_data c)))) 0) as [H0|_].
  { unfold contentKey in H0. rewrite length_app in H0. simpl in H0. lia. }
  pose proof (Hg c Hc eq_refl) as Hd. unfold holds in Hd. rewrite Hd.
  rewrite (proj2 (beqb_eq _ _) eq_refl). cbn [negb].
  rewrite Hz, Hsz, Z.eqb_refl, andb_false_r. done.
Qed.

Lemma restore_loop_ok b : forall rs cs st out,
  map ref_view rs = map view cs -> Forall (fun c => c ∈ all) cs -> Forall ref_ok rs ->
  Forall (fun r => good b (cr_hash r)) rs ->
  Forall (fun c => pc_size c = zlen (pc_data c)) cs ->
  exists st', restore_loop hashBytes gzip zstd p cipher b rs st out =
      (Ok st', out ++ concat (map pc_data cs)) /\
    st_chunks st' = st_chunks st + zlen cs /\
    st_bytesIn st' = st_bytesIn st + zlen (concat (map pc_data cs)).
Proof.
  induction rs as [|r rs IH]; intros [|c cs] st out Hv Hc Hr Hg Hsz; try done.
  - exists st. simpl. rewrite app_nil_r. autorewrite with klen. split_and!; auto; lia.
  - cbn [map] in Hv. apply (f_equal (fun l => (head l, tail l))) in Hv.
    cbn [head tail] in Hv. apply pair_eq in Hv as [Hv0 Hv]. apply (inj Some) in Hv0.
    apply Forall_cons in Hc as [Hc0 Hc]. apply Forall_cons in Hr as [Hr0 Hr].
    apply Forall_cons in Hg as [Hg0 Hg]. apply Forall_cons in Hsz as [Hs0 Hsz].
    cbn [restore_loop]. rewrite (restore_chunk_ok b c r Hc0 Hv0 Hr0 Hg0 Hs0).
    edestruct (IH cs) as (st' & Hrun & H1 & H2); eauto.
    exists st'. rewrite Hrun. cbn in H1, H2 |- *. rewrite <- app_assoc.
    autorewrite with klen. split_and!; auto; lia.
Qed.

Lemma run_done_restores d b rs d' b' :
  (forall h, h ∈ dedup_entries d -> good b h) -> numbered all ->
  rtc (pstep hashBytes p) (mkPS all [] [] [] d b) (mkPS [] [] [] rs d' b') ->
  exists st, Restore hashBytes gzip zstd p b' (sort_by ref_less rs) =
      (Ok st, concat (map pc_data all)) /\
    st_chunks st = zlen all /\ st_bytesIn st = zlen (concat (map pc_data all)).
Proof.
  intros Hg [Hnum Hsz] Hrun.
  pose proof (run_inv_rtc _ _ _ Hrun (run_inv_start d b Hg)) as [Hv _ _ _ Hrs Hseen Hcov _].
  cbn in *. unfold Restore. rewrite Hcipher.
  assert (Hsort : map ref_view (sort_by ref_less (sort_by ref_less rs)) = map view all).
  { apply (sorted_perm_unique (fun v => fst (fst (fst v)))).
    - rewrite <- Hv. apply Permutation_map. now rewrite !sort_by_perm.
    - apply StronglySorted_map. cbn. apply ref_sort_sorted.
    - apply StronglySorted_map. exact Hnum. }
  destruct (restore_loop_ok b' (sort_by ref_less (sort_by ref_less rs)) all noStats []) as
    (st & Hr & H1 & H2); auto.
  - now apply Forall_forall.
  - now rewrite !sort_by_perm.
  - rewrite !sort_by_perm. apply Forall_forall. intros r Hr.
    destruct (Hcov (cr_hash r)) as [(y & Hy & _)|[(y & Hy & _)|Hgd]]; [|set_solver..|done].
    apply Hseen. rewrite list_elem_of_fmap. eauto.
  - exists st. rewrite Hr. split_and!; auto.
Qed.
End proofs.

(** ** From the stream to numbered chunks *)

Definition number (start : Z) (l : list Chunk) : list PipelineChunk :=
  imap (fun i c => mkPC (start + Z.of_nat i) (c_offset c) (c_size c) (c_data c)) l.

Lemma number_cons n c l :
  number n (c :: l) = mkPC n (c_offset c) (c_size c) (c_data c) :: number (n + 1) l.
Proof.
  unfold number. cbn [imap]. f_equal; [f_equal; lia|]. apply imap_ext. intros i x _.
  unfold compose. f_equal. lia.
Qed.

Lemma number_miter l : forall n acc,
  miter (fun c st => (Ok tt, (fst st + 1,
           snd st ++ [mkPC (fst st) (c_offset c) (c_size c) (c_data c)]))) l (n, acc)
  = (Ok tt, (n + zlen l, acc ++ number n l)).
Proof.
  induction l as [|c l IH]; intros n acc.
  - cbn. rewrite app_nil_r. unfold zlen. simpl. now rewrite Z.add_0_r.
  - cbn [miter]. unfold mbind. cbn [fst snd]. rewrite IH, number_cons, zlen_cons, <- app_assoc.
    cbn. f_equal. f_equal. lia.
Qed.

Lemma number_data n l : map pc_data (number n l) = map c_data l.
Proof. revert n. induction l as [|c l IH]; intros n; [done|]. rewrite number_cons. simpl. now rewrite IH. Qed.

Lemma number_zlen n l : zlen (number n l) = zlen l.
Proof. unfold zlen, number. now rewrite length_imap. Qed.

Lemma number_seq_ge l : forall n, Forall (fun c => n <= pc_seq c) (number n l).
Proof.
  induction l as [|c l IH]; intros n; [constructor|]. rewrite number_cons. constructor; [cbn; lia|].
  eapply Forall_impl; [apply IH|]. cbn. intros. lia.
Qed.

Lemma number_numbered c l : forall off n, laid_out c off l -> numbered (number n l).
Proof.
  induction l as [|x l IH]; intros off n Hl; [split; constructor|].
  destruct Hl as (_ & Hs & _ & _ & Hl). destruct (IH _ (n + 1) Hl) as [H1 H2].
  rewrite number_cons. split; constructor; auto.
  eapply Forall_impl; [apply number_seq_ge|]. cbn. intros. lia.
Qed.

(** The chunks depend on the bytes of the stream only. *)
Lemma chunkFunc_cuts p r :
  cdc_ok (pl_chunker p) -> regular r -> zlen (content r) < 2 ^ 63 ->
  let all := number 0 (cuts (pl_chunker p) (content r)) in chunkFunc p r = (Ok tt, (zlen all, all)).
Proof.
  intros Hc Hr Hsz. unfold chunkFunc. rewrite ForEach_reference by auto. now rewrite number_miter, number_zlen.
Qed.

Lemma chunkFunc_ok p r :
  cdc_ok (pl_chunker p) -> regular r -> zlen (content r) < 2 ^ 63 ->
  exists all, chunkFunc p r = (Ok tt, (zlen all, all)) /\ numbered all /\
    concat (map pc_data all) = content r.
Proof.
  intros Hc Hr Hsz. exists (number 0 (cuts (pl_chunker p) (content r))).
  destruct (cut_shape (pl_chunker p) (length (content r)) 0 (content r) Hc) as [Hcat Hlay]; [lia|].
  split_and!.
  - now apply chunkFunc_cuts.
  - eapply number_numbered; eauto.
  - now rewrite number_data.
Qed.

(** The counters of [Feed]. *)
Lemma addRef_fold rs : forall s,
  let s' := foldl addRef s rs in
  st_chunks s' = st_chunks s + zlen rs /\
  st_bytesIn s' = st_bytesIn s + foldr (fun r a => cr_size r + a) 0 rs /\
  st_uploaded s' = st_uploaded s + fresh_count cr_dup rs /\
  st_uploaded s' + st_deduped s' = st_uploaded s + st_deduped s + zlen rs.
Proof.
  induction rs as [|r rs IH]; intros s; cbn [foldl foldr].
  - unfold fresh_count. cbn. unfold zlen. simpl. lia.
  - cbv zeta. destruct (IH (addRef s r)) as (H1 & H2 & H3 & H4). clear IH.
    rewrite zlen_cons. change (r :: rs) with ([r] ++ rs). rewrite fresh_count_app, fresh_count_one.
    remember (foldl addRef (addRef s r) rs) as s2. clear Heqs2.
    unfold addRef in *. destruct (cr_dup r); cbn in *; lia.
Qed.

Section roundtrip.
  Context (hashBytes : bytes -> bytes) (gzip zstd : Compressor).
  Context {B : Type} {BE : Backend B} {BL : BackendLaws B}.

(** Chunks of the stream [r] as the pipeline cuts it. *)
Definition stream_chunks (p : Pipeline) (r : list read_result) : list PipelineChunk :=
  snd (snd (chunkFunc p r)).

(** The parts outside the repository behave as documented, for this
    pipeline, stream, dedup state and backend. *)
Record environment_ok (p : Pipeline) (cipher : Cipher) (r : list read_result) (d : dedup) (b : B)
    : Prop := {
  en_cipher : pl_cipher p = Some cipher;
  en_aead : aead_correct cipher;
  en_hash : forall x, zlen (hashBytes x) = HashSize;
  en_compressor : compressor_roundtrip gzip zstd p;
  en_collision : no_collision hashBytes (stream_chunks p r);
  en_index : forall h, h ∈ dedup_entries d ->
               good hashBytes gzip zstd p cipher (stream_chunks p r) b h
}.

(** What a manifest needs to know of the references of a finished run. *)
Lemma feed_refs_ok (p : Pipeline) (cipher : Cipher) (r : list read_result)
    (d d' : dedup) (b b' : B) (refs : list ChunkRef) (st : Stats) :
  cdc_ok (pl_chunker p) -> regular r -> zlen (content r) < 2 ^ 63 ->
  environment_ok p cipher r d b -> Feed hashBytes p r d b (Ok (refs, st)) d' b' ->
  (exists st', Restore hashBytes gzip zstd p b' refs = (Ok st', content r)) /\
  Forall (fun ref => cr_key ref = contentKey (cr_hash ref) /\ zlen (cr_hash ref) = HashSize) refs /\
  StronglySorted (fun x y => ref_less y x = false) refs.
Proof.
  intros Hc Hr Hsz [Hci Ha Hh Hcomp Hnc Hidx] Hfeed.
  destruct (chunkFunc_ok p r Hc Hr Hsz) as (all & Hcf & Hnum & Hcat).
  unfold stream_chunks in *. rewrite Hcf in *. cbn [fst snd] in *.
  inversion Hfeed as [rs d1 b1 _ Hrun E1 E2 E3| |]; subst. unfold feed_start in Hrun.
  rewrite Hcf in Hrun. cbn [fst snd] in Hrun.
  destruct (run_done_restores hashBytes gzip zstd p cipher Hci Ha Hh Hcomp all Hnc
              d b rs d' b' Hidx Hnum Hrun) as (st' & Hres & _ & _).
  assert (Hinv : run_inv hashBytes gzip zstd p cipher all (dedup_entries d)
                   (mkPS [] [] [] rs d' b')).
  { eapply run_inv_rtc; eauto. eapply run_inv_start; eauto. }
  rewrite Hcat in Hres. split; [eauto|]. split.
  - rewrite sort_by_perm. apply Forall_forall. intros ref Hin.
    pose proof (ri_refs _ _ _ _ _ _ _ _ Hinv) as Hrs. cbn in Hrs. rewrite Forall_forall in Hrs.
    split; [now apply Hrs|]. pose proof (ri_views _ _ _ _ _ _ _ _ Hinv) as Hv. cbn in Hv.
    assert (Hview : ref_view ref ∈ map (view hashBytes) all).
    { rewrite <- Hv. now apply list_elem_of_fmap_2. }
    apply list_elem_of_fmap in Hview as (c & E & _). unfold ref_view, view in E.
    injection E as _ _ _ ->. apply Hh.
  - apply sort_by_sorted; unfold ref_less.
    + intros x. apply Z.ltb_irrefl.
    + intros x y z. rewrite !Z.ltb_lt. lia.
    + intros x y z. rewrite !Z.ltb_ge. lia.
Qed.

(** C4: Backup then restore is the identity, under every schedule of the
    pipeline's workers: whenever [Feed] completes on a stream, [Restore] of
    the references it returned, against the backend it left, succeeds and
    writes exactly the stream; it restores as many chunks and bytes as [Feed]
    counted; and exactly one chunk was uploaded per content hash that was new
    (the rest were deduplicated). *)
Theorem feed_restore_roundtrip (p : Pipeline) (cipher : Cipher) (r : list read_result)
    (d d' : dedup) (b b' : B) (refs : list ChunkRef) (st : Stats)
    (Hc : cdc_ok (pl_chunker p)) (Hr : regular r) (Hsz : zlen (content r) < 2 ^ 63)
    (Henv : environment_ok p cipher r d b)
    (Hfeed : Feed hashBytes p r d b (Ok (refs, st)) d' b') :
  exists st', Restore hashBytes gzip zstd p b' refs = (Ok st', content r) /\
    st_chunks st' = st_chunks st /\ st_bytesIn st' = zlen (content r) /\
    st_uploaded st + st_deduped st = st_chunks st /\
    st_uploaded st = Z.of_nat (size (dedup_entries d')) - Z.of_nat (size (dedup_entries d)).
Proof.
  destruct Henv as [Hci Ha Hh Hcomp Hnc Hidx].
  destruct (chunkFunc_ok p r Hc Hr Hsz) as (all & Hcf & Hnum & Hcat).
  unfold stream_chunks in *. rewrite Hcf in *. cbn [fst snd] in *.
  inversion Hfeed as [rs d1 b1 _ Hrun E1 E2 E3| |]; subst. unfold feed_start in Hrun.
  rewrite Hcf in Hrun. cbn [fst snd] in Hrun.
  destruct (run_done_restores hashBytes gzip zstd p cipher Hci Ha Hh Hcomp all Hnc
              d b rs d' b' Hidx Hnum Hrun) as (st' & Hres & H1 & H2).
  assert (Hinv : run_inv hashBytes gzip zstd p cipher all (dedup_entries d)
                   (mkPS [] [] [] rs d' b')).
  { eapply run_inv_rtc; eauto. eapply run_inv_start; eauto. }
  destruct (addRef_fold rs noStats) as (S1 & _ & S3 & S4). cbn in S1, S3, S4.
  assert (Hlen : zlen rs = zlen all).
  { pose proof (ri_views _ _ _ _ _ _ _ _ Hinv) as Hv. cbn in Hv.
    apply Permutation_length in Hv. rewrite !length_map in Hv. unfold zlen. lia. }
  exists st'. rewrite Hcat in *. split_and!; auto; try lia.
  pose proof (ri_fresh _ _ _ _ _ _ _ _ Hinv) as Hf. cbn in Hf. unfold fresh_count at 1 2 in Hf.
  cbn in Hf. rewrite S3. unfold zlen in Hf at 1 2. simpl in Hf. lia.
Qed.
End roundtrip.

(** ** A concrete run *)

Definition padHash (x : bytes) : bytes := take 32 (x ++ replicate 32 Byte.x00).
Definition toyPipeline : Pipeline := mkPipeline tiny None (Some toyCipher) [Byte.x6b].
Definition toyInput : list read_result := [REOF [Byte.x01; Byte.x02; Byte.x03]].

Lemma padHash_size x : zlen (padHash x) = HashSize.
Proof.
  unfold padHash, zlen, HashSize. rewrite length_take, length_app, length_replicate. lia.
Qed.

Lemma toy_env : environment_ok padHash noneCompressor noneCompressor (B := gmap bytes bytes)
  toyPipeline toyCipher toyInput (DSeen ∅) ∅.
Proof.
  constructor.
  - reflexivity.
  - exact toy_correct.
  - exact padHash_size.
  - intros x y [= <-]. exists noneCompressor. auto.
  - intros x y Hx Hy _. vm_compute in Hx, Hy.
    apply list_elem_of_singleton in Hx. apply list_elem_of_singleton in Hy. now subst.
  - set_solver.
Qed.

Definition toy_chunk : PipelineChunk := mkPC 0 0 3 [Byte.x01; Byte.x02; Byte.x03].
Definition toy_hashed : HashedChunk := mkHC toy_chunk (padHash (pc_data toy_chunk)) false.
Definition toy_encoded : EncodedChunk :=
  match encodeFunc toyPipeline [Byte.x09] toy_hashed with
  | Ok e => e | _ => mkEC toy_hashed [] "" "" [] [] end.
Definition toy_upload : outcome ChunkRef * gmap bytes bytes := uploadFunc toy_encoded ∅.
Definition toy_ref : ChunkRef :=
  match fst toy_upload with Ok r => r | _ => mkRef 0 [] [] 0 0 0 [] "" "" [] false end.

Lemma toy_run :
  Feed padHash (B := gmap bytes bytes) toyPipeline toyInput (DSeen ∅) ∅
    (Ok ([toy_ref], foldl addRef noStats [toy_ref]))
    (DSeen (∅ ∪ {[ padHash (pc_data toy_chunk) ]})) (snd toy_upload).
Proof.
  apply (feed_done padHash toyPipeline toyInput (DSeen ∅) ∅ [toy_ref]); [reflexivity|].
  change (feed_start toyPipeline toyInput (DSeen ∅) (∅ : gmap bytes bytes))
    with (mkPS ([] ++ toy_chunk :: []) [] [] [] (DSeen ∅) (∅ : gmap bytes bytes)).
  eapply rtc_l; [apply st_hash; reflexivity|].
  eapply rtc_l; [apply (st_encode padHash toyPipeline [] [] toy_hashed [] [] []
                   (DSeen (∅ ∪ {[ padHash (pc_data toy_chunk) ]})) ∅ [Byte.x09] toy_encoded);
                 reflexivity|].
  eapply rtc_l; [|apply rtc_refl].
  apply (st_upload padHash toyPipeline [] [] [] toy_encoded [] []
           (DSeen (∅ ∪ {[ padHash (pc_data toy_chunk) ]})) ∅ toy_ref (snd toy_upload)).
  unfold toy_ref. fold toy_upload. reflexivity.
Qed.

Lemma feed_restore_roundtrip_witness :
  exists st', Restore padHash noneCompressor noneCompressor toyPipeline (snd toy_upload) [toy_ref]
      = (Ok st', content toyInput) /\
    st_chunks st' = st_chunks (foldl addRef noStats [toy_ref]) /\
    st_bytesIn st' = zlen (content toyInput) /\
    st_uploaded (foldl addRef noStats [toy_ref]) + st_deduped (foldl addRef noStats [toy_ref])
      = st_chunks (foldl addRef noStats [toy_ref]) /\
    st_uploaded (foldl addRef noStats [toy_ref]) =
      Z.of_nat (size (dedup_entries (DSeen (∅ ∪ {[ padHash (pc_data toy_chunk) ]})))) -
      Z.of_nat (size (dedup_entries (DSeen ∅))).
Proof.
  apply (feed_restore_roundtrip padHash noneCompressor noneCompressor toyPipeline toyCipher
           toyInput (DSeen ∅) (DSeen (∅ ∪ {[ padHash (pc_data toy_chunk) ]})) ∅
           (snd toy_upload) [toy_ref] (foldl addRef noStats [toy_ref])).
  - unfold cdc_ok. simpl. lia.
  - reflexivity.
  - vm_compute. reflexivity.
  - exact toy_env.
  - exact toy_run.
Defined.

(** ** Progress *)

Section progress.
  Context (hashBytes : bytes -> bytes) {B : Type} {BE : Backend B}.

Definition work (s : pstate (B := B)) : nat :=
  (3 * length (ps_chunks s) + 2 * length (ps_hashed s) + length (ps_encoded s))%nat.

Definition plain {A} (o : outcome A) : Prop :=
  match o with Ok _ | Err _ => True | _ => False end.

Lemma envelopeAlgorithm_plain n : plain (envelopeAlgorithm n).
Proof. unfold envelopeAlgorithm. repeat case_match; exact I. Qed.

Lemma SealEnvelope_plain c n k pt ad : plain (SealEnvelope c n k pt ad).
Proof.
  unfold SealEnvelope. case_match; [exact I|].
  pose proof (envelopeAlgorithm_plain (ci_algorithm c)).
  destruct (envelopeAlgorithm (ci_algorithm c)) as [a|e|e|]; cbn; try done.
  unfold marshalHeader. repeat case_match; simplify_eq; exact I.
Qed.

Lemma encodeFunc_plain p n h :
  (forall x, plain (co_write (runCompressor p) x)) -> plain (encodeFunc p n h).
Proof.
  intros Hw. unfold encodeFunc. cbv zeta. case_match; [exact I|].
  destruct (pl_cipher p) as [ci|]; [|exact I]. case_match; [exact I|].
  pose proof (Hw (pc_data (hc_chunk h))) as Hx.
  destruct (co_write (runCompressor p) (pc_data (hc_chunk h))) as [z|e|e|]; cbn; try done.
  pose proof (SealEnvelope_plain ci n (pl_keyID p) z (hc_hash h)).
  destruct (SealEnvelope ci n (pl_keyID p) z (hc_hash h)); cbn; done.
Qed.

Lemma uploadFunc_plain (e : EncodedChunk) (b : B) :
  (forall k v b, plain (fst (be_put k v b))) -> plain (fst (uploadFunc e b)).
Proof.
  intros Hput. unfold uploadFunc. case_match; [exact I|].
  pose proof (Hput (ec_key e) (ec_payload e) b).
  destruct (be_put (ec_key e) (ec_payload e) b) as [[[? ?]|?|?|] ?]; cbn in *; done.
Qed.

End progress.

