(* ===== verification/Core.v ===== *)
(** * core: identifiers, instants and the calendar

    Models src/internal/core/id.go and the records of
    src/internal/core/types.go the other components use, with what they need
    of Go's time package. An instant is a number of nanoseconds since Go's
    zero time (midnight UTC of January 1 of the year 1), so [IsZero] is a
    comparison with 0. Identifiers are ASCII strings. *)

From Stdlib Require Import Ascii String.
From S2P Require Import Prelude ChunkHash.
Local Open Scope Z_scope.

(** ** Identifiers *)

Definition asciiSpace (c : ascii) : bool :=
  let n := Z.of_nat (nat_of_ascii c) in ((9 <=? n) && (n <=? 13)) || (n =? 32).

(** [ID.IsZero]: nothing but white space. *)
Fixpoint IDIsZero (id : string) : bool :=
  match id with
  | EmptyString => true
  | String c r => asciiSpace c && IDIsZero r
  end.

(** [newID] on 16 bytes of entropy, as bytes of the text form. *)
Definition dash : bytes := [Byte.x2d].

Definition formatUUID (b : bytes) : bytes :=
  hexEncode (take 4 b) ++ dash ++ hexEncode (take 2 (drop 4 b)) ++ dash ++
  hexEncode (take 2 (drop 6 b)) ++ dash ++ hexEncode (take 2 (drop 8 b)) ++ dash ++
  hexEncode (take 6 (drop 10 b)).

Definition newID (unixMillis : Z) (entropy : bytes) : outcome bytes :=
  if (length entropy <? 16)%nat then Err "generate id entropy"
  else
    let e i := b2z (nth i entropy Byte.x00) in
    let ms := u64 unixMillis in
    let b := map z2b [Z.shiftr ms 40; Z.shiftr ms 32; Z.shiftr ms 24; Z.shiftr ms 16;
                      Z.shiftr ms 8; ms;
                      Z.lor (Z.land (e 6%nat) 15) 112; e 7%nat;
                      Z.lor (Z.land (e 8%nat) 63) 128]
             ++ take 7 (drop 9 entropy) in
    Ok (formatUUID b).

(** ** Instants *)

Definition Time := Z.
Definition Second : Z := 1000000000.
Definition Minute : Z := 60 * Second.
Definition Hour : Z := 60 * Minute.
Definition Day : Z := 24 * Hour.

Definition TimeIsZero (t : Time) : bool := t =? 0.

(** *** UTC calendar

    Days are counted from January 1 of the year 1, a Monday. Years are
    counted from March so that the leap day is the last of its year. *)

Definition dayOf (t : Time) : Z := t / Day.

(** 0 is Sunday, as time.Weekday. *)
Definition weekdayOfDay (d : Z) : Z := (d + 1) mod 7.

(** Year, month and day of month. *)
Definition civil (d : Z) : Z * Z * Z :=
  let z := d + 306 in
  let era := z / 146097 in
  let doe := z mod 146097 in
  let yoe := (doe - doe / 1460 + doe / 36524 - doe / 146096) / 365 in
  let doy := doe - (365 * yoe + yoe / 4 - yoe / 100) in
  let mp := (5 * doy + 2) / 153 in
  let dd := doy - (153 * mp + 2) / 5 + 1 in
  let m := if mp <? 10 then mp + 3 else mp - 9 in
  let y := yoe + era * 400 + (if m <=? 2 then 1 else 0) in
  (y, m, dd).

Definition days_from_civil (y m d : Z) : Z :=
  let y' := if m <=? 2 then y - 1 else y in
  let era := y' / 400 in
  let yoe := y' mod 400 in
  let mp := if 2 <? m then m - 3 else m + 9 in
  let doy := (153 * mp + 2) / 5 + d - 1 in
  let doe := yoe * 365 + yoe / 4 - yoe / 100 + doy in
  era * 146097 + doe - 306.

(** Year and week of ISO 8601: those of the week's Thursday. *)
Definition isoWeek (d : Z) : Z * Z :=
  let mondayBased := (weekdayOfDay d + 6) mod 7 in
  let thursday := d - mondayBased + 3 in
  let '(y, _, _) := civil thursday in
  (y, (thursday - days_from_civil y 1 1) / 7 + 1).

(** Fixed points of the calendar: 0001-01-01, 1970-01-01 (a Thursday),
    2000-02-29, 2024-12-30 (ISO week 1 of 2025) and 2021-01-03 (ISO week 53
    of 2020). *)
Example calendar_fixed_points :
  civil 0 = (1, 1, 1) /\ civil 719162 = (1970, 1, 1) /\ weekdayOfDay 719162 = 4 /\
  days_from_civil 1970 1 1 = 719162 /\ civil (days_from_civil 2000 2 29) = (2000, 2, 29) /\
  isoWeek (days_from_civil 2024 12 30) = (2025, 1) /\
  isoWeek (days_from_civil 2021 1 3) = (2020, 53).
Proof. vm_compute. repeat split. Qed.

(** ** Records *)

Record Backup := mkBackup
  { bk_ID : string; bk_TargetID : string; bk_StorageID : string; bk_JobID : string;
    bk_Type : string; bk_ParentID : string; bk_ManifestID : string;
    bk_StartedAt : Time; bk_EndedAt : Time; bk_SizeBytes : Z; bk_ChunkCount : Z;
    bk_Protected : bool }.

Record JobHookAction := mkHookAction { ha_Shell : string; ha_WebhookURL : string }.
Record JobHooks := mkHooks { jh_PreBackup : list JobHookAction; jh_OnFailure : list JobHookAction }.

Record Schedule := mkSchedule
  { sc_ID : string; sc_Name : string; sc_TargetID : string; sc_StorageID : string;
    sc_BackupType : string; sc_Expression : string; sc_RetentionPolicy : string;
    sc_Hooks : JobHooks; sc_Paused : bool; sc_CreatedAt : Time; sc_UpdatedAt : Time;
    sc_Labels : gmap string string }.

(** Values a rule parameter can hold after JSON or YAML decoding; a float
    parameter is given by the integer its conversion yields. *)
Inductive any : Type :=
| AInt (z : Z)
| AFloat (trunc : Z)
| AString (s : string)
| ADuration (d : Z)
| AOther.

Record RetentionRule := mkRule { rr_Kind : string; rr_Params : gmap string any }.
Record RetentionPolicy := mkPolicy { rp_Rules : list RetentionRule }.

#[export] Instance JobHookAction_eq_dec : EqDecision JobHookAction.
Proof. solve_decision. Defined.
#[export] Instance JobHooks_eq_dec : EqDecision JobHooks.
Proof. solve_decision. Defined.
#[export] Instance Backup_eq_dec : EqDecision Backup.
Proof. solve_decision. Defined.
