(* ===== verification/Retention.v ===== *)
(** * retention: which backups a policy keeps

    Models src/internal/retention/retention.go. [time.ParseDuration] and
    [fmt.Sprint] are parameters; a GFS key is the tuple its format string
    prints. *)

From Stdlib Require Import Ascii String.
From S2P Require Import Prelude Core.
Local Open Scope Z_scope.

Record PlanItem := mkItem { pi_backup : Backup; pi_keep : bool; pi_reasons : list string }.

Definition backupTime (b : Backup) : Time :=
  if negb (TimeIsZero (bk_EndedAt b)) then bk_EndedAt b else bk_StartedAt b.

Definition keep (item : PlanItem) (reason : string) : PlanItem :=
  mkItem (pi_backup item) true
    (if existsb (String.eqb reason) (pi_reasons item) then pi_reasons item
     else pi_reasons item ++ [reason]).

(** ** Parameters *)

(** strconv.ParseInt(s, 10, 64) *)
Fixpoint digitsValue (s : string) (acc : Z) : option Z :=
  match s with
  | EmptyString => Some acc
  | String c r =>
      let n := Z.of_nat (nat_of_ascii c) in
      if (48 <=? n) && (n <=? 57) then digitsValue r (10 * acc + (n - 48)) else None
  end.

Definition ParseInt (s : string) : outcome Z :=
  let '(neg, body) := match s with
    | String "-" r => (true, r)
    | String "+" r => (false, r)
    | _ => (false, s)
    end in
  match body with
  | EmptyString => Err "invalid syntax"
  | _ => match digitsValue body 0 with
         | None => Err "invalid syntax"
         | Some n =>
             let v := if (neg : bool) then - n else n in
             if (v <? - 2 ^ 63) || (2 ^ 63 - 1 <? v) then Err "value out of range" else Ok v
         end
  end.

Definition toInt64 (v : any) : outcome Z :=
  match v with
  | AInt z => Ok (i64 z)
  | AFloat z => Ok (i64 z)
  | AString s => ParseInt s
  | ADuration _ | AOther => Err "unsupported type"
  end.

Fixpoint findParam (params : gmap string any) (names : list string) : option any :=
  match names with
  | [] => None
  | n :: r => match params !! n with Some v => Some v | None => findParam params r end
  end.

(** [intParam] and [int64Param] are the same on a 64-bit platform. *)
Definition intParam (params : gmap string any) (names : list string) : outcome Z :=
  match findParam params names with
  | None => Err "missing retention param"
  | Some v => toInt64 v
  end.
Definition int64Param := intParam.

Definition optionalIntParam (params : gmap string any) (name : string) : outcome Z :=
  match params !! name with
  | None => Ok 0
  | Some v =>
      n <~ toInt64 v ;;
      if n <? 0 then Err "retention param must be >= 0" else Ok n
  end.

Section resolve.
  (** time.ParseDuration, and fmt.Sprint of a value that is not a string. *)
  Context (parseDuration : string -> outcome Z) (sprint : any -> string).

Definition stringParam (params : gmap string any) (name : string) : string :=
  match params !! name with
  | None => EmptyString
  | Some (AString s) => s
  | Some v => sprint v
  end.

Definition durationParam (params : gmap string any) (names : list string) : outcome Z :=
  match findParam params names with
  | None => Err "missing retention param"
  | Some (ADuration d) => Ok d
  | Some (AString s) => parseDuration s
  | Some v => n <~ toInt64 v ;; Ok (i64 (n * Second))
  end.

(** ** Rules *)

Fixpoint count_loop (n : Z) (backupType : string) (kept : Z) (items : list PlanItem)
    : list PlanItem :=
  match items with
  | [] => []
  | it :: r =>
      if negb (String.eqb backupType "") && negb (String.eqb (bk_Type (pi_backup it)) backupType)
      then it :: count_loop n backupType kept r
      else if kept <? n then keep it "count" :: count_loop n backupType (kept + 1) r
      else it :: count_loop n backupType kept r
  end.

Definition applyCount (items : list PlanItem) (rule : RetentionRule) : outcome (list PlanItem) :=
  n <~ intParam (rr_Params rule) ["n"; "keep"; "count"] ;;
  if n <? 0 then Err "count retention must be >= 0"
  else Ok (count_loop n (stringParam (rr_Params rule) "type") 0 items).

Definition applyTime (items : list PlanItem) (rule : RetentionRule) (now : Time)
    : outcome (list PlanItem) :=
  duration <~ durationParam (rr_Params rule) ["duration"; "younger_than"] ;;
  if duration <? 0 then Err "time retention duration must be >= 0"
  else
    let cutoff := now - duration in
    Ok (map (fun it => if negb (backupTime (pi_backup it) <? cutoff) then keep it "time" else it)
          items).

Fixpoint size_loop (maxBytes total : Z) (items : list PlanItem) : list PlanItem :=
  match items with
  | [] => []
  | it :: r =>
      if bk_Protected (pi_backup it) then it :: size_loop maxBytes total r
      else if i64 (total + bk_SizeBytes (pi_backup it)) <=? maxBytes
      then keep it "size" :: size_loop maxBytes (i64 (total + bk_SizeBytes (pi_backup it))) r
      else it :: size_loop maxBytes total r
  end.

Definition applySize (items : list PlanItem) (rule : RetentionRule) : outcome (list PlanItem) :=
  maxBytes <~ int64Param (rr_Params rule) ["max_bytes"; "bytes"] ;;
  if maxBytes <? 0 then Err "size retention max_bytes must be >= 0"
  else Ok (size_loop maxBytes 0 items).

(** One of the four GFS tiers on one item: [limit] periods are kept, [seen]
    holds the periods kept so far. *)
Definition gfs_tier {K} `{Countable K} (limit : Z) (key : K) (reason : string)
    (seen : gset K) (it : PlanItem) : gset K * PlanItem :=
  if Z.of_nat (size seen) <? limit then
    if bool_decide (key ∈ seen) then (seen, it)
    else (seen ∪ {[ key ]}, keep it reason)
  else (seen, it).

Record gfs_seen := mkSeen
  { gs_daily : gset (Z * Z * Z); gs_weekly : gset (Z * Z);
    gs_monthly : gset (Z * Z); gs_yearly : gset Z }.

Fixpoint gfs_loop (daily weekly monthly yearly : Z) (s : gfs_seen) (items : list PlanItem)
    : list PlanItem :=
  match items with
  | [] => []
  | it :: r =>
      let day := dayOf (backupTime (pi_backup it)) in
      let '(y, m, d) := civil day in
      let '(sd, it) := gfs_tier daily (y, m, d) "gfs:daily" (gs_daily s) it in
      let '(sw, it) := gfs_tier weekly (isoWeek day) "gfs:weekly" (gs_weekly s) it in
      let '(sm, it) := gfs_tier monthly (y, m) "gfs:monthly" (gs_monthly s) it in
      let '(sy, it) := gfs_tier yearly y "gfs:yearly" (gs_yearly s) it in
      it :: gfs_loop daily weekly monthly yearly (mkSeen sd sw sm sy) r
  end.

Definition applyGFS (items : list PlanItem) (rule : RetentionRule) : outcome (list PlanItem) :=
  daily <~ optionalIntParam (rr_Params rule) "daily" ;;
  weekly <~ optionalIntParam (rr_Params rule) "weekly" ;;
  monthly <~ optionalIntParam (rr_Params rule) "monthly" ;;
  yearly <~ optionalIntParam (rr_Params rule) "yearly" ;;
  Ok (gfs_loop daily weekly monthly yearly (mkSeen ∅ ∅ ∅ ∅) items).

(** ** Ancestors *)

(** [byID]: the index of the last item with the identifier. *)
Fixpoint byID_from (i : nat) (items : list PlanItem) (m : gmap string nat) : gmap string nat :=
  match items with
  | [] => m
  | it :: r =>
      byID_from (S i) r
        (if IDIsZero (bk_ID (pi_backup it)) then m else <[bk_ID (pi_backup it) := i]> m)
  end.
Definition byID (items : list PlanItem) : gmap string nat := byID_from 0 items ∅.

(** One iteration of the inner loop, at index [i]; the slice is updated in
    place, so later iterations see the change. *)
Definition chain_step (ix : gmap string nat) (i : nat) (st : bool * list PlanItem)
    : bool * list PlanItem :=
  let '(changed, items) := st in
  match items !! i with
  | None => st
  | Some item =>
      if negb (pi_keep item) || IDIsZero (bk_ParentID (pi_backup item)) then st
      else match ix !! bk_ParentID (pi_backup item) with
           | None => st
           | Some parentIndex =>
               match items !! parentIndex with
               | None => st
               | Some parent =>
                   if pi_keep parent then st
                   else (true, <[parentIndex := keep parent "chain"]> items)
               end
           end
  end.

Definition chain_pass (ix : gmap string nat) (items : list PlanItem) : bool * list PlanItem :=
  foldl (fun st i => chain_step ix i st) (false, items) (seq 0 (length items)).

(** The outer loop; a pass that changes something keeps one more item, so
    [length items + 1] passes are enough ([chain_loop_spec]). *)
Fixpoint chain_loop (fuel : nat) (ix : gmap string nat) (items : list PlanItem)
    : outcome (list PlanItem) :=
  match fuel with
  | O => Fuel
  | S f =>
      let '(changed, items') := chain_pass ix items in
      if (changed : bool) then chain_loop f ix items' else Ok items'
  end.

Definition protectKeptAncestors (items : list PlanItem) : outcome (list PlanItem) :=
  chain_loop (S (length items)) (byID items) items.

(** ** Resolve *)

Definition applyRule (now : Time) (items : list PlanItem) (rule : RetentionRule)
    : outcome (list PlanItem) :=
  if String.eqb (rr_Kind rule) "count" then applyCount items rule
  else if String.eqb (rr_Kind rule) "time" then applyTime items rule now
  else if String.eqb (rr_Kind rule) "size" then applySize items rule
  else if String.eqb (rr_Kind rule) "gfs" then applyGFS items rule
  else Err "unsupported retention rule".

Fixpoint applyRules (now : Time) (items : list PlanItem) (rules : list RetentionRule)
    : outcome (list PlanItem) :=
  match rules with
  | [] => Ok items
  | r :: rs => items <~ applyRule now items r ;; applyRules now items rs
  end.

Definition newer (a b : PlanItem) : bool :=
  backupTime (pi_backup b) <? backupTime (pi_backup a).

Definition keepProtected (it : PlanItem) : PlanItem :=
  if bk_Protected (pi_backup it) then keep it "protected" else it.

(** [wall] is the clock, read when [now] is the zero time. *)
Definition Resolve (wall : Time) (backups : list Backup) (policy : RetentionPolicy) (now : Time)
    : outcome (list PlanItem) :=
  let now := if TimeIsZero now then wall else now in
  let items := map (fun b => mkItem b false []) backups in
  let items := sort_by newer items in
  let items := map keepProtected items in
  items <~ applyRules now items (rp_Rules policy) ;;
  protectKeptAncestors items.

Definition KeepIDs (plan : list PlanItem) : gset string :=
  list_to_set (map (fun it => bk_ID (pi_backup it)) (List.filter pi_keep plan)).
Definition DropIDs (plan : list PlanItem) : gset string :=
  list_to_set (map (fun it => bk_ID (pi_backup it)) (List.filter (fun it => negb (pi_keep it)) plan)).
End resolve.

(** ** What the rules preserve *)

(** The same backup, kept if it was kept. *)
Definition kept_le (a b : PlanItem) : Prop :=
  pi_backup a = pi_backup b /\ (pi_keep a = true -> pi_keep b = true).

#[export] Instance kept_le_preorder : PreOrder kept_le.
Proof.
  split.
  - intros a. split; auto.
  - intros a b c [H1 H2] [H3 H4]. split; [congruence|auto].
Qed.

Lemma kept_le_keep it reason : kept_le it (keep it reason).
Proof. split; auto. Qed.

Lemma kept_le_refl_list l : Forall2 kept_le l l.
Proof. induction l; constructor; auto. reflexivity. Qed.

Lemma kept_le_trans_list a b c : Forall2 kept_le a b -> Forall2 kept_le b c -> Forall2 kept_le a c.
Proof.
  intros H. revert c. induction H as [|x y l k Hxy H IH]; intros c Hc; inv Hc; constructor; auto.
  etransitivity; eassumption.
Qed.

Lemma kept_le_backups a b : Forall2 kept_le a b -> map pi_backup a = map pi_backup b.
Proof. induction 1 as [|x y l k [H _] _ IH]; simpl; congruence. Qed.

Create HintDb retention discriminated.
#[local] Hint Resolve kept_le_keep kept_le_refl_list : retention.
#[local] Hint Extern 0 (kept_le ?a ?a) => reflexivity : retention.

Lemma count_loop_le n ty items : forall kept, Forall2 kept_le items (count_loop n ty kept items).
Proof.
  induction items as [|it r IH]; intros kept; simpl; [constructor|].
  repeat case_match; constructor; auto with retention.
Qed.

Lemma size_loop_le mx items : forall total, Forall2 kept_le items (size_loop mx total items).
Proof.
  induction items as [|it r IH]; intros total; simpl; [constructor|].
  repeat case_match; constructor; auto with retention.
Qed.

Lemma gfs_tier_le {K} `{Countable K} limit (key : K) reason seen it :
  kept_le it (snd (gfs_tier limit key reason seen it)).
Proof. unfold gfs_tier. repeat case_match; cbn [snd]; auto with retention. Qed.

Lemma gfs_loop_le d w m y items : forall s, Forall2 kept_le items (gfs_loop d w m y s items).
Proof.
  induction items as [|it r IH]; intros s; [constructor|]. cbn [gfs_loop]. cbv zeta.
  destruct (civil (dayOf (backupTime (pi_backup it)))) as [[yy mm] dd].
  pose proof (gfs_tier_le d (yy, mm, dd) "gfs:daily" (gs_daily s) it) as H1.
  destruct (gfs_tier d (yy, mm, dd) "gfs:daily" (gs_daily s) it) as [sd i1]. cbn [snd] in H1.
  pose proof (gfs_tier_le w (isoWeek (dayOf (backupTime (pi_backup it)))) "gfs:weekly"
                (gs_weekly s) i1) as H2.
  destruct (gfs_tier w _ "gfs:weekly" (gs_weekly s) i1) as [sw i2]. cbn [snd] in H2.
  pose proof (gfs_tier_le m (yy, mm) "gfs:monthly" (gs_monthly s) i2) as H3.
  destruct (gfs_tier m _ "gfs:monthly" (gs_monthly s) i2) as [sm i3]. cbn [snd] in H3.
  pose proof (gfs_tier_le y yy "gfs:yearly" (gs_yearly s) i3) as H4.
  destruct (gfs_tier y yy "gfs:yearly" (gs_yearly s) i3) as [sy i4]. cbn [snd] in H4.
  constructor; [|apply IH]. etransitivity; [|exact H4]. etransitivity; [|exact H3].
  etransitivity; eassumption.
Qed.

Section rules.
  Context (parseDuration : string -> outcome Z) (sprint : any -> string).

Lemma applyRule_le now items rule items' :
  applyRule parseDuration sprint now items rule = Ok items' -> Forall2 kept_le items items'.
Proof.
  unfold applyRule, applyCount, applyTime, applySize, applyGFS. intros H.
  repeat match type of H with
         | (if ?b then _ else _) = _ => destruct b; try discriminate
         | obind _ _ = _ => apply obind_ok in H as (? & _ & H)
         end; injection H as <-; auto using count_loop_le, size_loop_le, gfs_loop_le.
  clear. induction items; simpl; constructor; auto. case_match; auto with retention.
Qed.

Lemma applyRules_le now rules : forall items items',
  applyRules parseDuration sprint now items rules = Ok items' -> Forall2 kept_le items items'.
Proof.
  induction rules as [|r rs IH]; intros items items' H; simpl in H.
  - injection H as <-. apply kept_le_refl_list.
  - apply obind_ok in H as (i1 & H1 & H). eapply kept_le_trans_list; eauto using applyRule_le.
Qed.
End rules.

(** ** The ancestor loop *)

Lemma byID_from_lookup items : forall i m id j,
  byID_from i items m !! id = Some j ->
  m !! id = Some j \/ exists k it, j = (i + k)%nat /\ items !! k = Some it /\ bk_ID (pi_backup it) = id.
Proof.
  induction items as [|it r IH]; intros i m id j H; simpl in H; [auto|].
  destruct (IH _ _ _ _ H) as [Hm|(k & it' & -> & Hk & Hid)].
  - case_match; [auto|]. destruct (decide (bk_ID (pi_backup it) = id)) as [Hid|Hne].
    + subst id. rewrite lookup_insert_eq in Hm. injection Hm as <-.
      right. exists 0%nat, it. split_and!; auto.
    + rewrite lookup_insert_ne in Hm by done. auto.
  - right. exists (S k), it'. split_and!; auto; lia.
Qed.

Lemma byID_from_mono items : forall i m id,
  is_Some (m !! id) -> is_Some (byID_from i items m !! id).
Proof.
  induction items as [|it r IH]; intros i m id H; simpl; [done|]. apply IH.
  case_match; [done|]. destruct (decide (bk_ID (pi_backup it) = id)) as [<-|].
  - rewrite lookup_insert_eq. eauto.
  - now rewrite lookup_insert_ne.
Qed.

Lemma byID_from_complete items : forall i m k it,
  items !! k = Some it -> IDIsZero (bk_ID (pi_backup it)) = false ->
  is_Some (byID_from i items m !! bk_ID (pi_backup it)).
Proof.
  induction items as [|x r IH]; intros i m k it Hk Hz; [done|]. destruct k as [|k]; simpl in *.
  - injection Hk as ->. rewrite Hz. apply byID_from_mono. rewrite lookup_insert_eq. eauto.
  - eauto.
Qed.

Lemma byID_spec items id j :
  byID items !! id = Some j -> exists it, items !! j = Some it /\ bk_ID (pi_backup it) = id.
Proof.
  intros H. apply byID_from_lookup in H as [H|(k & it & -> & Hk & Hid)]; [done|]. eauto.
Qed.

Lemma chain_step_le ix i st : Forall2 kept_le (snd st) (snd (chain_step ix i st)).
Proof.
  unfold chain_step. destruct st as [ch items]. cbn [snd].
  repeat case_match; cbn [snd]; auto with retention.
  apply Forall2_same_length_lookup. split; [now rewrite length_insert|].
  intros k x y Hx Hy. destruct (decide (n = k)) as [->|Hne].
  - rewrite list_lookup_insert_eq in Hy by (eapply lookup_lt_Some; eauto).
    simplify_eq. apply kept_le_keep.
  - rewrite list_lookup_insert_ne in Hy by done. simplify_eq. reflexivity.
Qed.

Lemma chain_foldl_le ix l : forall st,
  Forall2 kept_le (snd st) (snd (foldl (fun st i => chain_step ix i st) st l)).
Proof.
  induction l as [|i l IH]; intros st; simpl; [apply kept_le_refl_list|].
  eapply kept_le_trans_list; [apply chain_step_le|apply IH].
Qed.

(** A step that reports no change changes nothing. *)
Lemma chain_step_false ix i st :
  fst (chain_step ix i st) = false -> chain_step ix i st = st /\ fst st = false.
Proof. unfold chain_step. destruct st as [ch items]. repeat case_match; cbn; auto; done. Qed.

Lemma chain_foldl_false ix l : forall st,
  fst (foldl (fun st i => chain_step ix i st) st l) = false ->
  foldl (fun st i => chain_step ix i st) st l = st /\ fst st = false /\
  forall i, i ∈ l -> chain_step ix i st = st.
Proof.
  induction l as [|i l IH]; intros st H; simpl in *; [split_and!; auto; set_solver|].
  destruct (IH _ H) as (H1 & H2 & H3). destruct (chain_step_false _ _ _ H2) as [H4 H5].
  rewrite H4 in *. split_and!; auto. intros j Hj. apply elem_of_cons in Hj as [->|Hj]; auto.
Qed.

Definition dropped (items : list PlanItem) : nat :=
  length (List.filter (fun it => negb (pi_keep it)) items).

Lemma dropped_insert items j parent reason :
  items !! j = Some parent -> pi_keep parent = false ->
  (dropped (<[j := keep parent reason]> items) < dropped items)%nat.
Proof.
  revert j. unfold dropped. induction items as [|x items IH]; intros j Hj Hk; [done|].
  destruct j as [|j]; simpl in *.
  - injection Hj as ->. rewrite Hk. simpl. lia.
  - specialize (IH j Hj Hk). destruct (negb (pi_keep x)); simpl; lia.
Qed.

Lemma chain_step_dropped ix i st :
  (dropped (snd (chain_step ix i st)) <= dropped (snd st))%nat /\
  (fst st = false -> fst (chain_step ix i st) = true ->
   (dropped (snd (chain_step ix i st)) < dropped (snd st))%nat).
Proof.
  unfold chain_step. destruct st as [ch items]. cbn [fst snd].
  repeat case_match; cbn [fst snd]; try (split; [lia|congruence]).
  match goal with H : items !! ?n = Some ?p, K : pi_keep ?p = false |- _ =>
    pose proof (dropped_insert items n p "chain" H K) end. split; [lia|auto].
Qed.

Lemma chain_foldl_dropped ix l : forall st,
  (dropped (snd (foldl (fun st i => chain_step ix i st) st l)) <= dropped (snd st))%nat /\
  (fst st = false -> fst (foldl (fun st i => chain_step ix i st) st l) = true ->
   (dropped (snd (foldl (fun st i => chain_step ix i st) st l)) < dropped (snd st))%nat).
Proof.
  induction l as [|i l IH]; intros st; simpl; [split; [lia|congruence]|].
  destruct (IH (chain_step ix i st)) as [H1 H2].
  destruct (chain_step_dropped ix i st) as [H3 H4]. split; [lia|]. intros Hf Ht.
  destruct (fst (chain_step ix i st)) eqn:E; [specialize (H4 Hf eq_refl); lia|].
  specialize (H2 eq_refl Ht). lia.
Qed.

(** Every kept item's indexed parent is kept. *)
Definition closed (ix : gmap string nat) (items : list PlanItem) : Prop :=
  forall i it j par, items !! i = Some it -> pi_keep it = true ->
    IDIsZero (bk_ParentID (pi_backup it)) = false ->
    ix !! bk_ParentID (pi_backup it) = Some j -> items !! j = Some par -> pi_keep par = true.

Lemma chain_pass_closed ix items :
  fst (chain_pass ix items) = false -> snd (chain_pass ix items) = items /\ closed ix items.
Proof.
  unfold chain_pass. intros H. destruct (chain_foldl_false _ _ _ H) as (H1 & _ & H3).
  rewrite H1. split; [done|]. intros i it j par Hi Hk Hz Hj Hp.
  assert (Hin : i ∈ seq 0 (length items)).
  { apply elem_of_seq. apply lookup_lt_Some in Hi. lia. }
  specialize (H3 i Hin). unfold chain_step in H3. rewrite Hi, Hk, Hz in H3. simpl in H3.
  rewrite Hj, Hp in H3. destruct (pi_keep par); [done|]. discriminate.
Qed.

Lemma chain_loop_spec ix fuel : forall items,
  (dropped items < fuel)%nat ->
  exists items', chain_loop fuel ix items = Ok items' /\ Forall2 kept_le items items' /\
    closed ix items'.
Proof.
  induction fuel as [|f IH]; intros items Hf; [lia|]. cbn [chain_loop].
  pose proof (chain_foldl_le ix (seq 0 (length items)) (false, items)) as Hle.
  destruct (chain_foldl_dropped ix (seq 0 (length items)) (false, items)) as [_ Hd].
  pose proof (chain_pass_closed ix items) as Hcl. unfold chain_pass in *.
  destruct (foldl _ (false, items) (seq 0 (length items))) as [ch items'] eqn:E.
  cbn [fst snd] in *. destruct ch.
  - specialize (Hd eq_refl eq_refl). destruct (IH items' ltac:(lia)) as (i2 & H1 & H2 & H3).
    exists i2. split_and!; auto. eapply kept_le_trans_list; eauto.
  - destruct (Hcl eq_refl) as [-> Hc]. exists items. split_and!; auto using kept_le_refl_list.
Qed.

Lemma dropped_le items : (dropped items <= length items)%nat.
Proof. unfold dropped. induction items as [|x l IH]; simpl; [lia|]. destruct (negb _); simpl; lia. Qed.

Lemma byID_ext a b : map pi_backup a = map pi_backup b -> byID a = byID b.
Proof.
  unfold byID. generalize (∅ : gmap string nat) as m. generalize 0%nat as i.
  revert b. induction a as [|x a IH]; intros [|y b] i m H; try done.
  simpl in *. injection H as Hx H. rewrite Hx. now apply IH.
Qed.

Lemma StronglySorted_backups a b :
  Forall2 kept_le a b ->
  StronglySorted (fun x y => backupTime (pi_backup y) <= backupTime (pi_backup x)) a ->
  StronglySorted (fun x y => backupTime (pi_backup y) <= backupTime (pi_backup x)) b.
Proof.
  induction 1 as [|x y l k [Hxy _] Hlk IH]; intros Hs; [constructor|]. inv Hs.
  constructor; [auto|]. rewrite <- Hxy. clear -Hlk H2.
  induction Hlk as [|u v l k [Huv _] _ IH]; inv H2; constructor; auto. now rewrite <- Huv.
Qed.

(** ** Resolve *)

Section resolved.
  Context (parseDuration : string -> outcome Z) (sprint : any -> string).

Lemma Resolve_inv wall backups policy now plan :
  Resolve parseDuration sprint wall backups policy now = Ok plan ->
  exists start, start = map keepProtected (sort_by newer (map (fun b => mkItem b false []) backups)) /\
    Forall2 kept_le start plan /\ closed (byID plan) plan.
Proof.
  unfold Resolve. cbv zeta. intros H. apply obind_ok in H as (mid & Hm & H).
  apply applyRules_le in Hm. unfold protectKeptAncestors in H.
  destruct (chain_loop_spec (byID mid) (S (length mid)) mid) as (p & Hp & Hle & Hc).
  { pose proof (dropped_le mid). lia. }
  rewrite Hp in H. injection H as <-. eexists. split; [reflexivity|]. split.
  - eapply kept_le_trans_list; eauto.
  - now rewrite <- (byID_ext _ _ (kept_le_backups _ _ Hle)).
Qed.

Lemma plan_backups wall backups policy now plan :
  Resolve parseDuration sprint wall backups policy now = Ok plan ->
  map pi_backup plan ≡ₚ backups.
Proof.
  intros H. destruct (Resolve_inv _ _ _ _ _ H) as (start & -> & Hle & _).
  rewrite <- (kept_le_backups _ _ Hle). rewrite map_map.
  rewrite (map_ext _ pi_backup).
  - rewrite sort_by_perm, map_map. simpl. now rewrite map_id.
  - intros it. unfold keepProtected. now case_match.
Qed.

Lemma plan_protected wall backups policy now plan it :
  Resolve parseDuration sprint wall backups policy now = Ok plan ->
  it ∈ plan -> bk_Protected (pi_backup it) = true -> pi_keep it = true.
Proof.
  intros H Hin Hp. destruct (Resolve_inv _ _ _ _ _ H) as (start & Hstart & Hle & _).
  apply list_elem_of_lookup in Hin as [i Hi].
  destruct (Forall2_lookup_r _ _ _ _ _ Hle Hi) as (a & Ha & Hb & Hk).
  apply Hk. subst start. rewrite list_lookup_fmap in Ha.
  destruct (sort_by newer _ !! i) as [x|]; [|done]. injection Ha as <-.
  unfold keepProtected in *. destruct (bk_Protected (pi_backup x)) eqn:E; [done|]. congruence.
Qed.
End resolved.

Lemma plan_chain (plan : list PlanItem) (backups : list Backup) it :
  map pi_backup plan ≡ₚ backups -> closed (byID plan) plan ->
  it ∈ plan -> pi_keep it = true -> IDIsZero (bk_ParentID (pi_backup it)) = false ->
  (exists b, b ∈ backups /\ bk_ID b = bk_ParentID (pi_backup it)) ->
  exists par, par ∈ plan /\ pi_keep par = true /\
    bk_ID (pi_backup par) = bk_ParentID (pi_backup it).
Proof.
  intros Hperm Hc Hin Hk Hz (b & Hb & Hid). apply list_elem_of_lookup in Hin as [i Hi].
  rewrite <- Hperm in Hb. apply list_elem_of_fmap in Hb as (p0 & -> & Hp0).
  apply list_elem_of_lookup in Hp0 as [k Hk0].
  destruct (byID_from_complete plan 0 ∅ k p0 Hk0 ltac:(now rewrite Hid)) as [j Hj].
  rewrite Hid in Hj. destruct (byID_spec plan _ _ Hj) as (par & Hpar & Hpid).
  exists par. split_and!; auto; [now apply list_elem_of_lookup_2 with j|].
  exact (Hc i it j par Hi Hk Hz Hj Hpar).
Qed.

Lemma KeepIDs_elem plan id :
  id ∈ KeepIDs plan <-> exists it, it ∈ plan /\ pi_keep it = true /\ bk_ID (pi_backup it) = id.
Proof.
  unfold KeepIDs. rewrite elem_of_list_to_set, list_elem_of_fmap. split.
  - intros (it & -> & Hin). rewrite list_elem_of_In, List.filter_In in Hin.
    destruct Hin. exists it. split; [now apply list_elem_of_In|auto].
  - intros (it & Hin & Hk & <-). exists it. split; [done|].
    rewrite list_elem_of_In, List.filter_In. split; [now apply list_elem_of_In|done].
Qed.

(** Retention never orphans a backup: for every policy and clock, if
    [Resolve] succeeds the plan is a rearrangement of the given backups in
    newest-first order, every protected backup is kept, and whenever a kept
    backup names a parent that is among the backups, a backup with that
    identifier is kept too. *)
Theorem retention_keeps_chains (parseDuration : string -> outcome Z) (sprint : any -> string)
    (wall now : Time) (backups : list Backup) (policy : RetentionPolicy) (plan : list PlanItem)
    (H : Resolve parseDuration sprint wall backups policy now = Ok plan) :
  map pi_backup plan ≡ₚ backups /\
  StronglySorted (fun a b => backupTime (pi_backup b) <= backupTime (pi_backup a)) plan /\
  (forall it, it ∈ plan -> bk_Protected (pi_backup it) = true -> pi_keep it = true) /\
  (forall it, it ∈ plan -> pi_keep it = true ->
     IDIsZero (bk_ParentID (pi_backup it)) = false ->
     (exists b, b ∈ backups /\ bk_ID b = bk_ParentID (pi_backup it)) ->
     exists par, par ∈ plan /\ pi_keep par = true /\
       bk_ID (pi_backup par) = bk_ParentID (pi_backup it)).
Proof.
  pose proof (plan_backups _ _ _ _ _ _ _ H) as Hperm.
  destruct (Resolve_inv _ _ _ _ _ _ _ H) as (start & Hstart & Hle & Hc). split_and!; auto.
  - assert (Hs : StronglySorted (fun a b => newer b a = false)
              (sort_by newer (map (fun b => mkItem b false []) backups))).
    { apply sort_by_sorted; unfold newer.
      - intros x. apply Z.ltb_irrefl.
      - intros x y z ? ?. rewrite Z.ltb_lt in *. lia.
      - intros x y z ? ?. rewrite Z.ltb_ge in *. lia. }
    apply (StronglySorted_backups start plan Hle). subst start. clear -Hs.
    induction Hs as [|x l Hs IH Hf]; simpl; constructor; auto.
    apply Forall_map. eapply Forall_impl; [exact Hf|]. unfold newer. intros y Hy.
    apply Z.ltb_ge in Hy. unfold keepProtected. now do 2 case_match.
  - intros it. apply (plan_protected _ _ _ _ _ _ _ _ H).
  - intros it Hin Hk Hz Hb. eapply plan_chain; eauto.
Qed.

Definition demo (id parent : string) (ended : Z) (prot : bool) : Backup :=
  mkBackup id "t" "s" "j" (if String.eqb parent "" then "full" else "incr") parent "m"
    1 ended 100 1 prot.

Definition demo_backups : list Backup :=
  [demo "a" "" 10 false; demo "b" "a" 20 false; demo "c" "" 5 true; demo "d" "" 6 false].
Definition demo_policy : RetentionPolicy :=
  mkPolicy [mkRule "count" {[ "n" := AInt 1 ]}].

Definition demo_plan : list PlanItem :=
  match Resolve (fun _ => Err "bad duration") (fun _ => "") 0 demo_backups demo_policy 100 with
  | Ok p => p | _ => [] end.

(** Newest first; "b" is kept by count, its parent "a" by the chain rule, "c"
    because it is protected, and "d" is dropped. *)
Example demo_plan_decisions :
  map (fun it => (bk_ID (pi_backup it), pi_keep it, pi_reasons it)) demo_plan =
  [("b", true, ["count"]); ("a", true, ["chain"]); ("d", false, []); ("c", true, ["protected"])].
Proof. vm_compute. reflexivity. Qed.

Lemma retention_keeps_chains_witness :
  map pi_backup demo_plan ≡ₚ demo_backups /\
  StronglySorted (fun a b => backupTime (pi_backup b) <= backupTime (pi_backup a)) demo_plan /\
  (forall it, it ∈ demo_plan -> bk_Protected (pi_backup it) = true -> pi_keep it = true) /\
  (forall it, it ∈ demo_plan -> pi_keep it = true ->
     IDIsZero (bk_ParentID (pi_backup it)) = false ->
     (exists b, b ∈ demo_backups /\ bk_ID b = bk_ParentID (pi_backup it)) ->
     exists par, par ∈ demo_plan /\ pi_keep par = true /\
       bk_ID (pi_backup par) = bk_ParentID (pi_backup it)).
Proof.
  apply (retention_keeps_chains (fun _ => Err "bad duration") (fun _ => "") 0 100
           demo_backups demo_policy demo_plan).
  vm_compute. reflexivity.
Defined.

(** ** Exactness of the count rule *)

Definition matches (ty : string) (it : PlanItem) : bool :=
  String.eqb ty "" || String.eqb (bk_Type (pi_backup it)) ty.

Lemma count_loop_exact n ty items : forall kept i it,
  items !! i = Some it ->
  exists it', count_loop n ty kept items !! i = Some it' /\ pi_backup it' = pi_backup it /\
    pi_keep it' = pi_keep it ||
      (matches ty it && (kept + zlen (List.filter (matches ty) (take i items)) <? n)).
Proof.
  induction items as [|x r IH]; intros kept i it Hi; [done|].
  assert (Hm : negb (String.eqb ty "") && negb (String.eqb (bk_Type (pi_backup x)) ty)
               = negb (matches ty x)) by (unfold matches; now rewrite negb_orb).
  cbn [count_loop]. rewrite Hm. destruct i as [|i]; simpl in Hi.
  - injection Hi as ->. simpl. change (zlen (@nil PlanItem)) with 0. rewrite Z.add_0_r.
    destruct (matches ty it); simpl; [|eexists; split_and!; auto; now rewrite orb_false_r].
    destruct (kept <? n); eexists; (split; [reflexivity|]); simpl; (split; [done|]);
      [now rewrite orb_true_r|now rewrite orb_false_r].
  - simpl take. cbn [List.filter]. destruct (matches ty x) eqn:Emx; simpl.
    + rewrite zlen_cons. destruct (Z.ltb_spec kept n) as [Hlt|Hge]; simpl.
      * destruct (IH (kept + 1) i it Hi) as (it' & H1 & H2 & H3). exists it'. split_and!; auto.
        rewrite H3. do 2 f_equal. f_equal. lia.
      * destruct (IH kept i it Hi) as (it' & H1 & H2 & H3). exists it'. split_and!; auto.
        rewrite H3. do 2 f_equal. pose proof (zlen_nonneg (List.filter (matches ty) (take i r))).
        destruct (Z.ltb_spec (kept + zlen (List.filter (matches ty) (take i r))) n); [lia|].
        symmetry. apply Z.ltb_ge. lia.
    + apply IH, Hi.
Qed.

(** The count rule keeps exactly the newest [n] backups of its type, on
    top of what was kept before: position by position, a backup is kept after
    the rule if and only if it was kept already, or it matches the type and
    fewer than [n] matching backups precede it. *)
Theorem count_rule_exact (sprint : any -> string) (items items' : list PlanItem)
    (rule : RetentionRule) (n : Z)
    (Hn : intParam (rr_Params rule) ["n"; "keep"; "count"] = Ok n)
    (Hr : applyCount sprint items rule = Ok items') (i : nat) (it : PlanItem)
    (Hi : items !! i = Some it) :
  exists it', items' !! i = Some it' /\ pi_backup it' = pi_backup it /\
    pi_keep it' = pi_keep it ||
      (matches (stringParam sprint (rr_Params rule) "type") it &&
       (zlen (List.filter (matches (stringParam sprint (rr_Params rule) "type")) (take i items))
          <? n)).
Proof.
  unfold applyCount in Hr. rewrite Hn in Hr. cbn [obind] in Hr. case_match; [done|].
  injection Hr as <-. destruct (count_loop_exact n (stringParam sprint (rr_Params rule) "type")
    items 0 i it Hi) as (it' & H1 & H2 & H3). exists it'. auto.
Qed.

Lemma count_rule_exact_witness :
  let rule := mkRule "count" {[ "n" := AInt 1 ]} in
  let x := mkItem (demo "a" "" 10 false) false [] in
  exists it', [keep x "count"] !! 0%nat = Some it' /\ pi_backup it' = pi_backup x /\
    pi_keep it' = pi_keep x ||
      (matches (stringParam (fun _ => "") (rr_Params rule) "type") x &&
       (zlen (List.filter (matches (stringParam (fun _ => "") (rr_Params rule) "type")) (take 0 [x]))
          <? 1)).
Proof.
  intros rule x.
  apply (count_rule_exact (fun _ => "") [x] [keep x "count"] rule 1); reflexivity.
Defined.

(** ** The size rule stays within its budget *)

Definition selected_size (sel : list bool) (items : list PlanItem) : Z :=
  foldr Z.add 0 (zip_with (fun (b : bool) it => if b then bk_SizeBytes (pi_backup it) else 0)
                   sel items).

Lemma size_loop_select mx items : forall total,
  0 <= total <= mx -> mx < 2 ^ 62 ->
  Forall (fun it => 0 <= bk_SizeBytes (pi_backup it) < 2 ^ 62) items ->
  exists sel, length sel = length items /\
    size_loop mx total items =
      zip_with (fun (b : bool) it => if b then keep it "size" else it) sel items /\
    total + selected_size sel items <= mx /\
    Forall2 (fun b it => bk_Protected (pi_backup it) = true -> b = false) sel items.
Proof.
  induction items as [|it r IH]; intros total Ht Hm Hs.
  - exists []. unfold selected_size. simpl. split_and!; auto. lia.
  - apply Forall_cons in Hs as [Hsz Hs]. cbn [size_loop]. destruct (bk_Protected (pi_backup it)) eqn:Ep.
    + destruct (IH total Ht Hm Hs) as (sel & H1 & H2 & H3 & H4).
      exists (false :: sel). unfold selected_size in *. simpl. rewrite H2.
      split_and!; auto; lia.
    + rewrite i64_id by lia. destruct (Z.leb_spec (total + bk_SizeBytes (pi_backup it)) mx) as [Hle|Hgt].
      * destruct (IH (total + bk_SizeBytes (pi_backup it)) ltac:(lia) Hm Hs) as (sel & H1 & H2 & H3 & H4).
        exists (true :: sel). unfold selected_size in *. simpl. rewrite H2.
        split_and!; auto; [lia|]. constructor; [congruence|done].
      * destruct (IH total Ht Hm Hs) as (sel & H1 & H2 & H3 & H4).
        exists (false :: sel). unfold selected_size in *. simpl. rewrite H2.
        split_and!; auto; lia.
Qed.

(** The size rule stays within its budget: the backups it keeps are never
    protected ones (those do not count) and their sizes add up to at most
    [max_bytes], for sizes and budgets below 2^62. *)
Theorem size_rule_bounded (items items' : list PlanItem) (rule : RetentionRule) (mx : Z)
    (Hmx : int64Param (rr_Params rule) ["max_bytes"; "bytes"] = Ok mx) (Hb : mx < 2 ^ 62)
    (Hs : Forall (fun it => 0 <= bk_SizeBytes (pi_backup it) < 2 ^ 62) items)
    (Hr : applySize items rule = Ok items') :
  exists sel, length sel = length items /\
    items' = zip_with (fun (b : bool) it => if b then keep it "size" else it) sel items /\
    selected_size sel items <= mx /\
    Forall2 (fun b it => bk_Protected (pi_backup it) = true -> b = false) sel items.
Proof.
  unfold applySize in Hr. rewrite Hmx in Hr. cbn [obind] in Hr.
  destruct (Z.ltb_spec mx 0); [done|]. injection Hr as <-.
  destruct (size_loop_select mx items 0 ltac:(lia) Hb Hs) as (sel & H1 & H2 & H3 & H4).
  exists sel. split_and!; auto.
Qed.

Lemma size_rule_bounded_witness :
  let x := mkItem (demo "a" "" 10 false) false [] in
  exists sel, length sel = length [x] /\
    [keep x "size"] = zip_with (fun (b : bool) it => if b then keep it "size" else it) sel [x] /\
    selected_size sel [x] <= 150 /\
    Forall2 (fun b it => bk_Protected (pi_backup it) = true -> b = false) sel [x].
Proof.
  intros x. apply (size_rule_bounded [x] [keep x "size"] (mkRule "size" {[ "bytes" := AInt 150 ]}) 150).
  - reflexivity.
  - lia.
  - repeat constructor; simpl; lia.
  - vm_compute. reflexivity.
Defined.
