(* ===== verification/RestorePlan.v ===== *)
(** * restore: the chain of backups a restore applies

    Models src/internal/restore/plan.go. *)

From S2P Require Import Prelude Core Retention.
Local Open Scope Z_scope.

Record Request := mkRequest
  { rq_BackupID : string; rq_TargetID : string; rq_At : Time; rq_DryRun : bool; rq_ReplaceExisting : bool }.

Record Step := mkStep
  { sp_BackupID : string; sp_Type : string; sp_ParentID : string; sp_ManifestID : string;
    sp_TargetID : string; sp_StorageID : string; sp_StartedAt : Time; sp_EndedAt : Time }.

Record RPlan := mkRPlan
  { pn_BackupID : string; pn_TargetID : string; pn_StorageID : string; pn_At : Time;
    pn_Steps : list Step; pn_Warnings : list string }.

Definition backupsByID (backups : list Backup) : gmap string Backup :=
  foldl (fun m b => if IDIsZero (bk_ID b) then m else <[bk_ID b := b]> m) ∅ backups.

(** The walk from [current] towards the root; [chain] is what was visited,
    [seen] its identifiers. Every step visits a new identifier of the map, so
    one step more than the map has entries is enough ([walk_total]). *)
Fixpoint walk (fuel : nat) (m : gmap string Backup) (seen : gset string)
    (chain : list Backup) (current : Backup) : outcome (list Backup) :=
  match fuel with
  | O => Fuel
  | S f =>
      if bool_decide (bk_ID current ∈ seen) then Err "backup chain contains a cycle"
      else
        let seen := seen ∪ {[ bk_ID current ]} in
        let chain := chain ++ [current] in
        if IDIsZero (bk_ParentID current) then Ok chain
        else match m !! bk_ParentID current with
             | None => Err "backup parent is missing"
             | Some parent => walk f m seen chain parent
             end
  end.

(** [reverseBackups] swaps from both ends. *)
Fixpoint reverse_loop (fuel i j : nat) (l : list Backup) : list Backup :=
  match fuel with
  | O => l
  | S f =>
      if (i <? j)%nat then
        match l !! i, l !! j with
        | Some x, Some y => reverse_loop f (S i) (j - 1) (<[j := x]> (<[i := y]> l))
        | _, _ => l
        end
      else l
  end.

Definition reverseBackups (l : list Backup) : list Backup :=
  match l with
  | [] => []
  | _ => reverse_loop (length l) 0 (length l - 1) l
  end.

Definition stepOf (b : Backup) : Step :=
  mkStep (bk_ID b) (bk_Type b) (bk_ParentID b) (bk_ManifestID b) (bk_TargetID b)
    (bk_StorageID b) (bk_StartedAt b) (bk_EndedAt b).

Definition BuildPlan (backups : list Backup) (request : Request) : outcome RPlan :=
  if IDIsZero (rq_BackupID request) then Err "backup_id is required"
  else
    let m := backupsByID backups in
    match m !! rq_BackupID request with
    | None => Err "build restore plan: not found"
    | Some selected =>
        let targetID := if IDIsZero (rq_TargetID request) then bk_TargetID selected
                        else rq_TargetID request in
        chain <~ walk (S (size m)) m ∅ [] selected ;;
        Ok (mkRPlan (bk_ID selected) targetID (bk_StorageID selected) (rq_At request)
              (map stepOf (reverseBackups chain))
              (if negb (TimeIsZero (rq_At request)) && (bk_EndedAt selected <? rq_At request)
               then ["point-in-time replay requires stream backups after the selected snapshot"]
               else []))
    end.

(** ** The swap loop reverses *)

Lemma reverse_loop_spec fuel : forall i j l,
  (j < length l)%nat -> (j - i <= 2 * fuel)%nat ->
  forall k, reverse_loop fuel i j l !! k =
    if decide (i <= k <= j)%nat then l !! (i + j - k)%nat else l !! k.
Proof.
  induction fuel as [|f IH]; intros i j l Hj Hf k; cbn [reverse_loop].
  - case_decide; [|done]. f_equal. lia.
  - destruct (Nat.ltb_spec i j) as [Hlt|Hge].
    2: { case_decide; [|done]. f_equal. lia. }
    destruct (lookup_lt_is_Some_2 l i ltac:(lia)) as [x Hx].
    destruct (lookup_lt_is_Some_2 l j Hj) as [y Hy]. rewrite Hx, Hy.
    rewrite IH by (rewrite ?length_insert; lia).
    case_decide as H1; case_decide as H2; try lia.
    + rewrite !list_lookup_insert_ne by lia. f_equal. lia.
    + destruct (decide (k = j)) as [->|Hkj].
      * rewrite list_lookup_insert_eq by (rewrite length_insert; lia).
        replace (i + j - j)%nat with i by lia. done.
      * rewrite list_lookup_insert_ne by lia. assert (k = i) as -> by lia.
        rewrite list_lookup_insert_eq by lia. replace (i + j - i)%nat with j by lia. done.
    + rewrite !list_lookup_insert_ne by lia. done.
Qed.

Lemma reverseBackups_reverse l : reverseBackups l = reverse l.
Proof.
  destruct l as [|x l]; [done|]. apply list_eq. intros k. unfold reverseBackups.
  rewrite reverse_loop_spec by (simpl; lia). case_decide as H.
  - symmetry. rewrite reverse_lookup by (simpl in *; lia). f_equal. simpl in *. lia.
  - symmetry. assert (length (x :: l) <= k)%nat by (simpl in *; lia).
    rewrite (lookup_ge_None_2 (reverse (x :: l))) by (rewrite length_reverse; lia).
    symmetry. now apply lookup_ge_None_2.
Qed.

(** ** The walk *)

(** A chain from a backup up to a root: each element's parent is the next. *)
Inductive ancestry (m : gmap string Backup) : list Backup -> Prop :=
| an_root b : IDIsZero (bk_ParentID b) = true -> ancestry m [b]
| an_step b par r :
    IDIsZero (bk_ParentID b) = false -> m !! bk_ParentID b = Some par ->
    ancestry m (par :: r) -> ancestry m (b :: par :: r).

Definition keyed (m : gmap string Backup) : Prop := forall k b, m !! k = Some b -> bk_ID b = k.

Lemma backupsByID_spec backups :
  keyed (backupsByID backups) /\
  (forall k b, backupsByID backups !! k = Some b -> b ∈ backups /\ IDIsZero k = false).
Proof.
  unfold backupsByID.
  assert (H : forall l (m : gmap string Backup),
    keyed m -> (forall k b, m !! k = Some b -> b ∈ backups /\ IDIsZero k = false) ->
    (forall b, b ∈ l -> b ∈ backups) ->
    let m' := foldl (fun m b => if IDIsZero (bk_ID b) then m else <[bk_ID b := b]> m) m l in
    keyed m' /\ (forall k b, m' !! k = Some b -> b ∈ backups /\ IDIsZero k = false)).
  { induction l as [|b l IH]; intros m Hk Hin Hl; simpl; [auto|].
    apply IH; [| |set_solver]; destruct (IDIsZero (bk_ID b)) eqn:Ez; auto.
    - intros k c Hc. apply lookup_insert_Some in Hc as [[<- <-]|[_ Hc]]; auto.
    - intros k c Hc. apply lookup_insert_Some in Hc as [[<- <-]|[_ Hc]]; [|auto].
      split; [set_solver|done]. }
  apply H; try done.
Qed.

Lemma walk_ok m fuel : forall seen chain cur res,
  walk fuel m seen chain cur = Ok res ->
  exists r, res = chain ++ cur :: r /\ ancestry m (cur :: r) /\
    NoDup (map bk_ID (cur :: r)) /\ (forall b, b ∈ cur :: r -> bk_ID b ∉ seen).
Proof.
  induction fuel as [|f IH]; intros seen chain cur res H; [done|]. cbn [walk] in H.
  case_bool_decide as Hs; [done|]. cbv zeta in H.
  destruct (IDIsZero (bk_ParentID cur)) eqn:Ez.
  - injection H as <-. exists []. split_and!; auto.
    + now constructor.
    + simpl. apply NoDup_singleton.
    + set_solver.
  - destruct (m !! bk_ParentID cur) as [par|] eqn:Ep; [|done].
    destruct (IH _ _ _ _ H) as (r & -> & Ha & Hnd & Hns). exists (par :: r).
    rewrite <- app_assoc. split_and!; auto.
    + econstructor; eauto.
    + change (NoDup (bk_ID cur :: map bk_ID (par :: r))). constructor; [|done].
      intros Hin. apply list_elem_of_fmap in Hin as (b & Hb & Hin). apply Hns in Hin. set_solver.
    + intros b Hb. apply elem_of_cons in Hb as [->|Hb]; [done|]. apply Hns in Hb. set_solver.
Qed.

Lemma walk_total m fuel : forall seen chain cur,
  keyed m -> m !! bk_ID cur = Some cur -> seen ⊆ dom m -> (size m < fuel + size seen)%nat ->
  walk fuel m seen chain cur <> Fuel.
Proof.
  induction fuel as [|f IH]; intros seen chain cur Hk Hc Hs Hf.
  - exfalso. apply subseteq_size in Hs. rewrite size_dom in Hs. lia.
  - cbn [walk]. case_bool_decide as Hin; [done|]. cbv zeta. case_match; [done|].
    destruct (m !! bk_ParentID cur) as [par|] eqn:Ep; [|done].
    pose proof (Hk _ _ Ep) as Hid. apply IH; auto.
    + now rewrite Hid.
    + apply elem_of_dom_2 in Hc. set_solver.
    + rewrite size_union by set_solver. rewrite size_singleton. lia.
Qed.

Lemma walk_no_panic m fuel : forall seen chain cur e, walk fuel m seen chain cur <> Panic e.
Proof.
  induction fuel as [|f IH]; intros seen chain cur e; [done|]. cbn [walk].
  repeat case_match; done || apply IH.
Qed.

(** Consecutive steps, root first. *)
Fixpoint linked (steps : list Step) : Prop :=
  match steps with
  | a :: (b :: _) as r => sp_ParentID b = sp_BackupID a /\ linked r
  | _ => True
  end.

Lemma linked_app l x y : linked (l ++ [x]) -> sp_ParentID y = sp_BackupID x -> linked ((l ++ [x]) ++ [y]).
Proof.
  induction l as [|a l IH]; intros Hl Hy; simpl in *; [auto|].
  destruct l as [|b l]; simpl in *; [tauto|]. destruct Hl as [H1 H2]. split; [done|]. now apply IH.
Qed.

Lemma ancestry_linked m l :
  keyed m -> ancestry m l ->
  linked (map stepOf (reverse l)) /\
  exists s rest, map stepOf (reverse l) = s :: rest /\ IDIsZero (sp_ParentID s) = true.
Proof.
  intros Hk Ha. induction Ha as [b Hz|b par r Hz Hp Ha [IH1 (s & rest & IH2 & IH3)]].
  - simpl. split; [done|]. eauto.
  - rewrite reverse_cons, map_app. rewrite IH2. split.
    + rewrite <- IH2. rewrite reverse_cons, map_app in IH1 |- *. simpl in IH1 |- *.
      apply linked_app; [done|]. simpl. symmetry. now apply Hk.
    + exists s. eexists. split; [reflexivity|done].
Qed.

(** The chain of a plan, its last step and the backup it names. *)
Lemma plan_chain_order backups req plan :
  BuildPlan backups req = Ok plan ->
  linked (pn_Steps plan) /\ exists init s, pn_Steps plan = init ++ [s] /\ sp_BackupID s = rq_BackupID req /\
    pn_BackupID plan = rq_BackupID req.
Proof.
  intros H. unfold BuildPlan in H. destruct (IDIsZero (rq_BackupID req)); [done|].
  destruct (backupsByID_spec backups) as [Hk Hin]. cbv zeta in H.
  destruct (backupsByID backups !! rq_BackupID req) as [sel|] eqn:Es; [|done].
  apply obind_ok in H as (chain & Hw & H). injection H as <-. cbn [pn_Steps pn_BackupID].
  destruct (walk_ok _ _ _ _ _ _ Hw) as (r & -> & Ha & Hnd & _). simpl app.
  rewrite reverseBackups_reverse. destruct (ancestry_linked _ _ Hk Ha) as [H1 H2]. split; [done|].
  exists (map stepOf (reverse r)), (stepOf sel). rewrite reverse_cons, map_app. split; [done|].
  simpl. now rewrite (Hk _ _ Es).
Qed.

(** A restore plan is a complete chain in the order it must be applied:
    the first step has no parent, every later step's parent is the step before
    it, the last step is the requested backup, no backup appears twice, and
    every step is one of the given backups. *)
Theorem restore_plan_root_first (backups : list Backup) (req : Request) (plan : RPlan)
    (H : BuildPlan backups req = Ok plan) :
  linked (pn_Steps plan) /\
  NoDup (map sp_BackupID (pn_Steps plan)) /\
  (exists s rest, pn_Steps plan = s :: rest /\ IDIsZero (sp_ParentID s) = true) /\
  (exists init s, pn_Steps plan = init ++ [s] /\ sp_BackupID s = rq_BackupID req) /\
  (forall s, s ∈ pn_Steps plan -> exists b, b ∈ backups /\ s = stepOf b).
Proof.
  unfold BuildPlan in H. destruct (IDIsZero (rq_BackupID req)); [done|].
  destruct (backupsByID_spec backups) as [Hk Hin]. cbv zeta in H.
  destruct (backupsByID backups !! rq_BackupID req) as [sel|] eqn:Es; [|done].
  apply obind_ok in H as (chain & Hw & H). injection H as <-. cbn [pn_Steps].
  destruct (walk_ok _ _ _ _ _ _ Hw) as (r & -> & Ha & Hnd & _). simpl app.
  rewrite reverseBackups_reverse. destruct (ancestry_linked _ _ Hk Ha) as [H1 H2].
  split_and!; auto.
  - rewrite map_map. simpl. rewrite fmap_reverse, reverse_Permutation. exact Hnd.
  - exists (map stepOf (reverse r)), (stepOf sel). rewrite reverse_cons, map_app. split; [done|].
    simpl. now apply Hk in Es.
  - intros s Hs. apply list_elem_of_fmap in Hs as (b & -> & Hb). exists b. split; [|done].
    rewrite elem_of_reverse in Hb.
    clear -Hb Ha Hin Es. assert (Hsel : sel ∈ backups) by (eapply Hin; eauto). clear Es.
    remember (sel :: r) as l eqn:El. revert sel r El Hsel Hb.
    induction Ha as [x Hz|x par q Hz Hp Ha IH]; intros sel r El Hsel Hb; simplify_eq.
    + apply list_elem_of_singleton in Hb. now subst.
    + apply elem_of_cons in Hb as [->|Hb]; [done|].
      eapply IH; [reflexivity|eapply Hin; eauto|done].
Qed.

(** Planning always ends, with a plan or with an error that says what is
    wrong: an empty or unknown backup, a parent that is missing, or a cycle in
    the parent links (detected, never followed twice). *)
Theorem restore_plan_total (backups : list Backup) (req : Request) :
  (exists plan, BuildPlan backups req = Ok plan) \/
  (exists e, BuildPlan backups req = Err e).
Proof.
  unfold BuildPlan. case_match; [eauto|]. cbv zeta.
  destruct (backupsByID_spec backups) as [Hk _].
  destruct (backupsByID backups !! rq_BackupID req) as [sel|] eqn:Es; [|eauto].
  pose proof (walk_total (backupsByID backups) (S (size (backupsByID backups))) ∅ [] sel Hk) as Ht.
  pose proof (walk_no_panic (backupsByID backups) (S (size (backupsByID backups))) ∅ [] sel) as Hp.
  assert (Hself : backupsByID backups !! bk_ID sel = Some sel) by now rewrite (Hk _ _ Es).
  specialize (Ht Hself ltac:(set_solver) ltac:(lia)).
  destruct (walk (S (size (backupsByID backups))) (backupsByID backups) ∅ [] sel) as [c|e|e|];
    simpl; eauto; [now destruct (Hp e)|done].
Qed.

Lemma demo_plan_found :
  match BuildPlan demo_backups (mkRequest "b" "" 0 false false) with Ok p => Some (map sp_BackupID (pn_Steps p)) | _ => None end
  = Some ["a"; "b"].
Proof. vm_compute. reflexivity. Qed.

Definition demo_restore : RPlan :=
  match BuildPlan demo_backups (mkRequest "b" "" 0 false false) with
  | Ok p => p | _ => mkRPlan "" "" "" 0 [] [] end.

Lemma restore_plan_root_first_witness :
  linked (pn_Steps demo_restore) /\
  NoDup (map sp_BackupID (pn_Steps demo_restore)) /\
  (exists s rest, pn_Steps demo_restore = s :: rest /\ IDIsZero (sp_ParentID s) = true) /\
  (exists init s, pn_Steps demo_restore = init ++ [s] /\ sp_BackupID s = "b") /\
  (forall s, s ∈ pn_Steps demo_restore -> exists b, b ∈ demo_backups /\ s = stepOf b).
Proof.
  apply (restore_plan_root_first demo_backups (mkRequest "b" "" 0 false false) demo_restore).
  vm_compute. reflexivity.
Defined.

(** ** Retention and restore together *)

Lemma KeepIDs_parent plan backups b :
  NoDup (map bk_ID backups) -> map pi_backup plan ≡ₚ backups -> closed (byID plan) plan ->
  b ∈ backups -> bk_ID b ∈ KeepIDs plan -> IDIsZero (bk_ParentID b) = false ->
  (exists c, c ∈ backups /\ bk_ID c = bk_ParentID b) -> bk_ParentID b ∈ KeepIDs plan.
Proof.
  intros Hnd Hperm Hc Hb Hk Hz Hpar. apply KeepIDs_elem in Hk as (it & Hin & Hk & Hid).
  assert (Hitb : pi_backup it ∈ backups).
  { rewrite <- Hperm. apply list_elem_of_fmap. eauto. }
  assert (pi_backup it = b) as <-.
  { apply list_elem_of_lookup in Hb as [i Hi]. apply list_elem_of_lookup in Hitb as [j Hj].
    assert (i = j) as ->.
    { eapply NoDup_lookup; [exact Hnd| |]; rewrite list_lookup_fmap.
      - rewrite Hi. reflexivity.
      - rewrite Hj. simpl. now rewrite Hid. }
    congruence. }
  destruct (plan_chain plan backups it Hperm Hc Hin Hk Hz Hpar) as (par & Hp & Hpk & Hpid).
  apply KeepIDs_elem. eauto.
Qed.

(** Every backup of the restore plan of a kept backup is kept. *)
Lemma kept_chain (parseDuration : string -> outcome Z) (sprint : any -> string)
    (wall now : Time) (backups : list Backup) (policy : RetentionPolicy) (plan : list PlanItem)
    (req : Request) (rplan : RPlan)
    (Hnd : NoDup (map bk_ID backups))
    (Hres : Resolve parseDuration sprint wall backups policy now = Ok plan)
    (Hplan : BuildPlan backups req = Ok rplan)
    (Hkeep : rq_BackupID req ∈ KeepIDs plan) :
  forall s, s ∈ pn_Steps rplan -> sp_BackupID s ∈ KeepIDs plan.
Proof.
  pose proof (plan_backups _ _ _ _ _ _ _ Hres) as Hperm.
  destruct (Resolve_inv _ _ _ _ _ _ _ Hres) as (_ & _ & _ & Hcl).
  destruct (backupsByID_spec backups) as [Hk Hin].
  unfold BuildPlan in Hplan. destruct (IDIsZero (rq_BackupID req)) eqn:Ez; [done|]. cbv zeta in Hplan.
  destruct (backupsByID backups !! rq_BackupID req) as [sel|] eqn:Es; [|done].
  apply obind_ok in Hplan as (chain & Hw & Hplan). injection Hplan as <-. cbn [pn_Steps].
  destruct (walk_ok _ _ _ _ _ _ Hw) as (r & -> & Ha & _ & _). simpl app.
  rewrite reverseBackups_reverse. intros s Hs. apply list_elem_of_fmap in Hs as (b & -> & Hb).
  rewrite elem_of_reverse in Hb. simpl. rewrite <- (Hk _ _ Es) in Hkeep.
  assert (Hselb : sel ∈ backups /\ IDIsZero (bk_ID sel) = false).
  { destruct (Hin _ _ Es) as [? ?]. now rewrite (Hk _ _ Es). }
  clear Es Hw. remember (sel :: r) as l eqn:El. revert sel r El Hkeep Hselb Hb.
  induction Ha as [x Hz|x par q Hz Hp Ha IH]; intros sel r El Hkeep [Hsel Hselz] Hb; simplify_eq.
  - apply list_elem_of_singleton in Hb. now subst.
  - apply elem_of_cons in Hb as [->|Hb]; [done|].
    assert (Hpk : bk_ID par ∈ KeepIDs plan).
    { rewrite (Hk _ _ Hp). eapply KeepIDs_parent; eauto. destruct (Hin _ _ Hp).
      exists par. split; [done|]. now apply Hk. }
    eapply (IH par q); eauto. destruct (Hin _ _ Hp). split; [done|]. now rewrite (Hk _ _ Hp).
Qed.

(** C6: What retention keeps can be restored: with distinct identifiers, if
    [Resolve] keeps a backup and its restore plan can be built from all the
    backups, then every backup of that plan is kept. Deleting what retention
    drops therefore never breaks the restore of what it keeps. *)
Theorem kept_backup_restorable (parseDuration : string -> outcome Z) (sprint : any -> string)
    (wall now : Time) (backups : list Backup) (policy : RetentionPolicy) (plan : list PlanItem)
    (req : Request) (rplan : RPlan)
    (Hnd : NoDup (map bk_ID backups))
    (Hres : Resolve parseDuration sprint wall backups policy now = Ok plan)
    (Hplan : BuildPlan backups req = Ok rplan)
    (Hkeep : rq_BackupID req ∈ KeepIDs plan) :
  forall s, s ∈ pn_Steps rplan -> sp_BackupID s ∈ KeepIDs plan.
Proof. exact (kept_chain parseDuration sprint wall now backups policy plan req rplan Hnd Hres Hplan Hkeep). Qed.

Lemma kept_backup_restorable_witness :
  Forall (fun s => sp_BackupID s ∈ KeepIDs demo_plan) (pn_Steps demo_restore).
Proof.
  apply Forall_forall.
  apply (kept_backup_restorable (fun _ => Err "bad duration") (fun _ => "") 0 100
           demo_backups demo_policy demo_plan (mkRequest "b" "" 0 false false) demo_restore).
  - vm_compute. repeat constructor; set_solver.
  - vm_compute. reflexivity.
  - vm_compute. reflexivity.
  - apply KeepIDs_elem. exists (mkItem (demo "b" "a" 20 false) true ["count"]).
    split_and!; [|done|done]. vm_compute. constructor.
Defined.
