(* ===== verification/Calendar.v ===== *)
(** * The UTC calendar of time.Date, Month, Day, Hour, Minute and Second

    The accessors and the constructor of Go's time package on UTC instants,
    on top of [civil] and [days_from_civil] of Core. Months are numbered in
    sequence by [monthIndex], counting from March so that the leap day ends a
    year; [monthStart] is the day a month begins. The lemmas show that
    [civil] names the month a day lies in, which is what the calendar
    arithmetic of the schedules relies on. *)

From S2P Require Import Prelude ChunkHash Core.
Local Open Scope Z_scope.

#[local] Ltac Zify.zify_post_hook ::= Z.to_euclidean_division_equations.

Definition tYear (t : Time) : Z := let '(y, _, _) := civil (dayOf t) in y.
Definition tMonth (t : Time) : Z := let '(_, m, _) := civil (dayOf t) in m.
Definition tDay (t : Time) : Z := let '(_, _, d) := civil (dayOf t) in d.
Definition tWeekday (t : Time) : Z := weekdayOfDay (dayOf t).
Definition tHour (t : Time) : Z := (t mod Day) / Hour.
Definition tMinute (t : Time) : Z := (t mod Hour) / Minute.
Definition tSecond (t : Time) : Z := (t mod Minute) / Second.
Definition tNanosecond (t : Time) : Z := t mod Second.

(** time.Date in UTC, for a month between 1 and 12; the other arguments may
    be out of range and carry over. *)
Definition Date (y m d h mi s ns : Z) : Time :=
  days_from_civil y m d * Day + h * Hour + mi * Minute + s * Second + ns.

(** Time.AddDate(years, 0, 0). *)
Definition AddYears (t : Time) (years : Z) : Time :=
  Date (tYear t + years) (tMonth t) (tDay t) (tHour t) (tMinute t) (tSecond t) (tNanosecond t).

(** Time.Truncate(d): down to a multiple of [d] since the zero time. *)
Definition Truncate (t : Time) (d : Z) : Time := t - t mod d.

(** ** Months in sequence *)

Definition yearStart (n : Z) : Z := 365 * n + n / 4 - n / 100.

Definition monthStart (k : Z) : Z :=
  let yr := k / 12 in let mp := k mod 12 in
  (yr / 400) * 146097 + yearStart (yr mod 400) + (153 * mp + 2) / 5 - 306.

Definition monthIndex (d : Z) : Z := let '(y, m, _) := civil d in 12 * y + m - 3.

Lemma days_from_civil_month y m d :
  1 <= m <= 12 -> days_from_civil y m d = monthStart (12 * y + m - 3) + d - 1.
Proof.
  intros Hm. unfold days_from_civil, monthStart, yearStart.
  replace (2 <? m) with (negb (m <=? 2)) by lia.
  destruct (m <=? 2) eqn:E1; simpl negb; cbv iota.
  - replace ((12 * y + m - 3) / 12) with (y - 1) by lia.
    replace ((12 * y + m - 3) mod 12) with (m + 9) by lia. lia.
  - replace ((12 * y + m - 3) / 12) with y by lia.
    replace ((12 * y + m - 3) mod 12) with (m - 3) by lia. lia.
Qed.

Lemma yearStart_step n : 0 <= n -> 365 <= yearStart (n + 1) - yearStart n <= 366.
Proof. unfold yearStart. lia. Qed.

Lemma monthStart_step k : 28 <= monthStart (k + 1) - monthStart k <= 31.
Proof.
  unfold monthStart.
  set (yr := k / 12). set (mp := k mod 12).
  assert (0 <= mp < 12) by (unfold mp; lia).
  destruct (decide (mp = 11)) as [E|E].
  - replace ((k + 1) / 12) with (yr + 1) by (unfold yr, mp in *; lia).
    replace ((k + 1) mod 12) with 0 by (unfold mp in *; lia).
    rewrite E. destruct (decide (yr mod 400 = 399)) as [Y|Y].
    + replace ((yr + 1) mod 400) with 0 by lia.
      replace ((yr + 1) / 400) with (yr / 400 + 1) by lia.
      rewrite Y. vm_compute (yearStart 399). vm_compute (yearStart 0). lia.
    + replace ((yr + 1) mod 400) with (yr mod 400 + 1) by lia.
      replace ((yr + 1) / 400) with (yr / 400) by lia.
      pose proof (yearStart_step (yr mod 400)). lia.
  - replace ((k + 1) / 12) with yr by (unfold yr, mp in *; lia).
    replace ((k + 1) mod 12) with (mp + 1) by (unfold mp in *; lia). lia.
Qed.

Lemma monthStart_mono j k : j <= k -> monthStart j <= monthStart k.
Proof.
  intros H. replace k with (j + Z.of_nat (Z.to_nat (k - j))) by lia.
  generalize (Z.to_nat (k - j)) as n. induction n as [|n IH]; [rewrite Z.add_0_r; lia|].
  pose proof (monthStart_step (j + Z.of_nat n)).
  replace (j + Z.of_nat (S n)) with (j + Z.of_nat n + 1) by lia. lia.
Qed.

(** ** The year of a day

    [yearGuess] is monotone, so that its value is pinned between the first
    and last days of the 400 years of an era. *)

Definition yearGuess (doe : Z) : Z := doe - doe / 1460 + doe / 36524 - doe / 146096.

Lemma yearGuess_mono a b : 0 <= a <= b -> b < 146096 -> yearGuess a <= yearGuess b.
Proof. unfold yearGuess. lia. Qed.

Definition yearChecks (n : Z) : bool :=
  ((n =? 0) || (yearGuess (yearStart n - 1) <? 365 * n)) &&
  ((n =? 399) || ((365 * (n + 1) <=? yearGuess (yearStart (n + 1))) && (yearStart (n + 1) <? 146096))).

Lemma yearChecks_all : forallb yearChecks (seqZ 0 400) = true.
Proof. vm_compute. reflexivity. Qed.

Lemma year_of_day doe :
  0 <= doe < 146097 ->
  let n := yearGuess doe / 365 in
  0 <= n < 400 /\ yearStart n <= doe /\ (n < 399 -> doe < yearStart (n + 1)).
Proof.
  intros H n. destruct (decide (doe = 146096)) as [->|Hne].
  { subst n. vm_compute (yearGuess 146096). unfold yearStart. lia. }
  assert (Hn : 0 <= n < 400).
  { subst n. unfold yearGuess. lia. }
  pose proof yearChecks_all as C. rewrite forallb_forall in C.
  specialize (C n). rewrite <- list_elem_of_In, elem_of_seqZ in C.
  specialize (C ltac:(lia)). unfold yearChecks in C.
  apply andb_true_iff in C as [C1 C2].
  assert (Hg : 365 * n <= yearGuess doe < 365 * (n + 1)) by (subst n; lia).
  split; [done|]. split.
  - destruct (Z.le_gt_cases (yearStart n) doe) as [|G]; [done|exfalso].
    apply orb_true_iff in C1 as [C1|C1].
    { apply Z.eqb_eq in C1. rewrite C1 in G. vm_compute (yearStart 0) in G. lia. }
    pose proof (yearGuess_mono doe (yearStart n - 1)).
    destruct (Z.le_gt_cases 146096 (yearStart n - 1)) as [L|L]; [|lia].
    unfold yearStart in L. lia.
  - intros Hlt. destruct (Z.lt_ge_cases doe (yearStart (n + 1))) as [|G]; [done|exfalso].
    apply orb_true_iff in C2 as [C2|C2]; [lia|].
    pose proof (yearGuess_mono (yearStart (n + 1)) doe).
    assert (0 <= yearStart (n + 1)) by (unfold yearStart; lia). lia.
Qed.

(** ** [civil] names the month of its day *)

Lemma civil_month d :
  let '(y, m, dd) := civil d in
  1 <= m <= 12 /\ dd = d - monthStart (monthIndex d) + 1 /\
  monthStart (monthIndex d) <= d < monthStart (monthIndex d + 1).
Proof.
  unfold monthIndex. destruct (civil d) as [[y m] dd] eqn:E. unfold civil in E.
  set (era := (d + 306) / 146097) in *. set (doe := (d + 306) mod 146097) in *.
  assert (Hdoe : 0 <= doe < 146097) by (unfold doe; lia).
  assert (Hd : d = era * 146097 + doe - 306) by (unfold era, doe; lia).
  pose proof (year_of_day doe Hdoe) as (Hn & Hlo & Hhi). unfold yearGuess in *.
  set (n := (doe - doe / 1460 + doe / 36524 - doe / 146096) / 365) in *.
  fold (yearStart n) in E.
  set (doy := doe - yearStart n) in *. set (mp := (5 * doy + 2) / 153) in *.
  assert (Hdoy : 0 <= doy <= 365).
  { unfold doy. pose proof (yearStart_step n).
    destruct (decide (n = 399)) as [E9|E9]; [|lia].
    rewrite E9. vm_compute (yearStart 399). rewrite E9 in Hlo. vm_compute (yearStart 399) in Hlo. lia. }
  assert (Hmp : 0 <= mp < 12) by (unfold mp; lia).
  assert (Hb : (153 * mp + 2) / 5 <= doy) by (unfold mp; lia).
  assert (Hk : 12 * y + m - 3 = 12 * (n + era * 400) + mp /\ 1 <= m <= 12 /\ dd = doy - (153 * mp + 2) / 5 + 1).
  { destruct (mp <? 10) eqn:E1; simplify_eq;
      [destruct (mp + 3 <=? 2) eqn:E2 | destruct (mp - 9 <=? 2) eqn:E2]; lia. }
  clear E. destruct Hk as (-> & Hm & ->).
  assert (Hs : monthStart (12 * (n + era * 400) + mp) = era * 146097 + yearStart n + (153 * mp + 2) / 5 - 306).
  { unfold monthStart.
    replace ((12 * (n + era * 400) + mp) / 12) with (n + era * 400) by lia.
    replace ((12 * (n + era * 400) + mp) mod 12) with mp by lia.
    replace ((n + era * 400) / 400) with era by lia.
    replace ((n + era * 400) mod 400) with n by lia. lia. }
  split; [done|]. split; [rewrite Hs; unfold doy; lia|]. split; [rewrite Hs; unfold doy in *; lia|].
  destruct (decide (mp = 11)) as [E11|E11].
  - unfold monthStart.
    replace ((12 * (n + era * 400) + mp + 1) / 12) with (n + era * 400 + 1) by lia.
    replace ((12 * (n + era * 400) + mp + 1) mod 12) with 0 by lia.
    destruct (decide (n = 399)) as [E9|E9].
    + replace ((n + era * 400 + 1) / 400) with (era + 1) by lia.
      replace ((n + era * 400 + 1) mod 400) with 0 by lia. vm_compute (yearStart 0). lia.
    + replace ((n + era * 400 + 1) / 400) with era by lia.
      replace ((n + era * 400 + 1) mod 400) with (n + 1) by lia. lia.
  - unfold monthStart.
    replace ((12 * (n + era * 400) + mp + 1) / 12) with (n + era * 400) by lia.
    replace ((12 * (n + era * 400) + mp + 1) mod 12) with (mp + 1) by lia.
    replace ((n + era * 400) / 400) with era by lia.
    replace ((n + era * 400) mod 400) with n by lia.
    assert (doy < (153 * (mp + 1) + 2) / 5) by (unfold mp; lia). unfold doy in *. lia.
Qed.

(** A day within the bounds of a month has the number of that month. *)
Lemma monthIndex_unique d k : monthStart k <= d < monthStart (k + 1) -> monthIndex d = k.
Proof.
  intros H. pose proof (civil_month d) as C. destruct (civil d) as [[y m] dd].
  destruct C as (_ & _ & C).
  pose proof (monthStart_mono (monthIndex d + 1) k). pose proof (monthStart_mono (k + 1) (monthIndex d)).
  lia.
Qed.

Lemma civil_of_index d y m dd :
  civil d = (y, m, dd) -> y = (monthIndex d + 2) / 12 /\ m = (monthIndex d + 2) mod 12 + 1.
Proof.
  intros E. pose proof (civil_month d) as C. unfold monthIndex in *. rewrite E in *. lia.
Qed.

(** Days of one month share year and month. *)
Lemma month_shared d d' :
  d <= d' < monthStart (monthIndex d + 1) ->
  civil d' = (let '(y, m, dd) := civil d in (y, m, dd + (d' - d))).
Proof.
  intros H. pose proof (civil_month d) as C.
  destruct (civil d) as [[y m] dd] eqn:E. destruct C as (_ & Hdd & C).
  assert (E' : monthIndex d' = monthIndex d) by (apply monthIndex_unique; lia).
  pose proof (civil_month d') as C'. destruct (civil d') as [[y' m'] dd'] eqn:F.
  destruct C' as (_ & Hdd' & _).
  apply civil_of_index in E as [-> ->]. apply civil_of_index in F as [-> ->].
  rewrite E' in *. repeat f_equal. lia.
Qed.

Lemma days_from_civil_civil d :
  let '(y, m, dd) := civil d in days_from_civil y m dd = d.
Proof.
  pose proof (civil_month d) as C. pose proof (days_from_civil_month) as D.
  unfold monthIndex in *. destruct (civil d) as [[y m] dd].
  destruct C as (Hm & -> & _). rewrite D; lia.
Qed.

(** The date of an instant, moved by [k] days. *)
Lemma date_plus_days t k : days_from_civil (tYear t) (tMonth t) (tDay t + k) = dayOf t + k.
Proof.
  unfold tYear, tMonth, tDay. pose proof (days_from_civil_civil (dayOf t)) as E.
  pose proof (civil_month (dayOf t)) as C. destruct (civil (dayOf t)) as [[y m] d].
  destruct C as (Hm & _). rewrite <- E. rewrite !days_from_civil_month by lia. lia.
Qed.
