(* ===== verification/GoStrings.v ===== *)
(** * The string routines of Go the components use

    strings.TrimSpace, strings.Fields, strings.Split with a one-byte
    separator, strings.ToLower, strconv.Atoi, and fmt's zero-padded decimals,
    on ASCII text, with the order of strings. *)

From Stdlib Require Import Ascii String.
From S2P Require Import Prelude ChunkHash Core.
Local Open Scope Z_scope.

Fixpoint trimLeft (s : string) : string :=
  match s with
  | EmptyString => EmptyString
  | String c r => if asciiSpace c then trimLeft r else s
  end.

Fixpoint trimRight (s : string) : string :=
  match s with
  | EmptyString => EmptyString
  | String c r =>
      match trimRight r with
      | EmptyString => if asciiSpace c then EmptyString else String c EmptyString
      | r' => String c r'
      end
  end.

Definition TrimSpace (s : string) : string := trimRight (trimLeft s).

(** strings.Split(s, sep): the pieces between separators, one more than
    there are separators. *)
Fixpoint SplitOn (sep : ascii) (s : string) : list string :=
  match s with
  | EmptyString => [EmptyString]
  | String c r =>
      if Ascii.eqb c sep then EmptyString :: SplitOn sep r
      else match SplitOn sep r with
           | h :: t => String c h :: t
           | [] => [String c EmptyString]
           end
  end.

(** strings.Fields(s): the maximal runs of characters that are not spaces.
    [cur] is the field being read. *)
Fixpoint fields_loop (s : string) (cur : string) : list string :=
  match s with
  | EmptyString => if String.eqb cur "" then [] else [cur]
  | String c r =>
      if asciiSpace c
      then if String.eqb cur "" then fields_loop r "" else cur :: fields_loop r ""
      else fields_loop r (cur ++ String c EmptyString)
  end.

Definition Fields (s : string) : list string := fields_loop s "".

Definition lowerAscii (c : ascii) : ascii :=
  let n := nat_of_ascii c in
  if ((65 <=? n) && (n <=? 90))%nat then ascii_of_nat (n + 32) else c.

Fixpoint ToLower (s : string) : string :=
  match s with
  | EmptyString => EmptyString
  | String c r => String (lowerAscii c) (ToLower r)
  end.

Definition digitOf (c : ascii) : option Z :=
  let n := Z.of_nat (nat_of_ascii c) in
  if (48 <=? n) && (n <=? 57) then Some (n - 48) else None.

Fixpoint digits_loop (s : string) (acc : Z) : option Z :=
  match s with
  | EmptyString => Some acc
  | String c r => d ← digitOf c; digits_loop r (acc * 10 + d)
  end.

(** strconv.Atoi: an optional sign and at least one decimal digit, in the
    range of a 64-bit int; [None] is an error. *)
Definition Atoi (s : string) : option Z :=
  let '(neg, body) :=
    match s with
    | String "-" r => (true, r)
    | String "+" r => (false, r)
    | _ => (false, s)
    end in
  if String.eqb body "" then None
  else n ← digits_loop body 0;
       let v := if neg : bool then - n else n in
       if (- 2 ^ 63 <=? v) && (v <? 2 ^ 63) then Some v else None.

Lemma Atoi_range s v : Atoi s = Some v -> - 2 ^ 63 <= v < 2 ^ 63.
Proof.
  unfold Atoi. destruct (match s with EmptyString => _ | _ => _ end) as [neg body].
  destruct (String.eqb body ""); [done|].
  destruct (digits_loop body 0) as [n|]; simpl; [|done].
  destruct (_ && _) eqn:E; [|done]. intros [= <-]. lia.
Qed.

Example go_strings_examples :
  TrimSpace "  a b " = "a b" /\ SplitOn "," "1,,2" = ["1"; ""; "2"] /\
  Fields " a  bc d " = ["a"; "bc"; "d"] /\ ToLower "JaN" = "jan" /\
  Atoi "+12" = Some 12 /\ Atoi "-7" = Some (-7) /\ Atoi "" = None /\ Atoi "1x" = None /\
  Atoi "9223372036854775807" = Some (2 ^ 63 - 1) /\ Atoi "9223372036854775808" = None.
Proof. vm_compute. repeat split. Qed.

(** ** The order of strings ([<] on Go strings) *)

Lemma string_compare_trans a b c :
  String.compare a b = Lt -> String.compare b c = Lt -> String.compare a c = Lt.
Proof.
  revert b c. induction a as [|x a IH]; intros [|y b] [|z c]; simpl; try done.
  unfold Ascii.compare.
  destruct (N.compare_spec (N_of_ascii x) (N_of_ascii y)) as [E1|E1|E1], 
    (N.compare_spec (N_of_ascii y) (N_of_ascii z)) as [E2|E2|E2],
    (N.compare_spec (N_of_ascii x) (N_of_ascii z)) as [E3|E3|E3]; try done; try lia.
  apply IH.
Qed.

Lemma string_ltb_irrefl a : String.ltb a a = false.
Proof.
  unfold String.ltb. replace (String.compare a a) with Eq; [done|].
  induction a as [|x a IH]; simpl; [done|]. unfold Ascii.compare. now rewrite N.compare_refl.
Qed.

Lemma string_ltb_trans a b c :
  String.ltb a b = true -> String.ltb b c = true -> String.ltb a c = true.
Proof.
  unfold String.ltb. destruct (String.compare a b) eqn:E1, (String.compare b c) eqn:E2; try done.
  now rewrite (string_compare_trans _ _ _ E1 E2).
Qed.

Lemma string_nltb_trans a b c :
  String.ltb a b = false -> String.ltb b c = false -> String.ltb a c = false.
Proof.
  intros H1 H2. destruct (String.ltb a c) eqn:E; [|done].
  destruct (String.compare b a) eqn:C.
  - apply String.compare_eq_iff in C. congruence.
  - unfold String.ltb in E, H2. destruct (String.compare a c) eqn:E'; try done.
    now rewrite (string_compare_trans _ _ _ C E') in H2.
  - rewrite String.compare_antisym in C. unfold String.ltb in H1.
    now destruct (String.compare a b).
Qed.

(** ** Zero-padded decimals (fmt's %0nd) *)

(** The last [n] decimal digits of [z], most significant first. *)
Fixpoint decimal (n : nat) (z : Z) : bytes :=
  match n with
  | O => []
  | S n => decimal n (z / 10) ++ [z2b (48 + z mod 10)]
  end.

Lemma decimal_length n z : length (decimal n z) = n.
Proof. revert z. induction n as [|n IH]; intros z; simpl; [done|]. rewrite length_app, IH. simpl. lia. Qed.

Lemma blt_app_length a b u v : length a = length b -> blt a b -> blt (a ++ u) (b ++ v).
Proof.
  unfold blt. revert b. induction a as [|x a IH]; intros [|y b] Hl; simpl in *; try done.
  destruct (b2z x ?= b2z y); auto.
Qed.

Lemma decimal_lt n a b : 0 <= a < b -> b < 10 ^ Z.of_nat n -> blt (decimal n a) (decimal n b).
Proof.
  revert a b. induction n as [|n IH]; intros a b Hab Hb; [simpl in Hb; lia|].
  rewrite Nat2Z.inj_succ, Z.pow_succ_r in Hb by lia. cbn [decimal].
  pose proof (Z.div_mod a 10). pose proof (Z.div_mod b 10).
  pose proof (Z.mod_pos_bound a 10). pose proof (Z.mod_pos_bound b 10).
  destruct (Z.lt_ge_cases (a / 10) (b / 10)) as [L|L].
  - apply blt_app_length; [now rewrite !decimal_length|]. apply IH; [split; [apply Z.div_pos; lia|done]|].
    apply Z.div_lt_upper_bound; lia.
  - assert (E : a / 10 = b / 10) by lia. rewrite E. apply blt_app_prefix. unfold blt. simpl.
    rewrite !b2z_z2b, (Z.mod_small (48 + a mod 10)), (Z.mod_small (48 + b mod 10)) by lia.
    assert (C : (48 + a mod 10 ?= 48 + b mod 10) = Lt) by (apply Z.compare_lt_iff; lia). now rewrite C.
Qed.

Lemma decimal_printable n z : (0 < n)%nat -> bltb (decimal n z) [Byte.x01] = false.
Proof.
  intros Hn. destruct (bltb (decimal n z) [Byte.x01]) eqn:E; [exfalso|done]. apply bltb_lt in E.
  revert z E. induction n as [|[|n] IH]; intros z E; [lia| |].
  - unfold blt in E. simpl in E. rewrite b2z_z2b in E. pose proof (Z.mod_pos_bound z 10).
    rewrite Z.mod_small in E by lia. change (b2z Byte.x01) with 1 in E.
    destruct (Z.compare_spec (48 + z mod 10) 1); try lia; done.
  - apply (IH ltac:(lia) (z / 10)). cbn [decimal] in E.
    destruct (decimal n (z / 10 / 10) ++ [z2b (48 + (z / 10) mod 10)]) as [|x l] eqn:D.
    { apply (f_equal length) in D. rewrite length_app in D. simpl in D. lia. }
    cbn [decimal]. rewrite D. unfold blt in *. simpl in *. destruct (b2z x ?= b2z Byte.x01); try done.
    now destruct (l ++ _) in E; destruct l.
Qed.
