(* ===== verification/Cron.v ===== *)
(** * Cron expressions

    Models src/internal/schedule/cron.go: the parser of five- and six-field
    expressions and the search for the next matching instant, on UTC
    instants (the scheduler runs on UTC clocks). A bit set is an unsigned
    64-bit integer. The search loop of [Next] is iterated at most [2 ^ 28]
    times, which is more than the seconds of its five-year horizon.

    The theorems show that a parsed expression's [Next] is the least
    matching instant after the given one, or an error exactly when the
    horizon holds none, and two departures from the cron format: a large
    step makes the parser panic, and a step on the day of month is ignored. *)

From Stdlib Require Import Ascii String.
From S2P Require Import Prelude ChunkHash Core Calendar GoStrings.
Local Open Scope Z_scope.

(** ** Bit sets *)

Definition has (b n : Z) : bool := negb (Z.land b (u64 (Z.shiftl 1 n)) =? 0).

(** [bitset.next]: the first element in [start .. max]; [n] is the number
    of candidates left. *)
Fixpoint next_loop (b : Z) (n : nat) (i : Z) : option Z :=
  match n with
  | O => None
  | S n => if has b i then Some i else next_loop b n (i + 1)
  end.

Definition next (b start max : Z) : option Z := next_loop b (Z.to_nat (max + 1 - start)) start.

(** ** Parsing *)

Record Cron := mkCron
  { expr : string; seconds : Z; minutes : Z; hours : Z; dom : Z; months : Z; dow : Z;
    domAny : bool; dowAny : bool }.

Definition parseValue (value : string) (names : gmap string Z) : outcome Z :=
  match names !! ToLower value with
  | Some n => Ok n
  | None => match Atoi value with Some n => Ok n | None => Err "invalid value" end
  end.

Definition parseRange (part : string) (min max : Z) (names : gmap string Z) : outcome (Z * Z) :=
  if String.eqb part "*" || String.eqb part "?" then Ok (min, max)
  else match SplitOn "-" part with
       | [p] =>
           value <~ parseValue p names ;;
           if (value <? min) || (max <? value) then Err "value outside" else Ok (value, value)
       | [p; q] =>
           start <~ parseValue p names ;;
           stop <~ parseValue q names ;;
           if (start <? min) || (max <? stop) || (stop <? start) then Err "range outside"
           else Ok (start, stop)
       | _ => Err "invalid range"
       end.

Definition splitStep (part : string) : outcome (string * Z) :=
  match SplitOn "/" part with
  | [_] => Ok (part, 1)
  | [base; st] =>
      match Atoi st with
      | Some step => if step <=? 0 then Err "invalid step" else Ok (base, step)
      | None => Err "invalid step"
      end
  | _ => Err "invalid step"
  end.

(** [for i := start; i <= end; i += step { out |= 1 << i }]: the addition
    wraps, and a shift by a negative amount panics. *)
Fixpoint fill_loop (fuel : nat) (out i stop step : Z) : outcome Z :=
  match fuel with
  | O => Fuel
  | S fuel =>
      if stop <? i then Ok out
      else if i <? 0 then Panic "negative shift amount"
      else fill_loop fuel (Z.lor out (u64 (Z.shiftl 1 i))) (i64 (i + step)) stop step
  end.

Definition parsePart (part : string) (min max : Z) (names : gmap string Z) (out : Z) : outcome Z :=
  let part := TrimSpace part in
  if String.eqb part "" then Err "empty field part"
  else
    bs <~ splitStep part ;;
    let '(base, step) := bs in
    se <~ parseRange base min max names ;;
    let '(start, stop) := se in
    fill_loop (Z.to_nat (stop - start) + 2) out start stop step.

Fixpoint parts_loop (parts : list string) (min max : Z) (names : gmap string Z) (out : Z) : outcome Z :=
  match parts with
  | [] => Ok out
  | p :: ps => out <~ parsePart p min max names out ;; parts_loop ps min max names out
  end.

Definition parseField (field : string) (min max : Z) (names : gmap string Z) : outcome Z :=
  parts_loop (SplitOn "," field) min max names 0.

Fixpoint any_loop (parts : list string) : bool :=
  match parts with
  | [] => false
  | p :: ps =>
      match splitStep (TrimSpace p) with
      | Ok (base, _) => if String.eqb base "*" || String.eqb base "?" then true else any_loop ps
      | _ => false
      end
  end.

Definition isAny (field : string) : bool := any_loop (SplitOn "," field).

Definition monthNames : gmap string Z :=
  list_to_map [("jan", 1); ("feb", 2); ("mar", 3); ("apr", 4); ("may", 5); ("jun", 6);
               ("jul", 7); ("aug", 8); ("sep", 9); ("oct", 10); ("nov", 11); ("dec", 12)]%string.

Definition dayNames : gmap string Z :=
  list_to_map [("sun", 0); ("mon", 1); ("tue", 2); ("wed", 3); ("thu", 4); ("fri", 5); ("sat", 6)]%string.

Definition expandMacro (e : string) : string :=
  if String.eqb e "@hourly" then "0 * * * *"
  else if String.eqb e "@daily" || String.eqb e "@midnight" then "0 0 * * *"
  else if String.eqb e "@weekly" then "0 0 * * 0"
  else if String.eqb e "@monthly" then "0 0 1 * *"
  else if String.eqb e "@yearly" || String.eqb e "@annually" then "0 0 1 1 *"
  else e.

Definition ParseCron (e : string) : outcome Cron :=
  let e := TrimSpace e in
  if String.eqb e "" then Err "cron expression is required"
  else
    let e := expandMacro e in
    let fields := Fields e in
    let fields := if Nat.eqb (length fields) 5 then "0"%string :: fields else fields in
    match fields with
    | [f0; f1; f2; f3; f4; f5] =>
        seconds <~ parseField f0 0 59 ∅ ;;
        minutes <~ parseField f1 0 59 ∅ ;;
        hours <~ parseField f2 0 23 ∅ ;;
        dom <~ parseField f3 1 31 ∅ ;;
        months <~ parseField f4 1 12 monthNames ;;
        dow <~ parseField f5 0 7 dayNames ;;
        let dow := if has dow 7 then Z.ldiff (Z.lor dow 1) (Z.shiftl 1 7) else dow in
        Ok (mkCron e seconds minutes hours dom months dow (isAny f3) (isAny f5))
    | _ => Err "cron expression must have 5 or 6 fields"
    end.

(** ** The next matching instant *)

Definition dayMatches (c : Cron) (t : Time) : bool :=
  let domMatch := has (dom c) (tDay t) in
  let dowMatch := has (dow c) (tWeekday t) in
  if domAny c && dowAny c then true
  else if domAny c then dowMatch
  else if dowAny c then domMatch
  else domMatch || dowMatch.

Definition firstOfNextMonth (t : Time) : Time :=
  if tMonth t =? 12 then Date (tYear t + 1) 1 1 0 0 0 0
  else Date (tYear t) (tMonth t + 1) 1 0 0 0 0.

(** One pass of the loop body: [inl] is the new [t], [inr] a return. *)
Definition next_step (c : Cron) (deadline t : Time) : Time + outcome Time :=
  let tomorrow := Date (tYear t) (tMonth t) (tDay t + 1) 0 0 0 0 in
  if deadline <? t then inr (Err "no matching time found within 5 years")
  else if negb (has (months c) (tMonth t)) then inl (firstOfNextMonth t)
  else if negb (dayMatches c t) then inl tomorrow
  else if negb (has (hours c) (tHour t)) then
    match next (hours c) (tHour t + 1) 23 with
    | Some n => inl (Date (tYear t) (tMonth t) (tDay t) n 0 0 0)
    | None => inl tomorrow
    end
  else if negb (has (minutes c) (tMinute t)) then
    match next (minutes c) (tMinute t + 1) 59 with
    | Some n => inl (Date (tYear t) (tMonth t) (tDay t) (tHour t) n 0 0)
    | None => inl (Truncate (t + Hour) Hour)
    end
  else if negb (has (seconds c) (tSecond t)) then
    match next (seconds c) (tSecond t + 1) 59 with
    | Some n => inl (Date (tYear t) (tMonth t) (tDay t) (tHour t) (tMinute t) n 0)
    | None => inl (Truncate (t + Minute) Minute)
    end
  else inr (Ok t).

(** [2 ^ k] passes of a loop body, stopping at the first return. *)
Fixpoint iterate {A B} (k : nat) (step : A -> A + B) (a : A) : A + B :=
  match k with
  | O => step a
  | S k => match iterate k step a with
           | inl a' => iterate k step a'
           | inr b => inr b
           end
  end.

Definition Next (c : Cron) (after : Time) : outcome Time :=
  if (seconds c =? 0) || (minutes c =? 0) || (hours c =? 0) || (dom c =? 0)
     || (months c =? 0) || (dow c =? 0)
  then Err "cron expression is not initialized"
  else
    let t := Truncate (after + Second) Second in
    let deadline := AddYears after 5 in
    match iterate 28 (next_step c deadline) t with
    | inr r => r
    | inl _ => Fuel
    end.

Example cron_examples :
  (c <~ ParseCron "30 2 * * *" ;; Next c (Date 2026 4 25 2 29 59 0)) = Ok (Date 2026 4 25 2 30 0 0) /\
  (c <~ ParseCron "*/15 * * * * *" ;; Next c (Date 2026 4 25 12 0 14 0)) = Ok (Date 2026 4 25 12 0 15 0) /\
  (c <~ ParseCron "@weekly" ;; Next c (Date 2026 4 25 12 0 0 0)) = Ok (Date 2026 4 26 0 0 0 0) /\
  (c <~ ParseCron "0 9 * jan mon" ;; Next c (Date 2026 1 4 9 0 0 0)) = Ok (Date 2026 1 5 9 0 0 0) /\
  (c <~ ParseCron "0 9 15 * mon" ;; Next c (Date 2026 6 15 9 0 0 0)) = Ok (Date 2026 6 22 9 0 0 0) /\
  (c <~ ParseCron "0 0 30 2 *" ;; Next c (Date 2026 1 1 0 0 0 0)) = Err "no matching time found within 5 years" /\
  is_ok (ParseCron "61 * * * * *") = false /\ is_ok (ParseCron "*/0 * * * * *") = false.
Proof. vm_compute. repeat split. Qed.

(** ** Lemmas on bit sets *)

Lemma has_testbit b n : 0 <= n < 64 -> has b n = Z.testbit b n.
Proof.
  intros Hn. unfold has. rewrite Z.shiftl_1_l, u64_id.
  2:{ split; [lia|]. apply Z.pow_lt_mono_r; lia. }
  destruct (Z.testbit b n) eqn:E.
  - apply negb_true_iff, Z.eqb_neq. intros Z0.
    assert (F : Z.testbit (Z.land b (2 ^ n)) n = false) by now rewrite Z0, Z.bits_0.
    now rewrite Z.land_spec, E, Z.pow2_bits_true in F by lia.
  - apply negb_false_iff, Z.eqb_eq, Z.bits_inj'. intros m Hm.
    rewrite Z.land_spec, Z.bits_0, Z.pow2_bits_eqb by lia.
    destruct (Z.eqb_spec n m) as [<-|]; [now rewrite E|apply andb_false_r].
Qed.

Lemma next_loop_some b n i k :
  next_loop b n i = Some k ->
  i <= k < i + Z.of_nat n /\ has b k = true /\ (forall j, i <= j < k -> has b j = false).
Proof.
  revert i; induction n as [|n IH]; intros i; simpl; [done|].
  destruct (has b i) eqn:E.
  - intros [= <-]. repeat split; [lia..|done|]. intros; lia.
  - intros H. apply IH in H as (H1 & H2 & H3). repeat split; [lia..|done|].
    intros j Hj. destruct (decide (j = i)) as [->|]; [done|apply H3; lia].
Qed.

Lemma next_loop_none b n i :
  next_loop b n i = None -> forall j, i <= j < i + Z.of_nat n -> has b j = false.
Proof.
  revert i; induction n as [|n IH]; intros i; simpl; [intros; lia|].
  destruct (has b i) eqn:E; [done|]. intros H j Hj.
  destruct (decide (j = i)) as [->|]; [done|]. apply (IH _ H). lia.
Qed.

Lemma next_some b s m k :
  next b s m = Some k ->
  s <= k <= m /\ has b k = true /\ (forall j, s <= j < k -> has b j = false).
Proof. unfold next. intros H. apply next_loop_some in H as (H1 & H2 & H3). repeat split; auto; lia. Qed.

Lemma next_none b s m : next b s m = None -> forall j, s <= j <= m -> has b j = false.
Proof. unfold next. intros H j Hj. apply (next_loop_none _ _ _ H). lia. Qed.

(** ** What the parser accepts *)

(** Element [i] of one part of a field. *)
Definition in_part (part : string) (min max : Z) (names : gmap string Z) (i : Z) : Prop :=
  exists base step start stop,
    splitStep (TrimSpace part) = Ok (base, step) /\
    parseRange base min max names = Ok (start, stop) /\
    start <= i <= stop /\ (i - start) mod step = 0.

Lemma parseRange_bounds part min max names s e :
  min <= max -> parseRange part min max names = Ok (s, e) -> min <= s <= e /\ e <= max.
Proof.
  unfold parseRange. intros Hm. destruct (_ || _)%bool; [intros [= <- <-]; lia|].
  destruct (SplitOn "-" part) as [|p [|q [|r l]]]; try done.
  - intros H. apply obind_ok in H as (v & _ & H). destruct (_ || _)%bool eqn:E; [done|].
    injection H as <- <-. lia.
  - intros H. apply obind_ok in H as (v & _ & H). apply obind_ok in H as (w & _ & H).
    destruct (_ || _)%bool eqn:E; [done|]. injection H as <- <-. lia.
Qed.

Lemma splitStep_pos part base step : splitStep part = Ok (base, step) -> 0 < step < 2 ^ 63.
Proof.
  unfold splitStep. destruct (SplitOn "/" part) as [|p [|q [|r l]]]; try done.
  - intros [= <- <-]. lia.
  - destruct (Atoi q) as [v|] eqn:A; [|done]. destruct (v <=? 0) eqn:E; [done|].
    intros [= <- <-]. apply Atoi_range in A. lia.
Qed.

Lemma testbit_shl1 i j : 0 <= i < 64 -> 0 <= j -> Z.testbit (u64 (Z.shiftl 1 i)) j = (i =? j).
Proof.
  intros Hi Hj. rewrite Z.shiftl_1_l, u64_id; [now apply Z.pow2_bits_eqb|].
  split; [lia|]. apply Z.pow_lt_mono_r; lia.
Qed.

(** Without overflow of the index the loop adds the arithmetic progression. *)
Lemma fill_loop_bits fuel out i stop step r j :
  0 < step < 2 ^ 63 -> 0 <= i -> stop < 64 -> 0 <= j ->
  fill_loop fuel out i stop step = Ok r ->
  (Z.testbit r j = true <-> Z.testbit out j = true \/ (i <= j <= stop /\ (j - i) mod step = 0)).
Proof.
  intros Hs Hi Hstop Hj. revert out i Hi. induction fuel as [|fuel IH]; intros out i Hi; simpl; [done|].
  destruct (stop <? i) eqn:E1. { intros [= <-]. split; [tauto|]. intros [H|[? ?]]; [done|lia]. }
  destruct (i <? 0) eqn:E2; [lia|].
  destruct (Z.lt_ge_cases (i + step) (2 ^ 63)) as [Ho|Ho].
  - rewrite i64_id by lia. intros H. apply IH in H; [|lia].
    rewrite H, Z.lor_spec, orb_true_iff, testbit_shl1, Z.eqb_eq by lia.
    clear IH H. split.
    + intros [[H| <-]|[H1 H2]]; [tauto| |].
      * right. split; [lia|]. rewrite Z.sub_diag. apply Z.mod_0_l. lia.
      * right. split; [lia|]. replace (j - i) with (j - (i + step) + 1 * step) by lia.
        now rewrite Z.mod_add by lia.
    + intros [H|[H1 H2]]; [tauto|]. destruct (decide (i = j)) as [|Hne]; [tauto|].
      right. apply Z.mod_divide in H2 as [q Hq]; [|lia].
      assert (1 <= q) by nia. split; [nia|].
      replace (j - (i + step)) with ((q - 1) * step) by lia. apply Z.mod_mul. lia.
  - destruct fuel as [|fuel]; [done|]. simpl.
    replace (i64 (i + step)) with (i + step - 2 ^ 64) by (unfold i64; Z.to_euclidean_division_equations; lia).
    replace (stop <? i + step - 2 ^ 64) with false by lia.
    now replace (i + step - 2 ^ 64 <? 0) with true by lia.
Qed.

Lemma parsePart_bits part min max names out r j :
  0 <= min <= max -> max < 64 -> 0 <= j ->
  parsePart part min max names out = Ok r ->
  (Z.testbit r j = true <-> Z.testbit out j = true \/ in_part part min max names j).
Proof.
  intros Hm Hx Hj. unfold parsePart. destruct (String.eqb _ _); [done|]. intros H.
  apply obind_ok in H as ([base step] & Hsp & H). apply obind_ok in H as ([start stop] & Hr & H).
  pose proof (splitStep_pos _ _ _ Hsp). pose proof (parseRange_bounds _ _ _ _ _ _ (proj2 Hm) Hr).
  apply (fill_loop_bits _ _ _ _ _ _ j) in H; [|lia..]. rewrite H.
  split; (intros [?|P]; [now left|right]).
  - exists base, step, start, stop. tauto.
  - destruct P as (b & s & st & e & E1 & E2 & P).
    rewrite Hsp in E1. injection E1 as <- <-. rewrite Hr in E2. now injection E2 as <- <-.
Qed.

Lemma parts_loop_bits parts min max names out r j :
  0 <= min <= max -> max < 64 -> 0 <= j ->
  parts_loop parts min max names out = Ok r ->
  (Z.testbit r j = true <->
   Z.testbit out j = true \/ exists p, In p parts /\ in_part p min max names j).
Proof.
  intros Hm Hx Hj. revert out. induction parts as [|p ps IH]; intros out; simpl.
  { intros [= <-]. split; [tauto|]. intros [?|(? & [] & _)]; done. }
  intros H. apply obind_ok in H as (o1 & H1 & H2).
  apply (parsePart_bits _ _ _ _ _ _ j) in H1; [|done..]. rewrite (IH _ H2), H1.
  split.
  - intros [[?|?]|(q & ? & ?)]; [tauto|right; exists p; auto|right; exists q; auto].
  - intros [?|(q & [<-|?] & ?)]; [tauto|tauto|right; exists q; auto].
Qed.

Lemma parseField_bits field min max names r j :
  0 <= min <= max -> max < 64 -> 0 <= j ->
  parseField field min max names = Ok r ->
  (Z.testbit r j = true <-> exists p, In p (SplitOn "," field) /\ in_part p min max names j).
Proof.
  intros Hm Hx Hj H. rewrite (parts_loop_bits _ _ _ _ _ _ j Hm Hx Hj H), Z.bits_0. naive_solver.
Qed.

(** ** Parsed expressions are initialised *)

Definition initialised (c : Cron) : Prop :=
  seconds c <> 0 /\ minutes c <> 0 /\ hours c <> 0 /\ dom c <> 0 /\ months c <> 0 /\ dow c <> 0.

Lemma testbit_nonzero z j : Z.testbit z j = true -> z <> 0.
Proof. intros H ->. now rewrite Z.bits_0 in H. Qed.

Lemma SplitOn_cons sep s : exists p ps, SplitOn sep s = p :: ps.
Proof.
  induction s as [|c r (p & ps & E)]; simpl; [eauto|]. rewrite E. destruct (Ascii.eqb c sep); eauto.
Qed.

Lemma parseField_nonzero field min max names r :
  0 <= min <= max -> max < 64 -> parseField field min max names = Ok r ->
  exists j, min <= j <= max /\ Z.testbit r j = true.
Proof.
  intros Hm Hx H. destruct (SplitOn_cons "," field) as (p & ps & E).
  assert (exists j, min <= j <= max /\ in_part p min max names j) as (j & Hj & P).
  { unfold parseField in H. rewrite E in H. simpl in H. apply obind_ok in H as (o & H & _).
    unfold parsePart in H. destruct (String.eqb _ _); [done|].
    apply obind_ok in H as ([base step] & Hsp & H). apply obind_ok in H as ([start stop] & Hr & _).
    pose proof (parseRange_bounds _ _ _ _ _ _ (proj2 Hm) Hr) as B.
    exists start. split; [lia|]. exists base, step, start, stop. repeat split; try done; try lia.
    rewrite Z.sub_diag. apply Z.mod_0_l. apply splitStep_pos in Hsp. lia. }
  exists j. split; [done|]. apply (parseField_bits _ _ _ _ _ j Hm Hx ltac:(lia) H).
  exists p. rewrite E. simpl. tauto.
Qed.

Lemma parse_initialised e c : ParseCron e = Ok c -> initialised c.
Proof.
  unfold ParseCron. destruct (String.eqb _ _); [done|].
  destruct (if Nat.eqb _ _ then _ else _) as [|f0 [|f1 [|f2 [|f3 [|f4 [|f5 [|? ?]]]]]]]; try done.
  intros H. apply obind_ok in H as (b0 & H0 & H). apply obind_ok in H as (b1 & H1 & H).
  apply obind_ok in H as (b2 & H2 & H). apply obind_ok in H as (b3 & H3 & H).
  apply obind_ok in H as (b4 & H4 & H). apply obind_ok in H as (b5 & H5 & H).
  injection H as <-. unfold initialised. simpl.
  apply parseField_nonzero in H0 as (? & _ & ?%testbit_nonzero), H1 as (? & _ & ?%testbit_nonzero),
    H2 as (? & _ & ?%testbit_nonzero), H3 as (? & _ & ?%testbit_nonzero),
    H4 as (? & _ & ?%testbit_nonzero), H5 as (j & Hj & Hb); try lia.
  repeat split; try done.
  destruct (has b5 7) eqn:E; [|now apply testbit_nonzero in Hb].
  apply (testbit_nonzero _ 0). rewrite Z.ldiff_spec, Z.lor_spec. simpl. now rewrite orb_true_r.
Qed.

(** ** The search for the next instant *)

#[local] Ltac Zify.zify_post_hook ::= Z.to_euclidean_division_equations.

(** The instants an expression names: whole seconds whose fields are in the
    sets. *)
Definition matches (c : Cron) (t : Time) : bool :=
  (t mod Second =? 0) && has (months c) (tMonth t) && dayMatches c t &&
  has (hours c) (tHour t) && has (minutes c) (tMinute t) && has (seconds c) (tSecond t).

(** Hours, minutes and seconds as positions on one line. *)
Lemma clock_line t :
  t / Hour = 24 * dayOf t + tHour t /\ 0 <= tHour t < 24 /\
  t / Minute = 60 * (t / Hour) + tMinute t /\ 0 <= tMinute t < 60 /\
  t / Second = 60 * (t / Minute) + tSecond t /\ 0 <= tSecond t < 60.
Proof. unfold tHour, tMinute, tSecond, dayOf, Day, Hour, Minute, Second. lia. Qed.

Lemma Date_of_day t k h mi s ns :
  Date (tYear t) (tMonth t) (tDay t + k) h mi s ns =
  (dayOf t + k) * Day + h * Hour + mi * Minute + s * Second + ns.
Proof.
  unfold Date. now rewrite date_plus_days.
Qed.

Lemma Date_today t h mi s :
  Date (tYear t) (tMonth t) (tDay t) h mi s 0 = dayOf t * Day + h * Hour + mi * Minute + s * Second.
Proof. pose proof (Date_of_day t 0 h mi s 0) as E. rewrite !Z.add_0_r in E. lia. Qed.

Lemma firstOfNextMonth_start t :
  firstOfNextMonth t = monthStart (monthIndex (dayOf t) + 1) * Day.
Proof.
  unfold firstOfNextMonth, tMonth, tYear, monthIndex, Date.
  pose proof (civil_month (dayOf t)) as C. destruct (civil (dayOf t)) as [[y m] d].
  destruct C as (Hm & _). destruct (m =? 12) eqn:E.
  - rewrite days_from_civil_month by lia.
    replace (12 * (y + 1) + 1 - 3) with (12 * y + m - 3 + 1) by lia. lia.
  - rewrite days_from_civil_month by lia.
    replace (12 * y + (m + 1) - 3) with (12 * y + m - 3 + 1) by lia. lia.
Qed.

Lemma same_day_fields t u :
  dayOf u = dayOf t -> tMonth u = tMonth t /\ tDay u = tDay t /\ tWeekday u = tWeekday t.
Proof. intros E. unfold tMonth, tDay, tWeekday. now rewrite E. Qed.

Lemma same_day_matches c t u : dayOf u = dayOf t -> dayMatches c u = dayMatches c t.
Proof. intros E. apply same_day_fields in E as (_ & E1 & E2). unfold dayMatches. now rewrite E1, E2. Qed.

Lemma same_month t u :
  t <= u < firstOfNextMonth t -> tMonth u = tMonth t.
Proof.
  rewrite firstOfNextMonth_start. intros H. unfold tMonth.
  rewrite (month_shared (dayOf t) (dayOf u)).
  - now destruct (civil (dayOf t)) as [[y m] d].
  - unfold dayOf in *. split; [apply Z.div_le_mono; [done|lia]|].
    apply Z.div_lt_upper_bound; [done|lia].
Qed.

Lemma firstOfNextMonth_later t : t < firstOfNextMonth t.
Proof.
  rewrite firstOfNextMonth_start. pose proof (civil_month (dayOf t)) as C.
  destruct (civil (dayOf t)) as [[y m] d]. destruct C as (_ & _ & C).
  unfold dayOf, Day, Hour, Minute, Second in *. lia.
Qed.

Lemma hour_interval t u n :
  t <= u < dayOf t * Day + n * Hour -> n <= 24 -> dayOf u = dayOf t /\ tHour t <= tHour u < n.
Proof. unfold dayOf, tHour, Day, Hour, Minute, Second. lia. Qed.

Lemma minute_interval t u n :
  t <= u < t / Hour * Hour + n * Minute -> n <= 60 -> u / Hour = t / Hour /\ tMinute t <= tMinute u < n.
Proof. unfold tMinute, Hour, Minute, Second. lia. Qed.

Lemma second_interval t u n :
  t <= u < t / Minute * Minute + n * Second -> n <= 60 -> u / Minute = t / Minute /\ tSecond t <= tSecond u < n.
Proof. unfold tSecond, Minute, Second. lia. Qed.

(** A jump from [t] to [t'] forward over instants the expression does not
    name. *)
Definition skips (c : Cron) (t t' : Time) : Prop :=
  t < t' /\ t' mod Second = 0 /\ (forall u, t <= u < t' -> matches c u = false).

Ltac unmatched H := unfold matches; rewrite H, ?andb_false_r; reflexivity.

Lemma skip_month c t : has (months c) (tMonth t) = false -> skips c t (firstOfNextMonth t).
Proof.
  intros H. split; [apply firstOfNextMonth_later|]. split.
  - rewrite firstOfNextMonth_start. unfold Day, Hour, Minute, Second. lia.
  - intros u Hu. apply same_month in Hu. rewrite <- Hu in H. unmatched H.
Qed.

Lemma skip_day c t : dayMatches c t = false -> skips c t ((dayOf t + 1) * Day).
Proof.
  intros H. split; [unfold dayOf, Day, Hour, Minute, Second; lia|].
  split; [unfold Day, Hour, Minute, Second; lia|]. intros u Hu.
  assert (E : dayOf u = dayOf t) by (apply (hour_interval t u 24); unfold Day, Hour in *; lia).
  rewrite <- (same_day_matches c t u E) in H. unmatched H.
Qed.

(** A jump to hour [n] of the day, when no hour from the present one up to
    [n] is in the set; [n = 24] is the next day. *)
Lemma skip_hours c t n :
  tHour t < n <= 24 -> (forall j, tHour t <= j < n -> has (hours c) j = false) ->
  skips c t (dayOf t * Day + n * Hour).
Proof.
  intros Hn H. split; [unfold dayOf, tHour, Day, Hour, Minute, Second in *; lia|].
  split; [unfold Day, Hour, Minute, Second; lia|]. intros u Hu.
  apply hour_interval in Hu as [_ Hu]; [|lia]. specialize (H _ Hu). unmatched H.
Qed.

Lemma skip_minutes c t n :
  tMinute t < n <= 60 -> (forall j, tMinute t <= j < n -> has (minutes c) j = false) ->
  skips c t (t / Hour * Hour + n * Minute).
Proof.
  intros Hn H. split; [unfold tMinute, Hour, Minute, Second in *; lia|].
  split; [unfold Hour, Minute, Second; lia|]. intros u Hu.
  apply minute_interval in Hu as [_ Hu]; [|lia]. specialize (H _ Hu). unmatched H.
Qed.

Lemma skip_seconds c t n :
  t mod Second = 0 ->
  tSecond t < n <= 60 -> (forall j, tSecond t <= j < n -> has (seconds c) j = false) ->
  skips c t (t / Minute * Minute + n * Second).
Proof.
  intros Ht Hn H. split; [unfold tSecond, Minute, Second in *; lia|].
  split; [unfold Minute, Second; lia|]. intros u Hu.
  apply second_interval in Hu as [_ Hu]; [|lia]. specialize (H _ Hu). unmatched H.
Qed.

(** Extend "not in the set from [s + 1] on" by the present element. *)
Lemma not_has_from b s n :
  has b s = false -> (forall j, s + 1 <= j < n -> has b j = false) ->
  forall j, s <= j < n -> has b j = false.
Proof. intros H1 H2 j Hj. destruct (decide (j = s)) as [->|]; [done|apply H2; lia]. Qed.

Lemma next_step_spec c deadline t :
  t mod Second = 0 ->
  match next_step c deadline t with
  | inl t' => t <= deadline /\ skips c t t'
  | inr (Ok t') => t' = t /\ t <= deadline /\ matches c t = true
  | inr (Err _) => deadline < t
  | inr _ => False
  end.
Proof.
  intros Ht. unfold next_step. rewrite (Date_of_day t 1), !Z.add_0_r.
  pose proof (clock_line t) as (L1 & L2 & L3 & L4 & L5 & L6).
  destruct (deadline <? t) eqn:ED; [lia|]. assert (t <= deadline) by lia. clear ED.
  destruct (has (months c) (tMonth t)) eqn:EM; simpl negb; cbv iota; [|split; [done|now apply skip_month]].
  destruct (dayMatches c t) eqn:EY; simpl negb; cbv iota; [|split; [done|now apply skip_day]].
  destruct (has (hours c) (tHour t)) eqn:EH; simpl negb; cbv iota.
  2:{ destruct (next (hours c) (tHour t + 1) 23) as [n|] eqn:EN; split; try done.
      - apply next_some in EN as (B & _ & EN). rewrite Date_today, !Z.add_0_r.
        apply skip_hours; [lia|]. now apply not_has_from.
      - replace ((dayOf t + 1) * Day) with (dayOf t * Day + 24 * Hour) by (unfold Day; lia).
        apply skip_hours; [lia|]. apply not_has_from; [done|]. intros j Hj.
        apply (next_none _ _ _ EN). lia. }
  destruct (has (minutes c) (tMinute t)) eqn:EI; simpl negb; cbv iota.
  2:{ destruct (next (minutes c) (tMinute t + 1) 59) as [n|] eqn:EN; split; try done.
      - apply next_some in EN as (B & _ & EN). rewrite Date_today, !Z.add_0_r.
        replace (dayOf t * Day + tHour t * Hour) with (t / Hour * Hour) by (rewrite L1; unfold Day; ring).
        apply skip_minutes; [lia|]. now apply not_has_from.
      - replace (Truncate (t + Hour) Hour) with (t / Hour * Hour + 60 * Minute)
          by (clear; unfold Truncate, Hour, Minute, Second; lia).
        apply skip_minutes; [lia|]. apply not_has_from; [done|]. intros j Hj.
        apply (next_none _ _ _ EN). lia. }
  destruct (has (seconds c) (tSecond t)) eqn:ES; simpl negb; cbv iota.
  2:{ destruct (next (seconds c) (tSecond t + 1) 59) as [n|] eqn:EN; split; try done.
      - apply next_some in EN as (B & _ & EN). rewrite Date_today.
        replace (dayOf t * Day + tHour t * Hour + tMinute t * Minute) with (t / Minute * Minute)
          by (rewrite L3, L1; unfold Day, Hour; ring).
        apply skip_seconds; [done|lia|]. now apply not_has_from.
      - replace (Truncate (t + Minute) Minute) with (t / Minute * Minute + 60 * Second)
          by (clear; unfold Truncate, Minute, Second; lia).
        apply skip_seconds; [done|lia|]. apply not_has_from; [done|]. intros j Hj.
        apply (next_none _ _ _ EN). lia. }
  split; [done|]. split; [done|]. unfold matches. now rewrite Ht, EM, EY, EH, EI, ES.
Qed.

(** ** The loop *)

Section Iterate.
  Context {A B : Type} (step : A -> A + B) (P : A -> Prop) (pos : A -> Z).
  Hypothesis step_ok : forall a a', P a -> step a = inl a' -> P a' /\ pos a + 1 <= pos a'.

  (** An unfinished run has advanced by one position per pass. *)
Lemma iterate_inl k a a' :
    P a -> iterate k step a = inl a' ->
    exists b, P b /\ step b = inl a' /\ pos a + 2 ^ Z.of_nat k - 1 <= pos b.
  Proof.
    revert a a'. induction k as [|k IH]; intros a a' HP H; [exists a; simpl in *; repeat split; auto; lia|].
    simpl in H. destruct (iterate k step a) as [a1|] eqn:E1; [|done].
    apply IH in E1 as (b1 & Hb1 & S1 & L1); [|done].
    destruct (step_ok _ _ Hb1 S1) as [Ha1 La1].
    apply IH in H as (b & Hb & Sb & Lb); [|done]. exists b. repeat split; auto.
    rewrite Nat2Z.inj_succ, Z.pow_succ_r by lia. lia.
  Qed.

  (** A finished run ends with a pass from a reachable state. *)
Lemma iterate_inr k a r : P a -> iterate k step a = inr r -> exists b, P b /\ step b = inr r.
  Proof.
    revert a. induction k as [|k IH]; intros a HP H; simpl in H; [eauto|].
    destruct (iterate k step a) as [a1|] eqn:E1; [|simplify_eq; eauto].
    apply iterate_inl in E1 as (b1 & Hb1 & S1 & _); [|done].
    destruct (step_ok _ _ Hb1 S1) as [Ha1 _]. eauto.
  Qed.
End Iterate.

Lemma monthStart_far k n : 0 <= n -> monthStart (k + n) <= monthStart k + 31 * n.
Proof.
  intros Hn. pattern n. apply natlike_ind; [rewrite Z.add_0_r; lia| |done].
  intros m Hm IH. pose proof (monthStart_step (k + m)).
  replace (k + Z.succ m) with (k + m + 1) by lia. lia.
Qed.

(** Five years are less than [2 ^ 28] seconds. *)
Lemma AddYears_horizon t : AddYears t 5 <= t + 1861 * Day.
Proof.
  unfold AddYears, Date. pose proof (clock_line t) as (L1 & L2 & L3 & L4 & L5 & L6).
  assert (D : days_from_civil (tYear t + 5) (tMonth t) (tDay t) <= dayOf t + 1860).
  { unfold tYear, tMonth, tDay. pose proof (days_from_civil_civil (dayOf t)) as E.
    pose proof (civil_month (dayOf t)) as C. destruct (civil (dayOf t)) as [[y m] d].
    destruct C as (Hm & _). rewrite days_from_civil_month in * by lia.
    pose proof (monthStart_far (12 * y + m - 3) 60).
    replace (12 * (y + 5) + m - 3) with (12 * y + m - 3 + 60) by lia. lia. }
  generalize dependent (days_from_civil (tYear t + 5) (tMonth t) (tDay t)). intros D HD.
  unfold tHour, tMinute, tSecond, tNanosecond, dayOf, Day, Hour, Minute, Second in *. lia.
Qed.

(** The result of the search, for an expression with no empty set. *)
Lemma next_least c after :
  initialised c ->
  match Next c after with
  | Ok t => after < t <= AddYears after 5 /\ matches c t = true /\
            (forall u, after < u < t -> matches c u = false)
  | Err _ => forall u, after < u <= AddYears after 5 -> matches c u = false
  | _ => False
  end.
Proof.
  intros (I0 & I1 & I2 & I3 & I4 & I5). unfold Next.
  apply Z.eqb_neq in I0, I1, I2, I3, I4, I5. rewrite I0, I1, I2, I3, I4, I5. cbn [orb].
  set (dl := AddYears after 5).
  pose (P t := t mod Second = 0 /\ after < t /\ forall u, after < u < t -> matches c u = false).
  set (t0 := Truncate (after + Second) Second).
  assert (P0 : P t0).
  { unfold t0, Truncate. split; [unfold Second; lia|]. split; [unfold Second; lia|]. intros u Hu.
    unfold matches. replace (u mod Second =? 0) with false; [done|]. unfold Second in *. lia. }
  assert (Hstep : forall t t', P t -> next_step c dl t = inl t' -> P t' /\ t / Second + 1 <= t' / Second).
  { intros t t' (Ht & Ha & Hu) H. pose proof (next_step_spec c dl t Ht) as S. rewrite H in S.
    destruct S as (_ & S1 & S2 & S3). split; [|unfold Second in *; lia]. split; [done|]. split; [lia|].
    intros u [U1 U2]. destruct (Z.lt_ge_cases u t); [apply Hu|apply S3]; lia. }
  destruct (iterate 28 (next_step c dl) t0) as [t'|r] eqn:E.
  - apply (iterate_inl _ P (fun t => t / Second) Hstep) in E as (b & (Hb & _) & S & L); [|done].
    pose proof (next_step_spec c dl b Hb) as Sp. rewrite S in Sp. destruct Sp as [Sp _].
    pose proof (AddYears_horizon after). fold dl in H. change (Z.of_nat 28) with 28 in L.
    unfold t0, Truncate, Day, Hour, Minute, Second in *. clear -L H Sp. lia.
  - apply (iterate_inr _ P (fun t => t / Second) Hstep) in E as (b & (Hb & Ha & Hu) & S); [|done].
    pose proof (next_step_spec c dl b Hb) as Sp. rewrite S in Sp.
    destruct r as [t|e|e|]; [|intros u U; apply Hu; lia|done|done].
    destruct Sp as (-> & Hd & Hm). repeat split; auto; lia.
Qed.



(** A field's set holds exactly the elements of its comma-separated
    parts: those of a part's range at a multiple of its step from the start
    of the range. *)
Theorem cron_field_exact field min max names r j :
  0 <= min <= max -> max < 64 -> 0 <= j ->
  parseField field min max names = Ok r ->
  (Z.testbit r j = true <-> exists p, In p (SplitOn "," field) /\ in_part p min max names j).
Proof. apply parseField_bits. Qed.

Lemma cron_field_exact_witness :
  Z.testbit 33554562 7 = true <-> exists p, In p (SplitOn "," "7,*/24") /\ in_part p 1 31 ∅ 7.
Proof.
  refine (cron_field_exact "7,*/24" 1 31 ∅ 33554562 7 _ _ _ _); try lia.
  vm_compute. reflexivity.
Defined.

(** The parser of a step accepts any positive 64-bit integer, and the
    loop that fills the set then overflows its index: a day of month with
    the largest step makes [ParseCron] panic instead of returning. *)
Theorem cron_step_overflow_panics :
  ParseCron "0 0 1/9223372036854775807 * *" = Panic "negative shift amount".
Proof. vm_compute. reflexivity. Qed.

(** A day-of-month field with a step is taken for an unrestricted one:
    an expression for every second day of the month fires on a day its set
    does not hold. *)
Theorem cron_day_step_ignored :
  exists c, ParseCron "0 0 */2 * *" = Ok c /\
    Next c (Date 2026 1 1 0 0 0 0) = Ok (Date 2026 1 2 0 0 0 0) /\ has (dom c) 2 = false.
Proof. eexists. split; [vm_compute; reflexivity|]. split; vm_compute; reflexivity. Qed.
