(* ===== verification/Window.v ===== *)
(** * Daily windows

    Models src/internal/schedule/window.go: "@between" expressions and the
    next instant of a daily window, with its per-day pseudo-random offset. A
    time zone is given by what Go's zone lookup returns at an instant: the
    offset from UTC and the interval on which that offset is in force, in
    seconds. The zone database (time.LoadLocation) is a parameter. *)

From Stdlib Require Import Ascii String.
From S2P Require Import Prelude ChunkHash Core Calendar GoStrings.
Local Open Scope Z_scope.

(** ** Time zones *)

Record ZoneSpan := mkSpan { zs_offset : Z; zs_start : Z; zs_end : Z }.

(** [lookup(sec)] of time.Location, on seconds since the zero time. *)
Definition Location := Z -> ZoneSpan.

Definition UTC : Location := fun _ => mkSpan 0 (- 2 ^ 63) (2 ^ 63 - 1).

(** The instant shown by the local clock, as the wall-clock instant of UTC. *)
Definition wall (loc : Location) (t : Time) : Time := t + zs_offset (loc (t / Second)) * Second.

(** time.Date at midnight of a local day: the offset in force at the guess,
    or, when the guess falls outside of that offset's interval, the one in
    force there. *)
Definition midnight (loc : Location) (y m d : Z) : Time :=
  let sec := days_from_civil y m d * 86400 in
  let sp := loc sec in
  if zs_offset sp =? 0 then sec * Second
  else
    let utc := sec - zs_offset sp in
    let off := if (utc <? zs_start sp) || (zs_end sp <=? utc)
               then zs_offset (loc utc) else zs_offset sp in
    (sec - off) * Second.

(** ** Windows *)

Record Window := mkWindow { wStart : Z; wEnd : Z; wZone : Location; wRandom : bool }.

Definition parseClock (value : string) : outcome Z :=
  match SplitOn ":" value with
  | [h; m] =>
      match Atoi h, Atoi m with
      | Some hour, Some minute =>
          if (hour <? 0) || (23 <? hour) || (minute <? 0) || (59 <? minute)
          then Err "clock outside 00:00-23:59"
          else Ok (hour * Hour + minute * Minute)
      | _, _ => Err "invalid syntax"
      end
  | _ => Err "invalid clock"
  end.

Definition parseWindowRange (value : string) : outcome (Z * Z) :=
  match SplitOn "-" value with
  | [a; b] => start <~ parseClock a ;; stop <~ parseClock b ;; Ok (start, stop)
  | _ => Err "invalid window range"
  end.

Section Parse.
  Context (LoadLocation : string -> option Location).

Fixpoint options_loop (fields : list string) (w : Window) : outcome Window :=
    match fields with
    | [] => Ok w
    | f :: fs =>
        if String.eqb f "random" then options_loop fs (mkWindow (wStart w) (wEnd w) (wZone w) true)
        else match LoadLocation f with
             | Some loc => options_loop fs (mkWindow (wStart w) (wEnd w) loc (wRandom w))
             | None => Err "load timezone"
             end
    end.

Definition ParseWindow (e : string) : outcome Window :=
    match Fields e with
    | f0 :: f1 :: rest =>
        if negb (String.eqb f0 "@between") then Err "window expression must start with @between"
        else
          r <~ parseWindowRange f1 ;;
          let '(start, stop) := r in
          w <~ options_loop rest (mkWindow start stop UTC false) ;;
          if wEnd w <=? wStart w then Err "window end must be after start" else Ok w
    | _ => Err "window expression must start with @between"
    end.
End Parse.

(** ** The offset of a day: FNV-1a of the key and the date *)

Fixpoint fnv64a (h : Z) (s : string) : Z :=
  match s with
  | EmptyString => h
  | String c r => fnv64a (u64 (Z.lxor h (Z.of_nat (nat_of_ascii c)) * 1099511628211)) r
  end.

Definition digit (n : Z) : ascii := ascii_of_nat (Z.to_nat (48 + n mod 10)).

(** The last [n] decimal digits of [z]. *)
Fixpoint padDecimal (n : nat) (z : Z) (acc : string) : string :=
  match n with
  | O => acc
  | S n => padDecimal n (z / 10) (String (digit z) acc)
  end.

(** Format("2006-01-02") of a local midnight, for years of four digits. *)
Definition formatDate (y m d : Z) : string :=
  (padDecimal 4 y "" ++ "-" ++ padDecimal 2 m "" ++ "-" ++ padDecimal 2 d "")%string.

Definition offsetFor (w : Window) (day : Time) (stableKey : string) : Z :=
  let width := wEnd w - wStart w in
  if width <=? 0 then 0
  else
    let t := wall (wZone w) day in
    fnv64a 14695981039346656037 (stableKey ++ ":" ++ formatDate (tYear t) (tMonth t) (tDay t))%string
    mod width.

(** ** The next instant *)

Definition candidate (w : Window) (local : Time) (stableKey : string) (i : Z) : Time :=
  let day := midnight (wZone w) (tYear local) (tMonth local) (tDay local + i) in
  if wRandom w then day + (wStart w + offsetFor w day stableKey) else day + wStart w.

(** [n] passes are left of the 370, the next one is number [i]. *)
Fixpoint window_loop (n : nat) (i : Z) (w : Window) (after local : Time) (stableKey : string) : outcome Time :=
  match n with
  | O => Err "no window time found within one year"
  | S n =>
      let c := candidate w local stableKey i in
      if after <? c then Ok c else window_loop n (i + 1) w after local stableKey
  end.

Definition WindowNext (w : Window) (after : Time) (stableKey : string) : outcome Time :=
  window_loop 370 0 w after (wall (wZone w) after) stableKey.

Example window_examples :
  (w <~ ParseWindow (fun _ => None) "@between 02:00-04:00" ;; WindowNext w (Date 2026 4 25 1 0 0 0) "k")
    = Ok (Date 2026 4 25 2 0 0 0) /\
  (w <~ ParseWindow (fun _ => None) "@between 02:00-04:00" ;; WindowNext w (Date 2026 4 25 2 0 0 0) "k")
    = Ok (Date 2026 4 26 2 0 0 0) /\
  fnv64a 14695981039346656037 "a" = 12638187200555641996 /\
  formatDate 2026 4 5 = "2026-04-05"%string.
Proof. vm_compute. repeat split. Qed.

(** ** Proofs *)

Lemma parseClock_range s d : parseClock s = Ok d -> 0 <= d < Day.
Proof.
  unfold parseClock. destruct (SplitOn ":" s) as [|h [|m [|? ?]]]; try done.
  destruct (Atoi h) as [hv|], (Atoi m) as [mv|]; try done.
  destruct (_ || _)%bool eqn:E; [done|]. intros [= <-]. unfold Day, Hour, Minute, Second. lia.
Qed.

Lemma options_loop_bounds LL fields w w' :
  options_loop LL fields w = Ok w' -> wStart w' = wStart w /\ wEnd w' = wEnd w.
Proof.
  revert w. induction fields as [|f fs IH]; intros w; simpl; [intros [= <-]; done|].
  destruct (String.eqb f "random"); [intros H; apply IH in H; done|].
  destruct (LL f); [intros H; apply IH in H; done|done].
Qed.

Lemma ParseWindow_bounds LL e w : ParseWindow LL e = Ok w -> 0 <= wStart w < wEnd w /\ wEnd w < Day.
Proof.
  unfold ParseWindow. destruct (Fields e) as [|f0 [|f1 rest]]; try done.
  destruct (negb _); [done|]. intros H. apply obind_ok in H as ([start stop] & Hr & H).
  apply obind_ok in H as (w' & Ho & H). destruct (wEnd w' <=? wStart w') eqn:E; [done|].
  injection H as <-. apply options_loop_bounds in Ho as [E1 E2]. simpl in *.
  unfold parseWindowRange in Hr. destruct (SplitOn "-" f1) as [|a [|b [|? ?]]]; try done.
  apply obind_ok in Hr as (s1 & ?%parseClock_range & Hr).
  apply obind_ok in Hr as (s2 & ?%parseClock_range & Hr). injection Hr as <- <-. lia.
Qed.

(** A day's candidate lies in that day's window. *)
Lemma candidate_in_window w local key i :
  wStart w < wEnd w ->
  let day := midnight (wZone w) (tYear local) (tMonth local) (tDay local + i) in
  day + wStart w <= candidate w local key i < day + wEnd w.
Proof.
  intros Hw day. unfold candidate. fold day. destruct (wRandom w); [|lia].
  unfold offsetFor. destruct (_ <=? 0) eqn:E; [lia|].
  match goal with |- context [?h mod ?m] => pose proof (Z.mod_pos_bound h m) end. lia.
Qed.

Lemma window_loop_spec n i w after local key :
  match window_loop n i w after local key with
  | Ok t => after < t /\ exists j, i <= j < i + Z.of_nat n /\ t = candidate w local key j /\
            (forall k, i <= k < j -> candidate w local key k <= after)
  | Err _ => forall k, i <= k < i + Z.of_nat n -> candidate w local key k <= after
  | _ => False
  end.
Proof.
  revert i. induction n as [|n IH]; intros i; simpl; [intros; lia|].
  destruct (after <? _) eqn:E.
  - split; [lia|]. exists i. repeat split; try lia.
  - specialize (IH (i + 1)). destruct (window_loop n (i + 1) w after local key) as [t|e|e|].
    + destruct IH as (Ha & j & Hj & Ht & Hk). split; [done|]. exists j. repeat split; [lia..|done|].
      intros k Hk'. destruct (decide (k = i)) as [->|]; [lia|apply Hk; lia].
    + intros k Hk. destruct (decide (k = i)) as [->|]; [lia|apply IH; lia].
    + done.
    + done.
Qed.

Lemma midnight_utc t i :
  midnight UTC (tYear t) (tMonth t) (tDay t + i) = (dayOf t + i) * Day.
Proof.
  unfold midnight. rewrite date_plus_days. unfold UTC, Day, Hour, Minute. cbn [zs_offset Z.eqb]. lia.
Qed.

(** Tomorrow's candidate of a UTC window is always in the future. *)
Lemma window_utc_tomorrow w after key :
  wZone w = UTC -> 0 <= wStart w < wEnd w -> after < candidate w (wall UTC after) key 1.
Proof.
  intros Hz Hw. replace (wall UTC after) with after by (unfold wall; simpl; lia).
  pose proof (candidate_in_window w after key 1 (proj2 Hw)) as C. rewrite Hz in C.
  simpl in C. rewrite midnight_utc in C. unfold dayOf, Day in *.
  pose proof (Z.mod_pos_bound after (24 * Hour)). pose proof (Z.div_mod after (24 * Hour)).
  unfold Hour, Minute, Second in *. lia.
Qed.

(** The instant [Window.Next] returns for a parsed window, in any time
    zone, lies strictly after the given one and inside the window of some
    local day, and no earlier day of the search had one; for a window in UTC
    the search succeeds today or tomorrow. *)
Theorem window_next_inside LL e w after key :
  ParseWindow LL e = Ok w ->
  let local := wall (wZone w) after in
  let day i := midnight (wZone w) (tYear local) (tMonth local) (tDay local + i) in
  (forall t, WindowNext w after key = Ok t ->
     after < t /\ exists i, 0 <= i < 370 /\ day i + wStart w <= t < day i + wEnd w /\
       (forall k, 0 <= k < i -> candidate w local key k <= after)) /\
  (wZone w = UTC -> exists t, WindowNext w after key = Ok t /\ t < (dayOf after + 2) * Day).
Proof.
  intros H local day. apply ParseWindow_bounds in H. unfold WindowNext. fold local.
  pose proof (window_loop_spec 370 0 w after local key) as S. split.
  - intros t Ht. rewrite Ht in S. destruct S as (Ha & j & Hj & -> & Hk). split; [done|].
    exists j. split; [lia|]. split; [|done]. apply candidate_in_window. lia.
  - intros Hz. pose proof (window_utc_tomorrow w after key Hz (proj1 H)) as T.
    assert (L : local = after) by (unfold local, wall; rewrite Hz; simpl; lia).
    replace (wall UTC after) with local in T by (unfold local; now rewrite Hz).
    destruct (window_loop 370 0 w after local key) as [t|e'|e'|]; [|specialize (S 1); lia|done|done].
    exists t. split; [done|]. destruct S as (_ & j & Hj & -> & Hk).
    assert (j <= 1). { destruct (Z.le_gt_cases j 1); [done|]. specialize (Hk 1). lia. }
    pose proof (candidate_in_window w local key j ltac:(lia)) as C. rewrite Hz, midnight_utc, L in C.
    rewrite L in *. cbv zeta in C. unfold Day, Hour, Minute, Second in *. lia.
Qed.

Lemma window_next_inside_witness :
  exists w t, ParseWindow (fun _ => Some UTC) "@between 02:00-04:00 UTC random" = Ok w /\
    WindowNext w (Date 2026 4 25 5 0 0 0) "schedule-1" = Ok t /\ Date 2026 4 25 5 0 0 0 < t.
Proof.
  eexists _, _. split; [vm_compute; reflexivity|]. split; [vm_compute; reflexivity|].
  apply (window_next_inside (fun _ => Some UTC) "@between 02:00-04:00 UTC random" _ (Date 2026 4 25 5 0 0 0)
    "schedule-1" eq_refl). vm_compute. reflexivity.
Defined.
