(* ===== verification/Scheduler.v ===== *)
(** * The scheduler

    Models src/internal/schedule/scheduler.go (the evaluation of schedules
    at an instant) and the choice of parent backups of
    src/internal/server/scheduler_runner.go. The zone database of the window
    expressions is the parameter [LL].

    The theorems show that the due times of a tick are the occurrences up to
    now, that ticking more often neither loses nor repeats one, and that a
    schedule which missed more occurrences than its catch-up limit makes
    every later tick fail. *)

From Stdlib Require Import Ascii String.
From S2P Require Import Prelude ChunkHash Core Calendar GoStrings Cron Window.
Local Open Scope Z_scope.

Definition CatchUpSkip : string := "skip".
Definition CatchUpQueue : string := "queue".
Definition CatchUpRunOnce : string := "run_once".

Record ScheduleState := mkState
  { ss_Schedule : Schedule; ss_LastRun : Time; ss_NextRun : Time;
    ss_CatchUpPolicy : string; ss_MaxCatchUp : Z }.

Record DueJob := mkDueJob
  { dj_ScheduleID : string; dj_TargetID : string; dj_StorageID : string; dj_Type : string;
    dj_ParentBackupID : string; dj_Hooks : JobHooks; dj_DueAt : Time; dj_QueuedAt : Time }.

#[export] Instance DueJob_eq_dec : EqDecision DueJob.
Proof. solve_decision. Defined.

Definition withNextRun (st : ScheduleState) (next : Time) : ScheduleState :=
  mkState (ss_Schedule st) (ss_LastRun st) next (ss_CatchUpPolicy st) (ss_MaxCatchUp st).

Definition withRuns (st : ScheduleState) (last next : Time) : ScheduleState :=
  mkState (ss_Schedule st) last next (ss_CatchUpPolicy st) (ss_MaxCatchUp st).

Definition dueJob (s : Schedule) (dueAt queuedAt : Time) : DueJob :=
  mkDueJob (sc_ID s) (sc_TargetID s) (sc_StorageID s) (sc_BackupType s) "" (sc_Hooks s) dueAt queuedAt.

Definition dueJobsForPolicy (st : ScheduleState) (dueTimes : list Time) (now : Time) : list DueJob :=
  match last dueTimes with
  | None => []
  | Some latest =>
      let s := ss_Schedule st in
      let policy := if String.eqb (ss_CatchUpPolicy st) "" then CatchUpSkip else ss_CatchUpPolicy st in
      if String.eqb policy CatchUpQueue then map (fun dueAt => dueJob s dueAt now) dueTimes
      else if String.eqb policy CatchUpRunOnce then [dueJob s now now]
      else [dueJob s latest now]
  end.

(** The catch-up loop: [n] counts the passes the limit still allows. *)
Fixpoint due_loop (nextFn : Time -> outcome Time) (n : nat) (next now : Time) (dueTimes : list Time)
  : outcome (list Time * Time) :=
  if now <? next then Ok (dueTimes, next)
  else match n with
       | O => Err "exceeded max catch-up runs"
       | S n => next' <~ nextFn next ;; due_loop nextFn n next' now (dueTimes ++ [next])
       end.

Section Zones.
  Context (LL : string -> option Location).

Definition nextFunc (s : Schedule) : outcome (Time -> outcome Time) :=
    if String.prefix "@between" (TrimSpace (sc_Expression s))
    then window <~ ParseWindow LL (sc_Expression s) ;;
         let stableKey := if String.eqb (sc_ID s) "" then sc_Name s else sc_ID s in
         Ok (fun after => WindowNext window after stableKey)
    else cron <~ ParseCron (sc_Expression s) ;; Ok (Next cron).

Definition seedOf (st : ScheduleState) (now : Time) : Time :=
    if negb (TimeIsZero (ss_LastRun st)) then ss_LastRun st
    else if negb (TimeIsZero (sc_CreatedAt (ss_Schedule st))) then sc_CreatedAt (ss_Schedule st)
    else now.

Definition firstNext (nextFn : Time -> outcome Time) (st : ScheduleState) (now : Time) : outcome Time :=
    if TimeIsZero (ss_NextRun st) then nextFn (seedOf st now) else Ok (ss_NextRun st).

Definition catchUpLimit (st : ScheduleState) : Z :=
    if ss_MaxCatchUp st <=? 0 then 1000 else ss_MaxCatchUp st.

Definition tickOne (st : ScheduleState) (now : Time) : outcome (ScheduleState * list DueJob) :=
    if sc_Paused (ss_Schedule st) then Ok (st, [])
    else
      nextFn <~ nextFunc (ss_Schedule st) ;;
      next <~ firstNext nextFn st now ;;
      if now <? next then Ok (withNextRun st next, [])
      else
        due <~ due_loop nextFn (Z.to_nat (catchUpLimit st)) next now [] ;;
        let '(dueTimes, next') := due in
        let st' := withRuns st (List.last dueTimes 0) next' in
        Ok (st', dueJobsForPolicy st' dueTimes now).

Fixpoint tick_loop (states : list ScheduleState) (now : Time) : outcome (list DueJob * list ScheduleState) :=
    match states with
    | [] => Ok ([], [])
    | st :: rest =>
        r <~ tickOne st now ;;
        let '(st', due) := r in
        r' <~ tick_loop rest now ;;
        let '(jobs, updated) := r' in
        Ok (due ++ jobs, st' :: updated)
    end.

  (** [clock] is what time.Now().UTC() reads. *)
Definition Tick (clock : Time) (states : list ScheduleState) (now : Time)
    : outcome (list DueJob * list ScheduleState) :=
    tick_loop states (if TimeIsZero now then clock else now).
End Zones.

(** ** Parents of scheduled backups (SchedulerRunner) *)

Definition BackupTypeFull : string := "full".
Definition BackupTypeIncremental : string := "incr".
Definition BackupTypeDifferential : string := "diff".

Definition scheduledBackupNeedsParent (backupType : string) : bool :=
  String.eqb backupType BackupTypeIncremental || String.eqb backupType BackupTypeDifferential.

Definition parentSuits (due : DueJob) (b : Backup) : bool :=
  String.eqb (bk_TargetID b) (dj_TargetID due) && String.eqb (bk_StorageID b) (dj_StorageID due) &&
  negb (IDIsZero (bk_ManifestID b)) &&
  (if String.eqb (dj_Type due) BackupTypeDifferential then String.eqb (bk_Type b) BackupTypeFull
   else if String.eqb (dj_Type due) BackupTypeIncremental
   then String.eqb (bk_Type b) BackupTypeFull || String.eqb (bk_Type b) BackupTypeIncremental
        || String.eqb (bk_Type b) BackupTypeDifferential
   else true).

(** The first suitable backup of the list. *)
Fixpoint selectParentBackup (backups : list Backup) (due : DueJob) : option Backup :=
  match backups with
  | [] => None
  | b :: bs => if parentSuits due b then Some b else selectParentBackup bs due
  end.

Definition withParent (j : DueJob) (type parent : string) : DueJob :=
  mkDueJob (dj_ScheduleID j) (dj_TargetID j) (dj_StorageID j) type parent (dj_Hooks j) (dj_DueAt j) (dj_QueuedAt j).

Definition attachParent (backups : list Backup) (j : DueJob) : DueJob :=
  if scheduledBackupNeedsParent (dj_Type j) then
    match selectParentBackup backups j with
    | None => withParent j BackupTypeFull ""
    | Some parent => withParent j (dj_Type j) (bk_ID parent)
    end
  else j.

(** [BackupStore.List] orders the stored backups newest first, then by ID. *)
Definition backupNewer (a b : Backup) : bool :=
  if bk_EndedAt a =? bk_EndedAt b then String.ltb (bk_ID a) (bk_ID b)
  else bk_EndedAt b <? bk_EndedAt a.

Definition BackupList (stored : list Backup) : list Backup := sort_by backupNewer stored.

Definition attachParentBackups (stored : list Backup) (due : list DueJob) : list DueJob :=
  map (attachParent (BackupList stored)) due.

(** ** Occurrences of a recurrence

    [occurrences f now next ds next']: from [next] on, [ds] are the
    successive occurrences up to [now] and [next'] is the first after it. *)
Inductive occurrences (f : Time -> outcome Time) (now : Time) : Time -> list Time -> Time -> Prop :=
| occ_none next : now < next -> occurrences f now next [] next
| occ_due next next1 ds next' :
    next <= now -> f next = Ok next1 -> occurrences f now next1 ds next' ->
    occurrences f now next (next :: ds) next'.

Lemma due_loop_occurrences f n next now acc ds next' :
  due_loop f n next now acc = Ok (ds, next') ->
  exists ds', ds = acc ++ ds' /\ occurrences f now next ds' next' /\ (length ds' <= n)%nat.
Proof.
  revert next acc. induction n as [|n IH]; intros next acc; simpl; destruct (now <? next) eqn:E; try done.
  1,2: intros [= <- <-]; exists []; rewrite app_nil_r; repeat split; [constructor|simpl]; lia.
  intros H. apply obind_ok in H as (n1 & Hf & H). apply IH in H as (ds' & -> & Ho & Hl).
  exists (next :: ds'). rewrite <- app_assoc. repeat split; [|simpl; lia].
  apply occ_due with n1; [lia|done..].
Qed.

Lemma occurrences_due_loop f n next now acc ds next' :
  occurrences f now next ds next' -> (length ds <= n)%nat ->
  due_loop f n next now acc = Ok (acc ++ ds, next').
Proof.
  intros H. revert n acc. induction H as [next Hn|next next1 ds next' Hle Hf Ho IH]; intros n acc Hl.
  - rewrite app_nil_r. destruct n; simpl; now replace (now <? next) with true by lia.
  - destruct n as [|n]; simpl in Hl; [lia|]. simpl. replace (now <? next) with false by lia.
    rewrite Hf. simpl. rewrite IH by lia. now rewrite <- app_assoc.
Qed.

(** Observing at [now1] on the way to [now2] splits the occurrences. *)
Lemma occurrences_split f now1 now2 next ds1 n1 ds2 n2 :
  now1 <= now2 -> occurrences f now1 next ds1 n1 -> occurrences f now2 n1 ds2 n2 ->
  occurrences f now2 next (ds1 ++ ds2) n2.
Proof.
  intros Hle H1 H2. induction H1; simpl; [done|]. eapply occ_due; [lia|done|auto].
Qed.

Lemma occurrences_bounds f now next ds next' :
  occurrences f now next ds next' -> now < next' /\ Forall (fun d => d <= now) ds.
Proof. induction 1 as [|? ? ? ? ? ? ? [? ?]]; split; auto. Qed.

Definition increasing (f : Time -> outcome Time) : Prop := forall t t', f t = Ok t' -> t < t'.

Lemma occurrences_sorted f now next ds next' :
  increasing f -> occurrences f now next ds next' ->
  StronglySorted Z.lt ds /\ Forall (fun d => next <= d) ds /\ next <= next'.
Proof.
  intros Hi. induction 1 as [|next next1 ds next' Hle Hf Ho (IH1 & IH2 & IH3)].
  { repeat split; constructor || lia. }
  pose proof (Hi _ _ Hf). split; [|split].
  - constructor; [done|]. eapply Forall_impl; [exact IH2|]. simpl. lia.
  - constructor; [lia|]. eapply Forall_impl; [exact IH2|]. simpl. lia.
  - lia.
Qed.

Lemma nextFunc_increasing LL s f : nextFunc LL s = Ok f -> increasing f.
Proof.
  unfold nextFunc. destruct (String.prefix _ _); intros H; apply obind_ok in H as (w & Hw & H);
    injection H as <-; intros t t' Ht.
  - pose proof (window_loop_spec 370 0 w t (wall (wZone w) t)) as S. unfold WindowNext in Ht.
    specialize (S (if String.eqb (sc_ID s) "" then sc_Name s else sc_ID s)). rewrite Ht in S. tauto.
  - apply parse_initialised in Hw. pose proof (next_least w t Hw) as S. rewrite Ht in S. lia.
Qed.

Lemma last_default {A} (x : A) l d d' : List.last (x :: l) d = List.last (x :: l) d'.
Proof. revert x. induction l as [|y l IH]; intros x; [done|]. apply IH. Qed.

(** The whole tick of one schedule, in terms of its occurrences. *)
Lemma tickOne_spec LL st now st' jobs :
  sc_Paused (ss_Schedule st) = false -> tickOne LL st now = Ok (st', jobs) ->
  exists f next ds next',
    nextFunc LL (ss_Schedule st) = Ok f /\ firstNext f st now = Ok next /\
    occurrences f now next ds next' /\ zlen ds <= catchUpLimit st /\
    st' = withRuns st (List.last ds (ss_LastRun st)) next' /\ jobs = dueJobsForPolicy st' ds now.
Proof.
  intros Hp. unfold tickOne. rewrite Hp. intros H.
  apply obind_ok in H as (f & Hf & H). apply obind_ok in H as (next & Hn & H).
  exists f, next. destruct (now <? next) eqn:E.
  - injection H as <- <-. exists [], next. repeat split; auto; [constructor; lia|].
    rewrite zlen_nil. unfold catchUpLimit. destruct (_ <=? _) eqn:L; lia.
  - apply obind_ok in H as ([ds next'] & Hd & H).
    apply due_loop_occurrences in Hd as (ds' & -> & Ho & Hl). injection H as <- <-.
    exists ds', next'. repeat split; auto.
    + unfold zlen. unfold catchUpLimit in *. destruct (_ <=? _) eqn:L; lia.
    + inversion Ho; subst; [lia|]. cbn [app]. now rewrite (last_default _ _ 0 (ss_LastRun st)).
Qed.

Lemma tickOne_intro LL st now f next ds next' :
  sc_Paused (ss_Schedule st) = false ->
  nextFunc LL (ss_Schedule st) = Ok f -> firstNext f st now = Ok next ->
  occurrences f now next ds next' -> zlen ds <= catchUpLimit st ->
  let st' := withRuns st (List.last ds (ss_LastRun st)) next' in
  tickOne LL st now = Ok (st', dueJobsForPolicy st' ds now).
Proof.
  intros Hp Hf Hn Ho Hl st'. unfold tickOne. rewrite Hp, Hf. simpl. rewrite Hn. simpl.
  destruct (now <? next) eqn:E.
  - inversion Ho; subst; [|lia]. subst st'. simpl. unfold dueJobsForPolicy. simpl. reflexivity.
  - rewrite (occurrences_due_loop f _ next now [] ds next' Ho).
    2:{ unfold zlen in Hl. lia. }
    simpl. subst st'. inversion Ho; subst; [lia|].
    now rewrite (last_default _ _ 0 (ss_LastRun st)).
Qed.

(** A schedule whose cursor starts from stored times, not from the clock. *)
Definition seeded (st : ScheduleState) : Prop :=
  0 < sc_CreatedAt (ss_Schedule st) /\ 0 <= ss_LastRun st /\ 0 <= ss_NextRun st.

Lemma firstNext_clock f st now now' : seeded st -> firstNext f st now = firstNext f st now'.
Proof.
  intros (Hc & _ & _). unfold firstNext, seedOf, TimeIsZero.
  now replace (sc_CreatedAt (ss_Schedule st) =? 0) with false by lia.
Qed.

Lemma firstNext_pos f st now next :
  seeded st -> increasing f -> firstNext f st now = Ok next -> 0 < next.
Proof.
  intros (Hc & Hl & Hn) Hi. unfold firstNext, seedOf, TimeIsZero.
  destruct (ss_NextRun st =? 0) eqn:E; [|intros [= <-]; lia].
  replace (sc_CreatedAt (ss_Schedule st) =? 0) with false by lia.
  destruct (ss_LastRun st =? 0) eqn:F; simpl; intros H; apply Hi in H; lia.
Qed.

Lemma queue_jobs st ds now :
  ss_CatchUpPolicy st = CatchUpQueue ->
  dueJobsForPolicy st ds now = map (fun dueAt => dueJob (ss_Schedule st) dueAt now) ds.
Proof.
  intros E. unfold dueJobsForPolicy. rewrite E. simpl.
  destruct (last ds) eqn:L; [done|]. now apply last_None in L as ->.
Qed.

Lemma queue_due_times st ds now :
  ss_CatchUpPolicy st = CatchUpQueue -> map dj_DueAt (dueJobsForPolicy st ds now) = ds.
Proof. intros E. rewrite queue_jobs, map_map by done. simpl. apply map_id. Qed.

Lemma last_app_default {A} (l k : list A) d : List.last (l ++ k) d = List.last k (List.last l d).
Proof.
  destruct k as [|x k]; [now rewrite app_nil_r|].
  revert d. induction l as [|y l IH]; intros d; [done|].
  destruct l as [|z l]; [simpl app|].
  - transitivity (List.last (x :: k) d); [done|apply last_default].
  - transitivity (List.last ((z :: l) ++ x :: k) d); [done|]. rewrite IH. done.
Qed.


Definition demoSchedule : Schedule :=
  mkSchedule "s1" "nightly" "db" "repo" "full" "*/10 * * * *" "" (mkHooks [] []) false
    (Date 2026 1 1 0 0 0 0) (Date 2026 1 1 0 0 0 0) ∅.

Definition demoState (policy : string) : ScheduleState :=
  mkState demoSchedule 0 (Date 2026 1 1 0 10 0 0) policy 0.


(** The jobs of a tick are due at successive instants up to now, at most
    as many as the catch-up limit (one unless the policy queues every
    occurrence), and the cursor moves past now: the next run lies strictly
    after it. *)
Theorem tick_jobs_bounded LL st now st' jobs :
  sc_Paused (ss_Schedule st) = false -> tickOne LL st now = Ok (st', jobs) ->
  now < ss_NextRun st' /\ StronglySorted Z.lt (map dj_DueAt jobs) /\
  Forall (fun j => dj_DueAt j <= now /\ dj_QueuedAt j = now /\
                   dj_ScheduleID j = sc_ID (ss_Schedule st)) jobs /\
  zlen jobs <= catchUpLimit st /\ (ss_CatchUpPolicy st <> CatchUpQueue -> zlen jobs <= 1).
Proof.
  intros Hp H. apply tickOne_spec in H as (f & next & ds & n' & Hf & Hn & Ho & Hl & -> & ->); [|done].
  pose proof (nextFunc_increasing _ _ _ Hf) as Hi.
  pose proof (occurrences_sorted _ _ _ _ _ Hi Ho) as (S & _ & _).
  apply occurrences_bounds in Ho as [Hn' Hd]. split; [done|].
  unfold dueJobsForPolicy. destruct (last ds) as [d|] eqn:L.
  2:{ simpl. rewrite zlen_nil. pose proof (zlen_nonneg ds). repeat split; try constructor; lia. }
  assert (d <= now). { apply last_Some in L as [k ->]. apply Forall_app in Hd as [_ Hd].
    now apply Forall_cons in Hd as [Hd _]. }
  assert (1 <= zlen ds). { apply last_Some in L as [k ->]. rewrite zlen_app, zlen_cons, zlen_nil.
    pose proof (zlen_nonneg k). lia. }
  cbn [withRuns ss_CatchUpPolicy ss_Schedule].
  destruct (String.eqb _ CatchUpQueue) eqn:E.
  - rewrite map_map. simpl. rewrite map_id. split; [done|]. split; [|split].
    + apply Forall_map. eapply Forall_impl; [exact Hd|]. simpl. auto.
    + unfold zlen in *. now rewrite length_map.
    + intros Hne. apply String.eqb_eq in E. destruct (String.eqb _ "") eqn:E2; [discriminate|done].
  - destruct (String.eqb _ CatchUpRunOnce); cbn [map]; rewrite zlen_cons, zlen_nil;
      repeat split; repeat constructor; simpl; lia.
Qed.

Lemma tick_jobs_bounded_witness :
  Date 2026 1 1 0 45 0 0 <
  ss_NextRun (withRuns (demoState "") (Date 2026 1 1 0 40 0 0) (Date 2026 1 1 0 50 0 0)).
Proof.
  apply (tick_jobs_bounded (fun _ => None) (demoState "") (Date 2026 1 1 0 45 0 0) _
    [dueJob demoSchedule (Date 2026 1 1 0 40 0 0) (Date 2026 1 1 0 45 0 0)]); vm_compute; reflexivity.
Defined.

(** ** A tick that fails keeps failing *)

Lemma occurrences_prefix f now now' next ds next' :
  now <= now' -> occurrences f now' next ds next' ->
  exists ds1 n1, occurrences f now next ds1 n1 /\ (length ds1 <= length ds)%nat.
Proof.
  intros Hle. induction 1 as [next Hn|next next1 ds next' Hn Hf Ho IH].
  - exists [], next. split; [constructor; lia|done].
  - destruct (Z.lt_ge_cases now next) as [L|L].
    + exists [], next. split; [now constructor|simpl; lia].
    + destruct IH as (ds1 & n1 & H1 & H2). exists (next :: ds1), n1.
      split; [now apply occ_due with next1|simpl; lia].
Qed.

Lemma tickOne_ok_earlier LL st now now' :
  seeded st -> now <= now' -> is_ok (tickOne LL st now') = true -> is_ok (tickOne LL st now) = true.
Proof.
  intros Hs Hle H. destruct (sc_Paused (ss_Schedule st)) eqn:Hp.
  { unfold tickOne. now rewrite Hp. }
  destruct (tickOne LL st now') as [[st' jobs]|e|e|] eqn:E; try done.
  apply tickOne_spec in E as (f & next & ds & n' & Hf & Hn & Ho & Hl & _ & _); [|done].
  rewrite (firstNext_clock _ _ _ now Hs) in Hn.
  apply (occurrences_prefix _ now) in Ho as (ds1 & n1 & Ho & Hlen); [|done].
  rewrite (tickOne_intro LL st now f next ds1 n1); auto. unfold zlen in *. lia.
Qed.

Lemma tick_loop_ok LL states now st :
  In st states -> is_ok (tick_loop LL states now) = true -> is_ok (tickOne LL st now) = true.
Proof.
  induction states as [|s states IH]; simpl; [done|]. intros Hin H.
  destruct (tickOne LL s now) as [[s' due]|e|e|] eqn:E; try done. simpl in H.
  destruct Hin as [->|Hin]; [now rewrite E|].
  destruct (tick_loop LL states now) as [[jobs up]|e|e|]; try done. now apply IH.
Qed.

(** A schedule that failed at an instant, for instance because it missed
    more occurrences than its catch-up limit during a long downtime, fails
    at every later instant too, since its cursor is not moved; and [Tick]
    then returns no job of any schedule, at this and at every later time. *)
Theorem failed_tick_blocks_all LL clock states st now now' :
  In st states -> seeded st -> is_ok (tickOne LL st now) = false ->
  0 < now <= now' -> is_ok (Tick LL clock states now') = false.
Proof.
  intros Hin Hs Hf Hle. unfold Tick, TimeIsZero. replace (now' =? 0) with false by lia.
  destruct (is_ok (tick_loop LL states now')) eqn:E; [|done].
  apply (tick_loop_ok _ _ _ _ Hin) in E. apply (tickOne_ok_earlier _ _ now) in E; [|done|lia].
  congruence.
Qed.

Definition limitedState : ScheduleState :=
  mkState demoSchedule 0 (Date 2026 1 1 0 10 0 0) CatchUpSkip 5.

(** An hour without a tick of a ten-minute schedule with limit five. *)
Lemma failed_tick_blocks_all_witness :
  is_ok (Tick (fun _ => None) 0 [limitedState] (Date 2026 1 1 1 0 0 0)) = false /\
  is_ok (Tick (fun _ => None) 0 [limitedState] (Date 2027 1 1 0 0 0 0)) = false.
Proof.
  split; (apply (failed_tick_blocks_all _ 0 [limitedState] limitedState (Date 2026 1 1 1 0 0 0));
    [now left|repeat split; vm_compute; congruence|vm_compute; reflexivity|];
    vm_compute; split; congruence).
Defined.

(** ** Parents *)

Lemma selectParent_spec backups due :
  StronglySorted (fun a b => backupNewer b a = false) backups ->
  match selectParentBackup backups due with
  | Some b => In b backups /\ parentSuits due b = true /\
              (forall b', In b' backups -> parentSuits due b' = true -> bk_EndedAt b' <= bk_EndedAt b)
  | None => forall b, In b backups -> parentSuits due b = false
  end.
Proof.
  induction 1 as [|b bs Hs IH Hf]; simpl; [done|].
  destruct (parentSuits due b) eqn:E.
  - split; [now left|]. split; [done|]. intros b' [<-|Hin] _; [lia|].
    rewrite Forall_forall in Hf. specialize (Hf b'). rewrite list_elem_of_In in Hf. specialize (Hf Hin).
    unfold backupNewer in Hf. destruct (_ =? _) eqn:E1; lia.
  - destruct (selectParentBackup bs due) as [p|].
    + destruct IH as (H1 & H2 & H3). split; [now right|]. split; [done|].
      intros b' [<-|Hin] Hb'; [congruence|auto].
    + intros b' [<-|Hin]; auto.
Qed.

Lemma BackupList_sorted stored :
  StronglySorted (fun a b => backupNewer b a = false) (BackupList stored).
Proof.
  apply sort_by_sorted; unfold backupNewer.
  - intros x. rewrite Z.eqb_refl. apply string_ltb_irrefl.
  - intros x y z. destruct (bk_EndedAt x =? bk_EndedAt y) eqn:E1, (bk_EndedAt y =? bk_EndedAt z) eqn:E2,
      (bk_EndedAt x =? bk_EndedAt z) eqn:E3; try lia. apply string_ltb_trans.
  - intros x y z. destruct (bk_EndedAt x =? bk_EndedAt y) eqn:E1, (bk_EndedAt y =? bk_EndedAt z) eqn:E2,
      (bk_EndedAt x =? bk_EndedAt z) eqn:E3; try lia. apply string_nltb_trans.
Qed.

(** A scheduled incremental or differential job is given as parent the
    newest stored backup of the same target and storage that has a manifest
    and the right type (a full one for a differential job), and becomes a
    full job without parent exactly when there is none. *)
Theorem attached_parent_newest stored j :
  scheduledBackupNeedsParent (dj_Type j) = true ->
  let j' := attachParent (BackupList stored) j in
  (exists b, In b stored /\ parentSuits j b = true /\ dj_Type j' = dj_Type j /\
     dj_ParentBackupID j' = bk_ID b /\
     (forall b', In b' stored -> parentSuits j b' = true -> bk_EndedAt b' <= bk_EndedAt b)) \/
  ((forall b, In b stored -> parentSuits j b = false) /\
   dj_Type j' = BackupTypeFull /\ dj_ParentBackupID j' = ""%string).
Proof.
  intros Hn. unfold attachParent. rewrite Hn.
  pose proof (selectParent_spec (BackupList stored) j (BackupList_sorted stored)) as S.
  assert (I : forall b, In b (BackupList stored) <-> In b stored) by (intros; apply sort_by_in).
  destruct (selectParentBackup (BackupList stored) j) as [b|].
  - left. destruct S as (S1 & S2 & S3). exists b. rewrite I in S1. repeat split; auto.
    intros b' Hb'. apply S3. now rewrite I.
  - right. split; [|done]. intros b Hb. apply S. now rewrite I.
Qed.

Definition demoBackup (id type : string) (ended : Time) : Backup :=
  mkBackup id "db" "repo" "" type "" "m" 0 ended 0 0 false.

Lemma attached_parent_newest_witness :
  let j := withParent (dueJob demoSchedule 5 5) "diff" "" in
  let stored := [demoBackup "b1" "full" 10; demoBackup "b2" "full" 20; demoBackup "b3" "incr" 30] in
  dj_ParentBackupID (attachParent (BackupList stored) j) = "b2"%string.
Proof.
  intros j stored. destruct (attached_parent_newest stored j eq_refl) as [(b & Hb & Hs & _ & -> & Hmax)|[H _]].
  - destruct Hb as [<-|[<-|[<-|[]]]].
    + specialize (Hmax (demoBackup "b2" "full" 20) ltac:(simpl; tauto) eq_refl). simpl in Hmax. lia.
    + reflexivity.
    + discriminate Hs.
  - specialize (H (demoBackup "b2" "full" 20) ltac:(simpl; tauto)). discriminate H.
Defined.

(** ** The per-target job queue

    Models src/internal/schedule/queue.go. The state is the pair of maps of
    the code; a nil map behaves as the empty one. The theorem follows any
    sequence of calls: the queue starts each target's jobs one at a time, in
    the order in which they were enqueued, and holds exactly the rest. *)

Record TargetQueue := mkQueue
  { tq_running : gmap string bool; tq_queued : gmap string (list DueJob) }.

Definition NewTargetQueue : TargetQueue := mkQueue ∅ ∅.

Definition isRunning (q : TargetQueue) (t : string) : bool := default false (tq_running q !! t).
Definition queuedOf (q : TargetQueue) (t : string) : list DueJob := default [] (tq_queued q !! t).

Fixpoint enqueue_loop (q : TargetQueue) (jobs : list DueJob) (ready : list DueJob) : TargetQueue * list DueJob :=
  match jobs with
  | [] => (q, ready)
  | job :: rest =>
      let t := dj_TargetID job in
      if negb (isRunning q t)
      then enqueue_loop (mkQueue (<[t := true]> (tq_running q)) (tq_queued q)) rest (ready ++ [job])
      else enqueue_loop (mkQueue (tq_running q) (<[t := queuedOf q t ++ [job]]> (tq_queued q))) rest ready
  end.

(** Returns the jobs that can start at once. *)
Definition Enqueue (q : TargetQueue) (jobs : list DueJob) : TargetQueue * list DueJob :=
  enqueue_loop q jobs [].

(** Returns the next job of the target, if one waits. *)
Definition Complete (q : TargetQueue) (targetID : string) : TargetQueue * option DueJob :=
  match queuedOf q targetID with
  | [] => (mkQueue (delete targetID (tq_running q)) (delete targetID (tq_queued q)), None)
  | next :: more =>
      (mkQueue (<[targetID := true]> (tq_running q))
         (match more with
          | [] => delete targetID (tq_queued q)
          | _ => <[targetID := more]> (tq_queued q)
          end), Some next)
  end.

Definition Pending (q : TargetQueue) (targetID : string) : Z := zlen (queuedOf q targetID).

(** ** Histories *)

Inductive qop : Type :=
| OpEnqueue (jobs : list DueJob)
| OpComplete (targetID : string).

(** What a client observes: the jobs it was told to start, the jobs it
    handed in, and the targets whose running job it finished. *)
Record history := mkHistory
  { h_started : list DueJob; h_enqueued : list DueJob; h_finished : list string }.

Definition qstep (s : TargetQueue * history) (op : qop) : TargetQueue * history :=
  let '(q, h) := s in
  match op with
  | OpEnqueue jobs =>
      let '(q', ready) := Enqueue q jobs in
      (q', mkHistory (h_started h ++ ready) (h_enqueued h ++ jobs) (h_finished h))
  | OpComplete t =>
      let '(q', job) := Complete q t in
      (q', mkHistory (h_started h ++ option_list job) (h_enqueued h)
             (if isRunning q t then h_finished h ++ [t] else h_finished h))
  end.

Definition qrun (ops : list qop) : TargetQueue * history :=
  foldl qstep (NewTargetQueue, mkHistory [] [] []) ops.

Definition jobsOf (t : string) (l : list DueJob) : list DueJob :=
  List.filter (fun j => String.eqb (dj_TargetID j) t) l.

Definition countOf (t : string) (l : list string) : Z := zlen (List.filter (String.eqb t) l).

(** ** Proofs *)

Lemma jobsOf_app t a b : jobsOf t (a ++ b) = jobsOf t a ++ jobsOf t b.
Proof. apply List.filter_app. Qed.

Lemma countOf_app t a b : countOf t (a ++ b) = countOf t a + countOf t b.
Proof. unfold countOf. now rewrite List.filter_app, zlen_app. Qed.

Lemma jobsOf_single t j : jobsOf t [j] = if String.eqb (dj_TargetID j) t then [j] else [].
Proof. done. Qed.

Lemma countOf_single t t' : countOf t [t'] = if String.eqb t' t then 1 else 0.
Proof. unfold countOf. simpl. rewrite String.eqb_sym. now destruct (String.eqb t' t). Qed.

(** The invariant, for one target: started and waiting jobs are the
    enqueued ones in order; one started job is unfinished when the target
    runs and none otherwise; jobs wait only behind a running one. *)
Definition qinv (t : string) (q : TargetQueue) (started enqueued : list DueJob) (finished : list string) : Prop :=
  jobsOf t started ++ queuedOf q t = jobsOf t enqueued /\
  zlen (jobsOf t started) = countOf t finished + (if isRunning q t then 1 else 0) /\
  (isRunning q t = false -> queuedOf q t = []) /\
  Forall (fun j => dj_TargetID j = t) (queuedOf q t).

Lemma isRunning_insert q t t' b m :
  isRunning (mkQueue (<[t := b]> (tq_running q)) m) t' = if String.eqb t t' then b else isRunning q t'.
Proof.
  unfold isRunning. simpl. destruct (String.eqb_spec t t') as [<-|Hne].
  - now rewrite lookup_insert_eq.
  - now rewrite lookup_insert_ne.
Qed.

Lemma queuedOf_insert q t t' l m :
  queuedOf (mkQueue m (<[t := l]> (tq_queued q))) t' = if String.eqb t t' then l else queuedOf q t'.
Proof.
  unfold queuedOf. simpl. destruct (String.eqb_spec t t') as [<-|Hne].
  - now rewrite lookup_insert_eq.
  - now rewrite lookup_insert_ne.
Qed.

Lemma queuedOf_delete q t t' m :
  queuedOf (mkQueue m (delete t (tq_queued q))) t' = if String.eqb t t' then [] else queuedOf q t'.
Proof.
  unfold queuedOf. simpl. destruct (String.eqb_spec t t') as [<-|Hne].
  - now rewrite lookup_delete_eq.
  - now rewrite lookup_delete_ne.
Qed.

Lemma isRunning_delete q t t' m :
  isRunning (mkQueue (delete t (tq_running q)) m) t' = if String.eqb t t' then false else isRunning q t'.
Proof.
  unfold isRunning. simpl. destruct (String.eqb_spec t t') as [<-|Hne].
  - now rewrite lookup_delete_eq.
  - now rewrite lookup_delete_ne.
Qed.

Lemma enqueue_loop_inv t jobs q ready started enqueued finished q' ready' :
  enqueue_loop q jobs ready = (q', ready') ->
  qinv t q (started ++ ready) enqueued finished ->
  qinv t q' (started ++ ready') (enqueued ++ jobs) finished.
Proof.
  revert q ready enqueued. induction jobs as [|j jobs IH]; intros q ready enqueued; simpl.
  { intros [= <- <-]. now rewrite app_nil_r. }
  intros H (I1 & I2 & I3 & I4).
  rewrite (cons_middle j enqueued jobs), app_assoc.
  destruct (isRunning q (dj_TargetID j)) eqn:R; simpl in H; apply (IH _ _ _ H); clear H;
    unfold qinv; rewrite ?queuedOf_insert, ?isRunning_insert, !jobsOf_app, ?jobsOf_single.
  - change (isRunning (mkQueue (tq_running q) _) t) with (isRunning q t).
    rewrite jobsOf_app in I1, I2. destruct (String.eqb_spec (dj_TargetID j) t) as [<-|Hne].
    + rewrite app_assoc, I1, R. repeat split; try done; [now rewrite R in I2|].
      apply Forall_app. now repeat constructor.
    + now rewrite app_nil_r.
  - change (queuedOf (mkQueue _ (tq_queued q)) t) with (queuedOf q t).
    rewrite jobsOf_app in I1, I2. destruct (String.eqb_spec (dj_TargetID j) t) as [<-|Hne].
    + rewrite (I3 R) in *. rewrite app_nil_r in I1. rewrite !app_nil_r, app_assoc.
      repeat split; try done; [now rewrite I1|]. rewrite zlen_app, I2, R. change (zlen [j]) with 1. lia.
    + now rewrite !app_nil_r.
Qed.

Lemma complete_inv t t' q q' job started enqueued finished :
  Complete q t' = (q', job) -> qinv t q started enqueued finished ->
  Forall (fun j => dj_TargetID j = t') (queuedOf q t') ->
  qinv t q' (started ++ option_list job) enqueued
    (if isRunning q t' then finished ++ [t'] else finished).
Proof.
  unfold Complete. destruct (queuedOf q t') as [|next more] eqn:Q; intros [= <- <-] (I1 & I2 & I3 & I4) F.
  - simpl. rewrite app_nil_r. unfold qinv. rewrite queuedOf_delete, isRunning_delete.
    destruct (String.eqb_spec t' t) as [->|Hne].
    + rewrite Q in I1. repeat split; auto.
      destruct (isRunning q t); rewrite ?countOf_app, ?countOf_single, ?String.eqb_refl; lia.
    + repeat split; auto. apply String.eqb_neq in Hne.
      destruct (isRunning q t'); rewrite ?countOf_app, ?countOf_single, ?Hne; lia.
  - set (m := match more with [] => _ | _ => _ end).
    assert (Hq : queuedOf (mkQueue (<[t' := true]> (tq_running q)) m) t =
                 if String.eqb t' t then more else queuedOf q t).
    { subst m. destruct more; [apply queuedOf_delete|apply queuedOf_insert]. }
    unfold qinv. rewrite Hq, isRunning_insert, jobsOf_app. simpl option_list. rewrite jobsOf_single.
    apply Forall_cons in F as [Fn Fm]. rewrite Fn.
    destruct (String.eqb_spec t' t) as [->|Hne].
    + rewrite Q in I1, I4.
      assert (R : isRunning q t = true) by (destruct (isRunning q t); [done|now rewrite I3 in Q]).
      rewrite R in *. rewrite <- app_assoc. repeat split; auto; [|done].
      rewrite zlen_app, I2, countOf_app, countOf_single, String.eqb_refl. change (zlen [next]) with 1. lia.
    + rewrite app_nil_r. repeat split; auto. apply String.eqb_neq in Hne.
      destruct (isRunning q t'); rewrite ?countOf_app, ?countOf_single, ?Hne; lia.
Qed.

Lemma qrun_inv ops t :
  let '(q, h) := qrun ops in qinv t q (h_started h) (h_enqueued h) (h_finished h).
Proof.
  unfold qrun. revert t.
  assert (G : forall s, (forall t, qinv t s.1 (h_started s.2) (h_enqueued s.2) (h_finished s.2)) ->
    forall t, let '(q, h) := foldl qstep s ops in qinv t q (h_started h) (h_enqueued h) (h_finished h)).
  { induction ops as [|op ops IH]; intros [q h] Hs t; simpl; [apply Hs|].
    apply (IH (qstep (q, h) op)). clear t IH. intros t. simpl in Hs. destruct op as [jobs|t']; simpl.
    - destruct (Enqueue q jobs) as [q' ready] eqn:E. simpl. apply (enqueue_loop_inv _ _ _ _ _ _ _ _ _ E).
      rewrite app_nil_r. apply Hs.
    - destruct (Complete q t') as [q' job] eqn:E. simpl. apply (complete_inv _ _ _ _ _ _ _ _ E (Hs t)).
      apply (Hs t'). }
  intros t. apply G. intros t'. repeat split; done.
Qed.

(** After any sequence of calls, for each target the jobs the queue told
    its client to start, followed by the waiting ones, are the jobs
    enqueued, in order; at most one started job of a target is unfinished
    (exactly one when the target is marked running), and jobs wait only
    behind a running one. *)
Theorem target_queue_serial_fifo ops t :
  let '(q, h) := qrun ops in
  jobsOf t (h_started h) ++ queuedOf q t = jobsOf t (h_enqueued h) /\
  zlen (jobsOf t (h_started h)) = countOf t (h_finished h) + (if isRunning q t then 1 else 0) /\
  (0 < Pending q t -> isRunning q t = true).
Proof.
  pose proof (qrun_inv ops t) as H. destruct (qrun ops) as [q h]. destruct H as (H1 & H2 & H3 & _).
  repeat split; auto. unfold Pending. destruct (isRunning q t); [done|]. rewrite (H3 eq_refl). unfold zlen. simpl. lia.
Qed.
