(* ===== verification/Documents.v ===== *)
(** * JSON documents in buckets

    Models saveJSON, getJSON, listJSON and deleteKey of
    src/internal/server/resource_store.go, through which every store of the
    server keeps its records. The class [KV] is what they rely on of the
    embedded database: a transaction that fails leaves every bucket as it
    was, one that succeeds changes one key, and a scan yields the bucket in
    key order. [Codec] is the JSON codec of a record type. *)

From Stdlib Require Import Ascii String.
From S2P Require Import Prelude ChunkHash Core GoStrings.
Local Open Scope Z_scope.

Class KV (S : Type) := {
  bucket : string -> S -> gmap string bytes;
  (** One transaction that puts values under keys of buckets, in order. *)
  kputs : list (string * string * bytes) -> M S unit;
  kget : string -> string -> S -> outcome (option bytes);
  kdelete : string -> string -> M S unit;
  kscan : string -> string -> S -> outcome (list bytes)
}.

Definition kput {S} `{KV S} (b k : string) (v : bytes) : M S unit := kputs [(b, k, v)].

(** Bucket [b] after the writes [ws]. *)
Definition written (ws : list (string * string * bytes)) (b : string) (m : gmap string bytes) : gmap string bytes :=
  foldl (fun m '(b', k, v) => if String.eqb b b' then <[k := v]> m else m) m ws.

(** The buckets after a change of bucket [b]. *)
Definition changed {S} `{KV S} (b : string) (m : gmap string bytes) (s s' : S) : Prop :=
  forall b', bucket b' s' = if String.eqb b' b then m else bucket b' s.

Definition unchanged {S} `{KV S} (s s' : S) : Prop := forall b, bucket b s' = bucket b s.

Class KVLaws (S : Type) `{KV S} := {
  kputs_ok ws s : is_ok (kputs ws s).1 = true ->
    forall b, bucket b (kputs ws s).2 = written ws b (bucket b s);
  kputs_fail ws s : is_ok (kputs ws s).1 = false -> unchanged s (kputs ws s).2;
  kget_bucket b k s r : kget b k s = Ok r -> r = bucket b s !! k;
  kdelete_ok b k s : is_ok (kdelete b k s).1 = true ->
    changed b (delete k (bucket b s)) s (kdelete b k s).2;
  kdelete_fail b k s : is_ok (kdelete b k s).1 = false -> unchanged s (kdelete b k s).2;
  kscan_bucket b start s l : kscan b start s = Ok l ->
    l ≡ₚ (map_to_list (filter (fun e => String.ltb e.1 start = false) (bucket b s))).*2
}.

Class Codec (A : Type) := { encode : A -> option bytes; decode : bytes -> option A }.

Class CodecLaws (A : Type) `{Codec A} :=
  decode_encode : forall (a : A) d, encode a = Some d -> decode d = Some a.

(** The smallest key a scan shows: [][]byte{1}[]. *)
Definition firstKey : string := String "001" EmptyString.

Section Documents.
  Context {S : Type} `{KV S} {A : Type} `{Codec A}.

Definition saveJSON (b key : string) (value : A) : M S unit :=
  if String.eqb key "" then merr "key is required"
  else match encode value with
       | None => merr "marshal"
       | Some data => kput b key data
       end.

Definition getJSON (b key : string) (s : S) : outcome (option A) :=
  if String.eqb key "" then Err "key is required"
  else
    found <~ kget b key s ;;
    match found with
    | None => Ok None
    | Some data => match decode data with Some v => Ok (Some v) | None => Err "unmarshal" end
    end.

(** [fn] is called on each document, and its results are collected. *)
Fixpoint eachDoc {R} (fn : bytes -> outcome R) (l : list bytes) : outcome (list R) :=
  match l with
  | [] => Ok []
  | data :: rest => v <~ fn data ;; vs <~ eachDoc fn rest ;; Ok (v :: vs)
  end.

Definition listJSON {R} (b : string) (fn : bytes -> outcome R) (s : S) : outcome (list R) :=
  l <~ kscan b firstKey s ;; eachDoc fn l.

Definition unmarshal (data : bytes) : outcome A :=
  match decode data with Some v => Ok v | None => Err "unmarshal" end.

Definition deleteKey (b key : string) : M S unit :=
  if String.eqb key "" then merr "key is required" else kdelete b key.

(** The records of a bucket. *)
Definition docs (b : string) (s : S) : gmap string A := omap decode (bucket b s).
End Documents.

Arguments docs {S _} A {_} b s.
Arguments unmarshal {A _} data.

(** ** What the operations do to the records *)

Section Laws.
  Context {S : Type} `{KVLaws S} {A : Type} `{CodecLaws A}.

Lemma kput_ok b k v (s : S) : is_ok (kput b k v s).1 = true ->
  changed b (<[k := v]> (bucket b s)) s (kput b k v s).2.
Proof.
  intros R b'. unfold kput in *. rewrite (kputs_ok _ _ R). simpl.
  destruct (String.eqb_spec b' b) as [->|]; done.
Qed.

Lemma kput_fail b k v (s : S) : is_ok (kput b k v s).1 = false -> unchanged s (kput b k v s).2.
Proof. apply kputs_fail. Qed.

Lemma docs_unchanged {B} `{Codec B} (s s' : S) b : unchanged s s' -> docs B b s' = docs B b s.
Proof. intros U. unfold docs. now rewrite U. Qed.

Lemma docs_other {B} `{Codec B} (s s' : S) b b' m :
  changed b m s s' -> b' <> b -> docs B b' s' = docs B b' s.
Proof.
  intros C Hne. unfold docs. rewrite C. destruct (String.eqb_spec b' b); [contradiction|done].
Qed.

Lemma changed_self (s s' : S) b m : changed b m s s' -> bucket b s' = m.
Proof. intros C. rewrite C. now rewrite String.eqb_refl. Qed.

Lemma docs_put b key (value : A) d (s s' : S) :
  encode value = Some d -> changed b (<[key := d]> (bucket b s)) s s' ->
  docs A b s' = <[key := value]> (docs A b s).
Proof.
  intros E K. unfold docs. rewrite (changed_self _ _ _ _ K). apply map_eq. intros k.
  destruct (decide (k = key)) as [->|Hne].
  - rewrite lookup_omap, !lookup_insert_eq. simpl. now apply decode_encode.
  - now rewrite lookup_omap, !lookup_insert_ne, lookup_omap.
Qed.

(** A save changes one record, or nothing. *)
Definition saved (b key : string) (value : A) (s s' : S) : Prop :=
  docs A b s' = <[key := value]> (docs A b s) /\ exists m, changed b m s s'.

Lemma saveJSON_cases b key (value : A) (s : S) r s' :
  saveJSON b key value s = (r, s') ->
  (is_ok r = true /\ key <> "" /\ saved b key value s s') \/ (is_ok r = false /\ unchanged s s').
Proof.
  unfold saveJSON, merr. destruct (String.eqb_spec key ""); [intros [= <- <-]; right; done|].
  destruct (encode value) as [d|] eqn:E; [|intros [= <- <-]; right; done].
  intros P. pose proof (kput_ok b key d s) as K. pose proof (kput_fail b key d s) as F. rewrite P in K, F.
  destruct (is_ok r) eqn:R; [left|right; auto]. split; [done|]. split; [done|]. specialize (K R).
  simpl in K. split; [|eauto]. now apply (docs_put _ _ _ d).
Qed.

Lemma getJSON_docs b key (s : S) r : getJSON b key s = Ok r -> r = docs A b s !! key.
Proof.
  unfold getJSON. destruct (String.eqb key ""); [done|]. intros E.
  apply obind_ok in E as (found & G & E). apply kget_bucket in G. subst found. unfold docs.
  rewrite lookup_omap. destruct (bucket b s !! key) as [d|]; simpl; [|congruence].
  destruct (decode d); congruence.
Qed.

Definition removed (b key : string) (s s' : S) : Prop :=
  docs A b s' = delete key (docs A b s) /\ exists m, changed b m s s'.

Lemma deleteKey_cases b key (s : S) r s' :
  deleteKey b key s = (r, s') ->
  (is_ok r = true /\ removed b key s s') \/ (is_ok r = false /\ unchanged s s').
Proof.
  unfold deleteKey, merr. destruct (String.eqb key ""); [intros [= <- <-]; right; done|].
  intros P. pose proof (kdelete_ok b key s) as K. pose proof (kdelete_fail b key s) as F. rewrite P in K, F.
  destruct (is_ok r) eqn:R; [left|right; auto]. split; [done|]. specialize (K R). simpl in K.
  split; [|eauto]. unfold docs. rewrite (changed_self _ _ _ _ K). apply omap_delete.
Qed.

Lemma eachDoc_unmarshal l (vs : list A) :
  eachDoc unmarshal l = Ok vs -> omap decode l = vs /\ Forall2 (fun d v => decode d = Some v) l vs.
Proof.
  revert vs. induction l as [|d l IH]; intros vs; simpl; [intros [= <-]; auto|].
  unfold unmarshal at 1. destruct (decode d) as [v|] eqn:D; simpl; [|done].
  destruct (eachDoc unmarshal l) as [ws|e|e|]; simpl; try done. intros [= <-].
  destruct (IH ws eq_refl) as [E F]. split; [f_equal; exact E|]. now constructor.
Qed.

Lemma omap_listed (b : string) (s : S) :
  omap decode (map_to_list (filter (fun e => String.ltb e.1 firstKey = false) (bucket b s))).*2 ≡ₚ
  (map_to_list (filter (fun e => String.ltb e.1 firstKey = false) (docs A b s))).*2.
Proof.
  unfold docs. generalize (bucket b s). intros m. induction m as [|k d m Hk IH] using map_ind.
  - rewrite omap_empty, !map_filter_empty, !map_to_list_empty. done.
  - assert (Hk' : omap decode m !! k = (None : option A)) by now rewrite lookup_omap, Hk.
    destruct (String.ltb k firstKey) eqn:L.
    + rewrite map_filter_insert_not by (intros d' E; simpl in E; congruence).
      rewrite IH. rewrite omap_insert. destruct (decode d) as [v|].
      * now rewrite map_filter_insert_not by (intros d' E; simpl in E; congruence).
      * now rewrite delete_id by done.
    + rewrite map_filter_insert_True by done. rewrite map_to_list_insert.
      2:{ apply map_lookup_filter_None. now left. }
      simpl. rewrite omap_insert. destruct (decode d) as [v|] eqn:D.
      * rewrite map_filter_insert_True by done. rewrite map_to_list_insert.
        2:{ apply map_lookup_filter_None. now left. }
        simpl. now rewrite IH.
      * now rewrite delete_id by done.
Qed.

(** A listing shows the records whose keys are printable, in some order. *)
Lemma listJSON_docs b (s : S) (vs : list A) :
  listJSON b unmarshal s = Ok vs ->
  vs ≡ₚ (map_to_list (filter (fun e => String.ltb e.1 firstKey = false) (docs A b s))).*2.
Proof.
  unfold listJSON. intros E. apply obind_ok in E as (l & K & E). apply kscan_bucket in K.
  apply eachDoc_unmarshal in E as [<- _]. rewrite <- omap_listed. now rewrite K.
Qed.

(** A listing that keeps a part of each record. *)
Lemma listJSON_map {R} (f : A -> R) b (s : S) l :
  listJSON b (fun data => v <~ unmarshal data ;; Ok (f v)) s = Ok l ->
  exists vs, listJSON b unmarshal s = Ok vs /\ l = map f vs.
Proof.
  unfold listJSON. destruct (kscan b firstKey s) as [ds|e|e|]; simpl; try done.
  revert l. induction ds as [|d ds IH]; intros l; simpl; [intros [= <-]; now exists []|].
  destruct (unmarshal d) as [v|e|e|]; simpl; try done.
  destruct (eachDoc _ ds) as [ws|e|e|]; simpl; try done. intros [= <-].
  destruct (IH ws eq_refl) as (vs & E & ->). rewrite E. simpl. eauto.
Qed.

Lemma in_listJSON b (s : S) (vs : list A) v :
  listJSON b unmarshal s = Ok vs ->
  In v vs <-> exists k, docs A b s !! k = Some v /\ String.ltb k firstKey = false.
Proof.
  intros E. apply listJSON_docs in E. rewrite <- list_elem_of_In, E, list_elem_of_fmap. split.
  - intros ([k w] & -> & Hin). apply elem_of_map_to_list, map_lookup_filter_Some in Hin. eauto.
  - intros (k & L & Hk). exists (k, v). split; [done|].
    now apply elem_of_map_to_list, map_lookup_filter_Some.
Qed.
End Laws.

Section Agree.
  Context {S : Type} `{KV S}.

(** Two states whose buckets agree, but for those of [bs]. *)
Definition agree (bs : list string) (s s' : S) : Prop := forall b, ~ In b bs -> bucket b s' = bucket b s.

Lemma agree_refl bs (s : S) : agree bs s s.
Proof. done. Qed.

Lemma agree_trans bs (s1 s2 s3 : S) : agree bs s1 s2 -> agree bs s2 s3 -> agree bs s1 s3.
Proof. intros A B b Hb. now rewrite B, A. Qed.

Lemma agree_changed b m (s s' : S) bs : changed b m s s' -> In b bs -> agree bs s s'.
Proof. intros C Hin b' Hb. rewrite C. destruct (String.eqb_spec b' b); [subst; contradiction|done]. Qed.

Lemma agree_unchanged bs (s s' : S) : unchanged s s' -> agree bs s s'.
Proof. intros U b _. apply U. Qed.

Lemma agree_docs A `{Codec A} bs b (s s' : S) : agree bs s s' -> ~ In b bs -> docs A b s' = docs A b s.
Proof. intros G Hb. unfold docs. now rewrite G. Qed.
End Agree.

(** ** A database in memory *)

(** Closes an equation between closed terms by evaluating both sides. *)
Ltac vmrefl := match goal with |- ?x = ?y => vm_cast_no_check (@eq_refl _ y) end.

Definition memBucket (b : string) (s : gmap string (gmap string bytes)) : gmap string bytes :=
  default ∅ (s !! b).

Definition memWrite (ws : list (string * string * bytes)) (s : gmap string (gmap string bytes)) :=
  foldl (fun s '(b, k, v) => <[b := <[k := v]> (memBucket b s)]> s) s ws.

#[export] Instance memKV : KV (gmap string (gmap string bytes)) := {
  bucket := memBucket;
  kputs ws s := (Ok tt, memWrite ws s);
  kget b k s := Ok (memBucket b s !! k);
  kdelete b k s := (Ok tt, <[b := delete k (memBucket b s)]> s);
  kscan b start s := Ok (map_to_list (filter (fun e => String.ltb e.1 start = false) (memBucket b s))).*2
}.

Lemma mem_changed b m (s : gmap string (gmap string bytes)) : changed b m s (<[b := m]> s).
Proof.
  intros b'. simpl. unfold memBucket. destruct (String.eqb_spec b' b) as [->|Hne].
  - now rewrite lookup_insert_eq.
  - now rewrite lookup_insert_ne.
Qed.

#[export] Instance memKVLaws : KVLaws (gmap string (gmap string bytes)).
Proof.
  split; try done.
  - intros ws s _ b. simpl. unfold memWrite, written. revert s. induction ws as [|[[b' k] v] ws IH]; intros s; [done|].
    simpl. rewrite IH. f_equal. unfold memBucket at 1. destruct (String.eqb_spec b b') as [->|Hne].
    + now rewrite lookup_insert_eq.
    + now rewrite lookup_insert_ne.
  - intros b k s r [= <-]. done.
  - intros b k s _. apply mem_changed.
  - intros b start s l [= <-]. done.
Qed.

(** A codec for the records of a list: the position of the record. *)
Definition listCodec {A} `{EqDecision A} (l : list A) : Codec A := {|
  encode a := match list_find (eq a) l with
              | Some (i, _) => if (i <? 256)%nat then Some [z2b (Z.of_nat i)] else None
              | None => None
              end;
  decode d := match d with [b] => l !! Z.to_nat (b2z b) | _ => None end
|}.

Lemma listCodec_laws {A} `{EqDecision A} (l : list A) : @CodecLaws A (listCodec l).
Proof.
  intros a d. simpl. destruct (list_find (eq a) l) as [[i x]|] eqn:F; [|done].
  apply list_find_Some in F as (L & -> & _). destruct (Nat.ltb_spec i 256) as [Hi|]; [|done].
  intros [= <-]. rewrite b2z_z2b, Z.mod_small by lia. now rewrite Nat2Z.id.
Qed.

(** The codec of a type of which nothing is stored. *)
Definition noCodec {A} : Codec A := {| encode _ := None; decode _ := None |}.

Lemma noCodec_laws {A} : @CodecLaws A noCodec.
Proof. intros a d. done. Qed.
