(* ===== verification/Jobs.v ===== *)
(** * Jobs: the store and the orchestrator

    Models the JobStore of src/internal/server/job_store.go and
    src/internal/server/orchestrator.go. The store keeps JSON documents in a
    bucket of the embedded database; the class [JobTable] is what it relies
    on: a failed write leaves the table as it was (the database rolls back),
    and a successful one is seen by later reads. Clock readings and fresh
    identifiers are arguments.

    The theorems follow any sequence of operations: a job moves only along
    its life cycle, a claimed job is not claimed twice, and the recovery
    after a server loss leaves no job active. *)

From Stdlib Require Import String.
From S2P Require Import Prelude ChunkHash Core Calendar GoStrings Cron Window Scheduler Documents.
Local Open Scope Z_scope.

(** ** Records *)

Record RestoreReport := mkRestoreReport
  { rrp_BackupID : string; rrp_TargetID : string; rrp_ManifestIDs : list string; rrp_Objects : Z;
    rrp_Chunks : Z; rrp_StoredBytes : Z; rrp_RestoredBytes : Z; rrp_DryRun : bool }.

Record VerificationReport := mkVerificationReport
  { vr_BackupID : string; vr_Level : string; vr_ManifestIDs : list string; vr_Objects : Z; vr_Chunks : Z;
    vr_VerifiedChunks : Z; vr_StoredBytes : Z; vr_RestoredBytes : Z }.

Record FailureEvidence := mkFailureEvidence
  { fe_Operation : string; fe_Stage : string; fe_Message : string; fe_BackupID : string;
    fe_TargetID : string; fe_StorageID : string; fe_ManifestIDs : list string; fe_At : Time }.

Record RestoreEvidence := mkRestoreEvidence
  { rev_Operation : string; rev_Status : string; rev_BackupID : string; rev_TargetID : string;
    rev_StorageID : string; rev_ManifestIDs : list string; rev_RestoreAt : Time; rev_DryRun : bool;
    rev_ReplaceExisting : bool; rev_QueuedAt : Time; rev_StartedAt : Time; rev_EndedAt : Time;
    rev_Error : string; rev_Report : option RestoreReport; rev_Failure : option FailureEvidence }.

Record EvidenceArtifact := mkEvidenceArtifact
  { ea_ID : string; ea_JobID : string; ea_Kind : string; ea_SHA256 : string; ea_CreatedAt : Time;
    ea_Restore : option RestoreEvidence }.

Record Job := mkJob
  { jb_ID : string; jb_Operation : string; jb_ScheduleID : string; jb_TargetID : string;
    jb_StorageID : string; jb_Type : string; jb_AgentID : string; jb_ParentBackupID : string;
    jb_RestoreBackupID : string; jb_RestoreManifestID : string; jb_RestoreManifestIDs : list string;
    jb_RestoreTargetID : string; jb_RestoreAt : Time; jb_RestoreDryRun : bool;
    jb_RestoreReplaceExisting : bool; jb_RestoreReport : option RestoreReport;
    jb_FailureEvidence : option FailureEvidence; jb_EvidenceArtifact : option EvidenceArtifact;
    jb_VerifyBackupID : string; jb_VerifyManifestID : string; jb_VerifyManifestIDs : list string;
    jb_VerifyLevel : string; jb_VerifyReport : option VerificationReport; jb_Hooks : JobHooks;
    jb_Status : string; jb_QueuedAt : Time; jb_StartedAt : Time; jb_EndedAt : Time; jb_Error : string }.

(** The job with the fields of its life cycle replaced. *)
Definition withLifecycle (j : Job) (agent status : string) (queuedAt startedAt endedAt : Time)
  (err : string) : Job :=
  mkJob (jb_ID j) (jb_Operation j) (jb_ScheduleID j) (jb_TargetID j) (jb_StorageID j) (jb_Type j)
    agent (jb_ParentBackupID j) (jb_RestoreBackupID j) (jb_RestoreManifestID j)
    (jb_RestoreManifestIDs j) (jb_RestoreTargetID j) (jb_RestoreAt j) (jb_RestoreDryRun j)
    (jb_RestoreReplaceExisting j) (jb_RestoreReport j) (jb_FailureEvidence j) (jb_EvidenceArtifact j)
    (jb_VerifyBackupID j) (jb_VerifyManifestID j) (jb_VerifyManifestIDs j) (jb_VerifyLevel j)
    (jb_VerifyReport j) (jb_Hooks j) status queuedAt startedAt endedAt err.

Definition JobStatusQueued : string := "queued".
Definition JobStatusRunning : string := "running".
Definition JobStatusFinalizing : string := "finalizing".
Definition JobStatusSucceeded : string := "succeeded".
Definition JobStatusFailed : string := "failed".
Definition JobStatusCanceled : string := "canceled".

(** ** The table of jobs *)

(** The keys a listing shows: those that do not sort before [firstKey]. *)
Definition listable (id : string) : Prop := String.ltb id firstKey = false.

Class JobTable (S : Type) := {
  table : S -> gmap string Job;
  tput : string -> Job -> M S unit;
  tget : string -> S -> outcome (option Job);
  tdelete : string -> M S unit;
  tscan : S -> outcome (list Job)
}.

Class JobTableLaws (S : Type) `{JobTable S} := {
  tput_table id j s : let '(r, s') := tput id j s in
    table s' = if is_ok r then <[id := j]> (table s) else table s;
  tget_table id s r : tget id s = Ok r -> r = table s !! id;
  tdelete_table id s : let '(r, s') := tdelete id s in
    table s' = if is_ok r then delete id (table s) else table s;
  tscan_table s l : tscan s = Ok l -> (forall id j, table s !! id = Some j -> listable id) ->
    l ≡ₚ (map_to_list (table s)).*2
}.

Section Store.
  Context {S : Type} `{JobTable S}.

Definition Save (job : Job) : M S unit :=
    if IDIsZero (jb_ID job) then merr "job id is required" else tput (jb_ID job) job.

Definition GetJob (id : string) : M S (option Job) :=
    if IDIsZero id then merr "job id is required" else fun s => (tget id s, s).

Definition DeleteJob (id : string) : M S unit :=
    if IDIsZero id then merr "job id is required" else tdelete id.

Definition jobBefore (a b : Job) : bool :=
    if jb_QueuedAt a =? jb_QueuedAt b then String.ltb (jb_ID a) (jb_ID b)
    else jb_QueuedAt a <? jb_QueuedAt b.

Definition ListJobs : M S (list Job) :=
    fun s => (jobs <~ tscan s ;; Ok (sort_by jobBefore jobs), s).

Definition activeJob (job : Job) : bool :=
    String.eqb (jb_Status job) JobStatusRunning || String.eqb (jb_Status job) JobStatusFinalizing.

Definition failed (now : Time) (reason : string) (job : Job) : Job :=
    withLifecycle job (jb_AgentID job) JobStatusFailed (jb_QueuedAt job) (jb_StartedAt job) now reason.

Fixpoint failActive_loop (now : Time) (reason : string) (jobs : list Job) (changed : Z) : M S Z :=
    match jobs with
    | [] => mret changed
    | job :: rest =>
        if negb (activeJob job) then failActive_loop now reason rest changed
        else _ <-- Save (failed now reason job) ;; failActive_loop now reason rest (changed + 1)
    end.

  (** [clock] is what time.Now().UTC() reads. *)
Definition FailActive (clock now : Time) (reason : string) : M S Z :=
    let now := if TimeIsZero now then clock else now in
    let reason := if String.eqb reason "" then "server_lost"%string else reason in
    jobs <-- ListJobs ;; failActive_loop now reason jobs 0.

  (** ** The orchestrator *)

Definition terminalJobStatus (status : string) : bool :=
    String.eqb status JobStatusSucceeded || String.eqb status JobStatusFailed
    || String.eqb status JobStatusCanceled.

Definition newJob (id : string) (clock : Time) (item : DueJob) : Job :=
    mkJob id "backup" (dj_ScheduleID item) (dj_TargetID item) (dj_StorageID item) (dj_Type item) ""
      (dj_ParentBackupID item) "" "" [] "" 0 false false None None None "" "" [] "" None
      (dj_Hooks item) JobStatusQueued
      (if TimeIsZero (dj_QueuedAt item) then clock else dj_QueuedAt item) 0 0 "".

  (** [ids] are the results of core.NewID, one per job. *)
Fixpoint EnqueueDue (clock : Time) (ids : list (outcome string)) (due : list DueJob) : M S (list Job) :=
    match due with
    | [] => mret []
    | item :: rest =>
        id <-- mlift (match ids with i :: _ => i | [] => Err "generate id entropy" end) ;;
        _ <-- Save (newJob id clock item) ;;
        jobs <-- EnqueueDue clock (tail ids) rest ;;
        mret (newJob id clock item :: jobs)
    end.

Definition StartOnAgent (clock : Time) (id agentID : string) : M S Job :=
    found <-- GetJob id ;;
    match found with
    | None => merr "start job: not found"
    | Some job =>
        if negb (String.eqb (jb_Status job) JobStatusQueued) then merr "want queued"
        else
          let job' := withLifecycle job agentID JobStatusRunning (jb_QueuedAt job) clock
                        (jb_EndedAt job) (jb_Error job) in
          _ <-- Save job' ;; mret job'
    end.

Definition Start (clock : Time) (id : string) : M S Job := StartOnAgent clock id "".

Definition Finish (clock : Time) (id status message : string) : M S Job :=
    if negb (terminalJobStatus status) then merr "status is not terminal"
    else
      found <-- GetJob id ;;
      match found with
      | None => merr "finish job: not found"
      | Some job =>
          if terminalJobStatus (jb_Status job) then merr "job is already terminal"
          else
            let job' := withLifecycle job (jb_AgentID job) status (jb_QueuedAt job) (jb_StartedAt job)
                          clock message in
            _ <-- Save job' ;; mret job'
      end.

Definition Retry (clock : Time) (id : string) : M S Job :=
    found <-- GetJob id ;;
    match found with
    | None => merr "retry job: not found"
    | Some job =>
        if negb (String.eqb (jb_Status job) JobStatusFailed)
           && negb (String.eqb (jb_Status job) JobStatusCanceled)
        then merr "want failed or canceled"
        else
          let job' := withLifecycle job "" JobStatusQueued clock 0 0 "" in
          _ <-- Save job' ;; mret job'
    end.
End Store.

(** ** Proofs *)

Section Lifecycle.
  Context {S : Type} `{JobTableLaws S}.

Definition keyed (s : S) : Prop := forall id j, table s !! id = Some j -> jb_ID j = id /\ listable id.

Lemma keyed_id (s : S) id j : keyed s -> table s !! id = Some j -> jb_ID j = id.
Proof. intros K L. now destruct (K id j L). Qed.

Definition allowed (from to : string) : Prop :=
  (from = JobStatusQueued /\ to = JobStatusRunning) \/
  (terminalJobStatus from = false /\ terminalJobStatus to = true) \/
  ((from = JobStatusFailed \/ from = JobStatusCanceled) /\ to = JobStatusQueued).

(** A change of a job: an allowed status change, with the payload kept. *)
Definition jmove (j j' : Job) : Prop :=
  exists a st q b e m, j' = withLifecycle j a st q b e m /\ allowed (jb_Status j) st.

(** The table after one write, or after a failed one. *)
Lemma Save_table job (s : S) r s' :
  Save job s = (r, s') ->
  table s' = if is_ok r then <[jb_ID job := job]> (table s) else table s.
Proof.
  unfold Save, merr. destruct (IDIsZero (jb_ID job)); [intros [= <- <-]; done|].
  intros E. pose proof (tput_table (jb_ID job) job s) as T. now rewrite E in T.
Qed.

Lemma keyed_insert (s s' : S) job :
  keyed s -> listable (jb_ID job) -> table s' = <[jb_ID job := job]> (table s) -> keyed s'.
Proof.
  intros K Lj E id j. rewrite E, lookup_insert_Some. intros [[<- <-]|[_ Hl]]; [done|now apply K].
Qed.

Lemma GetJob_table id (s s' : S) r :
  GetJob id s = (Ok r, s') -> s' = s /\ r = table s !! id.
Proof.
  unfold GetJob, merr. destruct (IDIsZero id); [done|]. intros [= E <-]. split; [done|].
  now apply tget_table.
Qed.

Lemma GetJob_state id (s : S) : (GetJob id s).2 = s.
Proof. unfold GetJob, merr. now destruct (IDIsZero id). Qed.

(** An operation that reads one job and writes a changed copy back. *)
(** The table keeps everything but job [id], which made an allowed move to a
    status in [R]. *)
Definition rewritten (R : string -> Prop) (id : string) (job : Job) (s s' : S) : Prop :=
  table s' = table s \/
  exists job', jmove job job' /\ R (jb_Status job') /\ table s' = <[id := job']> (table s).

Definition stepped (R : string -> Prop) (id : string) (s s' : S) : Prop :=
  table s' = table s \/
  exists job job', table s !! id = Some job /\ jmove job job' /\ R (jb_Status job') /\
    table s' = <[id := job']> (table s).

Lemma read_write_step R id (s : S) (k : Job -> M S Job) (none : string) r s' :
  keyed s ->
  mbind (GetJob id) (fun found => match found with None => merr none | Some job => k job end) s = (r, s') ->
  (forall job r s', table s !! id = Some job -> k job s = (r, s') -> rewritten R id job s s') ->
  stepped R id s s'.
Proof.
  intros K E Hk. unfold mbind in E. pose proof (GetJob_state id s) as G.
  destruct (GetJob id s) as [[found|e|e|] s1] eqn:EG; simpl in G; subst s1;
    try (injection E as <- <-; now left).
  apply GetJob_table in EG as [_ ->]. destruct (table s !! id) as [job|] eqn:L.
  - destruct (Hk job r s' eq_refl E) as [?|(job' & M1 & M2 & M3)]; [now left|right].
    now exists job, job'.
  - injection E as <- <-. now left.
Qed.

Lemma save_back (R : string -> Prop) id job job' (s : S) r s' :
  keyed s -> table s !! id = Some job -> jmove job job' -> R (jb_Status job') ->
  mbind (Save job') (fun _ => mret job') s = (r, s') -> rewritten R id job s s'.
Proof.
  intros K L Hm HR E. unfold rewritten, mbind in *. destruct (Save job' s) as [[u|e|e|] s1] eqn:ES;
    apply Save_table in ES; simpl in ES; injection E as <- <-; auto.
  right. exists job'. split; [done|]. split; [done|]. rewrite ES. f_equal.
  destruct Hm as (a & st & q & b & e & m & -> & _). simpl. now apply (keyed_id s).
Qed.

Lemma start_step clock id agent (s : S) r s' :
  keyed s -> StartOnAgent clock id agent s = (r, s') ->
  stepped (fun st => st = JobStatusRunning) id s s'.
Proof.
  intros K E. apply (read_write_step _ id s _ _ _ _ K E). clear E. intros job r' s2 L E.
  destruct (negb _) eqn:N; [injection E as <- <-; now left|].
  apply negb_false_iff, String.eqb_eq in N. eapply save_back; [done|done| | |exact E]; [|simpl; auto].
  repeat eexists. left. auto.
Qed.

Lemma finish_step clock id status msg (s : S) r s' :
  keyed s -> Finish clock id status msg s = (r, s') ->
  stepped (fun st => terminalJobStatus st = true) id s s'.
Proof.
  intros K. unfold Finish. destruct (negb (terminalJobStatus status)) eqn:T.
  { intros [= <- <-]. now left. }
  apply negb_false_iff in T. intros E.
  apply (read_write_step _ id s _ _ _ _ K E). clear E. intros job r' s2 L E.
  destruct (terminalJobStatus (jb_Status job)) eqn:N; [injection E as <- <-; now left|].
  eapply save_back; [done|done| | |exact E]; [|simpl; auto]. repeat eexists. right; left. auto.
Qed.

Lemma retry_step clock id (s : S) r s' :
  keyed s -> Retry clock id s = (r, s') ->
  stepped (fun st => st = JobStatusQueued) id s s'.
Proof.
  intros K E. apply (read_write_step _ id s _ _ _ _ K E). clear E. intros job r' s2 L E.
  destruct (negb _ && negb _) eqn:N; [injection E as <- <-; now left|].
  eapply save_back; [done|done| | |exact E]; [|simpl; auto]. repeat eexists. right; right. split; [|done].
  apply andb_false_iff in N as [N|N]; apply negb_false_iff, String.eqb_eq in N; auto.
Qed.

(** *** Recovery after a server loss *)

(** The loop over a snapshot of the table: each job is unchanged or failed,
    and when the loop succeeds exactly the active ones are failed. *)
Lemma failActive_loop_spec now reason jobs n (s : S) r s' :
  NoDup (map jb_ID jobs) -> Forall (fun j => table s !! jb_ID j = Some j) jobs ->
  failActive_loop now reason jobs n s = (r, s') ->
  (forall id, table s' !! id = table s !! id \/
     exists j, In j jobs /\ activeJob j = true /\ jb_ID j = id /\ table s' !! id = Some (failed now reason j)) /\
  (forall k, r = Ok k -> k = n + zlen (List.filter activeJob jobs) /\
     forall j, In j jobs -> activeJob j = true -> table s' !! jb_ID j = Some (failed now reason j)).
Proof.
  revert n s. induction jobs as [|job jobs IH]; intros n s Hnd Hin; cbn [failActive_loop].
  { intros [= <- <-]. split; [auto|]. intros k [= <-]. simpl. rewrite zlen_nil. split; [lia|done]. }
  apply NoDup_cons in Hnd as [Hni Hnd]. apply Forall_cons in Hin as [Hj Hin].
  destruct (activeJob job) eqn:A; cbn [negb List.filter]; rewrite A.
  - unfold mbind. destruct (Save _ s) as [[[]|e|e|] s1] eqn:ES; apply Save_table in ES; simpl in ES.
    2-4: intros [= <- <-]; rewrite ES; split; [auto|done].
    intros E. assert (Hin' : Forall (fun j => table s1 !! jb_ID j = Some j) jobs).
    { rewrite Forall_forall in *. intros j Hjn. rewrite ES, lookup_insert_ne; [auto|].
      intros Eq. apply Hni. rewrite Eq. apply list_elem_of_In, in_map, list_elem_of_In, Hjn. }
    destruct (IH _ _ Hnd Hin' E) as [I1 I2]. clear IH.
    assert (Hs : table s' !! jb_ID job = Some (failed now reason job)).
    { destruct (I1 (jb_ID job)) as [Eq|(j & Hjn & _ & Eq & _)].
      - rewrite Eq, ES. apply lookup_insert_eq.
      - exfalso. apply Hni. rewrite <- Eq. now apply list_elem_of_In, in_map. }
    split.
    + intros id. destruct (decide (id = jb_ID job)) as [->|Hne].
      * right. exists job. repeat split; auto. now left.
      * destruct (I1 id) as [Eq|(j & Hjn & Ha & Eq & Hf)].
        -- left. rewrite Eq, ES. now rewrite lookup_insert_ne by auto.
        -- right. exists j. repeat split; auto. now right.
    + intros k Hk. destruct (I2 k Hk) as [-> I3]. split; [rewrite zlen_cons; lia|].
      intros j [<-|Hjn]; auto.
  - intros E. destruct (IH _ _ Hnd Hin E) as [I1 I2]. split.
    + intros id. destruct (I1 id) as [Eq|(j & Hjn & Ha)]; [now left|].
      right. exists j. split; [now right|done].
    + intros k Hk. destruct (I2 k Hk) as [-> I3]. split; [done|].
      intros j [<-|Hjn] Ha; [congruence|auto].
Qed.

Lemma snapshot_ok (s : S) l :
  keyed s -> tscan s = Ok l ->
  NoDup (map jb_ID (sort_by jobBefore l)) /\
  Forall (fun j => table s !! jb_ID j = Some j) (sort_by jobBefore l) /\
  (forall id j, table s !! id = Some j -> In j (sort_by jobBefore l)).
Proof.
  intros K E. apply tscan_table in E; [|intros id j L; now destruct (K id j L)].
  assert (P : sort_by jobBefore l ≡ₚ (map_to_list (table s)).*2) by now rewrite sort_by_perm.
  assert (KK : forall x, x ∈ map_to_list (table s) -> jb_ID x.2 = x.1).
  { intros [id j] Hx. apply elem_of_map_to_list in Hx. simpl. now apply (keyed_id s). }
  split; [|split].
  - change (NoDup (jb_ID <$> sort_by jobBefore l)). rewrite P, <- list_fmap_compose.
    rewrite (list_fmap_ext _ fst); [apply NoDup_fst_map_to_list|].
    intros i x Hx. simpl. apply KK. now apply list_elem_of_lookup_2 in Hx.
  - apply Forall_forall. intros j Hj. rewrite P in Hj. apply list_elem_of_fmap in Hj as ([id j'] & -> & Hx).
    simpl. pose proof (KK _ Hx) as Eq. simpl in Eq. rewrite Eq. now apply elem_of_map_to_list.
  - intros id j Hj. apply list_elem_of_In. rewrite P. apply list_elem_of_fmap. exists (id, j).
    split; [done|]. now apply elem_of_map_to_list.
Qed.

(** The recovered table. *)
Lemma FailActive_spec clock now reason (s : S) r s' :
  keyed s -> FailActive clock now reason s = (r, s') ->
  let now' := if TimeIsZero now then clock else now in
  let reason' := if String.eqb reason "" then "server_lost"%string else reason in
  (forall id, table s' !! id = table s !! id \/
     exists j, table s !! id = Some j /\ activeJob j = true /\ table s' !! id = Some (failed now' reason' j)) /\
  (forall k, r = Ok k -> forall id j, table s !! id = Some j ->
     table s' !! id = Some (if activeJob j then failed now' reason' j else j)).
Proof.
  intros K. unfold FailActive.
  set (now' := if TimeIsZero now then clock else now).
  set (reason' := if String.eqb reason "" then "server_lost"%string else reason).
  intros E. unfold mbind, ListJobs in E.
  destruct (tscan s) as [l|e|e|] eqn:T; simpl in E; try (injection E as <- <-; split; [auto|done]).
  destruct (snapshot_ok s l K T) as (N1 & N2 & N3).
  destruct (failActive_loop_spec _ _ _ _ _ _ _ N1 N2 E) as [L1 L2]. rewrite Forall_forall in N2.
  split.
  - intros id. destruct (L1 id) as [?|(j & Hj & Ha & <- & Hf)]; [now left|right].
    exists j. repeat split; auto. apply N2. now apply list_elem_of_In.
  - intros k Hk id j Hj. destruct (L2 k Hk) as [_ L3]. pose proof (N3 _ _ Hj) as Hin.
    pose proof (keyed_id _ _ _ K Hj) as Eq. destruct (activeJob j) eqn:A.
    + rewrite <- Eq. auto.
    + destruct (L1 id) as [->|(j' & Hj' & Ha & Eq' & _)]; [done|].
      apply list_elem_of_In, N2 in Hj'. congruence.
Qed.

(** *** Enqueueing *)

Lemma EnqueueDue_table clock ids due (s : S) r s' :
  EnqueueDue clock ids due s = (r, s') -> (forall id, In (Ok id) ids -> listable id) ->
  (keyed s -> keyed s') /\
  forall id, ~ In (Ok id) ids -> table s' !! id = table s !! id.
Proof.
  revert ids s r s'. induction due as [|item due IH]; intros ids s r s'; cbn [EnqueueDue].
  { intros [= <- <-] _. auto. }
  intros E Li. unfold mbind, mlift in E. destruct ids as [|i ids]; [injection E as <- <-; auto|].
  destruct i as [new|e|e|]; try (injection E as <- <-; auto; fail).
  cbn [tail] in E. destruct (Save _ s) as [[[]|e|e|] s1] eqn:ES; apply Save_table in ES; simpl in ES.
  2-4: injection E as <- <-; unfold keyed; rewrite ES; auto.
  destruct (EnqueueDue clock ids due s1) as [rr s2] eqn:EE. apply IH in EE as [E1 E2]; [|intros id Hin; apply Li; now right].
  assert (s' = s2) as -> by (destruct rr; now injection E). split.
  - intros K. apply E1. eapply keyed_insert; [exact K| |exact ES]. apply Li. now left.
  - intros id Hn. rewrite E2 by (intros Hin; apply Hn; now right).
    rewrite ES, lookup_insert_ne; [done|]. intros <-. apply Hn. now left.
Qed.

(** ** Sequences of operations *)

Inductive jop : Type :=
| JEnqueue (clock : Time) (ids : list (outcome string)) (due : list DueJob)
| JStart (clock : Time) (id agent : string)
| JFinish (clock : Time) (id status msg : string)
| JRetry (clock : Time) (id : string)
| JFailActive (clock now : Time) (reason : string).

(** The store after an operation, successful or not. *)
Definition jstep (op : jop) (s : S) : S :=
  match op with
  | JEnqueue clock ids due => (EnqueueDue clock ids due s).2
  | JStart clock id agent => (StartOnAgent clock id agent s).2
  | JFinish clock id status msg => (Finish clock id status msg s).2
  | JRetry clock id => (Retry clock id s).2
  | JFailActive clock now reason => (FailActive clock now reason s).2
  end.

(** Fresh identifiers are listed, and not those of stored jobs. *)
Definition fresh_op (op : jop) (s : S) : Prop :=
  match op with
  | JEnqueue _ ids _ => forall id, In (Ok id) ids -> listable id /\ table s !! id = None
  | _ => True
  end.

Inductive jruns : S -> list jop -> S -> Prop :=
| jruns_nil s : jruns s [] s
| jruns_cons s op ops s' : fresh_op op s -> jruns (jstep op s) ops s' -> jruns s (op :: ops) s'.

Lemma one_job_step R (s s' : S) id0 :
  keyed s -> stepped R id0 s s' ->
  keyed s' /\ forall id j, table s !! id = Some j ->
    exists j', table s' !! id = Some j' /\ (j' = j \/ (id = id0 /\ jmove j j' /\ R (jb_Status j'))).
Proof.
  intros K [E|(job & job' & L & Hm & HR & E)]; unfold keyed; rewrite E.
  - split; [done|]. intros id j Hj. eauto.
  - assert (Hid : jb_ID job' = id0).
    { destruct Hm as (a & st & q & b & e & m & -> & _). simpl. now apply (keyed_id s). }
    split.
    + intros id j. rewrite lookup_insert_Some. intros [[<- <-]|[_ Hl]]; [|now apply K].
      now destruct (K _ _ L).
    + intros id j Hj. destruct (decide (id = id0)) as [->|Hne].
      * exists job'. rewrite lookup_insert_eq. split; [done|]. right. rewrite Hj in L. now injection L as ->.
      * exists j. rewrite lookup_insert_ne by auto. auto.
Qed.

Lemma jstep_moves op (s : S) :
  keyed s -> fresh_op op s ->
  keyed (jstep op s) /\
  forall id j, table s !! id = Some j ->
    exists j', table (jstep op s) !! id = Some j' /\ (j' = j \/ jmove j j').
Proof.
  intros K F.
  assert (W : forall R s' id0, stepped R id0 s s' ->
    keyed s' /\ forall id j, table s !! id = Some j ->
      exists j', table s' !! id = Some j' /\ (j' = j \/ jmove j j')).
  { intros R s' id0 Hs. destruct (one_job_step R s s' id0 K Hs) as [K' M'].
    split; [done|]. intros id j Hj. destruct (M' id j Hj) as (j' & ? & [?|(_ & ? & _)]); eauto. }
  destruct op as [clock ids due|clock id agent|clock id status msg|clock id|clock now reason]; simpl.
  - destruct (EnqueueDue clock ids due s) as [r s'] eqn:E. apply EnqueueDue_table in E as [E1 E2]; [|apply F].
    split; [auto|]. intros id j Hj. exists j. simpl. split; [|auto]. rewrite E2; [done|].
    intros Hin. apply F in Hin as [_ Hin]. congruence.
  - destruct (StartOnAgent clock id agent s) as [r s'] eqn:E. eapply W, start_step; eauto.
  - destruct (Finish clock id status msg s) as [r s'] eqn:E. eapply W, finish_step; eauto.
  - destruct (Retry clock id s) as [r s'] eqn:E. eapply W, retry_step; eauto.
  - destruct (FailActive clock now reason s) as [r s'] eqn:E.
    destruct (FailActive_spec _ _ _ _ _ _ K E) as [L _]. simpl. split.
    + intros id j Hj. destruct (L id) as [Eq|(j0 & Hj0 & _ & Eq)]; rewrite Eq in Hj; [now apply K|].
      injection Hj as <-. simpl. now apply K.
    + intros id j Hj. destruct (L id) as [Eq|(j0 & Hj0 & Ha & Eq)]; rewrite Eq.
      * eauto.
      * rewrite Hj in Hj0. injection Hj0 as <-. eexists. split; [done|]. right. repeat eexists.
        right; left. split; [|done]. unfold activeJob in Ha.
        apply orb_true_iff in Ha as [Ha|Ha]; apply String.eqb_eq in Ha; now rewrite Ha.
Qed.

Lemma jruns_ind_keyed (P : S -> Prop) (s : S) ops s' :
  (forall op s, keyed s -> fresh_op op s -> P s -> P (jstep op s)) ->
  keyed s -> P s -> jruns s ops s' -> keyed s' /\ P s'.
Proof.
  intros Hstep K HP R. induction R as [s|s op ops s' F R IH]; [done|].
  apply IH; [now apply jstep_moves|now apply Hstep].
Qed.

(** Only a retry of the job puts it back into the queue. *)
Lemma jstep_not_requeued op (s : S) id j :
  keyed s -> fresh_op op s -> (forall clock, op <> JRetry clock id) ->
  table s !! id = Some j -> jb_Status j <> JobStatusQueued ->
  exists j', table (jstep op s) !! id = Some j' /\ jb_Status j' <> JobStatusQueued.
Proof.
  intros K F Hop Hj Hq.
  assert (W : forall R s' id0, stepped R id0 s s' -> (id = id0 -> forall st, R st -> st <> JobStatusQueued) ->
    exists j', table s' !! id = Some j' /\ jb_Status j' <> JobStatusQueued).
  { intros R s' id0 Hs HR. destruct (one_job_step R s s' id0 K Hs) as [_ M'].
    destruct (M' id j Hj) as (j' & ? & [->|(E & _ & ?)]); eauto. }
  destruct op as [clock ids due|clock id0 agent|clock id0 status msg|clock id0|clock now reason]; simpl.
  - destruct (EnqueueDue clock ids due s) as [r s'] eqn:E. apply EnqueueDue_table in E as [_ E2]; [|apply F].
    exists j. simpl. split; [|done]. rewrite E2; [done|]. intros Hin. apply F in Hin as [_ Hin]. congruence.
  - destruct (StartOnAgent clock id0 agent s) as [r s'] eqn:E.
    apply (W _ _ _ (start_step _ _ _ _ _ _ K E)). by intros _ st ->.
  - destruct (Finish clock id0 status msg s) as [r s'] eqn:E.
    apply (W _ _ _ (finish_step _ _ _ _ _ _ _ K E)). intros _ st Hst ->. done.
  - destruct (Retry clock id0 s) as [r s'] eqn:E.
    apply (W _ _ _ (retry_step _ _ _ _ _ K E)). intros <-. now destruct (Hop clock).
  - destruct (FailActive clock now reason s) as [r s'] eqn:E.
    destruct (FailActive_spec _ _ _ _ _ _ K E) as [L _]. simpl.
    destruct (L id) as [Eq|(j0 & _ & _ & Eq)]; rewrite Eq; eauto.
Qed.

(** C9: under any sequence of orchestrator operations and recoveries,
    including failed ones, a stored job stays stored with its payload, its
    status moves only along the life cycle (queued, running, a terminal
    status, and back to queued from failed or canceled), and a succeeded job
    never changes again. *)
Theorem job_lifecycle (s : S) ops s' id j :
  keyed s -> jruns s ops s' -> table s !! id = Some j ->
  exists a st q b e m,
    table s' !! id = Some (withLifecycle j a st q b e m) /\ rtc allowed (jb_Status j) st /\
    (jb_Status j = JobStatusSucceeded -> table s' !! id = Some j).
Proof.
  intros K R Hj.
  apply (jruns_ind_keyed (fun s' => exists a st q b e m,
    table s' !! id = Some (withLifecycle j a st q b e m) /\ rtc allowed (jb_Status j) st /\
    (jb_Status j = JobStatusSucceeded -> table s' !! id = Some j)) s ops s'); [|done| |done].
  - intros op s1 K1 F (a & st & q & b & e & m & H1 & H2 & H3).
    destruct (jstep_moves op s1 K1 F) as [_ Hm].
    destruct (Hm _ _ H1) as (j' & Hj' & [->|(a' & st' & q' & b' & e' & m' & -> & Hal)]).
    + exists a, st, q, b, e, m. repeat split; auto. intros Hs. rewrite Hj', <- H1. auto.
    + exists a', st', q', b', e', m'. split; [done|]. split; [eapply rtc_r; eauto|].
      intros Hs. rewrite H1 in H3. specialize (H3 Hs). injection H3 as H3. rewrite H3 in Hal.
      rewrite Hs in Hal. destruct Hal as [[? _]|[[? _]|[[?|?] _]]]; discriminate.
  - exists (jb_AgentID j), (jb_Status j), (jb_QueuedAt j), (jb_StartedAt j), (jb_EndedAt j), (jb_Error j).
    split; [now destruct j|]. split; [apply rtc_refl|done].
Qed.

(** Once an agent has claimed a job, a second claim fails and changes
    nothing, whatever operations come in between, unless the job is put back
    into the queue by a retry. *)
Theorem claim_is_exclusive (s : S) c1 id a1 j s1 ops s2 c2 a2 r s3 :
  keyed s -> StartOnAgent c1 id a1 s = (Ok j, s1) ->
  jruns s1 ops s2 -> (forall c, ~ In (JRetry c id) ops) ->
  StartOnAgent c2 id a2 s2 = (r, s3) -> is_ok r = false /\ s3 = s2.
Proof.
  intros K E R Hno E2.
  assert (B1 : keyed s1 /\ exists j1, table s1 !! id = Some j1 /\ jb_Status j1 <> JobStatusQueued).
  { pose proof (start_step _ _ _ _ _ _ K E) as St. apply (one_job_step _ _ _ _ K) in St as [K1 _].
    split; [done|]. unfold StartOnAgent in E. apply mbind_ok in E as (f & s0 & G & E).
    apply GetJob_table in G as [-> ->]. destruct (table s !! id) as [job|] eqn:L; [|done].
    destruct (negb _); [done|]. apply mbind_ok in E as (u & s4 & Sv & E). injection E as _ <-.
    apply Save_table in Sv. simpl in Sv. rewrite (keyed_id _ _ _ K L) in Sv. eexists. rewrite Sv, lookup_insert_eq.
    split; [done|]. discriminate. }
  assert (B2 : keyed s2 /\ exists j2, table s2 !! id = Some j2 /\ jb_Status j2 <> JobStatusQueued).
  { clear E E2 K. revert B1 Hno. induction R as [|s4 op ops s5 F R IH]; [done|].
    intros (K1 & j1 & Hj1 & Hq) Hno. apply IH; [|intros c Hin; apply (Hno c); now right].
    split; [now apply jstep_moves|]. apply jstep_not_requeued with j1; auto.
    intros c ->. apply (Hno c). now left. }
  destruct B2 as (_ & j2 & Hj2 & Hq2). unfold StartOnAgent, mbind in E2.
  pose proof (GetJob_state id s2) as G. destruct (GetJob id s2) as [[f|e|e|] s4] eqn:EG; simpl in G; subst s4;
    try (now injection E2 as <- <-).
  apply GetJob_table in EG as [_ ->]. rewrite Hj2 in E2. apply String.eqb_neq in Hq2. rewrite Hq2 in E2.
  now injection E2 as <- <-.
Qed.

(** When the recovery after a server loss succeeds, no stored job is
    running or finalizing any more, the jobs that were are failed with the
    reason, and every other job is as it was. *)
Theorem recovery_fails_exactly_active clock now reason (s : S) n s' :
  keyed s -> FailActive clock now reason s = (Ok n, s') ->
  let now' := if TimeIsZero now then clock else now in
  let reason' := if String.eqb reason "" then "server_lost"%string else reason in
  (forall id j, table s' !! id = Some j -> activeJob j = false) /\
  (forall id j, table s !! id = Some j ->
     table s' !! id = Some (if activeJob j then failed now' reason' j else j)).
Proof.
  intros K E now' reason'. destruct (FailActive_spec _ _ _ _ _ _ K E) as [L1 L2].
  specialize (L2 n eq_refl). split; [|exact L2].
  intros id j Hj. destruct (table s !! id) as [j0|] eqn:L.
  - rewrite (L2 _ _ L) in Hj. destruct (activeJob j0) eqn:A; injection Hj as <-; [done|congruence].
  - destruct (L1 id) as [Eq|(j0 & Hj0 & _)]; congruence.
Qed.
End Lifecycle.

(** ** The table in the embedded database *)

Definition jobsBucket : string := "jobs".

#[export] Instance kvJobTable {S} `{KV S} `{Codec Job} : JobTable S := {
  table := docs Job jobsBucket;
  tput id j := match encode j with None => merr "marshal" | Some data => kput jobsBucket id data end;
  tget id s := found <~ kget jobsBucket id s ;;
               match found with
               | None => Ok None
               | Some data => match decode data with Some j => Ok (Some j) | None => Err "unmarshal" end
               end;
  tdelete id := kdelete jobsBucket id;
  tscan s := listJSON jobsBucket unmarshal s
}.

(** What the other stores of the database may assume of the job store: it
    touches its own bucket only. *)
Lemma tput_frame {S} `{KVLaws S} `{Codec Job} id j (s : S) b :
  b <> jobsBucket -> bucket b (tput id j s).2 = bucket b s.
Proof.
  intros Hb. simpl. destruct (encode j) as [d|]; [|done].
  destruct (is_ok (kput jobsBucket id d s).1) eqn:R.
  - rewrite (kput_ok _ _ _ _ R). apply String.eqb_neq in Hb. now rewrite Hb.
  - apply kput_fail, R.
Qed.

Section Frame.
  Context {S : Type} `{KVLaws S} `{Codec Job}.

Lemma Save_agree job (s : S) r s' : Save job s = (r, s') -> agree [jobsBucket] s s'.
Proof.
  unfold Save, merr. destruct (IDIsZero _); [intros [= _ <-]; done|].
  intros E b Hb. pose proof (tput_frame (jb_ID job) job s b) as F. rewrite E in F. apply F. intros ->. apply Hb. now left.
Qed.

Lemma EnqueueDue_agree clock ids due (s : S) r s' : EnqueueDue clock ids due s = (r, s') -> agree [jobsBucket] s s'.
Proof.
  revert ids s r s'. induction due as [|item due IH]; intros ids s r s'; cbn [EnqueueDue]; [intros [= _ <-]; done|].
  unfold mbind, mlift. destruct ids as [|[id|e|e|] ids]; try (intros [= _ <-]; done).
  cbn [tail]. destruct (Save _ s) as [[[]|e|e|] s1] eqn:E1; apply Save_agree in E1; try (intros [= _ <-]; done).
  destruct (EnqueueDue clock ids due s1) as [rr s2] eqn:E2. apply IH in E2.
  intros E. assert (s' = s2) as -> by (destruct rr; now injection E). now apply (agree_trans _ _ s1).
Qed.
End Frame.

#[export] Instance kvJobTableLaws {S} `{KVLaws S} `{CodecLaws Job} : JobTableLaws S.
Proof.
  split; simpl.
  - intros id j s. destruct (encode j) as [d|] eqn:E; [|done].
    destruct (kput jobsBucket id d s) as [r s'] eqn:P.
    pose proof (kput_ok jobsBucket id d s) as K. pose proof (kput_fail jobsBucket id d s) as F.
    rewrite P in K, F. simpl in K, F. destruct (is_ok r).
    + apply (docs_put _ _ j _ _ _ E). now apply K.
    + now apply docs_unchanged, F.
  - intros id s r E. apply obind_ok in E as (found & G & E). apply kget_bucket in G. subst found. unfold docs.
    rewrite lookup_omap. destruct (bucket jobsBucket s !! id) as [d|]; simpl; [|congruence].
    destruct (decode d); congruence.
  - intros id s. destruct (kdelete jobsBucket id s) as [r s'] eqn:P.
    pose proof (kdelete_ok jobsBucket id s) as K. pose proof (kdelete_fail jobsBucket id s) as F.
    rewrite P in K, F. simpl in K, F. destruct (is_ok r).
    + unfold docs. rewrite (changed_self _ _ _ _ (K eq_refl)). apply omap_delete.
    + now apply docs_unchanged, F.
  - intros s l E L. apply listJSON_docs in E. rewrite E. apply reflexive_eq. do 2 f_equal.
    apply map_filter_id. intros id j Hj. now apply (L id j).
Qed.

(** ** An instance: a table in memory that accepts a bounded number of
    writes *)

Record memTable := mkMem { mt_jobs : gmap string Job; mt_writesLeft : nat }.

#[export] Instance memJobTable : JobTable memTable := {
  table := mt_jobs;
  tput id j s := match mt_writesLeft s with
                 | O => (Err "disk full", s)
                 | S n => (Ok tt, mkMem (<[id := j]> (mt_jobs s)) n)
                 end;
  tget id s := Ok (mt_jobs s !! id);
  tdelete id s := match mt_writesLeft s with
                  | O => (Err "disk full", s)
                  | S n => (Ok tt, mkMem (delete id (mt_jobs s)) n)
                  end;
  tscan s := Ok (map_to_list (mt_jobs s)).*2
}.

#[export] Instance memJobTableLaws : JobTableLaws memTable.
Proof.
  split; simpl.
  - intros id j s. now destruct (mt_writesLeft s).
  - intros id s r H. congruence.
  - intros id s. now destruct (mt_writesLeft s).
  - intros s l H. now injection H as <-.
Qed.

Definition demoJob (id status : string) : Job :=
  withLifecycle (newJob id 7 (dueJob demoSchedule 5 5)) "" status 5 0 0 "".

Definition demoTable : memTable :=
  mkMem (<["j1"%string := demoJob "j1" "queued"]> (<["j2"%string := demoJob "j2" "running"]> ∅)) 9.

Lemma demo_keyed : keyed demoTable.
Proof.
  intros id j. unfold demoTable. simpl. rewrite !lookup_insert_Some, lookup_empty.
  intros [[<- <-]|[_ [[<- <-]|[_ ?]]]]; done.
Qed.

Lemma job_lifecycle_witness :
  exists a st q b e m,
    table (jstep (JFinish 9 "j1" "succeeded" "") (jstep (JStart 8 "j1" "agent") demoTable)) !! "j1"%string
      = Some (withLifecycle (demoJob "j1" "queued") a st q b e m) /\
    rtc allowed (jb_Status (demoJob "j1" "queued")) st.
Proof.
  assert (R : jruns demoTable [JStart 8 "j1" "agent"; JFinish 9 "j1" "succeeded" ""]
    (jstep (JFinish 9 "j1" "succeeded" "") (jstep (JStart 8 "j1" "agent") demoTable)))
    by (repeat constructor).
  destruct (job_lifecycle demoTable _ _ "j1" (demoJob "j1" "queued") demo_keyed R eq_refl)
    as (a & st & q & b & e & m & H1 & H2 & _).
  exists a, st, q, b, e, m. split; [exact H1|exact H2].
Defined.

Lemma claim_is_exclusive_witness :
  is_ok (StartOnAgent 10 "j1" "second" (jstep (JFailActive 9 9 "") (jstep (JStart 8 "j1" "first") demoTable))).1 = false.
Proof.
  refine (proj1 (claim_is_exclusive demoTable 8 "j1" "first" _ (jstep (JStart 8 "j1" "first") demoTable)
    [JFailActive 9 9 ""] _ 10 "second" _ _ demo_keyed _ _ _ _)).
  - vm_compute. reflexivity.
  - repeat constructor.
  - intros c [E|[]]. discriminate E.
  - apply surjective_pairing.
Defined.

Lemma recovery_fails_exactly_active_witness :
  table (FailActive 9 9 "" demoTable).2 !! "j2"%string = Some (failed 9 "server_lost" (demoJob "j2" "running")).
Proof.
  destruct (recovery_fails_exactly_active 9 9 "" demoTable 1 (FailActive 9 9 "" demoTable).2 demo_keyed) as [_ H].
  - vm_compute. reflexivity.
  - exact (H "j2"%string (demoJob "j2" "running") eq_refl).
Defined.
