(* ===== verification/AuditLog.v ===== *)
(** * The audit log

    Models src/internal/audit/log.go. The log keeps two buckets of the
    embedded database, given here by their contents as sorted lists of
    key/value pairs (what the store promises about a bucket); a transaction
    that fails leaves both as they were. encoding/json, BLAKE3 and the
    failures of bucket writes are parameters.

    The theorems show that a log built by [Append] lists its events in order
    and verifies, that two verifying logs with the same last hash hold the
    same events unless BLAKE3 collides, and that [Verify] accepts a log whose
    newest events were removed. *)

From Stdlib Require Import String.
From S2P Require Import Prelude KvNode KvMap ChunkHash Core GoStrings.
Local Open Scope Z_scope.

Record AuditEvent := mkEvent
  { ae_Seq : Z; ae_ID : string; ae_ActorID : string; ae_Action : string; ae_ResourceType : string;
    ae_ResourceID : string; ae_Metadata : gmap string any; ae_OccurredAt : Time;
    ae_PrevHash : bytes; ae_Hash : bytes }.

Definition withHash (e : AuditEvent) (h : bytes) : AuditEvent :=
  mkEvent (ae_Seq e) (ae_ID e) (ae_ActorID e) (ae_Action e) (ae_ResourceType e) (ae_ResourceID e)
    (ae_Metadata e) (ae_OccurredAt e) (ae_PrevHash e) h.

Definition withIdentity (e : AuditEvent) (id : string) (occurredAt : Time) : AuditEvent :=
  mkEvent (ae_Seq e) id (ae_ActorID e) (ae_Action e) (ae_ResourceType e) (ae_ResourceID e)
    (ae_Metadata e) occurredAt (ae_PrevHash e) (ae_Hash e).

Definition withLink (e : AuditEvent) (seq : Z) (prev : bytes) : AuditEvent :=
  mkEvent seq (ae_ID e) (ae_ActorID e) (ae_Action e) (ae_ResourceType e) (ae_ResourceID e)
    (ae_Metadata e) (ae_OccurredAt e) prev (ae_Hash e).

Record auditDB := mkAuditDB { adb_events : kvs; adb_meta : kvs }.

Definition seqKey : bytes := [Byte.x6c; Byte.x61; Byte.x73; Byte.x74; Byte.x5f; Byte.x73; Byte.x65; Byte.x71].
Definition hashKey : bytes :=
  [Byte.x6c; Byte.x61; Byte.x73; Byte.x74; Byte.x5f; Byte.x68; Byte.x61; Byte.x73; Byte.x68].

Definition seqBytes (seq : Z) : bytes := be_encode 8 seq.

(** [%020d]: an unsigned 64-bit integer has at most twenty digits. *)
Definition seqKeyBytes (seq : Z) : bytes := decimal 20 seq.

Definition readSeq (meta : kvs) : outcome Z :=
  match kv_lookup seqKey meta with
  | None => Ok 0
  | Some data => if negb (Nat.eqb (length data) 8) then Err "invalid audit sequence metadata"
                 else Ok (be_decode data)
  end.

Definition readHash (meta : kvs) : bytes := default [] (kv_lookup hashKey meta).

Section Log.
  Context (marshal : AuditEvent -> option bytes) (unmarshal : bytes -> option AuditEvent)
          (sum256 : bytes -> bytes) (putErr : kvs -> bytes -> bytes -> bool).

Definition hashEvent (e : AuditEvent) : outcome bytes :=
  match marshal (withHash e []) with
  | Some data => Ok (hexEncode (sum256 data))
  | None => Err "json: marshal"
  end.

Definition bucketPut (k v : bytes) (b : kvs) : outcome kvs :=
  if putErr b k v then Err "put" else Ok (kv_insert k v b).

(** The transaction of [Append]. *)
Definition appendTx (e : AuditEvent) (db : auditDB) : outcome (AuditEvent * auditDB) :=
  lastSeq <~ readSeq (adb_meta db) ;;
  let e := withLink e (u64 (lastSeq + 1)) (readHash (adb_meta db)) in
  hash <~ hashEvent e ;;
  let e := withHash e hash in
  match marshal e with
  | None => Err "json: marshal"
  | Some data =>
      events <~ bucketPut (seqKeyBytes (ae_Seq e)) data (adb_events db) ;;
      meta <~ bucketPut seqKey (seqBytes (ae_Seq e)) (adb_meta db) ;;
      meta <~ bucketPut hashKey (ae_Hash e) meta ;;
      Ok (e, mkAuditDB events meta)
  end.

(** [clock] and [newID] are what the log's clock and core.NewID return. *)
Definition Append (clock : Time) (newID : outcome string) (e : AuditEvent) : M auditDB AuditEvent :=
  if String.eqb (ae_Action e) "" then merr "audit action is required"
  else if String.eqb (ae_ResourceType e) "" then merr "audit resource type is required"
  else
    let now := if TimeIsZero (ae_OccurredAt e) then clock else ae_OccurredAt e in
    id <-- mlift (if IDIsZero (ae_ID e) then newID else Ok (ae_ID e)) ;;
    fun db =>
      match appendTx (withIdentity e id now) db with
      | Ok (e', db') => (Ok e', db')
      | Err msg => (Err msg, db)
      | Panic msg => (Panic msg, db)
      | Fuel => (Fuel, db)
      end.

(** The scan from key [0x01] on; [limit <= 0] is no limit. *)
Fixpoint list_loop (limit : Z) (rows : kvs) (events : list AuditEvent) : outcome (list AuditEvent) :=
  match rows with
  | [] => Ok events
  | (_, data) :: rest =>
      match unmarshal data with
      | None => Err "json: unmarshal"
      | Some e =>
          let events := events ++ [e] in
          if (0 <? limit) && (limit <=? zlen events) then Ok events else list_loop limit rest events
      end
  end.

Definition ListEvents (limit : Z) (db : auditDB) : outcome (list AuditEvent) :=
  list_loop limit (List.filter (fun row => negb (bltb (fst row) [Byte.x01])) (adb_events db)) [].

Fixpoint verify_loop (i : Z) (previousHash : bytes) (events : list AuditEvent) : outcome unit :=
  match events with
  | [] => Ok tt
  | e :: rest =>
      if negb (ae_Seq e =? u64 (i + 1)) then Err "audit sequence"
      else if negb (beqb (ae_PrevHash e) previousHash) then Err "previous hash mismatch"
      else
        hash <~ hashEvent e ;;
        if negb (beqb (ae_Hash e) hash) then Err "hash mismatch"
        else verify_loop (i + 1) (ae_Hash e) rest
  end.

Definition Verify (db : auditDB) : outcome unit :=
  events <~ ListEvents 0 db ;; verify_loop 0 [] events.
End Log.

(** ** Proofs *)

Section LogProofs.
  Context (marshal : AuditEvent -> option bytes) (unmarshal : bytes -> option AuditEvent)
          (sum256 : bytes -> bytes) (putErr : kvs -> bytes -> bytes -> bool).

  (** Decoding an encoded event gives one with the same links that encodes
      to the same document, whatever its hash is set to. *)
  Context (json_stable : forall e d, marshal e = Some d ->
    exists e', unmarshal d = Some e' /\ ae_Seq e' = ae_Seq e /\ ae_PrevHash e' = ae_PrevHash e /\
      ae_Hash e' = ae_Hash e /\ (forall h, marshal (withHash e' h) = marshal (withHash e h))).

Abbreviation hashEv := (hashEvent marshal sum256).
Abbreviation verifyFrom := (verify_loop marshal sum256).

Definition lastHash (p : bytes) (events : list AuditEvent) : bytes :=
  match last events with Some e => ae_Hash e | None => p end.

Lemma lastHash_snoc p events e : lastHash p (events ++ [e]) = ae_Hash e.
Proof. unfold lastHash. now rewrite last_snoc. Qed.

Lemma verify_snoc i p events e :
  verifyFrom i p events = Ok tt -> ae_Seq e = u64 (i + zlen events + 1) ->
  ae_PrevHash e = lastHash p events -> hashEv e = Ok (ae_Hash e) ->
  verifyFrom i p (events ++ [e]) = Ok tt.
Proof.
  revert i p. induction events as [|e0 events IH]; intros i p; simpl.
  - intros _ Hs Hp Hh. rewrite zlen_nil, Z.add_0_r in Hs. unfold lastHash in Hp. simpl in Hp.
    rewrite Hs, Hp, Z.eqb_refl, Hh. simpl. rewrite !(proj2 (beqb_eq _ _)) by done. done.
  - destruct (negb (ae_Seq e0 =? _)); [done|]. destruct (negb (beqb (ae_PrevHash e0) p)); [done|].
    destruct (hashEv e0) as [h|?|?|]; try done. simpl. destruct (negb (beqb (ae_Hash e0) h)); [done|].
    intros Hv Hs Hp Hh. apply IH; auto.
    + rewrite zlen_cons in Hs. rewrite Hs. f_equal. lia.
    + rewrite Hp. unfold lastHash. rewrite last_cons. now destruct (last events).
Qed.

(** The state of a log with events [events]. *)
Definition log_of (db : auditDB) (events : list AuditEvent) : Prop :=
  map fst (adb_events db) = map seqKeyBytes (seqZ 1 (zlen events)) /\
  Forall2 (fun row e => unmarshal (snd row) = Some e) (adb_events db) events /\
  readSeq (adb_meta db) = Ok (zlen events) /\ readHash (adb_meta db) = lastHash [] events /\
  verifyFrom 0 [] events = Ok tt.

Lemma list_loop_all rows events acc :
  Forall2 (fun row e => unmarshal (snd row) = Some e) rows events ->
  list_loop unmarshal 0 rows acc = Ok (acc ++ events).
Proof.
  intros F. revert acc. induction F as [|[k d] e rows events Hu F IH]; intros acc; simpl; [now rewrite app_nil_r|].
  simpl in Hu. rewrite Hu, IH, <- app_assoc. done.
Qed.

Lemma filter_all {A} (f : A -> bool) l : (forall x, In x l -> f x = true) -> List.filter f l = l.
Proof.
  induction l as [|x l IH]; simpl; intros H; [done|]. rewrite (H x) by auto. f_equal. auto.
Qed.

Lemma log_lists db events : log_of db events -> ListEvents unmarshal 0 db = Ok events.
Proof.
  intros (K & F & _). unfold ListEvents. rewrite filter_all; [now apply (list_loop_all _ _ [])|].
  intros [k d] Hin. simpl. apply (in_map fst) in Hin. rewrite K in Hin. simpl in Hin.
  apply in_map_iff in Hin as (z & <- & _). unfold seqKeyBytes. now rewrite decimal_printable by lia.
Qed.

Lemma log_verifies db events : log_of db events -> Verify marshal unmarshal sum256 db = Ok tt.
Proof.
  intros H. unfold Verify. rewrite (log_lists _ _ H). simpl. apply H.
Qed.

Lemma meta_after k1 k2 v1 v2 m :
  k1 <> k2 -> kv_lookup k1 (kv_insert k2 v2 (kv_insert k1 v1 m)) = Some v1 /\
  kv_lookup k2 (kv_insert k2 v2 (kv_insert k1 v1 m)) = Some v2.
Proof.
  intros Hne. rewrite !kv_lookup_map, !kv_insert_map, lookup_insert_eq, lookup_insert_ne by auto.
  now rewrite lookup_insert_eq.
Qed.

(** A successful transaction extends the log by one event. *)
Lemma appendTx_extends db events e e' db' :
  log_of db events -> zlen events + 1 < 2 ^ 64 ->
  appendTx marshal sum256 putErr e db = Ok (e', db') ->
  exists d, log_of db' (events ++ [d]) /\ ae_Seq d = zlen events + 1 /\ ae_Hash d = ae_Hash e' /\
    (forall h, marshal (withHash d h) = marshal (withHash e' h)).
Proof.
  intros (K & F & Hs & Hh & Hv) Hn H. unfold appendTx in H. rewrite Hs in H. simpl in H.
  pose proof (zlen_nonneg events). rewrite u64_id, Hh in H by lia.
  apply obind_ok in H as (h & Hhash & H). cbn [withLink withHash ae_Seq ae_Hash] in H.
  destruct (marshal _) as [d|] eqn:Hm; [|done].
  unfold bucketPut in H.
  destruct (putErr (adb_events db) _ _); [done|]. simpl in H.
  destruct (putErr (adb_meta db) _ _); [done|]. simpl in H.
  destruct (putErr (kv_insert _ _ _) _ _); [done|]. simpl in H. injection H as <- <-.
  destruct (json_stable _ _ Hm) as (ev & Hu & E1 & E2 & E3 & E4). cbn [withLink withHash ae_Seq ae_PrevHash ae_Hash] in *.
  exists ev. split; [|split; [done|split; [done|exact E4]]].
  assert (Hkey : kv_insert (seqKeyBytes (zlen events + 1)) d (adb_events db) =
                 adb_events db ++ [(seqKeyBytes (zlen events + 1), d)]).
  { rewrite <- (app_nil_r (adb_events db)) at 1. rewrite kv_insert_below; [done|].
    apply Forall_forall. intros [k v] Hin. apply list_elem_of_In, (in_map fst) in Hin. rewrite K in Hin.
    simpl in Hin. apply in_map_iff in Hin as (z & <- & Hz).
    apply list_elem_of_In, elem_of_seqZ in Hz. simpl. apply decimal_lt; [lia|].
    change (10 ^ Z.of_nat 20) with 100000000000000000000. lia. }
  destruct (meta_after seqKey hashKey (seqBytes (zlen events + 1)) h (adb_meta db)) as [M1 M2]; [discriminate|].
  unfold log_of. cbn [adb_events adb_meta]. rewrite Hkey, map_app, K, zlen_app. change (zlen [ev]) with 1.
  split; [|split; [|split; [|split]]].
  - rewrite seqZ_app by lia. rewrite map_app. f_equal. rewrite seqZ_cons by lia. simpl. now rewrite Z.add_comm.
  - apply Forall2_app; [done|]. repeat constructor. done.
  - unfold readSeq. rewrite M1. unfold seqBytes. rewrite be_encode_length. simpl negb. cbv iota.
    rewrite be_decode_encode_small; [done|]. change (256 ^ Z.of_nat 8) with (2 ^ 64). lia.
  - unfold readHash. rewrite M2, lastHash_snoc. simpl. auto.
  - apply verify_snoc; auto.
    + rewrite E1. rewrite u64_id; lia.
    + unfold hashEvent in *. rewrite E4. unfold withHash in *. simpl in *.
      destruct (marshal _) eqn:Hm2 in Hhash; [|done]. rewrite Hm2. rewrite E3. done.
Qed.

(** Logs built from an empty database by appends, successful or not;
    [n] counts the successful ones. *)
Inductive built : Z -> auditDB -> Prop :=
| built_empty : built 0 (mkAuditDB [] [])
| built_append n db clock newID e :
    built n db -> n + 1 < 2 ^ 64 ->
    built (n + (if is_ok (Append marshal sum256 putErr clock newID e db).1 then 1 else 0))
          (Append marshal sum256 putErr clock newID e db).2.

Lemma built_log n db : built n db -> exists events, log_of db events /\ zlen events = n /\ n < 2 ^ 64.
Proof.
  induction 1 as [|n db clock newID e B (events & L & Hlen & _) Hn].
  { exists []. repeat split; done. }
  unfold Append. destruct (String.eqb _ _); [exists events; simpl; repeat split; [apply L..|lia|lia]|].
  destruct (String.eqb _ _); [exists events; simpl; repeat split; [apply L..|lia|lia]|].
  unfold mbind, mlift. destruct (if IDIsZero (ae_ID e) then newID else Ok (ae_ID e)) as [id|?|?|];
    try (exists events; simpl; repeat split; [apply L..|lia|lia]).
  destruct (appendTx _ _ _ _ db) as [[e' db']|?|?|] eqn:E; try (exists events; simpl; repeat split; [apply L..|lia|lia]).
  apply (appendTx_extends _ _ _ _ _ L) in E as (d & L' & _); [|lia].
  exists (events ++ [d]). simpl. rewrite zlen_app. change (zlen [d]) with 1. repeat split; [apply L'..|lia|lia].
Qed.

Lemma verify_app i p l k :
  verifyFrom i p (l ++ k) = Ok tt ->
  verifyFrom i p l = Ok tt /\ verifyFrom (i + zlen l) (lastHash p l) k = Ok tt.
Proof.
  revert i p. induction l as [|e l IH]; intros i p; simpl.
  { intros H. rewrite zlen_nil, Z.add_0_r. done. }
  destruct (negb (ae_Seq e =? _)); [done|]. destruct (negb (beqb (ae_PrevHash e) p)); [done|].
  destruct (hashEv e) as [h|?|?|]; try done. simpl. destruct (negb (beqb (ae_Hash e) h)); [done|].
  intros H. apply IH in H as [H1 H2]. split; [done|]. rewrite zlen_cons.
  replace (i + (zlen l + 1)) with (i + 1 + zlen l) by lia.
  replace (lastHash p (e :: l)) with (lastHash (ae_Hash e) l); [done|].
  unfold lastHash. rewrite last_cons. now destruct (last l).
Qed.

Lemma verify_single i p e :
  verifyFrom i p [e] = Ok tt ->
  ae_Seq e = u64 (i + 1) /\ ae_PrevHash e = p /\ hashEv e = Ok (ae_Hash e).
Proof.
  simpl. destruct (ae_Seq e =? u64 (i + 1)) eqn:E1; [|done]. destruct (beqb (ae_PrevHash e) p) eqn:E2; [|done].
  simpl. destruct (hashEv e) as [h|?|?|]; try done. simpl. destruct (beqb (ae_Hash e) h) eqn:E3; [|done].
  apply Z.eqb_eq in E1. apply beqb_eq in E2, E3. intros _. now subst.
Qed.

Definition collision : Prop := exists x y, x <> y /\ sum256 x = sum256 y.

(** Two events agree in everything the log stores. *)
Definition same_event (e1 e2 : AuditEvent) : Prop :=
  marshal (withHash e1 []) = marshal (withHash e2 []) /\ ae_Hash e1 = ae_Hash e2.

Lemma same_hash_same_event e1 e2 :
  hashEv e1 = Ok (ae_Hash e1) -> hashEv e2 = Ok (ae_Hash e2) -> ae_Hash e1 = ae_Hash e2 ->
  collision \/ (same_event e1 e2 /\ ae_Seq e1 = ae_Seq e2 /\ ae_PrevHash e1 = ae_PrevHash e2).
Proof using json_stable.
  unfold hashEvent. destruct (marshal (withHash e1 [])) as [d1|] eqn:M1; [|done].
  destruct (marshal (withHash e2 [])) as [d2|] eqn:M2; [|done]. intros [= H1] [= H2] E.
  rewrite <- H1, <- H2 in E. apply hexEncode_inj in E.
  destruct (decide (d1 = d2)) as [->|Hne]; [right|left; now exists d1, d2].
  destruct (json_stable _ _ M1) as (x & U1 & S1 & P1 & _ & _).
  destruct (json_stable _ _ M2) as (y & U2 & S2 & P2 & _ & _). rewrite U1 in U2. injection U2 as <-.
  simpl in *. split; [|split; congruence]. split; congruence.
Qed.

Lemma verified_logs_agree l1 l2 :
  verifyFrom 0 [] l1 = Ok tt -> verifyFrom 0 [] l2 = Ok tt ->
  zlen l1 < 2 ^ 64 -> zlen l2 < 2 ^ 64 -> l1 <> [] -> l2 <> [] ->
  lastHash [] l1 = lastHash [] l2 -> collision \/ Forall2 same_event l1 l2.
Proof using json_stable.
  revert l2. induction l1 as [|e1 l1 IH] using rev_ind; [done|]. intros l2.
  destruct l2 as [|e2 l2 _] using rev_ind; [done|].
  intros V1 V2 N1 N2 _ _ E. rewrite !lastHash_snoc in E. rewrite zlen_app in N1, N2.
  change (zlen [e1]) with 1 in N1. change (zlen [e2]) with 1 in N2.
  apply verify_app in V1 as [V1 (Q1 & P1 & G1)%verify_single].
  apply verify_app in V2 as [V2 (Q2 & P2 & G2)%verify_single].
  destruct (same_hash_same_event e1 e2 G1 G2 E) as [?|(Hs & Hq & Hp)]; [now left|].
  pose proof (zlen_nonneg l1). pose proof (zlen_nonneg l2).
  rewrite Q1, Q2, !u64_id in Hq by lia. rewrite P1, P2 in Hp.
  destruct l1 as [|a l1], l2 as [|b l2].
  - right. simpl. apply Forall2_cons. split; [exact Hs|constructor].
  - rewrite zlen_cons in Hq. pose proof (zlen_nonneg l2). change (zlen (@nil AuditEvent)) with 0 in Hq. lia.
  - rewrite zlen_cons in Hq. pose proof (zlen_nonneg l1). change (zlen (@nil AuditEvent)) with 0 in Hq. lia.
  - destruct (IH (b :: l2) V1 V2) as [?|F]; auto; try lia; try done.
    right. apply Forall2_app; [done|]. apply Forall2_cons. split; [exact Hs|constructor].
Qed.

Lemma verify_sequence i p l :
  verifyFrom i p l = Ok tt -> 0 <= i -> i + zlen l < 2 ^ 64 -> map ae_Seq l = seqZ (i + 1) (zlen l).
Proof.
  revert i p. induction l as [|e l IH]; intros i p; [done|]. intros V Hi Hl.
  rewrite zlen_cons in *. pose proof (zlen_nonneg l).
  apply (verify_app i p [e] l) in V as [(Q & _ & _)%verify_single V].
  change (zlen [e]) with 1 in V. apply IH in V; [|lia..].
  rewrite seqZ_cons by lia. simpl. rewrite V, Q, u64_id by lia. f_equal. f_equal; lia.
Qed.

(** A log built from an empty database by any sequence of appends,
    successful or failed, verifies; it lists as many events as appends
    succeeded, and their sequence numbers are 1, 2, 3, and so on. *)
Theorem audit_built_log_verifies n db :
  built n db ->
  Verify marshal unmarshal sum256 db = Ok tt /\
  exists events, ListEvents unmarshal 0 db = Ok events /\ map ae_Seq events = seqZ 1 n.
Proof using json_stable.
  intros B. destruct (built_log n db B) as (events & L & Hn & Hb). split; [now apply (log_verifies _ events)|].
  exists events. split; [now apply log_lists|]. rewrite <- Hn. apply (verify_sequence 0 []); [apply L|lia|lia].
Qed.

(** C18: the log is tamper evident up to its last hash: two databases whose
    logs verify and end in the same hash hold the same events, unless the
    two logs exhibit a collision of the hash function. *)
Theorem audit_tamper_evident db1 db2 l1 l2 :
  ListEvents unmarshal 0 db1 = Ok l1 -> ListEvents unmarshal 0 db2 = Ok l2 ->
  Verify marshal unmarshal sum256 db1 = Ok tt -> Verify marshal unmarshal sum256 db2 = Ok tt ->
  zlen l1 < 2 ^ 64 -> zlen l2 < 2 ^ 64 -> l1 <> [] -> l2 <> [] ->
  lastHash [] l1 = lastHash [] l2 -> collision \/ Forall2 same_event l1 l2.
Proof using json_stable.
  unfold Verify. intros -> -> V1 V2. now apply verified_logs_agree.
Qed.

Lemma list_loop_prefix rows k acc events :
  list_loop unmarshal 0 rows acc = Ok events ->
  exists pre post, list_loop unmarshal 0 (take k rows) acc = Ok pre /\ events = pre ++ post.
Proof.
  revert k acc. induction rows as [|[key d] rows IH]; intros [|k] acc; simpl.
  - intros [= <-]. exists acc, []. now rewrite app_nil_r.
  - intros [= <-]. exists acc, []. now rewrite app_nil_r.
  - destruct (unmarshal d) as [e|]; [|done]. intros H. destruct (IH 0%nat _ H) as (pre & post & H1 & ->).
    simpl in H1. destruct rows; simpl in H1; injection H1 as <-; exists acc, ([e] ++ post); now rewrite app_assoc.
  - destruct (unmarshal d) as [e|]; [|done]. apply IH.
Qed.

(** [Verify] does not compare the last event with the sequence number
    and hash kept in the metadata bucket: it accepts the log after its newest
    events were removed. *)
Theorem audit_truncation_accepted db k :
  (forall row, In row (adb_events db) -> bltb (fst row) [Byte.x01] = false) ->
  Verify marshal unmarshal sum256 db = Ok tt ->
  Verify marshal unmarshal sum256 (mkAuditDB (take k (adb_events db)) (adb_meta db)) = Ok tt.
Proof.
  intros Hk. unfold Verify, ListEvents. simpl.
  rewrite (filter_all _ (adb_events db)) by (intros row Hin; now rewrite Hk).
  rewrite (filter_all _ (take k (adb_events db))).
  2:{ intros row Hin. rewrite Hk; [done|]. apply list_elem_of_In. apply list_elem_of_In in Hin.
      eapply elem_of_take in Hin as (i & Hi & _). now apply list_elem_of_lookup_2 in Hi. }
  intros H. apply obind_ok in H as (events & HL & HV).
  destruct (list_loop_prefix _ k _ _ HL) as (pre & post & -> & ->). simpl. now apply verify_app in HV.
Qed.
End LogProofs.

(** ** Instances of the parameters

    A codec that keeps the fields of the chain, and a checksum. *)

Definition toyMarshal (e : AuditEvent) : option bytes :=
  if (0 <=? ae_Seq e) && (ae_Seq e <? 2 ^ 64) && (zlen (ae_PrevHash e) <? 2 ^ 64)
  then Some (be_encode 8 (ae_Seq e) ++ be_encode 8 (zlen (ae_PrevHash e)) ++ ae_PrevHash e ++ ae_Hash e)
  else None.

Definition toyUnmarshal (d : bytes) : option AuditEvent :=
  let n := Z.to_nat (be_decode (take 8 (drop 8 d))) in
  let rest := drop 16 d in
  Some (mkEvent (be_decode (take 8 d)) "" "" "" "" "" ∅ 0 (take n rest) (drop n rest)).

Definition toySum (d : bytes) : bytes := be_encode 4 (foldl (fun h b => u64 (h * 31 + b2z b)) 7 d).

Definition noFault (_ : kvs) (_ _ : bytes) : bool := false.

Lemma toy_json_stable e d :
  toyMarshal e = Some d ->
  exists e', toyUnmarshal d = Some e' /\ ae_Seq e' = ae_Seq e /\ ae_PrevHash e' = ae_PrevHash e /\
    ae_Hash e' = ae_Hash e /\ (forall h, toyMarshal (withHash e' h) = toyMarshal (withHash e h)).
Proof.
  unfold toyMarshal. destruct (_ && _) eqn:E; [|done].
  match goal with |- Some ?x = _ -> _ => remember x as doc eqn:Hdoc end. intros [= <-]. rewrite Hdoc. clear doc Hdoc.
  exists (mkEvent (ae_Seq e) "" "" "" "" "" ∅ 0 (ae_PrevHash e) (ae_Hash e)).
  split; [|repeat split]. unfold toyUnmarshal. pose proof (zlen_nonneg (ae_PrevHash e)).
  rewrite (take_app_length' (be_encode 8 (ae_Seq e))), (drop_app_length' (be_encode 8 (ae_Seq e)))
    by now rewrite be_encode_length.
  rewrite take_app_length' by now rewrite be_encode_length.
  rewrite app_assoc, drop_app_length' by now rewrite length_app, !be_encode_length.
  rewrite !be_decode_encode_small by (change (256 ^ Z.of_nat 8) with (2 ^ 64); lia).
  unfold zlen. now rewrite Nat2Z.id, take_app_length, drop_app_length.
Qed.

Definition demoEvent : AuditEvent := mkEvent 0 "e" "u" "login" "session" "" ∅ 5 [] [].

Definition demoLog : auditDB :=
  (Append toyMarshal toySum noFault 1 (Err "") demoEvent
    (Append toyMarshal toySum noFault 1 (Err "") demoEvent (mkAuditDB [] [])).2).2.

Lemma audit_built_log_verifies_witness :
  Verify toyMarshal toyUnmarshal toySum demoLog = Ok tt.
Proof.
  apply (audit_built_log_verifies toyMarshal toyUnmarshal toySum noFault toy_json_stable 2).
  pose proof (built_empty toyMarshal toySum noFault) as B0.
  pose proof (built_append _ _ _ _ _ 1 (Err "") demoEvent B0 ltac:(lia)) as B1.
  assert (N : 0 + (if is_ok (Append toyMarshal toySum noFault 1 (Err "") demoEvent (mkAuditDB [] [])).1
                   then 1 else 0) = 1) by (vm_compute; reflexivity).
  rewrite N in B1. pose proof (built_append _ _ _ _ _ 1 (Err "") demoEvent B1 ltac:(lia)) as B2.
  replace 2 with (1 + (if is_ok (Append toyMarshal toySum noFault 1 (Err "") demoEvent
    (Append toyMarshal toySum noFault 1 (Err "") demoEvent (mkAuditDB [] [])).2).1 then 1 else 0))
    by (vm_compute; reflexivity).
  exact B2.
Defined.

Definition demoEvents : list AuditEvent :=
  match ListEvents toyUnmarshal 0 demoLog with Ok l => l | _ => [] end.

Lemma audit_tamper_evident_witness :
  collision toySum \/ Forall2 (same_event toyMarshal) demoEvents demoEvents.
Proof.
  apply (audit_tamper_evident toyMarshal toyUnmarshal toySum toy_json_stable demoLog demoLog);
    vm_compute; reflexivity || discriminate.
Defined.

Lemma audit_truncation_accepted_witness :
  zlen (adb_events demoLog) = 2 /\
  Verify toyMarshal toyUnmarshal toySum (mkAuditDB (take 1 (adb_events demoLog)) (adb_meta demoLog)) = Ok tt.
Proof.
  split; [vm_compute; reflexivity|].
  apply (audit_truncation_accepted toyMarshal toyUnmarshal toySum demoLog 1).
  - intros row Hin. vm_compute in Hin. destruct Hin as [<-|[<-|[]]]; vm_compute; reflexivity.
  - vm_compute. reflexivity.
Defined.
