(* ===== verification/Manifest.v ===== *)
(** * Signed backup manifests

    Models src/internal/manifest/manifest.go. encoding/json and Ed25519 are
    parameters. Keys, hashes, tags and key identifiers are byte strings, as
    in the pipeline; the ratio of deduplicated chunks is given by its
    numerator and denominator. *)

From Stdlib Require Import String.
From S2P Require Import Prelude ChunkHash Core Envelope FastCDC ChunkIndex Pipeline.
Local Open Scope Z_scope.

Record MDriver := mkMDriver { md_Name : string; md_Version : string; md_SourceTZ : string }.
Record MEncryption := mkMEncryption { me_Algorithm : string; me_KeyID : string; me_KDF : string }.
Record MStats := mkMStats
  { ms_LogicalSizeBytes : Z; ms_StoredSizeBytes : Z; ms_ChunkCount : Z; ms_DedupRatio : Z * Z }.

Record MChunkRef := mkMChunkRef
  { mc_Hash : bytes; mc_Key : bytes; mc_Offset : Z; mc_Size : Z; mc_StoredSize : Z; mc_ETag : bytes;
    mc_Compression : string; mc_Encryption : string; mc_KeyID : bytes }.

Record MObject := mkMObject { mo_Schema : string; mo_Name : string; mo_Chunks : list MChunkRef }.
Record MSignature := mkMSignature { sg_Algorithm : string; sg_Value : bytes }.

Record Manifest := mkManifest
  { mf_Version : Z; mf_BackupID : string; mf_Target : string; mf_Driver : MDriver; mf_Type : string;
    mf_ParentID : option string; mf_StartedAt : Time; mf_FinishedAt : Time; mf_Compression : string;
    mf_Encryption : MEncryption; mf_Stats : MStats; mf_Objects : list MObject;
    mf_Streams : gmap string string; mf_Signature : option MSignature }.

Definition Version : Z := 1.

Definition withSignature (m : Manifest) (sg : option MSignature) : Manifest :=
  mkManifest (mf_Version m) (mf_BackupID m) (mf_Target m) (mf_Driver m) (mf_Type m) (mf_ParentID m)
    (mf_StartedAt m) (mf_FinishedAt m) (mf_Compression m) (mf_Encryption m) (mf_Stats m) (mf_Objects m)
    (mf_Streams m) sg.

Definition ChunkFromPipeline (ref : ChunkRef) : MChunkRef :=
  mkMChunkRef (hashString (cr_hash ref)) (cr_key ref) (cr_offset ref) (cr_size ref) (cr_stored ref)
    (cr_etag ref) (cr_compression ref) (cr_encryption ref) (cr_keyID ref).

Fixpoint refs_loop (i : Z) (refs : list MChunkRef) : outcome (list ChunkRef) :=
  match refs with
  | [] => Ok []
  | ref :: rest =>
      hash <~ ParseHash (mc_Hash ref) ;;
      out <~ refs_loop (i + 1) rest ;;
      Ok (mkRef i hash (mc_Key ref) (mc_Offset ref) (mc_Size ref) (mc_StoredSize ref) (mc_ETag ref)
            (mc_Compression ref) (mc_Encryption ref) (mc_KeyID ref) false :: out)
  end.

Definition PipelineRefs (refs : list MChunkRef) : outcome (list ChunkRef) := refs_loop 0 refs.

Section Signing.
  (** json.Marshal, json.MarshalIndent and json.Unmarshal on manifests, and
      ed25519.Sign and ed25519.Verify. *)
  Context (marshal marshalIndent : Manifest -> option bytes) (unmarshal : bytes -> option Manifest)
          (edSign : bytes -> bytes -> bytes) (edVerify : bytes -> bytes -> bytes -> bool).

Definition CanonicalJSON (m : Manifest) : outcome bytes :=
  match marshal (withSignature m None) with Some d => Ok d | None => Err "json: marshal" end.

Definition Marshal (m : Manifest) : outcome bytes :=
  match marshalIndent m with Some d => Ok d | None => Err "json: marshal" end.

Definition Parse (data : bytes) : outcome Manifest :=
  match unmarshal data with
  | None => Err "json: unmarshal"
  | Some m => if negb (mf_Version m =? Version) then Err "unsupported manifest version" else Ok m
  end.

Definition Sign (m : Manifest) (privateKey : bytes) : outcome Manifest :=
  if negb (zlen privateKey =? 64) then Err "ed25519 private key must be 64 bytes"
  else
    canonical <~ CanonicalJSON m ;;
    Ok (withSignature m (Some (mkMSignature "ed25519" (hexEncode (edSign privateKey canonical))))).

Definition VerifySignature (m : Manifest) (publicKey : bytes) : outcome unit :=
  if negb (zlen publicKey =? 32) then Err "ed25519 public key must be 32 bytes"
  else match mf_Signature m with
       | None => Err "manifest signature is missing"
       | Some sg =>
           if negb (String.eqb (sg_Algorithm sg) "ed25519") then Err "unsupported signature algorithm"
           else
             sig <~ hexDecode (sg_Value sg) ;;
             canonical <~ CanonicalJSON m ;;
             if negb (edVerify publicKey canonical sig) then Err "manifest signature verification failed"
             else Ok tt
       end.
End Signing.

(** ** References survive the manifest *)

(** What [PipelineRefs] restores of a reference: everything but the
    deduplication mark, with the position as sequence number. *)
Definition renumber (i : Z) (ref : ChunkRef) : ChunkRef :=
  mkRef i (cr_hash ref) (cr_key ref) (cr_offset ref) (cr_size ref) (cr_stored ref) (cr_etag ref)
    (cr_compression ref) (cr_encryption ref) (cr_keyID ref) false.

Lemma refs_loop_from_pipeline i refs :
  Forall (fun ref => zlen (cr_hash ref) = HashSize) refs ->
  refs_loop i (map ChunkFromPipeline refs) = Ok (imap (fun k ref => renumber (i + Z.of_nat k) ref) refs).
Proof.
  revert i. induction refs as [|ref refs IH]; intros i H; [done|].
  apply Forall_cons in H as [Hh H]. cbn [map refs_loop ChunkFromPipeline mc_Hash].
  unfold ParseHash, hashString. rewrite hexDecode_encode. simpl. rewrite Hh, Z.eqb_refl. simpl.
  rewrite (IH (i + 1) H). simpl. do 2 f_equal; [unfold renumber; f_equal; lia|].
  apply imap_ext. intros k x _. simpl. f_equal. lia.
Qed.
