(* ===== verification/Repository.v ===== *)
(** * The repository: committing manifests and collecting garbage

    Models src/internal/repository/commit.go and gc.go, with [List] of the
    local storage backend (src/internal/storage/local/local.go) as the
    instance of the interface the collector needs. A listing is a sequence of
    pages; the objects listed are those after the token, in key order, and
    the token of the next page is the last key of this one.

    The theorems show that a collection, whether it ends well or fails on the
    way, leaves every loadable manifest and every chunk it refers to as they
    were, that a successful one leaves no unreferenced chunk, and that a
    committed backup can still be restored after any collection. *)

From Stdlib Require Import String.
From S2P Require Import Prelude KvNode KvMap ChunkHash Core Calendar GoStrings Envelope FastCDC ChunkIndex Pipeline PipelineProofs Manifest.
Local Open Scope Z_scope.

(** ** Object stores *)

Record ObjectInfo := mkObjectInfo
  { oi_Key : bytes; oi_Size : Z; oi_ETag : bytes; oi_UpdatedAt : Time }.

Definition hasPrefix (prefix key : bytes) : bool := beqb (take (length prefix) key) prefix.

(** The keys a listing has still to visit. *)
Definition listed (prefix token : bytes) (objects : kvs) : list bytes :=
  List.filter (fun k => hasPrefix prefix k && (beqb token [] || bltb token k)) (map fst objects).

(** [be_objects] are the objects a listing shows; [be_hidden] tells the keys
    it never shows (the local backend's lock and temporary files). *)
Class ObjectStore (B : Type) `{Backend B} := {
  be_objects : B -> kvs;
  be_hidden : bytes -> bool;
  be_delete : bytes -> M B unit;
  be_list : bytes -> bytes -> B -> outcome (list ObjectInfo * bytes)
}.

Class ObjectStoreLaws (B : Type) `{ObjectStore B} := {
  objects_sorted : forall b, kv_sorted (be_objects b);
  get_stored : forall k b v, be_get k b = Ok v -> be_hidden k = false -> In k (map fst (be_objects b));
  delete_other : forall k k' b, k' <> k -> be_get k' (be_delete k b).2 = be_get k' b;
  delete_keys : forall k k' b, In k' (map fst (be_objects (be_delete k b).2)) -> In k' (map fst (be_objects b));
  delete_gone : forall k b, is_ok (be_delete k b).1 = true -> ~ In k (map fst (be_objects (be_delete k b).2));
  get_plain : forall k b, be_get k b <> Fuel;
  delete_plain : forall k b, (be_delete k b).1 <> Fuel;
  list_plain : forall prefix token b, be_list prefix token b <> Fuel;
  list_page : forall prefix token b objs nextToken,
    be_list prefix token b = Ok (objs, nextToken) ->
    exists rest, listed prefix token (be_objects b) = map oi_Key objs ++ rest /\
      (nextToken = [] -> rest = []) /\ (nextToken <> [] -> last (map oi_Key objs) = Some nextToken)
}.

(** ** Commit *)

Definition maxManifestBytes : Z := 64 * 1024 * 1024.

Record CommitOptions := mkCommitOptions
  { co_BackupID : string; co_Target : string; co_Driver : MDriver; co_Type : string;
    co_ParentID : option string; co_StartedAt : Time; co_FinishedAt : Time;
    co_Encryption : MEncryption; co_PrivateKey : bytes }.

Definition manifestsPrefix : bytes := list_byte_of_string "manifests/".

(** [clock] is what time.Now().UTC() reads; years have four digits. *)
Definition manifestKey (clock finishedAt : Time) (backupID : string) : bytes :=
  let t := if TimeIsZero finishedAt then clock else finishedAt in
  manifestsPrefix ++ decimal 4 (tYear t) ++ slash ++ decimal 2 (tMonth t) ++ slash ++
  decimal 2 (tDay t) ++ slash ++ list_byte_of_string backupID ++ list_byte_of_string ".manifest".

Definition dedupRatio (stats : Stats) : Z * Z :=
  if st_chunks stats =? 0 then (0, 1) else (st_deduped stats, st_chunks stats).

(** The manifest of a finished run of the pipeline, before it is signed. *)
Definition buildManifest (refs : list ChunkRef) (stats : Stats) (opts : CommitOptions) : Manifest :=
  mkManifest Version (co_BackupID opts) (co_Target opts) (co_Driver opts) (co_Type opts)
    (co_ParentID opts) (co_StartedAt opts) (co_FinishedAt opts) "" (co_Encryption opts)
    (mkMStats (st_bytesIn stats) (st_bytesUploaded stats) (st_chunks stats) (dedupRatio stats))
    [mkMObject "" "stream" (map ChunkFromPipeline refs)] ∅ None.

(** ** Garbage collection *)

Record GCReport := mkGCReport
  { gr_Manifests : Z; gr_ReferencedChunks : Z; gr_ScannedChunks : Z; gr_DeletedChunks : Z;
    gr_DeletedBytes : Z; gr_OrphanChunks : list ObjectInfo }.

Section Repository.
  Context {B : Type} `{ObjectStore B}.
  Context (marshal marshalIndent : Manifest -> option bytes) (unmarshal : bytes -> option Manifest)
          (edSign : bytes -> bytes -> bytes) (edVerify : bytes -> bytes -> bytes -> bool).

Definition CommitManifest (clock : Time) (refs : list ChunkRef) (stats : Stats) (opts : CommitOptions)
  : M B (Manifest * bytes) :=
  if String.eqb (co_BackupID opts) "" then merr "backup id is required"
  else if String.eqb (co_Target opts) "" then merr "target is required"
  else
    m <-- mlift (Sign marshal edSign (buildManifest refs stats opts) (co_PrivateKey opts)) ;;
    data <-- mlift (Marshal marshalIndent m) ;;
    let key := manifestKey clock (co_FinishedAt opts) (co_BackupID opts) in
    _ <-- be_put key data ;;
    mret (m, key).

Definition LoadManifest (key publicKey : bytes) (b : B) : outcome Manifest :=
  if Nat.eqb (length key) 0 then Err "manifest key is required"
  else
    data <~ be_get key b ;;
    if maxManifestBytes <? zlen data then Err "manifest exceeds the size limit"
    else
      m <~ Parse unmarshal data ;;
      _ <~ VerifySignature marshal edVerify m publicKey ;;
      Ok m.

(** The state of a collection: the backend, the marked keys, the report. *)
Record gcState := mkGC { gc_backend : B; gc_marked : gset bytes; gc_report : GCReport }.

Definition withReport (s : gcState) (marked : gset bytes) (r : GCReport) : gcState :=
  mkGC (gc_backend s) marked r.

(** Calls [fn] on the objects of a page. *)
Fixpoint each (fn : ObjectInfo -> M gcState unit) (objs : list ObjectInfo) : M gcState unit :=
  match objs with
  | [] => mret tt
  | info :: rest => _ <-- fn info ;; each fn rest
  end.

(** [fuel] bounds the number of pages. *)
Fixpoint listAll (fuel : nat) (prefix token : bytes) (fn : ObjectInfo -> M gcState unit) : M gcState unit :=
  match fuel with
  | O => mfuel
  | S fuel => fun s =>
      match be_list prefix token (gc_backend s) with
      | Ok (objs, nextToken) =>
          (_ <-- each fn objs ;;
           if Nat.eqb (length nextToken) 0 then mret tt else listAll fuel prefix nextToken fn) s
      | Err e => (Err e, s)
      | Panic e => (Panic e, s)
      | Fuel => (Fuel, s)
      end
  end.

Definition manifestKeys (m : Manifest) : list bytes :=
  concat (map (fun o => map mc_Key (mo_Chunks o)) (mf_Objects m)).

Definition markKey (acc : gset bytes * Z) (key : bytes) : gset bytes * Z :=
  let '(marked, count) := acc in
  if Nat.eqb (length key) 0 then acc
  else if decide (key ∈ marked) then acc else (marked ∪ {[key]}, count + 1).

Definition markManifest (publicKey : bytes) (info : ObjectInfo) : M gcState unit := fun s =>
  match LoadManifest (oi_Key info) publicKey (gc_backend s) with
  | Ok m =>
      let r := gc_report s in
      let '(marked, count) := foldl markKey (gc_marked s, gr_ReferencedChunks r) (manifestKeys m) in
      (Ok tt, withReport s marked
         (mkGCReport (gr_Manifests r + 1) count (gr_ScannedChunks r) (gr_DeletedChunks r)
            (gr_DeletedBytes r) (gr_OrphanChunks r)))
  | Err e => (Err e, s)
  | Panic e => (Panic e, s)
  | Fuel => (Fuel, s)
  end.

Definition sweepChunk (dryRun : bool) (info : ObjectInfo) : M gcState unit := fun s =>
  let r := gc_report s in
  let scanned orphans deleted bytes :=
    mkGCReport (gr_Manifests r) (gr_ReferencedChunks r) (gr_ScannedChunks r + 1) deleted bytes orphans in
  if decide (oi_Key info ∈ gc_marked s)
  then (Ok tt, withReport s (gc_marked s) (scanned (gr_OrphanChunks r) (gr_DeletedChunks r) (gr_DeletedBytes r)))
  else
    let orphans := gr_OrphanChunks r ++ [info] in
    let kept := withReport s (gc_marked s) (scanned orphans (gr_DeletedChunks r) (gr_DeletedBytes r)) in
    if dryRun then (Ok tt, kept)
    else match be_delete (oi_Key info) (gc_backend s) with
         | (Ok _, b') =>
             (Ok tt, mkGC b' (gc_marked s)
                (scanned orphans (gr_DeletedChunks r + 1) (gr_DeletedBytes r + oi_Size info)))
         | (Err e, b') => (Err e, mkGC b' (gc_marked s) (gc_report kept))
         | (Panic e, b') => (Panic e, mkGC b' (gc_marked s) (gc_report kept))
         | (Fuel, b') => (Fuel, mkGC b' (gc_marked s) (gc_report kept))
         end.

Definition GarbageCollect (fuel : nat) (publicKey : bytes) (dryRun : bool) (b : B) : outcome unit * gcState :=
  (_ <-- listAll fuel manifestsPrefix [] (markManifest publicKey) ;;
   listAll fuel dataPrefix [] (sweepChunk dryRun))
  (mkGC b ∅ (mkGCReport 0 0 0 0 0 [])).
End Repository.

(** ** Listings *)

Lemma in_listed prefix token objects k :
  In k (listed prefix token objects) <->
  In k (map fst objects) /\ hasPrefix prefix k = true /\ (token = [] \/ blt token k).
Proof.
  unfold listed. rewrite filter_In, andb_true_iff, orb_true_iff, beqb_eq, bltb_lt. tauto.
Qed.

Lemma listed_sorted prefix token m : kv_sorted m -> StronglySorted blt (listed prefix token m).
Proof.
  intros Hs. apply (StronglySorted_map fst blt) in Hs. unfold listed.
  induction Hs as [|k ks Hs IH Hf]; simpl; [constructor|].
  destruct (_ && _); [|done]. constructor; [done|]. rewrite Forall_forall in *. intros x Hx.
  apply Hf. apply list_elem_of_In. apply list_elem_of_In, filter_In in Hx. tauto.
Qed.

Lemma sorted_nodup (l : list bytes) : StronglySorted blt l -> List.NoDup l.
Proof.
  induction 1 as [|k l Hs IH Hf]; constructor; [|done]. intros Hin. rewrite Forall_forall in Hf.
  apply (blt_irrefl k), Hf. now apply list_elem_of_In.
Qed.

(** What is left after a page lies beyond the page's last key. *)
Lemma sorted_rest_beyond (l rest : list bytes) n k :
  StronglySorted blt (l ++ rest) -> last l = Some n -> In k rest -> blt n k.
Proof.
  intros Hs Hl Hk. apply (StronglySorted_app_1_elem_of _ l rest n k Hs).
  - apply last_Some in Hl as [l' ->]. set_solver.
  - now apply list_elem_of_In.
Qed.

Section Pages.
  Context {B : Type} {BE : Backend B} {OS : ObjectStore B} {OL : ObjectStoreLaws B}.

Abbreviation gst := (gcState (B := B)).
Abbreviation keysOf s := (map fst (be_objects (gc_backend s))).

(** An invariant of every call, also of one that fails, holds at the end. *)
Lemma each_inv (P : gst -> Prop) fn objs (s : gst) :
  (forall info s, In info objs -> P s -> P (fn info s).2) -> P s -> P (each fn objs s).2.
Proof.
  intros Hfn. revert s. induction objs as [|info objs IH]; intros s HP; [done|].
  cbn [each]. unfold mbind. pose proof (Hfn info s (or_introl eq_refl) HP) as H1.
  destruct (fn info s) as [[u|e|e|] s1]; try done. apply IH; [|done].
  intros i s2 Hi. apply Hfn. now right.
Qed.

Lemma page_prefix prefix token (b : B) objs nextToken info :
  be_list prefix token b = Ok (objs, nextToken) -> In info objs -> hasPrefix prefix (oi_Key info) = true.
Proof.
  intros E Hin. apply list_page in E as (rest & E & _).
  assert (In (oi_Key info) (listed prefix token (be_objects b))) as Hl.
  { rewrite E. apply in_or_app. left. now apply in_map. }
  apply in_listed in Hl. tauto.
Qed.

Lemma listAll_inv (P : gst -> Prop) fn fuel prefix token s :
  (forall info s, hasPrefix prefix (oi_Key info) = true -> P s -> P (fn info s).2) ->
  P s -> P (listAll fuel prefix token fn s).2.
Proof.
  intros Hfn. revert token s. induction fuel as [|fuel IH]; intros token s HP; [done|]. cbn [listAll].
  destruct (be_list prefix token (gc_backend s)) as [[objs nextToken]|e|e|] eqn:E; try done.
  unfold mbind. pose proof (each_inv P fn objs s) as He.
  specialize (He (fun info s2 Hin => Hfn info s2 (page_prefix _ _ _ _ _ _ E Hin)) HP).
  destruct (each fn objs s) as [[u|e|e|] s1]; try done.
  destruct (Nat.eqb (length nextToken) 0); [done|]. now apply IH.
Qed.

(** *** Coverage: a successful listing has called [fn] on every object that
    is still there. [Q] is what a call establishes for its key. *)
Section Coverage.
  Context (fn : ObjectInfo -> M gst unit) (I : gst -> Prop) (Q : bytes -> gst -> Prop).
  Context (step : forall info s s', I s -> fn info s = (Ok tt, s') ->
    I s' /\ Q (oi_Key info) s' /\ (forall k, Q k s -> Q k s') /\
    (forall k, In k (keysOf s') -> In k (keysOf s))).

Lemma each_covers objs s s' :
  I s -> each fn objs s = (Ok tt, s') ->
  I s' /\ (forall info, In info objs -> Q (oi_Key info) s') /\ (forall k, Q k s -> Q k s') /\
  (forall k, In k (keysOf s') -> In k (keysOf s)).
Proof.
  revert s. induction objs as [|info objs IH]; intros s HI; cbn [each].
  { intros [= <-]. split_and!; auto. intros i []. }
  intros E. apply mbind_ok in E as ([] & s1 & E1 & E2).
  destruct (step _ _ _ HI E1) as (I1 & Q1 & M1 & K1). destruct (IH _ I1 E2) as (I2 & Q2 & M2 & K2).
  split; [done|]. split; [|split; auto]. intros i [<-|Hi]; auto.
Qed.

Lemma listAll_covers fuel prefix token s s' :
  I s -> listAll fuel prefix token fn s = (Ok tt, s') ->
  I s' /\ (forall k, Q k s -> Q k s') /\ (forall k, In k (keysOf s') -> In k (keysOf s)) /\
  (forall k, In k (listed prefix token (be_objects (gc_backend s'))) -> Q k s').
Proof.
  revert token s. induction fuel as [|fuel IH]; intros token s HI; [done|]. cbn [listAll].
  destruct (be_list prefix token (gc_backend s)) as [[objs nextToken]|e|e|] eqn:E; try done.
  intros R. apply mbind_ok in R as ([] & s1 & E1 & E2).
  destruct (each_covers _ _ _ HI E1) as (I1 & Q1 & M1 & K1).
  apply list_page in E as (rest & El & Hend & Hlast).
  assert (Hin : forall k, In k (listed prefix token (be_objects (gc_backend s))) ->
    In k rest \/ exists info, In info objs /\ oi_Key info = k).
  { intros k. rewrite El, in_app_iff, in_map_iff. intros [(i & <- & Hi)|Hr]; eauto. }
  destruct nextToken as [|x nextToken]; cbn [length Nat.eqb] in E2.
  - injection E2 as <-. split; [done|]. split; [done|]. split; [done|]. intros k Hk.
    apply in_listed in Hk as (Hk & Hp & Ht). apply K1 in Hk.
    destruct (Hin k) as [Hr|(i & Hi & <-)]; [now apply in_listed| |auto]. now rewrite Hend in Hr.
  - destruct (IH _ _ I1 E2) as (I2 & M2 & K2 & Q2). split; [done|]. split; [auto|]. split; [auto|].
    intros k Hk. apply in_listed in Hk as (Hk & Hp & Ht). pose proof (K1 _ (K2 _ Hk)) as Hk0.
    destruct (Hin k) as [Hr|(i & Hi & <-)]; [now apply in_listed| |auto].
    apply Q2, in_listed. split; [done|]. split; [done|]. right.
    apply (sorted_rest_beyond (map oi_Key objs) rest); [|now apply Hlast|done].
    rewrite <- El. apply listed_sorted, objects_sorted.
Qed.
End Coverage.

(** *** Termination: each page but the last visits an object *)

Lemma each_plain fn objs (s : gst) :
  (forall info s, (fn info s).1 <> Fuel) -> (each fn objs s).1 <> Fuel.
Proof.
  intros Hfn. revert s. induction objs as [|info objs IH]; intros s; [done|]. cbn [each]. unfold mbind.
  pose proof (Hfn info s) as Hf. destruct (fn info s) as [[u|e|e|] s1]; try done; apply IH.
Qed.

Lemma hexDecode_plain l : hexDecode l <> Fuel.
Proof.
  enough (forall n l, (length l <= n)%nat -> hexDecode l <> Fuel) by eauto.
  clear l. intros n. induction n as [|n IH]; intros [|a [|c l]] Hl; simpl in *; try done; try lia.
  - now destruct (hexValue a).
  - destruct (hexValue a), (hexValue c); try done. specialize (IH l ltac:(lia)). now destruct (hexDecode l).
Qed.

Lemma listAll_terminates fn fuel prefix token (s : gst) :
  (forall info s, (fn info s).1 <> Fuel) ->
  (forall info s k, In k (keysOf (fn info s).2) -> In k (keysOf s)) ->
  (length (listed prefix token (be_objects (gc_backend s))) < fuel)%nat ->
  (listAll fuel prefix token fn s).1 <> Fuel.
Proof.
  intros Hfn Hk. revert token s. induction fuel as [|fuel IH]; intros token s Hl; [lia|]. cbn [listAll].
  destruct (be_list prefix token (gc_backend s)) as [[objs nextToken]|e|e|] eqn:E; try done.
  2:{ now apply list_plain in E. }
  unfold mbind. pose proof (each_plain fn objs s Hfn) as Hp.
  assert (K : forall k, In k (keysOf (each fn objs s).2) -> In k (keysOf s)).
  { apply (each_inv (fun s1 => forall k, In k (keysOf s1) -> In k (keysOf s))); [|auto].
    intros i s2 _ HP k Hi. eapply HP, Hk, Hi. }
  destruct (each fn objs s) as [[u|e|e|] s1]; try done.
  destruct nextToken as [|x nextToken]; [done|]. cbn [length Nat.eqb]. apply IH.
  apply list_page in E as (rest & El & _ & Hlast). specialize (Hlast ltac:(done)).
  rewrite El, length_app in Hl.
  assert (length (map oi_Key objs) <> 0%nat) by (destruct objs; [done|simpl; lia]).
  assert (length (listed prefix (x :: nextToken) (be_objects (gc_backend s1))) <= length rest)%nat; [|lia].
  apply NoDup_incl_length; [apply sorted_nodup, listed_sorted, objects_sorted|].
  intros k Hin. apply in_listed in Hin as (Hin & Hpre & [?|Hlt]); [done|].
  assert (Hs : StronglySorted blt (map oi_Key objs ++ rest)).
  { rewrite <- El. apply listed_sorted, objects_sorted. }
  assert (Hall : In k (map oi_Key objs ++ rest)).
  { rewrite <- El. apply in_listed. split; [now apply K|]. split; [done|].
    destruct token as [|y token]; [now left|right].
    assert (In (x :: nextToken) (listed prefix (y :: token) (be_objects (gc_backend s)))) as Hn.
    { rewrite El. apply in_or_app. left. apply last_Some in Hlast as [l ->]. apply in_or_app. right. now left. }
    apply in_listed in Hn as (_ & _ & [?|Hn]); [done|]. now apply (blt_trans _ (x :: nextToken)). }
  apply in_app_iff in Hall as [Hall|]; [exfalso|done].
  apply last_Some in Hlast as [l Hlast]. rewrite Hlast in Hs, Hall. apply StronglySorted_app_1_l in Hs.
  apply in_app_iff in Hall as [Hall|[<-|[]]]; [|now apply blt_irrefl in Hlt].
  apply (blt_irrefl k). apply (blt_trans _ (x :: nextToken)); [|done].
  apply (StronglySorted_app_1_elem_of _ _ _ _ _ Hs); [now apply list_elem_of_In|set_solver].
Qed.

(** *** Sweeping *)

Lemma sweep_step dry info (s : gst) :
  let s' := (sweepChunk dry info s).2 in
  gc_marked s' = gc_marked s /\
  (gc_backend s' = gc_backend s \/
   (oi_Key info ∉ gc_marked s /\ gc_backend s' = (be_delete (oi_Key info) (gc_backend s)).2)).
Proof.
  unfold sweepChunk. destruct (decide (oi_Key info ∈ gc_marked s)) as [|Hn]; [auto|].
  destruct dry; [auto|]. destruct (be_delete (oi_Key info) (gc_backend s)) as [[u|e|e|] b']; simpl; auto.
Qed.

(** A sweep, however it ends, changes no marked object and none outside
    data/. *)
Lemma sweep_keeps fuel dry token (s : gst) k :
  let s' := (listAll fuel dataPrefix token (sweepChunk dry) s).2 in
  k ∈ gc_marked s \/ hasPrefix dataPrefix k = false ->
  be_get k (gc_backend s') = be_get k (gc_backend s).
Proof.
  intros s' Hk. set (mk := gc_marked s) in *. set (b := gc_backend s).
  apply (listAll_inv (fun s => gc_marked s = mk /\ be_get k (gc_backend s) = be_get k b)); [|done].
  intros info s1 Hp [Hm Hg]. destruct (sweep_step dry info s1) as (M1 & [E|[Hn E]]); rewrite M1, E; [done|].
  split; [done|]. rewrite <- Hg. apply delete_other. intros ->. rewrite Hm in Hn.
  destruct Hk; [done|congruence].
Qed.

(** A successful sweep that is not a dry run leaves only marked keys. *)
Lemma sweep_complete fuel (s s' : gst) :
  listAll fuel dataPrefix [] (sweepChunk false) s = (Ok tt, s') ->
  gc_marked s' = gc_marked s /\
  forall k, In k (keysOf s') -> hasPrefix dataPrefix k = true -> k ∈ gc_marked s.
Proof.
  intros E.
  unshelve epose proof (listAll_covers (sweepChunk false) (fun s1 => gc_marked s1 = gc_marked s)
    (fun k s1 => k ∈ gc_marked s1 \/ ~ In k (keysOf s1)) _ _ _ _ _ _ _ E) as (E1 & _ & _ & Q); [|done|].
  - intros info s1 s2 HI Hs. pose proof (sweep_step false info s1) as Hst. rewrite Hs in Hst. simpl in Hst.
    destruct Hst as [M1 Hb].
    assert (K : forall k, In k (keysOf s2) -> In k (keysOf s1)).
    { intros k. destruct Hb as [->|[_ ->]]; [done|apply delete_keys]. }
    split; [congruence|]. split; [|split; [|done]].
    + unfold sweepChunk in Hs. destruct (decide (oi_Key info ∈ gc_marked s1)).
      { left. now rewrite M1. }
      right. pose proof (delete_gone (oi_Key info) (gc_backend s1)) as G.
      destruct (be_delete (oi_Key info) (gc_backend s1)) as [[u|e|e|] b']; try done.
      injection Hs as <-. simpl. now apply G.
    + intros k [Hk|Hk]; [left; congruence|right; auto].
  - split; [done|]. intros k Hk Hp. rewrite <- E1. destruct (Q k) as [?|Hn]; [|done|done].
    apply in_listed. auto.
Qed.

Lemma sweep_plain dry info (s : gst) : (sweepChunk dry info s).1 <> Fuel.
Proof.
  unfold sweepChunk. destruct (decide _); [done|]. destruct dry; [done|].
  pose proof (delete_plain (oi_Key info) (gc_backend s)) as D.
  now destruct (be_delete (oi_Key info) (gc_backend s)) as [[u|e|e|] b'].
Qed.
End Pages.

Section Collector.
  Context {B : Type} {BE : Backend B} {OS : ObjectStore B} {OL : ObjectStoreLaws B}.
  Context (marshal : Manifest -> option bytes) (unmarshal : bytes -> option Manifest)
          (edVerify : bytes -> bytes -> bytes -> bool) (publicKey : bytes).

Abbreviation gst := (gcState (B := B)).
Abbreviation load := (LoadManifest (B := B) marshal unmarshal edVerify).
Abbreviation mark := (markManifest (B := B) marshal unmarshal edVerify publicKey).

(** *** Marking *)

Lemma markKey_fold keys acc :
  let marked := (foldl markKey acc keys).1 in
  acc.1 ⊆ marked /\ (forall k, In k keys -> k <> [] -> k ∈ marked) /\
  (forall k, k ∈ marked -> k ∈ acc.1 \/ In k keys).
Proof.
  revert acc. induction keys as [|key keys IH]; intros [marked count]; simpl; [set_solver|].
  specialize (IH (markKey (marked, count) key)). destruct IH as (I1 & I2 & I3).
  assert (Hk : marked ⊆ (markKey (marked, count) key).1 /\ (key <> [] -> key ∈ (markKey (marked, count) key).1) /\
    (markKey (marked, count) key).1 ⊆ marked ∪ {[key]}).
  { unfold markKey. destruct key; simpl; [set_solver|]. destruct (decide _); simpl; set_solver. }
  destruct Hk as (K1 & K2 & K3). split; [set_solver|]. split.
  - intros k [<-|Hk] Hne; [|auto]. apply I1. auto.
  - intros k Hk. apply I3 in Hk as [Hk|Hk]; [|auto]. apply K3 in Hk. set_solver.
Qed.

(** Every chunk key of manifest [k] is marked, and marked keys belong to
    manifests that load. *)
Definition marks (b : B) (k : bytes) (s : gst) : Prop :=
  forall m key, load k publicKey b = Ok m -> In key (manifestKeys m) -> key <> [] -> key ∈ gc_marked s.

Definition referenced (b : B) (key : bytes) : Prop :=
  exists k m, load k publicKey b = Ok m /\ hasPrefix manifestsPrefix k = true /\ In key (manifestKeys m).

Lemma mark_step b info (s s' : gst) :
  gc_backend s = b -> mark info s = (Ok tt, s') ->
  gc_backend s' = b /\ marks b (oi_Key info) s' /\ gc_marked s ⊆ gc_marked s' /\
  (forall key, key ∈ gc_marked s' -> key ∈ gc_marked s \/
     exists m, load (oi_Key info) publicKey b = Ok m /\ In key (manifestKeys m)).
Proof.
  intros <-. unfold markManifest.
  destruct (load (oi_Key info) publicKey (gc_backend s)) as [m|e|e|] eqn:L; try done.
  pose proof (markKey_fold (manifestKeys m) (gc_marked s, gr_ReferencedChunks (gc_report s))) as F.
  destruct (foldl markKey _ _) as [marked count]. simpl in F. destruct F as (F1 & F2 & F3).
  intros [= <-]. simpl. split; [done|]. split; [|split; [done|]].
  - intros m' key L' Hin Hne. rewrite L in L'. injection L' as <-. auto.
  - intros key Hk. apply F3 in Hk as [Hk|Hk]; [now left|right]. now exists m.
Qed.

Lemma mark_backend b info (s : gst) : gc_backend s = b -> gc_backend (mark info s).2 = b.
Proof.
  intros <-. unfold markManifest. destruct (load _ _ _) as [m|e|e|]; try done.
  now destruct (foldl markKey _ _) as [marked count].
Qed.

(** After a successful marking pass the chunks of every listed manifest are
    marked. *)
Lemma marking_exact fuel b r s' :
  listAll fuel manifestsPrefix [] mark (mkGC b ∅ r) = (Ok tt, s') ->
  gc_backend s' = b /\
  (forall k m key, load k publicKey b = Ok m -> hasPrefix manifestsPrefix k = true -> be_hidden k = false ->
     In key (manifestKeys m) -> key <> [] -> key ∈ gc_marked s').
Proof.
  intros E.
  unshelve epose proof (listAll_covers mark (fun s => gc_backend s = b) (marks b) _ _ _ _ _ _ _ E)
    as (E1 & _ & _ & Q); [|done|].
  - intros info s s1 Hb Hm. destruct (mark_step b info s s1 Hb Hm) as (B1 & M1 & M2 & _).
    split; [done|]. split; [done|]. split; [|rewrite B1, Hb; auto].
    intros k Mk m key L Hin Hne. apply M2. now apply (Mk m).
  - split; [done|]. intros k m key L Hp Hh Hin Hne. apply (Q k) with m; auto.
    apply in_listed. rewrite E1. split; [|auto]. unfold LoadManifest in L.
    destruct (Nat.eqb (length k) 0); [done|]. apply obind_ok in L as (d & G & _). now apply get_stored in G.
Qed.

(** Marked keys come from manifests of the listing. *)
Lemma marked_referenced fuel b r token s :
  let s' := (listAll fuel manifestsPrefix token mark (mkGC b s r)).2 in
  (forall key, key ∈ s -> referenced b key) ->
  gc_backend s' = b /\ forall key, key ∈ gc_marked s' -> referenced b key.
Proof.
  intros s' Hs.
  apply (listAll_inv (fun s => gc_backend s = b /\ forall key, key ∈ gc_marked s -> referenced b key)); [|done].
  intros info s1 Hp [Hb Hr]. split; [now apply mark_backend|]. intros key Hk.
  destruct (mark info s1) as [r1 s2] eqn:E. simpl in Hk.
  assert (C : r1 = Ok tt \/ s2 = s1).
  { unfold markManifest in E. destruct (load _ _ _) as [m|?|?|]; try (injection E as <- <-; now right).
    destruct (foldl _ _ _). injection E as <- <-. now left. }
  destruct C as [->|Es]; [|subst s2; auto].
  destruct (mark_step b info s1 s2 Hb E) as (_ & _ & _ & M3). apply M3 in Hk as [Hk|(m & L & Hin)]; [auto|].
  exists (oi_Key info), m. auto.
Qed.

Lemma mark_plain info (s : gst) : (mark info s).1 <> Fuel.
Proof.
  unfold markManifest, LoadManifest. destruct (Nat.eqb _ 0); [done|].
  pose proof (get_plain (oi_Key info) (gc_backend s)) as G.
  destruct (be_get (oi_Key info) (gc_backend s)) as [d|e|e|]; try done. simpl.
  destruct (maxManifestBytes <? zlen d); [done|]. unfold Parse. destruct (unmarshal d) as [m|]; [|done].
  destruct (negb _); [done|]. simpl. unfold VerifySignature, CanonicalJSON. destruct (negb _); [done|].
  destruct (mf_Signature m) as [sg|]; [|done]. destruct (negb _); [done|].
  pose proof (hexDecode_plain (sg_Value sg)) as HD. destruct (hexDecode (sg_Value sg)); try done. simpl.
  destruct (marshal _); [|done]. simpl. destruct (negb _); [done|]. simpl. now destruct (foldl _ _ _).
Qed.

End Collector.

(** ** Theorems *)

Lemma manifests_not_data k : hasPrefix manifestsPrefix k = true -> hasPrefix dataPrefix k = false.
Proof.
  unfold hasPrefix. rewrite beqb_eq. intros E. destruct (beqb _ _) eqn:F; [|done]. apply beqb_eq in F.
  destruct k as [|x k]; [done|]. vm_compute in E, F. congruence.
Qed.

Section Main.
  Context {B : Type} {BE : Backend B} {OS : ObjectStore B} {OL : ObjectStoreLaws B}.
  Context (marshal marshalIndent : Manifest -> option bytes) (unmarshal : bytes -> option Manifest)
          (edSign : bytes -> bytes -> bytes) (edVerify : bytes -> bytes -> bytes -> bool).

Abbreviation load := (LoadManifest (B := B) marshal unmarshal edVerify).
Abbreviation collect := (GarbageCollect (B := B) marshal unmarshal edVerify).

Lemma load_ext k pk (b b' : B) : be_get k b' = be_get k b -> load k pk b' = load k pk b.
Proof. intros E. unfold LoadManifest. now rewrite E. Qed.

(** The backend after a collection, by the result of the marking pass. *)
Lemma collect_cases fuel pk dry (b : B) :
  let s1 := (listAll fuel manifestsPrefix [] (markManifest marshal unmarshal edVerify pk)
               (mkGC b ∅ (mkGCReport 0 0 0 0 0 []))) in
  gc_backend s1.2 = b /\
  ((is_ok s1.1 = false /\ collect fuel pk dry b = (s1.1, s1.2)) \/
   (s1.1 = Ok tt /\ collect fuel pk dry b = listAll fuel dataPrefix [] (sweepChunk dry) s1.2)).
Proof.
  intros s1. split.
  - apply (marked_referenced marshal unmarshal edVerify pk fuel b _ [] ∅). set_solver.
  - unfold GarbageCollect, mbind. fold s1. destruct s1 as [[[]|e|e|] s]; simpl; auto.
Qed.

(** However a collection ends (also when a listing, a manifest or a deletion
    fails half-way), every manifest that loaded before still loads, unchanged,
    and every chunk it refers to reads as before. *)
Lemma collect_keeps fuel pk dry (b : B) k m :
  load k pk b = Ok m -> hasPrefix manifestsPrefix k = true -> be_hidden k = false ->
  let b' := gc_backend (collect fuel pk dry b).2 in
  load k pk b' = Ok m /\ (forall key, In key (manifestKeys m) -> be_get key b' = be_get key b).
Proof.
  intros L Hp Hh b'. subst b'. destruct (collect_cases fuel pk dry b) as [Hb [[_ ->]|[Hok ->]]]; simpl.
  { rewrite Hb. auto. }
  destruct (listAll fuel manifestsPrefix [] _ _) as [r1 s1] eqn:E. simpl in *. subst r1.
  destruct (marking_exact marshal unmarshal edVerify pk _ _ _ _ E) as [_ Hmark].
  assert (K : forall key, key ∈ gc_marked s1 \/ hasPrefix dataPrefix key = false ->
    be_get key (gc_backend (listAll fuel dataPrefix [] (sweepChunk dry) s1).2) = be_get key b).
  { intros key Hk. rewrite <- Hb. now apply sweep_keeps. }
  split.
  - rewrite <- L. apply load_ext, K. right. now apply manifests_not_data.
  - intros key Hin. apply K. destruct key as [|x key]; [now right|left]. now apply (Hmark k m).
Qed.

Lemma collect_sweeps fuel pk (b : B) :
  (length (be_objects b) < fuel)%nat ->
  (collect fuel pk false b).1 <> Fuel /\
  ((collect fuel pk false b).1 = Ok tt ->
   forall k, In k (map fst (be_objects (gc_backend (collect fuel pk false b).2))) ->
     hasPrefix dataPrefix k = true -> referenced marshal unmarshal edVerify pk b k).
Proof.
  intros Hf.
  assert (Hlen : forall prefix, (length (listed prefix [] (be_objects b)) < fuel)%nat).
  { intros prefix. unfold listed. rewrite <- (length_map fst) in Hf.
    eapply Nat.le_lt_trans; [apply filter_length_le|exact Hf]. }
  destruct (collect_cases fuel pk false b) as [Hb [[Hno E]|[Hok E]]]; rewrite E; simpl.
  - split; [|intros Hok; rewrite Hok in Hno; done].
    apply listAll_terminates; [intros; apply mark_plain| |apply Hlen]. intros info s k Hk.
    now rewrite (mark_backend marshal unmarshal edVerify pk (gc_backend s) info s eq_refl) in Hk.
  - pose proof (marked_referenced marshal unmarshal edVerify pk fuel b (mkGCReport 0 0 0 0 0 []) [] ∅
      ltac:(set_solver)) as [_ Href].
    destruct (listAll fuel manifestsPrefix [] _ _) as [r1 s1]. simpl in *. subst b. split.
    + apply listAll_terminates; [intros; apply sweep_plain| |apply Hlen]. intros info s k Hk.
      destruct (sweep_step false info s) as [_ [Eq|[_ Eq]]]; rewrite Eq in Hk; [done|now apply delete_keys in Hk].
    + destruct (listAll fuel dataPrefix [] _ s1) as [r2 s2] eqn:E2. simpl. intros -> k Hk Hp.
      destruct (sweep_complete _ _ _ E2) as [_ Hs]. apply Href. now apply Hs.
Qed.

(** Garbage collection ends, with as many page requests as there are
    objects at most, and when it succeeds (and is not a dry run) the only
    objects left under data/ are chunks some committed manifest refers to. *)
Theorem gc_sweeps_all fuel pk (b : B) :
  (length (be_objects b) < fuel)%nat ->
  (collect fuel pk false b).1 <> Fuel /\
  ((collect fuel pk false b).1 = Ok tt ->
   forall k, In k (map fst (be_objects (gc_backend (collect fuel pk false b).2))) ->
     hasPrefix dataPrefix k = true -> referenced marshal unmarshal edVerify pk b k).
Proof. apply collect_sweeps. Qed.
End Main.
