(* ===== verification/LocalStore.v ===== *)
(** * The local backend as an object store

    [List] of src/internal/storage/local/local.go over the files below the
    root, given as a map from key to contents, discharges the interface of
    the repository. Entity tags and modification times are not modelled. *)

From Stdlib Require Import String.
From S2P Require Import Prelude KvNode KvMap ChunkHash Core Calendar GoStrings Envelope FastCDC ChunkIndex Pipeline PipelineProofs Manifest Repository.
Local Open Scope Z_scope.

Definition defaultPageSize : nat := 1000.

Definition hasSuffix (suffix key : bytes) : bool := hasPrefix (reverse suffix) (reverse key).

(** Lock and temporary files. *)
Definition hiddenName (key : bytes) : bool :=
  hasSuffix (list_byte_of_string ".lock") key || hasSuffix (list_byte_of_string ".tmp") key.

Definition keyLess (a b : bytes * bytes) : bool := bltb a.1 b.1.

(** The walk below the root, in key order. *)
Definition walkFiles (files : gmap bytes bytes) : kvs :=
  sort_by keyLess (List.filter (fun f => negb (hiddenName f.1)) (map_to_list files)).

Definition listLocal (prefix token : bytes) (files : gmap bytes bytes) : outcome (list ObjectInfo * bytes) :=
  let objects :=
    map (fun f => mkObjectInfo f.1 (zlen f.2) [] 0)
      (List.filter (fun f => hasPrefix prefix f.1 && (beqb token [] || bltb token f.1)) (walkFiles files)) in
  if (length objects <=? defaultPageSize)%nat then Ok (objects, [])
  else match objects !! (defaultPageSize - 1)%nat with
       | Some o => Ok (take defaultPageSize objects, oi_Key o)
       | None => Panic "index out of range"
       end.

#[export] Instance localStore : ObjectStore (gmap bytes bytes) := {
  be_objects := walkFiles;
  be_hidden := hiddenName;
  be_delete k files := (Ok tt, delete k files);
  be_list := listLocal
}.

(** ** The laws *)

Lemma in_walkFiles files k :
  In k (map fst (walkFiles files)) <-> is_Some (files !! k) /\ hiddenName k = false.
Proof.
  unfold walkFiles. rewrite in_map_iff. split.
  - intros ([k' v] & <- & Hin). apply sort_by_in, filter_In in Hin as [Hin Hh].
    apply list_elem_of_In, elem_of_map_to_list in Hin. simpl in *. rewrite Hin.
    split; [done|]. now destruct (hiddenName k').
  - intros [[v Hv] Hh]. exists (k, v). split; [done|]. apply sort_by_in, filter_In.
    split; [now apply list_elem_of_In, elem_of_map_to_list|]. simpl. now rewrite Hh.
Qed.

Lemma nodup_filter_map {A C} (f : A -> C) (g : A -> bool) l :
  NoDup (map f l) -> NoDup (map f (List.filter g l)).
Proof.
  induction l as [|x l IH]; simpl; [done|]. rewrite NoDup_cons. intros [Hn Hd].
  destruct (g x); simpl; [|auto]. apply NoDup_cons. split; [|auto]. intros Hin. apply Hn.
  apply list_elem_of_In, in_map_iff in Hin as (y & E & Hy). apply filter_In in Hy as [Hy _].
  apply list_elem_of_In, in_map_iff. eauto.
Qed.

Lemma walkFiles_sorted files : kv_sorted (walkFiles files).
Proof.
  unfold walkFiles. set (l := List.filter _ _).
  assert (Hnd : NoDup (map fst l)) by apply nodup_filter_map, NoDup_fst_map_to_list.
  assert (Hs : StronglySorted (fun a b => keyLess b a = false) (sort_by keyLess l)).
  { apply sort_by_sorted; unfold keyLess.
    - intros x. apply bltb_nlt, blt_irrefl.
    - intros x y z L1 L2. apply bltb_lt in L1, L2. apply bltb_lt. now apply (blt_trans _ y.1).
    - intros x y z N1 N2. apply bltb_nlt in N1, N2. apply bltb_nlt. intros L.
      destruct (blt_trichotomy x.1 y.1) as [?|[E|?]]; [done|rewrite E in L; done|].
      apply N2. now apply (blt_trans _ x.1). }
  assert (Hnd' : NoDup (map fst (sort_by keyLess l))).
  { change (NoDup (fst <$> sort_by keyLess l)). rewrite (sort_by_perm keyLess l). exact Hnd. }
  induction Hs as [|x r Hs IH Hf]; [constructor|]. simpl in Hnd'. apply NoDup_cons in Hnd' as [Hn Hd].
  constructor; [now apply IH|]. apply Forall_forall. rewrite Forall_forall in Hf. intros y Hy. specialize (Hf y Hy).
  unfold keyLess in Hf. apply bltb_nlt in Hf. unfold kv_lt.
  destruct (blt_trichotomy x.1 y.1) as [?|[E|?]]; [done| |done].
  exfalso. apply Hn. rewrite E. now apply list_elem_of_fmap_2.
Qed.

Lemma listed_filter prefix token (m : kvs) :
  listed prefix token m =
  map fst (List.filter (fun f => hasPrefix prefix f.1 && (beqb token [] || bltb token f.1)) m).
Proof.
  unfold listed. induction m as [|f m IH]; simpl; [done|]. destruct (_ && _); simpl; now rewrite IH.
Qed.

Lemma listLocal_page prefix token files objs nextToken :
  listLocal prefix token files = Ok (objs, nextToken) ->
  exists rest, listed prefix token (walkFiles files) = map oi_Key objs ++ rest /\
    (nextToken = [] -> rest = []) /\ (nextToken <> [] -> last (map oi_Key objs) = Some nextToken).
Proof.
  unfold listLocal. rewrite listed_filter. set (sel := List.filter _ _).
  set (objects := map (fun f => mkObjectInfo f.1 (zlen f.2) [] 0) sel).
  assert (E : map fst sel = map oi_Key objects) by (subst objects; now rewrite map_map).
  rewrite E. destruct (Nat.leb_spec (length objects) defaultPageSize) as [L|L].
  { intros [= <- <-]. exists []. rewrite app_nil_r. repeat split; auto. intros Hne. now destruct Hne. }
  destruct (objects !! (defaultPageSize - 1)%nat) as [o|] eqn:Ho; [|done]. intros [= <- <-].
  exists (map oi_Key (drop defaultPageSize objects)). rewrite <- map_app, take_drop. split; [done|].
  assert (Hlast : last (map oi_Key (take defaultPageSize objects)) = Some (oi_Key o)).
  { rewrite last_lookup, length_map, length_take, Nat.min_l by lia. rewrite list_lookup_fmap.
    rewrite lookup_take_lt by (unfold defaultPageSize; lia).
    replace (pred defaultPageSize) with (defaultPageSize - 1)%nat by (unfold defaultPageSize; lia).
    now rewrite Ho. }
  split; [|done]. intros Hz. exfalso.
  assert (Hs : StronglySorted blt (map oi_Key objects)).
  { rewrite <- E. subst sel. rewrite <- listed_filter. apply listed_sorted, walkFiles_sorted. }
  clearbody objects. clear E Hlast. destruct objects as [|o0 tl]; [done|].
  simpl in Hs. apply StronglySorted_inv in Hs as [_ Hf]. rewrite Forall_forall in Hf.
  assert (Hb : blt (oi_Key o0) (oi_Key o)).
  { apply Hf. change (defaultPageSize - 1)%nat with (Datatypes.S 998) in Ho. simpl in Ho.
    apply list_elem_of_fmap_2. now apply list_elem_of_lookup_2 in Ho. }
  rewrite Hz in Hb. unfold blt in Hb. destruct (oi_Key o0); done.
Qed.

#[export] Instance localStoreLaws : ObjectStoreLaws (gmap bytes bytes).
Proof.
  split; try done.
  - exact walkFiles_sorted.
  - intros k b v Hg Hh. apply in_walkFiles. split; [|done]. simpl in Hg. now destruct (b !! k).
  - intros k k' b Hne. simpl. now rewrite lookup_delete_ne.
  - intros k k' b Hin. apply in_walkFiles in Hin as [[v Hv] Hh]. apply in_walkFiles. simpl in Hv.
    apply lookup_delete_Some in Hv as [_ Hv]. eauto.
  - intros k b _ Hin. apply in_walkFiles in Hin as [[v Hv] _]. simpl in Hv.
    now rewrite lookup_delete_eq in Hv.
  - intros k b. simpl. now destruct (b !! k).
  - intros prefix token b. unfold be_list, localStore, listLocal. destruct (_ <=? _)%nat; [done|].
    now destruct (_ !! _).
  - exact listLocal_page.
Qed.
