(* ===== verification/BackupSafety.v ===== *)
(** * From the pipeline to the repository and back

    The end-to-end statements over the pipeline, the manifest, the
    repository and the local store: a committed backup is restored byte for
    byte after any garbage collection; a collection between the upload and
    the commit destroys a backup that is then committed. *)

From Stdlib Require Import String.
From S2P Require Import Prelude KvNode KvMap ChunkHash Core Calendar GoStrings Envelope FastCDC ChunkIndex Pipeline PipelineProofs Manifest Repository LocalStore.
Local Open Scope Z_scope.

Lemma sort_by_sorted_id {A} (less : A -> A -> bool) l :
  StronglySorted (fun a b => less b a = false) l -> sort_by less l = l.
Proof.
  induction 1 as [|x l Hs IH Hf]; simpl; [done|]. rewrite IH. destruct l as [|y l]; [done|]. simpl.
  apply Forall_cons in Hf as [Hf _]. now rewrite Hf.
Qed.

Section Safety.
  Context (hashBytes : bytes -> bytes) (gzip zstd : Compressor).
  Context {B : Type} {BE : Backend B} {BL : BackendLaws B} {OS : ObjectStore B} {OL : ObjectStoreLaws B}.
  Context (marshal marshalIndent : Manifest -> option bytes) (unmarshal : bytes -> option Manifest)
          (edSign : bytes -> bytes -> bytes) (edVerify : bytes -> bytes -> bytes -> bool).

(** [Restore] reads nothing but the objects of the references. *)
Definition same_source (b b' : B) (r r' : ChunkRef) : Prop :=
  cr_hash r' = cr_hash r /\ cr_key r' = cr_key r /\ cr_size r' = cr_size r /\
  cr_compression r' = cr_compression r /\ be_get (cr_key r) b' = be_get (cr_key r) b.

Lemma restore_loop_same p cipher (b b' : B) refs refs' st out :
  Forall2 (same_source b b') refs refs' ->
  restore_loop hashBytes gzip zstd p cipher b' refs' st out =
  restore_loop hashBytes gzip zstd p cipher b refs st out.
Proof.
  intros F. revert st out. induction F as [|r r' refs refs' (E1 & E2 & E3 & E4 & E5) F IH]; intros st out; [done|].
  assert (E : restoreChunk hashBytes gzip zstd p cipher b' r' = restoreChunk hashBytes gzip zstd p cipher b r).
  { unfold restoreChunk. now rewrite E1, E2, E3, E4, E5. }
  cbn [restore_loop]. rewrite E. destruct (restoreChunk _ _ _ p cipher b r) as [[z|e|e|] data]; auto.
Qed.

Lemma renumber_sorted refs i :
  StronglySorted (fun a b => ref_less b a = false)
    (imap (fun k ref => renumber (i + Z.of_nat k) ref) refs).
Proof.
  revert i. induction refs as [|ref refs IH]; intros i; [constructor|]. rewrite imap_cons.
  rewrite (imap_ext _ (fun k ref => renumber (i + 1 + Z.of_nat k) ref)).
  2:{ intros k x _. simpl. f_equal. lia. }
  constructor; [apply IH|]. apply Forall_forall. intros y Hy.
  apply elem_of_lookup_imap in Hy as (k & x & -> & _). apply Z.ltb_ge. cbn [cr_seq renumber]. lia.
Qed.

Lemma restore_same p (b b' : B) refs :
  StronglySorted (fun x y => ref_less y x = false) refs ->
  Forall (fun r => be_get (cr_key r) b' = be_get (cr_key r) b) refs ->
  Restore hashBytes gzip zstd p b' (imap (fun k ref => renumber (0 + Z.of_nat k) ref) refs) =
  Restore hashBytes gzip zstd p b refs.
Proof.
  intros Hs Hg. unfold Restore. destruct (pl_cipher p) as [cipher|]; [|done].
  rewrite !sort_by_sorted_id; [|done|apply renumber_sorted]. apply restore_loop_same. clear Hs.
  generalize 0. induction Hg as [|r refs Hr Hg IH]; intros i; [constructor|]. rewrite imap_cons. constructor.
  - repeat split; auto.
  - rewrite (imap_ext _ (fun k ref => renumber (i + 1 + Z.of_nat k) ref)); [apply IH|].
    intros k x _. simpl. f_equal. lia.
Qed.

(** A committed manifest loads. *)
Lemma commit_loads clock refs st opts (b : B) m key b2 pk :
  CommitManifest marshal marshalIndent edSign clock refs st opts b = (Ok (m, key), b2) ->
  (forall d, marshalIndent m = Some d -> unmarshal d = Some m /\ zlen d <= maxManifestBytes) ->
  (forall msg, edVerify pk msg (edSign (co_PrivateKey opts) msg) = true) -> zlen pk = 32 ->
  LoadManifest marshal unmarshal edVerify key pk b2 = Ok m /\
  mf_Objects m = [mkMObject "" "stream" (map ChunkFromPipeline refs)] /\
  hasPrefix manifestsPrefix key = true /\
  (forall k, k <> key -> be_get k b2 = be_get k b).
Proof.
  unfold CommitManifest. destruct (String.eqb _ _); [done|]. destruct (String.eqb _ _); [done|].
  intros E Hj He Hpk. apply mbind_ok in E as (m' & s1 & E1 & E). unfold mlift in E1. injection E1 as E1 <-.
  apply mbind_ok in E as (d & s2 & E2 & E). unfold mlift in E2. injection E2 as E2 <-.
  apply mbind_ok in E as (i & s3 & E3 & E). injection E as <- <- <-.
  unfold Marshal in E2. destruct (marshalIndent m') as [d'|] eqn:Ed; [|done]. injection E2 as <-.
  destruct (Hj d' eq_refl) as [Hu Hz]. unfold Sign in E1. destruct (negb _); [done|].
  apply obind_ok in E1 as (canonical & Hc & E1). injection E1 as <-.
  split; [|split; [done|split; [done|]]].
  - unfold LoadManifest. cbn [Nat.eqb length]. change (Nat.eqb (length _) 0) with false. cbv iota.
    rewrite (put_get _ _ _ _ _ E3). simpl. replace (maxManifestBytes <? zlen d') with false by lia.
    unfold Parse. rewrite Hu. simpl. unfold VerifySignature. rewrite Hpk. simpl.
    rewrite hexDecode_encode. simpl. unfold CanonicalJSON in *.
    change (withSignature (withSignature (buildManifest refs st opts) _) None)
      with (withSignature (buildManifest refs st opts) None).
    destruct (marshal _) as [c|]; [|done]. injection Hc as ->. simpl. now rewrite He.
  - intros k Hk. now apply (put_other _ _ _ _ _ _ E3).
Qed.

Lemma contentKey_data h : hasPrefix dataPrefix (contentKey h) = true.
Proof. unfold hasPrefix, contentKey. now apply beqb_eq. Qed.


(** The writer of manifests has no size limit, the reader has one: a larger
    manifest is committed and can then not be loaded. *)
Lemma oversized_manifest_unloadable clock refs st opts (b : B) m key b2 pk doc :
  CommitManifest marshal marshalIndent edSign clock refs st opts b = (Ok (m, key), b2) ->
  marshalIndent m = Some doc -> maxManifestBytes < zlen doc ->
  LoadManifest marshal unmarshal edVerify key pk b2 = Err "manifest exceeds the size limit".
Proof.
  unfold CommitManifest. destruct (String.eqb _ _); [done|]. destruct (String.eqb _ _); [done|].
  intros E Ed Hz. apply mbind_ok in E as (m' & s1 & E1 & E). unfold mlift in E1. injection E1 as E1 <-.
  apply mbind_ok in E as (d & s2 & E2 & E). unfold mlift in E2. injection E2 as E2 <-.
  apply mbind_ok in E as (i & s3 & E3 & E). injection E as <- <- <-.
  unfold Marshal in E2. rewrite Ed in E2. injection E2 as <-.
  unfold LoadManifest. change (Nat.eqb (length _) 0) with false. cbv iota.
  rewrite (put_get _ _ _ _ _ E3). simpl. now replace (maxManifestBytes <? zlen doc) with true by lia.
Qed.
(** ** Collecting between the upload and the commit *)

Lemma restore_loop_missing p cipher (b : B) refs st out ref :
  ref ∈ refs -> is_ok (be_get (cr_key ref) b) = false ->
  is_ok (restore_loop hashBytes gzip zstd p cipher b refs st out).1 = false.
Proof.
  intros Hin Hg. revert st out. induction refs as [|r refs IH]; intros st out; [set_solver|].
  cbn [restore_loop]. apply elem_of_cons in Hin as [<-|Hin].
  - unfold restoreChunk. destruct (_ =? 0)%nat; [done|].
    destruct (be_get (cr_key ref) b); done.
  - destruct (restoreChunk _ _ _ p cipher b r) as [[z|e|e|] data]; auto.
Qed.

(** C34: the window between the upload and the commit: the chunks of a run
    that no committed manifest refers to yet are garbage to the collector. If
    a collection succeeds between the last upload and the commit of the
    manifest, then the commit succeeds too and the manifest loads, but the
    backup cannot be restored. *)
Theorem gc_before_commit_loses_backup p cipher r d d' (b b1 b3 : B) refs st clock opts m key pk fuel :
  cdc_ok (pl_chunker p) -> regular r -> zlen (content r) < 2 ^ 63 -> content r <> [] ->
  environment_ok hashBytes gzip zstd p cipher r d b ->
  Feed hashBytes p r d b (Ok (refs, st)) d' b1 ->
  Forall (fun ref => be_hidden (cr_key ref) = false /\
    ~ referenced marshal unmarshal edVerify pk b1 (cr_key ref)) refs ->
  (length (be_objects b1) < fuel)%nat ->
  (GarbageCollect marshal unmarshal edVerify fuel pk false b1).1 = Ok tt ->
  let b2 := gc_backend (GarbageCollect marshal unmarshal edVerify fuel pk false b1).2 in
  CommitManifest marshal marshalIndent edSign clock refs st opts b2 = (Ok (m, key), b3) ->
  (forall doc, marshalIndent m = Some doc -> unmarshal doc = Some m /\ zlen doc <= maxManifestBytes) ->
  (forall msg, edVerify pk msg (edSign (co_PrivateKey opts) msg) = true) -> zlen pk = 32 ->
  LoadManifest marshal unmarshal edVerify key pk b3 = Ok m /\
  exists o refs', mf_Objects m = [o] /\ PipelineRefs (mo_Chunks o) = Ok refs' /\
    is_ok (Restore hashBytes gzip zstd p b3 refs').1 = false.
Proof.
  intros Hc Hr Hsz Hne Henv Hfeed Horphan Hfuel Hgc b2 Hcommit Hj He Hpk.
  destruct (feed_refs_ok hashBytes gzip zstd p cipher r d d' b b1 refs st Hc Hr Hsz Henv Hfeed)
    as ((st' & Hres) & Hrefs & _).
  destruct (commit_loads _ _ _ _ _ _ _ _ _ Hcommit Hj He Hpk) as (Hload & Hobj & Hpre & Hother).
  split; [done|]. eexists _, _. split; [exact Hobj|]. split.
  { apply refs_loop_from_pipeline. eapply Forall_impl; [exact Hrefs|]. now intros ref [_ Hh]. }
  unfold Restore in *. destruct (pl_cipher p) as [ci|]; [|done].
  destruct refs as [|ref refs]; [simpl in Hres; congruence|].
  apply Forall_cons in Hrefs as [[Hk Hh] _]. apply Forall_cons in Horphan as [[Hhid Hnr] _].
  eapply (restore_loop_missing _ _ _ _ _ _ (renumber 0 ref)).
  - apply list_elem_of_In, sort_by_in. rewrite imap_cons. now left.
  - cbn [renumber cr_key]. rewrite Hother.
    2:{ intros E. apply manifests_not_data in Hpre. now rewrite <- E, Hk, contentKey_data in Hpre. }
    destruct (collect_sweeps marshal unmarshal edVerify fuel pk b1 Hfuel) as [_ Hsweep].
    destruct (be_get (cr_key ref) b2) as [v|e|e|] eqn:Hg; [|done..]. exfalso. apply Hnr.
    apply Hsweep; [done| |rewrite Hk; apply contentKey_data]. now apply (get_stored _ _ _ Hg).
Qed.
End Safety.

(** ** A concrete repository

    The local store, a document format that holds the backup identifier, and
    a signature scheme that signs with a tag. *)

Definition toyOptions : CommitOptions :=
  mkCommitOptions "b1" "orders" (mkMDriver "postgres" "1" "") "full" None 0 0
    (mkMEncryption "chacha20-poly1305" "k" "") (replicate 64 Byte.x07).

Definition toyStats : Stats := foldl addRef noStats [toy_ref].
Definition toyMarshal (m : Manifest) : option bytes := Some (list_byte_of_string (mf_BackupID m)).
Definition toySign (priv msg : bytes) : bytes := Byte.xaa :: msg.
Definition toyVerify (pub msg sig : bytes) : bool := beqb sig (Byte.xaa :: msg).

Definition toyManifest : Manifest :=
  match Sign toyMarshal toySign (buildManifest [toy_ref] toyStats toyOptions) (co_PrivateKey toyOptions) with
  | Ok m => m
  | _ => buildManifest [] toyStats toyOptions
  end.

Definition toyUnmarshal (doc : bytes) : option Manifest :=
  if beqb doc (list_byte_of_string "b1") then Some toyManifest else None.

Definition toyPublic : bytes := replicate 32 Byte.x08.
Definition toyKey : bytes := manifestKey 0 0 "b1".
Abbreviation toyCommit := (CommitManifest toyMarshal toyMarshal toySign 0 [toy_ref] toyStats toyOptions).
Abbreviation toyCollect := (GarbageCollect (B := gmap bytes bytes) toyMarshal toyUnmarshal toyVerify).
Abbreviation toyLoad := (LoadManifest (B := gmap bytes bytes) toyMarshal toyUnmarshal toyVerify).

Lemma toy_document doc :
  toyMarshal toyManifest = Some doc -> toyUnmarshal doc = Some toyManifest /\ zlen doc <= maxManifestBytes.
Proof. intros [= <-]. split; [reflexivity|vm_compute; discriminate]. Qed.

Lemma toy_signature msg : toyVerify toyPublic msg (toySign (co_PrivateKey toyOptions) msg) = true.
Proof. now apply beqb_eq. Qed.

Definition toyCommitted : gmap bytes bytes := (toyCommit (snd toy_upload)).2.

Lemma toy_commits b : toyCommit b = (Ok (toyManifest, toyKey), (toyCommit b).2).
Proof.
  unfold CommitManifest. simpl String.eqb. cbv iota.
  replace (Sign _ _ _ _) with (Ok toyManifest) by (vm_compute; reflexivity). reflexivity.
Qed.


(** No manifest is committed yet in the store after the upload. *)
Lemma toy_orphan key : ~ referenced toyMarshal toyUnmarshal toyVerify toyPublic (snd toy_upload) key.
Proof.
  intros (k & m & L & Hp & _). unfold LoadManifest in L. destruct (Nat.eqb _ 0); [done|].
  change (snd toy_upload) with (<[cr_key toy_ref := ec_payload toy_encoded]> (∅ : gmap bytes bytes)) in L.
  simpl in L. rewrite lookup_insert_ne in L; [now rewrite lookup_empty in L|].
  intros <-. apply manifests_not_data in Hp. vm_compute in Hp. discriminate.
Qed.

Definition toySwept : gmap bytes bytes := gc_backend (toyCollect 5%nat toyPublic false (snd toy_upload)).2.

Lemma gc_before_commit_loses_backup_witness :
  toyLoad toyKey toyPublic (toyCommit toySwept).2 = Ok toyManifest /\
  exists o refs', mf_Objects toyManifest = [o] /\ PipelineRefs (mo_Chunks o) = Ok refs' /\
    is_ok (Restore padHash noneCompressor noneCompressor toyPipeline (toyCommit toySwept).2 refs').1 = false.
Proof.
  apply (gc_before_commit_loses_backup padHash noneCompressor noneCompressor toyMarshal toyMarshal
           toyUnmarshal toySign toyVerify toyPipeline toyCipher toyInput (DSeen ∅)
           (DSeen (∅ ∪ {[ padHash (pc_data toy_chunk) ]})) ∅ (snd toy_upload) (toyCommit toySwept).2 [toy_ref]
           toyStats 0 toyOptions toyManifest toyKey toyPublic 5%nat).
  - unfold cdc_ok. simpl. lia.
  - reflexivity.
  - vm_compute. reflexivity.
  - discriminate.
  - exact toy_env.
  - exact toy_run.
  - constructor; [|constructor]. split; [vm_compute; reflexivity|apply toy_orphan].
  - vm_compute. lia.
  - vm_compute. reflexivity.
  - apply toy_commits.
  - exact toy_document.
  - exact toy_signature.
  - reflexivity.
Defined.

Lemma gc_sweeps_all_witness :
  (toyCollect 5%nat toyPublic false toyCommitted).1 <> Fuel /\
  ((toyCollect 5%nat toyPublic false toyCommitted).1 = Ok tt ->
   forall k, In k (map fst (be_objects (gc_backend (toyCollect 5%nat toyPublic false toyCommitted).2))) ->
     hasPrefix dataPrefix k = true ->
     referenced toyMarshal toyUnmarshal toyVerify toyPublic toyCommitted k).
Proof. apply (gc_sweeps_all toyMarshal toyUnmarshal toyVerify 5%nat toyPublic toyCommitted). vm_compute. lia. Defined.
