(* ===== verification/GoText.v ===== *)
(** * More string routines of Go

    strings.HasPrefix, HasSuffix, TrimSuffix, Cut, Contains and EqualFold on
    ASCII text, the white space of strings.TrimSpace, and the base64 codecs of
    encoding/base64 without padding. *)

From Stdlib Require Import Ascii String.
From S2P Require Import Prelude ChunkHash Core GoStrings.
Local Open Scope Z_scope.
#[local] Arguments String.append !_ _ / : simpl nomatch.

Fixpoint HasPrefix (s p : string) : bool :=
  match p, s with
  | EmptyString, _ => true
  | String c p, String d s => Ascii.eqb c d && HasPrefix s p
  | String _ _, EmptyString => false
  end.

Fixpoint HasSuffix (s suffix : string) : bool :=
  String.eqb s suffix ||
  match s with
  | EmptyString => false
  | String _ r => HasSuffix r suffix
  end.

Fixpoint TrimSuffix (s suffix : string) : string :=
  if String.eqb s suffix then EmptyString
  else match s with
       | EmptyString => EmptyString
       | String c r => String c (TrimSuffix r suffix)
       end.

(** [s] without its first [len p] characters, when it starts with [p]. *)
Fixpoint dropString (n : nat) (s : string) : string :=
  match n, s with
  | S n, String _ r => dropString n r
  | _, _ => s
  end.

Definition TrimPrefix (s p : string) : string :=
  if HasPrefix s p then dropString (String.length p) s else s.

(** strings.Cut(s, sep) for a one-byte separator. *)
Fixpoint Cut (sep : ascii) (s : string) : string * string * bool :=
  match s with
  | EmptyString => (EmptyString, EmptyString, false)
  | String c r =>
      if Ascii.eqb c sep then (EmptyString, r, true)
      else let '(before, after, found) := Cut sep r in (String c before, after, found)
  end.

Fixpoint Contains (s sub : string) : bool :=
  HasPrefix s sub || match s with EmptyString => false | String _ r => Contains r sub end.

Definition EqualFold (a b : string) : bool := String.eqb (ToLower a) (ToLower b).

Fixpoint ReplaceByte (old new : ascii) (s : string) : string :=
  match s with
  | EmptyString => EmptyString
  | String c r => String (if Ascii.eqb c old then new else c) (ReplaceByte old new r)
  end.

Definition upperAscii (c : ascii) : ascii :=
  let n := nat_of_ascii c in
  if ((97 <=? n) && (n <=? 122))%nat then ascii_of_nat (n - 32) else c.

Fixpoint ToUpper (s : string) : string :=
  match s with
  | EmptyString => EmptyString
  | String c r => String (upperAscii c) (ToUpper r)
  end.

(** strings.ReplaceAll(s, old, new) for a one-byte [old]. *)
Fixpoint ReplaceAll (old : ascii) (new : string) (s : string) : string :=
  match s with
  | EmptyString => EmptyString
  | String c r => if Ascii.eqb c old then (new ++ ReplaceAll old new r)%string else String c (ReplaceAll old new r)
  end.

(** strings.Join. *)
Fixpoint Join (elems : list string) (sep : string) : string :=
  match elems with
  | [] => EmptyString
  | [s] => s
  | s :: rest => (s ++ sep ++ Join rest sep)%string
  end.

Definition concatAll (l : list string) : string := fold_right String.append EmptyString l.

Fixpoint noByte (sep : ascii) (s : string) : bool :=
  match s with
  | EmptyString => true
  | String c r => negb (Ascii.eqb c sep) && noByte sep r
  end.

(** ** Lemmas *)

Lemma HasPrefix_spec s p : HasPrefix s p = true <-> exists r, s = (p ++ r)%string.
Proof.
  revert p. induction s as [|d s IH]; intros [|c p]; simpl; try (split; eauto; fail).
  - split; [done|]. intros [r E]. done.
  - rewrite andb_true_iff, Ascii.eqb_eq, IH. split; [intros [-> [r ->]]; eauto|].
    intros [r [= -> ->]]. eauto.
Qed.

Lemma HasPrefix_app p r : HasPrefix (p ++ r) p = true.
Proof. apply HasPrefix_spec. eauto. Qed.

Lemma HasPrefix_trans s p q : HasPrefix s p = true -> HasPrefix p q = true -> HasPrefix s q = true.
Proof.
  rewrite !HasPrefix_spec. intros [r ->] [t ->]. exists (t ++ r)%string.
  induction q as [|c q IH]; simpl; [done|]. now rewrite IH.
Qed.

Lemma HasSuffix_spec s t : HasSuffix s t = true <-> exists p, s = (p ++ t)%string.
Proof.
  induction s as [|c s IH]; cbn [HasSuffix]; rewrite orb_true_iff, String.eqb_eq.
  - split; [intros [<-|?]; [now exists ""|done]|]. intros [p E]. left. destruct p; [done|discriminate].
  - rewrite IH. split.
    + intros [<-|[p ->]]; [now exists ""|]. now exists (String c p).
    + intros [[|d p] E]; [now left|]. right. injection E as <- ->. eauto.
Qed.

Lemma string_app_length a b : String.length (a ++ b) = (String.length a + String.length b)%nat.
Proof. induction a as [|c a IH]; simpl; [done|]. now rewrite IH. Qed.

Lemma TrimSuffix_app p t : TrimSuffix (p ++ t) t = p.
Proof.
  induction p as [|c p IH].
  - cbn [String.append]. destruct t as [|c t]; [done|]. cbn [TrimSuffix]. now rewrite String.eqb_refl.
  - cbn [String.append TrimSuffix]. rewrite IH.
    destruct (String.eqb_spec (String c (p ++ t)) t) as [E|]; [|done].
    apply (f_equal String.length) in E. simpl in E. rewrite string_app_length in E. lia.
Qed.

Lemma dropString_app p r : dropString (String.length p) (p ++ r) = r.
Proof. induction p; simpl; [now destruct r|done]. Qed.

Lemma TrimPrefix_app p r : TrimPrefix (p ++ r) p = r.
Proof. unfold TrimPrefix. now rewrite HasPrefix_app, dropString_app. Qed.

Lemma Cut_app sep a b : noByte sep a = true -> Cut sep (a ++ String sep b) = (a, b, true).
Proof.
  induction a as [|c a IH]; simpl; [now rewrite Ascii.eqb_refl|].
  rewrite andb_true_iff. intros [Hc Ha]. apply negb_true_iff in Hc. rewrite Hc. now rewrite IH.
Qed.

Lemma Cut_found sep s a b : Cut sep s = (a, b, true) -> s = (a ++ String sep b)%string /\ noByte sep a = true.
Proof.
  revert a b. induction s as [|c s IH]; intros a b; simpl; [done|].
  destruct (Ascii.eqb_spec c sep) as [->|Hne]; [intros [= <- <-]; done|].
  destruct (Cut sep s) as [[a' b'] f]. intros [= <- <- ->]. destruct (IH a' b' eq_refl) as [-> Hn].
  split; [done|]. simpl. rewrite Hn. destruct (Ascii.eqb_spec c sep); [contradiction|done].
Qed.

(** *** Trimmed strings *)

Lemma trimRight_last s c : asciiSpace c = false -> trimRight (s ++ String c "") = (s ++ String c "")%string.
Proof.
  intros Hc. induction s as [|d s IH]; simpl; [now rewrite Hc|]. rewrite IH.
  destruct s; done.
Qed.

(** A string that does not start with a space keeps its first part: what
    trimming leaves out is white space at the end. *)
Lemma trimRight_prefix s : exists r, s = (trimRight s ++ r)%string /\ IDIsZero r = true.
Proof.
  induction s as [|c s (r & E & Hr)]; [now exists ""|]. simpl.
  destruct (trimRight s) as [|d t] eqn:T.
  - simpl in E. subst r. destruct (asciiSpace c) eqn:Hc.
    + exists (String c s). simpl. now rewrite Hc.
    + now exists s.
  - exists r. split; [|done]. simpl in E. simpl. now rewrite <- E.
Qed.

Lemma TrimSpace_nospace_head c s : asciiSpace c = false -> TrimSpace (String c s) = trimRight (String c s).
Proof. intros Hc. unfold TrimSpace. simpl trimLeft. now rewrite Hc. Qed.

(** ** Trimming twice *)

Definition headSpace (s : string) : bool :=
  match s with String c _ => asciiSpace c | EmptyString => false end.

Lemma trimLeft_head s : headSpace (trimLeft s) = false.
Proof. induction s as [|c s IH]; simpl; [done|]. destruct (asciiSpace c) eqn:E; [done|exact E]. Qed.

Lemma trimLeft_id s : headSpace s = false -> trimLeft s = s.
Proof. destruct s as [|c s]; simpl; [done|]. now intros ->. Qed.

Lemma trimRight_idem s : trimRight (trimRight s) = trimRight s.
Proof.
  induction s as [|c s IH]; simpl; [done|]. destruct (trimRight s) as [|d t] eqn:T.
  - destruct (asciiSpace c) eqn:Hc; simpl; [done|]. now rewrite Hc.
  - change (trimRight (String c (String d t))) with
      (match trimRight (String d t) with EmptyString => if asciiSpace c then EmptyString else String c EmptyString | r' => String c r' end).
    now rewrite IH.
Qed.

Lemma trimRight_head s : headSpace s = false -> headSpace (trimRight s) = false.
Proof.
  destruct s as [|c s]; simpl; [done|]. intros Hc. destruct (trimRight s); [|done]. now rewrite Hc.
Qed.

Lemma TrimSpace_idem s : TrimSpace (TrimSpace s) = TrimSpace s.
Proof.
  unfold TrimSpace. rewrite (trimLeft_id (trimRight _)); [apply trimRight_idem|].
  apply trimRight_head, trimLeft_head.
Qed.

(** ** encoding/base64 without padding

    RawStdEncoding and RawURLEncoding: three bytes are four digits of six
    bits. Decoding skips line breaks, as Go's decoder does, and rejects a
    single digit left over. *)

Definition stdAlphabet : bytes :=
  list_byte_of_string "ABCDEFGHIJKLMNOPQRSTUVWXYZabcdefghijklmnopqrstuvwxyz0123456789+/".
Definition urlAlphabet : bytes :=
  list_byte_of_string "ABCDEFGHIJKLMNOPQRSTUVWXYZabcdefghijklmnopqrstuvwxyz0123456789-_".

Definition digit (alphabet : bytes) (i : Z) : byte := nth (Z.to_nat (i mod 64)) alphabet Byte.x00.

Fixpoint indexOf (c : byte) (alphabet : bytes) : option Z :=
  match alphabet with
  | [] => None
  | d :: r => if decide (c = d) then Some 0 else option_map (Z.add 1) (indexOf c r)
  end.

Fixpoint EncodeToString (alphabet l : bytes) : bytes :=
  match l with
  | a :: b :: c :: r =>
      let n := b2z a * 65536 + b2z b * 256 + b2z c in
      digit alphabet (n / 262144) :: digit alphabet (n / 4096) :: digit alphabet (n / 64) ::
        digit alphabet n :: EncodeToString alphabet r
  | [a; b] =>
      let n := b2z a * 65536 + b2z b * 256 in
      [digit alphabet (n / 262144); digit alphabet (n / 4096); digit alphabet (n / 64)]
  | [a] =>
      let n := b2z a * 65536 in [digit alphabet (n / 262144); digit alphabet (n / 4096)]
  | [] => []
  end.

Fixpoint decodeDigits (alphabet l : bytes) : option bytes :=
  match l with
  | w :: x :: y :: z :: r =>
      i ← indexOf w alphabet; j ← indexOf x alphabet; k ← indexOf y alphabet; m ← indexOf z alphabet;
      rest ← decodeDigits alphabet r;
      let n := i * 262144 + j * 4096 + k * 64 + m in
      Some (z2b (n / 65536) :: z2b (n / 256) :: z2b n :: rest)
  | [w; x; y] =>
      i ← indexOf w alphabet; j ← indexOf x alphabet; k ← indexOf y alphabet;
      let n := i * 262144 + j * 4096 + k * 64 in
      Some [z2b (n / 65536); z2b (n / 256)]
  | [w; x] =>
      i ← indexOf w alphabet; j ← indexOf x alphabet;
      Some [z2b ((i * 262144 + j * 4096) / 65536)]
  | [_] => None
  | [] => Some []
  end.

Definition lineBreak (b : byte) : bool := if decide (b = Byte.x0a \/ b = Byte.x0d) then true else false.

Definition DecodeString (alphabet l : bytes) : option bytes :=
  decodeDigits alphabet (List.filter (fun b => negb (lineBreak b)) l).

(** ** Decoding inverts encoding *)

Definition good_alphabet (alphabet : bytes) : Prop :=
  forallb (fun i => match indexOf (digit alphabet (Z.of_nat i)) alphabet with
                    | Some j => j =? Z.of_nat i | None => false end
                    && negb (lineBreak (digit alphabet (Z.of_nat i)))) (seq 0 64) = true.

Lemma std_good : good_alphabet stdAlphabet.
Proof. vm_compute. reflexivity. Qed.

Lemma url_good : good_alphabet urlAlphabet.
Proof. vm_compute. reflexivity. Qed.

Section RoundTrip.
  Context (alphabet : bytes) (good : good_alphabet alphabet).

Lemma digit_small i : 0 <= i < 64 ->
  indexOf (digit alphabet i) alphabet = Some i /\ lineBreak (digit alphabet i) = false.
Proof.
  intros Hi. unfold good_alphabet in good. rewrite forallb_forall in good.
  specialize (good (Z.to_nat i) ltac:(apply in_seq; lia)). rewrite Z2Nat.id in good by lia.
  apply andb_true_iff in good as [G1 G2]. split; [|now apply negb_true_iff].
  destruct (indexOf _ _) as [j|]; [|done]. f_equal. lia.
Qed.

Lemma digit_mod i : digit alphabet i = digit alphabet (i mod 64).
Proof. unfold digit. now rewrite Z.mod_mod. Qed.

Lemma indexOf_digit i : indexOf (digit alphabet i) alphabet = Some (i mod 64).
Proof. rewrite digit_mod. apply digit_small. apply Z.mod_pos_bound. lia. Qed.

Lemma digit_no_break i : lineBreak (digit alphabet i) = false.
Proof. rewrite digit_mod. apply digit_small. apply Z.mod_pos_bound. lia. Qed.

(** The four digits of a number below [2 ^ 24]. *)
Lemma digits_sum n : 0 <= n < 2 ^ 24 ->
  (n / 262144) mod 64 * 262144 + (n / 4096) mod 64 * 4096 + (n / 64) mod 64 * 64 + n mod 64 = n.
Proof. intros Hn. Z.to_euclidean_division_equations. lia. Qed.

Lemma bytes_of_sum a b c :
  0 <= a < 256 -> 0 <= b < 256 -> 0 <= c < 256 ->
  let n := a * 65536 + b * 256 + c in (n / 65536) mod 256 = a /\ (n / 256) mod 256 = b /\ n mod 256 = c.
Proof. intros Ha Hb Hc n. subst n. Z.to_euclidean_division_equations. lia. Qed.

Lemma z2b_eq z x : z mod 256 = b2z x -> z2b z = x.
Proof. intros E. apply b2z_inj. now rewrite b2z_z2b. Qed.

Lemma encode_no_breaks l : List.filter (fun b => negb (lineBreak b)) (EncodeToString alphabet l) = EncodeToString alphabet l.
Proof.
  induction l as [l IH] using (induction_ltof1 _ (@length byte)). unfold ltof in IH.
  destruct l as [|a [|b [|c r]]]; simpl; rewrite ?digit_no_break; simpl; try done.
  rewrite IH by (simpl; lia). done.
Qed.

Lemma decodeDigits_encode l : decodeDigits alphabet (EncodeToString alphabet l) = Some l.
Proof.
  induction l as [l IH] using (induction_ltof1 _ (@length byte)). unfold ltof in IH.
  destruct l as [|a [|b [|c r]]]; [done| | |]; cbn [EncodeToString decodeDigits];
    rewrite !indexOf_digit; cbv beta iota delta [base.mbind option_bind]; pose proof (b2z_range a) as Ha.
  - pose proof (bytes_of_sum (b2z a) 0 0 Ha ltac:(lia) ltac:(lia)) as (E & _).
    do 2 f_equal. apply z2b_eq. rewrite <- E. f_equal. f_equal.
    pose proof (digits_sum (b2z a * 65536) ltac:(lia)). Z.to_euclidean_division_equations. lia.
  - pose proof (b2z_range b) as Hb.
    pose proof (bytes_of_sum (b2z a) (b2z b) 0 Ha Hb ltac:(lia)) as (E & F & _). rewrite Z.add_0_r in E, F.
    replace (_ * 262144 + _ * 4096 + _ * 64) with (b2z a * 65536 + b2z b * 256).
    + now rewrite (z2b_eq _ _ E), (z2b_eq _ _ F).
    + pose proof (digits_sum (b2z a * 65536 + b2z b * 256) ltac:(lia)).
      assert ((b2z a * 65536 + b2z b * 256) mod 64 = 0) by (Z.to_euclidean_division_equations; lia). lia.
  - pose proof (b2z_range b) as Hb. pose proof (b2z_range c) as Hc.
    rewrite (IH r) by (simpl; lia). simpl. rewrite digits_sum by lia.
    destruct (bytes_of_sum (b2z a) (b2z b) (b2z c) Ha Hb Hc) as (E & F & G).
    now rewrite (z2b_eq _ _ E), (z2b_eq _ _ F), (z2b_eq _ _ G).
Qed.

Lemma base64_roundtrip l : DecodeString alphabet (EncodeToString alphabet l) = Some l.
Proof. unfold DecodeString. rewrite encode_no_breaks. apply decodeDigits_encode. Qed.
End RoundTrip.

(** ** Decimal numbers of Go

    strconv.Itoa, strconv.FormatInt(_, 10) and the %d of fmt on 64-bit
    integers, and that strconv.Atoi reads them back. *)

Definition digitChar (d : Z) : ascii := ascii_of_nat (Z.to_nat (48 + d)).

(** The decimal digits of a number below [10 ^ n]. *)
Fixpoint digits (n : nat) (z : Z) : string :=
  match n with
  | O => ""
  | S n => if z <? 10 then String (digitChar z) "" else digits n (z / 10) ++ String (digitChar (z mod 10)) ""
  end.

(** 64-bit integers have at most 19 digits. *)
Definition Itoa (z : Z) : string := if z <? 0 then String "-" (digits 20 (- z)) else digits 20 z.

Lemma digitOf_char d : 0 <= d < 10 -> digitOf (digitChar d) = Some d.
Proof.
  intros Hd. assert (C : d = 0 \/ d = 1 \/ d = 2 \/ d = 3 \/ d = 4 \/ d = 5 \/ d = 6 \/ d = 7 \/ d = 8 \/ d = 9) by lia.
  repeat (destruct C as [->|C]; [reflexivity|]). now subst.
Qed.

Lemma digits_loop_app s r acc n : digits_loop s acc = Some n -> digits_loop (s ++ r) acc = digits_loop r n.
Proof.
  revert acc. induction s as [|c s IH]; intros acc; [now intros [= ->]|].
  change (String c s ++ r)%string with (String c (s ++ r)). simpl. destruct (digitOf c); simpl; [|done]. apply IH.
Qed.

Lemma digits_read n z : (0 < n)%nat -> 0 <= z < 10 ^ Z.of_nat n -> digits_loop (digits n z) 0 = Some z.
Proof.
  revert z. induction n as [|n IH]; intros z Hn Hz; [lia|]. cbn [digits].
  destruct (Z.ltb_spec z 10).
  - simpl. rewrite digitOf_char by lia. done.
  - destruct n as [|n]; [simpl in Hz; lia|].
    assert (Hq : 0 <= z / 10 < 10 ^ Z.of_nat (S n)).
    { rewrite Nat2Z.inj_succ, Z.pow_succ_r in Hz by lia. split; [apply Z.div_pos; lia|]. apply Z.div_lt_upper_bound; lia. }
    rewrite (digits_loop_app _ _ _ (z / 10)) by (apply IH; [lia|done]). simpl.
    rewrite digitOf_char by (pose proof (Z.mod_pos_bound z 10); lia). simpl. f_equal.
    pose proof (Z.div_mod z 10). lia.
Qed.

(** Every character of a decimal is a digit. *)
Fixpoint allChars (P : ascii -> bool) (s : string) : bool :=
  match s with EmptyString => true | String c r => P c && allChars P r end.

Lemma allChars_app P a b : allChars P (a ++ b) = allChars P a && allChars P b.
Proof.
  induction a as [|c a IH]; [done|]. change (String c a ++ b)%string with (String c (a ++ b)). simpl.
  rewrite IH. now rewrite andb_assoc.
Qed.

Definition isDigit (c : ascii) : bool := ((48 <=? nat_of_ascii c) && (nat_of_ascii c <=? 57))%nat.

Lemma digitChar_digit d : 0 <= d < 10 -> isDigit (digitChar d) = true.
Proof. intros Hd. unfold isDigit, digitChar. rewrite nat_ascii_embedding by lia. apply andb_true_iff. split; apply Nat.leb_le; lia. Qed.

Lemma digits_digits n z : 0 <= z -> allChars isDigit (digits n z) = true.
Proof.
  revert z. induction n as [|n IH]; intros z Hz; [done|]. cbn [digits]. destruct (Z.ltb_spec z 10).
  - simpl. now rewrite digitChar_digit by lia.
  - rewrite allChars_app, IH by (apply Z.div_pos; lia). simpl.
    now rewrite digitChar_digit by (pose proof (Z.mod_pos_bound z 10); lia).
Qed.

Lemma digits_nonempty n z : (0 < n)%nat -> digits n z <> "".
Proof.
  destruct n as [|n]; [lia|]. intros _. cbn [digits]. destruct (z <? 10); [done|].
  destruct (digits n (z / 10)); done.
Qed.

Lemma Atoi_digits s n : s <> "" -> allChars isDigit s = true -> digits_loop s 0 = Some n -> 0 <= n < 2 ^ 63 -> Atoi s = Some n.
Proof.
  intros Hs Hd Hl Hn. destruct s as [|c s]; [done|]. unfold Atoi.
  assert (E : (match String c s with String "-" r => (true, r) | String "+" r => (false, r) | _ => (false, String c s) end) =
              (false, String c s)).
  { simpl in Hd. apply andb_true_iff in Hd as [Hd _]. destruct c as [[] [] [] [] [] [] [] []]; try reflexivity; discriminate. }
  rewrite E. simpl String.eqb. cbv iota. rewrite Hl. simpl. destruct (_ && _) eqn:B; [done|]. lia.
Qed.

Lemma digits20_bound z : 0 <= z <= 2 ^ 63 -> 0 <= z < 10 ^ Z.of_nat 20.
Proof. intros Hz. split; [lia|]. change (10 ^ Z.of_nat 20) with 100000000000000000000. lia. Qed.

(** [Atoi] reads back what [Itoa] prints. *)
Lemma Atoi_Itoa z : - 2 ^ 63 <= z < 2 ^ 63 -> Atoi (Itoa z) = Some z.
Proof.
  intros Hz. unfold Itoa. destruct (Z.ltb_spec z 0) as [Hn|Hn].
  - unfold Atoi. destruct (String.eqb_spec (digits 20 (- z)) "") as [E|E]; [now apply digits_nonempty in E; [|lia]|].
    rewrite digits_read; [|lia|apply digits20_bound; lia]. simpl. replace (- - z) with z by lia.
    destruct (_ && _) eqn:B; [done|]. lia.
  - apply Atoi_digits; [apply digits_nonempty; lia|apply digits_digits; lia| |lia].
    apply digits_read; [lia|apply digits20_bound; lia].
Qed.

(** Characters a printed number consists of. *)
Lemma Itoa_chars z : allChars (fun c => isDigit c || Ascii.eqb c "-") (Itoa z) = true.
Proof.
  assert (D : forall n z, 0 <= z -> allChars (fun c => isDigit c || Ascii.eqb c "-") (digits n z) = true).
  { intros n w Hw. pose proof (digits_digits n w Hw) as E. revert E. generalize (digits n w). intros s.
    induction s as [|c s IH]; [done|]. simpl. rewrite !andb_true_iff, orb_true_iff. intros [-> ?]. auto. }
  unfold Itoa. destruct (Z.ltb_spec z 0); [cbn [allChars]; rewrite D by lia; now rewrite orb_true_r|apply D; lia].
Qed.

Example itoa_examples : Itoa 0 = "0" /\ Itoa (-17) = "-17" /\ Itoa (2 ^ 63 - 1) = "9223372036854775807".
Proof. vm_compute. repeat split. Qed.

(** ** Readers of streams

    Lemmas on computations that read a stream: how many bytes they consume,
    and the bytes of strings. The codecs of the drivers share them. *)

(** A reader that never puts bytes back, and takes [n] bytes when it succeeds. *)
Definition consumes {A} (n : nat) (rd : M bytes A) : Prop :=
  forall l, (length (rd l).2 + (if is_ok (rd l).1 then n else 0) <= length l)%nat /\ (rd l).1 <> Fuel.

Lemma consumes_ret {A} (a : A) : consumes 0 (mret a).
Proof. intros l. simpl. split; [lia|done]. Qed.

Lemma consumes_err {A} n e : consumes n (merr e : M bytes A).
Proof. intros l. simpl. split; [lia|done]. Qed.

Lemma consumes_weaken {A} n n' (rd : M bytes A) : (n' <= n)%nat -> consumes n rd -> consumes n' rd.
Proof. intros Hn Hc l. destruct (Hc l) as [H1 H2]. split; [|done]. destruct (is_ok _); lia. Qed.

Lemma consumes_bind {A B} n k (rd : M bytes A) (f : A -> M bytes B) :
  consumes n rd -> (forall a, consumes k (f a)) -> consumes (n + k) (x <-- rd ;; f x).
Proof.
  intros H1 H2 l. unfold mbind. destruct (H1 l) as [L P]. destruct (rd l) as [[a|e|e|] r]; simpl in *; try (split; [lia|done]).
  destruct (H2 a r) as [L2 P2]. split; [destruct (is_ok _); lia|done].
Qed.

(** ** The bytes of strings *)

Lemma list_byte_cons c s : list_byte_of_string (String c s) = byte_of_ascii c :: list_byte_of_string s.
Proof. reflexivity. Qed.

Lemma list_byte_app a b : list_byte_of_string (a ++ b) = list_byte_of_string a ++ list_byte_of_string b.
Proof.
  induction a as [|c a IH]; [done|]. change (String c a ++ b)%string with (String c (a ++ b)).
  now rewrite !list_byte_cons, IH.
Qed.

Lemma zlen_list_byte s : zlen (list_byte_of_string s) = Z.of_nat (String.length s).
Proof.
  unfold zlen. f_equal. induction s as [|c s IH]; [done|]. rewrite list_byte_cons. simpl. now rewrite IH.
Qed.

