(* ===== verification/LocalFiles.v ===== *)
(** * The files of the local backend

    Models the paths and the operations of src/internal/storage/local/local.go
    on one object: the path of a key, and [Put] as the steps it takes on the
    files of the key, with several writers, failures and crashes between the
    steps. Directories are left out, SHA-256 and the clock are parameters.

    The theorems show that no key leads out of the root, and that an object is
    written at most once and whole. *)

From Stdlib Require Import Ascii String.
From S2P Require Import Prelude KvNode KvMap ChunkHash Core Calendar GoStrings GoText Envelope FastCDC ChunkIndex Pipeline PipelineProofs Manifest Repository LocalStore.
Local Open Scope string_scope.

(** ** Paths *)

(** The pieces of path.Clean, the last one first. *)
Fixpoint clean_loop (rooted : bool) (segments out : list string) : list string :=
  match segments with
  | [] => out
  | segment :: rest =>
      if String.eqb segment "" || String.eqb segment "." then clean_loop rooted rest out
      else if String.eqb segment ".." then
        match out with
        | last :: out' => if String.eqb last ".." then clean_loop rooted rest (segment :: out) else clean_loop rooted rest out'
        | [] => clean_loop rooted rest (if rooted then [] else [segment])
        end
      else clean_loop rooted rest (segment :: out)
  end.

Definition IsAbs (path : string) : bool := HasPrefix path "/".

(** path.Clean *)
Definition Clean (path : string) : string :=
  if String.eqb path "" then "."
  else
    let body := Join (rev (clean_loop (IsAbs path) (SplitOn "/" path) [])) "/" in
    if IsAbs path then "/" ++ body else if String.eqb body "" then "." else body.

Example clean_examples :
  Clean "a//b/./c" = "a/b/c" /\ Clean "a/../../b" = "../b" /\ Clean "/../a" = "/a" /\ Clean "" = "." /\ Clean "/" = "/".
Proof. vm_compute. repeat split. Qed.

(** filepath.Join of two paths that are not empty *)
Definition JoinPath (root path : string) : string := Clean (root ++ "/" ++ path).

Definition pathForKey (root key : string) : option string :=
  let cleaned := Clean key in
  if String.eqb key "" || String.eqb cleaned "." || IsAbs cleaned || String.eqb cleaned ".." || HasPrefix cleaned "../" then None
  else if Contains key "\" then None
  else if existsb (String.eqb "..") (SplitOn "/" key) then None
  else Some (JoinPath root cleaned).

(** A name of a file. *)
Definition segment (s : string) : Prop := s <> "" /\ s <> "." /\ s <> ".." /\ noByte "/" s = true.

Definition pathOf (segments : list string) : string := "/" ++ Join segments "/".

Lemma SplitOn_nosep sep s : forallb (noByte sep) (SplitOn sep s) = true.
Proof.
  induction s as [|c s IH]; [done|]. cbn [SplitOn]. destruct (Ascii.eqb c sep) eqn:E; [exact IH|].
  destruct (SplitOn sep s) as [|h t]; cbn [forallb noByte] in *; rewrite E; [done|exact IH].
Qed.

Lemma SplitOn_single sep s : noByte sep s = true -> SplitOn sep s = [s].
Proof.
  induction s as [|c s IH]; [done|]. cbn [noByte SplitOn]. rewrite andb_true_iff, negb_true_iff. intros [-> Hs]. now rewrite IH.
Qed.

Lemma SplitOn_app sep s r : noByte sep s = true -> SplitOn sep (s ++ String sep r) = s :: SplitOn sep r.
Proof.
  induction s as [|c s IH]; cbn [noByte]; [change ("" ++ ?t) with t; cbn [SplitOn]; now rewrite Ascii.eqb_refl|].
  rewrite andb_true_iff, negb_true_iff. intros [Hc Hs].
  change (String c s ++ String sep r) with (String c (s ++ String sep r)). cbn [SplitOn]. now rewrite Hc, IH.
Qed.

Lemma SplitOn_Join sep parts : parts <> [] -> Forall (fun s => noByte sep s = true) parts ->
  SplitOn sep (Join parts (String sep "")) = parts.
Proof.
  intros Hn Hs. induction Hs as [|s rest Hs Hr IH]; [done|]. destruct rest as [|s' rest].
  - now apply SplitOn_single.
  - change (Join (s :: s' :: rest) (String sep "")) with (s ++ String sep (Join (s' :: rest) (String sep ""))). now rewrite SplitOn_app, IH.
Qed.

Lemma names_joined segments : segments <> [] -> Forall segment segments -> SplitOn "/" (Join segments "/") = segments.
Proof. intros Hn Hs. apply SplitOn_Join; [done|]. eapply Forall_impl; [exact Hs|]. now intros s (_ & _ & _ & H). Qed.

Lemma clean_segments rooted segments out : Forall segment segments -> clean_loop rooted segments out = (rev segments ++ out)%list.
Proof.
  intros Hs. revert out. induction Hs as [|s rest (H1 & H2 & H3 & _) Hr IH]; intros out; [done|]. cbn [clean_loop rev].
  apply String.eqb_neq in H1, H2, H3. rewrite H1, H2, H3. cbn [orb]. now rewrite IH, <- app_assoc.
Qed.

(** Without .. the pieces that are left are names. *)
Lemma clean_names rooted segments out : forallb (noByte "/") segments = true -> existsb (String.eqb "..") segments = false ->
  Forall segment out -> Forall segment (clean_loop rooted segments out).
Proof.
  revert out. induction segments as [|s rest IH]; intros out Hn Hd Ho; [done|]. cbn [clean_loop forallb existsb] in *.
  apply andb_true_iff in Hn as [Hs Hn]. apply orb_false_iff in Hd as [Hd Hr]. rewrite String.eqb_sym in Hd. rewrite Hd.
  destruct (String.eqb_spec s ""); [now apply IH|]. destruct (String.eqb_spec s "."); [now apply IH|]. cbn [orb].
  apply IH; [done..|]. constructor; [|done]. apply String.eqb_neq in Hd. done.
Qed.

Lemma HasPrefix_slash s : HasPrefix ("/" ++ s) "/" = true.
Proof. now destruct s. Qed.

Lemma Clean_pathOf segments : Forall segment segments -> Clean (pathOf segments) = pathOf segments.
Proof.
  intros Hs. unfold Clean, pathOf, IsAbs. rewrite HasPrefix_slash. change (String.eqb ("/" ++ ?s) "") with false. cbv beta iota.
  change (SplitOn "/" ("/" ++ ?s)) with ("" :: SplitOn "/" s). cbn [clean_loop String.eqb orb].
  destruct segments as [|s rest]; [reflexivity|].
  rewrite names_joined by done. rewrite clean_segments, app_nil_r, rev_involutive by done. reflexivity.
Qed.

Lemma string_append_assoc (a b c : string) : (a ++ b) ++ c = a ++ b ++ c.
Proof. induction a as [|x a IH]; [done|]. change (String x ((a ++ b) ++ c) = String x (a ++ b ++ c)). now rewrite IH. Qed.

Lemma Join_two a b : a <> [] -> b <> [] -> Join a "/" ++ "/" ++ Join b "/" = Join (a ++ b)%list "/".
Proof.
  intros Ha Hb. induction a as [|x a IH]; [done|]. destruct a as [|y a].
  - destruct b; [done|]. reflexivity.
  - change (Join (x :: y :: a) "/") with (x ++ "/" ++ Join (y :: a) "/"). change (((x :: y :: a) ++ b)%list) with (x :: y :: (a ++ b))%list.
    change (Join (x :: y :: (a ++ b)%list) "/") with (x ++ "/" ++ Join ((y :: a) ++ b)%list "/").
    rewrite !string_append_assoc, IH by done. done.
Qed.

Lemma Join_segment segments : Forall segment segments -> segments <> [] -> Join segments "/" <> "".
Proof. intros [|s rest (H & _) _] Hn; [done|]. destruct rest; [done|]. cbn. destruct s; done. Qed.

Lemma IsAbs_Join segments : Forall segment segments -> IsAbs (Join segments "/") = false.
Proof.
  intros [|s rest (H & _ & _ & Hs) _]; [done|]. unfold IsAbs. destruct s as [|c s]; [done|]. cbn [noByte] in Hs.
  apply andb_true_iff in Hs as [Hs _]. rewrite negb_true_iff in Hs.
  assert (E : exists t, Join (String c s :: rest) "/" = String c t) by (destruct rest; eexists; reflexivity).
  destruct E as [t ->]. cbn [HasPrefix]. rewrite Ascii.eqb_sym. now rewrite Hs.
Qed.

(** The names of a key that is accepted. *)
Lemma key_names root key path : pathForKey root key = Some path ->
  exists names, names <> [] /\ Forall segment names /\ Clean key = Join names "/" /\ path = JoinPath root (Join names "/").
Proof.
  unfold pathForKey. destruct (String.eqb key "") eqn:E0; [done|]. destruct (String.eqb (Clean key) ".") eqn:E1; [done|].
  destruct (IsAbs (Clean key)) eqn:E2; [done|]. destruct (String.eqb (Clean key) ".."); [done|].
  destruct (HasPrefix (Clean key) "../"); [done|]. cbn [orb]. destruct (Contains key "\"); [done|].
  destruct (existsb (String.eqb "..") (SplitOn "/" key)) eqn:Ed; [done|]. intros [= <-].
  set (names := rev (clean_loop (IsAbs key) (SplitOn "/" key) [])).
  assert (Hn : Forall segment names) by (apply Forall_rev, clean_names; [apply SplitOn_nosep|done|constructor]).
  assert (Ha : IsAbs key = false).
  { destruct (IsAbs key) eqn:Ea; [|done]. unfold Clean in E2. rewrite E0, Ea in E2. unfold IsAbs in E2. now rewrite HasPrefix_slash in E2. }
  assert (Hc : Clean key = if String.eqb (Join names "/") "" then "." else Join names "/")
    by (unfold Clean; rewrite E0; fold names; rewrite Ha; reflexivity).
  destruct (String.eqb_spec (Join names "/") "") as [E|E]; [rewrite Hc in E1; done|].
  exists names. split; [intros Hz; now rewrite Hz in E|]. split; [done|]. split; [done|]. now rewrite Hc.
Qed.

(** No key of an object leads out of the root of the local backend: the
    path of a key that is accepted is the root followed by at least one name,
    none of them empty, . or .., and without a separator; the path below the
    root is the key in its clean form, so that the listing gives back the key
    of every object that was stored under a clean key. *)
Theorem local_paths_inside rootNames key path : rootNames <> [] -> Forall segment rootNames ->
  pathForKey (pathOf rootNames) key = Some path ->
  exists names, names <> [] /\ Forall segment names /\ path = pathOf (rootNames ++ names)%list /\ Clean key = Join names "/".
Proof.
  intros Hr Hs Hp. apply key_names in Hp as (names & Hn & Hf & Hc & ->). exists names. split; [done|]. split; [done|].
  split; [|done]. unfold JoinPath.
  assert (E : pathOf rootNames ++ "/" ++ Join names "/" = pathOf (rootNames ++ names)%list).
  { unfold pathOf. rewrite string_append_assoc, Join_two by done. reflexivity. }
  rewrite E. apply Clean_pathOf. apply Forall_app. now split.
Qed.

Lemma local_paths_inside_witness :
  exists names, names <> [] /\ Forall segment names /\ "/var/kronos/chunks/a" = pathOf (["var"; "kronos"] ++ names)%list /\
    Clean "chunks//a" = Join names "/".
Proof.
  apply (local_paths_inside ["var"; "kronos"] "chunks//a" "/var/kronos/chunks/a"); [discriminate| |reflexivity].
  repeat constructor; try discriminate; reflexivity.
Defined.

(** A key that is clean is accepted, if it has no backslash. *)
Lemma clean_key_accepted root names : names <> [] -> Forall segment names -> Contains (Join names "/") "\" = false ->
  pathForKey root (Join names "/") = Some (JoinPath root (Join names "/")).
Proof.
  intros Hn Hf Hb. pose proof (Join_segment names Hf Hn) as Hne. pose proof (IsAbs_Join names Hf) as Ha.
  assert (Hc : Clean (Join names "/") = Join names "/").
  { unfold Clean. apply String.eqb_neq in Hne. rewrite Hne, Ha, names_joined, clean_segments, app_nil_r, rev_involutive by done.
    now rewrite Hne. }
  pose proof (names_joined names Hn Hf) as E. rewrite Forall_forall in Hf.
  assert (Hx : forall s, In s names -> s <> "" /\ s <> "." /\ s <> "..") by (intros s Hi; destruct (Hf s) as (? & ? & ? & _); [now apply list_elem_of_In|done]).
  assert (H1 : Join names "/" <> ".") by (intros H; rewrite H in E; destruct (Hx ".") as (_ & ? & _); [rewrite <- E; now left|done]).
  assert (H2 : Join names "/" <> "..") by (intros H; rewrite H in E; destruct (Hx "..") as (_ & _ & ?); [rewrite <- E; now left|done]).
  assert (H3 : HasPrefix (Join names "/") "../" = false).
  { destruct (HasPrefix (Join names "/") "../") eqn:H; [|done]. apply HasPrefix_spec in H as [t H]. rewrite H in E.
    destruct (Hx "..") as (_ & _ & ?); [rewrite <- E; now left|done]. }
  assert (H4 : existsb (String.eqb "..") names = false).
  { rewrite <- not_true_iff_false. intros H. apply existsb_exists in H as (s & Hi & Es). apply String.eqb_eq in Es. subst s.
    now destruct (Hx ".." Hi). }
  unfold pathForKey. rewrite Hc, Ha, Hb, E, H3, H4. apply String.eqb_neq in Hne, H1, H2. now rewrite Hne, H1, H2.
Qed.


(** ** Writing an object

    The files of one object: the object itself, its lock, and the temporary
    files of its writers by their random suffixes. *)

Local Open Scope list_scope.
Local Open Scope Z_scope.

Record ObjectFiles := mkFiles { of_object : option bytes; of_lock : bool; of_temps : gmap string bytes }.

(** What [Put] returns: the size, or an error. *)
Inductive putResult : Type :=
  | PutOk (size : Z)
  | PutConflict (reason : string)
  | PutError (reason : string).

(** Where a call of [Put] is. *)
Inductive putState : Type :=
  | AtStat | AtLock | AtRecheck | AtCreate
  | AtCopy (written : bytes) (rest : list read_result)
  | AtRename (written : bytes)
  | AtSync (size : Z)
  | AtUnlock (result : putResult)
  | AtEnd (result : putResult).

(** A call: the suffix it drew, its reader and the size it was given. *)
Record putCall := mkPut { pu_suffix : string; pu_reader : list read_result; pu_size : Z }.

Definition copyBuffer : Z := 128 * 1024.

Definition alreadyExists : putResult := PutConflict "object already exists".

(** One step without a failure of the file system. *)
Definition put_step (call : putCall) (state : putState) (f : ObjectFiles) : putState * ObjectFiles :=
  let 'mkFiles object lock temps := f in
  match state with
  | AtStat => (match object with Some _ => AtEnd alreadyExists | None => AtLock end, f)
  | AtLock => if lock then (AtEnd (PutConflict "object is already being written"), f) else (AtRecheck, mkFiles object true temps)
  | AtRecheck => (match object with Some _ => AtUnlock alreadyExists | None => AtCreate end, f)
  | AtCreate =>
      match temps !! pu_suffix call with
      | Some _ => (AtUnlock (PutError "create temp object"), f)
      | None => (AtCopy [] (pu_reader call), mkFiles object lock (<[pu_suffix call := []]> temps))
      end
  | AtCopy written rest =>
      let '(result, rest) := read copyBuffer rest in
      let written := written ++ result_bytes result in
      let removed := mkFiles object lock (delete (pu_suffix call) temps) in
      let kept := mkFiles object lock (<[pu_suffix call := written]> temps) in
      match result with
      | RData _ => (AtCopy written rest, kept)
      | RErr _ e => (AtUnlock (PutError e), removed)
      | REOF _ =>
          if (0 <=? pu_size call) && negb (zlen written =? pu_size call) then (AtUnlock (PutError "size mismatch"), removed)
          else (AtRename written, kept)
      end
  | AtRename written => (AtSync (zlen written), mkFiles (temps !! pu_suffix call) lock (delete (pu_suffix call) temps))
  | AtSync size => (AtUnlock (PutOk size), f)
  | AtUnlock result => (AtEnd result, mkFiles object false temps)
  | AtEnd result => (AtEnd result, f)
  end.

(** One step that fails: what was created is removed, but an object that was
    renamed stays, and so does a lock that cannot be removed. *)
Definition put_fault (call : putCall) (state : putState) (f : ObjectFiles) : putState * ObjectFiles :=
  let failed := PutError "input/output error" in
  match state with
  | AtStat | AtLock => (AtEnd failed, f)
  | AtRecheck | AtCreate | AtSync _ => (AtUnlock failed, f)
  | AtCopy _ _ | AtRename _ => (AtUnlock failed, mkFiles (of_object f) (of_lock f) (delete (pu_suffix call) (of_temps f)))
  | AtUnlock result => (AtEnd result, f)
  | AtEnd result => (AtEnd result, f)
  end.

(** *** Several writers *)

(** A writer that crashed takes no more steps; its files stay. *)
Record writer := mkWriter { wr_call : putCall; wr_state : putState; wr_crashed : bool }.

Inductive write_step : list writer * ObjectFiles -> list writer * ObjectFiles -> Prop :=
  | write_next i w ws f state f' :
      ws !! i = Some w -> wr_crashed w = false -> put_step (wr_call w) (wr_state w) f = (state, f') ->
      write_step (ws, f) (<[i := mkWriter (wr_call w) state false]> ws, f')
  | write_fault i w ws f state f' :
      ws !! i = Some w -> wr_crashed w = false -> put_fault (wr_call w) (wr_state w) f = (state, f') ->
      write_step (ws, f) (<[i := mkWriter (wr_call w) state false]> ws, f')
  | write_crash i w ws f :
      ws !! i = Some w -> write_step (ws, f) (<[i := mkWriter (wr_call w) (wr_state w) true]> ws, f).

(** A call that has the lock. *)
Definition holding (state : putState) : bool :=
  match state with AtRecheck | AtCreate | AtCopy _ _ | AtRename _ | AtSync _ | AtUnlock _ => true | _ => false end.

(** A call that found no object while it held the lock. *)
Definition writing (state : putState) : bool :=
  match state with AtCreate | AtCopy _ _ | AtRename _ => true | _ => false end.

(** What a reader delivers up to its end. *)
Fixpoint delivered (r : list read_result) : bytes :=
  match r with
  | [] => []
  | RData bs :: rest => bs ++ delivered rest
  | REOF bs :: _ => bs
  | RErr bs _ :: _ => bs
  end.

Lemma delivered_read limit r : 0 <= limit -> delivered r = result_bytes (read limit r).1 ++
  match (read limit r).1 with RData _ => delivered (read limit r).2 | _ => [] end.
Proof.
  intros Hl. destruct r as [|x rest]; [done|]. cbn [read]. destruct (limit <? zlen (result_bytes x)).
  - cbn [fst snd result_bytes]. destruct x as [bs|bs|bs e]; cbn [result_bytes with_bytes delivered].
    + now rewrite app_assoc, take_drop.
    + now rewrite take_drop.
    + now rewrite take_drop.
  - destruct x; cbn; now rewrite ?app_nil_r.
Qed.

(** A call whose data are the object. *)
Definition committed (state : putState) : option Z :=
  match state with AtSync size | AtUnlock (PutOk size) | AtEnd (PutOk size) => Some size | _ => None end.

Definition sizeFits (call : putCall) : Prop := 0 <= pu_size call -> zlen (delivered (pu_reader call)) = pu_size call.

(** What is known of the files from the state of a call. *)
Definition call_inv (w : writer) (f : ObjectFiles) : Prop :=
  (holding (wr_state w) = true -> of_lock f = true) /\
  (writing (wr_state w) = true -> of_object f = None) /\
  match wr_state w with
  | AtCopy written rest => of_temps f !! pu_suffix (wr_call w) = Some written /\ written ++ delivered rest = delivered (pu_reader (wr_call w))
  | AtRename written => of_temps f !! pu_suffix (wr_call w) = Some written /\ written = delivered (pu_reader (wr_call w)) /\ sizeFits (wr_call w)
  | _ => True
  end /\
  (forall size, committed (wr_state w) = Some size ->
     of_object f = Some (delivered (pu_reader (wr_call w))) /\ size = zlen (delivered (pu_reader (wr_call w))) /\ sizeFits (wr_call w)).

Record writers_inv (start : ObjectFiles) (ws : list writer) (f : ObjectFiles) : Prop := {
  wi_calls : forall i w, ws !! i = Some w -> call_inv w f;
  wi_one_holder : forall i j w w', ws !! i = Some w -> ws !! j = Some w' ->
    holding (wr_state w) = true -> holding (wr_state w') = true -> i = j;
  wi_one_commit : forall i j w w' n n', ws !! i = Some w -> ws !! j = Some w' ->
    committed (wr_state w) = Some n -> committed (wr_state w') = Some n' -> i = j;
  wi_kept : forall v, of_object start = Some v -> of_object f = Some v;
  wi_whole : of_object start = None -> forall v, of_object f = Some v ->
    exists i w, ws !! i = Some w /\ v = delivered (pu_reader (wr_call w)) /\ sizeFits (wr_call w)
}.

(** A step of a call that does not have the lock. *)
Lemma outside_step call state f state' f' : holding state = false ->
  put_step call state f = (state', f') \/ put_fault call state f = (state', f') ->
  of_object f' = of_object f /\ of_temps f' = of_temps f /\
  (state' = AtRecheck /\ of_lock f = false /\ of_lock f' = true \/
   holding state' = false /\ of_lock f' = of_lock f) /\ writing state' = false /\
  (match state' with AtCopy _ _ | AtRename _ => False | _ => True end) /\
  (committed state' = None \/ state' = state).
Proof.
  destruct f as [object lock temps]. intros Hh Hs. destruct state; try discriminate; destruct Hs as [Hs|Hs]; cbn in Hs;
    repeat case_match; simplify_eq; cbn; repeat split; auto; try (right; split; [done|done]); try (left; repeat split; done).
Qed.

(** A step of a call that has the lock. *)
Lemma inside_step call state f state' f' : holding state = true -> call_inv (mkWriter call state false) f ->
  put_step call state f = (state', f') \/ put_fault call state f = (state', f') ->
  call_inv (mkWriter call state' false) f' /\
  (forall v, of_object f = Some v -> of_object f' = Some v) /\
  (of_object f = None -> forall v, of_object f' = Some v -> v = delivered (pu_reader call) /\ sizeFits call) /\
  (committed state' <> None -> committed state <> None \/ of_object f = None).
Proof.
  destruct f as [object lock temps]. unfold call_inv. cbn [wr_call wr_state of_lock of_object of_temps].
  intros Hh (Hl & Hw & Hc & Hk) Hs. specialize (Hl Hh). subst lock.
  destruct state as [| | | |written rest|written|size|result|result]; try discriminate Hh.
  - destruct Hs as [Hs|Hs]; cbn in Hs; [destruct object|]; simplify_eq; cbn; repeat split; auto; try discriminate; try congruence.
  - specialize (Hw eq_refl). subst object. destruct Hs as [Hs|Hs]; cbn in Hs; [destruct (temps !! pu_suffix call) eqn:Et|]; simplify_eq; cbn;
      rewrite ?lookup_insert_eq; repeat split; auto; try discriminate; try congruence.
  - specialize (Hw eq_refl). subst object. destruct Hc as [Ht Hr]. destruct Hs as [Hs|Hs]; cbn in Hs.
    + pose proof (delivered_read copyBuffer rest ltac:(unfold copyBuffer; lia)) as E.
      destruct (read copyBuffer rest) as [x rest']. cbn [fst snd] in E. rewrite E, app_assoc in Hr.
      destruct x as [bs|bs|bs e]; cbn [result_bytes] in *; [..|]; rewrite ?app_nil_r in Hr.
      * simplify_eq; cbn. rewrite lookup_insert_eq. repeat split; auto; try discriminate; congruence.
      * destruct ((0 <=? pu_size call) && negb (zlen (written ++ bs) =? pu_size call)) eqn:Es; simplify_eq; cbn; [repeat split; auto; try discriminate; congruence|].
        rewrite lookup_insert_eq. repeat split; auto; try discriminate; try congruence. intros Hp. rewrite <- Hr.
        apply andb_false_iff in Es as [Es|Es]; [lia|]. apply negb_false_iff, Z.eqb_eq in Es. exact Es.
      * simplify_eq; cbn. repeat split; auto; try discriminate; congruence.
    + simplify_eq; cbn. repeat split; auto; try discriminate; congruence.
  - specialize (Hw eq_refl). subst object. destruct Hc as (Ht & -> & Hz). destruct Hs as [Hs|Hs]; cbn in Hs; simplify_eq; cbn.
    + rewrite Ht. repeat split; auto; try discriminate; try congruence; try (intros; congruence).
    + repeat split; auto; try discriminate; congruence.
  - destruct Hs as [Hs|Hs]; cbn in Hs; simplify_eq; cbn; repeat split; auto; try discriminate; try congruence;
      try (specialize (Hk _ eq_refl); naive_solver).
  - destruct Hs as [Hs|Hs]; cbn in Hs; simplify_eq; cbn; repeat split; auto; try discriminate; try congruence;
      destruct result; try discriminate; cbn in Hk |- *; try (specialize (Hk _ eq_refl)); naive_solver.
Qed.

(** Writers at the start of their calls. *)
Definition starting (ws : list writer) : Prop := forall i w, ws !! i = Some w -> wr_state w = AtStat.

Lemma start_inv ws f : starting ws -> writers_inv f ws f.
Proof.
  intros Hs. split.
  - intros i w Hi. apply Hs in Hi. unfold call_inv. rewrite Hi. cbn. repeat split; discriminate.
  - intros i j w w' Hi _ Hh. apply Hs in Hi. rewrite Hi in Hh. discriminate.
  - intros i j w w' n n' Hi _ Hh. apply Hs in Hi. rewrite Hi in Hh. discriminate.
  - done.
  - congruence.
Qed.

(** What the step of one call leaves of what is known of another one, when the
    two do not hold the lock at once. *)
Lemma call_inv_kept w f f' : call_inv w f ->
  (holding (wr_state w) = true -> of_object f' = of_object f /\ of_temps f' = of_temps f /\ (of_lock f = true -> of_lock f' = true)) ->
  (forall v, of_object f = Some v -> of_object f' = Some v) -> call_inv w f'.
Proof.
  intros (Hl & Hw & Hc & Hk) Hh Hv. unfold call_inv.
  destruct (holding (wr_state w)) eqn:E.
  - destruct (Hh eq_refl) as (Ho & Ht & Hlock). rewrite Ho, Ht. auto.
  - split; [discriminate|]. split; [destruct (wr_state w); discriminate|]. split; [destruct (wr_state w); discriminate || done|].
    intros size Hz. destruct (Hk size Hz) as (H1 & H2 & H3). auto.
Qed.

Lemma insert_cases {A} (i j : nat) (x y : A) (l : list A) : <[i := x]> l !! j = Some y -> j = i /\ y = x \/ j <> i /\ l !! j = Some y.
Proof. rewrite list_lookup_insert_Some. naive_solver. Qed.

Lemma advance_inv start ws f i w state f' : writers_inv start ws f -> ws !! i = Some w ->
  put_step (wr_call w) (wr_state w) f = (state, f') \/ put_fault (wr_call w) (wr_state w) f = (state, f') ->
  writers_inv start (<[i := mkWriter (wr_call w) state false]> ws) f'.
Proof.
  intros [Hcalls Hone Hcommit Hkept Hwhole] Hi Hs.
  assert (Hcw : call_inv (mkWriter (wr_call w) (wr_state w) false) f) by (destruct w; exact (Hcalls i _ Hi)).
  assert (Hlt : (i < length ws)%nat) by now apply lookup_lt_Some in Hi.
  (* What the step does to the files, for the call and for the others. *)
  assert (Hown : call_inv (mkWriter (wr_call w) state false) f' /\
    (forall v, of_object f = Some v -> of_object f' = Some v) /\
    (of_object f = None -> forall v, of_object f' = Some v -> v = delivered (pu_reader (wr_call w)) /\ sizeFits (wr_call w)) /\
    (committed state <> None -> committed (wr_state w) <> None \/ of_object f = None) /\
    (forall j w', j <> i -> ws !! j = Some w' -> call_inv w' f') /\
    (holding state = true -> forall j w', j <> i -> ws !! j = Some w' -> holding (wr_state w') = false)).
  { destruct (holding (wr_state w)) eqn:Eh.
    - destruct (inside_step _ _ _ _ _ Eh Hcw Hs) as (H1 & H2 & H3 & H4). refine (conj H1 (conj H2 (conj H3 (conj H4 (conj _ _))))).
      + intros j w' Hj Hw'. apply (call_inv_kept w' f f'); [now apply (Hcalls j)| |done]. intros Hh'. destruct (Hj (Hone j i w' w Hw' Hi Hh' Eh)).
      + intros _ j w' Hj Hw'. destruct (holding (wr_state w')) eqn:E; [|done]. destruct (Hj (Hone j i w' w Hw' Hi E Eh)).
    - destruct (outside_step _ _ _ _ _ Eh Hs) as (Ho & Ht & Hl & Hw & Hnc & Hc).
      destruct Hcw as (Hwl & Hww & Hwc & Hwk).
      refine (conj _ (conj _ (conj _ (conj _ (conj _ _))))); try (intros; congruence).
      + unfold call_inv. cbn [wr_call wr_state] in *. rewrite Ho. split; [|split; [|split]].
        * intros E. destruct Hl as [(-> & _ & ->)|[E' _]]; congruence.
        * congruence.
        * now destruct state.
        * destruct Hc as [Hc| ->]; [congruence|exact Hwk].
      + destruct Hc as [Hc| ->]; [congruence|]. now left.
      + intros j w' Hj Hw'. apply (call_inv_kept w' f f'); [now apply (Hcalls j)| |congruence]. intros Hh'. split; [done|]. split; [done|].
        destruct Hl as [(_ & _ & ->)|[_ ->]]; done.
      + intros E j w' Hj Hw'. destruct (holding (wr_state w')) eqn:E'; [|done].
        destruct (Hcalls j w' Hw') as (Hl' & _). destruct Hl as [(_ & Hl & _)|[Hl _]]; [rewrite Hl in Hl'; discriminate (Hl' E')|congruence]. }
  destruct Hown as (Hinv & Hobj & Hnew & Hcom & Hothers & Hfree).
  split.
  - intros j w' Hj. apply insert_cases in Hj as [[-> ->]|[Hne Hj]]; [exact Hinv|exact (Hothers j w' Hne Hj)].
  - intros j k w1 w2 Hj Hk Hh1 Hh2. apply insert_cases in Hj as [[-> ->]|[Hj' Hj]], Hk as [[-> ->]|[Hk' Hk]]; [done| | |].
    + cbn in Hh1. rewrite (Hfree Hh1 k w2 Hk' Hk) in Hh2. discriminate.
    + cbn in Hh2. rewrite (Hfree Hh2 j w1 Hj' Hj) in Hh1. discriminate.
    + exact (Hone j k w1 w2 Hj Hk Hh1 Hh2).
  - assert (Hx : forall j w' n, j <> i -> ws !! j = Some w' -> committed (wr_state w') = Some n -> committed state = None).
    { intros j w' n Hj Hw' Hn. destruct (committed state) eqn:E; [|done]. destruct (Hcalls j w' Hw') as (_ & _ & _ & Hk).
      destruct (Hk n Hn) as [Ho _]. destruct Hcom as [Hcw'|Hcw']; [discriminate| |congruence].
      destruct (committed (wr_state w)) as [z0|] eqn:Ew; [|done]. destruct (Hj (Hcommit j i w' w n z0 Hw' Hi Hn Ew)). }
    intros j k w1 w2 n n' Hj Hk Hh1 Hh2. apply insert_cases in Hj as [[-> ->]|[Hj' Hj]], Hk as [[-> ->]|[Hk' Hk]]; [done| | |].
    + cbn in Hh1. rewrite (Hx k w2 n' Hk' Hk Hh2) in Hh1. discriminate.
    + cbn in Hh2. rewrite (Hx j w1 n Hj' Hj Hh1) in Hh2. discriminate.
    + exact (Hcommit j k w1 w2 n n' Hj Hk Hh1 Hh2).
  - intros v Hv. apply Hobj. now apply Hkept.
  - intros Hn v Hv. destruct (of_object f) as [v'|] eqn:Eo.
    + rewrite (Hobj v' eq_refl) in Hv. injection Hv as <-. destruct (Hwhole Hn v' eq_refl) as (j & w' & Hj & Hd).
      destruct (decide (j = i)) as [->|Hne].
      * exists i, (mkWriter (wr_call w) state false). rewrite list_lookup_insert_eq by done. split; [done|]. cbn. now simplify_eq.
      * exists j, w'. now rewrite list_lookup_insert_ne.
    + exists i, (mkWriter (wr_call w) state false). rewrite list_lookup_insert_eq by done. split; [done|]. now apply Hnew.
Qed.

Lemma step_inv start s s' : write_step s s' -> writers_inv start s.1 s.2 -> writers_inv start s'.1 s'.2.
Proof.
  intros [i w ws f state f' Hi _ Hs|i w ws f state f' Hi _ Hs|i w ws f Hi] Hinv; cbn [fst snd] in *.
  - eapply advance_inv; eauto.
  - eapply advance_inv; eauto.
  - assert (E : forall j w', <[i := mkWriter (wr_call w) (wr_state w) true]> ws !! j = Some w' ->
      exists w'', ws !! j = Some w'' /\ wr_call w'' = wr_call w' /\ wr_state w'' = wr_state w').
    { intros j w' Hj. apply insert_cases in Hj as [[-> ->]|[_ Hj]]; eauto. }
    destruct Hinv as [Hcalls Hone Hcommit Hkept Hwhole]. split.
    + intros j w' Hj. destruct (E j w' Hj) as (w'' & Hw & Ec & Es). specialize (Hcalls j w'' Hw). unfold call_inv in *. now rewrite <- Ec, <- Es.
    + intros j k w1 w2 Hj Hk. destruct (E j w1 Hj) as (v1 & H1 & _ & <-), (E k w2 Hk) as (v2 & H2 & _ & <-). now apply Hone.
    + intros j k w1 w2 n n' Hj Hk. destruct (E j w1 Hj) as (v1 & H1 & _ & <-), (E k w2 Hk) as (v2 & H2 & _ & <-). now apply Hcommit.
    + done.
    + intros Hn v Hv. destruct (Hwhole Hn v Hv) as (j & w' & Hj & Hd). destruct (decide (j = i)) as [->|Hne].
      * exists i, (mkWriter (wr_call w) (wr_state w) true). rewrite list_lookup_insert_eq by now apply lookup_lt_Some in Hi.
        split; [done|]. cbn. now simplify_eq.
      * exists j, w'. now rewrite list_lookup_insert_ne.
Qed.

Lemma reachable_inv start ws f s : starting ws -> start = f -> rtc write_step (ws, f) s -> writers_inv start s.1 s.2.
Proof.
  intros Hs -> Hr. assert (H : writers_inv f (ws, f).1 (ws, f).2) by now apply start_inv.
  revert H. induction Hr; [done|]. intros H'. apply IHHr. eapply step_inv; eauto.
Qed.

(** C31: an object of the local backend is written at most once and whole,
    whatever the interleaving of the calls of Put that write it, and whatever
    steps of them fail or crash: an object that exists never changes; one that
    appears is all that the reader of one of the calls delivered, of the size
    the call was given, and no part of it is ever seen; a call that succeeds
    has its own data as the object, and no other call succeeds. *)
Theorem local_put_once start ws0 ws f : starting ws0 -> rtc write_step (ws0, start) (ws, f) ->
  (forall v, of_object start = Some v -> of_object f = Some v) /\
  (of_object start = None -> forall v, of_object f = Some v ->
     exists i w, ws !! i = Some w /\ v = delivered (pu_reader (wr_call w)) /\ sizeFits (wr_call w)) /\
  (forall i w n, ws !! i = Some w -> wr_state w = AtEnd (PutOk n) ->
     of_object f = Some (delivered (pu_reader (wr_call w))) /\ n = zlen (delivered (pu_reader (wr_call w)))) /\
  (forall i j w w' n n', ws !! i = Some w -> ws !! j = Some w' ->
     wr_state w = AtEnd (PutOk n) -> wr_state w' = AtEnd (PutOk n') -> i = j).
Proof.
  intros Hs Hr. destruct (reachable_inv start ws0 start _ Hs eq_refl Hr) as [Hcalls _ Hcommit Hkept Hwhole]. cbn [fst snd] in *.
  split; [done|]. split; [done|]. split.
  - intros i w n Hi E. destruct (Hcalls i w Hi) as (_ & _ & _ & Hk). destruct (Hk n) as (H1 & H2 & _); [now rewrite E|done].
  - intros i j w w' n n' Hi Hj E E'. apply (Hcommit i j w w' n n'); [done..|now rewrite E|now rewrite E'].
Qed.

(** *** A call alone *)

Fixpoint put_run (fuel : nat) (call : putCall) (state : putState) (f : ObjectFiles) : option putResult * ObjectFiles :=
  match state, fuel with
  | AtEnd result, _ => (Some result, f)
  | _, O => (None, f)
  | _, S fuel => let '(state, f) := put_step call state f in put_run fuel call state f
  end.

(** The steps of a call: one for each read of the reader, and seven more. *)
Definition put_fuel (call : putCall) : nat := stream_size (pu_reader call) + 10.

(** Put of the backend, when nothing fails and nobody interferes. *)
Definition Put (call : putCall) (f : ObjectFiles) : option putResult * ObjectFiles := put_run (put_fuel call) call AtStat f.

(** What ends the reader: the end of the stream, or an error. *)
Fixpoint ended (r : list read_result) : option string :=
  match r with
  | [] => None
  | RData _ :: rest => ended rest
  | REOF _ :: _ => None
  | RErr _ e :: _ => Some e
  end.

Lemma read_shrinks limit r bs r' : 0 < limit -> read limit r = (RData bs, r') ->
  (stream_size r' < stream_size r)%nat /\ ended r' = ended r.
Proof.
  intros Hl. destruct r as [|x rest]; [discriminate|]. cbn [read]. destruct (Z.ltb_spec limit (zlen (result_bytes x))) as [H|H].
  - intros [= _ <-]. rewrite !stream_size_cons, with_bytes_bytes, length_drop. unfold zlen in H. split; [lia|]. now destruct x.
  - intros [= -> <-]. rewrite stream_size_cons. split; [lia|done].
Qed.

Lemma read_ended limit r x r' : read limit r = (x, r') ->
  match x with RData _ => True | REOF _ => ended r = None | RErr _ e => ended r = Some e end.
Proof.
  destruct r as [|y rest]; cbn [read]; [intros [= <- _]; done|]. destruct (limit <? zlen (result_bytes y)); intros [= <- _]; [done|].
  now destruct y.
Qed.

(** What a call that found no object does with its data. *)
Definition put_outcome (call : putCall) : putResult * option bytes :=
  let data := delivered (pu_reader call) in
  match ended (pu_reader call) with
  | Some e => (PutError e, None)
  | None => if (0 <=? pu_size call) && negb (zlen data =? pu_size call) then (PutError "size mismatch", None) else (PutOk (zlen data), Some data)
  end.

Lemma copy_run call temps fuel : forall written rest, (stream_size rest + 4 <= fuel)%nat ->
  written ++ delivered rest = delivered (pu_reader call) -> ended rest = ended (pu_reader call) ->
  put_run fuel call (AtCopy written rest) (mkFiles None true (<[pu_suffix call := written]> temps)) =
  (Some (put_outcome call).1, mkFiles (put_outcome call).2 false (delete (pu_suffix call) temps)).
Proof.
  induction fuel as [|fuel IH]; intros written rest Hf Hd He; [lia|].
  cbn [put_run put_step]. pose proof (delivered_read copyBuffer rest ltac:(unfold copyBuffer; lia)) as Hr.
  destruct (read copyBuffer rest) as [x rest'] eqn:E. cbn [fst snd] in Hr. rewrite Hr, app_assoc in Hd.
  pose proof (read_ended _ _ _ _ E) as Hx. destruct x as [bs|bs|bs e]; cbn [result_bytes] in *; rewrite ?app_nil_r in Hd.
  - destruct (read_shrinks copyBuffer _ _ _ ltac:(unfold copyBuffer; lia) E) as [Hs He']. rewrite insert_insert_eq. apply IH; [lia|done|congruence].
  - unfold put_outcome. rewrite <- He, Hx, <- Hd. destruct fuel as [|[|[|fuel]]]; [lia..|].
    destruct ((0 <=? pu_size call) && negb (zlen (written ++ bs) =? pu_size call));
      cbn [put_run put_step]; rewrite ?lookup_insert_eq; cbn [fst snd]; rewrite ?insert_insert_eq, ?delete_insert_eq; now destruct fuel.
  - unfold put_outcome. rewrite <- He, Hx. destruct fuel as [|[|fuel]]; [lia..|]. cbn [put_run put_step].
    rewrite delete_insert_eq. now destruct fuel.
Qed.

(** Put returns, and does one of three things. *)
Lemma Put_alone call object lock : Put call (mkFiles object lock ∅) =
  match object, lock with
  | Some _, _ => (Some alreadyExists, mkFiles object lock ∅)
  | None, true => (Some (PutConflict "object is already being written"), mkFiles None true ∅)
  | None, false => (Some (put_outcome call).1, mkFiles (put_outcome call).2 false ∅)
  end.
Proof.
  unfold Put, put_fuel. replace (stream_size (pu_reader call) + 10)%nat with (S (S (S (S (stream_size (pu_reader call) + 6))))) by lia.
  destruct object as [v|]; [reflexivity|]. destruct lock; [reflexivity|].
  cbn [put_run put_step]. rewrite lookup_empty, copy_run by (done || lia). now rewrite delete_empty.
Qed.

Definition twoReads : putCall := mkPut "5e" [RData [Byte.x01]; REOF [Byte.x02]] 2.

Example put_examples :
  Put twoReads (mkFiles None false ∅) = (Some (PutOk 2), mkFiles (Some [Byte.x01; Byte.x02]) false ∅) /\
  Put twoReads (mkFiles (Some [Byte.x03]) false ∅) = (Some alreadyExists, mkFiles (Some [Byte.x03]) false ∅) /\
  Put (mkPut "5e" [REOF [Byte.x01]] 2) (mkFiles None false ∅) = (Some (PutError "size mismatch"), mkFiles None false ∅).
Proof. vm_compute. repeat split. Qed.

(** The lock of a call that crashed stays, and no later call writes the
    object. *)
Lemma stale_lock_blocks call object temps : object = None ->
  Put call (mkFiles object true temps) = (Some (PutConflict "object is already being written"), mkFiles object true temps).
Proof.
  intros ->. unfold Put, put_fuel. rewrite Nat.add_comm. reflexivity.
Qed.

Lemma local_put_once_witness :
  let start := mkFiles None false ∅ in
  let finished := [mkWriter twoReads (AtEnd (PutOk 2)) false; mkWriter (mkPut "7a" [REOF [Byte.x03]] (-1)) (AtEnd alreadyExists) false] in
  rtc write_step ([mkWriter twoReads AtStat false; mkWriter (mkPut "7a" [REOF [Byte.x03]] (-1)) AtStat false], start)
    (finished, mkFiles (Some [Byte.x01; Byte.x02]) false ∅) /\
  forall v, of_object (mkFiles (Some [Byte.x01; Byte.x02]) false ∅) = Some v -> exists i w, finished !! i = Some w /\
    v = delivered (pu_reader (wr_call w)) /\ sizeFits (wr_call w).
Proof.
  assert (H : forall s1 s2 s3 : list writer * ObjectFiles, write_step s1 s2 -> rtc write_step s2 s3 -> rtc write_step s1 s3) by eauto using rtc_l.
  intros start finished.
  assert (R : rtc write_step ([mkWriter twoReads AtStat false; mkWriter (mkPut "7a" [REOF [Byte.x03]] (-1)) AtStat false], start)
    (finished, mkFiles (Some [Byte.x01; Byte.x02]) false ∅)).
  { eapply H; [eapply (write_next 0); [reflexivity|reflexivity|vm_compute; reflexivity]|]. eapply H; [eapply (write_next 0); [reflexivity|reflexivity|vm_compute; reflexivity]|].
    do 7 (eapply H; [eapply (write_next 0); [reflexivity|reflexivity|vm_compute; reflexivity]|]).
    eapply H; [eapply (write_next 1); [reflexivity|reflexivity|vm_compute; reflexivity]|].
    apply rtc_refl. }
  split; [exact R|].
  assert (S : starting [mkWriter twoReads AtStat false; mkWriter (mkPut "7a" [REOF [Byte.x03]] (-1)) AtStat false])
    by (intros [|[|i]] w E; cbn in E; inversion E; reflexivity).
  exact (proj1 (proj2 (local_put_once start _ _ _ S R)) eq_refl).
Defined.

(** ** The backend

    The files below the root by their paths. The lock of an object is the file
    of the same path with .lock behind; one that a crashed call left stays. *)

Record Local := mkLocal { lo_root : string; lo_files : gmap string bytes }.

Definition lockPath (path : string) : string := (path ++ ".lock")%string.

Definition withFiles (b : Local) (files : gmap string bytes) : Local := mkLocal (lo_root b) files.

(** The files of one object. *)
Definition objectFiles (path : string) (b : Local) : ObjectFiles :=
  mkFiles (lo_files b !! path) (bool_decide (is_Some (lo_files b !! lockPath path))) ∅.

(** A reader of bytes, as bytes.NewReader is. *)
Definition bytesReader (data : bytes) : list read_result :=
  match data with [] => [REOF []] | _ => [RData data; REOF []] end.

Section operations.
Context (sha256 : bytes -> bytes).

Definition etagOf (data : bytes) : bytes := hashString (sha256 data).

Definition localPut (key : bytes) (reader : list read_result) (size : Z) (b : Local) : outcome (Z * bytes) * Local :=
  match pathForKey (lo_root b) (string_of_list_byte key) with
  | None => (Err "invalid object key", b)
  | Some path =>
      let '(result, f) := Put (mkPut "" reader size) (objectFiles path b) in
      let b' := match of_object f with Some data => withFiles b (<[path := data]> (lo_files b)) | None => b end in
      match result, of_object f with
      | Some (PutOk n), Some data => (Ok (n, etagOf data), b')
      | Some (PutConflict e), _ | Some (PutError e), _ => (Err e, b')
      | _, _ => (Err "stat committed object", b')
      end
  end.

Definition localGet (key : bytes) (b : Local) : outcome (bytes * (Z * bytes)) :=
  match pathForKey (lo_root b) (string_of_list_byte key) with
  | None => Err "invalid object key"
  | Some path => match lo_files b !! path with Some data => Ok (data, (zlen data, etagOf data)) | None => Err "not found" end
  end.

(** GetRange seeks, and limits what is read. *)
Definition localGetRange (key : bytes) (off len : Z) (b : Local) : outcome bytes :=
  if (off <? 0) || (len <? 0) then Err "invalid range"
  else match pathForKey (lo_root b) (string_of_list_byte key) with
       | None => Err "invalid object key"
       | Some path =>
           match lo_files b !! path with
           | Some data => Ok (take (Z.to_nat len) (drop (Z.to_nat off) data))
           | None => Err "not found"
           end
       end.

Definition localHead (key : bytes) (b : Local) : outcome (Z * bytes) := info <~ localGet key b ;; Ok info.2.

Definition localExists (key : bytes) (b : Local) : outcome bool :=
  match localHead key b with
  | Ok _ => Ok true
  | Err e => if String.eqb e "not found" then Ok false else Err e
  | Panic e => Panic e
  | Fuel => Fuel
  end.

Definition localDelete (key : bytes) (b : Local) : outcome unit * Local :=
  match pathForKey (lo_root b) (string_of_list_byte key) with
  | None => (Err "invalid object key", b)
  | Some path => (Ok tt, withFiles b (delete path (lo_files b)))
  end.

#[export] Instance localBackend : Backend Local := {
  be_put k v b := localPut k (bytesReader v) (zlen v) b;
  be_get k b := stored <~ localGet k b ;; Ok stored.1
}.

Lemma bytesReader_outcome v : put_outcome (mkPut "" (bytesReader v) (zlen v)) = (PutOk (zlen v), Some v).
Proof.
  unfold put_outcome. destruct v as [|x v]; [reflexivity|]. cbn [bytesReader pu_reader pu_size ended delivered].
  now rewrite app_nil_r, Z.eqb_refl, andb_false_r.
Qed.

(** What the backend's Put does with bytes. *)
Lemma be_put_local (k v : bytes) (b : Local) : be_put k v b =
  match pathForKey (lo_root b) (string_of_list_byte k) with
  | None => (Err "invalid object key", b)
  | Some path =>
      match lo_files b !! path, lo_files b !! lockPath path with
      | Some _, _ => (Err "object already exists", b)
      | None, Some _ => (Err "object is already being written", b)
      | None, None => (Ok (zlen v, etagOf v), withFiles b (<[path := v]> (lo_files b)))
      end
  end.
Proof.
  cbn [be_put localBackend]. unfold localPut, objectFiles. destruct (pathForKey _ _) as [path|]; [|done]. rewrite Put_alone.
  destruct (lo_files b !! path) as [w|] eqn:E; cbn [of_object].
  - cbn. rewrite insert_id by done. now destruct b.
  - rewrite bytesReader_outcome. destruct (lo_files b !! lockPath path); [rewrite bool_decide_true by eauto|rewrite bool_decide_false by (intros [? ?]; done)]; reflexivity.
Qed.

Lemma be_get_local (k : bytes) (b : Local) : be_get k b =
  match pathForKey (lo_root b) (string_of_list_byte k) with
  | None => Err "invalid object key"
  | Some path => match lo_files b !! path with Some data => Ok data | None => Err "not found" end
  end.
Proof. cbn. unfold localGet. destruct (pathForKey _ _) as [path|]; [|done]. now destruct (lo_files b !! path). Qed.

(** Two keys of one path are one object. *)
Lemma aliased_keys k k' (b : Local) : Clean (string_of_list_byte k) = Clean (string_of_list_byte k') ->
  pathForKey (lo_root b) (string_of_list_byte k) <> None -> pathForKey (lo_root b) (string_of_list_byte k') <> None ->
  be_get k b = be_get k' b.
Proof.
  intros Hc H H'. rewrite !be_get_local. destruct (pathForKey _ (string_of_list_byte k)) as [p|] eqn:E; [|done].
  destruct (pathForKey _ (string_of_list_byte k')) as [p'|] eqn:E'; [|done].
  apply key_names in E as (n & _ & _ & E1 & ->), E' as (n' & _ & _ & E1' & ->). now rewrite <- E1, <- E1', Hc.
Qed.

(** A range is the bytes of the object it covers. *)
Lemma localGetRange_spec k off len (b : Local) data : localGetRange k off len b = Ok data ->
  exists whole info before after, localGet k b = Ok (whole, info) /\ whole = before ++ data ++ after /\
    zlen before = Z.min off (zlen whole) /\ zlen data = Z.min len (zlen whole - zlen before).
Proof.
  unfold localGetRange, localGet. destruct ((off <? 0) || (len <? 0)) eqn:Eo; [discriminate|]. apply orb_false_iff in Eo as [Eo El].
  destruct (pathForKey _ _) as [path|]; [|discriminate]. destruct (lo_files b !! path) as [whole|]; [|discriminate]. intros [= <-].
  eexists whole, _, (take (Z.to_nat off) whole), (drop (Z.to_nat len) (drop (Z.to_nat off) whole)).
  split; [reflexivity|]. rewrite take_drop, take_drop. unfold zlen. rewrite !length_take, length_drop. split; [done|]. lia.
Qed.

End operations.

Definition toyLocal : Local := mkLocal "/srv/kronos" ∅.

Example local_examples :
  let sum (x : bytes) := x in
  let b := snd (be_put (Backend := localBackend sum) (list_byte_of_string "data/a") [Byte.x01; Byte.x02; Byte.x03] toyLocal) in
  lo_files b = {[ "/srv/kronos/data/a"%string := [Byte.x01; Byte.x02; Byte.x03] ]} /\
  fst (be_put (Backend := localBackend sum) (list_byte_of_string "data//a") [Byte.x04] b) = Err "object already exists" /\
  localGetRange (list_byte_of_string "data/a") 1 9 b = Ok [Byte.x02; Byte.x03] /\
  localExists sum (list_byte_of_string "data/b") b = Ok false /\
  localExists sum (list_byte_of_string "../b") b = Err "invalid object key" /\
  lo_files (snd (localDelete (list_byte_of_string "data/./a") b)) = ∅.
Proof. vm_compute. repeat split. Qed.
