(* ===== verification/WriteOnce.v ===== *)
(** * Backups of shared chunks into a store that never overwrites

    Models [agentPipelineFactory] of src/cmd/kronos/agent.go: the pipelines of
    the agent have no chunk index, so each run of [Feed] only knows the chunks
    it saw itself, and uploads every other one.

    Every backend of the repository refuses to put an object under a key that
    exists ([WriteOnceLaws]; shown here for the local one), and the key of a
    chunk is its hash. The theorem follows a run of the pipeline of Pipeline.v
    to what comes of the two together. *)

From Stdlib Require Import String.
From S2P Require Import Prelude FastCDC ChunkIndex ChunkHash Envelope Pipeline PipelineProofs GoText LocalFiles.
Local Open Scope Z_scope.

(** ** Stores that never overwrite *)

Class WriteOnceLaws (B : Type) `{Backend B} := {
  put_stored : forall k v b i b', be_put k v b = (Ok i, b') -> be_get k b' = Ok v;
  put_refuses : forall k v w b, be_get k b = Ok v -> exists e, be_put k w b = (Err e, b);
  put_keeps : forall k k' v w b, be_get k b = Ok v -> be_get k (be_put k' w b).2 = Ok v
}.

#[export] Instance localWriteOnce sha256 : @WriteOnceLaws Local (localBackend sha256).
Proof.
  split; intros k; intros *; rewrite ?be_put_local, ?be_get_local.
  - destruct (pathForKey _ _) as [path|] eqn:E; [|discriminate].
    destruct (lo_files b !! path) as [x|], (lo_files b !! lockPath path) as [y|]; try discriminate.
    intros [= _ <-]. cbn [lo_root withFiles lo_files]. now rewrite E, lookup_insert_eq.
  - destruct (pathForKey _ _) as [path|]; [|discriminate]. destruct (lo_files b !! path) as [x|]; [|discriminate]. eauto.
  - destruct (pathForKey (lo_root b) (string_of_list_byte k)) as [path|] eqn:E; [|discriminate].
    destruct (lo_files b !! path) as [x|] eqn:Ex; [|discriminate]. intros Hx.
    destruct (pathForKey (lo_root b) (string_of_list_byte k')) as [path'|]; cbn [snd]; [|now rewrite E, Ex].
    destruct (lo_files b !! path') as [x'|] eqn:Ex'; cbn [snd]; [now rewrite E, Ex|].
    destruct (lo_files b !! lockPath path'); cbn [snd lo_root withFiles lo_files]; rewrite E; [now rewrite Ex|].
    rewrite lookup_insert_ne by congruence. now rewrite Ex.
Qed.

(** ** The pipelines of the agent *)

Definition agentPipelineFactory (keyID : bytes) (compressor : option Compressor) (cipher : option Cipher) (storage : string)
    : outcome (option (Pipeline * dedup)) :=
  chunker <~ NewDefaultFastCDC ;; Ok (Some (mkPipeline chunker compressor cipher keyID, DSeen ∅)).

Section runs.
  Context (hashBytes : bytes -> bytes) {B : Type} {BE : Backend B} {BL : WriteOnceLaws B}.
  Context (p : Pipeline).

(** The run still has to upload a chunk of the hash [h]. *)
Definition pending (h : bytes) (s : pstate (B := B)) : Prop :=
  (exists c, c ∈ ps_chunks s /\ hashBytes (pc_data c) = h) /\ h ∉ dedup_entries (ps_dedup s) \/
  (exists x, x ∈ ps_hashed s /\ hc_hash x = h /\ hc_dup x = false) \/
  (exists x, x ∈ ps_encoded s /\ ec_key x = contentKey h /\ hc_dup (ec_chunk x) = false).

Definition present (h : bytes) (b : B) : Prop := exists v, be_get (contentKey h) b = Ok v.

Lemma in_mid {A} (x y : A) (l1 l2 : list A) : x ∈ l1 ++ y :: l2 -> x = y \/ x ∈ l1 ++ l2.
Proof. set_solver. Qed.

Lemma encode_keeps nonce x e : encodeFunc p nonce x = Ok e -> hc_dup x = false -> ec_key e = contentKey (hc_hash x) /\ hc_dup (ec_chunk e) = false.
Proof.
  unfold encodeFunc. cbv zeta. intros H Hd. rewrite Hd in H. destruct (pl_cipher p); [|discriminate].
  destruct (length (pl_keyID p) =? 0)%nat; [discriminate|]. destruct (co_write _ _); try discriminate.
  cbn [obind] in H. destruct (SealEnvelope _ _ _ _ _); try discriminate. injection H as <-. done.
Qed.

Lemma uploaded_present e b r b' h : hc_dup (ec_chunk e) = false -> ec_key e = contentKey h -> uploadFunc e b = (Ok r, b') -> present h b'.
Proof.
  unfold uploadFunc. intros -> ->. destruct (be_put _ _ b) as [[[size etag]|?|?|] b''] eqn:E; try discriminate. intros [= _ <-].
  eexists. eapply put_stored, E.
Qed.

Lemma upload_keeps e b r b' h : uploadFunc e b = (r, b') -> present h b -> present h b'.
Proof.
  unfold uploadFunc, present. destruct (hc_dup (ec_chunk e)); [intros [= _ <-]; done|]. intros E [v Hv].
  pose proof (put_keeps _ (ec_key e) v (ec_payload e) b Hv) as Hk.
  destruct (be_put _ _ b) as [[[size etag]|?|?|] b'']; injection E as _ <-; eauto.
Qed.

Lemma step_present h s s' : pstep hashBytes p s s' -> present h (ps_backend s) -> present h (ps_backend s').
Proof. intros [] Hp; cbn in *; try done. eapply upload_keeps; eauto. Qed.

(** A step that uploads a chunk of the hash [h]. *)
Definition uploads (h : bytes) (s s' : pstate (B := B)) : Prop := exists e r,
  ec_key e = contentKey h /\ hc_dup (ec_chunk e) = false /\ uploadFunc e (ps_backend s) = (Ok r, ps_backend s').

(** A chunk that waits is uploaded, or waits on. *)
Lemma step_pending h s s' : pstep hashBytes p s s' -> pending h s -> pending h s' \/ uploads h s s'.
Proof.
  intros [l1 c l2 hs es rs d b x d' Hh|cs l1 x l2 es rs d b nonce e He|cs hs l1 e l2 rs d b r b' Hu] Hp;
    unfold pending in *; cbn [ps_chunks ps_hashed ps_encoded ps_dedup ps_backend] in *.
  - left. unfold hashFunc in Hh. pose proof (dedup_add_spec d (hashBytes (pc_data c))) as Hd.
    destruct (dedup_add d (hashBytes (pc_data c))) as [dup d2]. injection Hh as <- <-. destruct Hd as [Hdup He].
    destruct Hp as [[(c' & Hc & Hx) Hn]|[(x & Hx & H1 & H2)|Hp]]; [|right; left; exists x; set_solver|auto].
    destruct (decide (hashBytes (pc_data c) = h)) as [E|E].
    + right. left. eexists. split; [apply elem_of_app; right; left|]. cbn. split; [done|]. destruct dup; [|done]. destruct Hn. rewrite <- E. tauto.
    + left. split; [|rewrite He; set_solver]. exists c'. split; [|done]. apply in_mid in Hc as [->|Hc]; [done|done].
  - left. destruct Hp as [Hp|[(y & Hy & H1 & H2)|(y & Hy & H1)]]; [now left| |].
    + apply in_mid in Hy as [->|Hy]; [|right; left; eauto]. right. right. destruct (encode_keeps _ _ _ He H2) as [Ek Ed].
      exists e. split; [set_solver|]. split; [congruence|done].
    + right. right. exists y. split; [set_solver|done].
  - destruct Hp as [Hp|[Hp|(y & Hy & H1 & H2)]]; [left; now left|left; right; now left|].
    apply in_mid in Hy as [->|Hy]; [|left; right; right; eauto]. right. exists e, r. done.
Qed.

Lemma run_present h s s' : rtc (pstep hashBytes p) s s' -> present h (ps_backend s) -> present h (ps_backend s').
Proof. induction 1; eauto using step_present. Qed.

(** A run that has nothing left to do has stored the chunk. *)
Lemma run_stores h s s' : rtc (pstep hashBytes p) s s' -> pending h s -> ~ pending h s' -> present h (ps_backend s').
Proof.
  induction 1 as [|s1 s2 s3 Hs Hr IH]; intros Hp Hn; [done|]. destruct (step_pending h _ _ Hs Hp) as [H2|(e & r & Hk & Hd & Hu)]; [auto|].
  eapply run_present; [done|]. eapply uploaded_present; eauto.
Qed.

(** A chunk that is stored already cannot be uploaded: it waits for ever. *)
Lemma run_blocked h s s' : rtc (pstep hashBytes p) s s' -> present h (ps_backend s) -> pending h s -> pending h s'.
Proof.
  induction 1 as [|s1 s2 s3 Hs Hr IH]; intros Hb Hp; [done|]. apply IH; [eapply step_present; eauto|].
  destruct (step_pending h _ _ Hs Hp) as [?|(e & r & Hk & Hd & Hu)]; [done|]. destruct Hb as [v Hv].
  unfold uploadFunc in Hu. rewrite Hd, Hk in Hu. destruct (put_refuses _ v (ec_payload e) _ Hv) as [m E]. rewrite E in Hu. discriminate.
Qed.

Lemma nothing_pending h rs d (b : B) : ~ pending h (mkPS [] [] [] rs d b).
Proof. unfold pending. cbn. set_solver. Qed.

Lemma start_pending c r d (b : B) : c ∈ stream_chunks p r -> hashBytes (pc_data c) ∉ dedup_entries d ->
  pending (hashBytes (pc_data c)) (feed_start p r d b).
Proof. intros Hc Hd. left. split; [|done]. now exists c. Qed.

(** A run that succeeds has stored each chunk that it did not know. *)
Lemma feed_stores c r d (b : B) x d' b' : Feed hashBytes p r d b (Ok x) d' b' ->
  c ∈ stream_chunks p r -> hashBytes (pc_data c) ∉ dedup_entries d -> present (hashBytes (pc_data c)) b'.
Proof.
  intros H Hc Hd. inversion H as [rs ? ? _ Hr| |]; subst.
  apply (run_stores _ _ _ Hr); [now apply start_pending|apply nothing_pending].
Qed.

Lemma feed_blocked c r d (b : B) result d' b' : Feed hashBytes p r d b result d' b' -> present (hashBytes (pc_data c)) b ->
  c ∈ stream_chunks p r -> hashBytes (pc_data c) ∉ dedup_entries d -> exists e, result = Err e.
Proof.
  intros H Hb Hc Hd. inversion H as [rs ? ? _ Hr| |]; subst; [|eauto..]. exfalso.
  eapply nothing_pending, (run_blocked _ _ _ Hr); [done|]. now apply start_pending.
Qed.
End runs.

(** C32: an agent backs up a chunk once and then never again: after a backup
    that succeeded, each later one whose stream has a chunk with the same
    content fails, as long as the chunk is kept. The pipelines of the agent
    have no index of the chunks that are stored, the key of a chunk is its
    hash, and no backend overwrites an object. *)
Theorem later_backup_fails hashBytes {B : Type} {BE : Backend B} {BL : WriteOnceLaws B}
  keyID compressor cipher storage storage' p d p' d' r r' c c' (b b1 b2 b3 : B) x d1 d2 result :
  agentPipelineFactory keyID compressor cipher storage = Ok (Some (p, d)) ->
  agentPipelineFactory keyID compressor cipher storage' = Ok (Some (p', d')) ->
  Feed hashBytes p r d b (Ok x) d1 b1 -> (forall k v, be_get k b1 = Ok v -> be_get k b2 = Ok v) ->
  c ∈ stream_chunks p r -> c' ∈ stream_chunks p' r' -> pc_data c = pc_data c' ->
  Feed hashBytes p' r' d' b2 result d2 b3 -> exists e, result = Err e.
Proof.
  intros Hp Hp' H Hk Hc Hc' E H'.
  assert (Hd : d = DSeen ∅ /\ d' = DSeen ∅).
  { unfold agentPipelineFactory in *. destruct NewDefaultFastCDC; [|discriminate..]. cbn in Hp, Hp'. now simplify_eq. }
  clear Hp Hp'. destruct Hd as [-> ->]. eapply (feed_blocked hashBytes p' c'); [exact H'| |done|set_solver]. rewrite <- E.
  destruct (feed_stores hashBytes p c r (DSeen ∅) b x d1 b1 H Hc ltac:(set_solver)) as [v Hv]. exists v. auto.
Qed.

(** ** Two backups of one content *)

Definition toyAgentCDC : FastCDC := Eval vm_compute in match NewDefaultFastCDC with Ok c => c | _ => tiny end.
Definition toyAgent : Pipeline := mkPipeline toyAgentCDC None (Some toyCipher) [Byte.x6b].

Lemma toy_factory storage : agentPipelineFactory [Byte.x6b] None (Some toyCipher) storage = Ok (Some (toyAgent, DSeen ∅)).
Proof. vm_compute. reflexivity. Qed.

Lemma toy_agent_chunks : chunkFunc toyAgent toyInput = (Ok tt, (1, [toy_chunk])).
Proof. vm_compute. reflexivity. Qed.

Definition toySum (x : bytes) : bytes := x.
#[local] Instance toyBackend : Backend Local := localBackend toySum.

Definition toy_sent : EncodedChunk :=
  match encodeFunc toyAgent [Byte.x09] toy_hashed with Ok e => e | _ => toy_encoded end.
Definition toy_stored : outcome ChunkRef * Local := uploadFunc toy_sent toyLocal.
Definition toy_stored_ref : ChunkRef := match toy_stored.1 with Ok r => r | _ => toy_ref end.

(** A run up to the chunk's upload. *)
Lemma toy_agent_sends (b : Local) : rtc (pstep padHash toyAgent) (feed_start toyAgent toyInput (DSeen ∅) b)
  (mkPS [] [] ([] ++ toy_sent :: []) [] (DSeen (∅ ∪ {[ padHash (pc_data toy_chunk) ]})) b).
Proof.
  unfold feed_start. rewrite toy_agent_chunks. cbn [snd].
  eapply rtc_l; [apply (st_hash padHash toyAgent [] toy_chunk [] [] [] [] (DSeen ∅) b toy_hashed (DSeen (∅ ∪ {[ padHash (pc_data toy_chunk) ]}))); vm_compute; reflexivity|].
  eapply rtc_l; [|apply rtc_refl].
  apply (st_encode padHash toyAgent [] [] toy_hashed [] [] [] _ b [Byte.x09] toy_sent). vm_compute. reflexivity.
Qed.

Lemma toy_first_backup : Feed padHash toyAgent toyInput (DSeen ∅) toyLocal
  (Ok ([toy_stored_ref], foldl addRef noStats [toy_stored_ref])) (DSeen (∅ ∪ {[ padHash (pc_data toy_chunk) ]})) toy_stored.2.
Proof.
  apply (feed_done padHash toyAgent toyInput (DSeen ∅) toyLocal [toy_stored_ref]); [now rewrite toy_agent_chunks|].
  etrans; [apply toy_agent_sends|]. eapply rtc_l; [|apply rtc_refl].
  apply (st_upload padHash toyAgent [] [] [] toy_sent [] [] _ toyLocal toy_stored_ref). vm_compute. reflexivity.
Qed.

Lemma toy_second_backup : Feed padHash toyAgent toyInput (DSeen ∅) toy_stored.2
  (Err "upload chunk: object already exists"%string) (DSeen (∅ ∪ {[ padHash (pc_data toy_chunk) ]})) toy_stored.2.
Proof.
  apply (feed_stage_error padHash toyAgent toyInput (DSeen ∅) toy_stored.2 _ _ (toy_agent_sends _)).
  apply (fail_upload toyAgent [] [] [] toy_sent [] [] _ toy_stored.2 "object already exists"%string toy_stored.2). vm_compute. reflexivity.
Qed.

Lemma later_backup_fails_witness : exists e, Err (A := list ChunkRef * Stats) "upload chunk: object already exists"%string = Err e.
Proof.
  assert (H : toy_chunk ∈ stream_chunks toyAgent toyInput) by (unfold stream_chunks; rewrite toy_agent_chunks; left).
  exact (later_backup_fails padHash (BL := localWriteOnce toySum) [Byte.x6b] None (Some toyCipher) "local" "local" toyAgent (DSeen ∅)
    toyAgent (DSeen ∅) toyInput toyInput toy_chunk toy_chunk toyLocal toy_stored.2 toy_stored.2 toy_stored.2 _ _ _ _
    (toy_factory _) (toy_factory _) toy_first_backup (fun k v E => E) H H eq_refl toy_second_backup).
Defined.
