(* ===== verification/Keys.v ===== *)
(** * Key slots

    Models src/internal/crypto/kdf.go, keyslot.go and the constructors of
    cipher.go, and the commands of src/cmd/kronos/key.go over the files they
    read and write. Argon2id, AES-GCM, SHA-256, JSON, the environment and what
    the random source delivers are parameters; a command takes its flags as a
    record, and other failures of the file system than a missing file are left
    out.

    The theorems show that a slot opens with its passphrase to the key that was
    put in, that commands keep the other slots, and that a new slot of an
    existing file can hold another root key. *)

From Stdlib Require Import Ascii String.
From S2P Require Import Prelude ChunkHash Core GoStrings GoText Envelope.
Local Open Scope Z_scope.
#[local] Arguments String.append !_ _ / : simpl nomatch.

Definition KeySlotFileVersion : Z := 1.
Definition keySlotSaltSize : Z := 32.
Definition keySlotRootKeySize : Z := 32.
Definition derivedKeySize : Z := 32.

Record KDFParams := mkKDF { kd_Time : Z; kd_Memory : Z; kd_Threads : Z; kd_KeyLen : Z }.

Definition DefaultKDFParams : KDFParams := mkKDF 3 (64 * 1024) 4 derivedKeySize.

Record KeySlot := mkSlot
  { ks_ID : string; ks_KDF : KDFParams; ks_Salt : bytes; ks_Nonce : bytes; ks_Ciphertext : bytes; ks_CreatedAt : Time }.

Record KeySlotFile := mkSlotFile { kf_Version : Z; kf_Algorithm : string; kf_Slots : list KeySlot }.

Definition keySlotAAD (id : string) : bytes := list_byte_of_string ("kronos-key-slot-v1:" ++ id).

(** The file of no slots. *)
Definition emptyFile : KeySlotFile := mkSlotFile KeySlotFileVersion AlgorithmAES256GCM [].

Definition slotNamed (id : string) (slot : KeySlot) : bool := String.eqb (ks_ID slot) id.

Section crypto.
Context (argon2 : bytes -> bytes -> KDFParams -> bytes) (gcmSeal : bytes -> bytes -> bytes -> bytes -> bytes)
        (gcmOpen : bytes -> bytes -> bytes -> bytes -> outcome bytes) (sha256 : bytes -> bytes) (clock : Time).

Definition DeriveKeyWithParams (passphrase salt : bytes) (params : KDFParams) : outcome bytes :=
  if zlen passphrase =? 0 then Err "passphrase is required"
  else if zlen salt <? 16 then Err "salt must be at least 16 bytes"
  else if kd_Time params =? 0 then Err "argon2id time cost must be greater than zero"
  else if kd_Memory params =? 0 then Err "argon2id memory cost must be greater than zero"
  else if kd_Threads params =? 0 then Err "argon2id threads must be greater than zero"
  else
    let keyLen := if kd_KeyLen params =? 0 then derivedKeySize else kd_KeyLen params in
    Ok (argon2 passphrase salt (mkKDF (kd_Time params) (kd_Memory params) (kd_Threads params) keyLen)).

Definition DeriveKey (passphrase salt : bytes) : outcome bytes := DeriveKeyWithParams passphrase salt DefaultKDFParams.

Definition NewAES256GCM (key : bytes) : outcome Cipher :=
  if negb (zlen key =? 32) then Err "aes-256-gcm key must be 32 bytes" else Ok (mkCipher AlgorithmAES256GCM (gcmSeal key) (gcmOpen key)).

(** AddSlot with the salt and the nonce it draws. *)
Definition AddSlot (f : KeySlotFile) (rootKey : bytes) (id : string) (passphrase : bytes) (now : Time) (salt nonce : outcome bytes) : outcome KeySlotFile :=
  let version := if kf_Version f =? 0 then KeySlotFileVersion else kf_Version f in
  let algorithm := if String.eqb (kf_Algorithm f) "" then AlgorithmAES256GCM else kf_Algorithm f in
  if negb (version =? KeySlotFileVersion) then Err "unsupported key slot file version"
  else if negb (String.eqb algorithm AlgorithmAES256GCM) then Err "unsupported key slot algorithm"
  else if negb (zlen rootKey =? keySlotRootKeySize) then Err "root key must be 32 bytes"
  else if String.eqb id "" then Err "--id is required"
  else if existsb (slotNamed id) (kf_Slots f) then Err "key slot already exists"
  else
    let now := if TimeIsZero now then clock else now in
    salt <~ salt ;;
    derived <~ DeriveKeyWithParams passphrase salt DefaultKDFParams ;;
    cipher <~ NewAES256GCM derived ;;
    nonce <~ nonce ;;
    let slot := mkSlot id DefaultKDFParams (hexEncode salt) (hexEncode nonce) (hexEncode (ci_seal cipher nonce rootKey (keySlotAAD id))) now in
    Ok (mkSlotFile version algorithm (kf_Slots f ++ [slot])).

Definition NewKeySlotFile (rootKey : bytes) (id : string) (passphrase : bytes) (now : Time) (salt nonce : outcome bytes) : outcome KeySlotFile :=
  AddSlot emptyFile rootKey id passphrase now salt nonce.

(** The first slot of the name decides. *)
Definition unlockSlot (slot : KeySlot) (passphrase : bytes) : outcome bytes :=
  salt <~ hexDecode (ks_Salt slot) ;;
  nonce <~ hexDecode (ks_Nonce slot) ;;
  ciphertext <~ hexDecode (ks_Ciphertext slot) ;;
  derived <~ DeriveKeyWithParams passphrase salt (ks_KDF slot) ;;
  cipher <~ NewAES256GCM derived ;;
  rootKey <~ ci_open cipher nonce ciphertext (keySlotAAD (ks_ID slot)) ;;
  if negb (zlen rootKey =? keySlotRootKeySize) then Err "slot unlocked invalid root key length" else Ok rootKey.

Definition Unlock (f : KeySlotFile) (id : string) (passphrase : bytes) : outcome bytes :=
  match find (slotNamed id) (kf_Slots f) with
  | Some slot => unlockSlot slot passphrase
  | None => Err "key slot not found"
  end.

Fixpoint removeFirst (id : string) (slots : list KeySlot) : list KeySlot :=
  match slots with [] => [] | slot :: rest => if slotNamed id slot then rest else slot :: removeFirst id rest end.

Definition RemoveSlot (f : KeySlotFile) (id : string) (allowEmpty : bool) : outcome KeySlotFile :=
  if String.eqb id "" then Err "--id is required"
  else if negb (existsb (slotNamed id) (kf_Slots f)) then Err "key slot not found"
  else if (length (kf_Slots f) =? 1)%nat && negb allowEmpty then Err "refusing to remove the last key slot without --yes"
  else Ok (mkSlotFile (kf_Version f) (kf_Algorithm f) (removeFirst id (kf_Slots f))).

Definition RootKeyFingerprint (rootKey : bytes) : bytes := hexEncode (take 8 (sha256 rootKey)).

(** ** Files of key slots *)

Context (marshalIndent : KeySlotFile -> option bytes) (unmarshal : bytes -> option KeySlotFile).

Fixpoint checkSlots (seen : list string) (slots : list KeySlot) : outcome unit :=
  match slots with
  | [] => Ok tt
  | slot :: rest =>
      if String.eqb (ks_ID slot) "" then Err "key slot id is required"
      else if existsb (String.eqb (ks_ID slot)) seen then Err "duplicate key slot"
      else checkSlots (ks_ID slot :: seen) rest
  end.

Definition ParseKeySlotFile (data : bytes) : outcome KeySlotFile :=
  match unmarshal data with
  | None => Err "invalid JSON"
  | Some file =>
      if negb (kf_Version file =? KeySlotFileVersion) then Err "unsupported key slot file version"
      else if negb (String.eqb (kf_Algorithm file) AlgorithmAES256GCM) then Err "unsupported key slot algorithm"
      else _ <~ checkSlots [] (kf_Slots file) ;; Ok file
  end.

Definition Marshal (f : KeySlotFile) : outcome bytes :=
  match marshalIndent f with Some data => Ok (data ++ [Byte.x0a]) | None => Err "marshal" end.

(** ** Commands *)

Context (getenv : string -> string).

Abbreviation Files := (gmap string bytes).

Definition readFileBounded (path : string) (limit : Z) (fs : Files) : outcome (option bytes) :=
  match fs !! path with
  | None => Ok None
  | Some data => if limit <? zlen data then Err "file exceeds the limit" else Ok (Some data)
  end.

(** strings.TrimRight of line ends. *)
Fixpoint trimRightLines (data : bytes) : bytes :=
  match data with
  | [] => []
  | b :: rest => match trimRightLines rest with [] => if Byte.eqb b Byte.x0a || Byte.eqb b Byte.x0d then [] else [b] | t => b :: t end
  end.

(** The sources of a passphrase: a value, a variable or a file. *)
Record passphraseFlags := mkPassphrase { pf_value : string; pf_env : string; pf_file : string }.

Definition given (s : string) : nat := if String.eqb s "" then 0 else 1.

Definition passphraseValue (p : passphraseFlags) (fs : Files) : outcome bytes :=
  if negb (given (pf_value p) + given (pf_env p) + given (pf_file p) =? 1)%nat then Err "exactly one passphrase source is required"
  else if negb (String.eqb (pf_value p) "") then Ok (list_byte_of_string (pf_value p))
  else if negb (String.eqb (pf_env p) "") then
    if String.eqb (getenv (pf_env p)) "" then Err "environment variable is empty" else Ok (list_byte_of_string (getenv (pf_env p)))
  else
    data <~ readFileBounded (pf_file p) (1024 * 1024) fs ;;
    match data with Some data => Ok (trimRightLines data) | None => Err "file does not exist" end.

Definition loadKeySlotFile (path : string) (fs : Files) : outcome (KeySlotFile * bool) :=
  data <~ readFileBounded path (16 * 1024 * 1024) fs ;;
  match data with
  | None => Ok (emptyFile, false)
  | Some data => file <~ ParseKeySlotFile data ;; Ok (file, true)
  end.

Definition saveKeySlotFile (path : string) (file : KeySlotFile) : M Files unit :=
  data <-- mlift (Marshal file) ;; fun fs => (Ok tt, <[path := data]> fs).

Record addSlotFlags := mkAddSlot
  { as_file : string; as_id : string; as_rootKey : bytes; as_generateRoot : bool; as_passphrase : passphraseFlags;
    as_unlockSlot : string; as_unlock : passphraseFlags }.

(** The bytes a command draws: a root key, a salt and a nonce. *)
Record draws := mkDraws { dr_root : outcome bytes; dr_salt : outcome bytes; dr_nonce : outcome bytes }.

Definition rootKeyForAddSlot (file : KeySlotFile) (exists' : bool) (flags : addSlotFlags) (d : draws) (fs : Files) : outcome bytes :=
  let given := negb (zlen (as_rootKey flags) =? 0) in
  if given && as_generateRoot flags then Err "use either --root-key or --generate-root-key, not both"
  else if given then
    rootKey <~ hexDecode (as_rootKey flags) ;;
    if negb (zlen rootKey =? 32) then Err "--root-key must decode to 32 bytes" else Ok rootKey
  else if as_generateRoot flags then dr_root d
  else if negb exists' then Err "new key slot files require --root-key or --generate-root-key"
  else
    passphrase <~ passphraseValue (as_unlock flags) fs ;;
    Unlock file (as_unlockSlot flags) passphrase.

(** The number of slots and the fingerprint that are written out. *)
Definition runKeyAddSlot (flags : addSlotFlags) (now : Time) (d : draws) : M Files (nat * bytes) := fun fs =>
  if String.eqb (as_file flags) "" then (Err "--file is required"%string, fs)
  else if String.eqb (as_id flags) "" then (Err "--id is required"%string, fs)
  else
    (newPassphrase <-- mlift (passphraseValue (as_passphrase flags) fs) ;;
     loaded <-- mlift (loadKeySlotFile (as_file flags) fs) ;;
     rootKey <-- mlift (rootKeyForAddSlot loaded.1 loaded.2 flags d fs) ;;
     file <-- mlift (AddSlot loaded.1 rootKey (as_id flags) newPassphrase now (dr_salt d) (dr_nonce d)) ;;
     _ <-- saveKeySlotFile (as_file flags) file ;;
     mret (length (kf_Slots file), RootKeyFingerprint rootKey)) fs.

Definition runKeyList (path : string) (fs : Files) : outcome (Z * string * list (string * KDFParams * Time)) :=
  if String.eqb path "" then Err "--file is required"
  else
    loaded <~ loadKeySlotFile path fs ;;
    Ok (kf_Version loaded.1, kf_Algorithm loaded.1, map (fun slot => (ks_ID slot, ks_KDF slot, ks_CreatedAt slot)) (kf_Slots loaded.1)).

Definition runKeyRemoveSlot (path id : string) (yes : bool) : M Files nat := fun fs =>
  if String.eqb path "" then (Err "--file is required"%string, fs)
  else
    (loaded <-- mlift (loadKeySlotFile path fs) ;;
     file <-- mlift (RemoveSlot loaded.1 id yes) ;;
     _ <-- saveKeySlotFile path file ;;
     mret (length (kf_Slots file))) fs.

Record rotateFlags := mkRotate
  { rt_file : string; rt_out : string; rt_id : string; rt_passphrase : passphraseFlags; rt_unlockSlot : string; rt_unlock : passphraseFlags }.

(** The fingerprints of the old and the new root key. *)
Definition runKeyRotate (flags : rotateFlags) (now : Time) (d : draws) : M Files (bytes * bytes) := fun fs =>
  if String.eqb (rt_file flags) "" then (Err "--file is required"%string, fs)
  else if String.eqb (rt_out flags) "" then (Err "--out is required"%string, fs)
  else if String.eqb (rt_id flags) "" then (Err "--id is required"%string, fs)
  else
    (loaded <-- mlift (loadKeySlotFile (rt_file flags) fs) ;;
     oldPassphrase <-- mlift (passphraseValue (rt_unlock flags) fs) ;;
     oldRoot <-- mlift (Unlock loaded.1 (rt_unlockSlot flags) oldPassphrase) ;;
     newPassphrase <-- mlift (passphraseValue (rt_passphrase flags) fs) ;;
     newRoot <-- mlift (dr_root d) ;;
     rotated <-- mlift (NewKeySlotFile newRoot (rt_id flags) newPassphrase now (dr_salt d) (dr_nonce d)) ;;
     _ <-- saveKeySlotFile (rt_out flags) rotated ;;
     mret (RootKeyFingerprint oldRoot, RootKeyFingerprint newRoot)) fs.

Definition runKeyEscrowExport (path out : string) : M Files nat := fun fs =>
  if String.eqb path "" then (Err "--file is required"%string, fs)
  else if String.eqb out "" then (Err "--out is required"%string, fs)
  else
    (loaded <-- mlift (loadKeySlotFile path fs) ;;
     _ <-- saveKeySlotFile out loaded.1 ;;
     mret (length (kf_Slots loaded.1))) fs.
End crypto.

(** ** What the commands keep *)

(** What ParseKeySlotFile accepts. *)
Definition wellFormed (f : KeySlotFile) : Prop :=
  kf_Version f = KeySlotFileVersion /\ kf_Algorithm f = AlgorithmAES256GCM /\ checkSlots [] (kf_Slots f) = Ok tt.

Lemma checkSlots_spec slots : forall seen, checkSlots seen slots = Ok tt <->
  NoDup (map ks_ID slots) /\ ~ In EmptyString (map ks_ID slots) /\ forall id, In id (map ks_ID slots) -> ~ In id seen.
Proof.
  induction slots as [|slot rest IH]; intros seen; cbn [checkSlots map].
  - split; [|done]. intros _. split; [apply NoDup_nil_2|]. split; [intros []|intros ? []].
  - destruct (String.eqb_spec (ks_ID slot) ""%string) as [E|E].
    { split; [discriminate|]. intros (_ & H & _). destruct H. now left. }
    destruct (existsb (String.eqb (ks_ID slot)) seen) eqn:Es.
    { split; [discriminate|]. intros (_ & _ & H). destruct (H (ks_ID slot) (or_introl eq_refl)).
      apply existsb_exists in Es as (x & Hx & ->%String.eqb_eq). done. }
    assert (Hs : ~ In (ks_ID slot) seen).
    { intros Hi. rewrite <- not_true_iff_false in Es. apply Es. apply existsb_exists. exists (ks_ID slot). split; [done|]. apply String.eqb_refl. }
    rewrite IH. rewrite NoDup_cons. split.
    + intros (H1 & H2 & H3). split; [split; [|done]|].
      * intros Hi%list_elem_of_In. apply (H3 _ Hi). now left.
      * split; [intros [H|H]; done|]. intros id [<-|Hi]; [done|]. intros H. apply (H3 id Hi). now right.
    + intros ((H1 & H2) & H3 & H4). split; [done|]. split; [intros H; apply H3; now right|].
      intros id Hi [<-|H]; [apply H1; now apply list_elem_of_In|]. apply (H4 id); [now right|done].
Qed.

Lemma wellFormed_empty : wellFormed emptyFile.
Proof. done. Qed.

Lemma find_app {A} (p : A -> bool) a b : find p (a ++ b) = match find p a with Some x => Some x | None => find p b end.
Proof. induction a as [|x a IH]; [done|]. cbn. destruct (p x); [done|exact IH]. Qed.

Lemma find_existsb {A} (p : A -> bool) l : existsb p l = false -> find p l = None.
Proof. induction l as [|x l IH]; [done|]. cbn. destruct (p x); [done|exact IH]. Qed.

Lemma parse_wellFormed unmarshal data f : ParseKeySlotFile unmarshal data = Ok f -> wellFormed f.
Proof.
  unfold ParseKeySlotFile. destruct (unmarshal data) as [file|]; [|done]. destruct (Z.eqb_spec (kf_Version file) KeySlotFileVersion); [|done].
  destruct (String.eqb_spec (kf_Algorithm file) AlgorithmAES256GCM); [|done]. cbn [negb].
  destruct (checkSlots [] (kf_Slots file)) as [[]|?|?|] eqn:E; [|done..]. intros [= <-]. done.
Qed.

Lemma load_wellFormed unmarshal path fs f e : loadKeySlotFile unmarshal path fs = Ok (f, e) -> wellFormed f.
Proof.
  unfold loadKeySlotFile. destruct (readFileBounded _ _ _) as [[data|]|?|?|]; cbn [obind]; try done; [|intros [= <- _]; apply wellFormed_empty].
  destruct (ParseKeySlotFile unmarshal data) as [file|?|?|] eqn:E; cbn [obind]; try done. intros [= <- _]. exact (parse_wellFormed _ _ _ E).
Qed.

Section laws.
Context (argon2 : bytes -> bytes -> KDFParams -> bytes) (gcmSeal : bytes -> bytes -> bytes -> bytes -> bytes)
        (gcmOpen : bytes -> bytes -> bytes -> bytes -> outcome bytes) (sha256 : bytes -> bytes) (clock : Time).
Context (marshalIndent : KeySlotFile -> option bytes) (unmarshal : bytes -> option KeySlotFile) (getenv : string -> string).
(** AES-GCM opens what it sealed, and JSON is read back. *)
Hypothesis gcm_open_seal : forall key nonce data aad, gcmOpen key nonce (gcmSeal key nonce data aad) aad = Ok data.
Hypothesis unmarshal_marshal : forall f data, marshalIndent f = Some data -> unmarshal (data ++ [Byte.x0a]) = Some f.

Abbreviation Add := (AddSlot argon2 gcmSeal gcmOpen clock).
Abbreviation Open := (Unlock argon2 gcmSeal gcmOpen).

(** A slot opens with its passphrase to the key that was put in, and the
    other slots are as they were. *)
Lemma add_slot_exact f root id pass now salt nonce f' : wellFormed f -> Add f root id pass now salt nonce = Ok f' ->
  wellFormed f' /\ Open f' id pass = Ok root /\ forall id' pass', id' <> id -> Open f' id' pass' = Open f id' pass'.
Proof.
  intros (Hv & Ha & Hc). unfold AddSlot. rewrite Hv, Ha. cbn [Z.eqb String.eqb KeySlotFileVersion Pos.eqb negb].
  change (String.eqb AlgorithmAES256GCM "") with false. cbv iota. rewrite String.eqb_refl. cbn [negb].
  destruct (Z.eqb_spec (zlen root) keySlotRootKeySize) as [Hr|]; [|discriminate]. cbn [negb].
  destruct (String.eqb_spec id "") as [|Hid]; [discriminate|]. destruct (existsb (slotNamed id) (kf_Slots f)) eqn:Ee; [discriminate|].
  destruct salt as [salt|?|?|]; [|discriminate..]. cbn [obind].
  destruct (DeriveKeyWithParams argon2 pass salt DefaultKDFParams) as [derived|?|?|] eqn:Ed; [|discriminate..]. cbn [obind].
  destruct (NewAES256GCM gcmSeal gcmOpen derived) as [cipher|?|?|] eqn:Ec; [|discriminate..]. cbn [obind].
  destruct nonce as [nonce|?|?|]; [|discriminate..]. cbn [obind]. intros [= <-].
  assert (Hcip : cipher = mkCipher AlgorithmAES256GCM (gcmSeal derived) (gcmOpen derived)).
  { unfold NewAES256GCM in Ec. destruct (negb _); [discriminate|]. now injection Ec. }
  split; [|split].
  - split; [done|]. split; [done|]. cbn [kf_Slots]. apply checkSlots_spec. apply checkSlots_spec in Hc as (H1 & H2 & _).
    rewrite map_app. cbn [map ks_ID]. split; [|split; [|intros ? _ []]].
    + apply NoDup_app. split; [done|]. split; [|apply NoDup_singleton]. intros x Hx Hx'. apply list_elem_of_singleton in Hx' as ->.
      apply list_elem_of_In, in_map_iff in Hx as (slot & Hn & Hi). rewrite <- not_true_iff_false in Ee. apply Ee.
      apply existsb_exists. exists slot. split; [done|]. now apply String.eqb_eq.
    + intros Hi%in_app_or. destruct Hi as [Hi|[Hi|[]]]; [done|congruence].
  - unfold Unlock. cbn [kf_Slots]. rewrite find_app, (find_existsb _ _ Ee). cbn [find]. unfold slotNamed at 1. cbn [ks_ID]. rewrite String.eqb_refl.
    unfold unlockSlot. cbn [ks_Salt ks_Nonce ks_Ciphertext ks_KDF ks_ID]. rewrite !hexDecode_encode. cbn [obind].
    rewrite Ed. cbn [obind]. rewrite Ec. cbn [obind]. rewrite Hcip. cbn [ci_open ci_seal]. rewrite gcm_open_seal. cbn [obind]. now rewrite Hr, Z.eqb_refl.
  - intros id' pass' Hne. unfold Unlock. cbn [kf_Slots]. rewrite find_app. destruct (find (slotNamed id') (kf_Slots f)); [done|].
    cbn [find]. unfold slotNamed. cbn [ks_ID]. destruct (String.eqb_spec id id'); [congruence|done].
Qed.

(** What saving leaves in the file is read back. *)
Lemma save_parse path f fs fs' : wellFormed f -> saveKeySlotFile marshalIndent path f fs = (Ok tt, fs') ->
  exists data, fs' = <[path := data]> fs /\ ParseKeySlotFile unmarshal data = Ok f.
Proof.
  intros (Hv & Ha & Hc). unfold saveKeySlotFile, Marshal, mbind, mlift. destruct (marshalIndent f) as [data|] eqn:E; [|discriminate].
  intros [= <-]. exists (data ++ [Byte.x0a]). split; [done|]. unfold ParseKeySlotFile. rewrite (unmarshal_marshal _ _ E), Hv, Ha, Hc. reflexivity.
Qed.

(** Where the root key of a new slot comes from. *)
Definition rootFrom (f : KeySlotFile) (flags : addSlotFlags) (d : draws) (fs : gmap string bytes) (root : bytes) : Prop :=
  if negb (zlen (as_rootKey flags) =? 0) then hexDecode (as_rootKey flags) = Ok root
  else if as_generateRoot flags then dr_root d = Ok root
  else exists pass, passphraseValue getenv (as_unlock flags) fs = Ok pass /\ Open f (as_unlockSlot flags) pass = Ok root.

(** C27: the slot that a command adds to a file of key slots opens with its
    passphrase, to the key the command was given, drew, or unlocked with an
    existing slot; every slot that was there opens as before, with the same
    passphrases to the same keys, and no other file changes. A key that is
    given or drawn is not compared with the one of the other slots, so that a
    file can come to hold two root keys. *)
Theorem added_slot_opens flags now d fs res fs' :
  runKeyAddSlot argon2 gcmSeal gcmOpen sha256 clock marshalIndent unmarshal getenv flags now d fs = (Ok res, fs') ->
  exists f f' e pass root data,
    loadKeySlotFile unmarshal (as_file flags) fs = Ok (f, e) /\ fs' = <[as_file flags := data]> fs /\ ParseKeySlotFile unmarshal data = Ok f' /\
    passphraseValue getenv (as_passphrase flags) fs = Ok pass /\ Open f' (as_id flags) pass = Ok root /\ rootFrom f flags d fs root /\
    forall id pass, id <> as_id flags -> Open f' id pass = Open f id pass.
Proof.
  unfold runKeyAddSlot. destruct (String.eqb (as_file flags) ""); [discriminate|]. destruct (String.eqb (as_id flags) ""); [discriminate|].
  unfold mbind at 1, mlift at 1. destruct (passphraseValue getenv (as_passphrase flags) fs) as [pass|?|?|]; [|discriminate..].
  unfold mbind at 1, mlift at 1. destruct (loadKeySlotFile unmarshal (as_file flags) fs) as [[f e]|?|?|] eqn:El; [|discriminate..].
  unfold mbind at 1, mlift at 1. destruct (rootKeyForAddSlot _ _ _ _ _ _ _ _ _) as [root|?|?|] eqn:Er; [|discriminate..].
  unfold mbind at 1, mlift at 1. destruct (AddSlot _ _ _ _ _ _ _ _ _ _ _) as [f'|?|?|] eqn:Ea; [|discriminate..]. cbn [fst snd] in *.
  unfold mbind at 1. destruct (saveKeySlotFile _ _ _ _) as [[[]|?|?|] fs1] eqn:Es; [|discriminate..]. intros [= _ <-].
  destruct (add_slot_exact _ _ _ _ _ _ _ _ (load_wellFormed _ _ _ _ _ El) Ea) as (Hw & Ho & Hk).
  destruct (save_parse _ _ _ _ Hw Es) as (data & -> & Hp). exists f, f', e, pass, root, data. repeat (split; [done|]). split; [|done].
  unfold rootKeyForAddSlot in Er. unfold rootFrom. destruct (negb (zlen (as_rootKey flags) =? 0)) eqn:Eg; cbn [andb] in Er.
  - destruct (as_generateRoot flags); [discriminate|]. destruct (hexDecode (as_rootKey flags)) as [k|?|?|]; [|discriminate..]. cbn [obind] in Er.
    destruct (negb (zlen k =? 32)); [discriminate|exact Er].
  - destruct (as_generateRoot flags); [exact Er|]. destruct e; [|discriminate]. cbn [negb] in Er.
    destruct (passphraseValue getenv (as_unlock flags) fs) as [old|?|?|]; [|discriminate..]. eauto.
Qed.

(** RemoveSlot leaves the other slots, and none of the name. *)
Lemma remove_slot_exact f id allow f' : wellFormed f -> RemoveSlot f id allow = Ok f' ->
  wellFormed f' /\ (forall pass, Open f' id pass = Err "key slot not found"%string) /\ (forall id' pass, id' <> id -> Open f' id' pass = Open f id' pass) /\
  (allow = false -> kf_Slots f' <> []).
Proof.
  intros (Hv & Ha & Hc). unfold RemoveSlot. destruct (String.eqb id ""); [discriminate|]. destruct (existsb (slotNamed id) (kf_Slots f)) eqn:Ee; [|discriminate].
  cbn [negb]. destruct ((length (kf_Slots f) =? 1)%nat && negb allow) eqn:El; [discriminate|]. intros [= <-].
  apply checkSlots_spec in Hc as (H1 & H2 & _).
  assert (Hr : exists a slot b, kf_Slots f = a ++ slot :: b /\ removeFirst id (kf_Slots f) = a ++ b /\ ks_ID slot = id /\ existsb (slotNamed id) a = false).
  { clear -Ee. induction (kf_Slots f) as [|slot rest IH]; [discriminate|]. cbn [existsb removeFirst] in *. destruct (slotNamed id slot) eqn:E.
    - exists [], slot, rest. apply String.eqb_eq in E. done.
    - destruct (IH Ee) as (a & s & b & H1 & -> & H3 & H4). exists (slot :: a), s, b. rewrite H1. cbn [existsb]. rewrite E. done. }
  destruct Hr as (a & slot & b & Hs & Hr & Hid & Hna). rewrite Hs, map_app in H1, H2. cbn [map] in H1, H2. rewrite Hid in H1, H2.
  apply NoDup_app in H1 as (N1 & N2 & N3). apply NoDup_cons in N3 as (N3 & N4).
  assert (Hnb : existsb (slotNamed id) b = false).
  { apply not_true_iff_false. intros H. apply existsb_exists in H as (s & Hi & E%String.eqb_eq). apply N3, list_elem_of_In, in_map_iff. eauto. }
  unfold Unlock, wellFormed. cbn [kf_Version kf_Algorithm kf_Slots]. rewrite Hr, Hs. split; [|split; [|split]].
  - split; [done|]. split; [done|]. apply checkSlots_spec. rewrite map_app. split; [|split; [|intros ? _ []]].
    + apply NoDup_app. split; [done|]. split; [|done]. intros x Hx Hx'. apply (N2 x Hx). now right.
    + intros Hi. apply H2. apply in_app_or in Hi as [Hi|Hi]; apply in_or_app; [now left|right; now right].
  - intros pass. now rewrite find_app, (find_existsb _ _ Hna), (find_existsb _ _ Hnb).
  - intros id' pass Hne. rewrite !find_app. destruct (find (slotNamed id') a); [done|]. cbn [find]. unfold slotNamed at 2. rewrite Hid.
    destruct (String.eqb_spec id id'); [congruence|done].
  - intros ->. rewrite andb_true_r, Hs, length_app in El. cbn [length] in El. intros H. apply (f_equal length) in H. rewrite length_app in H. cbn [length] in H.
    apply Nat.eqb_neq in El. lia.
Qed.

(** An escrow copy reads as the file it was made of. *)
Lemma escrow_copy path out fs n fs' : runKeyEscrowExport marshalIndent unmarshal path out fs = (Ok n, fs') ->
  exists f e data, loadKeySlotFile unmarshal path fs = Ok (f, e) /\ fs' = <[out := data]> fs /\ ParseKeySlotFile unmarshal data = Ok f /\ n = length (kf_Slots f).
Proof.
  unfold runKeyEscrowExport. destruct (String.eqb path ""); [discriminate|]. destruct (String.eqb out ""); [discriminate|].
  unfold mbind at 1, mlift at 1. destruct (loadKeySlotFile unmarshal path fs) as [[f e]|?|?|] eqn:El; [|discriminate..].
  unfold mbind at 1. destruct (saveKeySlotFile _ _ _ _) as [[[]|?|?|] fs1] eqn:Es; [|discriminate..]. intros [= <- <-].
  destruct (save_parse _ _ _ _ (load_wellFormed _ _ _ _ _ El) Es) as (data & -> & Hp). eauto 8.
Qed.

(** A rotation needs a slot of the file, and writes a file of one slot with
    the new key. *)
Lemma rotate_exact flags now d fs res fs' :
  runKeyRotate argon2 gcmSeal gcmOpen sha256 clock marshalIndent unmarshal getenv flags now d fs = (Ok res, fs') ->
  exists f e oldPass oldRoot newPass newRoot f' data,
    loadKeySlotFile unmarshal (rt_file flags) fs = Ok (f, e) /\ passphraseValue getenv (rt_unlock flags) fs = Ok oldPass /\ Open f (rt_unlockSlot flags) oldPass = Ok oldRoot /\
    passphraseValue getenv (rt_passphrase flags) fs = Ok newPass /\ dr_root d = Ok newRoot /\ fs' = <[rt_out flags := data]> fs /\
    ParseKeySlotFile unmarshal data = Ok f' /\ Open f' (rt_id flags) newPass = Ok newRoot /\ map ks_ID (kf_Slots f') = [rt_id flags].
Proof.
  unfold runKeyRotate. destruct (String.eqb (rt_file flags) ""); [discriminate|]. destruct (String.eqb (rt_out flags) ""); [discriminate|].
  destruct (String.eqb (rt_id flags) "") eqn:Ei; [discriminate|].
  unfold mbind at 1, mlift at 1. destruct (loadKeySlotFile unmarshal (rt_file flags) fs) as [[f e]|?|?|] eqn:El; [|discriminate..].
  unfold mbind at 1, mlift at 1. destruct (passphraseValue getenv (rt_unlock flags) fs) as [oldPass|?|?|]; [|discriminate..].
  unfold mbind at 1, mlift at 1. cbn [fst]. destruct (Unlock _ _ _ f _ oldPass) as [oldRoot|?|?|] eqn:Eu; [|discriminate..].
  unfold mbind at 1, mlift at 1. destruct (passphraseValue getenv (rt_passphrase flags) fs) as [newPass|?|?|]; [|discriminate..].
  unfold mbind at 1, mlift at 1. destruct (dr_root d) as [newRoot|?|?|]; [|discriminate..].
  unfold mbind at 1, mlift at 1. destruct (NewKeySlotFile _ _ _ _ _ _ _ _ _ _) as [f'|?|?|] eqn:En; [|discriminate..].
  unfold mbind at 1. destruct (saveKeySlotFile _ _ _ _) as [[[]|?|?|] fs1] eqn:Es; [|discriminate..]. intros [= _ <-].
  destruct (add_slot_exact _ _ _ _ _ _ _ _ wellFormed_empty En) as (Hw & Ho & _).
  destruct (save_parse _ _ _ _ Hw Es) as (data & -> & Hp). exists f, e, oldPass, oldRoot, newPass, newRoot, f', data. repeat (split; [done|]).
  unfold NewKeySlotFile, AddSlot in En. cbn -[zlen DeriveKeyWithParams NewAES256GCM] in En. rewrite Ei in En. destruct (negb _); [discriminate|].
  destruct (dr_salt d) as [salt|?|?|]; [|discriminate..]. cbn [obind] in En. destruct (DeriveKeyWithParams _ _ _ _) as [k|?|?|]; [|discriminate..]. cbn [obind] in En.
  destruct (NewAES256GCM _ _ _) as [c|?|?|]; [|discriminate..]. cbn [obind] in En. destruct (dr_nonce d) as [nonce|?|?|]; [|discriminate..]. cbn [obind] in En.
  now injection En as <-.
Qed.
End laws.

(** ** A run

    Toy crypto that opens what it sealed and nothing else, and a codec of
    fields with their lengths. *)

Definition toyArgon2 (pass salt : bytes) (params : KDFParams) : bytes := take 32 (pass ++ repeat Byte.x00 32).
Definition toySeal (key nonce data aad : bytes) : bytes := key ++ nonce ++ aad ++ data.
Definition toyOpen (key nonce sealed aad : bytes) : outcome bytes :=
  let tag := key ++ nonce ++ aad in
  if beqb (take (length tag) sealed) tag then Ok (drop (length tag) sealed) else Err "message authentication failed"%string.

Lemma toy_open_seal key nonce data aad : toyOpen key nonce (toySeal key nonce data aad) aad = Ok data.
Proof.
  unfold toyOpen, toySeal. replace (key ++ nonce ++ aad ++ data) with ((key ++ nonce ++ aad) ++ data) by (now rewrite <- !app_assoc).
  rewrite take_app_length, drop_app_length. now rewrite (proj2 (beqb_eq _ _) eq_refl).
Qed.

Definition toyField (data : bytes) : bytes := be_encode 8 (zlen data) ++ data.

Definition slotFields (slot : KeySlot) : list bytes :=
  [list_byte_of_string (ks_ID slot); be_encode 8 (kd_Time (ks_KDF slot)); be_encode 8 (kd_Memory (ks_KDF slot)); be_encode 8 (kd_Threads (ks_KDF slot));
   be_encode 8 (kd_KeyLen (ks_KDF slot)); ks_Salt slot; ks_Nonce slot; ks_Ciphertext slot; be_encode 8 (ks_CreatedAt slot)].

Definition fileFields (f : KeySlotFile) : list bytes :=
  be_encode 8 (kf_Version f) :: list_byte_of_string (kf_Algorithm f) :: concat (map slotFields (kf_Slots f)).

Fixpoint toyFields (fuel : nat) (data : bytes) : list bytes :=
  match fuel with
  | O => []
  | S fuel =>
      if (length data <? 8)%nat then []
      else let n := Z.to_nat (be_decode (take 8 data)) in take n (drop 8 data) :: toyFields fuel (drop n (drop 8 data))
  end.

Fixpoint toySlots (fields : list bytes) : list KeySlot :=
  match fields with
  | id :: t :: m :: p :: k :: salt :: nonce :: ciphertext :: created :: rest =>
      mkSlot (string_of_list_byte id) (mkKDF (be_decode t) (be_decode m) (be_decode p) (be_decode k)) salt nonce ciphertext (be_decode created) :: toySlots rest
  | _ => []
  end.

Definition toyUnmarshal (data : bytes) : option KeySlotFile :=
  match toyFields (length data) data with
  | version :: algorithm :: rest => Some (mkSlotFile (be_decode version) (string_of_list_byte algorithm) (toySlots rest))
  | _ => None
  end.

#[export] Instance KDFParams_eq_dec : EqDecision KDFParams.
Proof. solve_decision. Defined.
#[export] Instance KeySlot_eq_dec : EqDecision KeySlot.
Proof. solve_decision. Defined.
#[export] Instance KeySlotFile_eq_dec : EqDecision KeySlotFile.
Proof. solve_decision. Defined.

(** Files the codec does not read back are refused. *)
Definition toyMarshal (f : KeySlotFile) : option bytes :=
  let data := concat (map toyField (fileFields f)) in
  if decide (toyUnmarshal (data ++ [Byte.x0a]) = Some f) then Some data else None.

Lemma toy_unmarshal_marshal f data : toyMarshal f = Some data -> toyUnmarshal (data ++ [Byte.x0a]) = Some f.
Proof. unfold toyMarshal. destruct (decide _) as [E|]; [|done]. now intros [= <-]. Qed.

Definition toyEnv (name : string) : string := EmptyString.
Definition plain (value : string) : passphraseFlags := mkPassphrase value "" "".
Definition toyDraws (root : byte) : draws := mkDraws (Ok (repeat root 32)) (Ok (repeat Byte.x05 32)) (Ok (repeat Byte.x06 12)).

Definition toyAdd (flags : addSlotFlags) (root : byte) : M (gmap string bytes) (nat * bytes) :=
  runKeyAddSlot toyArgon2 toySeal toyOpen (fun x => x) 0 toyMarshal toyUnmarshal toyEnv flags 1 (toyDraws root).

(** A file with the slot a, and a slot b added by unlocking a, and one added
    with --generate-root-key. *)
Definition addA : addSlotFlags := mkAddSlot "keys" "a" [] true (plain "pw-a") "" (plain "").
Definition addB : addSlotFlags := mkAddSlot "keys" "b" [] false (plain "pw-b") "a" (plain "pw-a").
Definition addNew : addSlotFlags := mkAddSlot "keys" "b" [] true (plain "pw-b") "" (plain "").

Definition toyUnlock (fs : gmap string bytes) (id pass : string) : outcome bytes :=
  loaded <~ loadKeySlotFile toyUnmarshal "keys" fs ;; Unlock toyArgon2 toySeal toyOpen loaded.1 id (list_byte_of_string pass).

Example key_slot_runs :
  let fs := (toyAdd addA Byte.x01 ∅).2 in
  toyUnlock fs "a" "pw-a" = Ok (repeat Byte.x01 32) /\ toyUnlock fs "a" "pw-b" = Err "message authentication failed"%string /\
  toyUnlock (toyAdd addB Byte.x02 fs).2 "b" "pw-b" = Ok (repeat Byte.x01 32) /\
  (toyAdd addA Byte.x02 fs).1 = Err "key slot already exists"%string /\
  (runKeyRemoveSlot toyMarshal toyUnmarshal "keys" "a" false fs).1 = Err "refusing to remove the last key slot without --yes"%string.
Proof. vm_compute. repeat split. Qed.

(** A second slot with --generate-root-key: the file that is for one root key
    has two. *)
Lemma second_root_key : let fs := (toyAdd addNew Byte.x02 (toyAdd addA Byte.x01 ∅).2).2 in
  toyUnlock fs "a" "pw-a" = Ok (repeat Byte.x01 32) /\ toyUnlock fs "b" "pw-b" = Ok (repeat Byte.x02 32).
Proof. vm_compute. repeat split. Qed.

Lemma added_slot_opens_witness : let fs := (toyAdd addA Byte.x01 ∅).2 in
  exists f f' data, (toyAdd addB Byte.x02 fs).2 = <["keys"%string := data]> fs /\ ParseKeySlotFile toyUnmarshal data = Ok f' /\
    (forall pass, Unlock toyArgon2 toySeal toyOpen f' "a" pass = Unlock toyArgon2 toySeal toyOpen f "a" pass).
Proof.
  intros fs. destruct (toyAdd addB Byte.x02 fs) as [r fs'] eqn:E.
  assert (Hok : is_ok r = true) by (apply (f_equal (fun x => is_ok x.1)) in E; vm_compute in E; exact (eq_sym E)).
  destruct r as [res|?|?|]; try discriminate Hok.
  destruct (added_slot_opens toyArgon2 toySeal toyOpen (fun x => x) 0 toyMarshal toyUnmarshal toyEnv toy_open_seal toy_unmarshal_marshal _ _ _ _ _ _ E)
    as (f & f' & e & pass & root & data & _ & H1 & H2 & _ & _ & _ & H3).
  exists f, f', data. split; [exact H1|]. split; [exact H2|]. intros p. apply H3. discriminate.
Defined.
