(* ===== verification/Tokens.v ===== *)
(** * API tokens and roles

    Models src/internal/server/token_store.go: scoped tokens kept as verifier
    hashes in a bucket, the copy-once secret, and the built-in roles. SHA-256
    is a parameter; clock readings, fresh identifiers and random bytes are
    arguments.

    The theorems follow any sequence of operations of the store: a secret
    verifies exactly when it was issued, has not been revoked since and has
    not expired. *)

From Stdlib Require Import Ascii String.
From S2P Require Import Prelude ChunkHash Core GoStrings GoText Documents.
Local Open Scope Z_scope.

(** ** Records *)

Record Token := mkToken
  { tk_ID : string; tk_UserID : string; tk_Name : string; tk_Scopes : list string;
    tk_ExpiresAt : Time; tk_CreatedAt : Time; tk_RevokedAt : Time }.

Record apiTokenRecord := mkTokenRecord { tr_Token : Token; tr_SecretHash : bytes }.

Record CreatedToken := mkCreatedToken { ct_Token : Token; ct_Secret : string }.

Record User := mkUser
  { us_ID : string; us_Email : string; us_DisplayName : string; us_Role : string;
    us_TOTPEnforced : bool; us_CreatedAt : Time; us_UpdatedAt : Time }.

Definition withRevokedAt (t : Token) (at_ : Time) : Token :=
  mkToken (tk_ID t) (tk_UserID t) (tk_Name t) (tk_Scopes t) (tk_ExpiresAt t) (tk_CreatedAt t) at_.

Definition tokensBucket : string := "tokens".
Definition usersBucket : string := "users".

Definition RoleAdmin : string := "admin".
Definition RoleOperator : string := "operator".
Definition RoleViewer : string := "viewer".

(** ** Scopes *)

Fixpoint scopes_loop (scopes : list string) (required : string) : bool :=
  match scopes with
  | [] => false
  | scope :: rest =>
      let scope := TrimSpace scope in
      if String.eqb scope "" then scopes_loop rest required
      else if String.eqb scope "*" || String.eqb scope "admin:*" || String.eqb scope required then true
      else if HasSuffix scope ":*" && HasPrefix required (TrimSuffix scope "*") then true
      else scopes_loop rest required
  end.

Definition scopeSetAllows (scopes : list string) (required : string) : bool :=
  if String.eqb required "" then true else scopes_loop scopes required.

Definition operatorScopes : list string :=
  ["agent:read"; "audit:read"; "backup:*"; "job:*"; "metrics:read"; "notification:*"; "restore:*";
   "retention:*"; "schedule:read"; "storage:read"; "target:read"].

Definition viewerScopes : list string :=
  ["agent:read"; "audit:read"; "backup:read"; "job:read"; "metrics:read"; "notification:read";
   "restore:read"; "retention:read"; "schedule:read"; "storage:read"; "target:read"].

Definition RoleAllowsScope (role required : string) : bool :=
  if String.eqb role RoleAdmin then scopeSetAllows ["admin:*"] required
  else if String.eqb role RoleOperator then scopeSetAllows operatorScopes required
  else if String.eqb role RoleViewer then scopeSetAllows viewerScopes required
  else false.

Fixpoint scopes_unique (scopes : list string) (seen : gset string) : list string :=
  match scopes with
  | [] => []
  | scope :: rest =>
      let scope := TrimSpace scope in
      if String.eqb scope "" then scopes_unique rest seen
      else if decide (scope ∈ seen) then scopes_unique rest seen
      else scope :: scopes_unique rest (seen ∪ {[scope]})
  end.

Definition normalizeScopes (scopes : list string) : list string :=
  sort_by String.ltb (scopes_unique scopes ∅).

(** ** Secrets *)

Definition generateTokenSecret (id : string) (entropy : outcome bytes) : outcome string :=
  secret <~ entropy ;;
  Ok ("kro_" ++ id ++ "_" ++ string_of_list_byte (EncodeToString urlAlphabet secret))%string.

Definition parseTokenID (secret : string) : option string :=
  if negb (HasPrefix secret "kro_") then None
  else
    let rest := TrimPrefix secret "kro_" in
    let '(id, _, ok) := Cut "_" rest in
    if negb ok || String.eqb id "" then None else Some id.

(** ** The store *)

Section TokenStore.
  Context {S : Type} `{KV S} `{Codec apiTokenRecord} `{Codec User} (sha256 : string -> bytes).

Definition hashTokenSecret (secret : string) : bytes := hexEncode (sha256 secret).

Definition Create (clock : Time) (newID : outcome string) (entropy : outcome bytes)
  (name userID : string) (scopes : list string) (expiresAt : Time) : M S CreatedToken :=
  if String.eqb name "" then merr "token name is required"
  else if IDIsZero userID then merr "token user id is required"
  else
    let scopes := normalizeScopes scopes in
    if Nat.eqb (length scopes) 0 then merr "at least one token scope is required"
    else if negb (TimeIsZero expiresAt) && (expiresAt <=? clock)
    then merr "token expires_at must be in the future"
    else
      id <-- mlift newID ;;
      secret <-- mlift (generateTokenSecret id entropy) ;;
      let token := mkToken id userID name scopes expiresAt clock 0 in
      _ <-- saveJSON tokensBucket id (mkTokenRecord token (hashTokenSecret secret)) ;;
      mret (mkCreatedToken token secret).

Definition tokenNewer (a b : Token) : bool :=
  if tk_CreatedAt a =? tk_CreatedAt b then String.ltb (tk_ID a) (tk_ID b)
  else tk_CreatedAt b <? tk_CreatedAt a.

Definition ListTokens (s : S) : outcome (list Token) :=
  tokens <~ listJSON tokensBucket (fun data => r <~ unmarshal data ;; Ok (tr_Token r)) s ;;
  Ok (sort_by tokenNewer tokens).

Definition GetToken (id : string) (s : S) : outcome (option Token) :=
  r <~ getJSON tokensBucket id s ;; Ok (option_map tr_Token r).

Definition Revoke (clock : Time) (id : string) : M S Token :=
  found <-- (fun s => (getJSON tokensBucket id s, s)) ;;
  match found with
  | None => merr "revoke token: not found"
  | Some record =>
      if TimeIsZero (tk_RevokedAt (tr_Token record)) then
        let token := withRevokedAt (tr_Token record) clock in
        _ <-- saveJSON tokensBucket id (mkTokenRecord token (tr_SecretHash record)) ;;
        mret token
      else mret (tr_Token record)
  end.

Definition expired (now : Time) (t : Token) : bool :=
  negb (TimeIsZero (tk_ExpiresAt t)) && (tk_ExpiresAt t <=? now).

Definition inactive (now : Time) (t : Token) : bool :=
  negb (TimeIsZero (tk_RevokedAt t)) || expired now t.

Definition Inactive (clock : Time) (s : S) : outcome (list Token) :=
  tokens <~ ListTokens s ;; Ok (List.filter (inactive clock) tokens).

Fixpoint prune_loop (tokens deleted : list Token) : M S (list Token) :=
  match tokens with
  | [] => mret deleted
  | token :: rest => _ <-- deleteKey tokensBucket (tk_ID token) ;; prune_loop rest (deleted ++ [token])
  end.

Definition PruneInactive (clock : Time) : M S (list Token) :=
  stale <-- (fun s => (Inactive clock s, s)) ;; prune_loop stale [].

Definition VerifyToken (clock : Time) (secret : string) (s : S) : outcome (option Token) :=
  match parseTokenID secret with
  | None => Ok None
  | Some id =>
      found <~ getJSON tokensBucket id s ;;
      match found with
      | None => Ok None
      | Some record =>
          if negb (beqb (tr_SecretHash record) (hashTokenSecret secret)) then Ok None
          else if inactive clock (tr_Token record) then Ok None
          else Ok (Some (tr_Token record))
      end
  end.

(** The pair of results: the user exists, and its role allows the scope. *)
Definition UserAllowsScope (userID required : string) (s : S) : outcome (bool * bool) :=
  if IDIsZero userID then Ok (false, false)
  else
    found <~ getJSON usersBucket userID s ;;
    match found with
    | None => Ok (false, false)
    | Some user => Ok (true, RoleAllowsScope (us_Role user) required)
    end.
End TokenStore.

Example scope_examples :
  RoleAllowsScope "operator" "backup:write" = true /\ RoleAllowsScope "operator" "token:write" = false /\
  RoleAllowsScope "viewer" "backup:write" = false /\ RoleAllowsScope "admin" "token:write" = true /\
  normalizeScopes [" b "; "a"; ""; "b"] = ["a"; "b"] /\
  parseTokenID "kro_ab-c_x_y" = Some "ab-c" /\ parseTokenID "kro__x" = None /\ parseTokenID "ab_x" = None.
Proof. vm_compute. repeat split. Qed.

(** ** The ledger: what a history of operations has issued and revoked *)

Inductive tevent :=
| Issued (c : CreatedToken)
| Revoked (id : string)
| Pruned (now : Time).

Definition ledger_step (m : gmap string (CreatedToken * bool)) (e : tevent) : gmap string (CreatedToken * bool) :=
  match e with
  | Issued c => <[tk_ID (ct_Token c) := (c, false)]> m
  | Revoked id => alter (fun e => (e.1, true)) id m
  | Pruned _ => m
  end.

Definition ledger (tr : list tevent) : gmap string (CreatedToken * bool) := foldl ledger_step ∅ tr.

(** The identifiers of core.NewID: not empty, without underscores. *)
Definition tokenID (id : string) : Prop := id <> "" /\ noByte "_" id = true.

Section History.
  Context {S : Type} `{KVLaws S} `{CodecLaws apiTokenRecord} `{Codec User} (sha256 : string -> bytes).

Abbreviation tokens s := (docs apiTokenRecord tokensBucket s).

(** Histories of the store. Writes to other buckets may come in between. *)
Inductive truns : list tevent -> S -> Prop :=
| tr_start s : tokens s = ∅ -> truns [] s
| tr_create tr s clock id entropy name user scopes exp r s' :
    truns tr s -> (forall i, id = Ok i -> tokenID i) ->
    Create sha256 clock id entropy name user scopes exp s = (r, s') ->
    truns (tr ++ match r with Ok c => [Issued c] | _ => [] end) s'
| tr_revoke tr s clock id r s' :
    truns tr s -> 0 < clock -> Revoke clock id s = (r, s') ->
    truns (tr ++ match r with Ok _ => [Revoked id] | _ => [] end) s'
| tr_prune tr s clock r s' :
    truns tr s -> PruneInactive clock s = (r, s') -> truns (tr ++ [Pruned clock]) s'
| tr_other tr s s' : truns tr s -> tokens s' = tokens s -> truns tr s'.

(** A stored record agrees with its entry of the ledger. *)
Definition agrees (k : string) (e : CreatedToken * bool) (rec : apiTokenRecord) : Prop :=
  tr_SecretHash rec = hashTokenSecret sha256 (ct_Secret e.1) /\ tk_ID (ct_Token e.1) = k /\
  tr_Token rec = withRevokedAt (ct_Token e.1) (tk_RevokedAt (tr_Token rec)) /\
  TimeIsZero (tk_RevokedAt (tr_Token rec)) = negb e.2.

Definition wellIssued (k : string) (c : CreatedToken) : Prop :=
  tk_ID (ct_Token c) = k /\ tk_RevokedAt (ct_Token c) = 0 /\ parseTokenID (ct_Secret c) = Some k.

(** Every stored record is in the ledger, and a record of the ledger is
    missing only when a prune found it inactive. *)
Record tinv (tr : list tevent) (m : gmap string apiTokenRecord) : Prop := {
  ti_stored k rec : m !! k = Some rec -> exists e, ledger tr !! k = Some e /\ agrees k e rec;
  ti_kept k e : ledger tr !! k = Some e -> m !! k = None ->
    e.2 = true \/ exists now, In (Pruned now) tr /\ expired now (ct_Token e.1) = true;
  ti_issued k e : ledger tr !! k = Some e -> wellIssued k e.1
}.

Lemma ledger_snoc tr e : ledger (tr ++ [e]) = ledger_step (ledger tr) e.
Proof. unfold ledger. now rewrite foldl_app. Qed.

Lemma parse_generated id entropy secret :
  tokenID id -> generateTokenSecret id entropy = Ok secret -> parseTokenID secret = Some id.
Proof.
  intros [Hne Hn]. unfold generateTokenSecret. destruct entropy as [b|e|e|]; simpl; try done.
  intros [= <-]. unfold parseTokenID. rewrite HasPrefix_app. simpl negb. cbv iota. rewrite TrimPrefix_app.
  change ("_" ++ ?x)%string with (String "_" x). rewrite Cut_app by done.
  destruct (String.eqb_spec id ""); [contradiction|done].
Qed.

Lemma Create_ok clock id entropy name user scopes exp (s s' : S) c :
  Create sha256 clock id entropy name user scopes exp s = (Ok c, s') ->
  exists i, id = Ok i /\ tk_ID (ct_Token c) = i /\ tk_RevokedAt (ct_Token c) = 0 /\
    generateTokenSecret i entropy = Ok (ct_Secret c) /\
    ct_Token c = mkToken i user name (normalizeScopes scopes) exp clock 0 /\
    tokens s' = <[i := mkTokenRecord (ct_Token c) (hashTokenSecret sha256 (ct_Secret c))]> (tokens s).
Proof.
  unfold Create. destruct (String.eqb name ""); [done|]. destruct (IDIsZero user); [done|].
  destruct (Nat.eqb _ 0); [done|]. destruct (negb _ && _); [done|]. intros E.
  apply mbind_ok in E as (i & s1 & E1 & E). injection E1 as -> <-.
  apply mbind_ok in E as (secret & s2 & E2 & E). injection E2 as E2 <-.
  apply mbind_ok in E as (u & s3 & E3 & E). injection E as <- <-. exists i.
  apply saveJSON_cases in E3 as [(_ & _ & [E3 _])|[? _]]; [|done]. repeat split; auto.
Qed.

Lemma Create_scopes clock id entropy name user scopes exp (s s' : S) c :
  Create sha256 clock id entropy name user scopes exp s = (Ok c, s') -> normalizeScopes scopes <> [].
Proof.
  unfold Create. destruct (String.eqb name ""); [done|]. destruct (IDIsZero user); [done|].
  now destruct (normalizeScopes scopes).
Qed.

Lemma Create_fail clock id entropy name user scopes exp (s : S) r s' :
  Create sha256 clock id entropy name user scopes exp s = (r, s') -> is_ok r = false -> tokens s' = tokens s.
Proof.
  unfold Create, merr, mlift, mret, mbind. destruct (String.eqb name ""); [intros [= <- <-]; done|].
  destruct (IDIsZero user); [intros [= <- <-]; done|]. destruct (Nat.eqb _ 0); [intros [= <- <-]; done|].
  destruct (negb _ && _); [intros [= <- <-]; done|]. destruct id as [i|e|e|]; try (intros [= <- <-]; done).
  destruct (generateTokenSecret i entropy) as [x|e|e|]; try (intros [= <- <-]; done).
  destruct (saveJSON _ _ _ s) as [[u|e|e|] s1] eqn:E; intros [= <- <-] Hr; try done;
    apply saveJSON_cases in E as [[? _]|[_ U]]; try done; now apply docs_unchanged.
Qed.

(** A revocation marks one record, or changes nothing. *)
Lemma Revoke_cases clock id (s : S) r s' :
  Revoke clock id s = (r, s') ->
  (exists rec, is_ok r = true /\ tokens s !! id = Some rec /\ tk_RevokedAt (tr_Token rec) = 0 /\
     tokens s' = <[id := mkTokenRecord (withRevokedAt (tr_Token rec) clock) (tr_SecretHash rec)]> (tokens s)) \/
  (tokens s' = tokens s /\ (is_ok r = true ->
     exists rec, tokens s !! id = Some rec /\ tk_RevokedAt (tr_Token rec) <> 0)).
Proof.
  unfold Revoke, mbind, merr, mret. destruct (getJSON tokensBucket id s) as [[rec|]|e|e|] eqn:G;
    try (intros [= <- <-]; right; done).
  apply getJSON_docs in G. destruct (TimeIsZero _) eqn:Z.
  - destruct (saveJSON _ _ _ s) as [[u|e|e|] s1] eqn:E; apply saveJSON_cases in E as [(R & _ & E & _)|[R U]];
      try done; intros [= <- <-]; try (right; split; [now apply docs_unchanged|done]).
    left. exists rec. apply Z.eqb_eq in Z. auto.
  - intros [= <- <-]. right. split; [done|]. intros _. exists rec. split; [done|]. now apply Z.eqb_neq.
Qed.

Lemma prune_loop_spec stale deleted (s : S) r s' :
  prune_loop stale deleted s = (r, s') ->
  forall k, tokens s' !! k = tokens s !! k \/ (In k (map tk_ID stale) /\ tokens s' !! k = None).
Proof.
  revert deleted s. induction stale as [|t stale IH]; intros deleted s; simpl; [intros [= <- <-]; auto|].
  unfold mbind. destruct (deleteKey tokensBucket (tk_ID t) s) as [o s1] eqn:D.
  apply (deleteKey_cases (A := apiTokenRecord)) in D. assert (HD : forall k, tokens s1 !! k = tokens s !! k \/ (k = tk_ID t /\ tokens s1 !! k = None)).
  { destruct D as [[_ [D _]]|[_ U]]; intros k; [|left; now rewrite (docs_unchanged (B := apiTokenRecord) _ _ _ U)].
    rewrite D. destruct (decide (k = tk_ID t)) as [->|]; [right; now rewrite lookup_delete_eq|].
    left. now rewrite lookup_delete_ne. }
  destruct o as [u|e|e|]; [|intros [= <- <-] k; destruct (HD k) as [?|[-> ?]]; auto..].
  intros E k. destruct (IH _ _ E k) as [I|[I1 I2]]; [|auto].
  destruct (HD k) as [J|[-> J]]; [left; congruence|right]. split; [auto|congruence].
Qed.

Lemma prune_spec clock (s : S) r s' :
  (forall k rec, tokens s !! k = Some rec -> tk_ID (tr_Token rec) = k) ->
  PruneInactive clock s = (r, s') ->
  forall k, tokens s' !! k = tokens s !! k \/
    (exists rec, tokens s !! k = Some rec /\ inactive clock (tr_Token rec) = true /\ tokens s' !! k = None).
Proof.
  intros Hid. unfold PruneInactive, mbind, Inactive, ListTokens.
  destruct (listJSON _ _ s) as [ts|e|e|] eqn:L; simpl; try (intros [= <- <-]; auto; fail).
  intros E k. destruct (prune_loop_spec _ _ _ _ _ E k) as [I|[I1 I2]]; [auto|right].
  apply in_map_iff in I1 as (t & <- & Ht). apply filter_In in Ht as [Ht Hi].
  apply sort_by_in in Ht. apply listJSON_map in L as (vs & L & ->). apply in_map_iff in Ht as (rec & <- & Hr).
  apply (in_listJSON _ _ _ rec L) in Hr as (k & Hk & _). exists rec. now rewrite (Hid _ _ Hk) in *.
Qed.

Lemma tinv_ids tr m k rec : tinv tr m -> m !! k = Some rec -> tk_ID (tr_Token rec) = k.
Proof. intros I Hk. apply (ti_stored _ _ I) in Hk as (e & _ & (_ & E & T & _)). now rewrite T. Qed.

Lemma agrees_fresh c : tk_RevokedAt (ct_Token c) = 0 ->
  agrees (tk_ID (ct_Token c)) (c, false) (mkTokenRecord (ct_Token c) (hashTokenSecret sha256 (ct_Secret c))).
Proof.
  intros Hz. unfold agrees, withRevokedAt. simpl. rewrite Hz. split; [done|]. split; [done|]. split; [|done].
  destruct (ct_Token c); simpl in *. congruence.
Qed.

Lemma tinv_create tr m c :
  tinv tr m -> wellIssued (tk_ID (ct_Token c)) c ->
  tinv (tr ++ [Issued c])
    (<[tk_ID (ct_Token c) := mkTokenRecord (ct_Token c) (hashTokenSecret sha256 (ct_Secret c))]> m).
Proof.
  intros I W. split; intros k; rewrite ledger_snoc; simpl; destruct (decide (k = tk_ID (ct_Token c))) as [->|Hne].
  - intros rec. rewrite lookup_insert_eq. intros [= <-]. exists (c, false). rewrite lookup_insert_eq.
    split; [done|]. apply agrees_fresh. apply W.
  - intros rec. rewrite !lookup_insert_ne by done. apply I.
  - intros e. rewrite !lookup_insert_eq. done.
  - intros e. rewrite !lookup_insert_ne by done. intros L N.
    destruct (ti_kept _ _ I k e L N) as [?|(now & Hin & Hx)]; [auto|right]. exists now.
    split; [apply in_or_app; auto|done].
  - intros e. rewrite lookup_insert_eq. intros [= <-]. exact W.
  - intros e. rewrite lookup_insert_ne by done. apply I.
Qed.

(** A revocation marks the entry of the ledger; the record is marked too. *)
Lemma tinv_revoke tr m m' id :
  tinv tr m -> (forall k, k <> id -> m' !! k = m !! k) ->
  (forall rec', m' !! id = Some rec' -> exists rec, m !! id = Some rec /\ tr_SecretHash rec' = tr_SecretHash rec /\
     tr_Token rec' = withRevokedAt (tr_Token rec) (tk_RevokedAt (tr_Token rec')) /\
     tk_RevokedAt (tr_Token rec') <> 0) ->
  tinv (tr ++ [Revoked id]) m'.
Proof.
  intros I Hother Hid. split; intros k; rewrite ledger_snoc; simpl; destruct (decide (k = id)) as [->|Hne].
  - intros rec' Hr. apply Hid in Hr as (rec & Hr & Eh & Et & Hz).
    apply (ti_stored _ _ I) in Hr as (e & L & (A1 & A2 & A3 & A4)). exists (e.1, true).
    rewrite lookup_alter_eq, L. split; [done|]. split; [now rewrite Eh|]. split; [done|]. split.
    + rewrite Et at 1. rewrite A3. done.
    + now apply Z.eqb_neq.
  - intros rec. rewrite Hother, lookup_alter_ne by done. apply I.
  - intros e. rewrite lookup_alter_eq. destruct (ledger tr !! id); [|done]. intros [= <-]. auto.
  - intros e. rewrite Hother, lookup_alter_ne by done. intros L N.
    destruct (ti_kept _ _ I k e L N) as [?|(now & Hin & Hx)]; [auto|right]. exists now.
    split; [apply in_or_app; auto|done].
  - intros e. rewrite lookup_alter_eq. destruct (ledger tr !! id) eqn:L; [|done]. intros [= <-].
    exact (ti_issued _ _ I _ _ L).
  - intros e. rewrite lookup_alter_ne by done. apply I.
Qed.

Lemma tinv_prune tr m m' now :
  tinv tr m ->
  (forall k, m' !! k = m !! k \/
     exists rec, m !! k = Some rec /\ inactive now (tr_Token rec) = true /\ m' !! k = None) ->
  tinv (tr ++ [Pruned now]) m'.
Proof.
  intros I Hp. split; intros k; rewrite ledger_snoc; simpl; intros x.
  - intros Hx. destruct (Hp k) as [E|(rec & _ & _ & N)]; [|congruence]. rewrite E in Hx. now apply I.
  - intros L N. destruct (Hp k) as [E|(rec & Hr & Hi & _)].
    + rewrite E in N. destruct (ti_kept _ _ I k x L N) as [?|(t & Hin & Hx)]; [auto|right]. exists t.
      split; [apply in_or_app; auto|done].
    + apply (ti_stored _ _ I) in Hr as (e & L' & (_ & _ & T & Z)). rewrite L in L'. injection L' as <-.
      unfold inactive in Hi. rewrite Z in Hi. apply orb_true_iff in Hi as [Hi|Hi].
      * left. now rewrite negb_involutive in Hi.
      * right. exists now. split; [apply in_or_app; simpl; auto|]. now rewrite T in Hi.
  - apply I.
Qed.

Lemma truns_inv tr (s : S) : truns tr s -> tinv tr (tokens s).
Proof.
  induction 1 as [s E|tr s clock id entropy name user scopes exp r s' T IH Hid E|tr s clock id r s' T IH Hc E
    |tr s clock r s' T IH E|tr s s' T IH E].
  - rewrite E. split; intros k x; [now rewrite lookup_empty| |]; unfold ledger; simpl; now rewrite lookup_empty.
  - destruct (is_ok r) eqn:R.
    + destruct r as [c| | |]; try done. apply Create_ok in E as (i & Ei & Ek & Ez & Eg & _ & ->). subst i.
      apply tinv_create; [done|]. split; [done|]. split; [done|].
      apply (parse_generated _ _ _ (Hid _ Ei) Eg).
    + apply Create_fail in E; [|done]. rewrite E. destruct r; try done; now rewrite app_nil_r.
  - destruct (Revoke_cases _ _ _ _ _ E) as [(rec & R & L & Hz & E')|[E' R]].
    + destruct r as [t| | |]; try done. apply (tinv_revoke _ (tokens s)); [done| |]; rewrite E'.
      * intros k Hk. now rewrite lookup_insert_ne.
      * intros rec'. rewrite lookup_insert_eq. intros [= <-]. exists rec. simpl. repeat split; auto. lia.
    + destruct r as [t| | |]; rewrite E'; try (now rewrite app_nil_r).
      apply (tinv_revoke _ (tokens s)); [done..|]. intros rec' Hr.
      destruct (R eq_refl) as (rec & Hr' & Hz). rewrite Hr in Hr'. injection Hr' as ->. exists rec.
      repeat split; auto. now destruct (tr_Token rec).
  - apply (tinv_prune _ (tokens s)); [done|]. apply (prune_spec clock s r s'); [|done].
    intros k rec. now apply (tinv_ids tr).
  - now rewrite E.
Qed.

(** The tokens a ledger accepts. *)
Definition accepts (tr : list tevent) (now : Time) (secret : string) (t : Token) : Prop :=
  exists c, ledger tr !! tk_ID t = Some (c, false) /\ ct_Secret c = secret /\ t = ct_Token c /\
    expired now t = false.

(** No other secret has the hash of an issued one. *)
Definition no_collision (tr : list tevent) (secret : string) : Prop :=
  forall k e, ledger tr !! k = Some e -> sha256 (ct_Secret e.1) = sha256 secret -> ct_Secret e.1 = secret.

Lemma verify_sound tr (s : S) now secret t :
  truns tr s -> no_collision tr secret ->
  VerifyToken sha256 now secret s = Ok (Some t) -> accepts tr now secret t.
Proof.
  intros T Hc. apply truns_inv in T. unfold VerifyToken.
  destruct (parseTokenID secret) as [id|]; [|done]. intros E. apply obind_ok in E as (found & G & E).
  apply getJSON_docs in G. subst found. destruct (tokens s !! id) as [rec|] eqn:L; [|done].
  apply (ti_stored _ _ T) in L as ([c b] & L & (A1 & A2 & A3 & A4)). simpl in *.
  destruct (beqb _ _) eqn:B; [|done]. apply beqb_eq in B. simpl in E. unfold inactive in E. rewrite A4 in E.
  destruct b; simpl in E; [done|]. destruct (expired now _) eqn:X; [done|]. injection E as <-.
  pose proof (ti_issued _ _ T _ _ L) as (_ & W2 & _). simpl in W2.
  assert (Et : tr_Token rec = ct_Token c).
  { rewrite A3. apply Z.eqb_eq in A4. rewrite A4. unfold withRevokedAt. rewrite <- W2. now destruct (ct_Token c). }
  exists c. rewrite Et in *. subst id. split; [done|]. split; [|done].
  apply (Hc _ _ L). apply hexEncode_inj. unfold hashTokenSecret in *. simpl. congruence.
Qed.

Lemma verify_complete tr (s : S) now secret t r :
  truns tr s -> (forall p, In (Pruned p) tr -> p <= now) -> accepts tr now secret t ->
  VerifyToken sha256 now secret s = Ok r -> r = Some t.
Proof.
  intros T Hp (c & L & Es & -> & X). apply truns_inv in T.
  pose proof (ti_issued _ _ T _ _ L) as (W1 & W2 & W3). simpl in *. unfold VerifyToken.
  rewrite <- Es, W3. intros E. apply obind_ok in E as (found & G & E). apply getJSON_docs in G. subst found.
  destruct (tokens s !! tk_ID (ct_Token c)) as [rec|] eqn:M.
  - apply (ti_stored _ _ T) in M as (e & L' & (A1 & _ & A3 & A4)). rewrite L in L'. injection L' as <-. simpl in *.
    rewrite A1 in E. rewrite (proj2 (beqb_eq _ _) eq_refl) in E. simpl in E. unfold inactive in E.
    rewrite A4 in E. simpl in E. apply Z.eqb_eq in A4. rewrite A4 in A3.
    assert (Et : tr_Token rec = ct_Token c).
    { rewrite A3. unfold withRevokedAt. rewrite <- W2. now destruct (ct_Token c). }
    rewrite Et, X in E. congruence.
  - destruct (ti_kept _ _ T _ _ L M) as [?|(p & Hin & Hx)]; [done|]. simpl in Hx. apply Hp in Hin.
    unfold expired in *. apply andb_true_iff in Hx as [Hx1 Hx2]. rewrite Hx1 in X. simpl in X. lia.
Qed.

(** C12: token verification is exact over every history of the store: whatever
    sequence of creations, revocations, prunes and failures went before, a
    secret is accepted with a token exactly when the ledger of that history
    has issued that secret for that token, has not revoked it since and it is
    not expired. *)
Theorem token_verify_exact tr (s : S) now secret r :
  truns tr s -> no_collision tr secret -> (forall p, In (Pruned p) tr -> p <= now) ->
  VerifyToken sha256 now secret s = Ok r ->
  forall t, r = Some t <-> accepts tr now secret t.
Proof.
  intros T Hc Hp E t. split; [intros ->; now apply (verify_sound tr s)|].
  intros A. now apply (verify_complete tr s now secret t r).
Qed.
End History.

(** ** A concrete store *)

#[export] Instance Token_eq : EqDecision Token.
Proof. solve_decision. Defined.
#[export] Instance apiTokenRecord_eq : EqDecision apiTokenRecord.
Proof. solve_decision. Defined.
#[export] Instance User_eq : EqDecision User.
Proof. solve_decision. Defined.

Definition toySHA (s : string) : bytes := list_byte_of_string s.
Definition demoToken : Token := mkToken "t1" "u1" "ci" ["backup:read"] 0 5 0.
Definition demoSecret : string := "kro_t1_AQI".
Definition demoRecord : apiTokenRecord := mkTokenRecord demoToken (hashTokenSecret toySHA demoSecret).
Definition demoUser : User := mkUser "u1" "a@b" "A" "operator" false 1 1.

#[local] Instance demoTokenCodec : Codec apiTokenRecord := listCodec [demoRecord].
#[local] Instance demoTokenCodecLaws : CodecLaws apiTokenRecord := listCodec_laws [demoRecord].
#[local] Instance demoUserCodec : Codec User := listCodec [demoUser].

Abbreviation demoDB := (gmap string (gmap string bytes)).

Definition demoCreate : M demoDB CreatedToken :=
  Create toySHA 5 (Ok "t1"%string) (Ok [Byte.x01; Byte.x02]) "ci" "u1" [" backup:read"] 0.

Definition demoIssued : demoDB := (demoCreate ∅).2.

Lemma demo_created : demoCreate ∅ = (Ok (mkCreatedToken demoToken demoSecret), demoIssued).
Proof. reflexivity. Qed.

Lemma demo_history : truns toySHA [Issued (mkCreatedToken demoToken demoSecret)] demoIssued.
Proof.
  apply (tr_create toySHA [] ∅ 5 (Ok "t1"%string) (Ok [Byte.x01; Byte.x02]) "ci" "u1" [" backup:read"] 0
           (Ok (mkCreatedToken demoToken demoSecret)) demoIssued).
  - apply tr_start. reflexivity.
  - intros i [= <-]. done.
  - exact demo_created.
Qed.

Lemma demo_no_collision secret :
  no_collision toySHA [Issued (mkCreatedToken demoToken demoSecret)] secret.
Proof. intros k e _ E. unfold toySHA in E. apply (f_equal string_of_list_byte) in E. now rewrite !string_of_list_byte_of_string in E. Qed.

Lemma token_verify_exact_witness :
  Some demoToken = Some demoToken <->
  accepts [Issued (mkCreatedToken demoToken demoSecret)] 9 demoSecret demoToken.
Proof.
  apply (token_verify_exact toySHA _ demoIssued 9 demoSecret (Some demoToken)).
  - exact demo_history.
  - apply demo_no_collision.
  - simpl. intros p [E|[]]. discriminate.
  - vm_compute. reflexivity.
Defined.

(** ** What scopes grant

    The relation between scopes behind the loops of
    src/internal/server/token_store.go and src/cmd/kronos/server.go: when a
    scope grants a request, and that granting composes, so that a token made
    of scopes its owner's role allows never allows more than the role. *)

#[local] Arguments String.append !_ _ / : simpl nomatch.

(** A trimmed scope [t] grants [req]. *)
Definition grants (t req : string) : Prop :=
  t <> "" /\ (t = "*" \/ t = "admin:*" \/ t = req \/
    exists v r, t = (v ++ ":*")%string /\ req = (v ++ ":" ++ r)%string).

Lemma string_app_assoc a b c : ((a ++ b) ++ c = a ++ b ++ c)%string.
Proof. induction a as [|x a IH]; simpl; [done|]. now rewrite IH. Qed.

Lemma scopes_loop_spec scopes req :
  scopes_loop scopes req = true <-> exists s, In s scopes /\ grants (TrimSpace s) req.
Proof.
  induction scopes as [|s scopes IH]; cbn [scopes_loop]; [split; [done|intros (? & [] & _)]|].
  assert (Hsplit : (exists s', In s' (s :: scopes) /\ grants (TrimSpace s') req) <->
    grants (TrimSpace s) req \/ exists s', In s' scopes /\ grants (TrimSpace s') req).
  { split; [intros (s' & [<-|Hin] & G); eauto|intros [G|(s' & Hin & G)]; [exists s|exists s']; simpl; auto]. }
  rewrite Hsplit, <- IH. clear Hsplit IH. set (t := TrimSpace s).
  destruct (String.eqb_spec t "") as [E|Hne].
  { split; [auto|]. intros [[Hn _]|?]; [contradiction|done]. }
  destruct (String.eqb_spec t "*") as [E1|N1]; [simpl; unfold grants; tauto|].
  destruct (String.eqb_spec t "admin:*") as [E2|N2]; [simpl; unfold grants; tauto|].
  destruct (String.eqb_spec t req) as [E3|N3]; [simpl; unfold grants; tauto|]. simpl.
  destruct (HasSuffix t ":*" && HasPrefix req (TrimSuffix t "*")) eqn:E.
  - apply andb_true_iff in E as [E4 E5]. apply HasSuffix_spec in E4 as [v Ev]. rewrite Ev in E5.
    change (":*")%string with (":" ++ "*")%string in E5. rewrite <- string_app_assoc, TrimSuffix_app in E5.
    apply HasPrefix_spec in E5 as [r ->]. split; [|done]. intros _. left. split; [done|].
    right; right; right. exists v, r. now rewrite string_app_assoc.
  - split; [auto|]. intros [(_ & [?|[?|[?|(v & r & Ev & Er)]]])|?]; try done. exfalso.
    apply andb_false_iff in E as [E|E].
    + assert (X : HasSuffix t ":*" = true) by (apply HasSuffix_spec; eauto). congruence.
    + rewrite Ev, Er in E. change (":*")%string with (":" ++ "*")%string in E.
      rewrite <- (string_app_assoc v ":" "*"), TrimSuffix_app, <- (string_app_assoc v ":" r), HasPrefix_app in E. done.
Qed.

(** *** Appending *)

Lemma app_snoc_cases u r w c :
  (u ++ r = w ++ String c "")%string ->
  (r = "" /\ u = (w ++ String c "")%string) \/ exists r', r = (r' ++ String c "")%string /\ w = (u ++ r')%string.
Proof.
  revert w. induction u as [|x u IH]; intros w E; simpl in *; [right; exists w; auto|].
  destruct w as [|y w]; simpl in E.
  - left. injection E as -> E. destruct u; [|discriminate]. simpl in E. subst r. auto.
  - injection E as -> E. destruct (IH w E) as [[-> ->]|(r' & -> & ->)]; [left|right]; eauto.
Qed.

Lemma snoc_inj a b x y : (a ++ String x "" = b ++ String y "")%string -> a = b /\ x = y.
Proof.
  revert b. induction a as [|c a IH]; intros [|d b]; simpl; intros E.
  - injection E as ->. auto.
  - injection E as _ E. destruct b; discriminate.
  - injection E as _ E. destruct a; discriminate.
  - injection E as -> E. apply IH in E as [-> ->]. auto.
Qed.

(** Trimming a string that starts with something trimmed at both ends. *)
Lemma trimRight_app_keep u c r :
  asciiSpace c = false -> exists r', trimRight (u ++ String c r) = (u ++ String c r')%string.
Proof.
  intros Hc. induction u as [|x u [r' IH]]; simpl.
  - destruct (trimRight r); rewrite ?Hc; eauto.
  - rewrite IH. exists r'. destruct u; done.
Qed.

Lemma TrimSpace_keep u c r :
  asciiSpace c = false -> headSpace (u ++ String c "") = false ->
  exists r', TrimSpace (u ++ String c r) = (u ++ String c r')%string.
Proof.
  intros Hc Hh. unfold TrimSpace.
  assert (E : trimLeft (u ++ String c r) = (u ++ String c r)%string).
  { destruct u as [|x u]; simpl in *; now rewrite ?Hc, ?Hh. }
  rewrite E. now apply trimRight_app_keep.
Qed.

(** *** Granting composes *)

(** A scope of a role: trimmed, without a space in front. *)
Definition roleScope (p : string) : Prop := TrimSpace p = p /\ headSpace p = false.

Lemma grants_trans p s req :
  roleScope p -> grants p s -> grants (TrimSpace s) req -> grants p req.
Proof.
  intros [Ht Hh] [Hp G] [_ G']. split; [done|].
  destruct G as [G|[G|[G|(v & r & -> & ->)]]]; [auto|auto| |].
  { subst s. rewrite Ht in G'. exact G'. }
  change (v ++ ":" ++ r)%string with (v ++ String ":" r)%string in G'.
  destruct (TrimSpace_keep v ":" r eq_refl) as [r' E]; [destruct v; done|]. rewrite E in G'.
  change (v ++ String ":" r')%string with (v ++ (":" ++ r'))%string in G'. rewrite <- string_app_assoc in G'.
  destruct G' as [G|[G|[G|(w & q & G & ->)]]].
  - exfalso. destruct v as [|x [|y v]]; discriminate.
  - right; left. destruct (app_snoc_cases (v ++ ":") r' "admin:" "*" G) as [[_ X]|(r2 & -> & X)].
    + change "admin:*"%string with ("admin:" ++ "*")%string in X. apply snoc_inj in X as [_ X]. discriminate.
    + change (v ++ ":*")%string with (v ++ (":" ++ "*"))%string.
      destruct r2 as [|c r2]; [simpl in X|].
      * assert (X' : ("admin" ++ ":" = v ++ ":")%string).
        { change ("admin" ++ ":")%string with "admin:"%string. rewrite X.
          clear. induction v as [|x v IH]; simpl; [done|]. simpl in IH. now rewrite IH. }
        apply snoc_inj in X' as [<- _]. reflexivity.
      * exfalso. destruct v as [|a1 [|a2 [|a3 [|a4 [|a5 [|a6 v]]]]]]; simpl in X; try discriminate.
        injection X as <- <- <- <- <- X. destruct v; discriminate.
  - right; right; right. exists v, r'. split; [done|]. now rewrite <- G, string_app_assoc.
  - right; right; right. change (w ++ ":*")%string with (w ++ (":" ++ "*"))%string in G.
    rewrite <- string_app_assoc in G. destruct (app_snoc_cases _ _ _ _ G) as [[_ X]|(r2 & -> & X)].
    + rewrite X in *. apply snoc_inj in X as [_ X]. discriminate.
    + exists v, (r2 ++ q)%string. split; [done|]. rewrite <- string_app_assoc, X.
      now rewrite !string_app_assoc.
Qed.

Lemma scopes_unique_in scopes seen t :
  In t (scopes_unique scopes seen) -> exists s, In s scopes /\ t = TrimSpace s.
Proof.
  revert seen. induction scopes as [|s scopes IH]; intros seen; simpl; [done|].
  destruct (String.eqb _ ""); [intros Ht; apply IH in Ht as (s' & ? & ?); eauto|].
  destruct (decide _); [intros Ht; apply IH in Ht as (s' & ? & ?); eauto|].
  intros [<-|Ht]; [eauto|]. apply IH in Ht as (s' & ? & ?); eauto.
Qed.

Lemma normalizeScopes_in scopes t :
  In t (normalizeScopes scopes) -> exists s, In s scopes /\ t = TrimSpace s.
Proof. intros Ht. apply sort_by_in in Ht. eapply scopes_unique_in. exact Ht. Qed.
