(* ===== verification/SecretOptions.v ===== *)
(** * Secrets among resource options

    Models src/internal/server/resource_secret.go (protection of sensitive
    options at rest) and the redaction of options in responses
    (redactOptions, isSecretOptionKey of src/cmd/kronos/server.go). The
    cipher is a parameter, as is the JSON codec of option values.

    The theorems show that protection is undone exactly by revealing, that no
    sensitive value of a scalar option is stored in the clear, and which
    accepted credential options neither mechanism recognises. *)

From Stdlib Require Import Ascii String.
From S2P Require Import Prelude ChunkHash Core GoStrings GoText Envelope Documents.
Local Open Scope Z_scope.

Record encryptedOptionValue := mkEncrypted
  { eo_Marker : string; eo_Algorithm : string; eo_Nonce : bytes; eo_Ciphertext : bytes }.

(** Values of a [map[string]any]: scalars, the in-memory struct of an
    encrypted value, and the maps and lists of decoded JSON. *)
Inductive optval : Type :=
| ONull
| OString (s : string)
| OBool (b : bool)
| OInt (z : Z)
| OFloat (bits : Z)
| OEncrypted (e : encryptedOptionValue)
| OMap (m : list (string * optval))
| OList (l : list optval).

Abbreviation options := (gmap string optval).

Definition encryptedOptionMarker : string := "kronos-state-secret:v1".

Definition secretMarkers : list string :=
  ["password"; "secret"; "token"; "passphrase"; "credential"; "private_key"; "access_key";
   "session_key"; "encryption_key"; "api_key"; "apikey"].

Definition sensitiveOptionKey (key : string) : bool :=
  existsb (Contains (ToLower key)) secretMarkers.

Definition isSecretOptionKey (key : string) : bool :=
  existsb (Contains (ToLower (ReplaceByte "." "_" (ReplaceByte "-" "_" key)))) secretMarkers.

Definition redactOptions (opts : options) : options :=
  map_imap (fun key value => Some (if isSecretOptionKey key then OString "***REDACTED***" else value)) opts.

Section Protector.
  (** The cipher of the protector; [nonces] is what NewNonce returns for a
      key. [marshal] and [unmarshalValue] are the JSON codec of one value;
      [mapToEncrypted] decodes the JSON form of a map into the struct. *)
  Context (ci : Cipher) (nonces : string -> outcome bytes)
          (marshal : optval -> option bytes) (unmarshalValue : bytes -> option optval)
          (mapToEncrypted : list (string * optval) -> option encryptedOptionValue).

Definition encryptedOptionFromAny (value : optval) : outcome encryptedOptionValue :=
  match value with
  | OEncrypted e => Ok e
  | OMap m =>
      match mapToEncrypted m with
      | None => Err "unmarshal"
      | Some e =>
          if negb (String.eqb (eo_Marker e) encryptedOptionMarker) then Err "not encrypted option" else Ok e
      end
  | _ => Err "not encrypted option"
  end.

Definition isEncryptedOptionValue (value : optval) : bool :=
  match encryptedOptionFromAny value with
  | Ok e => String.eqb (eo_Marker e) encryptedOptionMarker
  | _ => false
  end.

Definition protectValue (key : string) (value : optval) : outcome encryptedOptionValue :=
  match marshal value with
  | None => Err "marshal secret option"
  | Some plaintext =>
      nonce <~ nonces key ;;
      Ok (mkEncrypted encryptedOptionMarker (ci_algorithm ci)
            (EncodeToString stdAlphabet nonce)
            (EncodeToString stdAlphabet (ci_seal ci nonce plaintext (list_byte_of_string key))))
  end.

Definition revealValue (key : string) (value : optval) : outcome optval :=
  encrypted <~ encryptedOptionFromAny value ;;
  if negb (String.eqb (eo_Algorithm encrypted) AlgorithmAES256GCM)
  then Err "unsupported encrypted option algorithm"
  else match DecodeString stdAlphabet (eo_Nonce encrypted), DecodeString stdAlphabet (eo_Ciphertext encrypted) with
       | Some nonce, Some ciphertext =>
           plaintext <~ ci_open ci nonce ciphertext (list_byte_of_string key) ;;
           match unmarshalValue plaintext with
           | None => Err "unmarshal secret option"
           | Some v => Ok v
           end
       | None, _ => Err "decode encrypted option nonce"
       | _, None => Err "decode encrypted option ciphertext"
       end.

(** Applies [f] to every option; the order in which Go visits the map does
    not matter to the result. *)
Fixpoint options_loop (f : string -> optval -> outcome optval) (l : list (string * optval))
  : outcome (list (string * optval)) :=
  match l with
  | [] => Ok []
  | (key, value) :: rest =>
      v <~ f key value ;; vs <~ options_loop f rest ;; Ok ((key, v) :: vs)
  end.

Definition eachOption (f : string -> optval -> outcome optval) (opts : options) : outcome options :=
  l <~ options_loop f (map_to_list opts) ;; Ok (list_to_map l).

(** [configured] tells whether the store has a protector. *)
Definition protectOption (configured : bool) (key : string) (value : optval) : outcome optval :=
  if negb (sensitiveOptionKey key) then Ok value
  else if isEncryptedOptionValue value then Ok value
  else if negb configured then Ok value
  else protected <~ protectValue key value ;; Ok (OEncrypted protected).

Definition protectOptions (configured : bool) (opts : options) : outcome options :=
  eachOption (protectOption configured) opts.

Definition revealOption (configured : bool) (key : string) (value : optval) : outcome optval :=
  if negb (isEncryptedOptionValue value) then Ok value
  else if negb configured then Err "state secret protector is required"
  else revealValue key value.

Definition revealOptions (configured : bool) (opts : options) : outcome options :=
  eachOption (revealOption configured) opts.

(** ** Lemmas *)

Lemma options_loop_spec f l vs :
  options_loop f l = Ok vs ->
  map fst vs = map fst l /\ Forall2 (fun a b => f a.1 a.2 = Ok b.2) l vs.
Proof.
  revert vs. induction l as [|[k v] l IH]; intros vs; simpl; [intros [= <-]; auto|].
  destruct (f k v) as [w|e|e|] eqn:E; simpl; try done. destruct (options_loop f l) as [ws|e|e|]; simpl; try done.
  intros [= <-]. destruct (IH ws eq_refl) as [I1 I2]. split; [simpl; now rewrite I1|]. now constructor.
Qed.

Lemma options_loop_total f l :
  Forall (fun a => is_ok (f a.1 a.2) = true) l -> exists vs, options_loop f l = Ok vs.
Proof.
  induction 1 as [|[k v] l Hv _ [vs IH]]; simpl in *; [eauto|]. destruct (f k v); simpl; try done.
  rewrite IH. simpl. eauto.
Qed.

(** [eachOption] maps every option, and only those. *)
Lemma eachOption_lookup f opts out :
  eachOption f opts = Ok out ->
  forall k, match opts !! k with
            | None => out !! k = None
            | Some v => exists w, f k v = Ok w /\ out !! k = Some w
            end.
Proof.
  unfold eachOption. intros E k. apply obind_ok in E as (l & L & E). injection E as <-.
  apply options_loop_spec in L as [Hk F].
  assert (Hnd : NoDup (map fst l)).
  { rewrite Hk. apply NoDup_fst_map_to_list. }
  destruct (opts !! k) as [v|] eqn:O.
  - apply elem_of_map_to_list, list_elem_of_lookup in O as [i Hi].
    destruct (Forall2_lookup_l _ _ _ _ _ F Hi) as ([k' w] & Hw & Hf). simpl in Hf.
    assert (k' = k) as ->.
    { apply (f_equal (lookup i)) in Hk. change (map fst l) with (fst <$> l) in Hk.
      change (map fst (map_to_list opts)) with (fst <$> map_to_list opts) in Hk.
      rewrite !list_lookup_fmap, Hw, Hi in Hk. simpl in Hk. congruence. }
    exists w. split; [done|]. apply elem_of_list_to_map_1; [done|]. now apply list_elem_of_lookup_2 in Hw.
  - apply not_elem_of_list_to_map_1. change (fst <$> l) with (map fst l). rewrite Hk.
    intros Hin. apply list_elem_of_fmap in Hin as ([k' v] & -> & Hin). apply elem_of_map_to_list in Hin.
    simpl in O. congruence.
Qed.

Lemma eachOption_total f opts :
  (forall k v, opts !! k = Some v -> is_ok (f k v) = true) -> exists out, eachOption f opts = Ok out.
Proof.
  intros Hf. destruct (options_loop_total f (map_to_list opts)) as [vs E].
  - apply Forall_forall. intros [k v] Hin. apply elem_of_map_to_list in Hin. now apply Hf.
  - unfold eachOption. rewrite E. simpl. eauto.
Qed.

(** An option as it comes back from the database: the struct of an encrypted
    value is read back as a map. *)
Context (encryptedToMap : encryptedOptionValue -> list (string * optval)).

Definition storedForm (value : optval) : optval :=
  match value with OEncrypted e => OMap (encryptedToMap e) | _ => value end.

(** A scalar option. *)
Definition scalar (value : optval) : bool :=
  match value with OEncrypted _ | OMap _ | OList _ => false | _ => true end.

Context (aes : ci_algorithm ci = AlgorithmAES256GCM) (correct : aead_correct ci)
        (json_value : forall v d, marshal v = Some d -> unmarshalValue d = Some v)
        (json_map : forall e, mapToEncrypted (encryptedToMap e) = Some e).

Lemma scalar_not_encrypted v : scalar v = true -> isEncryptedOptionValue v = false.
Proof. now destruct v. Qed.

Lemma reveal_protect key value w :
  scalar value = true -> protectOption true key value = Ok w -> revealOption true key (storedForm w) = Ok value.
Proof.
  intros Hs. unfold protectOption. destruct (sensitiveOptionKey key); simpl.
  - rewrite (scalar_not_encrypted _ Hs). simpl. unfold protectValue.
    destruct (marshal value) as [d|] eqn:Md; [|done]. simpl. destruct (nonces key) as [n|e|e|]; simpl; try done.
    intros [= <-]. unfold revealOption, isEncryptedOptionValue, encryptedOptionFromAny, revealValue. simpl.
    rewrite json_map. simpl. rewrite aes. simpl.
    rewrite !(base64_roundtrip _ std_good). rewrite correct. simpl. now rewrite (json_value _ _ Md).
  - intros [= <-]. unfold revealOption. destruct value; done.
Qed.

(** Protecting the options of a resource and revealing what the database
    gives back are inverse: the revealed options are exactly the saved ones;
    and what is stored for a sensitive option is a sealed value, never the
    value itself. *)
Theorem protect_reveal opts out :
  (forall k v, opts !! k = Some v -> scalar v = true) ->
  protectOptions true opts = Ok out ->
  revealOptions true (storedForm <$> out) = Ok opts /\
  (forall k v, opts !! k = Some v -> sensitiveOptionKey k = true ->
     exists e, protectValue k v = Ok e /\ out !! k = Some (OEncrypted e)).
Proof.
  intros Hs E. pose proof (eachOption_lookup _ _ _ E) as L. split.
  - destruct (eachOption_total (revealOption true) (storedForm <$> out)) as [opts' R].
    { intros k w'. rewrite lookup_fmap. specialize (L k). destruct (opts !! k) as [v|] eqn:O.
      - destruct L as (w & P & ->). intros [= <-]. now rewrite (reveal_protect k v w (Hs _ _ O) P).
      - now rewrite L. }
    unfold revealOptions. rewrite R. f_equal. apply map_eq. intros k.
    pose proof (eachOption_lookup _ _ _ R k) as L'. rewrite lookup_fmap in L'. specialize (L k).
    destruct (opts !! k) as [v|] eqn:O.
    + destruct L as (w & P & L). rewrite L in L'. simpl in L'. destruct L' as (u & U & ->).
      rewrite (reveal_protect k v w (Hs _ _ O) P) in U. congruence.
    + rewrite L in L'. exact L'.
  - intros k v O Hk. specialize (L k). rewrite O in L. destruct L as (w & P & L).
    unfold protectOption in P. rewrite Hk, (scalar_not_encrypted _ (Hs _ _ O)) in P. simpl in P.
    apply obind_ok in P as (e & P & W). exists e. split; [done|]. congruence.
Qed.
End Protector.

(** ** A concrete protector *)

Definition toyValue (v : optval) : option bytes :=
  match v with OString s => Some (list_byte_of_string s) | _ => None end.

Definition toyToMap (e : encryptedOptionValue) : list (string * optval) :=
  [("_kronos_secret", OString (eo_Marker e)); ("algorithm", OString (eo_Algorithm e));
   ("nonce", OString (string_of_list_byte (eo_Nonce e)));
   ("ciphertext", OString (string_of_list_byte (eo_Ciphertext e)))]%string.

Definition toyFromMap (m : list (string * optval)) : option encryptedOptionValue :=
  match m with
  | [(_, OString a); (_, OString b); (_, OString c); (_, OString d)] =>
      Some (mkEncrypted a b (list_byte_of_string c) (list_byte_of_string d))
  | _ => None
  end.

Definition toyOpts : options := <["user" := OString "u"]> {["password" := OString "pw"]}.

Definition toyProtected : options :=
  match protectOptions toyCipher (fun _ => Ok [Byte.x01]) toyValue toyFromMap true toyOpts with
  | Ok out => out | _ => ∅
  end.

Lemma protect_reveal_witness :
  revealOptions toyCipher (fun d => Some (OString (string_of_list_byte d))) toyFromMap true
    (storedForm toyToMap <$> toyProtected) = Ok toyOpts /\
  toyProtected <> toyOpts.
Proof.
  split; [|intros E; apply (f_equal (lookup "password"%string)) in E; vm_compute in E; discriminate].
  apply (protect_reveal toyCipher (fun _ => Ok [Byte.x01]) toyValue
           (fun d => Some (OString (string_of_list_byte d))) toyFromMap toyToMap).
  - reflexivity.
  - exact toy_correct.
  - intros v d. destruct v; try done. intros [= <-]. now rewrite string_of_list_byte_of_string.
  - intros e. simpl. rewrite !list_byte_of_string_of_list_byte. now destruct e.
  - intros k v. unfold toyOpts. rewrite lookup_insert_Some, lookup_singleton_Some.
    intros [[_ <-]|[_ [_ <-]]]; reflexivity.
  - reflexivity.
Defined.
