(* ===== verification/Resources.v ===== *)
(** * The resource stores of the server

    Models src/internal/server/resource_store.go and the rule store of
    src/internal/server/notification_store.go: validation of targets,
    storages, schedules, backups, users, retention policies and notification
    rules, and the Save, Get, List and Delete of each store. url.Parse is a
    parameter.

    The theorems show that over any sequence of operations every stored
    record is valid and filed under its own identifier, and that because of
    this a listing misses none. *)

From Stdlib Require Import Ascii String.
From S2P Require Import Prelude ChunkHash Core Calendar GoStrings GoText Envelope Documents SecretOptions Tokens Cron Window Scheduler.
Local Open Scope Z_scope.

(** ** Records *)

Record Target := mkTarget
  { tg_ID : string; tg_Name : string; tg_Driver : string; tg_Endpoint : string; tg_Database : string;
    tg_Options : options; tg_CreatedAt : Time; tg_UpdatedAt : Time; tg_Labels : gmap string string }.

Record Storage := mkStorage
  { so_ID : string; so_Name : string; so_Kind : string; so_URI : string; so_Options : options;
    so_CreatedAt : Time; so_UpdatedAt : Time; so_Labels : gmap string string }.

Record PolicyRule := mkPolicyRule { pr_Kind : string; pr_Params : options }.

Record StoredPolicy := mkStoredPolicy
  { sp_ID : string; sp_Name : string; sp_Rules : list PolicyRule; sp_CreatedAt : Time; sp_UpdatedAt : Time }.

Record NotificationRule := mkNotificationRule
  { nr_ID : string; nr_Name : string; nr_Events : list string; nr_WebhookURL : string; nr_Secret : string;
    nr_MaxAttempts : Z; nr_Enabled : bool; nr_CreatedAt : Time; nr_UpdatedAt : Time }.

Record URL := mkURL { url_Scheme : string; url_Host : string; url_Path : string }.

Definition targetsBucket : string := "targets".
Definition storagesBucket : string := "storages".
Definition schedulesBucket : string := "schedules".
Definition backupsBucket : string := "backups".
Definition policiesBucket : string := "retention_policies".
Definition notificationsBucket : string := "notifications".

Definition oneOf (xs : list string) (x : string) : bool := existsb (String.eqb x) xs.

Definition validTargetDriver : string -> bool := oneOf ["postgres"; "mysql"; "mongodb"; "redis"].
Definition validStorageKind : string -> bool := oneOf ["local"; "s3"; "sftp"; "azure"; "gcs"].
Definition validBackupType : string -> bool := oneOf ["full"; "incr"; "diff"; "stream"; "schema"].
Definition validRetentionRuleKind (kind : string) : bool := oneOf ["count"; "time"; "size"; "gfs"] (TrimSpace kind).
Definition validRole : string -> bool := oneOf [RoleAdmin; RoleOperator; RoleViewer].

(** ** Validation *)

(** [require ok msg]: the early return of a failed check. *)
Definition require (ok : bool) (msg : string) : outcome unit := if ok then Ok tt else Err msg.

Definition idChar (c : ascii) : bool :=
  let n := nat_of_ascii c in
  ((97 <=? n) && (n <=? 122))%nat || ((65 <=? n) && (n <=? 90))%nat || ((48 <=? n) && (n <=? 57))%nat
  || Ascii.eqb c "-" || Ascii.eqb c "_" || Ascii.eqb c "." || Ascii.eqb c ":" || Ascii.eqb c "/".

Fixpoint idChars (s : string) : bool :=
  match s with EmptyString => true | String c r => idChar c && idChars r end.

Definition validateResourceID (label id : string) : outcome unit :=
  let value := TrimSpace id in
  _ <~ require (negb (String.eqb value "")) (label ++ " is required") ;;
  _ <~ require (String.eqb value id) (label ++ " must not contain leading or trailing whitespace") ;;
  _ <~ require (String.length value <=? 128)%nat (label ++ " must be at most 128 characters") ;;
  require (idChars value) (label ++ " contains invalid character").

Definition requiredID (what id : string) : outcome unit :=
  _ <~ require (negb (IDIsZero id)) (what ++ " id is required") ;; validateResourceID (what ++ " id") id.

Fixpoint hasControlChars (s : string) : bool :=
  match s with
  | EmptyString => false
  | String c r => (nat_of_ascii c <? 32)%nat || Nat.eqb (nat_of_ascii c) 127 || hasControlChars r
  end.

Definition targetOptionKeys : list string :=
  ["authSource"; "auth_source"; "connection_test_collection"; "database"; "dsn";
   "dump_set_gtid_purged"; "globals"; "host"; "includeGlobals"; "include_globals";
   "native"; "native_protocol"; "password"; "port"; "protocol"; "set_gtid_purged"; "ssl"; "sslmode"; "tls"; "uri";
   "user"; "username"].

Definition storageOptionKeys : list string :=
  ["accessKey"; "access_key"; "aws_access_key_id"; "aws_secret_access_key";
   "account"; "accountKey"; "accountName"; "account_key"; "account_name";
   "accessToken"; "access_token"; "apiKey"; "api_key"; "aws_session_token";
   "bearerToken"; "bearer_token"; "bucket"; "container"; "credentials"; "credentials_provider"; "endpoint";
   "force_path_style"; "imds_endpoint"; "region"; "secretKey"; "secret_key";
   "sas"; "sasToken"; "sas_token"; "sessionToken"; "session_token";
   "agent_socket"; "insecure_ignore_host_key"; "knownHosts"; "known_hosts";
   "passphrase"; "password"; "privateKey"; "privateKeyPassphrase";
   "private_key"; "private_key_passphrase"; "private_key_path"; "ssh_agent_socket";
   "prefix"; "user"; "username"].

Definition validateOptionValues (label : string) (opts : options) : outcome unit :=
  require (forallb (fun e => scalar e.2) (map_to_list opts)) (label ++ " must be a scalar value").

Definition validateOptions (label : string) (opts : options) (allowed : list string) : outcome unit :=
  _ <~ require (forallb (fun e => oneOf allowed e.1) (map_to_list opts)) (label ++ " option is not supported") ;;
  validateOptionValues (label ++ " option") opts.

(** [strings.Trim(s, c) == ""]: nothing but the byte [c]. *)
Fixpoint noOther (c : ascii) (s : string) : bool :=
  match s with EmptyString => true | String d r => Ascii.eqb d c && noOther c r end.

Section Validation.
  Context (urlParse : string -> option URL) (loadLocation : string -> option Location).

Definition validateStorageURI (kind raw : string) : outcome unit :=
  if hasControlChars raw then Err "storage uri contains control characters"
  else match urlParse raw with
       | None => Err "storage uri"
       | Some parsed =>
           if String.eqb kind "local" then
             if String.eqb (url_Scheme parsed) "" then Ok tt
             else
               _ <~ require (String.eqb (url_Scheme parsed) "file") "local storage uri must use file scheme" ;;
               _ <~ require (String.eqb (url_Host parsed) "") "local storage uri must not include a host" ;;
               require (negb (String.eqb (url_Path parsed) "")) "local storage uri path is required"
           else if String.eqb kind "s3" then
             _ <~ require (String.eqb (url_Scheme parsed) "s3") "s3 storage uri must use s3 scheme" ;;
             require (negb (String.eqb (url_Host parsed) "")) "s3 storage uri bucket is required"
           else if String.eqb kind "sftp" then
             _ <~ require (String.eqb (url_Scheme parsed) "sftp") "sftp storage uri must use sftp scheme" ;;
             require (negb (String.eqb (url_Host parsed) "")) "sftp storage uri host is required"
           else if String.eqb kind "azure" then
             _ <~ require (oneOf ["azure"; "azblob"] (url_Scheme parsed)) "azure storage uri must use azure or azblob scheme" ;;
             _ <~ require (negb (String.eqb (url_Host parsed) "")) "azure storage uri account is required" ;;
             require (negb (noOther "/" (url_Path parsed))) "azure storage uri container is required"
           else if String.eqb kind "gcs" then
             _ <~ require (oneOf ["gcs"; "gs"] (url_Scheme parsed)) "gcs storage uri must use gcs or gs scheme" ;;
             require (negb (String.eqb (url_Host parsed) "")) "gcs storage uri bucket is required"
           else Ok tt
       end.

Definition validateTarget (t : Target) : outcome unit :=
  _ <~ requiredID "target" (tg_ID t) ;;
  _ <~ require (negb (String.eqb (tg_Name t) "")) "target name is required" ;;
  _ <~ require (negb (String.eqb (tg_Driver t) "")) "target driver is required" ;;
  _ <~ require (validTargetDriver (tg_Driver t)) "target driver is not supported" ;;
  _ <~ require (negb (String.eqb (tg_Endpoint t) "")) "target endpoint is required" ;;
  _ <~ require (negb (hasControlChars (tg_Endpoint t))) "target endpoint contains control characters" ;;
  validateOptions "target" (tg_Options t) targetOptionKeys.

Definition validateStorage (so : Storage) : outcome unit :=
  _ <~ requiredID "storage" (so_ID so) ;;
  _ <~ require (negb (String.eqb (so_Name so) "")) "storage name is required" ;;
  _ <~ require (negb (String.eqb (so_Kind so) "")) "storage kind is required" ;;
  _ <~ require (validStorageKind (so_Kind so)) "storage kind is not supported" ;;
  _ <~ require (negb (String.eqb (so_URI so) "")) "storage uri is required" ;;
  _ <~ validateStorageURI (so_Kind so) (so_URI so) ;;
  validateOptions "storage" (so_Options so) storageOptionKeys.

Definition validateSchedule (sc : Schedule) : outcome unit :=
  _ <~ requiredID "schedule" (sc_ID sc) ;;
  _ <~ require (negb (String.eqb (sc_Name sc) "")) "schedule name is required" ;;
  _ <~ requiredID "schedule target" (sc_TargetID sc) ;;
  _ <~ requiredID "schedule storage" (sc_StorageID sc) ;;
  _ <~ require (negb (String.eqb (sc_BackupType sc) "")) "schedule backup type is required" ;;
  _ <~ require (validBackupType (sc_BackupType sc)) "schedule backup type is not supported" ;;
  _ <~ require (negb (String.eqb (sc_Expression sc) "")) "schedule expression is required" ;;
  match ParseCron (sc_Expression sc) with
  | Err e => match ParseWindow loadLocation (sc_Expression sc) with
             | Err _ => Err ("schedule expression: " ++ e)
             | Ok _ => Ok tt
             | Panic e => Panic e
             | Fuel => Fuel
             end
  | Ok _ => Ok tt
  | Panic e => Panic e
  | Fuel => Fuel
  end.

Definition validateBackup (b : Backup) : outcome unit :=
  _ <~ requiredID "backup" (bk_ID b) ;;
  _ <~ requiredID "backup target" (bk_TargetID b) ;;
  _ <~ requiredID "backup storage" (bk_StorageID b) ;;
  _ <~ requiredID "backup job" (bk_JobID b) ;;
  _ <~ require (negb (String.eqb (bk_Type b) "")) "backup type is required" ;;
  _ <~ require (validBackupType (bk_Type b)) "backup type is not supported" ;;
  _ <~ requiredID "backup manifest" (bk_ManifestID b) ;;
  require (negb (TimeIsZero (bk_EndedAt b))) "backup ended_at is required".

Definition validateUser (u : User) : outcome unit :=
  _ <~ requiredID "user" (us_ID u) ;;
  _ <~ require (negb (String.eqb (us_Email u) "")) "user email is required" ;;
  _ <~ require (negb (String.eqb (us_DisplayName u) "")) "user display name is required" ;;
  _ <~ require (validRole (us_Role u)) "invalid user role" ;;
  require (negb (us_TOTPEnforced u)) "user totp_enforced is not supported by token-only auth".

Fixpoint validateRules (rules : list PolicyRule) : outcome unit :=
  match rules with
  | [] => Ok tt
  | rule :: rest =>
      _ <~ require (negb (String.eqb (pr_Kind rule) "")) "retention policy rule kind is required" ;;
      _ <~ require (validRetentionRuleKind (pr_Kind rule)) "retention policy rule kind is not supported" ;;
      _ <~ validateOptionValues "retention policy rule" (pr_Params rule) ;;
      validateRules rest
  end.

Definition validateRetentionPolicy (p : StoredPolicy) : outcome unit :=
  _ <~ requiredID "retention policy" (sp_ID p) ;;
  _ <~ require (negb (String.eqb (sp_Name p) "")) "retention policy name is required" ;;
  _ <~ require (negb (Nat.eqb (length (sp_Rules p)) 0)) "retention policy rules are required" ;;
  validateRules (sp_Rules p).

Definition NotificationJobSucceeded : string := "job.succeeded".
Definition NotificationJobFailed : string := "job.failed".
Definition NotificationJobCanceled : string := "job.canceled".

Definition validateNotificationRule (r : NotificationRule) : outcome unit :=
  _ <~ require (negb (IDIsZero (nr_ID r))) "notification rule id is required" ;;
  _ <~ require (negb (String.eqb (TrimSpace (nr_Name r)) "")) "notification rule name is required" ;;
  _ <~ require (negb (Nat.eqb (length (nr_Events r)) 0)) "notification rule events are required" ;;
  _ <~ require (forallb (oneOf [NotificationJobSucceeded; NotificationJobFailed; NotificationJobCanceled]) (nr_Events r))
         "unsupported notification event" ;;
  _ <~ require (0 <=? nr_MaxAttempts r) "notification max_attempts must be non-negative" ;;
  match urlParse (nr_WebhookURL r) with
  | None => Err "notification webhook_url must be an absolute URL"
  | Some parsed =>
      if String.eqb (url_Scheme parsed) "" || String.eqb (url_Host parsed) ""
      then Err "notification webhook_url must be an absolute URL"
      else require (oneOf ["http"; "https"] (url_Scheme parsed)) "notification webhook_url scheme must be http or https"
  end.
End Validation.

(** ** Stores *)

Definition byName {A} (name id : A -> string) (a b : A) : bool :=
  if String.eqb (name a) (name b) then String.ltb (id a) (id b) else String.ltb (name a) (name b).

Definition withOptions (t : Target) (opts : options) : Target :=
  mkTarget (tg_ID t) (tg_Name t) (tg_Driver t) (tg_Endpoint t) (tg_Database t) opts (tg_CreatedAt t)
    (tg_UpdatedAt t) (tg_Labels t).

Definition withStorageOptions (so : Storage) (opts : options) : Storage :=
  mkStorage (so_ID so) (so_Name so) (so_Kind so) (so_URI so) opts (so_CreatedAt so) (so_UpdatedAt so) (so_Labels so).

Definition withProtected (b : Backup) (p : bool) : Backup :=
  mkBackup (bk_ID b) (bk_TargetID b) (bk_StorageID b) (bk_JobID b) (bk_Type b) (bk_ParentID b) (bk_ManifestID b)
    (bk_StartedAt b) (bk_EndedAt b) (bk_SizeBytes b) (bk_ChunkCount b) p.

Definition withRole (u : User) (role : string) (updated : Time) : User :=
  mkUser (us_ID u) (us_Email u) (us_DisplayName u) role (us_TOTPEnforced u) (us_CreatedAt u) updated.

Section Stores.
  Context {S : Type} `{KV S} `{Codec Target} `{Codec Storage} `{Codec Schedule} `{Codec Backup} `{Codec User}
          `{Codec StoredPolicy} `{Codec NotificationRule}.
  Context (urlParse : string -> option URL) (loadLocation : string -> option Location).
  (** The protector of sensitive options, as functions on option maps. *)
  Context (protect reveal : options -> outcome options).

Definition TargetSave (t : Target) : M S unit :=
  _ <-- mlift (validateTarget t) ;;
  opts <-- mlift (protect (tg_Options t)) ;;
  saveJSON targetsBucket (tg_ID t) (withOptions t opts).

Definition revealTarget (t : Target) : outcome Target :=
  opts <~ reveal (tg_Options t) ;; Ok (withOptions t opts).

Definition TargetGet (id : string) (s : S) : outcome (option Target) :=
  found <~ getJSON targetsBucket id s ;;
  match found with
  | None => Ok None
  | Some t => t' <~ revealTarget t ;; Ok (Some t')
  end.

Definition TargetList (s : S) : outcome (list Target) :=
  l <~ listJSON targetsBucket (fun data => t <~ unmarshal data ;; revealTarget t) s ;;
  Ok (sort_by (byName tg_Name tg_ID) l).

Definition TargetDelete (id : string) : M S unit := deleteKey targetsBucket id.

Definition StorageSave (so : Storage) : M S unit :=
  _ <-- mlift (validateStorage urlParse so) ;;
  opts <-- mlift (protect (so_Options so)) ;;
  saveJSON storagesBucket (so_ID so) (withStorageOptions so opts).

Definition revealStorage (so : Storage) : outcome Storage :=
  opts <~ reveal (so_Options so) ;; Ok (withStorageOptions so opts).

Definition StorageGet (id : string) (s : S) : outcome (option Storage) :=
  found <~ getJSON storagesBucket id s ;;
  match found with
  | None => Ok None
  | Some so => so' <~ revealStorage so ;; Ok (Some so')
  end.

Definition StorageList (s : S) : outcome (list Storage) :=
  l <~ listJSON storagesBucket (fun data => so <~ unmarshal data ;; revealStorage so) s ;;
  Ok (sort_by (byName so_Name so_ID) l).

Definition StorageDelete (id : string) : M S unit := deleteKey storagesBucket id.

Definition ScheduleSave (sc : Schedule) : M S unit :=
  _ <-- mlift (validateSchedule loadLocation sc) ;; saveJSON schedulesBucket (sc_ID sc) sc.
Definition ScheduleGet (id : string) (s : S) : outcome (option Schedule) := getJSON schedulesBucket id s.
Definition ScheduleList (s : S) : outcome (list Schedule) :=
  l <~ listJSON schedulesBucket unmarshal s ;; Ok (sort_by (byName sc_Name sc_ID) l).
Definition ScheduleDelete (id : string) : M S unit := deleteKey schedulesBucket id.

Definition BackupSave (b : Backup) : M S unit :=
  _ <-- mlift (validateBackup b) ;; saveJSON backupsBucket (bk_ID b) b.
Definition BackupGet (id : string) (s : S) : outcome (option Backup) := getJSON backupsBucket id s.
Definition BackupStoreList (s : S) : outcome (list Backup) :=
  l <~ listJSON backupsBucket unmarshal s ;; Ok (BackupList l).
Definition BackupDelete (id : string) : M S unit := deleteKey backupsBucket id.

Definition BackupProtect (id : string) (protected : bool) : M S Backup :=
  found <-- (fun s => (BackupGet id s, s)) ;;
  match found with
  | None => merr "protect backup: not found"
  | Some b => let b := withProtected b protected in _ <-- BackupSave b ;; mret b
  end.

Definition UserSave (u : User) : M S unit :=
  _ <-- mlift (validateUser u) ;; saveJSON usersBucket (us_ID u) u.
Definition UserGet (id : string) (s : S) : outcome (option User) := getJSON usersBucket id s.
Definition UserList (s : S) : outcome (list User) :=
  l <~ listJSON usersBucket unmarshal s ;; Ok (sort_by (byName us_Email us_ID) l).
Definition UserDelete (id : string) : M S unit := deleteKey usersBucket id.

(** [clock] is what time.Now().UTC() reads. *)
Definition UserGrant (clock : Time) (id role : string) (now : Time) : M S User :=
  if negb (validRole role) then merr "invalid role"
  else
    found <-- (fun s => (UserGet id s, s)) ;;
    match found with
    | None => merr "grant user role: not found"
    | Some u =>
        let u := withRole u role (if TimeIsZero now then clock else now) in
        _ <-- UserSave u ;; mret u
    end.

Definition PolicySave (p : StoredPolicy) : M S unit :=
  _ <-- mlift (validateRetentionPolicy p) ;; saveJSON policiesBucket (sp_ID p) p.
Definition PolicyGet (id : string) (s : S) : outcome (option StoredPolicy) := getJSON policiesBucket id s.
Definition PolicyList (s : S) : outcome (list StoredPolicy) :=
  l <~ listJSON policiesBucket unmarshal s ;; Ok (sort_by (byName sp_Name sp_ID) l).
Definition PolicyDelete (id : string) : M S unit := deleteKey policiesBucket id.

Definition RuleSave (r : NotificationRule) : M S unit :=
  _ <-- mlift (validateNotificationRule urlParse r) ;; saveJSON notificationsBucket (nr_ID r) r.
Definition RuleGet (id : string) (s : S) : outcome (option NotificationRule) := getJSON notificationsBucket id s.
Definition RuleList (s : S) : outcome (list NotificationRule) :=
  l <~ listJSON notificationsBucket unmarshal s ;; Ok (sort_by (byName nr_Name nr_ID) l).
Definition RuleDelete (id : string) : M S unit := deleteKey notificationsBucket id.
End Stores.

(** ** Well-formed stores *)

Section Wellformed.
  Context {S : Type} `{KVLaws S} `{CodecLaws Target} `{CodecLaws Storage} `{CodecLaws Schedule} `{CodecLaws Backup}
          `{CodecLaws User} `{CodecLaws StoredPolicy} `{CodecLaws NotificationRule}.
  Context (urlParse : string -> option URL) (loadLocation : string -> option Location)
          (protect reveal : options -> outcome options).

(** Every record of bucket [b] is filed under its identifier and has [P]. *)
Definition filed {A} `{Codec A} (b : string) (idOf : A -> string) (P : A -> Prop) (s : S) : Prop :=
  forall k v, docs A b s !! k = Some v -> idOf v = k /\ P v.

Definition validTarget (t : Target) : Prop :=
  exists t0 opts, validateTarget t0 = Ok tt /\ protect (tg_Options t0) = Ok opts /\ t = withOptions t0 opts.

Definition validStorage (so : Storage) : Prop :=
  exists so0 opts, validateStorage urlParse so0 = Ok tt /\ protect (so_Options so0) = Ok opts /\
    so = withStorageOptions so0 opts.

Record wellformed (s : S) : Prop := {
  wf_targets : filed targetsBucket tg_ID validTarget s;
  wf_storages : filed storagesBucket so_ID validStorage s;
  wf_schedules : filed schedulesBucket sc_ID (fun sc => validateSchedule loadLocation sc = Ok tt) s;
  wf_backups : filed backupsBucket bk_ID (fun b => validateBackup b = Ok tt) s;
  wf_users : filed usersBucket us_ID (fun u => validateUser u = Ok tt) s;
  wf_policies : filed policiesBucket sp_ID (fun p => validateRetentionPolicy p = Ok tt) s;
  wf_rules : filed notificationsBucket nr_ID (fun r => validateNotificationRule urlParse r = Ok tt) s
}.

(** One operation on the stores, whatever its result; writes to the buckets
    of the other stores may come in between. *)
Inductive rstep : S -> S -> Prop :=
| rs_target t s : rstep s (TargetSave protect t s).2
| rs_storage so s : rstep s (StorageSave urlParse protect so s).2
| rs_schedule sc s : rstep s (ScheduleSave loadLocation sc s).2
| rs_backup b s : rstep s (BackupSave b s).2
| rs_user u s : rstep s (UserSave u s).2
| rs_policy p s : rstep s (PolicySave p s).2
| rs_rule r s : rstep s (RuleSave urlParse r s).2
| rs_delete b k s : rstep s (deleteKey b k s).2
| rs_protect id p s : rstep s (BackupProtect id p s).2
| rs_grant clock id role now s : rstep s (UserGrant clock id role now s).2
| rs_other b m s s' : changed b m s s' ->
    ~ In b [targetsBucket; storagesBucket; schedulesBucket; backupsBucket; usersBucket; policiesBucket; notificationsBucket] ->
    rstep s s'.

Lemma filed_unchanged {A} `{Codec A} b idOf (P : A -> Prop) (s s' : S) :
  unchanged s s' -> filed b idOf P s -> filed b idOf P s'.
Proof. intros U F k v. rewrite (docs_unchanged _ _ _ U). apply F. Qed.

Lemma filed_other {A} `{Codec A} b b' m idOf (P : A -> Prop) (s s' : S) :
  changed b' m s s' -> b <> b' -> filed b idOf P s -> filed b idOf P s'.
Proof. intros C Hne F k v. rewrite (docs_other _ _ _ _ _ C Hne). apply F. Qed.

Lemma filed_save {A} `{CodecLaws A} b idOf (P : A -> Prop) a (s s' : S) :
  saved b (idOf a) a s s' -> P a -> filed b idOf P s -> filed b idOf P s'.
Proof.
  intros [E _] HP F k v. rewrite E, lookup_insert_Some. intros [[<- <-]|[_ L]]; [done|now apply F].
Qed.

Lemma filed_delete {A} `{CodecLaws A} b key idOf (P : A -> Prop) (s s' : S) :
  removed (A := A) b key s s' -> filed b idOf P s -> filed b idOf P s'.
Proof. intros [E _] F k v. rewrite E, lookup_delete_Some. intros [_ L]. now apply F. Qed.

(** What a validated save does to the state. *)
Lemma validated_save {A} `{CodecLaws A} b key (a : A) (check : outcome unit) (s : S) :
  let s' := (mbind (mlift check) (fun _ => saveJSON b key a) s).2 in
  unchanged s s' \/ (check = Ok tt /\ saved b key a s s').
Proof.
  simpl. unfold mbind, mlift. destruct check as [[]|e|e|]; simpl; try (left; done).
  destruct (saveJSON b key a s) as [r s'] eqn:E. simpl.
  apply saveJSON_cases in E as [(_ & _ & Sv)|[_ U]]; auto.
Qed.

Lemma wf_unchanged (s s' : S) : unchanged s s' -> wellformed s -> wellformed s'.
Proof. intros U [W1 W2 W3 W4 W5 W6 W7]. split; eapply filed_unchanged; eauto. Qed.

(** [save_case a]: the state after record [a] was saved; the other buckets
    are as they were. *)
Ltac save_case a :=
  match goal with
  | W : wellformed _, Sv : saved _ _ _ _ _ |- wellformed _ =>
      let m := fresh in let C := fresh in
      pose proof Sv as [_ [m C]]; destruct W;
      split; try (eapply filed_other; [exact C|discriminate|assumption]);
      apply (filed_save _ _ _ a _ _ Sv); [|assumption]
  end.

(** [checked_save V]: a save after a check, by its outcome. *)
Ltac checked_save V :=
  match goal with
  | |- wellformed (mbind (mlift ?c) (fun _ => saveJSON ?b ?key ?a) ?s).2 =>
      let U := fresh in let Sv := fresh in
      destruct (validated_save b key a c s) as [U|[V Sv]]; [now apply (wf_unchanged s)|save_case a]
  end.

Lemma wf_BackupSave b (s : S) : wellformed s -> wellformed (BackupSave b s).2.
Proof. intros W. unfold BackupSave. checked_save V. exact V. Qed.

Lemma wf_UserSave u (s : S) : wellformed s -> wellformed (UserSave u s).2.
Proof. intros W. unfold UserSave. checked_save V. exact V. Qed.

Lemma wf_then {A B} (op : M S A) (x : A -> B) (s : S) :
  wellformed (op s).2 -> wellformed (mbind op (fun a => mret (x a)) s).2.
Proof. unfold mbind, mret. now destruct (op s) as [[a|e|e|] s1]. Qed.

Lemma wf_delete b k (s : S) : wellformed s -> wellformed (deleteKey b k s).2.
Proof.
  intros [W1 W2 W3 W4 W5 W6 W7]. destruct (deleteKey b k s) as [r s'] eqn:E. simpl.
  assert (F : forall A (CA : Codec A) (LA : CodecLaws A) b' idOf (P : A -> Prop),
             filed b' idOf P s -> filed b' idOf P s').
  { intros A CA LA b' idOf P F. destruct (deleteKey_cases (A := A) _ _ _ _ _ E) as [[_ R]|[_ U]].
    - destruct (String.eqb_spec b' b) as [->|Hne]; [now apply (filed_delete b k idOf P s)|].
      destruct R as [_ [m C]]. now apply (filed_other b' b m idOf P s).
    - now apply (filed_unchanged b' idOf P s). }
  split; eapply F; eauto with typeclass_instances.
Qed.

Lemma wf_TargetSave t (s : S) : wellformed s -> wellformed (TargetSave protect t s).2.
Proof.
  intros W. unfold TargetSave, mbind, mlift. destruct (validateTarget t) as [[]|e|e|] eqn:V; try done.
  destruct (protect (tg_Options t)) as [opts|e|e|] eqn:P; try done.
  destruct (saveJSON _ _ _ s) as [r s'] eqn:E.
  apply saveJSON_cases in E as [(_ & _ & Sv)|[_ U]]; [|now apply (wf_unchanged s)].
  change (tg_ID t) with (tg_ID (withOptions t opts)) in Sv. save_case (withOptions t opts). now exists t, opts.
Qed.

Lemma wf_StorageSave so (s : S) : wellformed s -> wellformed (StorageSave urlParse protect so s).2.
Proof.
  intros W. unfold StorageSave, mbind, mlift. destruct (validateStorage urlParse so) as [[]|e|e|] eqn:V; try done.
  destruct (protect (so_Options so)) as [opts|e|e|] eqn:P; try done.
  destruct (saveJSON _ _ _ s) as [r s'] eqn:E.
  apply saveJSON_cases in E as [(_ & _ & Sv)|[_ U]]; [|now apply (wf_unchanged s)].
  change (so_ID so) with (so_ID (withStorageOptions so opts)) in Sv. save_case (withStorageOptions so opts).
  now exists so, opts.
Qed.

Lemma rstep_wf (s s' : S) : rstep s s' -> wellformed s -> wellformed s'.
Proof.
  intros R W. destruct R as [t s|so s|sc s|b s|u s|p s|r s|b k s|id p s|clock id role now s|b m s s' C Hb].
  - now apply wf_TargetSave.
  - now apply wf_StorageSave.
  - unfold ScheduleSave. checked_save V. exact V.
  - now apply wf_BackupSave.
  - now apply wf_UserSave.
  - unfold PolicySave. checked_save V. exact V.
  - unfold RuleSave. checked_save V. exact V.
  - now apply wf_delete.
  - unfold BackupProtect, mbind at 1. destruct (BackupGet id s) as [[b|]|e|e|]; try done.
    now apply wf_then, wf_BackupSave.
  - unfold UserGrant. destruct (negb (validRole role)); [done|]. unfold mbind at 1.
    destruct (UserGet id s) as [[u|]|e|e|]; try done. now apply wf_then, wf_UserSave.
  - assert (F : forall A (CA : Codec A) b' idOf (P : A -> Prop), b' <> b -> filed b' idOf P s -> filed b' idOf P s').
    { intros A CA b' idOf P Hne. now apply (filed_other b' b m idOf P s). }
    destruct W. split; (apply F; [intros E; apply Hb; rewrite <- E; simpl; tauto|assumption]).
Qed.

Lemma reachable_wf (s0 s : S) : (forall b, bucket b s0 = ∅) -> rtc rstep s0 s -> wellformed s.
Proof.
  intros E R. assert (W : wellformed s0).
  { split; intros k v; unfold docs; rewrite E, omap_empty, lookup_empty; done. }
  clear E. induction R as [s|s s1 s2 R1 R2 IH]; [done|]. apply IH. now apply (rstep_wf s).
Qed.

(** C19: the type invariant of the stores: starting from empty stores, after
    any sequence of saves, deletions, protections and grants, successful or
    failed, every stored target, storage, schedule, backup, user, retention
    policy and notification rule is valid and filed under its own
    identifier. *)
Theorem stores_wellformed (s0 s : S) :
  (forall b, bucket b s0 = ∅) -> rtc rstep s0 s -> wellformed s.
Proof. apply reachable_wf. Qed.

(** ** Listings are complete *)

Lemma require_ok ok msg : require ok msg = Ok tt -> ok = true.
Proof. unfold require. now destruct ok. Qed.

Lemma require_then ok msg (k : unit -> outcome unit) :
  obind (require ok msg) k = Ok tt -> ok = true /\ k tt = Ok tt.
Proof. intros E. apply obind_ok in E as ([] & E1 & E2). now apply require_ok in E1. Qed.

(** A valid identifier comes after the key a scan starts at. *)
Lemma requiredID_listed what id : requiredID what id = Ok tt -> String.ltb id firstKey = false.
Proof.
  unfold requiredID. intros E. apply require_then in E as [_ E]. unfold validateResourceID in E.
  apply require_then in E as [Hne E]. apply require_then in E as [Heq E]. apply require_then in E as [_ E].
  apply require_ok in E. apply String.eqb_eq in Heq. rewrite Heq in *. destruct id as [|c r]; [done|].
  simpl in E. apply andb_true_iff in E as [E _]. clear -E. destruct c as [[] [] [] [] [] [] [] []]; try done.
Qed.

Lemma list_complete {A} `{CodecLaws A} b (idOf : A -> string) (P : A -> Prop) (s : S) l :
  filed b idOf P s -> (forall v, P v -> String.ltb (idOf v) firstKey = false) ->
  listJSON b unmarshal s = Ok l ->
  (forall v, In v l <-> docs A b s !! idOf v = Some v) /\ NoDup (map idOf l).
Proof.
  intros F Hp L. split.
  - intros v. rewrite (in_listJSON _ _ _ v L). split.
    + intros (k & Hk & _). now destruct (F _ _ Hk) as [-> _].
    + intros Hv. exists (idOf v). split; [done|]. apply Hp. now apply (F _ _ Hv).
  - apply listJSON_docs in L. change (NoDup (idOf <$> l)). rewrite L. rewrite <- list_fmap_compose.
    rewrite (list_fmap_ext _ fst).
    { apply NoDup_fst_map_to_list. }
    intros i [k v] Hi. apply list_elem_of_lookup_2, elem_of_map_to_list, map_lookup_filter_Some in Hi as [Hi _].
    simpl. now apply (F _ _ Hi).
Qed.

Lemma sorted_list_complete {A} `{CodecLaws A} (less : A -> A -> bool) b (idOf : A -> string) (P : A -> Prop) (s : S) l :
  filed b idOf P s -> (forall v, P v -> String.ltb (idOf v) firstKey = false) ->
  (vs <~ listJSON b unmarshal s ;; Ok (sort_by less vs)) = Ok l ->
  (forall v, In v l <-> docs A b s !! idOf v = Some v) /\ NoDup (map idOf l).
Proof.
  intros F Hp E. apply obind_ok in E as (vs & E & Es). injection Es as <-.
  destruct (list_complete _ _ _ _ _ F Hp E) as [I1 I2]. split.
  - intros v. rewrite <- I1. split; apply sort_by_in.
  - change (NoDup (idOf <$> sort_by less vs)). now rewrite (sort_by_perm less vs).
Qed.

(** Listings are exact: in every state the stores can reach, the list of
    backups, users, schedules or retention policies holds every stored record
    and no other, each once, although a scan starts at the key 0x01. *)
Theorem stores_list_exact (s0 s : S) :
  (forall b, bucket b s0 = ∅) -> rtc rstep s0 s ->
  (forall l, BackupStoreList s = Ok l ->
     (forall b, In b l <-> docs Backup backupsBucket s !! bk_ID b = Some b) /\ NoDup (map bk_ID l)) /\
  (forall l, UserList s = Ok l ->
     (forall u, In u l <-> docs User usersBucket s !! us_ID u = Some u) /\ NoDup (map us_ID l)) /\
  (forall l, ScheduleList s = Ok l ->
     (forall c, In c l <-> docs Schedule schedulesBucket s !! sc_ID c = Some c) /\ NoDup (map sc_ID l)) /\
  (forall l, PolicyList s = Ok l ->
     (forall p, In p l <-> docs StoredPolicy policiesBucket s !! sp_ID p = Some p) /\ NoDup (map sp_ID l)).
Proof.
  intros E R. destruct (reachable_wf _ _ E R) as [_ _ W3 W4 W5 W6 _].
  split_and!; intros l.
  - apply (sorted_list_complete backupNewer _ _ _ _ _ W4). intros b V.
    unfold validateBackup in V. apply obind_ok in V as ([] & V & _). now apply requiredID_listed in V.
  - apply (sorted_list_complete _ _ _ _ _ _ W5). intros u V.
    unfold validateUser in V. apply obind_ok in V as ([] & V & _). now apply requiredID_listed in V.
  - apply (sorted_list_complete _ _ _ _ _ _ W3). intros c V.
    unfold validateSchedule in V. apply obind_ok in V as ([] & V & _). now apply requiredID_listed in V.
  - apply (sorted_list_complete _ _ _ _ _ _ W6). intros p V.
    unfold validateRetentionPolicy in V. apply obind_ok in V as ([] & V & _). now apply requiredID_listed in V.
Qed.
End Wellformed.

(** ** Credentials neither protected nor redacted *)

Definition unrecognisedCredentials : list string :=
  ["accessKey"; "accountKey"; "account_key"; "privateKey"; "sas"].

(** Some credential options of a storage are accepted but recognised by
    neither mechanism: the Azure account key, the SAS token under its short
    name, and the access and private keys in camel case are written to the
    state database in the clear and returned unredacted. *)
Theorem credentials_in_clear ci nonces marshal mapToEncrypted k v :
  In k unrecognisedCredentials -> scalar v = true ->
  validateOptions "storage" {[k := v]} storageOptionKeys = Ok tt /\
  protectOptions ci nonces marshal mapToEncrypted true {[k := v]} = Ok {[k := v]} /\
  redactOptions {[k := v]} = {[k := v]}.
Proof.
  intros Hk Hv.
  assert (K : oneOf storageOptionKeys k = true /\ sensitiveOptionKey k = false /\ isSecretOptionKey k = false).
  { simpl in Hk. repeat (destruct Hk as [<-|Hk]; [vm_compute; auto|]). done. }
  destruct K as (K1 & K2 & K3).
  unfold validateOptions, validateOptionValues, protectOptions, eachOption, redactOptions.
  rewrite map_to_list_singleton. cbn [forallb fst snd options_loop]. rewrite K1, Hv. simpl.
  unfold protectOption. rewrite K2. simpl. rewrite insert_empty. split_and!; [done..|].
  apply map_eq. intros i. rewrite map_lookup_imap.
  destruct (decide (i = k)) as [->|]; [rewrite !lookup_singleton_eq; simpl; now rewrite K3|].
  now rewrite !lookup_singleton_ne by congruence.
Qed.

Lemma credentials_in_clear_witness :
  let opts := {["account_key"%string := OString "c2VjcmV0"]} in
  validateOptions "storage" opts storageOptionKeys = Ok tt /\
  protectOptions toyCipher (fun _ => Ok [Byte.x01]) (fun _ => Some [Byte.x02]) (fun _ => None) true opts = Ok opts /\
  redactOptions opts = opts.
Proof.
  apply (credentials_in_clear toyCipher (fun _ => Ok [Byte.x01]) (fun _ => Some [Byte.x02]) (fun _ => None)
           "account_key" (OString "c2VjcmV0")); [simpl; auto|reflexivity].
Defined.

(** ** A concrete store *)

Definition demoBackup : Backup :=
  mkBackup "b1" "t1" "s1" "j1" "full" "" "manifests/b1.manifest" 1 2 10 1 false.

#[local] Instance demoTargets : Codec Target := noCodec.
#[local] Instance demoStorages : Codec Storage := noCodec.
#[local] Instance demoSchedules : Codec Schedule := noCodec.
#[local] Instance demoBackups : Codec Backup := listCodec [demoBackup].
#[local] Instance demoUsers : Codec User := noCodec.
#[local] Instance demoPolicies : Codec StoredPolicy := noCodec.

Definition hiddenRule : NotificationRule :=
  mkNotificationRule (String "000" "r1") "ops" [NotificationJobFailed] "http://h/" "" 1 true 1 1.

#[local] Instance NotificationRule_eq : EqDecision NotificationRule.
Proof. solve_decision. Defined.
#[local] Instance demoRules : Codec NotificationRule := listCodec [hiddenRule].

Definition demoParse (s : string) : option URL := Some (mkURL "http" "h" "/").

Definition demoStored : gmap string (gmap string bytes) := (BackupSave demoBackup ∅).2.

Lemma demo_reached :
  rtc (rstep demoParse (fun _ => None) (fun o => Ok o)) (∅ : gmap string (gmap string bytes)) demoStored.
Proof. apply rtc_once. apply rs_backup. Qed.

Lemma stores_wellformed_witness : wellformed demoParse (fun _ => None) (fun o => Ok o) demoStored.
Proof.
  apply (stores_wellformed (H0 := memKVLaws) (H2 := noCodec_laws) (H4 := noCodec_laws) (H6 := noCodec_laws)
           (H8 := listCodec_laws [demoBackup]) (H10 := noCodec_laws) (H12 := noCodec_laws) (H14 := listCodec_laws [hiddenRule])
           demoParse (fun _ => None) (fun o => Ok o) ∅ demoStored).
  - intros b. reflexivity.
  - exact demo_reached.
Defined.

Lemma stores_list_exact_witness :
  (forall l, BackupStoreList demoStored = Ok l ->
     (forall b, In b l <-> docs Backup backupsBucket demoStored !! bk_ID b = Some b) /\ NoDup (map bk_ID l)) /\
  BackupStoreList demoStored = Ok [demoBackup].
Proof.
  split; [|reflexivity].
  apply (stores_list_exact (H0 := memKVLaws) (H2 := noCodec_laws) (H4 := noCodec_laws) (H6 := noCodec_laws)
           (H8 := listCodec_laws [demoBackup]) (H10 := noCodec_laws) (H12 := noCodec_laws) (H14 := listCodec_laws [hiddenRule])
           demoParse (fun _ => None) (fun o => Ok o) ∅ demoStored).
  - intros b. reflexivity.
  - exact demo_reached.
Defined.

(** A notification rule whose identifier starts with a NUL byte passes the
    validation, is stored and found, but no listing shows it, and so no event
    reaches it. *)
Lemma rule_hidden_from_list :
  exists s', RuleSave demoParse hiddenRule (∅ : gmap string (gmap string bytes)) = (Ok tt, s') /\
    RuleGet (nr_ID hiddenRule) s' = Ok (Some hiddenRule) /\ RuleList s' = Ok [].
Proof. eexists. split; [reflexivity|]. split; vm_compute; reflexivity. Qed.
