(* ===== verification/Auth.v ===== *)
(** * Authorisation of requests

    Models the authorisation of src/cmd/kronos/server.go: bearer tokens,
    requireScope, the handlers of tokens, users and of the bootstrap, and the
    rate limiter of authentication attempts. The bodies of requests are given
    decoded, [None] standing for a body that does not decode; the audit log
    is a parameter of which only its effect on the stores matters.

    The theorems show that without the insecure mode a request is granted a
    scope only to an issued, live token whose owner's current role covers the
    scope, that no token allows more than the role of its owner, that the
    bootstrap works once, and how many attempts the limiter lets through. *)

From Stdlib Require Import Ascii String.
From S2P Require Import Prelude ChunkHash Core Calendar GoStrings GoText Documents Tokens SecretOptions Resources.
Local Open Scope Z_scope.

Record httpRequest := mkRequest
  { rq_Authorization : string; rq_Actor : string; rq_AgentID : string; rq_BootstrapToken : string }.

(** What a handler answers; [Aborted] is a panic, which the HTTP server
    recovers by closing the connection. *)
Inductive reply (A : Type) : Type :=
| Reply (a : A)
| HTTPError (status : Z) (msg : string)
| Aborted.
Arguments Reply {A} a.
Arguments HTTPError {A} status msg.
Arguments Aborted {A}.

Definition handler (S A : Type) : Type := S -> reply A * S.

Definition notFound (e : string) : bool := HasSuffix e ": not found".

(** Runs [m]; [fail] answers its error. *)
Definition attempt {S A B} (m : M S A) (fail : string -> reply B) (k : A -> handler S B) : handler S B :=
  fun s => match m s with
           | (Ok a, s') => k a s'
           | (Err e, s') => (fail e, s')
           | (_, s') => (Aborted, s')
           end.

Definition readOnly {S A} (f : S -> outcome A) : M S A := fun s => (f s, s).

Definition answer {S A} (a : A) : handler S A := fun s => (Reply a, s).

(** ** Tokens in requests *)

Fixpoint token_scopes_loop (scopes : list string) (required : string) : bool :=
  match scopes with
  | [] => false
  | scope :: rest =>
      let scope := TrimSpace scope in
      if String.eqb scope "" then token_scopes_loop rest required
      else if String.eqb scope "*" || String.eqb scope "admin:*" || String.eqb scope required then true
      else if HasSuffix scope ":*" && HasPrefix required (TrimSuffix scope "*") then true
      else token_scopes_loop rest required
  end.

Definition tokenAllowsScope (token : Token) (required : string) : bool :=
  if String.eqb required "" then true else token_scopes_loop (tk_Scopes token) required.

Definition bearerToken (r : httpRequest) : option string :=
  let header := TrimSpace (rq_Authorization r) in
  if String.eqb header "" then None
  else
    let '(scheme, value, ok) := Cut " " header in
    if negb ok || negb (EqualFold scheme "Bearer") || String.eqb (TrimSpace value) "" then None
    else Some (TrimSpace value).

Definition roleScopes (role : string) : list string :=
  if String.eqb role RoleAdmin then ["admin:*"]%string
  else if String.eqb role RoleOperator then operatorScopes
  else if String.eqb role RoleViewer then viewerScopes
  else [].

(** The outcome of requireScope: an answer, or the actor of the request. *)
Inductive authResult := Denied (status : Z) (msg : string) | Granted (actor : string) | AuthAborted.

Record createTokenRequest := mkCreateToken
  { cr_Name : string; cr_UserID : string; cr_Scopes : list string; cr_ExpiresAt : Time }.

Record bootstrapAdminRequest := mkBootstrap
  { ba_ID : string; ba_Email : string; ba_DisplayName : string; ba_TokenName : string }.

Section Auth.
  Context {S : Type} `{KV S} `{Codec apiTokenRecord} `{Codec User} (sha256 : string -> bytes).
  (** The audit log: action, kind of resource and identifier. *)
  Context (audit : string -> string -> string -> M S unit).

Definition requireScope (insecureNoAuth : bool) (clock : Time) (r : httpRequest) (scope : string) (s : S) : authResult :=
  if String.eqb (TrimSpace (rq_Authorization r)) "" then
    if insecureNoAuth then Granted (rq_Actor r) else Denied 401 "authorization required"
  else match bearerToken r with
  | None => Denied 401 "invalid bearer token"
  | Some secret =>
      match VerifyToken sha256 clock secret s with
      | Err _ => Denied 500 "verify token"
      | Ok None => Denied 401 "invalid bearer token"
      | Ok (Some token) =>
          if negb (tokenAllowsScope token scope) then Denied 403 "insufficient scope"
          else match UserAllowsScope (tk_UserID token) scope s with
               | Err _ => Denied 500 "verify token user"
               | Ok (userExists, roleAllowed) =>
                   if negb userExists then Denied 401 "invalid bearer token"
                   else if negb roleAllowed then Denied 403 "insufficient role"
                   else Granted (if String.eqb (rq_Actor r) "" && negb (IDIsZero (tk_UserID token))
                                 then tk_UserID token else rq_Actor r)
               | _ => AuthAborted
               end
      | _ => AuthAborted
      end
  end.

(** appendAuditEvent and handleAuditAppendError. *)
Definition audited {A} (action kind id : string) (a : A) : handler S A :=
  attempt (audit action kind id) (fun _ => HTTPError 500 "write audit event") (fun _ => answer a).

Fixpoint scopes_within (role : string) (scopes : list string) : outcome unit :=
  match scopes with
  | [] => Ok tt
  | scope :: rest => if negb (RoleAllowsScope role scope) then Err "scope exceeds user role" else scopes_within role rest
  end.

Definition validateTokenUserScopes (userID : string) (scopes : list string) (s : S) : outcome unit :=
  found <~ UserGet userID s ;;
  match found with
  | None => Err "create token: not found"
  | Some user => scopes_within (us_Role user) scopes
  end.

Definition handleCreateToken (clock : Time) (id : outcome string) (entropy : outcome bytes)
  (body : option createTokenRequest) : handler S CreatedToken :=
  match body with
  | None => fun s => (HTTPError 400 "invalid token request", s)
  | Some req =>
      attempt (readOnly (validateTokenUserScopes (cr_UserID req) (cr_Scopes req)))
        (fun e => if notFound e then HTTPError 404 e else HTTPError 403 e)
        (fun _ => attempt (Create sha256 clock id entropy (cr_Name req) (cr_UserID req) (cr_Scopes req) (cr_ExpiresAt req))
           (HTTPError 400)
           (fun created => audited "token.created" "token" (tk_ID (ct_Token created)) created))
  end.

Definition handleVerifyBearerToken (clock : Time) (r : httpRequest) : handler S Token :=
  match bearerToken r with
  | None => fun s => (HTTPError 401 "bearer token is required", s)
  | Some secret =>
      attempt (readOnly (VerifyToken sha256 clock secret)) (fun _ => HTTPError 500 "verify token")
        (fun found => match found with
                      | None => fun s => (HTTPError 401 "invalid bearer token", s)
                      | Some token => answer token
                      end)
  end.

Definition handleRevokeToken (clock : Time) (id : string) : handler S Token :=
  attempt (Revoke clock id) (fun e => if notFound e then HTTPError 404 "not found" else HTTPError 500 "revoke token")
    (fun token => audited "token.revoked" "token" (tk_ID token) token).

Definition handlePruneTokens (clock : Time) (dryRun : option bool) : handler S (list Token * bool) :=
  match dryRun with
  | None => fun s => (HTTPError 400 "invalid token prune request", s)
  | Some true =>
      attempt (readOnly (Inactive clock)) (fun _ => HTTPError 500 "list inactive tokens") (fun l => answer (l, true))
  | Some false =>
      attempt (PruneInactive clock) (fun _ => HTTPError 500 "prune tokens")
        (fun l => audited "token.pruned" "token" "" (l, false))
  end.

(** *** Bootstrap *)

(** [expected] is the configured bootstrap token, [""] when there is none. *)
Definition requireBootstrapToken (r : httpRequest) (expected : string) : outcome unit :=
  let expected := TrimSpace expected in
  if String.eqb expected "" then Ok tt
  else
    let got := TrimSpace (rq_BootstrapToken r) in
    if String.eqb got "" then Err "bootstrap token is required"
    else if negb (String.eqb got expected) then Err "invalid bootstrap token"
    else Ok tt.

Definition stampTimes (createdAt now : Time) : Time * Time :=
  (if TimeIsZero createdAt then now else createdAt, now).

Definition handleBootstrapAdmin (clock : Time) (newUserID newTokenID : outcome string) (entropy : outcome bytes)
  (body : option bootstrapAdminRequest) : handler S (User * CreatedToken) :=
  attempt (readOnly UserList) (fun _ => HTTPError 500 "list users") (fun existingUsers =>
  attempt (readOnly ListTokens) (fun _ => HTTPError 500 "list tokens") (fun existingTokens =>
  if (0 <? length existingUsers)%nat || (0 <? length existingTokens)%nat
  then fun s => (HTTPError 409 "bootstrap is already complete", s)
  else match body with
  | None => fun s => (HTTPError 400 "invalid bootstrap request", s)
  | Some req =>
      let tokenName := if String.eqb (TrimSpace (ba_TokenName req)) "" then "initial-admin"%string else ba_TokenName req in
      attempt (mlift (if IDIsZero (ba_ID req) then newUserID else Ok (ba_ID req)))
        (fun _ => HTTPError 500 "create admin user id") (fun id =>
      let '(created, updated) := stampTimes 0 clock in
      let user := mkUser id (ba_Email req) (ba_DisplayName req) RoleAdmin false created updated in
      attempt (UserSave user) (HTTPError 400) (fun _ => fun s =>
      match Create sha256 clock newTokenID entropy tokenName id (roleScopes RoleAdmin) 0 s with
      | (Ok created, s1) => audited "bootstrap.admin_created" "user" id (user, created) s1
      | (Err e, s1) => (HTTPError 400 e, (UserDelete id s1).2)
      | (_, s1) => (Aborted, s1)
      end))
  end)).

(** *** Users *)

Definition handleCreateUser (clock : Time) (newUserID : outcome string) (body : option User) : handler S User :=
  match body with
  | None => fun s => (HTTPError 400 "invalid user", s)
  | Some u =>
      attempt (mlift (if IDIsZero (us_ID u) then newUserID else Ok (us_ID u)))
        (fun _ => HTTPError 500 "create user id") (fun id =>
      let '(created, updated) := stampTimes (us_CreatedAt u) clock in
      let user := mkUser id (us_Email u) (us_DisplayName u) (us_Role u) (us_TOTPEnforced u) created updated in
      attempt (UserSave user) (HTTPError 400) (fun _ => audited "user.created" "user" id user))
  end.

Definition handleGrantUser (clock : Time) (id : string) (role : option string) : handler S User :=
  match role with
  | None => fun s => (HTTPError 400 "invalid grant request", s)
  | Some role =>
      attempt (UserGrant clock id role clock)
        (fun e => if notFound e then HTTPError 404 "not found" else HTTPError 400 e)
        (fun user => audited "user.role_granted" "user" (us_ID user) user)
  end.

Definition handleDeleteUser (id : string) : handler S unit :=
  attempt (readOnly (UserGet id)) (fun _ => HTTPError 500 "get user") (fun found =>
  match found with
  | None => fun s => (HTTPError 404 "not found", s)
  | Some _ =>
      attempt (UserDelete id) (fun _ => HTTPError 500 "delete user") (fun _ => audited "user.deleted" "user" id tt)
  end).
End Auth.

(** A request that is refused changes nothing and gets no answer. *)
Definition refuses {S A} (op : handler S A) (s : S) : Prop := (op s).2 = s /\ forall a, (op s).1 <> Reply a.

Lemma attempt_refuses {S A B} (m : M S A) (fail : string -> reply B) k (s : S) :
  (forall e a, fail e <> Reply a) -> (m s).2 = s -> is_ok (m s).1 = false -> refuses (attempt m fail k) s.
Proof.
  intros Hf Hs Hr. unfold refuses, attempt. destruct (m s) as [[a|e|e|] s1]; simpl in *; try done.
Qed.

(** ** Replies *)

Section Replies.
  Context {S : Type} `{KV S} (audit : string -> string -> string -> M S unit).

(** A handler that answers has run its step and its continuation. *)
Lemma attempt_reply {A B} (m : M S A) fail (k : A -> handler S B) (s : S) b s' :
  attempt m fail k s = (Reply b, s') -> (forall e, fail e <> Reply b) ->
  exists a s1, m s = (Ok a, s1) /\ k a s1 = (Reply b, s').
Proof.
  unfold attempt. destruct (m s) as [[a|e|e|] s1]; try done; intros E F; [eauto|].
  injection E as E _. now apply F in E.
Qed.

Lemma audited_reply (audit_frame : forall a k i s, unchanged s (audit a k i s).2) {A} action kind id (a b : A) (s s' : S) :
  audited audit action kind id a s = (Reply b, s') -> b = a /\ unchanged s s'.
Proof.
  intros E. unfold audited in E. apply attempt_reply in E as (u & s1 & E1 & E); [|done].
  injection E as <- <-. split; [done|]. pose proof (audit_frame action kind id s) as F. now rewrite E1 in F.
Qed.

End Replies.

(** ** Granted requests *)

Section Granted.
  Context {S : Type} `{KVLaws S} `{CodecLaws apiTokenRecord} `{CodecLaws User} (sha256 : string -> bytes).
  Context (audit : string -> string -> string -> M S unit)
          (audit_frame : forall a k i s, unchanged s (audit a k i s).2).

(** C11: authorisation is sound: unless the insecure mode is on, a request is
    granted a scope only when it carries a secret that the history of the
    token store has issued, that is neither revoked nor expired, whose scopes
    allow the scope, and whose owner exists and has a role that allows it
    now. *)
Theorem granted_only_to_live_token tr (s : S) now r scope actor :
  truns sha256 tr s ->
  (forall secret, bearerToken r = Some secret -> no_collision sha256 tr secret) ->
  requireScope sha256 false now r scope s = Granted actor ->
  exists secret t u, bearerToken r = Some secret /\ accepts tr now secret t /\
    tokenAllowsScope t scope = true /\
    docs User usersBucket s !! tk_UserID t = Some u /\ RoleAllowsScope (us_Role u) scope = true.
Proof.
  intros T Hc. unfold requireScope. destruct (String.eqb _ ""); [done|].
  destruct (bearerToken r) as [secret|] eqn:B; [|done]. specialize (Hc secret eq_refl).
  destruct (VerifyToken sha256 now secret s) as [[t|]|e|e|] eqn:V; try done.
  destruct (tokenAllowsScope t scope) eqn:Ht; [|done]. simpl. unfold UserAllowsScope.
  destruct (IDIsZero (tk_UserID t)); [done|].
  destruct (getJSON usersBucket (tk_UserID t) s) as [[u|]|e|e|] eqn:G; simpl; try done.
  apply getJSON_docs in G. destruct (RoleAllowsScope (us_Role u) scope) eqn:R; [|done]. intros _.
  exists secret, t, u. split_and!; auto. now apply (verify_sound sha256 tr s).
Qed.

Lemma token_scopes_loop_eq scopes req : token_scopes_loop scopes req = scopes_loop scopes req.
Proof. induction scopes as [|s scopes IH]; simpl; [done|]. now rewrite IH. Qed.

Lemma RoleAllowsScope_spec role req :
  RoleAllowsScope role req = true <->
  (oneOf [RoleAdmin; RoleOperator; RoleViewer] role = true /\ req = "") \/
  exists p, In p (roleScopes role) /\ grants p req.
Proof.
  assert (L : forall ps, Forall (fun p => TrimSpace p = p) ps ->
    scopeSetAllows ps req = true <-> req = "" \/ exists p, In p ps /\ grants p req).
  { intros ps Hps. unfold scopeSetAllows. destruct (String.eqb_spec req ""); [tauto|].
    rewrite scopes_loop_spec. rewrite Forall_forall in Hps. split.
    - intros (p & Hin & G). right. exists p. split; [done|].
      now rewrite (Hps p) in G by now apply list_elem_of_In.
    - intros [?|(p & Hin & G)]; [done|]. exists p. split; [done|].
      now rewrite (Hps p) by now apply list_elem_of_In. }
  unfold RoleAllowsScope, roleScopes, oneOf. cbn [existsb].
  destruct (String.eqb_spec role RoleAdmin) as [->|N1];
    [rewrite L by (repeat constructor); simpl; tauto|].
  destruct (String.eqb_spec role RoleOperator) as [->|N2];
    [rewrite L by (repeat constructor); simpl orb; tauto|].
  destruct (String.eqb_spec role RoleViewer) as [->|N3];
    [rewrite L by (repeat constructor); simpl orb; tauto|].
  simpl. split; [done|]. intros [[? _]|(p & [] & _)]. done.
Qed.

Lemma roleScopes_wf role p : In p (roleScopes role) -> roleScope p.
Proof.
  unfold roleScopes. destruct (String.eqb role RoleAdmin); [|destruct (String.eqb role RoleOperator);
    [|destruct (String.eqb role RoleViewer)]]; simpl;
    repeat (intros [<-|Hp]; [split; reflexivity|revert Hp]); done.
Qed.

Lemma scopes_within_spec role scopes :
  scopes_within role scopes = Ok tt -> Forall (fun s => RoleAllowsScope role s = true) scopes.
Proof.
  induction scopes as [|s scopes IH]; simpl; [constructor|].
  destruct (RoleAllowsScope role s) eqn:E; [|done]. intros W. constructor; auto.
Qed.

(** No token allows more than its owner's role: whatever scopes a request
    asks for, however they are spelled, every scope the created token allows
    is one the role of its owner allows. *)
Theorem token_within_role clock id entropy req (s s' : S) created :
  handleCreateToken sha256 audit clock id entropy (Some req) s = (Reply created, s') ->
  exists u, docs User usersBucket s !! cr_UserID req = Some u /\
    forall required, tokenAllowsScope (ct_Token created) required = true ->
      RoleAllowsScope (us_Role u) required = true.
Proof.
  unfold handleCreateToken. intros E.
  apply attempt_reply in E as ([] & s1 & V & E); [|intros e; now destruct (notFound e)].
  injection V as V <-. apply attempt_reply in E as (c & s2 & Cr & E); [|done].
  apply (audited_reply audit audit_frame) in E as [-> _]. unfold validateTokenUserScopes in V.
  apply obind_ok in V as (found & G & V). unfold UserGet in G. apply getJSON_docs in G. subst found.
  destruct (docs User usersBucket s !! cr_UserID req) as [u|]; [|done]. exists u. split; [done|].
  apply scopes_within_spec in V. rewrite Forall_forall in V.
  pose proof (Create_scopes _ _ _ _ _ _ _ _ _ _ _ Cr) as Hne.
  apply Create_ok in Cr as (i & _ & _ & _ & _ & Et & _). rewrite Et in *. intros required Ht.
  unfold tokenAllowsScope in Ht. simpl tk_Scopes in *. destruct (String.eqb_spec required "") as [E0|E0].
  - rewrite E0. destruct (normalizeScopes (cr_Scopes req)) as [|t l] eqn:N; [done|].
    destruct (normalizeScopes_in (cr_Scopes req) t) as (sc & Hin & _); [rewrite N; now left|].
    apply list_elem_of_In, V in Hin. clear -Hin. unfold RoleAllowsScope in *.
    destruct (String.eqb _ _); [done|]. destruct (String.eqb _ _); [done|]. now destruct (String.eqb _ _).
  - rewrite token_scopes_loop_eq in Ht. apply scopes_loop_spec in Ht as (t & Hin & G).
    apply normalizeScopes_in in Hin as (sc & Hin & ->). rewrite TrimSpace_idem in G.
    apply list_elem_of_In, V, RoleAllowsScope_spec in Hin. apply RoleAllowsScope_spec.
    destruct Hin as [[_ ->]|(p & Hp & Gp)]; [now destruct G|]. right. exists p. split; [done|].
    now apply (grants_trans p sc required (roleScopes_wf _ _ Hp) Gp).
Qed.

(** *** The bootstrap works once *)

Lemma bootstrap_saved clock nu nt entropy body (s s1 : S) u c :
  handleBootstrapAdmin sha256 audit clock nu nt entropy body s = (Reply (u, c), s1) ->
  validateUser u = Ok tt /\ us_Role u = RoleAdmin.
Proof.
  unfold handleBootstrapAdmin. intros E. apply attempt_reply in E as (us & x & _ & E); [|done].
  apply attempt_reply in E as (ts & y & _ & E); [|done]. destruct (_ || _); [done|].
  destruct body as [req|]; [|done]. apply attempt_reply in E as (id & z & _ & E); [|done].
  cbn [stampTimes TimeIsZero Z.eqb] in E. apply attempt_reply in E as ([] & s2 & Sv & E); [|done].
  destruct (Create _ _ _ _ _ _ _ _ s2) as [[cr|e|e|] s3]; try done.
  apply (audited_reply audit audit_frame) in E as [[= -> ->] _]. split; [|done].
  unfold UserSave in Sv. apply mbind_ok in Sv as ([] & s4 & V & _). now injection V.
Qed.

(** The bootstrap works once: as long as the administrator it created is
    stored, every later bootstrap request, whatever it carries, is refused
    and changes nothing. *)
Theorem bootstrap_once clock nu nt entropy body (s s1 : S) u c :
  handleBootstrapAdmin sha256 audit clock nu nt entropy body s = (Reply (u, c), s1) ->
  forall s2 v, docs User usersBucket s2 !! us_ID u = Some v ->
  forall clock' nu' nt' entropy' body' r s3,
    handleBootstrapAdmin sha256 audit clock' nu' nt' entropy' body' s2 = (r, s3) ->
    s3 = s2 /\ forall x, r <> Reply x.
Proof.
  intros E s2 v Hv clock' nu' nt' entropy' body' r s3. apply bootstrap_saved in E as [V _].
  unfold validateUser in V. apply obind_ok in V as ([] & V & _). apply requiredID_listed in V.
  unfold handleBootstrapAdmin, attempt at 1, readOnly at 1.
  destruct (UserList s2) as [us|e|e|] eqn:L; [|intros [= <- <-]; done..].
  unfold attempt at 1, readOnly at 1. destruct (ListTokens s2) as [ts|e|e|]; [|intros [= <- <-]; done..].
  assert (Hlen : (0 < length us)%nat).
  { unfold UserList in L. apply obind_ok in L as (l & L & Es). injection Es as <-. rewrite sort_by_length.
    assert (Hin : In v l) by (apply (in_listJSON _ _ _ v L); eauto). destruct l; [done|simpl; lia]. }
  apply Nat.ltb_lt in Hlen. rewrite Hlen. simpl. intros [= <- <-]. done.
Qed.
End Granted.

(** ** A concrete server *)

#[local] Existing Instance demoTokenCodec.
#[local] Existing Instance demoTokenCodecLaws.
#[local] Existing Instance demoUserCodec.

Definition noAudit (action kind id : string) : M demoDB unit := mret tt.
Definition withUser : demoDB := (UserSave demoUser ∅).2.
Definition demoServer : demoDB := (demoCreate withUser).2.
Definition demoRequest : httpRequest := mkRequest " bearer  kro_t1_AQI" "" "" "".

Lemma demo_server_history : truns toySHA [Issued (mkCreatedToken demoToken demoSecret)] demoServer.
Proof.
  apply (tr_create toySHA [] withUser 5 (Ok "t1"%string) (Ok [Byte.x01; Byte.x02]) "ci" "u1" [" backup:read"%string] 0
           (Ok (mkCreatedToken demoToken demoSecret)) demoServer).
  - apply tr_start. reflexivity.
  - intros i [= <-]. done.
  - reflexivity.
Qed.

Lemma granted_only_to_live_token_witness :
  exists secret t u, bearerToken demoRequest = Some secret /\
    accepts [Issued (mkCreatedToken demoToken demoSecret)] 9 secret t /\
    tokenAllowsScope t "backup:read" = true /\
    docs User usersBucket demoServer !! tk_UserID t = Some u /\ RoleAllowsScope (us_Role u) "backup:read" = true.
Proof.
  apply (granted_only_to_live_token toySHA _ demoServer 9 demoRequest "backup:read" "u1").
  - exact demo_server_history.
  - intros secret _. apply demo_no_collision.
  - vm_compute. reflexivity.
Defined.

Definition demoTokenRequest : createTokenRequest := mkCreateToken "ci" "u1" ["backup:read"%string] 0.

Lemma token_within_role_witness :
  exists u, docs User usersBucket withUser !! cr_UserID demoTokenRequest = Some u /\
    forall required, tokenAllowsScope (ct_Token (mkCreatedToken demoToken demoSecret)) required = true ->
      RoleAllowsScope (us_Role u) required = true.
Proof.
  apply (token_within_role toySHA noAudit (fun _ _ _ _ _ => eq_refl) 5
           (Ok "t1"%string) (Ok [Byte.x01; Byte.x02]) demoTokenRequest withUser demoServer
           (mkCreatedToken demoToken demoSecret)).
  reflexivity.
Defined.

Definition adminUser : User := mkUser "root" "r@x" "Root" "admin" false 7 7.
Definition adminToken : Token := mkToken "t2" "root" "initial-admin" ["admin:*"%string] 0 7 0.
Definition adminCreated : CreatedToken := mkCreatedToken adminToken "kro_t2_AQI".
Definition adminRecord : apiTokenRecord := mkTokenRecord adminToken (hashTokenSecret toySHA "kro_t2_AQI").

Section Bootstrap.
#[local] Instance adminUsers : Codec User := listCodec [adminUser].
#[local] Instance adminTokens : Codec apiTokenRecord := listCodec [adminRecord].

Abbreviation demoBootstrap :=
  (handleBootstrapAdmin toySHA noAudit 7 (Ok "root"%string) (Ok "t2"%string) (Ok [Byte.x01; Byte.x02])
     (Some (mkBootstrap "" "r@x" "Root" " "))).

Lemma bootstrap_once_witness :
  let s1 := (demoBootstrap (∅ : demoDB)).2 in
  (demoBootstrap s1).2 = s1 /\ forall x, (demoBootstrap s1).1 <> Reply x.
Proof.
  apply (bootstrap_once toySHA noAudit (fun _ _ _ _ _ => eq_refl) 7 (Ok "root"%string) (Ok "t2"%string)
           (Ok [Byte.x01; Byte.x02]) (Some (mkBootstrap "" "r@x" "Root" " ")) ∅ (demoBootstrap (∅ : demoDB)).2
           adminUser adminCreated) with (v := adminUser) (clock' := 7) (nu' := Ok "root"%string)
           (nt' := Ok "t2"%string) (entropy' := Ok [Byte.x01; Byte.x02])
           (body' := Some (mkBootstrap "" "r@x" "Root" " ")).
  - reflexivity.
  - reflexivity.
  - apply surjective_pairing.
Defined.
End Bootstrap.
