(* ===== verification/RateLimit.v ===== *)
(** * The rate limiter of authentication attempts

    Models authRateLimiter of src/cmd/kronos/server.go: a fixed window per
    client, started by the first attempt after the previous one has run out,
    with stale windows pruned now and then. Clock readings are arguments; the
    key is the client's address.

    The theorem bounds what a client gets through in any period as long as
    the window, wherever that period starts. *)

From Stdlib Require Import String.
From S2P Require Import Prelude ChunkHash Core GoStrings.
Local Open Scope Z_scope.

Definition authVerifyRateLimit : Z := 10.
Definition authVerifyRateWindow : Z := Minute.

Record authRateWindow := mkWindow { rw_start : Time; rw_count : Z }.

Record authRateLimiter := mkLimiter
  { rl_limit : Z; rl_window : Z; rl_clients : gmap string authRateWindow; rl_ticks : Z; rl_limited : Z }.

Definition newAuthRateLimiter (limit window : Z) : authRateLimiter :=
  mkLimiter (if limit <=? 0 then authVerifyRateLimit else limit)
    (if window <=? 0 then authVerifyRateWindow else window) ∅ 0 0.

(** A window that is empty or has run out. *)
Definition windowOver (l : authRateLimiter) (now : Time) (w : authRateWindow) : bool :=
  TimeIsZero (rw_start w) || (rl_window l <=? now - rw_start w).

Definition pruneLocked (l : authRateLimiter) (now : Time) : gmap string authRateWindow :=
  filter (fun e => windowOver l now e.2 = false) (rl_clients l).

Definition Allow (key : string) (now : Time) (l : authRateLimiter) : bool * authRateLimiter :=
  let ticks := u64 (rl_ticks l + 1) in
  let clients := if ticks mod rl_limit l =? 0 then pruneLocked l now else rl_clients l in
  let window := default (mkWindow 0 0) (clients !! key) in
  if windowOver l now window then
    (true, mkLimiter (rl_limit l) (rl_window l) (<[key := mkWindow now 1]> clients) ticks (rl_limited l))
  else if rl_limit l <=? rw_count window then
    (false, mkLimiter (rl_limit l) (rl_window l) clients ticks (u64 (rl_limited l + 1)))
  else
    (true, mkLimiter (rl_limit l) (rl_window l)
             (<[key := mkWindow (rw_start window) (rw_count window + 1)]> clients) ticks (rl_limited l)).

(** Histories: the allowed attempts, newest first, and the last instant. *)
Inductive lruns (limit window : Z) : authRateLimiter -> list (string * Z) -> Z -> Prop :=
| lr_start : lruns limit window (newAuthRateLimiter limit window) [] 0
| lr_step l log last key now ok l' :
    lruns limit window l log last -> last <= now -> 0 < now -> Allow key now l = (ok, l') ->
    lruns limit window l' (if ok then (key, now) :: log else log) now.

(** The attempts of a client, newest first, and how many lie in a period. *)
Definition attemptsOf (k : string) (log : list (string * Z)) : list Z :=
  map snd (List.filter (fun e => String.eqb e.1 k) log).

Definition within (a w : Z) (ts : list Z) : Z :=
  zlen (List.filter (fun t => (a <=? t) && (t <? a + w)) ts).

(** ** Attempts fall into windows *)

(** [grouped limit w G]: windows, newest first, each with the attempts it let
    through, the one that started it among them; they start at least [w]
    apart. *)
Inductive grouped (limit w : Z) : list (Z * list Z) -> Prop :=
| gr_nil : grouped limit w []
| gr_cons st ts G :
    zlen ts <= limit -> Forall (fun t => st <= t < st + w) ts -> In st ts ->
    (forall st' ts' G', G = (st', ts') :: G' -> st' + w <= st) ->
    grouped limit w G -> grouped limit w ((st, ts) :: G).

Lemma within_app a w ts us : within a w (ts ++ us) = within a w ts + within a w us.
Proof. unfold within. rewrite List.filter_app, zlen_app. done. Qed.

Lemma within_le a w ts : 0 <= within a w ts <= zlen ts.
Proof. unfold within, zlen. split; [lia|]. apply inj_le, filter_length_le. Qed.

Lemma within_none a w ts lo hi : Forall (fun t => lo <= t < hi) ts -> hi <= a \/ a + w <= lo -> within a w ts = 0.
Proof.
  intros F Hd. unfold within. induction F as [|t ts Ht F IH]; simpl; [done|].
  destruct ((a <=? t) && (t <? a + w)) eqn:E; [lia|done].
Qed.

Definition flat (G : list (Z * list Z)) : list Z := concat (map snd G).

Lemma flat_cons st ts G : flat ((st, ts) :: G) = ts ++ flat G.
Proof. done. Qed.

Section Count.
  Context (limit w : Z) (Hl : 0 <= limit) (Hw : 0 < w).

Lemma within_old a G : grouped limit w G -> (forall st ts G', G = (st, ts) :: G' -> st + w <= a) -> within a w (flat G) = 0.
Proof.
  induction 1 as [|st ts G Hn F Hi Hs Gr IH]; intros Ha; [done|]. rewrite ?flat_cons.
  specialize (Ha st ts G eq_refl). rewrite within_app, (within_none a w ts st (st + w)) by auto.
  rewrite IH; [lia|]. intros st' ts' G' ->. specialize (Hs st' ts' G' eq_refl). lia.
Qed.

Lemma within_strict a t ts : In t ts -> t < a -> within a w ts <= zlen ts - 1.
Proof.
  intros Hin Ht. apply in_split in Hin as (l1 & l2 & ->). rewrite within_app.
  pose proof (within_le a w l1). pose proof (within_le a w l2).
  assert (within a w (t :: l2) = within a w l2).
  { unfold within. simpl. now replace (a <=? t) with false by lia. }
  rewrite zlen_app, zlen_cons. lia.
Qed.

(** A period that starts inside a window, or at its start. *)
Lemma within_one a G : grouped limit w G -> (forall st ts G', G = (st, ts) :: G' -> st <= a) ->
  within a w (flat G) <= limit /\
  ((forall st ts G', G = (st, ts) :: G' -> st < a) -> within a w (flat G) <= Z.max 0 (limit - 1)).
Proof.
  intros Gr Ha. destruct Gr as [|st ts G Hn F Hi Hs Gr].
  { change (within a w (flat [])) with 0. lia. }
  rewrite flat_cons. specialize (Ha st ts G eq_refl). rewrite within_app, (within_old a G Gr).
  - pose proof (within_le a w ts). split; [lia|]. intros Hst. specialize (Hst st ts G eq_refl).
    pose proof (within_strict a st ts Hi Hst). lia.
  - intros st' ts' G' ->. specialize (Hs st' ts' G' eq_refl). lia.
Qed.

Lemma within_two a G : 0 < limit -> grouped limit w G -> within a w (flat G) <= 2 * limit - 1.
Proof.
  intros Hpos. induction 1 as [|st ts G Hn F Hi Hs Gr IH]; [change (within a w (flat [])) with 0; lia|].
  destruct (Z.le_gt_cases st a) as [La|La].
  - destruct (within_one a ((st, ts) :: G)) as [W _]; [now constructor| |lia].
    intros st' ts' G' [= <- <- <-]. lia.
  - rewrite flat_cons, within_app. destruct (Z.le_gt_cases (a + w) st) as [L|L].
    + rewrite (within_none a w ts st (st + w)) by auto. exact IH.
    + pose proof (within_le a w ts). destruct (within_one a G Gr) as [_ W].
      { intros st' ts' G' ->. specialize (Hs st' ts' G' eq_refl). lia. }
      assert (within a w (flat G) <= Z.max 0 (limit - 1)); [|lia]. apply W.
      intros st' ts' G' ->. specialize (Hs st' ts' G' eq_refl). lia.
Qed.
End Count.

(** ** The invariant of a client *)

Section Invariant.
  Context (limit window : Z).

(** The windows of client [k]: the newest is the one stored, unless it has
    run out. *)
Definition clientInv (l : authRateLimiter) (k : string) (ts : list Z) (last : Z) : Prop :=
  exists G, flat G = ts /\ grouped (rl_limit l) (rl_window l) G /\
    match rl_clients l !! k with
    | Some w => 0 < rw_start w /\ rw_start w <= last /\
        exists us G', G = (rw_start w, us) :: G' /\ rw_count w = zlen us
    | None => forall st us G', G = (st, us) :: G' -> st + rl_window l <= last
    end.

Definition settings (l : authRateLimiter) : Prop :=
  0 < rl_limit l /\ 0 < rl_window l /\
  rl_limit l = rl_limit (newAuthRateLimiter limit window) /\ rl_window l = rl_window (newAuthRateLimiter limit window).

(** Pruning drops only windows that have run out. *)
Lemma clientInv_prune l k ts last now clients :
  clientInv l k ts last -> last <= now ->
  clients = rl_clients l \/ clients = pruneLocked l now ->
  clientInv (mkLimiter (rl_limit l) (rl_window l) clients (rl_ticks l) (rl_limited l)) k ts now.
Proof.
  intros (G & Ef & Gr & Hk) Hn Hc. exists G. split; [done|]. split; [done|]. cbn [rl_clients rl_window].
  assert (Hsame : match rl_clients l !! k with
     | Some w => 0 < rw_start w /\ rw_start w <= now /\ exists us G', G = (rw_start w, us) :: G' /\ rw_count w = zlen us
     | None => forall st us G', G = (st, us) :: G' -> st + rl_window l <= now end).
  { destruct (rl_clients l !! k); [destruct Hk as (? & ? & ?); auto with lia|].
    intros st us G' E. specialize (Hk _ _ _ E). lia. }
  destruct Hc as [->| ->]; [exact Hsame|]. unfold pruneLocked.
  destruct (rl_clients l !! k) as [w|] eqn:L.
  - destruct (windowOver l now w) eqn:O.
    + replace (filter _ _ !! k) with (None : option authRateWindow).
      2:{ symmetry. apply map_lookup_filter_None. right. intros x Hx. rewrite L in Hx. injection Hx as <-. simpl. congruence. }
      destruct Hsame as (Hp & _ & us & G' & -> & _). intros st us' G2 [= <- <- <-].
      unfold windowOver, TimeIsZero in O. lia.
    + replace (filter _ _ !! k) with (Some w); [exact Hsame|]. symmetry. now apply map_lookup_filter_Some.
  - replace (filter _ _ !! k) with (None : option authRateWindow); [exact Hsame|].
    symmetry. apply map_lookup_filter_None. now left.
Qed.

(** A new window is at least a window's length after the previous one. *)
Lemma clientInv_open l k ts now :
  settings l -> 0 < now -> clientInv l k ts now ->
  windowOver l now (default (mkWindow 0 0) (rl_clients l !! k)) = true ->
  clientInv (mkLimiter (rl_limit l) (rl_window l) (<[k := mkWindow now 1]> (rl_clients l)) (rl_ticks l) (rl_limited l))
    k (now :: ts) now.
Proof.
  intros (Hl & Hw & _) Hn (G & <- & Gr & Hk) O. exists ((now, [now]) :: G). split; [done|]. split.
  - constructor; [change (zlen [now]) with 1; cbn [rl_limit]; lia|repeat constructor; cbn [rl_window]; lia|now left| |done].
    intros st us G' ->. cbn [rl_window]. destruct (rl_clients l !! k) as [w|]; simpl in O.
    + destruct Hk as (Hp & _ & us' & G2 & [= -> -> ->] & _). unfold windowOver, TimeIsZero in O. lia.
    + now apply (Hk st us G').
  - cbn [rl_clients]. rewrite lookup_insert_eq. simpl. split; [done|]. split; [lia|]. now exists [now], G.
Qed.

Lemma clientInv_count l k ts now w :
  settings l -> clientInv l k ts now -> rl_clients l !! k = Some w ->
  windowOver l now w = false -> rw_count w < rl_limit l ->
  clientInv (mkLimiter (rl_limit l) (rl_window l) (<[k := mkWindow (rw_start w) (rw_count w + 1)]> (rl_clients l))
               (rl_ticks l) (rl_limited l)) k (now :: ts) now.
Proof.
  intros (Hl & Hw & _) (G & <- & Gr & Hk) L O Hc. rewrite L in Hk. destruct Hk as (Hp & Hs & us & G' & -> & Hu).
  exists ((rw_start w, now :: us) :: G'). split; [done|]. inversion Gr as [|? ? ? Gn Gf Gi Gs Gr']; subst. split.
  - constructor; [rewrite zlen_cons; cbn [rl_limit]; lia| |now right|done|done]. constructor; [|done].
    unfold windowOver, TimeIsZero in O. cbn [rl_window]. lia.
  - cbn [rl_clients]. rewrite lookup_insert_eq. simpl. split; [done|]. split; [done|].
    exists (now :: us), G'. rewrite zlen_cons. split; [done|lia].
Qed.

Lemma clientInv_later l k ts last now :
  clientInv l k ts last -> last <= now -> clientInv l k ts now.
Proof.
  intros Hi Hn. pose proof (clientInv_prune l k ts last now (rl_clients l) Hi Hn (or_introl eq_refl)) as Hp.
  now destruct l.
Qed.

Lemma clientInv_ext l l' k ts now :
  rl_limit l' = rl_limit l -> rl_window l' = rl_window l -> rl_clients l' !! k = rl_clients l !! k ->
  clientInv l k ts now -> clientInv l' k ts now.
Proof. intros E1 E2 E3 (G & Hf & Gr & Hk). exists G. rewrite E1, E2, E3. auto. Qed.

Lemma attemptsOf_cons k key now log :
  attemptsOf k ((key, now) :: log) = if String.eqb key k then now :: attemptsOf k log else attemptsOf k log.
Proof. unfold attemptsOf. simpl. now destruct (String.eqb key k). Qed.

(** One attempt, of this client or of another. *)
Lemma Allow_inv l k log last key now ok l' :
  settings l -> 0 < now -> last <= now -> clientInv l k (attemptsOf k log) last ->
  Allow key now l = (ok, l') ->
  settings l' /\ clientInv l' k (attemptsOf k (if ok then (key, now) :: log else log)) now.
Proof.
  intros Hset Hn Hle Hi. unfold Allow. set (clients := if _ =? 0 then _ else _).
  pose proof (clientInv_prune l k _ last now clients Hi Hle) as Hp.
  set (l1 := mkLimiter (rl_limit l) (rl_window l) clients (rl_ticks l) (rl_limited l)) in Hp.
  assert (Hi1 : clientInv l1 k (attemptsOf k log) now).
  { apply Hp. unfold clients. destruct (_ =? 0); auto. }
  assert (Hset1 : settings l1) by exact Hset. clear Hp Hi.
  change (windowOver l) with (windowOver l1).
  destruct (windowOver l1 now _) eqn:O; [|destruct (rl_limit l <=? _) eqn:Lc].
  - intros [= <- <-]. split; [exact Hset|]. rewrite attemptsOf_cons. destruct (String.eqb_spec key k) as [->|Hne].
    + pose proof (clientInv_open l1 k _ now Hset1 Hn Hi1 O) as X. revert X. now apply clientInv_ext.
    + revert Hi1. apply clientInv_ext; [done..|]. cbn [rl_clients]. now rewrite lookup_insert_ne.
  - intros [= <- <-]. split; [exact Hset|]. revert Hi1. now apply clientInv_ext.
  - intros [= <- <-]. split; [exact Hset|]. rewrite attemptsOf_cons. destruct (String.eqb_spec key k) as [->|Hne].
    + destruct (clients !! k) as [w|] eqn:L; [|done]. simpl in O, Lc.
      pose proof (clientInv_count l1 k _ now w Hset1 Hi1 L O ltac:(cbn; lia)) as X. revert X. now apply clientInv_ext.
    + revert Hi1. apply clientInv_ext; [done..|]. cbn [rl_clients]. now rewrite lookup_insert_ne.
Qed.

Lemma lruns_inv l log last k :
  lruns limit window l log last -> settings l /\ clientInv l k (attemptsOf k log) last.
Proof.
  induction 1 as [|l log last key now ok l' R [Hs Hi] Hle Hn E].
  - split.
    + unfold settings, newAuthRateLimiter. cbn. split; [destruct (Z.leb_spec limit 0); [done|lia]|].
      split; [destruct (Z.leb_spec window 0); [done|lia]|auto].
    + exists []. split; [done|]. split; [constructor|]. cbn [rl_clients newAuthRateLimiter]. rewrite lookup_empty. done.
  - now apply (Allow_inv l k log last key now).
Qed.
End Invariant.

(** The rate limiter bounds the attempts of a client: over any history of
    attempts of any clients, in every period as long as the window, wherever
    it starts, fewer than twice the limit get through. *)
Theorem rate_limit_bound limit window l log last k a :
  lruns limit window l log last ->
  within a (rl_window l) (attemptsOf k log) <= 2 * rl_limit l - 1.
Proof.
  intros R. destruct (lruns_inv limit window l log last k R) as [(Hl & Hw & _) (G & <- & Gr & _)].
  apply within_two; auto with lia.
Qed.

(** The bound is reached: with a limit of 2, three attempts of one period. *)
Example rate_limit_tight :
  let l0 := newAuthRateLimiter 2 10 in
  let '(ok1, l1) := Allow "c" 11 l0 in
  let '(ok2, l2) := Allow "c" 20 l1 in
  let '(ok3, l3) := Allow "c" 21 l2 in
  let '(ok4, l4) := Allow "c" 22 l3 in
  let '(ok5, l5) := Allow "c" 23 l4 in
  ok2 = true /\ ok3 = true /\ ok4 = true /\ ok5 = false /\ rl_limited l5 = 1.
Proof. vm_compute. auto. Qed.

Lemma rate_limit_bound_witness :
  within 5 10 (attemptsOf "c" [("c"%string, 11)]) <= 2 * 1 - 1.
Proof.
  apply (rate_limit_bound 1 10 (snd (Allow "c" 11 (newAuthRateLimiter 1 10))) [("c"%string, 11)] 11 "c" 5).
  apply (lr_step 1 10 (newAuthRateLimiter 1 10) [] 0 "c" 11 true (snd (Allow "c" 11 (newAuthRateLimiter 1 10))));
    [constructor|lia|lia|reflexivity].
Defined.

(** ** The registry of agents

    Models src/internal/server/agents.go: the latest heartbeat of each agent
    and the status computed from its age. Methods run under the registry's
    lock and are one step each; the clock's reading is an argument. *)

Definition AgentHealthy : string := "healthy".
Definition AgentDegraded : string := "degraded".

Record AgentHeartbeat := mkHeartbeat
  { hb_ID : string; hb_Version : string; hb_Address : string; hb_Capacity : Z;
    hb_Labels : gmap string string; hb_Now : Time }.

Record AgentSnapshot := mkSnapshot
  { ag_ID : string; ag_Version : string; ag_Address : string; ag_Capacity : Z;
    ag_Labels : gmap string string; ag_LastHeartbeat : Time; ag_Status : string }.

Record AgentRegistry := mkRegistry { ar_degradedAfter : Z; ar_agents : gmap string AgentSnapshot }.

Definition NewAgentRegistry (degradedAfter : Z) : AgentRegistry :=
  mkRegistry (if degradedAfter <=? 0 then 30 * Second else degradedAfter) ∅.

Definition Heartbeat (clock : Time) (h : AgentHeartbeat) (r : AgentRegistry) : AgentSnapshot * AgentRegistry :=
  let now := if TimeIsZero (hb_Now h) then clock else hb_Now h in
  let snapshot := mkSnapshot (hb_ID h) (hb_Version h) (hb_Address h) (hb_Capacity h) (hb_Labels h) now AgentHealthy in
  (snapshot, mkRegistry (ar_degradedAfter r) (<[hb_ID h := snapshot]> (ar_agents r))).

Definition statusAt (r : AgentRegistry) (lastHeartbeat now : Time) : string :=
  if ar_degradedAfter r <? now - lastHeartbeat then AgentDegraded else AgentHealthy.

Definition withStatus (r : AgentRegistry) (now : Time) (a : AgentSnapshot) : AgentSnapshot :=
  mkSnapshot (ag_ID a) (ag_Version a) (ag_Address a) (ag_Capacity a) (ag_Labels a) (ag_LastHeartbeat a)
    (statusAt r (ag_LastHeartbeat a) now).

Definition ListAgents (now : Time) (r : AgentRegistry) : list AgentSnapshot :=
  sort_by (fun a b => String.ltb (ag_ID a) (ag_ID b))
    (map (withStatus r now) (map_to_list (ar_agents r)).*2).

Definition GetAgent (now : Time) (id : string) (r : AgentRegistry) : option AgentSnapshot :=
  option_map (withStatus r now) (ar_agents r !! id).

Definition PruneAgents (now : Time) (maxAge : Z) (r : AgentRegistry) : Z * AgentRegistry :=
  if maxAge <=? 0 then (0, r)
  else
    let kept := filter (fun e => (ag_LastHeartbeat e.2 <? now - maxAge) = false) (ar_agents r) in
    (Z.of_nat (size (ar_agents r)) - Z.of_nat (size kept), mkRegistry (ar_degradedAfter r) kept).

(** ** The listing is what the single lookups give *)

Definition registered (r : AgentRegistry) : Prop := forall id a, ar_agents r !! id = Some a -> ag_ID a = id.

Lemma registered_new d : registered (NewAgentRegistry d).
Proof. intros id a. simpl. now rewrite lookup_empty. Qed.

Lemma registered_heartbeat clock h r : registered r -> registered (Heartbeat clock h r).2.
Proof.
  intros R id a. simpl. rewrite lookup_insert_Some. intros [[<- <-]|[_ L]]; [done|now apply R].
Qed.

Lemma registered_prune now maxAge r : registered r -> registered (PruneAgents now maxAge r).2.
Proof.
  intros R. unfold PruneAgents. destruct (maxAge <=? 0); [done|]. intros id a. simpl.
  rewrite map_lookup_filter_Some. intros [L _]. now apply R.
Qed.

Lemma in_ListAgents now r a :
  registered r -> In a (ListAgents now r) <-> GetAgent now (ag_ID a) r = Some a.
Proof.
  intros R. unfold ListAgents, GetAgent. split.
  - intros Hin. apply sort_by_in, in_map_iff in Hin as (b & <- & Hin).
    apply list_elem_of_In, list_elem_of_fmap in Hin as ([id b'] & -> & Hin). apply elem_of_map_to_list in Hin.
    simpl. now rewrite (R _ _ Hin), Hin.
  - destruct (ar_agents r !! ag_ID a) as [b|] eqn:L; [|done]. intros [= E].
    apply sort_by_in, in_map_iff. exists b. split; [done|].
    apply list_elem_of_In, list_elem_of_fmap. exists (ag_ID a, b). split; [done|]. now apply elem_of_map_to_list.
Qed.
