(* ===== verification/Runner.v ===== *)
(** * The scheduler runner

    Models src/internal/server/scheduler_runner.go: the store of schedule
    cursors and SchedulerRunner.Tick, which reads the schedules and their
    cursors, asks the scheduler what is due, saves the cursors and then
    enqueues the jobs.

    The cursors are saved before the jobs. The theorems show what follows: a
    due occurrence is enqueued at most once, also when a tick fails, and an
    occurrence whose job could not be stored is not tried again. *)

From Stdlib Require Import String.
From S2P Require Import Prelude ChunkHash Core Calendar GoStrings Cron Window Scheduler Documents Jobs GoText Tokens SecretOptions Resources.
Local Open Scope Z_scope.

Definition scheduleStatesBucket : string := "schedule_states".

Section Runner.
  Context {S : Type} `{KV S} `{Codec Schedule} `{Codec ScheduleState} `{Codec Backup} `{Codec Job}.
  Context (LL : string -> option Location).

Definition StateGet (id : string) (s : S) : outcome (option ScheduleState) := getJSON scheduleStatesBucket id s.

Definition StateList (s : S) : outcome (list ScheduleState) :=
  l <~ listJSON scheduleStatesBucket unmarshal s ;;
  Ok (sort_by (fun a b => String.ltb (sc_ID (ss_Schedule a)) (sc_ID (ss_Schedule b))) l).

Definition StateSave (st : ScheduleState) : M S unit :=
  if IDIsZero (sc_ID (ss_Schedule st)) then merr "schedule id is required"
  else saveJSON scheduleStatesBucket (sc_ID (ss_Schedule st)) st.

Definition StateDelete (id : string) : M S unit := deleteKey scheduleStatesBucket id.

(** The cursor of a schedule, with the schedule as it is now. *)
Definition stateOf (schedule : Schedule) (found : option ScheduleState) : ScheduleState :=
  match found with
  | None => mkState schedule 0 0 "" 0
  | Some st => mkState schedule (ss_LastRun st) (ss_NextRun st) (ss_CatchUpPolicy st) (ss_MaxCatchUp st)
  end.

Fixpoint loadStates (schedules : list Schedule) (s : S) : outcome (list ScheduleState) :=
  match schedules with
  | [] => Ok []
  | schedule :: rest =>
      found <~ StateGet (sc_ID schedule) s ;;
      states <~ loadStates rest s ;;
      Ok (stateOf schedule found :: states)
  end.

Fixpoint saveStates (updated : list ScheduleState) : M S unit :=
  match updated with
  | [] => mret tt
  | st :: rest => _ <-- StateSave st ;; saveStates rest
  end.

(** The jobs that are due, after their cursors are saved. *)
Definition tickCursors (now : Time) : M S (list DueJob) :=
  schedules <-- (fun s => (ScheduleList s, s)) ;;
  states <-- (fun s => (loadStates schedules s, s)) ;;
  ticked <-- mlift (Tick LL now states now) ;;
  _ <-- saveStates ticked.2 ;;
  mret ticked.1.

Definition RunnerTick (now : Time) (ids : list (outcome string)) : M S (list Job) :=
  due <-- tickCursors now ;;
  match due with
  | [] => mret []
  | _ =>
      backups <-- (fun s => (BackupStoreList s, s)) ;;
      EnqueueDue now ids (map (attachParent backups) due)
  end.
End Runner.

(** ** Proofs *)

Section RunnerProofs.
  Context {S : Type} `{KVLaws S} `{CodecLaws Schedule} `{CodecLaws ScheduleState} `{CodecLaws Backup} `{CodecLaws Job}.
  Context (LL : string -> option Location).

Definition cursor (id : string) (s : S) : option ScheduleState := docs ScheduleState scheduleStatesBucket s !! id.

Lemma loadStates_spec schedules (s : S) states :
  loadStates schedules s = Ok states -> states = map (fun sc => stateOf sc (cursor (sc_ID sc) s)) schedules.
Proof.
  revert states. induction schedules as [|sc l IH]; simpl; intros states; [congruence|].
  intros E. apply obind_ok in E as (f & G & E). apply obind_ok in E as (rest & L & E). injection E as <-.
  apply getJSON_docs in G as ->. now rewrite (IH _ L).
Qed.

Lemma stateOf_schedule sc f : ss_Schedule (stateOf sc f) = sc.
Proof. now destruct f. Qed.

Lemma stateOf_self st : stateOf (ss_Schedule st) (Some st) = st.
Proof. now destruct st. Qed.

Lemma StateSave_cases st (s : S) r s' :
  StateSave st s = (r, s') ->
  agree [scheduleStatesBucket] s s' /\
  forall id, cursor id s' = if is_ok r && String.eqb id (sc_ID (ss_Schedule st)) then Some st else cursor id s.
Proof.
  unfold StateSave, cursor. destruct (IDIsZero _); [intros [= <- <-]; split; done|].
  intros E. apply saveJSON_cases in E as [(R & _ & Sv & m & C)|[R U]]; rewrite R; simpl.
  - split; [now apply (agree_changed _ _ _ _ _ C); left|]. intros id. rewrite Sv, lookup_insert.
    case_decide; destruct (String.eqb_spec id (sc_ID (ss_Schedule st))); congruence.
  - split; [now apply agree_unchanged|]. intros id. now rewrite (docs_unchanged _ _ _ U).
Qed.

Lemma saveStates_agree l (s : S) r s' : saveStates l s = (r, s') -> agree [scheduleStatesBucket] s s'.
Proof.
  revert s. induction l as [|st l IH]; simpl; intros s; [intros [= _ <-]; done|].
  unfold mbind. destruct (StateSave st s) as [[u|e|e|] s1] eqn:E; apply StateSave_cases in E as [E _];
    try (now intros [= <- <-]).
  intros E2. apply IH in E2. now apply (agree_trans _ _ s1).
Qed.

Lemma saveStates_other l (s s' : S) id :
  saveStates l s = (Ok tt, s') -> id ∉ map (fun st => sc_ID (ss_Schedule st)) l -> cursor id s' = cursor id s.
Proof.
  revert s. induction l as [|st l IH]; simpl; intros s E Hn; [now injection E as <-|].
  apply not_elem_of_cons in Hn as [Hn1 Hn2]. apply mbind_ok in E as ([] & s1 & E1 & E2).
  rewrite (IH _ E2 Hn2). apply StateSave_cases in E1 as [_ E1]. rewrite E1. simpl.
  apply String.eqb_neq in Hn1. now rewrite Hn1.
Qed.

Lemma saveStates_cursor l (s : S) s' :
  saveStates l s = (Ok tt, s') -> NoDup (map (fun st => sc_ID (ss_Schedule st)) l) ->
  forall st, In st l -> cursor (sc_ID (ss_Schedule st)) s' = Some st.
Proof.
  revert s. induction l as [|st l IH]; simpl; intros s E N st' Hin; [done|].
  apply NoDup_cons in N as [N1 N2]. apply mbind_ok in E as ([] & s1 & E1 & E2).
  destruct Hin as [->|Hin]; [|now apply (IH s1)].
  apply StateSave_cases in E1 as [_ E1]. rewrite (saveStates_other _ _ _ _ E2 N1), E1. simpl.
  now rewrite String.eqb_refl.
Qed.

(** *** What the scheduler leaves behind *)

(** Nothing is due for the cursor before [horizon]. *)
Definition quiet (horizon : Time) (st : ScheduleState) : Prop :=
  sc_Paused (ss_Schedule st) = true \/ horizon <= ss_NextRun st.

Lemma tickOne_settles st now st' due :
  tickOne LL st now = Ok (st', due) -> ss_Schedule st' = ss_Schedule st /\ quiet (now + 1) st'.
Proof.
  intros E. destruct (sc_Paused (ss_Schedule st)) eqn:P.
  - unfold tickOne in E. rewrite P in E. injection E as <- <-. split; [done|]. now left.
  - apply tickOne_spec in E as (f & next & ds & n' & Hf & Hn & Ho & Hl & -> & ->); [|done].
    split; [now destruct ds|]. right. apply occurrences_bounds in Ho as [Ho _]. simpl. lia.
Qed.

Lemma tick_loop_settles states now due updated :
  tick_loop LL states now = Ok (due, updated) ->
  map ss_Schedule updated = map ss_Schedule states /\ Forall (quiet (now + 1)) updated.
Proof.
  revert due updated. induction states as [|st l IH]; simpl; intros due updated E; [injection E as <- <-; done|].
  apply obind_ok in E as ([st' d] & E1 & E). apply obind_ok in E as ([jobs up] & E2 & E). injection E as <- <-.
  apply tickOne_settles in E1 as [S1 Q1]. destruct (IH _ _ E2) as [S2 Q2]. split; [simpl; congruence|].
  now constructor.
Qed.

Lemma tickOne_quiet st now st' due :
  quiet (now + 1) st -> 0 < now -> tickOne LL st now = Ok (st', due) -> due = [].
Proof.
  intros Q Hnow. unfold tickOne. destruct Q as [->|Q]; [congruence|].
  destruct (sc_Paused _); [congruence|]. intros E. apply obind_ok in E as (f & _ & E).
  unfold firstNext, TimeIsZero in E. replace (ss_NextRun st =? 0) with false in E by lia. simpl in E.
  replace (now <? ss_NextRun st) with true in E by lia. congruence.
Qed.

Lemma tick_loop_due states now due updated :
  tick_loop LL states now = Ok (due, updated) -> 0 < now -> due <> [] ->
  exists st, In st states /\ ~ quiet (now + 1) st.
Proof.
  intros E Hnow. revert due updated E. induction states as [|st l IH]; simpl; intros due updated E Hd; [congruence|].
  apply obind_ok in E as ([st' d] & E1 & E). apply obind_ok in E as ([jobs up] & E2 & E). injection E as <- <-.
  destruct d as [|j d].
  - destruct (IH _ _ E2 Hd) as (st0 & Hin & Q). exists st0. auto.
  - exists st. split; [now left|]. intros Q. now apply (tickOne_quiet _ _ _ _ Q Hnow) in E1.
Qed.

(** *** The runner *)

(** The schedules are filed under their identifiers. *)
Definition schedulesFiled (s : S) : Prop :=
  forall k sc, docs Schedule schedulesBucket s !! k = Some sc ->
    sc_ID sc = k /\ validateSchedule LL sc = Ok tt.

Definition stored (sc : Schedule) (s : S) : Prop := docs Schedule schedulesBucket s !! sc_ID sc = Some sc.

Lemma ScheduleList_spec (s : S) l :
  schedulesFiled s -> ScheduleList s = Ok l -> (forall sc, In sc l <-> stored sc s) /\ NoDup (map sc_ID l).
Proof.
  intros F E. apply (sorted_list_complete (byName sc_Name sc_ID) _ _ (fun sc => validateSchedule LL sc = Ok tt) _ _ F); [|exact E].
  intros sc V. apply obind_ok in V as ([] & V & _). now apply requiredID_listed in V.
Qed.

Lemma tickCursors_spec now (s : S) r s1 :
  tickCursors LL now s = (r, s1) -> agree [scheduleStatesBucket] s s1.
Proof.
  unfold tickCursors, mbind, mlift, mret.
  destruct (ScheduleList s) as [l|e|e|]; try (intros [= _ <-]; done).
  destruct (loadStates l s) as [st|e|e|]; try (intros [= _ <-]; done).
  destruct (Tick LL now st now) as [t|e|e|]; try (intros [= _ <-]; done).
  destruct (saveStates t.2 s) as [rr s2] eqn:E. apply saveStates_agree in E.
  destruct rr; intros [= _ <-]; done.
Qed.

Lemma tickCursors_cursors now (s : S) due s1 sc :
  0 < now -> schedulesFiled s -> tickCursors LL now s = (Ok due, s1) -> stored sc s ->
  exists st, cursor (sc_ID sc) s1 = Some st /\ ss_Schedule st = sc /\ quiet (now + 1) st.
Proof.
  intros Hnow F E St. unfold tickCursors in E. apply mbind_ok in E as (l & s2 & E1 & E). injection E1 as E1 <-.
  apply mbind_ok in E as (states & s3 & E2 & E). injection E2 as E2 <-.
  apply mbind_ok in E as ([d up] & s4 & E3 & E). injection E3 as E3 <-.
  apply mbind_ok in E as ([] & s5 & E4 & E). injection E as _ <-.
  destruct (ScheduleList_spec _ _ F E1) as [I N]. apply loadStates_spec in E2.
  unfold Tick, TimeIsZero in E3. replace (now =? 0) with false in E3 by lia.
  apply tick_loop_settles in E3 as [M Q]. simpl in E4.
  assert (Ms : map ss_Schedule up = l).
  { rewrite M, E2, map_map. rewrite <- (map_id l) at 2. apply map_ext. intros a. apply stateOf_schedule. }
  apply I in St. rewrite <- Ms in St. apply in_map_iff in St as (st & <- & Hin). exists st. split; [|split; [done|]].
  - apply (saveStates_cursor up _ _ E4); [|done]. rewrite <- map_map. now rewrite Ms.
  - rewrite Forall_forall in Q. now apply Q, list_elem_of_In.
Qed.

Lemma RunnerTick_due now ids (s : S) jobs s' :
  0 < now -> schedulesFiled s -> RunnerTick LL now ids s = (Ok jobs, s') -> jobs <> [] ->
  exists sc, stored sc s /\ ~ quiet (now + 1) (stateOf sc (cursor (sc_ID sc) s)).
Proof.
  intros Hnow F E Hj. unfold RunnerTick in E. apply mbind_ok in E as (due & s1 & E & Ed).
  unfold tickCursors in E. apply mbind_ok in E as (l & s2 & E1 & E). injection E1 as E1 <-.
  apply mbind_ok in E as (states & s3 & E2 & E). injection E2 as E2 <-.
  apply mbind_ok in E as ([d up] & s4 & E3 & E). injection E3 as E3 <-.
  apply mbind_ok in E as ([] & s5 & E4 & E). injection E as <- <-. simpl in Ed.
  unfold Tick, TimeIsZero in E3. replace (now =? 0) with false in E3 by lia.
  assert (Hd : d <> []) by (intros ->; injection Ed as <- _; contradiction).
  apply (tick_loop_due _ _ _ _ E3 Hnow) in Hd as (st & Hin & Q). apply loadStates_spec in E2. subst states.
  apply in_map_iff in Hin as (sc & <- & Hin). exists sc. split; [|done].
  now apply (ScheduleList_spec _ _ F E1).
Qed.

End RunnerProofs.

(** ** A run that is lost *)

#[local] Instance Schedule_eq : EqDecision Schedule.
Proof. unfold EqDecision. solve_decision. Defined.
#[local] Instance ScheduleState_eq : EqDecision ScheduleState.
Proof. solve_decision. Defined.

Definition tickTime : Time := Date 2026 1 1 0 15 0 0.

Definition tickedState : ScheduleState :=
  withRuns (stateOf demoSchedule None) (Date 2026 1 1 0 10 0 0) (Date 2026 1 1 0 20 0 0).

#[local] Instance demoSchedules : Codec Schedule := listCodec [demoSchedule].
#[local] Instance demoStates : Codec ScheduleState := listCodec [tickedState].
#[local] Instance demoBackups : Codec Backup := noCodec.
#[local] Instance demoJobs : Codec Job := noCodec.

Definition scheduled : gmap string (gmap string bytes) := (ScheduleSave (fun _ => None) demoSchedule ∅).2.

(** The tick finds the occurrence of 00:10 due and fails to store its job. *)
Definition afterFailure : gmap string (gmap string bytes) :=
  (RunnerTick (fun _ => None) tickTime [Err "generate id entropy"] scheduled).2.

Example lost_run :
  (RunnerTick (fun _ => None) tickTime [Err "generate id entropy"] scheduled).1 = Err "generate id entropy" /\
  RunnerTick (fun _ => None) (tickTime + Minute) [Ok "j1"%string] afterFailure = (Ok [], afterFailure) /\
  table afterFailure = ∅.
Proof. split_and!; vmrefl. Qed.

Lemma scheduled_filed : schedulesFiled (fun _ => None) scheduled.
Proof.
  intros k sc. unfold scheduled. change (docs Schedule schedulesBucket _) with ({["s1"%string := demoSchedule]} : gmap string Schedule).
  intros L. apply lookup_singleton_Some in L as [<- <-]. split; reflexivity.
Qed.

