(* ===== verification/JobApi.v ===== *)
(** * Requests about jobs

    Models the handlers of src/cmd/kronos/server.go that create and finish
    jobs (handleBackupNow, handleBackupVerify, handleRestoreStart,
    handleFinishJob, handleCancelJob, handleRetryJob) and the EvidenceStore
    of src/internal/server/job_store.go.

    The metadata of audit events is not modelled, nor are the notifications
    handleFinishJob sends before it answers: they only read the stores
    (Notify.v models the dispatcher). *)

From Stdlib Require Import Ascii String.
From S2P Require Import Prelude ChunkHash Core Calendar GoStrings Retention RestorePlan Cron Window Scheduler Documents Jobs GoText Tokens SecretOptions Resources Auth.
Local Open Scope Z_scope.

Definition JobOperationBackup : string := "backup".
Definition JobOperationRestore : string := "restore".
Definition JobOperationVerify : string := "verify".
Definition JobVerificationManifest : string := "manifest".
Definition JobVerificationChunk : string := "chunk".

Definition evidenceArtifactsBucket : string := "evidence_artifacts".
Definition evidenceArtifactsJobBucket : string := "evidence_artifacts_by_job".

(** The job with the reports it collects replaced. *)
Definition withReports (j : Job) (restore : option RestoreReport) (failure : option FailureEvidence)
  (artifact : option EvidenceArtifact) (verify : option VerificationReport) : Job :=
  mkJob (jb_ID j) (jb_Operation j) (jb_ScheduleID j) (jb_TargetID j) (jb_StorageID j) (jb_Type j)
    (jb_AgentID j) (jb_ParentBackupID j) (jb_RestoreBackupID j) (jb_RestoreManifestID j)
    (jb_RestoreManifestIDs j) (jb_RestoreTargetID j) (jb_RestoreAt j) (jb_RestoreDryRun j)
    (jb_RestoreReplaceExisting j) restore failure artifact
    (jb_VerifyBackupID j) (jb_VerifyManifestID j) (jb_VerifyManifestIDs j) (jb_VerifyLevel j)
    verify (jb_Hooks j) (jb_Status j) (jb_QueuedAt j) (jb_StartedAt j) (jb_EndedAt j) (jb_Error j).

Definition withParentBackup (j : Job) (parent : string) : Job :=
  mkJob (jb_ID j) (jb_Operation j) (jb_ScheduleID j) (jb_TargetID j) (jb_StorageID j) (jb_Type j)
    (jb_AgentID j) parent (jb_RestoreBackupID j) (jb_RestoreManifestID j)
    (jb_RestoreManifestIDs j) (jb_RestoreTargetID j) (jb_RestoreAt j) (jb_RestoreDryRun j)
    (jb_RestoreReplaceExisting j) (jb_RestoreReport j) (jb_FailureEvidence j) (jb_EvidenceArtifact j)
    (jb_VerifyBackupID j) (jb_VerifyManifestID j) (jb_VerifyManifestIDs j) (jb_VerifyLevel j)
    (jb_VerifyReport j) (jb_Hooks j) (jb_Status j) (jb_QueuedAt j) (jb_StartedAt j) (jb_EndedAt j) (jb_Error j).

(** ** Requests *)

Record backupNowRequest := mkBackupNow
  { bn_TargetID : string; bn_StorageID : string; bn_Type : string; bn_ParentID : string }.

Record finishJobRequest := mkFinish
  { fr_Status : string; fr_Error : string; fr_Backup : option Backup; fr_Failure : option FailureEvidence;
    fr_Restore : option RestoreReport; fr_Verification : option VerificationReport }.

Definition backupTypeNeedsParent (backupType : string) : bool :=
  String.eqb backupType BackupTypeIncremental || String.eqb backupType BackupTypeDifferential.

Definition validateRestoreAt (clock at' now : Time) : outcome unit :=
  if TimeIsZero at' then Ok tt
  else
    let now := if TimeIsZero now then clock else now in
    if now <? at' then Err "restore at must not be in the future" else Ok tt.

(** The type of the backup a request asks for. *)
Definition requestedType (req : backupNowRequest) : string :=
  if String.eqb (bn_Type req) "" then
    if IDIsZero (bn_ParentID req) then BackupTypeFull else BackupTypeIncremental
  else bn_Type req.

Definition backupNowRefusal (req : backupNowRequest) : option string :=
  let type := requestedType req in
  if IDIsZero (bn_TargetID req) then Some "target_id is required"%string
  else if IDIsZero (bn_StorageID req) then Some "storage_id is required"%string
  else if negb (String.eqb type BackupTypeFull) && negb (String.eqb type BackupTypeIncremental)
          && negb (String.eqb type BackupTypeDifferential)
  then Some "unsupported backup type"%string
  else if String.eqb type BackupTypeFull && negb (IDIsZero (bn_ParentID req))
  then Some "parent_id requires incremental or differential backup type"%string
  else if backupTypeNeedsParent type && IDIsZero (bn_ParentID req)
  then Some "parent_id is required for incremental or differential backup"%string
  else None.

Definition isSome {A} (o : option A) : bool := match o with Some _ => true | None => false end.

(** The checks of handleFinishJob before the job is finished. *)
Definition finishRefusal (req : finishJobRequest) (current : Job) : option string :=
  let succeeded := String.eqb (fr_Status req) JobStatusSucceeded in
  let op := jb_Operation current in
  if isSome (fr_Backup req) && negb succeeded then Some "backup metadata requires succeeded status"%string
  else if isSome (fr_Backup req) && negb (String.eqb op "") && negb (String.eqb op JobOperationBackup)
  then Some "non-backup jobs cannot attach backup metadata"%string
  else if isSome (fr_Verification req) && negb succeeded then Some "verification report requires succeeded status"%string
  else if isSome (fr_Verification req) && negb (String.eqb op JobOperationVerify)
  then Some "verification reports require verify jobs"%string
  else if isSome (fr_Restore req) && negb succeeded then Some "restore report requires succeeded status"%string
  else if isSome (fr_Restore req) && negb (String.eqb op JobOperationRestore)
  then Some "restore reports require restore jobs"%string
  else if isSome (fr_Failure req) && negb (String.eqb (fr_Status req) JobStatusFailed)
  then Some "failure evidence requires failed status"%string
  else if isSome (fr_Failure req) && negb (String.eqb op JobOperationRestore)
  then Some "failure evidence requires restore jobs"%string
  else None.

Definition orID (id fallback : string) : string := if IDIsZero id then fallback else id.
Definition orText (text fallback : string) : string := if String.eqb text "" then fallback else text.
Definition orTime (t fallback : Time) : Time := if TimeIsZero t then fallback else t.
Definition orIDs (ids fallback : list string) : list string := match ids with [] => fallback | _ => ids end.

(** The manifests of a restore job. *)
Definition restoreManifests (j : Job) : list string :=
  orIDs (jb_RestoreManifestIDs j)
        (if IDIsZero (jb_RestoreManifestID j) then [] else [jb_RestoreManifestID j]).

Definition fillBackup (job : Job) (b : Backup) : Backup :=
  mkBackup (bk_ID b) (orID (bk_TargetID b) (jb_TargetID job)) (orID (bk_StorageID b) (jb_StorageID job))
    (orID (bk_JobID b) (jb_ID job)) (orText (bk_Type b) (jb_Type job)) (bk_ParentID b) (bk_ManifestID b)
    (orTime (bk_StartedAt b) (jb_StartedAt job)) (orTime (bk_EndedAt b) (jb_EndedAt job))
    (bk_SizeBytes b) (bk_ChunkCount b) (bk_Protected b).

Definition fillVerification (job : Job) (r : VerificationReport) : VerificationReport :=
  mkVerificationReport (orID (vr_BackupID r) (jb_VerifyBackupID job)) (orText (vr_Level r) (jb_VerifyLevel job))
    (orIDs (vr_ManifestIDs r) (jb_VerifyManifestIDs job)) (vr_Objects r) (vr_Chunks r) (vr_VerifiedChunks r)
    (vr_StoredBytes r) (vr_RestoredBytes r).

Definition fillRestore (job : Job) (r : RestoreReport) : RestoreReport :=
  mkRestoreReport (orID (rrp_BackupID r) (jb_RestoreBackupID job))
    (orID (orID (rrp_TargetID r) (jb_RestoreTargetID job)) (jb_TargetID job))
    (orIDs (rrp_ManifestIDs r) (restoreManifests job)) (rrp_Objects r) (rrp_Chunks r) (rrp_StoredBytes r)
    (rrp_RestoredBytes r) (jb_RestoreDryRun job).

Definition fillFailure (job : Job) (e : FailureEvidence) : FailureEvidence :=
  mkFailureEvidence (orText (fe_Operation e) (jb_Operation job)) (orText (fe_Stage e) "restore")
    (orText (fe_Message e) (jb_Error job)) (orID (fe_BackupID e) (jb_RestoreBackupID job))
    (orID (orID (fe_TargetID e) (jb_RestoreTargetID job)) (jb_TargetID job))
    (orID (fe_StorageID e) (jb_StorageID job)) (orIDs (fe_ManifestIDs e) (restoreManifests job))
    (orTime (fe_At e) (jb_EndedAt job)).

(** ** Evidence *)

Definition restoreEvidence (job : Job) : RestoreEvidence :=
  mkRestoreEvidence (jb_Operation job) (jb_Status job) (jb_RestoreBackupID job)
    (orID (jb_RestoreTargetID job) (jb_TargetID job)) (jb_StorageID job) (restoreManifests job)
    (jb_RestoreAt job) (jb_RestoreDryRun job) (jb_RestoreReplaceExisting job) (jb_QueuedAt job)
    (jb_StartedAt job) (jb_EndedAt job) (jb_Error job) (jb_RestoreReport job) (jb_FailureEvidence job).

Definition buildEvidenceError : string := "build restore evidence artifact".

Section JobApi.
  Context {S : Type} `{KV S} `{Codec Job} `{Codec Backup} `{Codec EvidenceArtifact}.
  (** encoding/json of the payload, crypto/sha256 and the audit log. *)
  Context (marshalEvidence : RestoreEvidence -> option bytes) (sum256 : bytes -> bytes)
          (audit : string -> string -> string -> M S unit).

Definition buildRestoreEvidenceArtifact (clock : Time) (job : Job) : outcome EvidenceArtifact :=
  match marshalEvidence (restoreEvidence job) with
  | None => Err buildEvidenceError
  | Some data =>
      let sha := string_of_list_byte (hexEncode (sum256 data)) in
      Ok (mkEvidenceArtifact ("restore-evidence-" ++ sha) (jb_ID job) "restore" sha
            (orTime (jb_EndedAt job) clock) (Some (restoreEvidence job)))
  end.

Definition EvidenceSave (a : EvidenceArtifact) : M S unit :=
  if IDIsZero (ea_ID a) then merr "evidence artifact id is required"
  else if IDIsZero (ea_JobID a) then merr "evidence artifact job id is required"
  else match encode a with
       | None => merr "marshal"
       | Some data => kputs [(evidenceArtifactsBucket, ea_ID a, data);
                             (evidenceArtifactsJobBucket, ea_JobID a, list_byte_of_string (ea_ID a))]
       end.

Definition EvidenceGet (id : string) (s : S) : outcome (option EvidenceArtifact) :=
  if IDIsZero id then Err "evidence artifact id is required"
  else
    found <~ kget evidenceArtifactsBucket id s ;;
    match found with
    | None => Ok None
    | Some data => v <~ unmarshal data ;; Ok (Some v)
    end.

Definition EvidenceGetByJobID (jobID : string) (s : S) : outcome (option EvidenceArtifact) :=
  if IDIsZero jobID then Err "job id is required"
  else
    found <~ kget evidenceArtifactsJobBucket jobID s ;;
    match found with
    | None => Ok None
    | Some data => EvidenceGet (string_of_list_byte data) s
    end.

Definition handleGetJobEvidence (id : string) : handler S EvidenceArtifact :=
  attempt (readOnly (EvidenceGetByJobID id)) (fun _ => HTTPError 500 "get evidence artifact") (fun found =>
  match found with
  | Some a => answer a
  | None =>
      attempt (GetJob id) (fun _ => HTTPError 500 "get job") (fun job =>
      match job with
      | Some j => match jb_EvidenceArtifact j with
                  | Some a => answer a
                  | None => fun s => (HTTPError 404 "not found", s)
                  end
      | None => fun s => (HTTPError 404 "not found", s)
      end)
  end).

(** ** Jobs are created *)

Definition handleBackupNow (clock : Time) (id : outcome string) (body : option backupNowRequest) : handler S Job :=
  match body with
  | None => fun s => (HTTPError 400 "invalid backup request", s)
  | Some req =>
      match backupNowRefusal req with
      | Some msg => fun s => (HTTPError 400 msg, s)
      | None =>
          let due := mkDueJob "" (bn_TargetID req) (bn_StorageID req) (requestedType req) "" (mkHooks [] []) 0 clock in
          attempt (EnqueueDue clock [id] [due]) (fun _ => HTTPError 500 "enqueue backup") (fun jobs =>
          match jobs with
          | [] => fun s => (Aborted, s)
          | job :: _ =>
              if IDIsZero (bn_ParentID req) then audited audit "backup.requested" "job" (jb_ID job) job
              else
                let job := withParentBackup job (bn_ParentID req) in
                attempt (Save job) (fun _ => HTTPError 500 "save backup job")
                  (fun _ => audited audit "backup.requested" "job" (jb_ID job) job)
          end)
      end
  end.

(** What a failed plan answers. *)
Definition planError {A} (e : string) : reply A :=
  if notFound e then HTTPError 404 "not found" else HTTPError 400 e.

Definition verifyJob (id : string) (clock : Time) (level : string) (plan : RPlan) (selected : Step) : Job :=
  mkJob id JobOperationVerify "" (pn_TargetID plan) (pn_StorageID plan) (sp_Type selected) "" "" "" "" [] "" 0
    false false None None None (pn_BackupID plan) (sp_ManifestID selected) (map sp_ManifestID (pn_Steps plan))
    level None (mkHooks [] []) JobStatusQueued clock 0 0 "".

Definition handleBackupVerify (clock : Time) (newID : outcome string) (body : option string) (id : string)
  : handler S Job :=
  match body with
  | None => fun s => (HTTPError 400 "invalid backup verify request", s)
  | Some requested =>
      let level := orText requested JobVerificationChunk in
      if negb (String.eqb level JobVerificationManifest) && negb (String.eqb level JobVerificationChunk)
      then fun s => (HTTPError 400 "unsupported verification level", s)
      else
        attempt (readOnly BackupStoreList) (fun _ => HTTPError 500 "list backups") (fun backups =>
        attempt (mlift (BuildPlan backups (RestorePlan.mkRequest id "" 0 false false))) planError (fun plan =>
        match last (pn_Steps plan) with
        | None => fun s => (HTTPError 400 "backup verification plan is empty", s)
        | Some selected =>
            attempt (mlift newID) (fun _ => HTTPError 500 "create verify job id") (fun jobID =>
            let job := verifyJob jobID clock level plan selected in
            attempt (Save job) (fun _ => HTTPError 500 "save verify job")
              (fun _ => audited audit "backup.verify.requested" "job" (jb_ID job) job))
        end))
  end.

Definition restoreJob (id : string) (clock : Time) (req : Request) (plan : RPlan) (selected : Step) : Job :=
  mkJob id JobOperationRestore "" (pn_TargetID plan) (pn_StorageID plan) (sp_Type selected) "" "" (pn_BackupID plan)
    (sp_ManifestID selected) (map sp_ManifestID (pn_Steps plan)) (pn_TargetID plan) (pn_At plan)
    (rq_DryRun req) (rq_ReplaceExisting req) None None None "" "" [] "" None (mkHooks [] [])
    JobStatusQueued clock 0 0 "".

Definition handleRestorePreview (clock : Time) (body : option Request) : handler S RPlan :=
  match body with
  | None => fun s => (HTTPError 400 "invalid restore preview request", s)
  | Some req =>
      attempt (mlift (validateRestoreAt clock (rq_At req) clock)) (HTTPError 400) (fun _ =>
      attempt (readOnly BackupStoreList) (fun _ => HTTPError 500 "list backups") (fun backups =>
      attempt (mlift (BuildPlan backups req)) planError answer))
  end.

(** [plan.Steps[len(plan.Steps)-1]] panics on a plan without steps. *)
Definition handleRestoreStart (clock : Time) (newID : outcome string) (body : option Request)
  : handler S (Job * RPlan) :=
  match body with
  | None => fun s => (HTTPError 400 "invalid restore request", s)
  | Some req =>
      attempt (mlift (validateRestoreAt clock (rq_At req) clock)) (HTTPError 400) (fun _ =>
      attempt (readOnly BackupStoreList) (fun _ => HTTPError 500 "list backups") (fun backups =>
      attempt (mlift (BuildPlan backups req)) planError (fun plan =>
      attempt (mlift newID) (fun _ => HTTPError 500 "create restore job id") (fun id =>
      match last (pn_Steps plan) with
      | None => fun s => (Aborted, s)
      | Some selected =>
          let job := restoreJob id clock req plan selected in
          attempt (Save job) (fun _ => HTTPError 500 "save restore job")
            (fun _ => audited audit "restore.requested" "job" (jb_ID job) (job, plan))
      end))))
  end.

(** ** Jobs are finished *)

Definition saveFinishedBackup (req : finishJobRequest) (job : Job) : M S unit :=
  match fr_Backup req with
  | None => mret tt
  | Some b => BackupSave (fillBackup job b)
  end.

Definition attachVerification (req : finishJobRequest) (job : Job) : M S Job :=
  match fr_Verification req with
  | None => mret job
  | Some r =>
      let job := withReports job (jb_RestoreReport job) (jb_FailureEvidence job) (jb_EvidenceArtifact job)
                   (Some (fillVerification job r)) in
      _ <-- Save job ;; mret job
  end.

Definition attachRestore (req : finishJobRequest) (job : Job) : M S Job :=
  match fr_Restore req with
  | None => mret job
  | Some r =>
      let job := withReports job (Some (fillRestore job r)) (jb_FailureEvidence job) (jb_EvidenceArtifact job)
                   (jb_VerifyReport job) in
      _ <-- Save job ;; mret job
  end.

Definition attachFailure (req : finishJobRequest) (job : Job) : M S Job :=
  match fr_Failure req with
  | None => mret job
  | Some e =>
      let job := withReports job (jb_RestoreReport job) (Some (fillFailure job e)) (jb_EvidenceArtifact job)
                   (jb_VerifyReport job) in
      _ <-- Save job ;; mret job
  end.

Definition attachEvidence (clock : Time) (job : Job) : M S Job :=
  if String.eqb (jb_Operation job) JobOperationRestore &&
     (isSome (jb_RestoreReport job) || isSome (jb_FailureEvidence job))
  then
    artifact <-- mlift (buildRestoreEvidenceArtifact clock job) ;;
    let job := withReports job (jb_RestoreReport job) (jb_FailureEvidence job) (Some artifact) (jb_VerifyReport job) in
    _ <-- EvidenceSave artifact ;;
    _ <-- Save job ;; mret job
  else mret job.

Definition finishError {A} (e : string) : reply A := if notFound e then HTTPError 404 "not found" else HTTPError 400 e.

Definition evidenceError {A} (e : string) : reply A :=
  HTTPError 500 (if String.eqb e buildEvidenceError then e else "save restore evidence artifact").

Definition handleFinishJob (clock : Time) (body : option finishJobRequest) (id : string) : handler S Job :=
  match body with
  | None => fun s => (HTTPError 400 "invalid finish request", s)
  | Some req =>
      attempt (GetJob id) (fun _ => HTTPError 500 "get job") (fun found =>
      match found with
      | None => fun s => (HTTPError 404 "not found", s)
      | Some current =>
          match finishRefusal req current with
          | Some msg => fun s => (HTTPError 400 msg, s)
          | None =>
              attempt (Finish clock id (fr_Status req) (fr_Error req)) finishError (fun job =>
              attempt (saveFinishedBackup req job) (HTTPError 400) (fun _ =>
              attempt (attachVerification req job) (fun _ => HTTPError 500 "save verification report") (fun job =>
              attempt (attachRestore req job) (fun _ => HTTPError 500 "save restore report") (fun job =>
              attempt (attachFailure req job) (fun _ => HTTPError 500 "save failure evidence") (fun job =>
              attempt (attachEvidence clock job) evidenceError (fun job =>
              audited audit "job.finished" "job" (jb_ID job) job))))))
          end
      end)
  end.

Definition handleCancelJob (clock : Time) (id : string) : handler S Job :=
  attempt (Finish clock id JobStatusCanceled "canceled") finishError
    (fun job => audited audit "job.canceled" "job" (jb_ID job) job).

Definition handleRetryJob (clock : Time) (id : string) : handler S Job :=
  attempt (Retry clock id) finishError (fun job => audited audit "job.retried" "job" (jb_ID job) job).

Definition handleGetJob (id : string) : handler S Job :=
  attempt (GetJob id) (fun _ => HTTPError 500 "get job") (fun found =>
  match found with
  | None => fun s => (HTTPError 404 "not found", s)
  | Some job => answer job
  end).
End JobApi.

(** ** Proofs *)

(** A relation on states that holds of every step holds of the handler. *)
Lemma attempt_rel {S A B} (R : S -> S -> Prop) `{!Transitive R} (m : M S A) (fail : string -> reply B)
    (k : A -> handler S B) s :
  R s (m s).2 -> (forall a s1, m s = (Ok a, s1) -> R s1 (k a s1).2) -> R s (attempt m fail k s).2.
Proof.
  intros Hm Hk. unfold attempt. destruct (m s) as [[a|e|e|] s1] eqn:E; simpl in *; try done.
  transitivity s1; auto.
Qed.

Lemma no_reply_500 {A} (msg : string) : forall (e : string) (a : A), HTTPError 500 msg <> Reply a.
Proof. done. Qed.

Lemma finishError_no_reply {A} e (a : A) : finishError e <> Reply a.
Proof. unfold finishError. now destruct (notFound e). Qed.

Lemma planError_no_reply {A} e (a : A) : planError e <> Reply a.
Proof. unfold planError. now destruct (notFound e). Qed.

(** [replied E as a s1 M]: the first step of the handler returned [a]. *)
Tactic Notation "replied" hyp(E) "as" ident(a) ident(s1) ident(M) :=
  apply attempt_reply in E;
  [destruct E as (a & s1 & M & E)|first [done|intros ?; apply finishError_no_reply|intros ?; apply planError_no_reply]].

Section JobApiProofs.
  Context {S : Type} `{KVLaws S} `{CodecLaws Job} `{CodecLaws Backup} `{CodecLaws EvidenceArtifact}.
  Context (marshalEvidence : RestoreEvidence -> option bytes) (sum256 : bytes -> bytes)
          (audit : string -> string -> string -> M S unit)
          (audit_frame : forall a k i s, unchanged s (audit a k i s).2).

Lemma Finish_ok clock id status msg (s : S) job s1 :
  keyed s -> Finish clock id status msg s = (Ok job, s1) ->
  exists current, table s !! id = Some current /\ terminalJobStatus (jb_Status current) = false /\
    terminalJobStatus status = true /\
    job = withLifecycle current (jb_AgentID current) status (jb_QueuedAt current) (jb_StartedAt current) clock msg /\
    jb_ID job = id /\ table s1 = <[id := job]> (table s) /\ agree [jobsBucket] s s1.
Proof.
  intros K. unfold Finish. destruct (terminalJobStatus status) eqn:T; [|done]. simpl. intros E.
  apply mbind_ok in E as (f & s2 & G & E). apply GetJob_table in G as [-> ->].
  destruct (table s !! id) as [cur|] eqn:L; [|done]. destruct (terminalJobStatus (jb_Status cur)) eqn:Tc; [done|].
  apply mbind_ok in E as (u & s3 & Sv & E). injection E as <- <-. exists cur.
  pose proof (Save_agree _ _ _ _ Sv) as A. apply Save_table in Sv. simpl in Sv.
  rewrite (keyed_id _ _ _ K L) in Sv. split_and!; try done. exact (keyed_id s id cur K L).
Qed.

(** [job'] is [job] with other reports, and took its place in the table. *)
Definition reported (job : Job) (s : S) (job' : Job) (s' : S) : Prop :=
  (exists rr fe ea vr, job' = withReports job rr fe ea vr) /\
  table s' = <[jb_ID job := job']> (table s) /\
  agree [jobsBucket; evidenceArtifactsBucket; evidenceArtifactsJobBucket] s s'.

Lemma reported_refl job (s : S) : table s !! jb_ID job = Some job -> reported job s job s.
Proof.
  intros L. split_and!; [|now rewrite insert_id|done].
  exists (jb_RestoreReport job), (jb_FailureEvidence job), (jb_EvidenceArtifact job), (jb_VerifyReport job).
  now destruct job.
Qed.

Lemma reported_trans j1 (s1 : S) j2 s2 j3 s3 :
  reported j1 s1 j2 s2 -> reported j2 s2 j3 s3 -> reported j1 s1 j3 s3.
Proof.
  intros ((rr & fe & ea & vr & ->) & T1 & A1) ((rr' & fe' & ea' & vr' & ->) & T2 & A2). split_and!.
  - exists rr', fe', ea', vr'. done.
  - rewrite T2, T1. simpl. now rewrite insert_insert_eq.
  - now apply (agree_trans _ _ s2).
Qed.

Lemma reported_lookup job (s : S) job' s' : reported job s job' s' -> table s' !! jb_ID job' = Some job'.
Proof. intros ((rr & fe & ea & vr & ->) & -> & _). simpl. apply lookup_insert_eq. Qed.

Lemma save_reported job rr fe ea vr (s : S) job' s' :
  mbind (Save (withReports job rr fe ea vr)) (fun _ => mret (withReports job rr fe ea vr)) s = (Ok job', s') ->
  job' = withReports job rr fe ea vr /\ reported job s job' s'.
Proof.
  intros E. apply mbind_ok in E as (u & s1 & Sv & E). injection E as <- <-. split; [done|].
  pose proof (Save_agree _ _ _ _ Sv) as A. apply Save_table in Sv. simpl in Sv.
  split_and!; [now exists rr, fe, ea, vr|done|]. intros b Hb. apply A. intros [<-|[]]. apply Hb. now left.
Qed.

Lemma attachVerification_ok req job (s : S) job' s' :
  table s !! jb_ID job = Some job -> attachVerification req job s = (Ok job', s') -> reported job s job' s'.
Proof.
  unfold attachVerification. intros L. destruct (fr_Verification req); [apply save_reported|].
  intros [= <- <-]. now apply reported_refl.
Qed.

Lemma attachRestore_ok req job (s : S) job' s' :
  table s !! jb_ID job = Some job -> attachRestore req job s = (Ok job', s') -> reported job s job' s'.
Proof.
  unfold attachRestore. intros L. destruct (fr_Restore req); [apply save_reported|].
  intros [= <- <-]. now apply reported_refl.
Qed.

Lemma attachFailure_ok req job (s : S) job' s' :
  table s !! jb_ID job = Some job -> attachFailure req job s = (Ok job', s') -> reported job s job' s'.
Proof.
  unfold attachFailure. intros L. destruct (fr_Failure req); [apply save_reported|].
  intros [= <- <-]. now apply reported_refl.
Qed.

(** The stored artifacts, by artifact and by job. *)
Definition filedEvidence (a : EvidenceArtifact) (s : S) : Prop :=
  docs EvidenceArtifact evidenceArtifactsBucket s !! ea_ID a = Some a /\
  bucket evidenceArtifactsJobBucket s !! ea_JobID a = Some (list_byte_of_string (ea_ID a)).

Lemma EvidenceSave_ok a (s : S) s' :
  EvidenceSave a s = (Ok tt, s') ->
  filedEvidence a s' /\ table s' = table s /\
  agree [evidenceArtifactsBucket; evidenceArtifactsJobBucket] s s' /\
  IDIsZero (ea_ID a) = false /\ IDIsZero (ea_JobID a) = false.
Proof.
  unfold EvidenceSave. destruct (IDIsZero (ea_ID a)) eqn:Z1; [done|].
  destruct (IDIsZero (ea_JobID a)) eqn:Z2; [done|]. destruct (encode a) as [d|] eqn:D; [|done].
  intros E. pose proof (kputs_ok _ s (f_equal (fun x => is_ok x.1) E)) as W. rewrite E in W. simpl in W.
  split; [split|split_and!; try done].
  - unfold docs. rewrite lookup_omap, W, String.eqb_refl.
    change (String.eqb evidenceArtifactsBucket evidenceArtifactsJobBucket) with false. cbv iota.
    rewrite lookup_insert_eq. simpl. now apply decode_encode.
  - rewrite W. change (String.eqb evidenceArtifactsJobBucket evidenceArtifactsBucket) with false. cbv iota.
    rewrite String.eqb_refl. apply lookup_insert_eq.
  - simpl. unfold docs. now rewrite W.
  - intros b Hb. rewrite W. destruct (String.eqb_spec b evidenceArtifactsBucket); [subst; destruct Hb; now left|].
    destruct (String.eqb_spec b evidenceArtifactsJobBucket); [|done]. subst. destruct Hb. right. now left.
Qed.

(** An artifact that was saved is found again by its identifier and by its
    job. *)
Lemma filedEvidence_found a (s : S) :
  filedEvidence a s ->
  (forall r, EvidenceGet (ea_ID a) s = Ok r -> r = Some a) /\
  (forall r, EvidenceGetByJobID (ea_JobID a) s = Ok r -> r = Some a).
Proof.
  intros [F1 F2].
  assert (G : forall r, EvidenceGet (ea_ID a) s = Ok r -> r = Some a).
  { intros r. unfold EvidenceGet. destruct (IDIsZero _); [done|]. intros E. apply obind_ok in E as (f & K & E).
    apply kget_bucket in K as ->. unfold docs in F1. rewrite lookup_omap in F1.
    destruct (bucket evidenceArtifactsBucket s !! ea_ID a) as [d|]; [|done]. simpl in F1.
    unfold unmarshal in E. rewrite F1 in E. now injection E as <-. }
  split; [done|]. intros r. unfold EvidenceGetByJobID. destruct (IDIsZero _); [done|]. intros E.
  apply obind_ok in E as (f & K & E). apply kget_bucket in K as ->. rewrite F2 in E.
  rewrite string_of_list_byte_of_string in E. now apply G.
Qed.

Lemma attachEvidence_ok clock job (s : S) job' s' :
  table s !! jb_ID job = Some job -> attachEvidence marshalEvidence sum256 clock job s = (Ok job', s') ->
  reported job s job' s' /\
  (jb_Operation job' = JobOperationRestore -> isSome (jb_RestoreReport job') || isSome (jb_FailureEvidence job') = true ->
   exists a, buildRestoreEvidenceArtifact marshalEvidence sum256 clock job' = Ok a /\
     jb_EvidenceArtifact job' = Some a /\ filedEvidence a s').
Proof.
  unfold attachEvidence. intros L.
  destruct (String.eqb_spec (jb_Operation job) JobOperationRestore) as [Op|Op];
    [destruct (isSome _ || isSome _) eqn:Sm|]; simpl.
  2,3: intros [= <- <-]; split; [now apply reported_refl|congruence].
  intros E. apply mbind_ok in E as (a & s1 & B & E). injection B as B <-.
  apply mbind_ok in E as ([] & s2 & Ev & E). apply EvidenceSave_ok in Ev as (F & T & A & _ & _).
  pose proof E as E0. apply mbind_ok in E0 as (u & s3 & Sv & E0). injection E0 as _ <-. apply Save_agree in Sv.
  apply save_reported in E as (-> & R1 & R2 & R3). split.
  - split_and!; [done|now rewrite R2, T|]. intros b Hb. rewrite R3 by done. apply A.
    intros [<-|[<-|[]]]; apply Hb; simpl; auto.
  - intros _ _. exists a. split_and!; try done. destruct F as [F1 F2]. split.
    + now rewrite (agree_docs _ _ _ _ _ Sv) by (intros [?|[]]; discriminate).
    + now rewrite Sv by (intros [?|[]]; discriminate).
Qed.

Lemma BackupSave_ok b (s : S) s' :
  BackupSave b s = (Ok tt, s') ->
  docs Backup backupsBucket s' = <[bk_ID b := b]> (docs Backup backupsBucket s) /\ agree [backupsBucket] s s'.
Proof.
  intros E. apply mbind_ok in E as ([] & s1 & V & E). injection V as V <-.
  apply saveJSON_cases in E as [(_ & _ & Sv & m & C)|[R _]]; [|done]. split; [done|].
  apply (agree_changed _ _ _ _ _ C). now left.
Qed.

Lemma saveFinishedBackup_ok req job (s : S) s' :
  saveFinishedBackup req job s = (Ok tt, s') ->
  docs Backup backupsBucket s' =
    match fr_Backup req with
    | Some b => <[bk_ID b := fillBackup job b]> (docs Backup backupsBucket s)
    | None => docs Backup backupsBucket s
    end /\ agree [backupsBucket] s s'.
Proof.
  unfold saveFinishedBackup. destruct (fr_Backup req) as [b|]; [intros E; now apply BackupSave_ok in E|].
  intros [= <-]. done.
Qed.

(** The chain of saves after a job was finished. *)
Lemma finished_chain clock req (job0 : Job) (s0 s1 s2 s3 s4 s5 : S) j1 j2 j3 job :
  table s0 !! jb_ID job0 = Some job0 ->
  saveFinishedBackup req job0 s0 = (Ok tt, s1) ->
  attachVerification req job0 s1 = (Ok j1, s2) -> attachRestore req j1 s2 = (Ok j2, s3) ->
  attachFailure req j2 s3 = (Ok j3, s4) -> attachEvidence marshalEvidence sum256 clock j3 s4 = (Ok job, s5) ->
  reported job0 s1 job s5 /\ table s1 = table s0 /\
  (jb_Operation job = JobOperationRestore -> isSome (jb_RestoreReport job) || isSome (jb_FailureEvidence job) = true ->
   exists a, buildRestoreEvidenceArtifact marshalEvidence sum256 clock job = Ok a /\
     jb_EvidenceArtifact job = Some a /\ filedEvidence a s5).
Proof.
  intros L B V R F E. apply saveFinishedBackup_ok in B as [_ A].
  assert (T1 : table s1 = table s0) by (apply (agree_docs Job _ _ _ _ A); now intros [?|[]]).
  rewrite <- T1 in L. apply (attachVerification_ok _ _ _ _ _ L) in V.
  apply (attachRestore_ok _ _ _ _ _ (reported_lookup _ _ _ _ V)) in R.
  apply (attachFailure_ok _ _ _ _ _ (reported_lookup _ _ _ _ R)) in F.
  apply (attachEvidence_ok _ _ _ _ _ (reported_lookup _ _ _ _ F)) in E as [E Ev].
  split_and!; [|done|].
  - apply (reported_trans _ _ _ _ _ _ V). apply (reported_trans _ _ _ _ _ _ R). now apply (reported_trans _ _ _ _ _ _ F).
  - exact Ev.
Qed.


(** *** A job finished without its backup *)

Lemma GetJob_cases id (s : S) : (exists r, GetJob id s = (Ok r, s) /\ r = table s !! id) \/ is_ok (GetJob id s).1 = false.
Proof.
  destruct (GetJob id s) as [[r|e|e|] s1] eqn:E; auto. apply GetJob_table in E as [-> ->]. left. eauto.
Qed.

Lemma Finish_terminal clock id status msg (s : S) j :
  table s !! id = Some j -> terminalJobStatus (jb_Status j) = true ->
  (Finish clock id status msg s).2 = s /\ is_ok (Finish clock id status msg s).1 = false.
Proof.
  intros L T. unfold Finish. destruct (terminalJobStatus status); [|done]. simpl. unfold mbind.
  pose proof (GetJob_state id s) as St. destruct (GetJob id s) as [[r|e|e|] s1] eqn:G; simpl in St; subst; try done.
  apply GetJob_table in G as [_ ->]. rewrite L, T. done.
Qed.

Lemma Retry_succeeded clock id (s : S) j :
  table s !! id = Some j -> jb_Status j = JobStatusSucceeded ->
  (Retry clock id s).2 = s /\ is_ok (Retry clock id s).1 = false.
Proof.
  intros L T. unfold Retry, mbind.
  pose proof (GetJob_state id s) as St. destruct (GetJob id s) as [[r|e|e|] s1] eqn:G; simpl in St; subst; try done.
  apply GetJob_table in G as [_ ->]. rewrite L, T. done.
Qed.

Lemma handleFinishJob_terminal clock body id (s : S) j :
  table s !! id = Some j -> terminalJobStatus (jb_Status j) = true ->
  refuses (handleFinishJob marshalEvidence sum256 audit clock body id) s.
Proof.
  intros L T. destruct body as [req|]; [|done]. unfold handleFinishJob.
  destruct (GetJob_cases id s) as [(r & G & ->)|G].
  2:{ apply attempt_refuses; [done|apply GetJob_state|done]. }
  unfold refuses, attempt. rewrite G, L. destruct (finishRefusal req j); [done|].
  destruct (Finish_terminal clock id (fr_Status req) (fr_Error req) s j L T) as [F1 F2].
  apply (attempt_refuses _ finishError); auto using finishError_no_reply.
Qed.

(** The job is finished before the backup it produced is stored: when the
    reported backup is refused, the handler answers an error, yet the job is
    stored as succeeded with no backup, and from then on every request to
    finish the job (with a corrected report) and every retry is refused. *)
Theorem refused_backup_strands_job clock req id (s : S) current b job s1 e :
  Jobs.keyed s -> table s !! id = Some current ->
  finishRefusal req current = None -> fr_Backup req = Some b ->
  Finish clock id (fr_Status req) (fr_Error req) s = (Ok job, s1) ->
  validateBackup (fillBackup job b) = Err e ->
  handleFinishJob marshalEvidence sum256 audit clock (Some req) id s = (HTTPError 400 e, s1) /\
  table s1 !! id = Some job /\ jb_Status job = JobStatusSucceeded /\
  docs Backup backupsBucket s1 = docs Backup backupsBucket s /\
  (forall clock' body, refuses (handleFinishJob marshalEvidence sum256 audit clock' body id) s1) /\
  (forall clock', refuses (handleRetryJob audit clock' id) s1).
Proof.
  intros K L Hr Hb Fi V. destruct (Finish_ok _ _ _ _ _ _ _ K Fi) as (cur & L' & Tc & T & Ej & Eid & Tb & A0).
  rewrite L in L'. injection L' as <-.
  assert (St : fr_Status req = JobStatusSucceeded).
  { unfold finishRefusal in Hr. rewrite Hb in Hr. simpl in Hr.
    destruct (String.eqb_spec (fr_Status req) JobStatusSucceeded); [done|discriminate]. }
  assert (Lj : table s1 !! id = Some job) by (rewrite Tb; apply lookup_insert_eq).
  assert (Sj : jb_Status job = JobStatusSucceeded) by now rewrite Ej.
  split_and!; try done.
  - unfold handleFinishJob, attempt. destruct (GetJob_cases id s) as [(r & G & ->)|G].
    + rewrite G, L, Hr, Fi. unfold saveFinishedBackup, BackupSave. rewrite Hb. unfold mbind, mlift. now rewrite V.
    + unfold Finish in Fi. destruct (negb _); [done|]. unfold mbind in Fi.
      destruct (GetJob id s) as [[r|e'|e'|] s2]; done.
  - apply (agree_docs Backup _ _ _ _ A0). intros [?|[]]; discriminate.
  - intros clock' body. apply (handleFinishJob_terminal _ _ _ _ job Lj). now rewrite Sj.
  - intros clock'. destruct (Retry_succeeded clock' id s1 job Lj Sj) as [R1 R2].
    apply attempt_refuses; auto using finishError_no_reply.
Qed.

(** *** Restore jobs *)

(** A restore that is accepted queues one job, whose manifests are those
    of a complete chain in the order of application (root first, the
    requested backup last), and changes no other job. *)
Theorem restore_start_exact clock newID req (s : S) job plan s' :
  handleRestoreStart audit clock newID (Some req) s = (Reply (job, plan), s') ->
  exists backups init selected,
    BackupStoreList s = Ok backups /\ BuildPlan backups req = Ok plan /\ pn_Steps plan = init ++ [selected] /\
    sp_BackupID selected = rq_BackupID req /\ linked (pn_Steps plan) /\
    jb_Status job = JobStatusQueued /\ jb_RestoreBackupID job = rq_BackupID req /\
    jb_RestoreManifestIDs job = map sp_ManifestID init ++ [jb_RestoreManifestID job] /\
    (rq_At req <= clock \/ rq_At req = 0) /\ newID = Ok (jb_ID job) /\
    table s' = <[jb_ID job := job]> (table s).
Proof.
  intros E. unfold handleRestoreStart in E. replied E as u s1 V. injection V as V <-.
  replied E as backups s2 B. injection B as B <-. replied E as p s3 P. injection P as P <-.
  replied E as jid s4 N. injection N as N <-.
  destruct (plan_chain_order _ _ _ P) as (Lk & init & sel & Es & Ei & Ep). rewrite Es, last_snoc in E.
  replied E as v s5 Sv. apply (audited_reply audit audit_frame) in E as [[= -> ->] U]. exists backups, init, sel.
  apply Save_table in Sv. simpl in Sv. split_and!; try done.
  - simpl. rewrite Es, map_app. done.
  - unfold validateRestoreAt, TimeIsZero in V. destruct (Z.eqb_spec (rq_At req) 0); [auto|].
    left. destruct (clock =? 0); destruct (clock <? rq_At req) eqn:C; try done; lia.
  - transitivity (table s5); [exact (docs_unchanged _ _ _ U)|exact Sv].
Qed.
End JobApiProofs.

(** ** Instances *)

#[export] Instance RestoreReport_eq : EqDecision RestoreReport.
Proof. solve_decision. Defined.
#[export] Instance VerificationReport_eq : EqDecision VerificationReport.
Proof. solve_decision. Defined.
#[export] Instance FailureEvidence_eq : EqDecision FailureEvidence.
Proof. solve_decision. Defined.
#[export] Instance RestoreEvidence_eq : EqDecision RestoreEvidence.
Proof. solve_decision. Defined.
#[export] Instance EvidenceArtifact_eq : EqDecision EvidenceArtifact.
Proof. solve_decision. Defined.
#[export] Instance Job_eq : EqDecision Job.
Proof. solve_decision. Defined.

(** A restore that failed, from the running job to its evidence. *)
Definition demoRunning : Job :=
  withLifecycle (restoreJob "j1" 5 (RestorePlan.mkRequest "b1" "" 0 false false)
                   (mkRPlan "b1" "t1" "s1" 0 [] []) (mkStep "b1" "full" "" "m1" "t1" "s1" 1 2))
    "a1" "running" 5 6 0 "".

Definition demoFailure : finishJobRequest :=
  mkFinish "failed" "disk full" None (Some (mkFailureEvidence "" "" "" "" "" "" [] 0)) None None.

Definition demoDone : Job := withLifecycle demoRunning "a1" "failed" 5 6 9 "disk full".
Definition demoReported : Job :=
  withReports demoDone None (Some (fillFailure demoDone (mkFailureEvidence "" "" "" "" "" "" [] 0))) None None.
Definition demoArtifact : EvidenceArtifact :=
  mkEvidenceArtifact "restore-evidence-" "j1" "restore" "" 9 (Some (restoreEvidence demoReported)).
Definition demoFinished : Job :=
  withReports demoReported None (jb_FailureEvidence demoReported) (Some demoArtifact) None.

(** A backup that ran, and its report without an identifier. *)
Definition demoBackupRunning : Job :=
  withLifecycle (newJob "k1" 5 (mkDueJob "" "t1" "s1" "full" "" (mkHooks [] []) 0 5)) "a1" "running" 5 6 0 "".
Definition demoBackupDone : Job := withLifecycle demoBackupRunning "a1" "succeeded" 5 6 9 "".
Definition demoStored : Backup := mkBackup "b1" "t1" "s1" "k0" "full" "" "m1" 1 2 0 0 false.
Definition demoNoID : Backup := mkBackup "" "t1" "s1" "k1" "full" "" "m1" 6 9 0 0 false.
Definition demoReport : finishJobRequest := mkFinish "succeeded" "" (Some demoNoID) None None None.

Definition demoRestoreRequest : Request := RestorePlan.mkRequest "b1" "t2" 0 false true.
Definition demoRestorePlan : RPlan := mkRPlan "b1" "t2" "s1" 0 [stepOf demoStored] [].
Definition demoRestoreJob : Job := restoreJob "r1" 7 demoRestoreRequest demoRestorePlan (stepOf demoStored).

#[local] Instance demoJobs : Codec Job :=
  listCodec [demoRunning; demoDone; demoReported; demoFinished; demoBackupRunning; demoBackupDone; demoRestoreJob].
#[local] Instance demoBackups : Codec Backup := listCodec [demoStored].
#[local] Instance demoEvidence : Codec EvidenceArtifact := listCodec [demoArtifact].

Definition demoState : gmap string (gmap string bytes) :=
  (BackupSave demoStored (Save demoBackupRunning (Save demoRunning ∅).2).2).2.

Definition quietAudit {S} (action kind id : string) : M S unit := mret tt.

Lemma quietAudit_frame (a k i : string) (s : gmap string (gmap string bytes)) : unchanged s (quietAudit a k i s).2.
Proof. done. Qed.

Lemma demoState_keyed : Jobs.keyed demoState.
Proof.
  intros id j. change (table demoState) with
    ({["j1"%string := demoRunning; "k1"%string := demoBackupRunning]} : gmap string Job).
  rewrite lookup_insert_Some, lookup_singleton_Some. intros [[<- <-]|[_ [<- <-]]]; done.
Qed.


Lemma refused_backup_strands_job_witness :
  handleFinishJob (fun _ => Some []) (fun b => b) quietAudit 9 (Some demoReport) "k1" demoState =
    (HTTPError 400 "backup id is required", (Finish 9 "k1" "succeeded" "" demoState).2) /\
  jb_Status demoBackupDone = JobStatusSucceeded.
Proof.
  destruct (refused_backup_strands_job (H0 := memKVLaws)
    (H2 := listCodec_laws [demoRunning; demoDone; demoReported; demoFinished; demoBackupRunning; demoBackupDone; demoRestoreJob])
    (fun _ => Some []) (fun b => b) quietAudit
    9 demoReport "k1" demoState demoBackupRunning demoNoID demoBackupDone
    (Finish 9 "k1" "succeeded" "" demoState).2 "backup id is required" demoState_keyed) as (E & _ & St & _);
    try (vmrefl).
  split; [exact E|exact St].
Defined.

Lemma restore_start_exact_witness :
  linked (pn_Steps demoRestorePlan) /\
  jb_RestoreManifestIDs demoRestoreJob = ["m1"%string].
Proof.
  destruct (restore_start_exact (H0 := memKVLaws)
    (H2 := listCodec_laws [demoRunning; demoDone; demoReported; demoFinished; demoBackupRunning; demoBackupDone; demoRestoreJob])
    quietAudit quietAudit_frame 7 (Ok "r1"%string)
    demoRestoreRequest demoState demoRestoreJob demoRestorePlan
    (handleRestoreStart quietAudit 7 (Ok "r1"%string) (Some demoRestoreRequest) demoState).2)
    as (backups & init & sel & _ & _ & _ & _ & Lk & _); [vmrefl|].
  split; [exact Lk|reflexivity].
Defined.
