(* ===== verification/RetentionApi.v ===== *)
(** * Requests about backups and retention

    Models the handlers of src/cmd/kronos/server.go that show, protect and
    delete backups: handleGetBackup, handleProtectBackup,
    handleRetentionPlan and handleRetentionApply, which deletes the records
    of the backups a policy drops.

    The theorems carry the guarantee of the resolver (Retention.v) through
    the store: whatever a request to apply a policy does, also when it fails
    halfway, the backups it keeps can be restored as before. *)

From Stdlib Require Import String.
From S2P Require Import Prelude ChunkHash Core Calendar GoStrings Retention RestorePlan Cron Window Scheduler Documents Jobs GoText Tokens SecretOptions Resources Auth.
Local Open Scope Z_scope.

Record retentionRequest := mkRetentionRequest { rt_Policy : RetentionPolicy; rt_Now : Time; rt_DryRun : bool }.

Section RetentionApi.
  Context {S : Type} `{KV S} `{Codec Backup}.
  Context (parseDuration : string -> outcome Z) (sprint : any -> string)
          (audit : string -> string -> string -> M S unit).

Definition handleGetBackup (id : string) : handler S Backup :=
  attempt (readOnly (BackupGet id)) (fun _ => HTTPError 500 "get backup") (fun found =>
  match found with
  | None => fun s => (HTTPError 404 "not found", s)
  | Some b => answer b
  end).

Definition handleProtectBackup (id : string) (protected : bool) : handler S Backup :=
  attempt (BackupProtect id protected)
    (fun e => if notFound e then HTTPError 404 "not found" else HTTPError 500 "protect backup")
    (fun b => audited audit (if protected then "backup.protected" else "backup.unprotected") "backup" (bk_ID b) b).

(** [clock] is what time.Now().UTC() reads when the request has no time. *)
Definition handleRetentionPlan (clock : Time) (body : option (RetentionPolicy * Time)) : handler S (list PlanItem) :=
  match body with
  | None => fun s => (HTTPError 400 "invalid retention plan request", s)
  | Some (policy, now) =>
      attempt (readOnly BackupStoreList) (fun _ => HTTPError 500 "list backups") (fun backups =>
      attempt (mlift (Resolve parseDuration sprint clock backups policy now)) (HTTPError 400) answer)
  end.

Fixpoint delete_loop (dryRun : bool) (items : list PlanItem) (deleted : list string) : M S (list string) :=
  match items with
  | [] => mret deleted
  | item :: rest =>
      if pi_keep item then delete_loop dryRun rest deleted
      else
        let deleted := deleted ++ [bk_ID (pi_backup item)] in
        if dryRun then delete_loop dryRun rest deleted
        else _ <-- BackupDelete (bk_ID (pi_backup item)) ;; delete_loop dryRun rest deleted
  end.

Definition handleRetentionApply (clock : Time) (body : option retentionRequest)
  : handler S (list PlanItem * list string * bool) :=
  match body with
  | None => fun s => (HTTPError 400 "invalid retention apply request", s)
  | Some req =>
      attempt (readOnly BackupStoreList) (fun _ => HTTPError 500 "list backups") (fun backups =>
      attempt (mlift (Resolve parseDuration sprint clock backups (rt_Policy req) (rt_Now req))) (HTTPError 400) (fun plan =>
      attempt (delete_loop (rt_DryRun req) plan []) (fun _ => HTTPError 500 "delete backup metadata") (fun deleted =>
      if rt_DryRun req then answer (plan, deleted, true)
      else audited audit "retention.applied" "retention" "" (plan, deleted, false))))
  end.
End RetentionApi.

(** ** Plans over fewer backups *)

Lemma walk_sub m m' f : forall seen chain current c,
  m' ⊆ m -> walk f m seen chain current = Ok c ->
  (forall b, b ∈ c -> m' !! bk_ID b = Some b) -> (forall k b, m !! k = Some b -> bk_ID b = k) ->
  walk f m' seen chain current = Ok c.
Proof.
  induction f as [|f IH]; intros seen chain current c Hsub E Hc Hk; simpl in *; [done|].
  destruct (bool_decide (bk_ID current ∈ seen)); [done|]. destruct (IDIsZero (bk_ParentID current)); [done|].
  destruct (m !! bk_ParentID current) as [par|] eqn:P; [|done].
  assert (In' : par ∈ c).
  { destruct (walk_ok _ _ _ _ _ _ E) as (r & -> & _). apply elem_of_app. right. now left. }
  pose proof (Hc par In') as L. rewrite (Hk _ _ P) in L. rewrite L. now apply IH.
Qed.

Lemma walk_fuel m f f' : forall seen chain current r,
  walk f m seen chain current = r -> r <> Fuel -> (f <= f')%nat -> walk f' m seen chain current = r.
Proof.
  revert f'. induction f as [|f IH]; intros f' seen chain current r E Hr Hle; simpl in E; [congruence|].
  destruct f' as [|f']; [lia|]. simpl. destruct (bool_decide _); [done|]. destruct (IDIsZero _); [done|].
  destruct (m !! bk_ParentID current); [|done]. apply IH; [done|done|lia].
Qed.

Lemma ancestry_stored m : forall l b0 r,
  RestorePlan.keyed m -> l = b0 :: r -> m !! bk_ID b0 = Some b0 -> ancestry m l ->
  forall b, b ∈ l -> m !! bk_ID b = Some b.
Proof.
  intros l b0 r Hk El L0 Ha. revert b0 r El L0. induction Ha as [x Hz|x par q Hz Hp Ha IH]; intros b0 r El L0 b Hb; simplify_eq.
  - apply list_elem_of_singleton in Hb. now subst.
  - apply elem_of_cons in Hb as [->|Hb]; [done|]. apply (IH par q); [done| |done]. now rewrite (Hk _ _ Hp).
Qed.

(** A plan all of whose backups remain is planned again. *)
Lemma BuildPlan_sub backups backups' req plan :
  BuildPlan backups req = Ok plan ->
  backupsByID backups' ⊆ backupsByID backups ->
  (forall s, s ∈ pn_Steps plan -> is_Some (backupsByID backups' !! sp_BackupID s)) ->
  BuildPlan backups' req = Ok plan.
Proof.
  intros E Hsub Hst. unfold BuildPlan in *. destruct (IDIsZero (rq_BackupID req)); [done|]. cbv zeta in *.
  destruct (backupsByID_spec backups) as [Hk _]. destruct (backupsByID_spec backups') as [Hk' _].
  set (m := backupsByID backups) in *. set (m' := backupsByID backups') in *.
  destruct (m !! rq_BackupID req) as [sel|] eqn:Es; [|done].
  apply obind_ok in E as (chain & Hw & E). injection E as <-. cbn [pn_Steps] in Hst.
  destruct (walk_ok _ _ _ _ _ _ Hw) as (r & -> & Ha & _). simpl app in *. rewrite reverseBackups_reverse in Hst.
  assert (Hself : m !! bk_ID sel = Some sel) by now rewrite (Hk _ _ Es).
  assert (Hin : forall b, b ∈ sel :: r -> m' !! bk_ID b = Some b).
  { intros b Hb. pose proof (ancestry_stored m _ _ _ Hk eq_refl Hself Ha b Hb) as L.
    assert (D : is_Some (m' !! bk_ID b)).
    { apply (Hst (stepOf b)). apply list_elem_of_fmap. exists b. split; [done|]. now apply elem_of_reverse. }
    destruct D as [b' L']. pose proof (lookup_weaken _ _ _ _ L' Hsub). congruence. }
  assert (Es' : m' !! rq_BackupID req = Some sel) by (rewrite <- (Hk _ _ Es); apply Hin; now left).
  rewrite Es'. pose proof (walk_sub m m' _ _ _ _ _ Hsub Hw Hin Hk) as Hw'.
  assert (Ht : walk (S (size m')) m' ∅ [] sel <> Fuel).
  { apply walk_total; [done|apply Hin; now left|set_solver|lia]. }
  assert (Hsz : (size m' <= size m)%nat) by now apply map_subseteq_size.
  rewrite <- (walk_fuel m' (S (size m')) (S (size m)) _ _ _ _ eq_refl Ht ltac:(lia)).
  now rewrite Hw'.
Qed.

Lemma backupsByID_complete backups b :
  NoDup (map bk_ID backups) -> b ∈ backups -> IDIsZero (bk_ID b) = false ->
  backupsByID backups !! bk_ID b = Some b.
Proof.
  unfold backupsByID. intros Hnd Hb Hz.
  assert (G : forall l (m : gmap string Backup), NoDup (map bk_ID l) ->
    (b ∈ l \/ (m !! bk_ID b = Some b /\ bk_ID b ∉ map bk_ID l)) ->
    foldl (fun m b => if IDIsZero (bk_ID b) then m else <[bk_ID b := b]> m) m l !! bk_ID b = Some b).
  { clear Hnd Hb. induction l as [|x l IH]; simpl; intros m Hnd [Hin|[L Hn]]; auto.
    - now apply not_elem_of_nil in Hin.
    - apply NoDup_cons in Hnd as [N1 N2]. apply elem_of_cons in Hin as [<-|Hin]; apply IH; auto.
      right. rewrite Hz, lookup_insert_eq. done.
    - apply NoDup_cons in Hnd as [N1 N2]. apply not_elem_of_cons in Hn as [Hn1 Hn2]. apply IH; [done|right].
      split; [|done]. destruct (IDIsZero (bk_ID x)); [done|]. now rewrite lookup_insert_ne. }
  apply G; auto.
Qed.

(** ** Policies applied to the store *)

Section Applied.
  Context {S : Type} `{KVLaws S} `{CodecLaws Backup}.
  Context (parseDuration : string -> outcome Z) (sprint : any -> string)
          (audit : string -> string -> string -> M S unit)
          (audit_frame : forall a k i s, unchanged s (audit a k i s).2).

Definition storedBackups (s : S) : gmap string Backup := docs Backup backupsBucket s.

Definition backupsFiled (s : S) : Prop :=
  forall k b, storedBackups s !! k = Some b -> bk_ID b = k /\ validateBackup b = Ok tt.

Lemma BackupStoreList_spec (s : S) l :
  backupsFiled s -> BackupStoreList s = Ok l ->
  (forall b, In b l <-> storedBackups s !! bk_ID b = Some b) /\ NoDup (map bk_ID l).
Proof.
  intros F E. apply (sorted_list_complete backupNewer _ _ (fun b => validateBackup b = Ok tt) _ _ F); [|exact E].
  intros b V. apply obind_ok in V as ([] & V & _). now apply requiredID_listed in V.
Qed.

Lemma validBackup_ID b : validateBackup b = Ok tt -> IDIsZero (bk_ID b) = false.
Proof.
  intros V. apply obind_ok in V as ([] & V & _). unfold requiredID in V.
  apply require_then in V as [V _]. now apply negb_true_iff in V.
Qed.

(** The identifiers of the items that are dropped. *)
Definition dropped (items : list PlanItem) (id : string) : Prop :=
  exists it, In it items /\ pi_keep it = false /\ bk_ID (pi_backup it) = id.

Lemma delete_loop_spec dry items deleted (s : S) r s' :
  delete_loop dry items deleted s = (r, s') ->
  storedBackups s' ⊆ storedBackups s /\
  (forall id, ~ dropped items id -> storedBackups s' !! id = storedBackups s !! id) /\
  (dry = true -> s' = s) /\
  (dry = false -> is_ok r = true -> forall id, dropped items id -> storedBackups s' !! id = None).
Proof.
  revert deleted s. induction items as [|it items IH]; intros deleted s; cbn [delete_loop].
  { intros [= <- <-]. split_and!; auto. intros _ _ id (it & [] & _). }
  assert (Kp : forall id, ~ dropped (it :: items) id -> ~ dropped items id).
  { intros id Hn (x & Hin & Hx). apply Hn. exists x. split; [now right|done]. }
  destruct (pi_keep it) eqn:Kt; [|destruct dry].
  - intros E. apply IH in E as (E1 & E2 & E3 & E4). split_and!; auto.
    intros Hd Hr id (x & [<-|Hin] & Hk & Hid); [congruence|]. apply E4; auto. now exists x.
  - intros E. apply IH in E as (E1 & E2 & E3 & _). split_and!; auto. done.
  - unfold mbind. destruct (BackupDelete _ s) as [rr s1] eqn:D.
    apply (deleteKey_cases (A := Backup)) in D as [[R [D _]]|[R U]].
    + destruct rr as [u|e|e|]; try done. intros E. apply IH in E as (E1 & E2 & _ & E4).
      fold (storedBackups s1) (storedBackups s) in D. rewrite D in E1.
      split_and!; [|intros id Hn|done|].
      * etrans; [exact E1|]. apply delete_subseteq.
      * rewrite (E2 id (Kp id Hn)), D. apply lookup_delete_ne. intros <-. apply Hn. exists it. split; [now left|done].
      * intros _ Hr id (x & [<-|Hin] & Hk & Hid); [|apply E4; [done..|now exists x]].
        apply (lookup_weaken_None (storedBackups s') (delete (bk_ID (pi_backup it)) (storedBackups s))); [|done].
        rewrite Hid. apply lookup_delete_eq.
    + intros E. assert (s' = s1 /\ is_ok r = false) as [-> Hr] by (destruct rr; [done|now injection E as <- <-..]).
      unfold storedBackups. rewrite (docs_unchanged _ _ _ U). split_and!; auto; congruence.
Qed.

Lemma kept_not_dropped backups plan id :
  NoDup (map bk_ID backups) -> map pi_backup plan ≡ₚ backups -> id ∈ KeepIDs plan -> ~ dropped plan id.
Proof.
  intros Hnd Hp Hk (y & Hy & Ky & Iy). apply KeepIDs_elem in Hk as (x & Hx & Kx & Ix).
  assert (N : NoDup (map (fun it => bk_ID (pi_backup it)) plan)).
  { rewrite <- (map_map pi_backup bk_ID). change (NoDup (bk_ID <$> map pi_backup plan)). now rewrite Hp. }
  apply list_elem_of_In in Hy. apply list_elem_of_lookup in Hx as [i Hi]. apply list_elem_of_lookup in Hy as [j Hj].
  assert (i = j) as ->.
  { eapply NoDup_lookup; [exact N| |]; rewrite list_lookup_fmap; [rewrite Hi; reflexivity|rewrite Hj; simpl; congruence]. }
  congruence.
Qed.

Lemma kept_or_dropped plan it : In it plan -> bk_ID (pi_backup it) ∈ KeepIDs plan \/ dropped plan (bk_ID (pi_backup it)).
Proof.
  intros Hin. destruct (pi_keep it) eqn:K; [left|right; now exists it].
  apply KeepIDs_elem. exists it. split; [now apply list_elem_of_In|done].
Qed.

(** What the request did to the store. *)
Lemma handleRetentionApply_deletes clock req (s : S) backups plan rep s' :
  BackupStoreList s = Ok backups ->
  Resolve parseDuration sprint clock backups (rt_Policy req) (rt_Now req) = Ok plan ->
  handleRetentionApply parseDuration sprint audit clock (Some req) s = (rep, s') ->
  storedBackups s' ⊆ storedBackups s /\
  (forall id, ~ dropped plan id -> storedBackups s' !! id = storedBackups s !! id) /\
  (forall p d dry, rep = Reply (p, d, dry) ->
     if dry then storedBackups s' = storedBackups s
     else forall id, dropped plan id -> storedBackups s' !! id = None).
Proof.
  intros L Rs E. unfold handleRetentionApply, attempt, readOnly, mlift in E. rewrite L, Rs in E.
  destruct (delete_loop (rt_DryRun req) plan [] s) as [r s1] eqn:Dl.
  apply delete_loop_spec in Dl as (D1 & D2 & D3 & D4).
  destruct r as [d|e|e|]; [|injection E as <- <-; split_and!; auto; congruence..].
  destruct (rt_DryRun req) eqn:Dry.
  - injection E as <- <-. split_and!; auto. intros p d' dry [= <- <- <-]. now rewrite D3.
  - unfold audited, attempt in E. pose proof (audit_frame "retention.applied" "retention" "" s1) as U.
    destruct (audit _ _ _ s1) as [ra s2]. simpl in U.
    assert (s' = s2) as -> by (destruct ra; now injection E). unfold storedBackups.
    rewrite (docs_unchanged _ _ _ U). split_and!; auto. intros p d' dry Er.
    destruct ra; injection E as E; subst rep; try done. injection Er as <- <- <-. now apply D4.
Qed.

(** Every stored backup is an item of the plan. *)
Lemma stored_item clock policy now (s : S) backups plan id b :
  backupsFiled s -> BackupStoreList s = Ok backups ->
  Resolve parseDuration sprint clock backups policy now = Ok plan ->
  storedBackups s !! id = Some b -> exists it, In it plan /\ pi_backup it = b /\ bk_ID b = id.
Proof.
  intros F L Rs Hb. destruct (BackupStoreList_spec _ _ F L) as [I N]. destruct (F _ _ Hb) as [Hid _]. subst id.
  apply I, list_elem_of_In in Hb. rewrite <- (plan_backups _ _ _ _ _ _ _ Rs) in Hb.
  apply list_elem_of_fmap in Hb as (it & -> & Hit). exists it. split; [now apply list_elem_of_In|done].
Qed.

(** A store that still holds what the policy keeps plans its restores as
    before. *)
Lemma kept_planned clock policy now (s s' : S) backups backups' plan rreq rplan :
  backupsFiled s -> BackupStoreList s = Ok backups ->
  Resolve parseDuration sprint clock backups policy now = Ok plan ->
  storedBackups s' ⊆ storedBackups s ->
  (forall id, id ∈ KeepIDs plan -> storedBackups s' !! id = storedBackups s !! id) ->
  rq_BackupID rreq ∈ KeepIDs plan -> BuildPlan backups rreq = Ok rplan ->
  BackupStoreList s' = Ok backups' -> BuildPlan backups' rreq = Ok rplan.
Proof.
  intros F L Rs Sub Kept Hk Hb L'. destruct (BackupStoreList_spec _ _ F L) as [I N].
  assert (F' : backupsFiled s') by (intros k b Hkb; apply F; now apply (lookup_weaken _ _ _ _ Hkb)).
  destruct (BackupStoreList_spec _ _ F' L') as [I' N'].
  apply (BuildPlan_sub backups); [done| |].
  - apply map_subseteq_spec. intros k b Hkb. destruct (backupsByID_spec backups') as [Hk' Hin'].
    destruct (Hin' _ _ Hkb) as [Hin Hz]. pose proof (Hk' _ _ Hkb) as <-.
    apply backupsByID_complete; [done| |done]. apply list_elem_of_In, I.
    apply list_elem_of_In, I' in Hin. now apply (lookup_weaken _ _ _ _ Hin).
  - intros st Hst. pose proof (kept_chain _ _ _ _ _ _ _ _ _ N Rs Hb Hk st Hst) as Hks.
    apply KeepIDs_elem in Hks as Hx. destruct Hx as (it & Hit & _ & Hid).
    assert (Hb0 : storedBackups s !! sp_BackupID st = Some (pi_backup it)).
    { rewrite <- Hid. apply I, list_elem_of_In. rewrite <- (plan_backups _ _ _ _ _ _ _ Rs). apply list_elem_of_fmap. eauto. }
    rewrite <- (Kept _ Hks) in Hb0. destruct (F' _ _ Hb0) as [Hid' V]. exists (pi_backup it).
    rewrite <- Hid'. rewrite <- Hid' in Hb0. apply backupsByID_complete; [done|now apply list_elem_of_In, I'|].
    now apply validBackup_ID.
Qed.

End Applied.

(** ** An instance *)

Definition oldBackup : Backup := mkBackup "b1" "t1" "s1" "k1" "full" "" "m1" 1 2 0 0 false.
Definition newBackup : Backup := mkBackup "b2" "t1" "s1" "k2" "full" "" "m2" 3 4 0 0 false.
Definition keepOne : RetentionPolicy := mkPolicy [mkRule "count" {["n"%string := AInt 1]}].

#[local] Instance demoBackups : Codec Backup := listCodec [oldBackup; newBackup].

Definition twoBackups : gmap string (gmap string bytes) := (BackupSave newBackup (BackupSave oldBackup ∅).2).2.
Definition noDuration (s : string) : outcome Z := Err "bad duration".
Definition noAudit {S} (action kind id : string) : M S unit := mret tt.
Definition onePlan : list PlanItem := [mkItem newBackup true ["count"]; mkItem oldBackup false []].
Definition oneRequest : retentionRequest := mkRetentionRequest keepOne 100 false.
Definition afterApply : gmap string (gmap string bytes) :=
  (handleRetentionApply noDuration (fun _ => ""%string) noAudit 100 (Some oneRequest) twoBackups).2.

Lemma twoBackups_filed : backupsFiled twoBackups.
Proof.
  intros k b. change (storedBackups twoBackups) with
    ({["b2"%string := newBackup; "b1"%string := oldBackup]} : gmap string Backup).
  rewrite lookup_insert_Some, lookup_singleton_Some. intros [[<- <-]|[_ [<- <-]]]; done.
Qed.

