(* ===== verification/Claims.v ===== *)
(** * Claiming jobs

    Models the hand-out of jobs to agents of src/cmd/kronos/server.go:
    handleClaimJob with failLostAgentJobs, the capacity of the registry, the
    rule of one active job per target and the assignment of targets to
    agents.

    The theorems show that handlers that run one after the other never leave
    two active jobs on a target nor exceed the capacity, and that two claims
    that run at the same time can both be given the same job. *)

From Stdlib Require Import String.
From S2P Require Import Prelude ChunkHash Core Calendar GoStrings Retention RestorePlan Cron Window Scheduler Documents Jobs GoText SecretOptions Tokens Resources Auth RateLimit Runner JobApi.
Local Open Scope Z_scope.

Section Claims.
  Context {S : Type} `{KV S} `{Codec Job} `{Codec Target}.
  Context (reveal : options -> outcome options) (audit : string -> string -> string -> M S unit).

Definition isDegraded (a : AgentSnapshot) : bool := String.eqb (ag_Status a) AgentDegraded.

Definition lostAgents (now : Time) (reg : AgentRegistry) : gset string :=
  list_to_set (map ag_ID (List.filter isDegraded (ListAgents now reg))).

Fixpoint failLost_loop (now : Time) (lost : gset string) (jobs : list Job) (n : Z) (ids : list string)
  : M S (Z * list string) :=
  match jobs with
  | [] => mret (n, ids)
  | job :: rest =>
      if String.eqb (jb_AgentID job) "" || negb (bool_decide (jb_AgentID job ∈ lost))
      then failLost_loop now lost rest n ids
      else if negb (activeJob job) then failLost_loop now lost rest n ids
      else _ <-- Save (failed now "agent_lost" job) ;; failLost_loop now lost rest (n + 1) (ids ++ [jb_ID job])
  end.

(** [clock] is what time.Now() reads, in the registry and for a zero [now]. *)
Definition failLostAgentJobs (clock : Time) (reg : AgentRegistry) (now : Time) : M S (Z * list string) :=
  let lost := lostAgents clock reg in
  let now := if TimeIsZero now then clock else now in
  if bool_decide (lost = ∅) then mret (0, [])
  else jobs <-- ListJobs ;; failLost_loop now lost jobs 0 [].

Definition effectiveCapacity (a : AgentSnapshot) : Z := if ag_Capacity a <=? 0 then 1 else ag_Capacity a.

Definition healthyAgentCapacity (now : Time) (reg : AgentRegistry) : option Z :=
  let total := foldl (fun total a => if negb (String.eqb (ag_Status a) AgentHealthy) then total
                                     else i64 (total + effectiveCapacity a)) 0 (ListAgents now reg) in
  if total <=? 0 then None else Some total.

Definition activeCount (jobs : list Job) : Z := zlen (List.filter activeJob jobs).

Definition agentCapacityReached (now : Time) (reg : AgentRegistry) (jobs : list Job) : bool :=
  match healthyAgentCapacity now reg with
  | None => false
  | Some capacity => capacity <=? activeCount jobs
  end.

Definition targetHasActiveJob (jobs : list Job) (candidate : Job) : bool :=
  if IDIsZero (jb_TargetID candidate) then false
  else existsb (fun job => negb (String.eqb (jb_ID job) (jb_ID candidate)) &&
                           String.eqb (jb_TargetID job) (jb_TargetID candidate) && activeJob job) jobs.

Definition agentLabel : string := "agent".

Definition jobMatchesAgent (job : Job) (agentID : string) (s : S) : bool :=
  if String.eqb agentID "" || IDIsZero (jb_TargetID job) then true
  else match TargetGet reveal (jb_TargetID job) s with
       | Ok (Some target) =>
           let assigned := TrimSpace (default ""%string (tg_Labels target !! agentLabel)) in
           String.eqb assigned "" || String.eqb assigned agentID
       | _ => true
       end.

Fixpoint claim_loop (clock : Time) (agentID : string) (all jobs : list Job) : handler S (option Job) :=
  match jobs with
  | [] => answer None
  | job :: rest => fun s =>
      if negb (String.eqb (jb_Status job) JobStatusQueued) then claim_loop clock agentID all rest s
      else if targetHasActiveJob all job then claim_loop clock agentID all rest s
      else if negb (jobMatchesAgent job agentID s) then claim_loop clock agentID all rest s
      else attempt (StartOnAgent clock (jb_ID job) agentID) (fun _ => HTTPError 500 "claim job")
             (fun started => audited audit "job.claimed" "job" (jb_ID started) (Some started)) s
  end.

Definition auditLost (ids : list string) : M S unit :=
  if Nat.eqb (length ids) 0 then mret tt else audit "agent_lost.jobs_failed" "job" "".

Definition handleClaimJob (clock : Time) (r : httpRequest) (reg : AgentRegistry) : handler S (option Job) :=
  attempt (failLostAgentJobs clock reg clock) (fun _ => HTTPError 500 "fail lost agent jobs") (fun lost =>
  attempt (auditLost lost.2)
    (fun _ => HTTPError 500 "write audit event") (fun _ =>
  attempt ListJobs (fun _ => HTTPError 500 "list jobs") (fun jobs =>
  if agentCapacityReached clock reg jobs then answer None
  else claim_loop clock (TrimSpace (rq_AgentID r)) jobs jobs))).

(** tickScheduler; what it prints is not modelled. *)
Definition tickScheduler (LL : string -> option Location) `{Codec Schedule} `{Codec ScheduleState} `{Codec Backup}
  (clock : Time) (ids : list (outcome string)) (reg : AgentRegistry) : M S unit :=
  _ <-- failLostAgentJobs clock reg clock ;;
  _ <-- RunnerTick LL clock ids ;;
  mret tt.

Definition handleSchedulerTick (LL : string -> option Location) `{Codec Schedule} `{Codec ScheduleState} `{Codec Backup}
  (clock : Time) (ids : list (outcome string)) (reg : AgentRegistry) : handler S (list Job) :=
  attempt (failLostAgentJobs clock reg clock) (fun _ => HTTPError 500 "fail lost agent jobs") (fun lost =>
  attempt (auditLost lost.2)
    (fun _ => HTTPError 500 "write audit event") (fun _ =>
  attempt (RunnerTick LL clock ids) (HTTPError 500) (fun jobs =>
  match jobs with
  | [] => answer []
  | _ => audited audit "schedule.tick" "schedule" "" jobs
  end))).
End Claims.

(** ** Steps that start nothing *)

Section Exclusive.
  Context {S : Type} `{KVLaws S} `{CodecLaws Job}.

(** Every active job of [s'] was already there in [s]. *)
Definition calmer (s s' : S) : Prop :=
  forall id j, table s' !! id = Some j -> activeJob j = true -> table s !! id = Some j.

Definition quieter (s s' : S) : Prop := Jobs.keyed s -> Jobs.keyed s' /\ calmer s s'.

#[export] Instance quieter_trans : Transitive quieter.
Proof.
  intros s1 s2 s3 A B K. destruct (A K) as [K2 C1]. destruct (B K2) as [K3 C2]. split; [done|].
  intros id j L Ac. apply C1; auto.
Qed.

#[export] Instance quieter_refl : Reflexive quieter.
Proof. intros s K. split; [done|]. now intros id j. Qed.

Lemma quieter_table (s s' : S) : table s' = table s -> quieter s s'.
Proof. intros E K. split; [intros id j; rewrite E; apply K|]. intros id j. now rewrite E. Qed.

Lemma agree_table bs (s s' : S) : agree bs s s' -> ~ In jobsBucket bs -> table s' = table s.
Proof. intros A Hn. now apply (agree_docs Job bs). Qed.

Lemma quieter_save job (s : S) :
  activeJob job = false -> listable (jb_ID job) -> quieter s (Save job s).2.
Proof.
  intros Ac Li K. destruct (Save job s) as [r s'] eqn:E. apply Save_table in E. destruct (is_ok r); simpl.
  - split; [now apply (keyed_insert s s' job)|]. intros id j. rewrite E, lookup_insert_Some.
    intros [[<- <-]|[_ L]]; [congruence|done].
  - now apply quieter_table.
Qed.

(** The bind of the monad runs its parts in turn. *)
Lemma mbind_rel (R : S -> S -> Prop) `{!Transitive R} {A B} (m : M S A) (k : A -> M S B) s :
  R s (m s).2 -> (forall a s1, m s = (Ok a, s1) -> R s1 (k a s1).2) -> R s (mbind m k s).2.
Proof.
  intros Hm Hk. unfold mbind. destruct (m s) as [[a|e|e|] s1] eqn:E; simpl in *; try done.
  transitivity s1; auto.
Qed.

Lemma quieter_stepped R id (s s' : S) :
  (Jobs.keyed s -> stepped R id s s') -> (forall st, R st -> st <> JobStatusRunning /\ st <> JobStatusFinalizing) ->
  quieter s s'.
Proof.
  intros St HR K. destruct (one_job_step R s s' id K (St K)) as [K' _]. split; [done|].
  intros i j L Ac. destruct (St K) as [E|(job & job' & L0 & Hm & Hst & E)]; rewrite E in L; [done|].
  apply lookup_insert_Some in L as [[<- <-]|[_ L]]; [|done].
  destruct (HR _ Hst) as [N1 N2]. unfold activeJob in Ac. apply orb_true_iff in Ac as [Ac|Ac];
    apply String.eqb_eq in Ac; contradiction.
Qed.

Lemma terminal_inactive st : terminalJobStatus st = true -> st <> JobStatusRunning /\ st <> JobStatusFinalizing.
Proof. intros T. split; intros ->; done. Qed.

Lemma quieter_finish clock id status msg (s : S) : quieter s (Finish clock id status msg s).2.
Proof.
  apply (quieter_stepped (fun st => terminalJobStatus st = true) id); [|apply terminal_inactive].
  intros K. now apply (finish_step clock id status msg s (Finish clock id status msg s).1 _ K), surjective_pairing.
Qed.

Lemma quieter_retry clock id (s : S) : quieter s (Retry clock id s).2.
Proof.
  apply (quieter_stepped (fun st => st = JobStatusQueued) id); [|now intros st ->].
  intros K. now apply (retry_step clock id s (Retry clock id s).1 _ K), surjective_pairing.
Qed.

Lemma quieter_enqueue clock ids due (s : S) :
  (forall id, In (Ok id) ids -> listable id) -> quieter s (EnqueueDue clock ids due s).2.
Proof.
  revert ids s. induction due as [|item due IH]; intros ids s Li; cbn [EnqueueDue]; [reflexivity|].
  destruct ids as [|[id|e|e|] ids]; try reflexivity. cbn [tail].
  apply (mbind_rel quieter); [reflexivity|]. intros id' s1 [= <- <-].
  apply (mbind_rel quieter); [apply quieter_save; [done|]; apply Li; now left|]. intros u s2 _.
  apply (mbind_rel quieter); [apply IH; intros i Hi; apply Li; now right|]. reflexivity.
Qed.

Lemma quieter_lost now lost jobs n ids (s : S) :
  (forall j, In j jobs -> listable (jb_ID j)) -> quieter s (failLost_loop now lost jobs n ids s).2.
Proof.
  revert n ids s. induction jobs as [|job jobs IH]; intros n ids s Li; cbn [failLost_loop]; [reflexivity|].
  assert (Li' : forall j, In j jobs -> listable (jb_ID j)) by (intros j Hj; apply Li; now right).
  destruct (_ || _); [now apply IH|]. destruct (negb _); [now apply IH|].
  apply (mbind_rel quieter); [apply quieter_save; [done|]; apply (Li job); now left|]. intros u s1 _. now apply IH.
Qed.

Lemma listed_listable (s : S) l j : Jobs.keyed s -> tscan s = Ok l -> In j (sort_by jobBefore l) -> listable (jb_ID j).
Proof.
  intros K E Hin. destruct (snapshot_ok s l K E) as (_ & F & _). rewrite Forall_forall in F.
  apply list_elem_of_In, F in Hin. now apply (K (jb_ID j) j).
Qed.

Lemma quieter_keyed (s s' : S) : (Jobs.keyed s -> quieter s s') -> quieter s s'.
Proof. intros Q K. now apply Q. Qed.

Lemma quieter_failLost clock reg now (s : S) : quieter s (failLostAgentJobs clock reg now s).2.
Proof.
  unfold failLostAgentJobs. destruct (bool_decide _); [reflexivity|]. apply quieter_keyed. intros K.
  unfold mbind, ListJobs. destruct (tscan s) as [l|e|e|] eqn:E; simpl; try reflexivity.
  apply quieter_lost. intros j. now apply (listed_listable s l).
Qed.

Lemma quieter_failActive clock now reason (s : S) : quieter s (FailActive clock now reason s).2.
Proof.
  unfold FailActive. apply quieter_keyed. intros K. unfold mbind, ListJobs.
  destruct (tscan s) as [l|e|e|] eqn:E; simpl; try reflexivity.
  assert (Li : forall j, In j (sort_by jobBefore l) -> listable (jb_ID j)) by (intros j; now apply (listed_listable s l)).
  clear E K. revert Li. generalize (sort_by jobBefore l) as jobs. clear l. intros jobs. generalize 0.
  revert s. induction jobs as [|job jobs IH]; intros s n Li; cbn [failActive_loop]; [reflexivity|].
  assert (Li' : forall j, In j jobs -> listable (jb_ID j)) by (intros j Hj; apply Li; now right).
  destruct (negb _); [now apply IH|].
  apply (mbind_rel quieter); [apply quieter_save; [done|]; apply (Li job); now left|]. intros u s1 _. now apply IH.
Qed.
End Exclusive.

Create HintDb quiet.
#[export] Hint Resolve quieter_finish quieter_retry quieter_enqueue quieter_failLost quieter_failActive : quiet.

(** ** The handlers *)

Section Handlers.
  Context {S : Type} `{KVLaws S} `{CodecLaws Job} `{CodecLaws Backup} `{CodecLaws EvidenceArtifact}
          `{CodecLaws Schedule} `{CodecLaws ScheduleState} `{CodecLaws Target}.
  Context (marshalEvidence : RestoreEvidence -> option bytes) (sum256 : bytes -> bytes)
          (reveal : options -> outcome options) (LL : string -> option Location)
          (audit : string -> string -> string -> M S unit)
          (audit_frame : forall a k i s, unchanged s (audit a k i s).2).

Lemma quieter_agree bs (s s' : S) : agree bs s s' -> ~ In jobsBucket bs -> quieter s s'.
Proof. intros A Hn. apply quieter_table. now apply (agree_table bs). Qed.

Lemma quieter_audit a k i (s : S) : quieter s (audit a k i s).2.
Proof. apply (quieter_agree []); [|now intros []]. apply agree_unchanged, audit_frame. Qed.

Lemma quieter_audited {A} action kind id (a : A) (s : S) : quieter s (audited audit action kind id a s).2.
Proof. apply (attempt_rel quieter); [apply quieter_audit|reflexivity]. Qed.

(** A job that a handler may store at any time. *)
Definition idle (job : Job) : Prop := activeJob job = false /\ listable (jb_ID job).

Lemma quieter_idle job (s : S) : idle job -> quieter s (Save job s).2.
Proof. intros []. now apply quieter_save. Qed.

(** A step that reports on an idle job leaves it idle. *)
Definition idleStep (m : Job -> M S Job) : Prop :=
  forall job s, idle job -> quieter s (m job s).2 /\ forall job' s', m job s = (Ok job', s') -> idle job'.

Lemma idle_attach (reports : Job -> option RestoreReport) failure artifact verify :
  idleStep (fun job => let job := withReports job (reports job) (failure job) (artifact job) (verify job) in
                       mbind (Save job) (fun _ => mret job)).
Proof.
  intros job s Hi. split.
  - apply (mbind_rel quieter); [now apply quieter_idle|reflexivity].
  - intros job' s' E. apply mbind_ok in E as (u & s1 & _ & E). injection E as <- _. exact Hi.
Qed.

Lemma idle_skip : idleStep mret.
Proof. intros job s Hi. split; [reflexivity|]. now intros job' s' [= <- _]. Qed.

Lemma idle_verification req : idleStep (attachVerification req).
Proof. unfold attachVerification. destruct (fr_Verification req) as [r|]; [|apply idle_skip]. exact (idle_attach _ _ _ (fun j => Some (fillVerification j r))). Qed.

Lemma idle_restore req : idleStep (attachRestore req).
Proof. unfold attachRestore. destruct (fr_Restore req) as [r|]; [|apply idle_skip]. exact (idle_attach (fun j => Some (fillRestore j r)) _ _ _). Qed.

Lemma idle_failure req : idleStep (attachFailure req).
Proof. unfold attachFailure. destruct (fr_Failure req) as [e|]; [|apply idle_skip]. exact (idle_attach _ (fun j => Some (fillFailure j e)) _ _). Qed.

Lemma EvidenceSave_agree a (s : S) :
  agree [evidenceArtifactsBucket; evidenceArtifactsJobBucket] s (EvidenceSave a s).2.
Proof.
  destruct (EvidenceSave a s) as [r s'] eqn:E. destruct (is_ok r) eqn:R.
  - destruct r as [[]|e|e|]; try done. apply EvidenceSave_ok in E. apply E.
  - apply agree_unchanged. unfold EvidenceSave in E. destruct (IDIsZero _); [now injection E as _ <-|].
    destruct (IDIsZero _); [now injection E as _ <-|]. destruct (encode a); [|now injection E as _ <-].
    pose proof (kputs_fail [(evidenceArtifactsBucket, ea_ID a, l); (evidenceArtifactsJobBucket, ea_JobID a, list_byte_of_string (ea_ID a))] s) as F.
    rewrite E in F. now apply F.
Qed.

Lemma idle_evidence clock : idleStep (attachEvidence marshalEvidence sum256 clock).
Proof.
  intros job s Hi. unfold attachEvidence. destruct (_ && _); [|now apply idle_skip].
  destruct (buildRestoreEvidenceArtifact _ _ clock job) as [a|e|e|]; try (split; [reflexivity|done]).
  split.
  - apply (mbind_rel quieter); [reflexivity|]. intros a' s1 [= <- <-].
    apply (mbind_rel quieter).
    { apply (quieter_agree _ _ _ (EvidenceSave_agree a s)). intros [?|[?|[]]]; discriminate. }
    intros u s2 _. apply (mbind_rel quieter); [now apply quieter_idle|reflexivity].
  - intros job' s' E. apply mbind_ok in E as (a' & s1 & _ & E). apply mbind_ok in E as (u & s2 & _ & E).
    apply mbind_ok in E as (v & s3 & _ & E). injection E as <- _. exact Hi.
Qed.

Lemma saveFinishedBackup_agree req job (s : S) : agree [backupsBucket] s (saveFinishedBackup req job s).2.
Proof.
  destruct (saveFinishedBackup req job s) as [r s'] eqn:E. destruct (is_ok r) eqn:R.
  - destruct r as [[]|e|e|]; try done. apply saveFinishedBackup_ok in E. apply E.
  - unfold saveFinishedBackup in E. destruct (fr_Backup req) as [b|]; [|now injection E as <- _].
    pose proof (validated_save backupsBucket (bk_ID (fillBackup job b)) (fillBackup job b) (validateBackup (fillBackup job b)) s) as V.
    unfold BackupSave in E. rewrite E in V. destruct V as [U|(_ & _ & m & C)]; simpl in *.
    + now apply agree_unchanged.
    + apply (agree_changed _ _ _ _ _ C). now left.
Qed.

Lemma quieter_handleFinish clock body id (s : S) :
  quieter s (handleFinishJob marshalEvidence sum256 audit clock body id s).2.
Proof.
  destruct body as [req|]; [|reflexivity]. apply quieter_keyed. intros K. unfold handleFinishJob.
  apply (attempt_rel quieter); [now rewrite GetJob_state|]. intros found s0 G.
  apply GetJob_table in G as [-> ->]. destruct (table s !! id) as [cur|]; [|reflexivity].
  destruct (finishRefusal req cur); [reflexivity|].
  apply (attempt_rel quieter); [apply quieter_finish|]. intros job s1 Fi.
  destruct (Finish_ok _ _ _ _ _ _ _ K Fi) as (c & Lc & _ & T & Ej & Eid & _).
  assert (Hi : idle job).
  { split; [|rewrite Eid; now apply (K id c)]. rewrite Ej. unfold activeJob. simpl.
    destruct (terminal_inactive _ T) as [N1 N2]. apply String.eqb_neq in N1, N2. now rewrite N1, N2. }
  apply (attempt_rel quieter).
  { apply (quieter_agree _ _ _ (saveFinishedBackup_agree req job s1)). intros [?|[]]; discriminate. }
  intros u s2 _. destruct (idle_verification req job s2 Hi) as [Q1 I1].
  apply (attempt_rel quieter); [exact Q1|]. intros j1 s3 E1. destruct (idle_restore req j1 s3 (I1 _ _ E1)) as [Q2 I2].
  apply (attempt_rel quieter); [exact Q2|]. intros j2 s4 E2. destruct (idle_failure req j2 s4 (I2 _ _ E2)) as [Q3 I3].
  apply (attempt_rel quieter); [exact Q3|]. intros j3 s5 E3. destruct (idle_evidence clock j3 s5 (I3 _ _ E3)) as [Q4 _].
  apply (attempt_rel quieter); [exact Q4|]. intros j4 s6 _. apply quieter_audited.
Qed.

Lemma quieter_cancel clock id (s : S) : quieter s (handleCancelJob audit clock id s).2.
Proof. apply (attempt_rel quieter); auto using quieter_audited with quiet. Qed.

Lemma quieter_handleRetry clock id (s : S) : quieter s (handleRetryJob audit clock id s).2.
Proof. apply (attempt_rel quieter); auto using quieter_audited with quiet. Qed.

Lemma enqueued_idle clock ids due (s : S) jobs s' :
  (forall id, In (Ok id) ids -> listable id) -> EnqueueDue clock ids due s = (Ok jobs, s') -> Forall idle jobs.
Proof.
  revert ids s jobs s'. induction due as [|item due IH]; intros ids s jobs s' Li; cbn [EnqueueDue]; [intros [= <- _]; constructor|].
  intros E. apply mbind_ok in E as (id & s1 & Ei & E). destruct ids as [|[i|e|e|] ids]; try discriminate.
  injection Ei as <- <-. apply mbind_ok in E as (u & s2 & _ & E). apply mbind_ok in E as (js & s3 & Er & E).
  injection E as <- _. constructor; [split; [done|apply Li; now left]|].
  apply (IH ids _ _ _ (fun i0 Hi => Li i0 (or_intror Hi)) Er).
Qed.

Lemma quieter_backupNow clock id body (s : S) :
  (forall i, id = Ok i -> listable i) -> quieter s (handleBackupNow audit clock id body s).2.
Proof.
  intros Li. destruct body as [req|]; [|reflexivity]. unfold handleBackupNow.
  destruct (backupNowRefusal req); [reflexivity|].
  assert (Li' : forall i, In (Ok i) [id] -> listable i) by (intros i [?|[]]; auto).
  apply (attempt_rel quieter); [now apply quieter_enqueue|]. intros jobs s1 E. apply enqueued_idle in E; [|done].
  destruct jobs as [|job jobs]; [reflexivity|]. apply Forall_inv in E.
  destruct (IDIsZero (bn_ParentID req)); [apply quieter_audited|].
  apply (attempt_rel quieter); [apply quieter_idle; exact E|]. intros u s2 _. apply quieter_audited.
Qed.

Lemma quieter_verify clock newID body id (s : S) :
  (forall i, newID = Ok i -> listable i) -> quieter s (handleBackupVerify audit clock newID body id s).2.
Proof.
  intros Li. destruct body as [level|]; [|reflexivity]. unfold handleBackupVerify.
  destruct (_ && _); [reflexivity|]. apply (attempt_rel quieter); [reflexivity|]. intros backups s1 E1.
  apply (attempt_rel quieter); [reflexivity|]. intros plan s2 E2. destruct (last (pn_Steps plan)) as [sel|]; [|reflexivity].
  apply (attempt_rel quieter); [reflexivity|]. intros jid s3 E3. injection E3 as E3 _.
  apply (attempt_rel quieter); [apply quieter_idle; split; [done|now apply Li]|]. intros u s4 _. apply quieter_audited.
Qed.

Lemma quieter_restoreStart clock newID body (s : S) :
  (forall i, newID = Ok i -> listable i) -> quieter s (handleRestoreStart audit clock newID body s).2.
Proof.
  intros Li. destruct body as [req|]; [|reflexivity]. unfold handleRestoreStart.
  apply (attempt_rel quieter); [reflexivity|]. intros u s0 _. apply (attempt_rel quieter); [reflexivity|]. intros backups s1 _.
  apply (attempt_rel quieter); [reflexivity|]. intros plan s2 _. apply (attempt_rel quieter); [reflexivity|].
  intros jid s3 E3. injection E3 as E3 _. destruct (last (pn_Steps plan)) as [sel|]; [|reflexivity].
  apply (attempt_rel quieter); [apply quieter_idle; split; [done|now apply Li]|]. intros v s4 _. apply quieter_audited.
Qed.

Lemma quieter_runner clock ids (s : S) :
  (forall id, In (Ok id) ids -> listable id) -> quieter s (RunnerTick LL clock ids s).2.
Proof.
  intros Li. apply (mbind_rel quieter).
  - apply (quieter_agree [scheduleStatesBucket]); [|intros [?|[]]; discriminate].
    apply (tickCursors_spec LL clock s (tickCursors LL clock s).1). apply surjective_pairing.
  - intros due s1 _. destruct due as [|d due]; [reflexivity|].
    apply (mbind_rel quieter); [reflexivity|]. intros backups s2 _. now apply quieter_enqueue.
Qed.

Lemma quieter_tick clock ids reg (s : S) :
  (forall id, In (Ok id) ids -> listable id) -> quieter s (tickScheduler LL clock ids reg s).2.
Proof.
  intros Li. apply (mbind_rel quieter); [apply quieter_failLost|]. intros l s1 _.
  apply (mbind_rel quieter); [now apply quieter_runner|reflexivity].
Qed.

Lemma quieter_auditLost ids (s : S) : quieter s (auditLost audit ids s).2.
Proof. unfold auditLost. destruct (Nat.eqb _ _); [reflexivity|apply quieter_audit]. Qed.

Lemma quieter_schedulerTick clock ids reg (s : S) :
  (forall id, In (Ok id) ids -> listable id) -> quieter s (handleSchedulerTick audit LL clock ids reg s).2.
Proof.
  intros Li. apply (attempt_rel quieter); [apply quieter_failLost|]. intros l s1 _.
  apply (attempt_rel quieter); [apply quieter_auditLost|]. intros u s2 _.
  apply (attempt_rel quieter); [now apply quieter_runner|]. intros jobs s3 _. destruct jobs; [reflexivity|apply quieter_audited].
Qed.

(** *** Claims *)

Lemma activeCount_perm l l' : l ≡ₚ l' -> activeCount l = activeCount l'.
Proof.
  intros P. unfold activeCount, zlen. f_equal.
  induction P as [|x l l' P IH|x y l|l1 l2 l3 P1 IH1 P2 IH2]; simpl; try done; repeat case_match; simpl; lia || congruence.
Qed.

Lemma tscan_listing (s : S) l : Jobs.keyed s -> tscan s = Ok l -> sort_by jobBefore l ≡ₚ (map_to_list (table s)).*2.
Proof.
  intros K E. apply tscan_table in E; [|intros id j L; now destruct (K id j L)]. now rewrite sort_by_perm.
Qed.

(** Of the jobs of one target at most one is active. *)
Definition oneActive (s : S) : Prop :=
  Jobs.keyed s /\
  forall i1 j1 i2 j2, table s !! i1 = Some j1 -> table s !! i2 = Some j2 ->
    activeJob j1 = true -> activeJob j2 = true ->
    IDIsZero (jb_TargetID j1) = false -> jb_TargetID j1 = jb_TargetID j2 -> i1 = i2.

Lemma oneActive_quieter (s s' : S) : quieter s s' -> oneActive s -> oneActive s'.
Proof. intros Q [K O]. destruct (Q K) as [K' C]. split; [done|]. eauto. Qed.

(** What a claim that starts a job has seen, and does. *)
Definition claimed (agent : string) (s : S) (id : string) (job' : Job) (s' : S) : Prop :=
  exists job, table s !! id = Some job /\ jb_Status job = JobStatusQueued /\
    (forall i j, table s !! i = Some j -> activeJob j = true -> IDIsZero (jb_TargetID job) = false ->
       jb_TargetID j = jb_TargetID job -> i = id) /\
    jb_ID job' = id /\ jb_TargetID job' = jb_TargetID job /\ jb_AgentID job' = agent /\ jb_Status job' = JobStatusRunning /\
    table s' = <[id := job']> (table s).

Lemma StartOnAgent_cases clock id agent (s : S) r s' :
  Jobs.keyed s -> StartOnAgent clock id agent s = (r, s') ->
  (is_ok r = false /\ table s' = table s) \/
  exists job job', r = Ok job' /\ table s !! id = Some job /\ jb_Status job = JobStatusQueued /\
    job' = withLifecycle job agent JobStatusRunning (jb_QueuedAt job) clock (jb_EndedAt job) (jb_Error job) /\
    table s' = <[id := job']> (table s).
Proof.
  intros K. unfold StartOnAgent, mbind. pose proof (GetJob_state id s) as St.
  destruct (GetJob id s) as [[f|e|e|] s1] eqn:G; simpl in St; subst s1; try (intros [= <- <-]; now left).
  apply GetJob_table in G as [_ ->]. destruct (table s !! id) as [job|] eqn:L; [|intros [= <- <-]; now left].
  destruct (String.eqb_spec (jb_Status job) JobStatusQueued) as [Q|Q]; [|intros [= <- <-]; now left]. simpl.
  destruct (Save _ s) as [[u|e|e|] s2] eqn:Sv; apply Save_table in Sv; simpl in Sv; intros [= <- <-]; auto.
  right. exists job. eexists. split_and!; try done. rewrite Sv. now rewrite (keyed_id _ _ _ K L).
Qed.

Lemma audited_state {A} a k i (x : A) (s : S) r s' : audited audit a k i x s = (r, s') -> table s' = table s.
Proof.
  unfold audited, attempt. pose proof (audit_frame a k i s) as F. destruct (audit a k i s) as [[u|e|e|] s1];
    intros [= _ <-]; exact (docs_unchanged _ _ _ F).
Qed.

(** The loop over the listing of the state it runs in: it starts one job,
    which passed the check, or none. *)
Lemma claim_loop_spec clock agent all jobs (s : S) r s' :
  Jobs.keyed s -> (forall i j, table s !! i = Some j -> In j all) -> (forall j, In j jobs -> table s !! jb_ID j = Some j) ->
  claim_loop reveal audit clock agent all jobs s = (r, s') ->
  (table s' = table s /\ forall j, r <> Reply (Some j)) \/
  exists job', claimed agent s (jb_ID job') job' s' /\ forall j, r = Reply (Some j) -> j = job'.
Proof.
  intros K Hall Hin. induction jobs as [|job jobs IH]; cbn [claim_loop].
  { intros [= <- <-]. left. done. }
  assert (Hin' : forall j, In j jobs -> table s !! jb_ID j = Some j) by (intros j Hj; apply Hin; now right).
  specialize (IH Hin'). destruct (String.eqb_spec (jb_Status job) JobStatusQueued) as [Q|Q]; [simpl|exact IH].
  destruct (targetHasActiveJob all job) eqn:T; [exact IH|]. destruct (negb (jobMatchesAgent _ _ _ _)); [exact IH|].
  unfold attempt. destruct (StartOnAgent clock (jb_ID job) agent s) as [rr s1] eqn:E.
  apply (StartOnAgent_cases _ _ _ _ _ _ K) in E as [[R Tb]|(j0 & j' & -> & L & Qj & Ej & Tb)].
  { destruct rr; try done; intros [= <- <-]; left; split; done. }
  rewrite (Hin job (or_introl eq_refl)) in L. injection L as <-. intros E. right. exists j'.
  assert (Ei : jb_ID j' = jb_ID job) by now rewrite Ej. split.
  - exists job. rewrite Ei. rewrite (audited_state _ _ _ _ _ _ _ E).
    split_and!; try done; [now apply Hin; left| |now rewrite Ej..].
    intros i j Li Ac Hz Ht. unfold targetHasActiveJob in T. rewrite Hz in T.
    destruct (decide (i = jb_ID job)) as [|Hne]; [done|exfalso]. apply not_true_iff_false in T. apply T.
    apply existsb_exists. exists j. split; [now apply (Hall i)|]. rewrite (keyed_id _ _ _ K Li), Ht, Ac, String.eqb_refl.
    apply String.eqb_neq in Hne. now rewrite Hne.
  - intros j Er. unfold audited, attempt in E. destruct (audit _ _ _ s1) as [[u|e|e|] s2]; injection E as <- <-; congruence.
Qed.

(** A claim after the jobs of lost agents were failed. *)
Lemma handleClaimJob_spec clock req reg (s : S) r s' :
  Jobs.keyed s -> handleClaimJob reveal audit clock req reg s = (r, s') ->
  exists s0, quieter s s0 /\
  ((table s' = table s0 /\ forall j, r <> Reply (Some j)) \/
   exists job', claimed (TrimSpace (rq_AgentID req)) s0 (jb_ID job') job' s' /\ (forall j, r = Reply (Some j) -> j = job') /\
     forall cap, healthyAgentCapacity clock reg = Some cap ->
       activeCount (map_to_list (table s0)).*2 < cap).
Proof.
  intros K E. unfold handleClaimJob, attempt at 1 in E.
  pose proof (quieter_failLost clock reg clock s) as Q1.
  destruct (failLostAgentJobs clock reg clock s) as [[l|e|e|] s1]; simpl in Q1;
    try (injection E as <- <-; exists s1; split; [done|]; left; done).
  unfold attempt at 1 in E.
  pose proof (quieter_auditLost l.2 s1) as Q2. destruct (auditLost audit l.2 s1) as [[u|e|e|] s2]; simpl in Q2;
    try (injection E as <- <-; exists s2; split; [now transitivity s1|]; left; done).
  assert (Q : quieter s s2) by now transitivity s1. exists s2. split; [done|].
  destruct (Q K) as [K2 _]. unfold attempt at 1, ListJobs in E. destruct (tscan s2) as [jobs|e|e|] eqn:Sc; simpl in E;
    try (injection E as <- <-; left; done).
  destruct (agentCapacityReached clock reg _) eqn:Cp; [injection E as <- <-; left; done|].
  destruct (snapshot_ok s2 jobs K2 Sc) as (_ & F & I). rewrite Forall_forall in F.
  apply claim_loop_spec in E as [E|(job' & C & Er)]; [now left| |done|exact I|intros j Hj; apply F; now apply list_elem_of_In].
  right. exists job'. split_and!; [done|done|]. intros cap Hc. unfold agentCapacityReached in Cp. rewrite Hc in Cp.
  apply Z.leb_gt in Cp. rewrite <- (activeCount_perm _ _ (tscan_listing s2 jobs K2 Sc)). exact Cp.
Qed.

(** *** Every sequence of requests *)

(** One request or tick, whatever it answers; other stores may change in
    between. *)
Inductive serverStep : S -> S -> Prop :=
| st_claim clock req reg s : serverStep s (handleClaimJob reveal audit clock req reg s).2
| st_finish clock body id s : serverStep s (handleFinishJob marshalEvidence sum256 audit clock body id s).2
| st_cancel clock id s : serverStep s (handleCancelJob audit clock id s).2
| st_retry clock id s : serverStep s (handleRetryJob audit clock id s).2
| st_backup clock id body s : (forall i, id = Ok i -> listable i) -> serverStep s (handleBackupNow audit clock id body s).2
| st_verify clock newID body id s : (forall i, newID = Ok i -> listable i) ->
    serverStep s (handleBackupVerify audit clock newID body id s).2
| st_restore clock newID body s : (forall i, newID = Ok i -> listable i) ->
    serverStep s (handleRestoreStart audit clock newID body s).2
| st_tick clock ids reg s : (forall id, In (Ok id) ids -> listable id) ->
    serverStep s (tickScheduler LL clock ids reg s).2
| st_schedulerTick clock ids reg s : (forall id, In (Ok id) ids -> listable id) ->
    serverStep s (handleSchedulerTick audit LL clock ids reg s).2
| st_recover clock now reason s : serverStep s (FailActive clock now reason s).2
| st_other s s' : bucket jobsBucket s' = bucket jobsBucket s -> serverStep s s'.

Lemma oneActive_claimed agent (s : S) id job' s' : claimed agent s id job' s' -> oneActive s -> oneActive s'.
Proof.
  intros (job & L & Q & Hn & Ei & Et & _ & _ & Tb) [K O]. split.
  - intros i j. rewrite Tb, lookup_insert_Some. intros [[<- <-]|[_ Lj]]; [|now apply K].
    split; [done|]. now apply (K id job).
  - intros i1 j1 i2 j2. rewrite Tb, !lookup_insert_Some.
    intros [[<- <-]|[N1 L1]] [[<- <-]|[N2 L2]] A1 A2 Hz Ht; [done| | |now apply (O i1 j1 i2 j2)].
    + symmetry. apply (Hn i2 j2 L2 A2); congruence.
    + apply (Hn i1 j1 L1 A1); congruence.
Qed.

Lemma serverStep_oneActive (s s' : S) : serverStep s s' -> oneActive s -> oneActive s'.
Proof.
  intros [clock req reg s1|clock body id s1|clock id s1|clock id s1|clock id body s1 Li|clock newID body id s1 Li
         |clock newID body s1 Li|clock ids reg s1 Li|clock ids reg s1 Li|clock now reason s1|s1 s2 E] O.
  - destruct (handleClaimJob reveal audit clock req reg s1) as [r s2] eqn:E. apply handleClaimJob_spec in E as (s0 & Q & E); [|apply O].
    apply (oneActive_quieter _ _ Q) in O. destruct E as [[Tb _]|(job' & C & _)].
    + now apply (oneActive_quieter s0), O; apply quieter_table.
    + now apply (oneActive_claimed _ _ _ _ _ C).
  - now apply (oneActive_quieter s1), O; apply quieter_handleFinish.
  - now apply (oneActive_quieter s1), O; apply quieter_cancel.
  - now apply (oneActive_quieter s1), O; apply quieter_handleRetry.
  - now apply (oneActive_quieter s1), O; apply quieter_backupNow.
  - now apply (oneActive_quieter s1), O; apply quieter_verify.
  - now apply (oneActive_quieter s1), O; apply quieter_restoreStart.
  - now apply (oneActive_quieter s1), O; apply quieter_tick.
  - now apply (oneActive_quieter s1), O; apply quieter_schedulerTick.
  - now apply (oneActive_quieter s1), O; apply quieter_failActive.
  - apply (oneActive_quieter s1), O. apply quieter_table. simpl. unfold docs. now rewrite E.
Qed.


(** The number of active jobs. *)
Definition activeJobs (s : S) : Z := activeCount (map_to_list (table s)).*2.

Lemma activeCount_cons j l : activeCount (j :: l) = (if activeJob j then 1 else 0) + activeCount l.
Proof. unfold activeCount. simpl. destruct (activeJob j); rewrite ?zlen_cons; lia. Qed.

Lemma activeCount_insert (m : gmap string Job) id job job' :
  m !! id = Some job -> activeJob job = false -> activeJob job' = true ->
  activeCount (map_to_list (<[id := job']> m)).*2 = activeCount (map_to_list m).*2 + 1.
Proof.
  intros L A A'. rewrite <- (insert_delete_id m id job L) at 2. rewrite <- (insert_delete_eq m id job').
  rewrite !(activeCount_perm _ _ (fmap_Permutation snd _ _ (map_to_list_insert _ _ _ (lookup_delete_eq m id)))).
  cbn [fmap list_fmap]. rewrite !activeCount_cons. simpl. rewrite A, A'. lia.
Qed.

End Handlers.

(** ** Claims at the same time

    StartOnAgent reads the job and writes it back in two transactions, and
    neither the orchestrator nor the handler holds a lock in between. *)

Section Race.
  Context {S : Type} `{KVLaws S} `{CodecLaws Job}.

(** The second half of StartOnAgent, given the job that was read. *)
Definition startFound (clock : Time) (agentID : string) (found : option Job) : M S Job :=
  match found with
  | None => merr "start job: not found"
  | Some job =>
      if negb (String.eqb (jb_Status job) JobStatusQueued) then merr "want queued"
      else
        let job' := withLifecycle job agentID JobStatusRunning (jb_QueuedAt job) clock
                      (jb_EndedAt job) (jb_Error job) in
        _ <-- Save job' ;; mret job'
  end.

Lemma StartOnAgent_split clock id agent (s : S) :
  StartOnAgent clock id agent s = mbind (GetJob id) (startFound clock agent) s.
Proof. reflexivity. Qed.

(** C36: two claims that run at the same time can both be given the same job:
    when the second reads the job before the first has written it, both are
    answered with the job as theirs, and the store keeps the second agent
    only. The same claim run after the first is refused. *)
Theorem concurrent_claims_share_a_job clock1 clock2 id a1 a2 (s s1 s2 : S) found1 found2 r1 r2 j1 j2 :
  Jobs.keyed s ->
  GetJob id s = (Ok found1, r1) -> GetJob id r1 = (Ok found2, r2) ->
  startFound clock1 a1 found1 r2 = (Ok j1, s1) ->
  startFound clock2 a2 found2 s1 = (Ok j2, s2) ->
  jb_ID j1 = id /\ jb_AgentID j1 = a1 /\ jb_ID j2 = id /\ jb_AgentID j2 = a2 /\
  jb_Status j1 = JobStatusRunning /\ jb_Status j2 = JobStatusRunning /\ table s2 !! id = Some j2 /\
  is_ok (StartOnAgent clock2 id a2 s1).1 = false.
Proof.
  intros K G1 G2 W1 W2. apply GetJob_table in G1 as [-> ->]. apply GetJob_table in G2 as [-> ->].
  destruct (table s !! id) as [job|] eqn:L; [|done]. simpl in W1, W2. destruct (negb _); [done|].
  pose proof (keyed_id _ _ _ K L) as Ei.
  apply mbind_ok in W1 as (u & x & Sv1 & W1). injection W1 as <- <-. apply Save_table in Sv1. cbn [is_ok] in Sv1.
  apply mbind_ok in W2 as (v & y & Sv2 & W2). injection W2 as <- <-. apply Save_table in Sv2. cbn [is_ok] in Sv2.
  change (jb_ID (withLifecycle job _ _ _ _ _ _)) with (jb_ID job) in Sv1, Sv2. rewrite Ei in Sv1, Sv2.
  split_and!; try done; [rewrite Sv2; apply lookup_insert_eq|].
  unfold StartOnAgent, mbind. pose proof (GetJob_state id x) as St.
  destruct (GetJob id x) as [[f|e|e|] x1] eqn:G; simpl in St; subst x1; try done.
  apply GetJob_table in G as [_ ->]. rewrite Sv1, lookup_insert_eq. done.
Qed.
End Race.

(** ** Instances *)

Definition demoClock : Time := Date 2026 1 1 0 0 0 0.

Definition queuedJob : Job :=
  newJob "j1" demoClock (mkDueJob "" "t1" "s1" "full" "" (mkHooks [] []) 0 demoClock).
Definition startedOn (agent : string) : Job :=
  withLifecycle queuedJob agent JobStatusRunning demoClock demoClock 0 "".

#[local] Instance demoJobs : Codec Job := listCodec [queuedJob; startedOn "a1"; startedOn "a2"].
#[local] Instance demoBackups : Codec Backup := noCodec.
#[local] Instance demoEvidence : Codec EvidenceArtifact := noCodec.
#[local] Instance demoSchedules : Codec Schedule := noCodec.
#[local] Instance demoStates : Codec ScheduleState := noCodec.
#[local] Instance demoTargets : Codec Target := noCodec.

Definition oneAgent : AgentRegistry :=
  (Heartbeat demoClock (mkHeartbeat "a1" "v1" "" 1 ∅ demoClock) (NewAgentRegistry Minute)).2.

Definition agentRequest (agent : string) : httpRequest := Auth.mkRequest "" "" agent "".

Definition noAudit {T} (action kind id : string) : M T unit := mret tt.

Definition clearOptions (o : options) : outcome options := Ok o.

Definition withJob : gmap string (gmap string bytes) :=
  (handleBackupNow noAudit demoClock (Ok "j1"%string) (Some (mkBackupNow "t1" "s1" "" "")) (∅ : gmap string (gmap string bytes))).2.

Definition withClaim : gmap string (gmap string bytes) := (handleClaimJob clearOptions noAudit demoClock (agentRequest " a1") oneAgent withJob).2.

Lemma withJob_table : table withJob = {["j1"%string := queuedJob]}.
Proof. vmrefl. Qed.

Lemma withJob_keyed : Jobs.keyed withJob.
Proof. intros id j. rewrite withJob_table. intros L. apply lookup_singleton_Some in L as [<- <-]. done. Qed.



Lemma concurrent_claims_share_a_job_witness :
  jb_AgentID (startedOn "a1") = "a1"%string /\ jb_AgentID (startedOn "a2") = "a2"%string /\
  table (startFound demoClock "a2" (Some queuedJob) (startFound demoClock "a1" (Some queuedJob) withJob).2).2 !! "j1"%string =
    Some (startedOn "a2").
Proof.
  destruct (concurrent_claims_share_a_job (H0 := memKVLaws) (H2 := listCodec_laws [queuedJob; startedOn "a1"; startedOn "a2"])
    demoClock demoClock "j1" "a1" "a2" withJob (startFound demoClock "a1" (Some queuedJob) withJob).2
    (startFound demoClock "a2" (Some queuedJob) (startFound demoClock "a1" (Some queuedJob) withJob).2).2
    (Some queuedJob) (Some queuedJob) withJob withJob (startedOn "a1") (startedOn "a2") withJob_keyed)
    as (_ & A1 & _ & A2 & _ & _ & T & _); [vmrefl..|].
  split; [exact A1|]. split; [exact A2|exact T].
Defined.
