(* ===== verification/Secrets.v ===== *)
(** * Secret references

    Models src/internal/secret/secret.go: references of the form
    scheme:path#field, their placeholders in options, the registry of
    resolvers and the selection of a field of a structured secret. The
    environment, the file system and the parsers of JSON and YAML are
    parameters. *)

From Stdlib Require Import Ascii String.
From S2P Require Import Prelude ChunkHash Core GoStrings GoText SecretOptions Tokens.
Local Open Scope Z_scope.

Record Reference := mkReference { rf_Scheme : string; rf_Path : string; rf_Field : string }.

Definition ParseReference (expr : string) : outcome Reference :=
  let '(scheme, rest, ok) := Cut ":" expr in
  if negb ok || String.eqb scheme "" || String.eqb rest "" then Err "secret reference must be scheme:path"
  else
    let '(path, field, _) := Cut "#" rest in
    if String.eqb path "" then Err "secret reference path is empty"
    else Ok (mkReference scheme path field).

(** [Ok None] is a value that is no placeholder. *)
Definition ParsePlaceholder (value : string) : outcome (option Reference) :=
  if negb (HasPrefix value "${") || negb (HasSuffix value "}") then Ok None
  else
    ref <~ ParseReference (TrimSuffix (TrimPrefix value "${") "}") ;;
    Ok (Some ref).

(** The fields of an object are those of the last binding of each key. *)
Definition field (key : string) (m : list (string * optval)) : option optval :=
  (list_to_map (reverse m) : gmap string optval) !! key.

Fixpoint selectParts (current : optval) (parts : list string) : outcome optval :=
  match parts with
  | [] => Ok current
  | part :: rest =>
      match current with
      | OMap m =>
          match field part m with
          | None => Err "select secret field: not found"
          | Some next => selectParts next rest
          end
      | _ => Err "secret field is not an object"
      end
  end.

Definition selectField (value : optval) (parts : list string) : outcome optval :=
  match parts with
  | [] => Err "secret field selector is empty"
  | p :: _ => if String.eqb p "" then Err "secret field selector is empty" else selectParts value parts
  end.

Section Resolve.
  Context (parseJSON parseYAML : bytes -> option optval) (sprint : optval -> string)
          (split : string -> list string) (lookupEnv : string -> option string)
          (readFile : string -> option bytes) (trimNewlines : bytes -> string).

Definition selectStructuredSecret (data : bytes) (fieldPath : string) : outcome string :=
  value <~ match parseJSON data with
           | Some v => Ok v
           | None => match parseYAML data with Some v => Ok v | None => Err "parse structured secret" end
           end ;;
  selected <~ selectField value (split fieldPath) ;;
  match selected with
  | OString s => Ok s
  | OBool _ | OInt _ | OFloat _ => Ok (sprint selected)
  | _ => Err "secret field is not a scalar string/number/bool"
  end.

Definition EnvResolve (ref : Reference) : outcome string :=
  if negb (String.eqb (rf_Field ref) "") then Err "env resolver does not support field selectors"
  else match lookupEnv (rf_Path ref) with
       | None => Err "lookup env: not found"
       | Some v => Ok v
       end.

Definition FileResolve (ref : Reference) : outcome string :=
  match readFile (rf_Path ref) with
  | None => Err "read file"
  | Some data =>
      if negb (String.eqb (rf_Field ref) "") then selectStructuredSecret data (rf_Field ref)
      else Ok (trimNewlines data)
  end.

Definition NewRegistry : gmap string (Reference -> outcome string) :=
  <["file"%string := FileResolve]> (<["env"%string := EnvResolve]> ∅).
End Resolve.

Definition Register (scheme : string) (resolver : Reference -> outcome string)
  (r : gmap string (Reference -> outcome string)) : gmap string (Reference -> outcome string) :=
  <[scheme := resolver]> r.

Definition Resolve (r : gmap string (Reference -> outcome string)) (ref : Reference) : outcome string :=
  match r !! rf_Scheme ref with
  | None => Err "resolve secret: not found"
  | Some resolver =>
      match resolver ref with
      | Ok v => Ok v
      | Err e => Err ("resolve: " ++ e)
      | o => o
      end
  end.

(** The text of a reference. *)
Definition showReference (ref : Reference) : string :=
  (rf_Scheme ref ++ ":" ++ rf_Path ref ++ (if String.eqb (rf_Field ref) "" then "" else "#" ++ rf_Field ref))%string.

Lemma string_app_nil_r s : (s ++ "")%string = s.
Proof. induction s as [|c s IH]; [done|]. change (String c (s ++ "") = String c s)%string. now f_equal. Qed.

Lemma eqb_nonempty s : s <> ""%string -> String.eqb s "" = false.
Proof. apply String.eqb_neq. Qed.

Lemma Cut_absent sep s : noByte sep s = true -> Cut sep s = (s, ""%string, false).
Proof.
  induction s as [|c s IH]; simpl; [done|]. destruct (Ascii.eqb c sep); simpl; [done|]. intros N. now rewrite IH.
Qed.

(** A reference whose scheme has no colon and whose path has no hash is read
    back from its placeholder. *)
Lemma placeholder_roundtrip ref :
  rf_Scheme ref <> ""%string -> rf_Path ref <> ""%string ->
  noByte ":" (rf_Scheme ref) = true -> noByte "#" (rf_Path ref) = true ->
  ParsePlaceholder ("${" ++ showReference ref ++ "}") = Ok (Some ref).
Proof.
  destruct ref as [scheme path f]. unfold ParsePlaceholder. intros Hs Hp N1 N2. cbn [rf_Scheme rf_Path] in *.
  rewrite HasPrefix_app. assert (Sx : HasSuffix ("${" ++ showReference (mkReference scheme path f) ++ "}") "}" = true).
  { apply HasSuffix_spec. eexists. symmetry. apply string_app_assoc. }
  rewrite Sx, TrimPrefix_app, TrimSuffix_app. simpl. unfold ParseReference, showReference. cbn [rf_Scheme rf_Path rf_Field].
  change (scheme ++ ":" ++ ?x)%string with (scheme ++ String ":" x)%string.
  rewrite (Cut_app ":" scheme _ N1), (eqb_nonempty scheme Hs).
  assert (Hr : forall x, (path ++ x)%string <> ""%string) by (intros x; destruct path; [contradiction|done]).
  rewrite (eqb_nonempty _ (Hr _)). simpl. destruct (String.eqb_spec f "") as [->|Hf].
  - rewrite string_app_nil_r, (Cut_absent _ _ N2), (eqb_nonempty _ Hp). done.
  - change (path ++ "#" ++ f)%string with (path ++ String "#" f)%string. rewrite (Cut_app "#" path f N2), (eqb_nonempty _ Hp). done.
Qed.
