(* ===== verification/ResourceApi.v ===== *)
(** * Requests about resources

    Models the handlers of src/cmd/kronos/server.go for targets, storages,
    schedules, retention policies and notification rules, with the routes of
    targets and storages, which decide who may see secrets.

    The theorems show that an answer shows a secret only to a request that
    was granted the scope agent:write, and that a client which writes back
    what it was shown replaces the secrets by the mark of their redaction. *)

From Stdlib Require Import Ascii String.
From S2P Require Import Prelude ChunkHash Core Calendar GoStrings Cron Window Scheduler Documents GoText Tokens SecretOptions Resources Auth Secrets.
Local Open Scope Z_scope.

Definition redactedValue : string := "***REDACTED***".

Definition redactTarget (t : Target) : Target := withOptions t (redactOptions (tg_Options t)).
Definition redactStorage (so : Storage) : Storage := withStorageOptions so (redactOptions (so_Options so)).

Definition redactNotification (r : NotificationRule) : NotificationRule :=
  if negb (String.eqb (nr_Secret r) "")
  then mkNotificationRule (nr_ID r) (nr_Name r) (nr_Events r) (nr_WebhookURL r) redactedValue (nr_MaxAttempts r)
         (nr_Enabled r) (nr_CreatedAt r) (nr_UpdatedAt r)
  else r.

Definition placeholderOption (value : optval) : outcome unit :=
  match value with
  | OString text =>
      let trimmed := TrimSpace text in
      if negb (HasPrefix trimmed "${") then Ok tt
      else match ParsePlaceholder trimmed with
           | Ok (Some _) => Ok tt
           | Ok None => Err "secret reference must use ${scheme:path#field} syntax"
           | Err e => Err e
           | Panic e => Panic e
           | Fuel => Fuel
           end
  | _ => Ok tt
  end.

(** The first option that is refused; which one that is when there are
    several depends on the order Go visits the map in. *)
Fixpoint placeholders_loop (l : list (string * optval)) : outcome unit :=
  match l with
  | [] => Ok tt
  | (_, value) :: rest => _ <~ placeholderOption value ;; placeholders_loop rest
  end.

Definition validateResourceOptionPlaceholders (opts : options) : outcome unit := placeholders_loop (map_to_list opts).

(** ** What the handlers have in common *)

Section Common.
  Context {S A : Type} (audit : string -> string -> string -> M S unit) (kind : string).

(** [stamp id t] is the resource with its identifier and times. *)
Definition created {B} (what : string) (idOf : A -> string) (stamp : string -> A) (save : A -> M S unit)
  (newID : outcome string) (given : string) (show : A -> B) : handler S B :=
  attempt (mlift (if IDIsZero given then newID else Ok given)) (fun _ => HTTPError 500 ("create " ++ what ++ " id")) (fun id =>
  let a := stamp id in
  attempt (save a) (HTTPError 400) (fun _ => audited audit (kind ++ ".created") kind (idOf a) (show a))).

Definition updated {B} (what : string) (idOf : A -> string) (get : S -> outcome (option A)) (stamp : A -> A)
  (save : A -> M S unit) (show : A -> B) : handler S B :=
  attempt (readOnly get) (fun _ => HTTPError 500 ("get " ++ what)) (fun found =>
  match found with
  | None => fun s => (HTTPError 404 "not found", s)
  | Some existing =>
      let a := stamp existing in
      attempt (save a) (HTTPError 400) (fun _ => audited audit (kind ++ ".updated") kind (idOf a) (show a))
  end).

Definition deleted (what id : string) (get : S -> outcome (option A)) (delete : M S unit) : handler S unit :=
  attempt (readOnly get) (fun _ => HTTPError 500 ("get " ++ what)) (fun found =>
  match found with
  | None => fun s => (HTTPError 404 "not found", s)
  | Some _ => attempt delete (fun _ => HTTPError 500 ("delete " ++ what)) (fun _ => audited audit (kind ++ ".deleted") kind id tt)
  end).

Definition shown {B} (what : string) (get : S -> outcome (option A)) (show : A -> B) : handler S B :=
  attempt (readOnly get) (fun _ => HTTPError 500 ("get " ++ what)) (fun found =>
  match found with
  | None => fun s => (HTTPError 404 "not found", s)
  | Some a => answer (show a)
  end).

Definition listed {B} (what : string) (lister : S -> outcome (list A)) (show : A -> B) : handler S (list B) :=
  attempt (readOnly lister) (fun _ => HTTPError 500 ("list " ++ what)) (fun l => answer (map show l)).
End Common.

(** A body that does not decode. *)
Definition decoded {S A B} (msg : string) (body : option A) (k : A -> handler S B) : handler S B :=
  match body with
  | None => fun s => (HTTPError 400 msg, s)
  | Some a => k a
  end.

Section ResourceApi.
  Context {S : Type} `{KV S} `{Codec Target} `{Codec Storage} `{Codec Schedule} `{Codec StoredPolicy}
          `{Codec NotificationRule} `{Codec apiTokenRecord} `{Codec User}.
  Context (urlParse : string -> option URL) (loadLocation : string -> option Location)
          (protect reveal : options -> outcome options) (sha256 : string -> bytes)
          (audit : string -> string -> string -> M S unit).

(** ** Targets *)

Definition stampTarget (id : string) (times : Time * Time) (t : Target) : Target :=
  mkTarget id (tg_Name t) (tg_Driver t) (tg_Endpoint t) (tg_Database t) (tg_Options t) times.1 times.2 (tg_Labels t).

Definition handleListTargets (wantsSecrets : bool) : handler S (list Target) :=
  listed "targets" (TargetList reveal) (if wantsSecrets then (fun a => a) else redactTarget).

Definition handleCreateTarget (clock : Time) (newID : outcome string) (body : option Target) : handler S Target :=
  decoded "invalid target" body (fun a =>
  attempt (mlift (validateResourceOptionPlaceholders (tg_Options a))) (HTTPError 400) (fun _ =>
  created audit "target" "target" tg_ID (fun id => stampTarget id (stampTimes (tg_CreatedAt a) clock) a) (TargetSave protect) newID (tg_ID a) redactTarget)).

Definition handleGetTarget (wantsSecrets : bool) (id : string) : handler S Target :=
  shown "target" (TargetGet reveal id) (if wantsSecrets then (fun a => a) else redactTarget).

Definition handleUpdateTarget (clock : Time) (body : option Target) (id : string) : handler S Target :=
  decoded "invalid target" body (fun a =>
  attempt (mlift (validateResourceOptionPlaceholders (tg_Options a))) (HTTPError 400) (fun _ =>
  updated audit "target" "target" tg_ID (TargetGet reveal id)
    (fun existing => stampTarget id (stampTimes (tg_CreatedAt existing) clock) a) (TargetSave protect) redactTarget)).

Definition handleDeleteTarget (id : string) : handler S unit :=
  deleted audit "target" "target" id (TargetGet reveal id) (TargetDelete id).

(** ** Storages *)

Definition stampStorage (id : string) (times : Time * Time) (so : Storage) : Storage :=
  mkStorage id (so_Name so) (so_Kind so) (so_URI so) (so_Options so) times.1 times.2 (so_Labels so).

Definition handleListStorages (wantsSecrets : bool) : handler S (list Storage) :=
  listed "storages" (StorageList reveal) (if wantsSecrets then (fun a => a) else redactStorage).

Definition handleCreateStorage (clock : Time) (newID : outcome string) (body : option Storage) : handler S Storage :=
  decoded "invalid storage" body (fun a =>
  attempt (mlift (validateResourceOptionPlaceholders (so_Options a))) (HTTPError 400) (fun _ =>
  created audit "storage" "storage" so_ID (fun id => stampStorage id (stampTimes (so_CreatedAt a) clock) a) (StorageSave urlParse protect) newID (so_ID a) redactStorage)).

Definition handleGetStorage (wantsSecrets : bool) (id : string) : handler S Storage :=
  shown "storage" (StorageGet reveal id) (if wantsSecrets then (fun a => a) else redactStorage).

Definition handleUpdateStorage (clock : Time) (body : option Storage) (id : string) : handler S Storage :=
  decoded "invalid storage" body (fun a =>
  attempt (mlift (validateResourceOptionPlaceholders (so_Options a))) (HTTPError 400) (fun _ =>
  updated audit "storage" "storage" so_ID (StorageGet reveal id)
    (fun existing => stampStorage id (stampTimes (so_CreatedAt existing) clock) a) (StorageSave urlParse protect) redactStorage)).

Definition handleDeleteStorage (id : string) : handler S unit :=
  deleted audit "storage" "storage" id (StorageGet reveal id) (StorageDelete id).

(** ** Schedules, policies and notification rules *)

Definition stampSchedule (id : string) (times : Time * Time) (sc : Schedule) : Schedule :=
  mkSchedule id (sc_Name sc) (sc_TargetID sc) (sc_StorageID sc) (sc_BackupType sc) (sc_Expression sc)
    (sc_RetentionPolicy sc) (sc_Hooks sc) (sc_Paused sc) times.1 times.2 (sc_Labels sc).

Definition handleListSchedules : handler S (list Schedule) := listed "schedules" ScheduleList (fun a => a).

Definition handleCreateSchedule (clock : Time) (newID : outcome string) (body : option Schedule) : handler S Schedule :=
  decoded "invalid schedule" body (fun a =>
  created audit "schedule" "schedule" sc_ID (fun id => stampSchedule id (stampTimes (sc_CreatedAt a) clock) a) (ScheduleSave loadLocation) newID (sc_ID a) (fun a => a)).

Definition handleGetSchedule (id : string) : handler S Schedule := shown "schedule" (ScheduleGet id) (fun a => a).

Definition handleUpdateSchedule (clock : Time) (body : option Schedule) (id : string) : handler S Schedule :=
  decoded "invalid schedule" body (fun a =>
  updated audit "schedule" "schedule" sc_ID (ScheduleGet id)
    (fun existing => stampSchedule id (stampTimes (sc_CreatedAt existing) clock) a) (ScheduleSave loadLocation) (fun a => a)).

Definition handleDeleteSchedule (id : string) : handler S unit :=
  deleted audit "schedule" "schedule" id (ScheduleGet id) (ScheduleDelete id).

Definition withPaused (sc : Schedule) (paused : bool) (updatedAt : Time) : Schedule :=
  mkSchedule (sc_ID sc) (sc_Name sc) (sc_TargetID sc) (sc_StorageID sc) (sc_BackupType sc) (sc_Expression sc)
    (sc_RetentionPolicy sc) (sc_Hooks sc) paused (sc_CreatedAt sc) updatedAt (sc_Labels sc).

Definition handlePauseSchedule (clock : Time) (id : string) (paused : bool) : handler S Schedule :=
  attempt (readOnly (ScheduleGet id)) (fun _ => HTTPError 500 "get schedule") (fun found =>
  match found with
  | None => fun s => (HTTPError 404 "not found", s)
  | Some sc =>
      let sc := withPaused sc paused clock in
      attempt (ScheduleSave loadLocation sc) (HTTPError 400)
        (fun _ => audited audit (if paused then "schedule.paused" else "schedule.resumed") "schedule" (sc_ID sc) sc)
  end).

Definition stampPolicy (id : string) (times : Time * Time) (p : StoredPolicy) : StoredPolicy :=
  mkStoredPolicy id (sp_Name p) (sp_Rules p) times.1 times.2.

Definition handleListRetentionPolicies : handler S (list StoredPolicy) := listed "retention policies" PolicyList (fun a => a).

Definition handleCreateRetentionPolicy (clock : Time) (newID : outcome string) (body : option StoredPolicy) : handler S StoredPolicy :=
  decoded "invalid retention policy" body (fun a =>
  created audit "retention_policy" "retention policy" sp_ID (fun id => stampPolicy id (stampTimes (sp_CreatedAt a) clock) a) (PolicySave) newID (sp_ID a) (fun a => a)).

Definition handleGetRetentionPolicy (id : string) : handler S StoredPolicy := shown "retention policy" (PolicyGet id) (fun a => a).

Definition handleUpdateRetentionPolicy (clock : Time) (body : option StoredPolicy) (id : string) : handler S StoredPolicy :=
  decoded "invalid retention policy" body (fun a =>
  updated audit "retention_policy" "retention policy" sp_ID (PolicyGet id)
    (fun existing => stampPolicy id (stampTimes (sp_CreatedAt existing) clock) a) (PolicySave) (fun a => a)).

Definition handleDeleteRetentionPolicy (id : string) : handler S unit :=
  deleted audit "retention_policy" "retention policy" id (PolicyGet id) (PolicyDelete id).

Definition stampRule (id : string) (times : Time * Time) (r : NotificationRule) : NotificationRule :=
  mkNotificationRule id (nr_Name r) (nr_Events r) (nr_WebhookURL r) (nr_Secret r) (nr_MaxAttempts r) (nr_Enabled r)
    times.1 times.2.

Definition handleListNotifications (wantsSecrets : bool) : handler S (list NotificationRule) :=
  listed "notifications" RuleList (if wantsSecrets then (fun a => a) else redactNotification).

Definition handleCreateNotification (clock : Time) (newID : outcome string) (body : option NotificationRule)
  : handler S NotificationRule :=
  decoded "invalid notification" body (fun a =>
  created audit "notification" "notification" nr_ID (fun id => stampRule id (stampTimes (nr_CreatedAt a) clock) a)
    (RuleSave urlParse) newID (nr_ID a) redactNotification).

Definition handleGetNotification (wantsSecrets : bool) (id : string) : handler S NotificationRule :=
  shown "notification" (RuleGet id) (if wantsSecrets then (fun a => a) else redactNotification).

(** The creation time is kept only when the body has none. *)
Definition handleUpdateNotification (clock : Time) (body : option NotificationRule) (id : string)
  : handler S NotificationRule :=
  decoded "invalid notification" body (fun a =>
  updated audit "notification" "notification" nr_ID (RuleGet id)
    (fun existing => stampRule id (if TimeIsZero (nr_CreatedAt a) then nr_CreatedAt existing else nr_CreatedAt a, clock) a)
    (RuleSave urlParse) redactNotification).

Definition handleDeleteNotification (id : string) : handler S unit :=
  deleted audit "notification" "notification" id (RuleGet id) (RuleDelete id).

(** ** Routes *)

(** A route that needs [scope]; the handler runs when it is granted. *)
Definition scoped {B} (insecure : bool) (clock : Time) (r : httpRequest) (scope : string) (k : handler S B) : handler S B :=
  fun s => match requireScope sha256 insecure clock r scope s with
           | Granted _ => k s
           | Denied status msg => (HTTPError status msg, s)
           | AuthAborted => (Aborted, s)
           end.

(** GET of resources whose secrets need a scope of their own. *)
Definition secretScoped {B} (insecure : bool) (clock : Time) (r : httpRequest) (read secrets : string) (wantsSecrets : bool)
  (k : handler S B) : handler S B :=
  scoped insecure clock r read (if wantsSecrets then scoped insecure clock r secrets k else k).

Definition routeListTargets (insecure : bool) (clock : Time) (r : httpRequest) (wantsSecrets : bool) : handler S (list Target) :=
  secretScoped insecure clock r "target:read" "agent:write" wantsSecrets (handleListTargets wantsSecrets).

Definition routeGetTarget (insecure : bool) (clock : Time) (r : httpRequest) (wantsSecrets : bool) (id : string) : handler S Target :=
  secretScoped insecure clock r "target:read" "agent:write" wantsSecrets (handleGetTarget wantsSecrets id).

Definition routeCreateTarget (insecure : bool) (clock : Time) (r : httpRequest) (newID : outcome string) (body : option Target)
  : handler S Target :=
  scoped insecure clock r "target:write" (handleCreateTarget clock newID body).

Definition routeUpdateTarget (insecure : bool) (clock : Time) (r : httpRequest) (body : option Target) (id : string) : handler S Target :=
  scoped insecure clock r "target:write" (handleUpdateTarget clock body id).

Definition routeDeleteTarget (insecure : bool) (clock : Time) (r : httpRequest) (id : string) : handler S unit :=
  scoped insecure clock r "target:write" (handleDeleteTarget id).

Definition routeListStorages (insecure : bool) (clock : Time) (r : httpRequest) (wantsSecrets : bool) : handler S (list Storage) :=
  secretScoped insecure clock r "storage:read" "agent:write" wantsSecrets (handleListStorages wantsSecrets).

Definition routeGetStorage (insecure : bool) (clock : Time) (r : httpRequest) (wantsSecrets : bool) (id : string) : handler S Storage :=
  secretScoped insecure clock r "storage:read" "agent:write" wantsSecrets (handleGetStorage wantsSecrets id).

Definition routeListNotifications (insecure : bool) (clock : Time) (r : httpRequest) (wantsSecrets : bool)
  : handler S (list NotificationRule) :=
  secretScoped insecure clock r "notification:read" "notification:write" wantsSecrets (handleListNotifications wantsSecrets).

Definition routeGetNotification (insecure : bool) (clock : Time) (r : httpRequest) (wantsSecrets : bool) (id : string)
  : handler S NotificationRule :=
  secretScoped insecure clock r "notification:read" "notification:write" wantsSecrets (handleGetNotification wantsSecrets id).
End ResourceApi.

(** ** Who sees secrets *)

Lemma redactOptions_lookup opts k :
  redactOptions opts !! k = if isSecretOptionKey k then (fun _ => OString redactedValue) <$> opts !! k else opts !! k.
Proof.
  unfold redactOptions. rewrite map_lookup_imap. destruct (opts !! k); simpl; destruct (isSecretOptionKey k); done.
Qed.

(** Some option under a key of a secret is shown as it is. *)
Definition discloses (opts : options) : Prop :=
  exists k v, opts !! k = Some v /\ isSecretOptionKey k = true /\ v <> OString redactedValue.

Lemma redacted_discloses_not opts : ~ discloses (redactOptions opts).
Proof.
  intros (k & v & L & Hk & Hv). rewrite redactOptions_lookup, Hk in L.
  destruct (opts !! k); [|done]. simpl in L. congruence.
Qed.

Section Secrecy.
  Context {S : Type} `{KVLaws S} `{CodecLaws Target} `{CodecLaws Storage} `{CodecLaws apiTokenRecord} `{CodecLaws User}.
  Context (urlParse : string -> option URL) (protect reveal : options -> outcome options) (sha256 : string -> bytes)
          (audit : string -> string -> string -> M S unit)
          (audit_frame : forall a k i s, unchanged s (audit a k i s).2).

(** The request was granted [scope] in the state [s]. *)
Definition granted (insecure : bool) (clock : Time) (r : httpRequest) (scope : string) (s : S) : Prop :=
  exists actor, requireScope sha256 insecure clock r scope s = Granted actor.

Lemma scoped_reply {B} insecure clock r scope (k : handler S B) (s : S) b s' :
  scoped sha256 insecure clock r scope k s = (Reply b, s') -> granted insecure clock r scope s /\ k s = (Reply b, s').
Proof. unfold scoped, granted. destruct (requireScope _ _ _ _ _ s); try done. eauto. Qed.

Lemma secretScoped_reply {B} insecure clock r read secrets wants (k : handler S B) (s : S) b s' :
  secretScoped sha256 insecure clock r read secrets wants k s = (Reply b, s') ->
  k s = (Reply b, s') /\ (wants = true -> granted insecure clock r secrets s).
Proof.
  unfold secretScoped. intros E. apply scoped_reply in E as [_ E]. destruct wants; [|done].
  apply scoped_reply in E as [G E]. auto.
Qed.

Lemma listed_reply {A B} what (lister : S -> outcome (list A)) (show : A -> B) (s : S) l s' :
  listed what lister show s = (Reply l, s') -> forall b, In b l -> exists a, b = show a.
Proof.
  unfold listed. intros E. apply attempt_reply in E as (x & s1 & _ & E); [|done]. injection E as <- _.
  intros b Hb. apply in_map_iff in Hb as (a & <- & _). eauto.
Qed.

Lemma shown_reply {A B} what (get : S -> outcome (option A)) (show : A -> B) (s : S) b s' :
  shown what get show s = (Reply b, s') -> exists a, b = show a /\ get s = Ok (Some a) /\ s' = s.
Proof.
  unfold shown. intros E. apply attempt_reply in E as (x & s1 & G & E); [|done].
  destruct x as [a|]; [|done]. injection E as <- <-. injection G as G ->. eauto.
Qed.

(** C35: secrets are shown only to those who may claim jobs: when an answer
    to a request for one or all targets or storages shows the value of an
    option under the key of a secret, the request asked for secrets and was
    granted the scope agent:write. *)
Theorem secrets_need_agent_write insecure clock r wants id (s : S) :
  (forall l s' t, routeListTargets reveal sha256 insecure clock r wants s = (Reply l, s') -> In t l ->
     discloses (tg_Options t) -> wants = true /\ granted insecure clock r "agent:write" s) /\
  (forall t s', routeGetTarget reveal sha256 insecure clock r wants id s = (Reply t, s') ->
     discloses (tg_Options t) -> wants = true /\ granted insecure clock r "agent:write" s) /\
  (forall l s' so, routeListStorages reveal sha256 insecure clock r wants s = (Reply l, s') -> In so l ->
     discloses (so_Options so) -> wants = true /\ granted insecure clock r "agent:write" s) /\
  (forall so s', routeGetStorage reveal sha256 insecure clock r wants id s = (Reply so, s') ->
     discloses (so_Options so) -> wants = true /\ granted insecure clock r "agent:write" s).
Proof.
  assert (R : forall o, discloses (redactOptions o) -> False) by exact redacted_discloses_not.
  split_and!; intros x s'; [intros t| |intros so|]; intros E; apply secretScoped_reply in E as [E G].
  - intros Hin D. destruct wants; [auto|]. apply (listed_reply _ _ _ _ _ _ E) in Hin as (a & ->). now apply R in D.
  - intros D. destruct wants; [auto|]. apply shown_reply in E as (a & -> & _). now apply R in D.
  - intros Hin D. destruct wants; [auto|]. apply (listed_reply _ _ _ _ _ _ E) in Hin as (a & ->). now apply R in D.
  - intros D. destruct wants; [auto|]. apply shown_reply in E as (a & -> & _). now apply R in D.
Qed.

(** ** What was shown is written back *)

Lemma TargetSave_ok t (s s' : S) :
  TargetSave protect t s = (Ok tt, s') ->
  exists opts, protect (tg_Options t) = Ok opts /\ validateTarget t = Ok tt /\
    docs Target targetsBucket s' = <[tg_ID t := withOptions t opts]> (docs Target targetsBucket s).
Proof.
  unfold TargetSave. intros E. apply mbind_ok in E as ([] & s1 & V & E). injection V as V <-.
  apply mbind_ok in E as (opts & s2 & P & E). injection P as P <-. exists opts.
  apply saveJSON_cases in E as [(_ & _ & Sv & _)|[R _]]; [|done]. auto.
Qed.

Lemma TargetGet_stored id (s : S) r :
  TargetGet reveal id s = Ok r ->
  match docs Target targetsBucket s !! id with
  | None => r = None
  | Some t => exists opts, reveal (tg_Options t) = Ok opts /\ r = Some (withOptions t opts)
  end.
Proof.
  unfold TargetGet, revealTarget. intros E. apply obind_ok in E as (f & G & E). apply getJSON_docs in G as ->.
  destruct (docs Target targetsBucket s !! id) as [t|]; [|congruence].
  apply obind_ok in E as (t' & E & Et). apply obind_ok in E as (opts & E & Eo). injection Eo as <-. injection Et as <-. eauto.
Qed.

(** Writing back what was shown destroys the secrets: when a client sends
    a target as it was shown without secrets back as an update, and the
    update succeeds, every secret option of the target is replaced by the
    mark of its redaction. *)
Theorem writing_back_destroys_secrets clock id (s : S) shownTarget s1 answered s2 t k v :
  handleGetTarget reveal false id s = (Reply shownTarget, s1) ->
  TargetGet reveal id s = Ok (Some t) -> tg_Options t !! k = Some v -> isSecretOptionKey k = true ->
  handleUpdateTarget protect reveal audit clock (Some shownTarget) id s1 = (Reply answered, s2) ->
  (forall opts, protect (redactOptions (tg_Options t)) = Ok opts -> reveal opts = Ok (redactOptions (tg_Options t))) ->
  forall r, TargetGet reveal id s2 = Ok r ->
    exists t', r = Some t' /\ tg_Options t' !! k = Some (OString redactedValue).
Proof.
  intros G Ht Lk Hk E Rt r Hr. apply shown_reply in G as (a & -> & G & ->). rewrite Ht in G. injection G as <-.
  unfold handleUpdateTarget, decoded in E. apply attempt_reply in E as (u & s3 & V & E); [|done]. injection V as _ <-.
  apply attempt_reply in E as (f & s4 & G & E); [|done]. injection G as G <-. rewrite Ht in G. injection G as <-.
  apply attempt_reply in E as (u' & s5 & Sv & E); [|done]. destruct u'. apply TargetSave_ok in Sv as (opts & P & _ & D).
  simpl in P. apply Rt in P as R. apply (audited_reply audit audit_frame) in E as [_ U].
  apply TargetGet_stored in Hr. rewrite (docs_unchanged _ _ _ U), D in Hr. simpl in Hr. rewrite lookup_insert_eq in Hr.
  destruct Hr as (o & Ro & ->). simpl in Ro. rewrite R in Ro. injection Ro as <-. eexists. split; [done|].
  simpl. now rewrite redactOptions_lookup, Hk, Lk.
Qed.
End Secrecy.

(** ** A concrete target *)

#[local] Instance byte_eq : EqDecision Byte.byte := Byte.byte_eq_dec.
#[local] Instance encrypted_eq : EqDecision encryptedOptionValue.
Proof. solve_decision. Defined.

Definition optval_eq_dec : forall a b : optval, {a = b} + {a <> b}.
Proof.
  refine (fix go a b := _).
  destruct a as [|x|x|x|x|x|x|x], b as [|y|y|y|y|y|y|y]; try (right; discriminate); try (now left).
  - destruct (decide (x = y)); [left; congruence|right; congruence].
  - destruct (decide (x = y)); [left; congruence|right; congruence].
  - destruct (decide (x = y)); [left; congruence|right; congruence].
  - destruct (decide (x = y)); [left; congruence|right; congruence].
  - destruct (decide (x = y)); [left; congruence|right; congruence].
  - destruct (List.list_eq_dec (fun p q : string * optval => match p, q with
      | (k, v), (k', v') => match string_dec k k', go v v' with
                            | left E, left E' => left (f_equal2 pair E E')
                            | right N, _ => right (fun E : (k, v) = (k', v') => N (f_equal fst E))
                            | _, right N => right (fun E : (k, v) = (k', v') => N (f_equal snd E))
                            end end) x y); [left; congruence|right; congruence].
  - destruct (List.list_eq_dec go x y); [left; congruence|right; congruence].
Defined.

#[local] Instance optval_eq : EqDecision optval := optval_eq_dec.
#[local] Instance Target_eq : EqDecision Target.
Proof. solve_decision. Defined.

Definition vaultTarget : Target :=
  mkTarget "t1" "orders" "postgres" "db:5432" "orders" {["password" := OString "hunter2"]} 1 1 ∅.

Definition wipedTarget : Target :=
  mkTarget "t1" "orders" "postgres" "db:5432" "orders" {["password" := OString redactedValue]} 1 2 ∅.

#[local] Instance vaultTargets : Codec Target := listCodec [vaultTarget; wipedTarget].
#[local] Instance vaultStorages : Codec Storage := noCodec.
#[local] Instance vaultTokens : Codec apiTokenRecord := noCodec.
#[local] Instance vaultUsers : Codec User := noCodec.

Definition vault : gmap string (gmap string bytes) := (TargetSave (fun o => Ok o) vaultTarget ∅).2.

Definition silent : string -> string -> string -> M (gmap string (gmap string bytes)) unit := fun _ _ _ s => (Ok tt, s).

Definition anonymous : httpRequest := mkRequest "" "" "" "".

Lemma secrets_need_agent_write_witness :
  routeGetTarget (fun o => Ok o) (fun _ => []) true 2 anonymous true "t1" vault = (Reply vaultTarget, vault) /\
  discloses (tg_Options vaultTarget) /\
  granted (fun _ => []) true 2 anonymous "agent:write" vault.
Proof.
  assert (R : routeGetTarget (fun o => Ok o) (fun _ => []) true 2 anonymous true "t1" vault = (Reply vaultTarget, vault))
    by vmrefl.
  assert (D : discloses (tg_Options vaultTarget)).
  { exists "password"%string, (OString "hunter2"). split_and!; [reflexivity|reflexivity|discriminate]. }
  split; [exact R|]. split; [exact D|].
  apply (proj1 (proj2 (secrets_need_agent_write (fun o => Ok o) (fun _ => []) true 2 anonymous true "t1" vault)) vaultTarget vault R D).
Defined.

Definition rewritten : gmap string (gmap string bytes) :=
  (handleUpdateTarget (fun o => Ok o) (fun o => Ok o) silent 2 (Some (redactTarget vaultTarget)) "t1" vault).2.

Lemma writing_back_destroys_secrets_witness :
  exists t', TargetGet (fun o => Ok o) "t1" rewritten = Ok (Some t') /\
    tg_Options t' !! "password"%string = Some (OString redactedValue).
Proof.
  destruct (writing_back_destroys_secrets (H0 := memKVLaws) (H2 := listCodec_laws [vaultTarget; wipedTarget])
    (fun o => Ok o) (fun o => Ok o) silent (fun _ _ _ s b => eq_refl) 2 "t1" vault (redactTarget vaultTarget) vault
    (redactTarget wipedTarget) rewritten vaultTarget "password" (OString "hunter2")) with (r := Some wipedTarget)
    as (t' & E & L); try vmrefl.
  - intros opts E. symmetry. exact E.
  - exists t'. split; [|exact L]. rewrite <- E. vmrefl.
Defined.
