(* ===== verification/Config.v ===== *)
(** * The configuration

    Models src/internal/config: expand.go, the expansion of ${scheme:path}
    placeholders in the values of a YAML tree, and config.go, loading and
    validation. YAML, the files, time.ParseDuration and the order in which a
    map is walked are parameters.

    The theorems show that a text is expanded piece by piece and once, and
    which configurations are accepted. *)

From Stdlib Require Import Ascii String.
From S2P Require Import Prelude ChunkHash Core Calendar GoStrings GoText SecretOptions Documents Tokens Cron Window Scheduler Resources RateLimit Secrets LocalFiles.
Local Open Scope Z_scope.
#[local] Arguments String.append !_ _ / : simpl nomatch.

(** ** Expansion *)

(** What yaml.Unmarshal gives for a tree of unknown type; a map with keys
    that are not strings is a [YAnyMap]; the bindings are in the order they
    are walked in. *)
Inductive yaml : Type :=
  | YMap (m : list (string * yaml))
  | YAnyMap (m : list (yaml * yaml))
  | YList (l : list yaml)
  | YString (s : string)
  | YOther (text : string).

(** The text before and after the first occurrence of ${. *)
Fixpoint cutPlaceholder (s : string) : option (string * string) :=
  match s with
  | String "$" (String "{" rest) => Some (EmptyString, rest)
  | String c rest => match cutPlaceholder rest with Some (a, b) => Some (String c a, b) | None => None end
  | EmptyString => None
  end.

Section expand.
Context (resolve : Reference -> outcome string).

Fixpoint expand_loop (fuel : nat) (out remaining : string) : outcome string :=
  match cutPlaceholder remaining with
  | None => Ok (out ++ remaining)%string
  | Some (before, afterStart) =>
      match fuel with
      | O => Fuel
      | S fuel =>
          let '(name, rest, ok) := Cut "}" afterStart in
          if negb ok then Err "unterminated secret placeholder"
          else
            ref <~ ParseReference name ;;
            resolved <~ resolve ref ;;
            expand_loop fuel (out ++ before ++ resolved)%string rest
      end
  end.

Definition expandString (value : string) : outcome string := expand_loop (String.length value) EmptyString value.

(** The elements of a sequence, one after the other. *)
Definition each {A B} (f : A -> outcome B) : list A -> outcome (list B) :=
  fix go (l : list A) : outcome (list B) :=
  match l with
  | [] => Ok []
  | x :: rest => y <~ f x ;; ys <~ go rest ;; Ok (y :: ys)
  end.

Fixpoint expandValue (value : yaml) : outcome yaml :=
  match value with
  | YMap m => out <~ each (fun e => match e with (key, child) => expanded <~ expandValue child ;; Ok (key, expanded) end) m ;; Ok (YMap out)
  | YAnyMap m =>
      out <~ each (fun e => match e with
                            | (YString key, child) => expanded <~ expandValue child ;; Ok (key, expanded)
                            | _ => Err "yaml map key is not a string"
                            end) m ;;
      Ok (YMap out)
  | YList l => out <~ each expandValue l ;; Ok (YList out)
  | YString s => t <~ expandString s ;; Ok (YString t)
  | YOther text => Ok (YOther text)
  end.

Definition expandYAML (unmarshal : bytes -> option yaml) (marshal : yaml -> option bytes) (data : bytes) : outcome bytes :=
  match unmarshal data with
  | None => Err "parse yaml before expansion"
  | Some value =>
      expanded <~ expandValue value ;;
      match marshal expanded with Some out => Ok out | None => Err "marshal expanded yaml" end
  end.
End expand.

(** ** The configuration *)

Record TLSConfig := mkTLS { tl_Cert : string; tl_Key : string; tl_ClientCA : string }.

Record OIDCConfig := mkOIDC { oi_Issuer : string; oi_ClientID : string; oi_ClientSecret : string }.

Record AuthConfig := mkAuthConfig { ac_OIDC : OIDCConfig; ac_BootstrapToken : string; ac_TokenVerifyRateLimit : Z; ac_TokenVerifyRateWindow : string }.

Record ServerConfig := mkServerConfig
  { sv_Listen : string; sv_GRPCListen : string; sv_ListenWebUI : string; sv_DataDir : string; sv_TLS : TLSConfig; sv_Auth : AuthConfig;
    sv_MasterPassphrase : string; sv_MaxRequestBodyBytes : Z; sv_ReadHeaderTimeout : string; sv_ReadTimeout : string;
    sv_WriteTimeout : string; sv_IdleTimeout : string }.

Record StorageConfig := mkStorageConfig
  { stc_Name : string; stc_Backend : string; stc_Path : string; stc_Bucket : string; stc_Region : string; stc_Endpoint : string;
    stc_Credentials : string; stc_EncryptionKey : string; stc_Options : options }.

Record ConnectionConfig := mkConnection { cn_Host : string; cn_Port : Z; cn_User : string; cn_Password : string; cn_Database : string; cn_TLS : string }.

Record TargetConfig := mkTargetConfig
  { tgc_Name : string; tgc_Driver : string; tgc_Connection : ConnectionConfig; tgc_Agent : string; tgc_Tier : string; tgc_Options : options }.

Record HookAction := mkHookConfig { hc_Shell : string; hc_Webhook : string }.
Record HooksConfig := mkHooksConfig { hk_PreBackup : list HookAction; hk_OnFailure : list HookAction }.

Record ScheduleConfig := mkScheduleConfig
  { scc_Name : string; scc_Target : string; scc_Type : string; scc_Cron : string; scc_Storage : string; scc_Retention : string; scc_Hooks : HooksConfig }.

Record ProjectConfig := mkProject
  { pj_Name : string; pj_Storages : list StorageConfig; pj_Targets : list TargetConfig; pj_Schedules : list ScheduleConfig }.

Record NotificationConfig := mkNotification
  { no_Name : string; no_When : string; no_Events : list string; no_Webhook : string; no_Secret : string; no_MaxAttempts : Z; no_Channels : list string }.

Record Config := mkConfig { cf_Server : ServerConfig; cf_Projects : list ProjectConfig; cf_Notifications : list NotificationConfig }.

(** ** Validation *)

Section validate.
Context (ParseDuration : string -> option Z) (walk : list (string * string) -> list (string * string)).

(** The error of a check that fails. *)
Definition unless (ok : bool) (msg : string) : list string := if ok then [] else [msg].

Definition isBlank (s : string) : bool := String.eqb s "".
Definition definedIn (names : list string) (name : string) : bool := negb (isBlank name) && existsb (String.eqb name) names.

Definition timeouts (c : ServerConfig) : list (string * string) :=
  [("server.read_header_timeout", sv_ReadHeaderTimeout c); ("server.read_timeout", sv_ReadTimeout c);
   ("server.write_timeout", sv_WriteTimeout c); ("server.idle_timeout", sv_IdleTimeout c)]%string.

Definition checkTimeout (e : string * string) : list string :=
  if isBlank e.2 then []
  else match ParseDuration e.2 with
       | None => [e.1]
       | Some duration => unless (0 <? duration) (e.1 ++ " must be positive")
       end.

Definition validateServer (c : ServerConfig) : list string :=
  let cert := TrimSpace (tl_Cert (sv_TLS c)) in
  let key := TrimSpace (tl_Key (sv_TLS c)) in
  let clientCA := TrimSpace (tl_ClientCA (sv_TLS c)) in
  unless (negb (isBlank (sv_Listen c))) "server.listen is required" ++
  unless (negb (isBlank (sv_DataDir c))) "server.data_dir is required" ++
  unless (Bool.eqb (isBlank cert) (isBlank key)) "server.tls.cert and server.tls.key are required together" ++
  unless (isBlank clientCA || negb (isBlank cert || isBlank key)) "server.tls.client_ca requires server.tls.cert and server.tls.key" ++
  unless (0 <=? ac_TokenVerifyRateLimit (sv_Auth c)) "server.auth.token_verify_rate_limit must be non-negative" ++
  unless (0 <=? sv_MaxRequestBodyBytes c) "server.max_request_body_bytes must be non-negative" ++
  concat (map checkTimeout (walk (timeouts c))) ++
  unless (isBlank (ac_TokenVerifyRateWindow (sv_Auth c)) || match ParseDuration (ac_TokenVerifyRateWindow (sv_Auth c)) with Some _ => true | None => false end)
    "server.auth.token_verify_rate_window".

Definition eventsOf (n : NotificationConfig) : list string := no_Events n ++ (if isBlank (no_When n) then [] else [no_When n]).

Definition validateNotification (n : NotificationConfig) : list string :=
  unless (negb (length (eventsOf n) =? 0)%nat) "notifications.when or events is required" ++
  concat (map (fun event => unless (oneOf [NotificationJobSucceeded; NotificationJobFailed; NotificationJobCanceled] event) "notifications.event is not supported") (eventsOf n)) ++
  unless (negb (isBlank (no_Webhook n) && (length (no_Channels n) =? 0)%nat)) "notifications.webhook or channels is required" ++
  unless (0 <=? no_MaxAttempts n) "notifications.max_attempts must be non-negative".

Definition validateProject (p : ProjectConfig) : list string :=
  unless (negb (isBlank (pj_Name p))) "projects.name is required" ++
  concat (map (fun s => unless (negb (isBlank (stc_Name s))) "storages.name is required" ++ unless (negb (isBlank (stc_Backend s))) "storages.backend is required") (pj_Storages p)) ++
  concat (map (fun t => unless (negb (isBlank (tgc_Name t))) "targets.name is required" ++ unless (negb (isBlank (tgc_Driver t))) "targets.driver is required") (pj_Targets p)) ++
  concat (map (fun s => unless (negb (isBlank (scc_Name s))) "schedules.name is required" ++
                        unless (negb (isBlank (scc_Cron s))) "schedules.cron is required" ++
                        unless (definedIn (map tgc_Name (pj_Targets p)) (scc_Target s)) "schedules.target is not defined" ++
                        unless (definedIn (map stc_Name (pj_Storages p)) (scc_Storage s)) "schedules.storage is not defined") (pj_Schedules p)).

(** The errors that are joined; none is success. *)
Definition Validate (c : Config) : list string :=
  validateServer (cf_Server c) ++
  unless (negb (length (cf_Projects c) =? 0)%nat) "at least one project is required" ++
  concat (map validateNotification (cf_Notifications c)) ++
  concat (map validateProject (cf_Projects c)).

(** ** Loading *)

Definition Load (unmarshalTree : bytes -> option yaml) (marshalTree : yaml -> option bytes) (unmarshalConfig : bytes -> option Config)
    (resolve : Reference -> outcome string) (data : bytes) : outcome Config :=
  expanded <~ expandYAML resolve unmarshalTree marshalTree data ;;
  match unmarshalConfig expanded with
  | None => Err "parse yaml"
  | Some cfg => match Validate cfg with [] => Ok cfg | msg :: _ => Err msg end
  end.

(** A path of a file reference is taken from the directory of the file. *)
Definition withBaseDirResolver (baseDir : string) (resolve : Reference -> outcome string) (ref : Reference) : outcome string :=
  resolve (if String.eqb (rf_Scheme ref) "file" && negb (IsAbs (rf_Path ref))
           then mkReference (rf_Scheme ref) (JoinPath baseDir (rf_Path ref)) (rf_Field ref) else ref).

(** filepath.Dir *)
Definition pathDirOf (p : string) : string :=
  Clean (Join (removelast (SplitOn "/" p) ++ [EmptyString]) "/").

Definition LoadFile (unmarshalTree : bytes -> option yaml) (marshalTree : yaml -> option bytes) (unmarshalConfig : bytes -> option Config)
    (ReadFile : string -> option bytes) (resolve : Reference -> outcome string) (path : string) : outcome Config :=
  match ReadFile path with
  | None => Err "read config"
  | Some data => Load unmarshalTree marshalTree unmarshalConfig (withBaseDirResolver (pathDirOf path) resolve) data
  end.
End validate.

Example dir_examples : pathDirOf "/etc/kronos/k.yaml" = "/etc/kronos"%string /\ pathDirOf "k.yaml" = "."%string /\ pathDirOf "/k" = "/"%string.
Proof. vm_compute. repeat split. Qed.

(** ** Settings of the server *)

Section settings.
Context (ParseDuration : string -> option Z).

Definition defaultMaxRequestBodyBytes : Z := Z.shiftl 1 20.

Definition authRateLimitSettings (cfg : option Config) : Z * Z :=
  match cfg with
  | None => (authVerifyRateLimit, authVerifyRateWindow)
  | Some cfg =>
      let auth := sv_Auth (cf_Server cfg) in
      (if 0 <? ac_TokenVerifyRateLimit auth then ac_TokenVerifyRateLimit auth else authVerifyRateLimit,
       if String.eqb (ac_TokenVerifyRateWindow auth) "" then authVerifyRateWindow
       else match ParseDuration (ac_TokenVerifyRateWindow auth) with
            | Some parsed => if 0 <? parsed then parsed else authVerifyRateWindow
            | None => authVerifyRateWindow
            end)
  end.

Definition serverDuration (cfg : option Config) (name : string) (fallback : Z) : Z :=
  match cfg with
  | None => fallback
  | Some cfg =>
      let sv := cf_Server cfg in
      let chosen :=
        if String.eqb name "read_header_timeout" then Some (sv_ReadHeaderTimeout sv)
        else if String.eqb name "read_timeout" then Some (sv_ReadTimeout sv)
        else if String.eqb name "write_timeout" then Some (sv_WriteTimeout sv)
        else if String.eqb name "idle_timeout" then Some (sv_IdleTimeout sv)
        else None in
      match chosen with
      | None => fallback
      | Some raw =>
          if String.eqb (TrimSpace raw) "" then fallback
          else match ParseDuration raw with Some duration => if duration <=? 0 then fallback else duration | None => fallback end
      end
  end.

Definition maxRequestBodyBytes (cfg : option Config) : Z :=
  match cfg with
  | Some cfg => if 0 <? sv_MaxRequestBodyBytes (cf_Server cfg) then sv_MaxRequestBodyBytes (cf_Server cfg) else defaultMaxRequestBodyBytes
  | None => defaultMaxRequestBodyBytes
  end.
End settings.

(** What is asked of a client that connects. *)
Inductive serverTLS {Certificate Pool : Type} : Type :=
  | NoTLS
  | ServerTLS (certificate : Certificate) (clientCAs : option Pool).

Definition serverTLSConfig {Certificate Pool : Type} (loadKeyPair : string -> string -> option Certificate) (ReadFile : string -> option bytes)
    (certPool : bytes -> option Pool) (cfg : option Config) : outcome (serverTLS (Certificate := Certificate) (Pool := Pool)) :=
  match cfg with
  | None => Ok NoTLS
  | Some cfg =>
      let tls := sv_TLS (cf_Server cfg) in
      let certPath := TrimSpace (tl_Cert tls) in
      let keyPath := TrimSpace (tl_Key tls) in
      let clientCAPath := TrimSpace (tl_ClientCA tls) in
      if isBlank certPath && isBlank keyPath && isBlank clientCAPath then Ok NoTLS
      else if isBlank certPath || isBlank keyPath then Err "server.tls.cert and server.tls.key are required together"
      else match loadKeyPair certPath keyPath with
           | None => Err "load server tls certificate"
           | Some certificate =>
               if isBlank clientCAPath then Ok (ServerTLS certificate None)
               else match ReadFile clientCAPath with
                    | None => Err "read server.tls.client_ca"
                    | Some data => match certPool data with
                                   | None => Err "server.tls.client_ca does not contain PEM certificates"
                                   | Some pool => Ok (ServerTLS certificate (Some pool))
                                   end
                    end
           end
  end.

(** ** What is shown of them *)

(** A configuration that asks for certificates of clients never starts a
    server without them. *)
Lemma client_ca_required {Certificate Pool : Type} load read pool cfg (r : serverTLS (Certificate := Certificate) (Pool := Pool)) :
  serverTLSConfig load read pool (Some cfg) = Ok r -> isBlank (TrimSpace (tl_ClientCA (sv_TLS (cf_Server cfg)))) = false ->
  exists certificate cas, r = ServerTLS certificate (Some cas).
Proof.
  unfold serverTLSConfig. cbv zeta. intros H E. rewrite E, andb_false_r in H. destruct (_ || _); [discriminate|]. destruct (load _ _); [|discriminate].
  destruct (read _); [|discriminate]. destruct (pool _); [|discriminate]. injection H as <-. eauto.
Qed.

(** Pieces of a text: what is before a placeholder, and its reference. *)
Fixpoint render (pieces : list (string * Reference)) (tail : string) : string :=
  match pieces with
  | [] => tail
  | (text, ref) :: rest => (text ++ "${" ++ showReference ref ++ "}" ++ render rest tail)%string
  end.

Fixpoint expandPieces (resolve : Reference -> outcome string) (pieces : list (string * Reference)) (tail : string) : outcome string :=
  match pieces with
  | [] => Ok tail
  | (text, ref) :: rest =>
      resolved <~ resolve ref ;;
      expanded <~ expandPieces resolve rest tail ;;
      Ok (text ++ resolved ++ expanded)%string
  end.

(** A reference that is read back from its text, which does not close a
    placeholder. *)
Definition goodReference (ref : Reference) : Prop :=
  rf_Scheme ref <> ""%string /\ rf_Path ref <> ""%string /\ noByte ":" (rf_Scheme ref) = true /\ noByte "#" (rf_Path ref) = true /\
  noByte "}" (showReference ref) = true.

Definition goodPiece (p : string * Reference) : Prop := cutPlaceholder p.1 = None /\ goodReference p.2.

Lemma cutPlaceholder_app text rest : cutPlaceholder text = None -> cutPlaceholder (text ++ "${" ++ rest) = Some (text, rest).
Proof.
  induction text as [|c text IH]; [done|]. intros H.
  assert (Hc : cutPlaceholder text = None).
  { cbn [cutPlaceholder] in H. destruct (Ascii.eqb_spec c "$") as [->|Hc].
    - destruct text as [|d text]; [done|]. destruct (Ascii.eqb_spec d "{") as [->|Hd]; [discriminate|].
      destruct (cutPlaceholder (String d text)) as [[? ?]|] eqn:E; [|done].
      destruct d as [[] [] [] [] [] [] [] []]; cbn in H; try discriminate; rewrite ?E in H; try discriminate; done.
    - destruct (cutPlaceholder text) as [[? ?]|] eqn:E; [|done]. destruct c as [[] [] [] [] [] [] [] []]; try discriminate; done. }
  specialize (IH Hc). change ((String c text ++ "${" ++ rest)%string) with (String c (text ++ "${" ++ rest)).
  cbn [cutPlaceholder]. rewrite IH. destruct (Ascii.eqb_spec c "$") as [->|Hne].
  - destruct text as [|d text]; [done|]. change ((String d text ++ "${" ++ rest)%string) with (String d (text ++ "${" ++ rest)).
    destruct (Ascii.eqb_spec d "{") as [->|Hd]; [discriminate|]. destruct d as [[] [] [] [] [] [] [] []]; done.
  - destruct c as [[] [] [] [] [] [] [] []]; done.
Qed.

Lemma reference_roundtrip ref : goodReference ref -> ParseReference (showReference ref) = Ok ref.
Proof.
  intros (H1 & H2 & H3 & H4 & _). pose proof (placeholder_roundtrip ref H1 H2 H3 H4) as H. unfold ParsePlaceholder in H.
  rewrite HasPrefix_app in H. destruct (HasSuffix _ _); [|discriminate]. cbn [negb orb] in H.
  rewrite TrimPrefix_app, TrimSuffix_app in H. destruct (ParseReference (showReference ref)); cbn in H; congruence.
Qed.

Lemma render_length pieces tail : (length pieces <= String.length (render pieces tail))%nat.
Proof. induction pieces as [|[t r] rest IH]; cbn [render length]; [lia|]. rewrite !string_app_length. cbn [String.length]. lia. Qed.

Lemma expand_loop_pieces resolve tail pieces : Forall goodPiece pieces -> cutPlaceholder tail = None -> forall out fuel, (length pieces <= fuel)%nat ->
  expand_loop resolve fuel out (render pieces tail) = (t <~ expandPieces resolve pieces tail ;; Ok (out ++ t)%string).
Proof.
  intros Hg Ht. induction Hg as [|[text ref] rest [Hc Hr] Hg IH]; intros out fuel Hf.
  - destruct fuel; cbn [render expand_loop expandPieces]; now rewrite Ht.
  - destruct fuel as [|fuel]; [cbn in Hf; lia|]. cbn [render expand_loop expandPieces fst snd] in *. rewrite cutPlaceholder_app by done.
    pose proof Hr as (_ & _ & _ & _ & Hb). change ((showReference ref ++ "}" ++ ?x)%string) with (showReference ref ++ String "}" x)%string.
    rewrite (Cut_app "}" _ _ Hb). cbn [negb]. rewrite reference_roundtrip by done. cbn [obind]. destruct (resolve ref) as [v|e|e|]; cbn [obind]; try done.
    rewrite IH by (cbn in Hf; lia). destruct (expandPieces resolve rest tail); cbn [obind]; try done. now rewrite !string_append_assoc.
Qed.

(** A text is its pieces with the placeholders resolved, in their order; the
    values that are put in are not expanded again. *)
Lemma expand_pieces resolve pieces tail : Forall goodPiece pieces -> cutPlaceholder tail = None ->
  expandString resolve (render pieces tail) = expandPieces resolve pieces tail.
Proof.
  intros Hg Ht. unfold expandString. rewrite expand_loop_pieces by (done || apply render_length). now destruct (expandPieces resolve pieces tail).
Qed.

Lemma cutPlaceholder_length s a b : cutPlaceholder s = Some (a, b) -> (String.length b < String.length s)%nat.
Proof.
  revert a b. induction s as [|c s IH]; intros a b; [done|]. intros H.
  assert (Hcase : (exists r, s = String "{" r /\ b = r) \/ exists a', cutPlaceholder s = Some (a', b)).
  { cbn [cutPlaceholder] in H. destruct (cutPlaceholder s) as [[a' b']|] eqn:E.
    - destruct s as [|d s]; [discriminate|].
      destruct c as [[] [] [] [] [] [] [] []]; try (injection H as _ <-; right; eauto; fail).
      destruct d as [[] [] [] [] [] [] [] []]; try (injection H as _ <-; right; eauto; fail). injection H as _ <-. left. eauto.
    - destruct c as [[] [] [] [] [] [] [] []]; try discriminate. destruct s as [|d s]; [discriminate|].
      destruct d as [[] [] [] [] [] [] [] []]; try discriminate. injection H as _ <-. left. eauto. }
  destruct Hcase as [(r & -> & ->)|(a' & E)]; cbn [String.length]; [lia|]. apply IH in E. lia.
Qed.

Lemma Cut_length sep s a b ok : Cut sep s = (a, b, ok) -> (String.length b <= String.length s)%nat.
Proof.
  revert a b ok. induction s as [|c s IH]; intros a b ok; cbn [Cut]; [intros [= _ <- _]; done|].
  destruct (Ascii.eqb c sep); [intros [= _ <- _]; cbn; lia|]. destruct (Cut sep s) as [[x y] z] eqn:E. intros [= _ <- _].
  specialize (IH _ _ _ eq_refl). cbn. lia.
Qed.

(** Expansion ends on every text. *)
Lemma expand_ends resolve value : (forall ref, resolve ref <> Fuel) -> expandString resolve value <> Fuel.
Proof.
  intros Hr. unfold expandString. assert (H : forall fuel out remaining, (String.length remaining <= fuel)%nat -> expand_loop resolve fuel out remaining <> Fuel);
    [|now apply H]. induction fuel as [|fuel IH]; intros out remaining Hf; cbn [expand_loop].
  - destruct remaining; [done|cbn in Hf; lia].
  - destruct (cutPlaceholder remaining) as [[before afterStart]|] eqn:E; [|done]. apply cutPlaceholder_length in E.
    destruct (Cut "}" afterStart) as [[name rest] ok] eqn:Ec. apply Cut_length in Ec. destruct ok; [|done]. cbn [negb].
    unfold ParseReference. destruct (Cut ":" name) as [[? ?] ?]. destruct (negb _ || _ || _); [done|]. destruct (Cut "#" _) as [[? ?] ?].
    destruct (String.eqb _ ""); [done|]. cbn [obind]. pose proof (Hr (mkReference s s1 s2)). destruct (resolve _); try done. cbn [obind]. apply IH. lia.
Qed.

(** In a configuration that is accepted a schedule names a target and a
    storage of its project. *)
Lemma validated_schedule ParseDuration walk cfg p s : Validate ParseDuration walk cfg = [] -> In p (cf_Projects cfg) -> In s (pj_Schedules p) ->
  In (scc_Target s) (map tgc_Name (pj_Targets p)) /\ In (scc_Storage s) (map stc_Name (pj_Storages p)).
Proof.
  unfold Validate. intros H Hp Hs. do 3 apply app_eq_nil in H as [_ H]. rewrite concat_nil_Forall, List.Forall_map, List.Forall_forall in H. specialize (H p Hp).
  unfold validateProject in H. do 3 apply app_eq_nil in H as [_ H]. rewrite concat_nil_Forall, List.Forall_map, List.Forall_forall in H. specialize (H s Hs).
  do 2 apply app_eq_nil in H as [_ H]. apply app_eq_nil in H as [H1 H2]. unfold unless, definedIn in H1, H2.
  destruct (isBlank (scc_Target s)); [discriminate|]. destruct (isBlank (scc_Storage s)); [discriminate|]. cbn [negb andb] in H1, H2.
  destruct (existsb (String.eqb (scc_Target s)) _) eqn:E1; [|discriminate]. destruct (existsb (String.eqb (scc_Storage s)) _) eqn:E2; [|discriminate].
  apply existsb_exists in E1 as (x & Hx & ->%String.eqb_eq), E2 as (y & Hy & ->%String.eqb_eq). done.
Qed.

Definition demoResolve (ref : Reference) : outcome string :=
  if String.eqb (rf_Path ref) "HOST" then Ok "${env:HOST}"%string else if String.eqb (rf_Path ref) "PORT" then Ok "5432"%string else Err "not set"%string.

Example expand_examples :
  expandString demoResolve "db=${env:HOST}:${env:PORT}/x" = Ok "db=${env:HOST}:5432/x"%string /\
  expandString demoResolve "${env:NONE}" = Err "not set"%string /\ expandString demoResolve "a${env:HOST" = Err "unterminated secret placeholder"%string /\
  expandValue demoResolve (YMap [("a"%string, YList [YString "${env:PORT}"; YOther "1"])]) = Ok (YMap [("a"%string, YList [YString "5432"; YOther "1"])]).
Proof. vm_compute. repeat split. Qed.
