(* ===== verification/Seed.v ===== *)
(** * Seeding the stores from the configuration

    Models seedAPIStoresFromConfig of src/cmd/kronos/server.go and what it
    calls: at every start of the server the notifications, storages, targets
    and schedules of the configuration are saved in the stores. Stores that
    are not configured are left out.

    The theorems show that a seeded schedule refers to a stored target and
    storage and is not paused, whatever was in the stores before, and that a
    configuration with the encryption key of a storage starts no server. *)

From Stdlib Require Import Ascii String.
From S2P Require Import Prelude ChunkHash Core Calendar GoStrings GoText SecretOptions Documents Tokens Cron Window Scheduler Resources ResourceApi Config.
Local Open Scope Z_scope.
#[local] Arguments String.append !_ _ / : simpl nomatch.

Definition configResourceID (project name : string) : string := if String.eqb project "" then name else (project ++ "/" ++ name)%string.

(** The events, trimmed and without repetition. *)
Fixpoint distinctEvents (seen values : list string) : list string :=
  match values with
  | [] => []
  | value :: rest =>
      let event := TrimSpace value in
      if String.eqb event "" || existsb (String.eqb event) seen then distinctEvents seen rest
      else event :: distinctEvents (event :: seen) rest
  end.

Definition notificationEvents (n : NotificationConfig) : list string := distinctEvents [] (eventsOf n).

Definition notificationWebhooks (n : NotificationConfig) : list string :=
  (if String.eqb (no_Webhook n) "" then [] else [no_Webhook n]) ++ no_Channels n.

Definition hookActions (actions : list HookAction) : list JobHookAction := map (fun a => mkHookAction (hc_Shell a) (hc_Webhook a)) actions.

Definition scheduleHooks (hooks : HooksConfig) : JobHooks := mkHooks (hookActions (hk_PreBackup hooks)) (hookActions (hk_OnFailure hooks)).

Definition connectionEndpoint (c : ConnectionConfig) : string :=
  if String.eqb (cn_Host c) "" then EmptyString
  else if cn_Port c <=? 0 then cn_Host c else (cn_Host c ++ ":" ++ Itoa (cn_Port c))%string.

Definition storageURI (s : StorageConfig) : string :=
  if String.eqb (stc_Backend s) "local" then if String.eqb (stc_Path s) "" then EmptyString else ("file://" ++ stc_Path s)%string
  else if String.eqb (stc_Backend s) "s3" then if String.eqb (stc_Bucket s) "" then EmptyString else ("s3://" ++ stc_Bucket s)%string
  else if negb (String.eqb (stc_Path s) "") then (stc_Backend s ++ "://" ++ stc_Path s)%string
  else if negb (String.eqb (stc_Bucket s) "") then (stc_Backend s ++ "://" ++ stc_Bucket s)%string
  else EmptyString.

Definition setOption (key value : string) (out : options) : options := if String.eqb value "" then out else <[key := OString value]> out.

Definition storageOptions (s : StorageConfig) : options :=
  setOption "encryption_key" (stc_EncryptionKey s) (setOption "credentials" (stc_Credentials s)
    (setOption "endpoint" (stc_Endpoint s) (setOption "region" (stc_Region s) (stc_Options s)))).

Definition stringOption (opts : options) (key : string) : string := match opts !! key with Some (OString s) => s | _ => EmptyString end.

Definition targetOptions (t : TargetConfig) : options :=
  let c := tgc_Connection t in
  setOption "protocol" (stringOption (tgc_Options t) "protocol") (setOption "tls" (cn_TLS c)
    (setOption "password" (cn_Password c) (setOption "username" (cn_User c) (tgc_Options t)))).

(** A Go map built from the elements of a list: the last of a key stays. *)
Definition idsOf {A} (project : string) (name : A -> string) (l : list A) : gmap string string :=
  foldl (fun m x => <[name x := configResourceID project (name x)]> m) ∅ l.

Section seed.
  Context {S : Type} `{KV S} `{Codec Target} `{Codec Storage} `{Codec Schedule} `{Codec NotificationRule}.
  Context (urlParse : string -> option URL) (loadLocation : string -> option Location) (protect : options -> outcome options) (clock : Time).

Fixpoint forEachM {A} (op : A -> M S unit) (l : list A) : M S unit :=
  match l with [] => mret tt | x :: rest => _ <-- op x ;; forEachM op rest end.

(** The rule of one channel of the notification number [i]. *)
Definition notificationRule (now : Time) (i : nat) (n : NotificationConfig) (channel : nat * string) : NotificationRule :=
  let name := if String.eqb (no_Name n) "" then ("notification-" ++ Itoa (Z.of_nat i + 1))%string else no_Name n in
  let number := Itoa (Z.of_nat channel.1 + 1) in
  mkNotificationRule (if (0 <? channel.1)%nat then ("config/" ++ name ++ "/channel-" ++ number)%string else ("config/" ++ name)%string)
    (if (0 <? channel.1)%nat then (name ++ " channel " ++ number)%string else name)
    (notificationEvents n) channel.2 (no_Secret n) (no_MaxAttempts n) true now now.

Definition seedNotification (now : Time) (e : nat * NotificationConfig) : M S unit :=
  let webhooks := notificationWebhooks e.2 in
  forEachM (fun channel => RuleSave urlParse (notificationRule now e.1 e.2 channel)) (combine (seq 0 (length webhooks)) webhooks).

Definition projectLabel (p : ProjectConfig) : gmap string string := {["project"%string := pj_Name p]}.

Definition seededStorage (now : Time) (p : ProjectConfig) (s : StorageConfig) : Storage :=
  mkStorage (configResourceID (pj_Name p) (stc_Name s)) (stc_Name s) (stc_Backend s) (storageURI s) (storageOptions s) now now (projectLabel p).

Definition targetLabels (p : ProjectConfig) (t : TargetConfig) : gmap string string :=
  let labels := projectLabel p in
  let labels := if String.eqb (tgc_Agent t) "" then labels else <["agent"%string := tgc_Agent t]> labels in
  if String.eqb (tgc_Tier t) "" then labels else <["tier"%string := tgc_Tier t]> labels.

Definition seededTarget (now : Time) (p : ProjectConfig) (t : TargetConfig) : Target :=
  mkTarget (configResourceID (pj_Name p) (tgc_Name t)) (tgc_Name t) (tgc_Driver t) (connectionEndpoint (tgc_Connection t)) (cn_Database (tgc_Connection t))
    (targetOptions t) now now (targetLabels p t).

Definition seededSchedule (now : Time) (p : ProjectConfig) (targetIDs storageIDs : gmap string string) (s : ScheduleConfig) : Schedule :=
  mkSchedule (configResourceID (pj_Name p) (scc_Name s)) (scc_Name s) (default EmptyString (targetIDs !! scc_Target s)) (default EmptyString (storageIDs !! scc_Storage s))
    (if String.eqb (scc_Type s) "" then "full"%string else scc_Type s) (scc_Cron s) (scc_Retention s) (scheduleHooks (scc_Hooks s)) false now now (projectLabel p).

Definition seedProject (now : Time) (p : ProjectConfig) : M S unit :=
  let storageIDs := idsOf (pj_Name p) stc_Name (pj_Storages p) in
  let targetIDs := idsOf (pj_Name p) tgc_Name (pj_Targets p) in
  _ <-- forEachM (fun s => StorageSave urlParse protect (seededStorage now p s)) (pj_Storages p) ;;
  _ <-- forEachM (fun t => TargetSave protect (seededTarget now p t)) (pj_Targets p) ;;
  forEachM (fun s => ScheduleSave loadLocation (seededSchedule now p targetIDs storageIDs s)) (pj_Schedules p).

Definition seedAPIStoresFromConfig (cfg : option Config) (now : Time) : M S unit :=
  match cfg with
  | None => mret tt
  | Some cfg =>
      let now := if TimeIsZero now then clock else now in
      _ <-- forEachM (seedNotification now) (combine (seq 0 (length (cf_Notifications cfg))) (cf_Notifications cfg)) ;;
      forEachM (seedProject now) (cf_Projects cfg)
  end.
End seed.

(** ** What seeding leaves *)

Section proofs.
  Context {S : Type} `{KVLaws S} `{CodecLaws Target} `{CodecLaws Storage} `{CodecLaws Schedule} `{CodecLaws NotificationRule}.
  Context (urlParse : string -> option URL) (loadLocation : string -> option Location) (protect : options -> outcome options) (clock : Time).

(** What every step keeps and every step of its own element gives. *)
Lemma forEachM_keeps {A} (op : A -> M S unit) (P : S -> Prop) l : (forall x s s', In x l -> op x s = (Ok tt, s') -> P s -> P s') ->
  forall s s', forEachM op l s = (Ok tt, s') -> P s -> P s'.
Proof.
  induction l as [|x l IH]; intros Hk s s'; cbn [forEachM]; [intros [= <-]; done|]. intros H0' HP. apply mbind_ok in H0' as ([] & s1 & E1 & E2).
  apply (IH (fun y s s' Hy => Hk y s s' (or_intror Hy)) _ _ E2). exact (Hk x _ _ (or_introl eq_refl) E1 HP).
Qed.

Lemma forEachM_gives {A} (op : A -> M S unit) (P : S -> Prop) (Q : A -> S -> Prop) l :
  (forall x s s', In x l -> op x s = (Ok tt, s') -> P s -> P s' /\ Q x s' /\ forall y, Q y s -> Q y s') ->
  forall s s', forEachM op l s = (Ok tt, s') -> P s -> P s' /\ forall x, In x l -> Q x s'.
Proof.
  intros Hk. assert (H0' : forall done rest, done ++ rest = l -> forall s s', forEachM op rest s = (Ok tt, s') -> P s -> (forall x, In x done -> Q x s) ->
    P s' /\ forall x, In x l -> Q x s').
  { intros done rest. revert done. induction rest as [|x rest IH]; intros done' Hl s s'; cbn [forEachM].
    - intros [= <-] HP HQ. rewrite app_nil_r in Hl. subst. auto.
    - intros E HP HQ. apply mbind_ok in E as ([] & s1 & E1 & E2). assert (Hx : In x l) by (rewrite <- Hl; apply in_or_app; right; now left).
      destruct (Hk x s s1 Hx E1 HP) as (HP1 & HQ1 & Hm). apply (IH (done' ++ [x]) ltac:(now rewrite <- app_assoc) s1 s' E2 HP1).
      intros y Hy. apply in_app_or in Hy as [Hy|[<-|[]]]; auto. }
  intros s s' E HP. apply (H0' [] l eq_refl s s' E HP). intros x [].
Qed.

(** A loop with an element whose step never succeeds. *)
Lemma forEachM_fails {A} (op : A -> M S unit) x l : In x l -> (forall s s', op x s <> (Ok tt, s')) -> forall s s', forEachM op l s <> (Ok tt, s').
Proof.
  intros Hi Hx. induction l as [|y l IH]; [destruct Hi|]. intros s s' E. cbn [forEachM] in E. apply mbind_ok in E as ([] & s1 & E1 & E2).
  destruct Hi as [->|Hi]; [exact (Hx _ _ E1)|exact (IH Hi _ _ E2)].
Qed.

Lemma save_ok {A} `{CodecLaws A} b key (v : A) (s s' : S) : saveJSON b key v s = (Ok tt, s') -> saved b key v s s'.
Proof. intros E. apply saveJSON_cases in E as [(_ & _ & Sv)|[H' _]]; [done|discriminate H']. Qed.

Lemma storage_saved so (s s' : S) : StorageSave urlParse protect so s = (Ok tt, s') -> exists v, saved storagesBucket (so_ID so) v s s' (A := Storage).
Proof.
  unfold StorageSave. intros E. apply mbind_ok in E as ([] & s1 & [= _ <-] & E). apply mbind_ok in E as (opts & s2 & [= _ <-] & E).
  exists (withStorageOptions so opts). exact (save_ok _ _ _ _ _ E).
Qed.

Lemma target_saved t (s s' : S) : TargetSave protect t s = (Ok tt, s') -> exists v, saved targetsBucket (tg_ID t) v s s' (A := Target).
Proof.
  unfold TargetSave. intros E. apply mbind_ok in E as ([] & s1 & [= _ <-] & E). apply mbind_ok in E as (opts & s2 & [= _ <-] & E).
  exists (withOptions t opts). exact (save_ok _ _ _ _ _ E).
Qed.

Lemma schedule_saved sc (s s' : S) : ScheduleSave loadLocation sc s = (Ok tt, s') -> validateSchedule loadLocation sc = Ok tt /\ saved schedulesBucket (sc_ID sc) sc s s'.
Proof. unfold ScheduleSave. intros E. apply mbind_ok in E as ([] & s1 & [= V <-] & E). split; [done|]. exact (save_ok _ _ _ _ _ E). Qed.

Lemma rule_saved r (s s' : S) : RuleSave urlParse r s = (Ok tt, s') -> saved notificationsBucket (nr_ID r) r s s'.
Proof. unfold RuleSave. intros E. apply mbind_ok in E as ([] & s1 & [= _ <-] & E). exact (save_ok _ _ _ _ _ E). Qed.

Definition hasTarget (id : string) (s : S) : Prop := is_Some (docs Target targetsBucket s !! id).
Definition hasStorage (id : string) (s : S) : Prop := is_Some (docs Storage storagesBucket s !! id).

(** A schedule that is not paused and refers to what is stored. *)
Definition activeSchedule (now : Time) (id : string) (s : S) : Prop :=
  exists v, docs Schedule schedulesBucket s !! id = Some v /\ sc_Paused v = false /\ sc_CreatedAt v = now /\ hasTarget (sc_TargetID v) s /\ hasStorage (sc_StorageID v) s.

(** Nothing is removed, and the schedules are as they were. *)
Definition grows (s s' : S) : Prop :=
  (forall id, hasTarget id s -> hasTarget id s') /\ (forall id, hasStorage id s -> hasStorage id s') /\ docs Schedule schedulesBucket s' = docs Schedule schedulesBucket s.

Lemma grows_refl s : grows s s.
Proof. done. Qed.

Lemma grows_trans s1 s2 s3 : grows s1 s2 -> grows s2 s3 -> grows s1 s3.
Proof. intros (A1 & B1 & C1) (A2 & B2 & C2). split; [auto|]. split; [auto|congruence]. Qed.

Lemma active_grows now id s s' : grows s s' -> activeSchedule now id s -> activeSchedule now id s'.
Proof. intros (G1 & G2 & G3) (v & K1 & K2 & K3 & K4 & K5). exists v. rewrite G3. auto 10. Qed.

Lemma has_insert {A} (m : gmap string A) k v id : is_Some (m !! id) -> is_Some (<[k := v]> m !! id).
Proof. intros Hs. destruct (decide (k = id)) as [->|Hne]; [rewrite lookup_insert_eq; eauto|now rewrite lookup_insert_ne]. Qed.

(** A save in the bucket of targets, of storages or of rules. *)
Lemma target_grows id v (s s' : S) : saved targetsBucket id v s s' (A := Target) -> grows s s' /\ hasTarget id s'.
Proof.
  intros [E (m & C)]. unfold grows, hasTarget, hasStorage. rewrite (docs_other (B := Storage) _ _ _ storagesBucket _ C), (docs_other (B := Schedule) _ _ _ schedulesBucket _ C) by discriminate. rewrite E. split; [split; [|done]|].
  - intros i. apply has_insert.
  - rewrite lookup_insert_eq. eauto.
Qed.

Lemma storage_grows id v (s s' : S) : saved storagesBucket id v s s' (A := Storage) -> grows s s' /\ hasStorage id s'.
Proof.
  intros [E (m & C)]. unfold grows, hasTarget, hasStorage. rewrite (docs_other (B := Target) _ _ _ targetsBucket _ C), (docs_other (B := Schedule) _ _ _ schedulesBucket _ C) by discriminate. rewrite E. split; [split; [done|split; [|done]]|].
  - intros i. apply has_insert.
  - rewrite lookup_insert_eq. eauto.
Qed.

Lemma rule_grows id v (s s' : S) : saved notificationsBucket id v s s' (A := NotificationRule) -> grows s s'.
Proof. intros [_ (m & C)]. unfold grows, hasTarget, hasStorage. now rewrite (docs_other (B := Target) _ _ _ targetsBucket _ C), (docs_other (B := Storage) _ _ _ storagesBucket _ C), (docs_other (B := Schedule) _ _ _ schedulesBucket _ C) by discriminate. Qed.

Lemma idsOf_lookup {A} project (name : A -> string) l k id : idsOf project name l !! k = Some id -> exists x, In x l /\ id = configResourceID project (name x).
Proof.
  unfold idsOf. assert (Hg : forall l0 (m : gmap string string), (forall k id, m !! k = Some id -> exists x, In x l /\ id = configResourceID project (name x)) ->
    (forall x, In x l0 -> In x l) -> foldl (fun m x => <[name x := configResourceID project (name x)]> m) m l0 !! k = Some id -> exists x, In x l /\ id = configResourceID project (name x));
    [|apply (Hg l ∅); [intros ? ?; now rewrite lookup_empty|done]].
  induction l0 as [|x l0 IH]; intros m Hm Hi; [apply Hm|]. cbn [foldl]. apply IH; [|intros y Hy; apply Hi; now right].
  intros k' id'. rewrite lookup_insert_Some. intros [[_ <-]|[_ H']]; [|eauto]. exists x. split; [apply Hi; now left|done].
Qed.

Lemma schedule_ids sc : validateSchedule loadLocation sc = Ok tt -> sc_TargetID sc <> EmptyString /\ sc_StorageID sc <> EmptyString.
Proof.
  unfold validateSchedule. intros E. apply obind_ok in E as (? & _ & E). apply require_then in E as [_ E].
  apply obind_ok in E as (? & E1 & E). apply obind_ok in E as (? & E2 & _). split; intros Hz; [rewrite Hz in E1; discriminate E1|rewrite Hz in E2; discriminate E2].
Qed.

Lemma storages_seeded now p (s s' : S) : forEachM (fun x => StorageSave urlParse protect (seededStorage now p x)) (pj_Storages p) s = (Ok tt, s') ->
  grows s s' /\ forall x, In x (pj_Storages p) -> hasStorage (configResourceID (pj_Name p) (stc_Name x)) s'.
Proof.
  intros E. apply (forEachM_gives _ (grows s) (fun x t => hasStorage (configResourceID (pj_Name p) (stc_Name x)) t) _) with (2 := E); [|apply grows_refl].
  intros x t t' _ Hx Hg. apply storage_saved in Hx as (v & Hv). apply storage_grows in Hv as [G1 G2].
  split; [exact (grows_trans _ _ _ Hg G1)|]. split; [exact G2|]. intros y. apply G1.
Qed.

Lemma targets_seeded now p (s s' : S) : forEachM (fun x => TargetSave protect (seededTarget now p x)) (pj_Targets p) s = (Ok tt, s') ->
  grows s s' /\ forall x, In x (pj_Targets p) -> hasTarget (configResourceID (pj_Name p) (tgc_Name x)) s'.
Proof.
  intros E. apply (forEachM_gives _ (grows s) (fun x t => hasTarget (configResourceID (pj_Name p) (tgc_Name x)) t) _) with (2 := E); [|apply grows_refl].
  intros x t t' _ Hx Hg. apply target_saved in Hx as (v & Hv). apply target_grows in Hv as [G1 G2].
  split; [exact (grows_trans _ _ _ Hg G1)|]. split; [exact G2|]. intros y. apply G1.
Qed.

Lemma seedProject_active now p (s s' : S) : seedProject urlParse loadLocation protect now p s = (Ok tt, s') ->
  (forall id, activeSchedule now id s -> activeSchedule now id s') /\
  forall sc, In sc (pj_Schedules p) -> activeSchedule now (configResourceID (pj_Name p) (scc_Name sc)) s'.
Proof.
  unfold seedProject. intros E. apply mbind_ok in E as ([] & s1 & E1 & E). apply mbind_ok in E as ([] & s2 & E2 & E3).
  destruct (storages_seeded _ _ _ _ E1) as [G1 S1]. destruct (targets_seeded _ _ _ _ E2) as [G2 S2].
  set (P := fun t : S => (forall id, activeSchedule now id s -> activeSchedule now id t) /\ (forall id, hasTarget id s2 -> hasTarget id t) /\ (forall id, hasStorage id s2 -> hasStorage id t)).
  enough (Hend : P s' /\ forall sc, In sc (pj_Schedules p) -> activeSchedule now (configResourceID (pj_Name p) (scc_Name sc)) s') by (destruct Hend as [(? & _) ?]; auto).
  apply (forEachM_gives _ P (fun sc t => activeSchedule now (configResourceID (pj_Name p) (scc_Name sc)) t) _) with (s := s2) (2 := E3);
    [|split; [|done]; intros id Ha; apply (active_grows _ _ _ _ G2), (active_grows _ _ _ _ G1), Ha].
  intros sc t t' Hi Hx (P1 & P2 & P3). apply schedule_saved in Hx as [V [Es (m & C)]]. apply schedule_ids in V as [V1 V2].
  set (w := seededSchedule now p _ _ sc) in *. cbn [w seededSchedule sc_TargetID sc_StorageID] in V1, V2.
  assert (T : forall id, hasTarget id t' <-> hasTarget id t) by (intros id; unfold hasTarget; now rewrite (docs_other (B := Target) _ _ _ targetsBucket _ C) by discriminate).
  assert (U : forall id, hasStorage id t' <-> hasStorage id t) by (intros id; unfold hasStorage; now rewrite (docs_other (B := Storage) _ _ _ storagesBucket _ C) by discriminate).
  assert (New : activeSchedule now (sc_ID w) t').
  { exists w. rewrite Es, lookup_insert_eq. split; [done|]. split; [done|]. split; [done|]. rewrite T, U. cbn [w seededSchedule sc_TargetID sc_StorageID].
    destruct (idsOf _ tgc_Name _ !! scc_Target sc) as [ti|] eqn:Et; [|now destruct V1]. destruct (idsOf _ stc_Name _ !! scc_Storage sc) as [si|] eqn:Ei; [|now destruct V2].
    apply idsOf_lookup in Et as (x & Hxi & ->), Ei as (y & Hyi & ->). cbn [default]. split; [apply P2, S2, Hxi|apply P3, (proj1 (proj2 G2)), S1, Hyi]. }
  assert (Keep : forall id, activeSchedule now id t -> activeSchedule now id t').
  { intros id Ha. destruct (decide (id = sc_ID w)) as [->|Hne]; [exact New|]. destruct Ha as (v & K1 & K2 & K3 & K4 & K5). exists v.
    rewrite Es, lookup_insert_ne by congruence. rewrite T, U. auto 10. }
  split; [split; [auto|split; intros id ?; [now apply T, P2|now apply U, P3]]|]. split; [exact New|]. intros y. apply Keep.
Qed.

(** C28: after a start every schedule of the configuration is active, whatever
    the stores held before: it is stored, not paused, as if created at the
    start, and its target and storage are stored. A schedule that was paused
    before a restart is thereby resumed. *)
Theorem start_resumes_schedules cfg now s s' : seedAPIStoresFromConfig urlParse loadLocation protect clock (Some cfg) now s = (Ok tt, s') ->
  forall p sc, In p (cf_Projects cfg) -> In sc (pj_Schedules p) ->
  activeSchedule (if TimeIsZero now then clock else now) (configResourceID (pj_Name p) (scc_Name sc)) s'.
Proof.
  unfold seedAPIStoresFromConfig. intros E p sc Hp Hs. apply mbind_ok in E as ([] & s1 & _ & E).
  set (now' := if TimeIsZero now then clock else now) in *.
  assert (Hall : True /\ forall p, In p (cf_Projects cfg) -> forall sc, In sc (pj_Schedules p) -> activeSchedule now' (configResourceID (pj_Name p) (scc_Name sc)) s').
  { apply (forEachM_gives _ (fun _ => True) (fun p t => forall sc, In sc (pj_Schedules p) -> activeSchedule now' (configResourceID (pj_Name p) (scc_Name sc)) t) _) with (2 := E); [|done].
    intros x t t' _ Hx _. apply seedProject_active in Hx as [K G]. split; [done|]. split; [exact G|]. intros y Hy z Hz. apply K, Hy, Hz. }
  exact (proj2 Hall p Hp sc Hs).
Qed.

(** C29: a configuration in which a storage has an encryption key, as the one
    of the specification and of the tests, starts no server: the option is
    not one the store of storages accepts. *)
Theorem encryption_key_prevents_start cfg now s s' p st : In p (cf_Projects cfg) -> In st (pj_Storages p) -> stc_EncryptionKey st <> EmptyString ->
  seedAPIStoresFromConfig urlParse loadLocation protect clock (Some cfg) now s <> (Ok tt, s').
Proof.
  intros Hp Hs Hk E. unfold seedAPIStoresFromConfig in E. apply mbind_ok in E as ([] & s1 & _ & E). revert E. apply (forEachM_fails _ p _ Hp). clear s s' s1.
  intros s s' E. unfold seedProject in E. apply mbind_ok in E as ([] & s1 & E & _). revert E. apply (forEachM_fails _ st _ Hs). clear s s' s1.
  intros s s' E. unfold StorageSave in E. apply mbind_ok in E as ([] & s1 & [= V _] & _). unfold validateStorage in V.
  apply obind_ok in V as (? & _ & V). do 4 apply require_then in V as [_ V]. apply obind_ok in V as (? & _ & V).
  unfold validateOptions in V. apply require_then in V as [V _]. rewrite forallb_forall in V.
  specialize (V ("encryption_key"%string, OString (stc_EncryptionKey st))). discriminate V.
  apply list_elem_of_In, elem_of_map_to_list. cbn [seededStorage so_Options]. unfold storageOptions, setOption at 1.
  apply String.eqb_neq in Hk. rewrite Hk. apply lookup_insert_eq.
Qed.
End proofs.

(** ** A start *)

#[local] Instance byte_eq : EqDecision Byte.byte := Byte.byte_eq_dec.
#[local] Instance optval_eq : EqDecision optval := optval_eq_dec.
#[local] Instance Target_eq : EqDecision Target.
Proof. solve_decision. Defined.
#[local] Instance Storage_eq : EqDecision Storage.
Proof. solve_decision. Defined.
#[local] Instance Schedule_eq : EqDecision Schedule.
Proof. solve_decision. Defined.

Definition demoStorage (key : string) : StorageConfig := mkStorageConfig "local" "local" "/backups" "" "" "" "" key ∅.
Definition demoTarget : TargetConfig := mkTargetConfig "cache" "redis" (mkConnection "10.0.0.1" 6379 "" "" "" "") "" "" ∅.
Definition demoSchedule : ScheduleConfig := mkScheduleConfig "nightly" "cache" "" "0 2 * * *" "local" "" (mkHooksConfig [] []).
Definition demoProject (key : string) : ProjectConfig := mkProject "p" [demoStorage key] [demoTarget] [demoSchedule].
Definition demoServer : ServerConfig := mkServerConfig ":8500" "" "" "/data" (mkTLS "" "" "") (mkAuthConfig (mkOIDC "" "" "") "" 0 "") "" 0 "" "" "" "".
Definition demoConfig (key : string) : Config := mkConfig demoServer [demoProject key] [].

Definition demoIDs (name id : string) : gmap string string := {[name := id]}.
Definition activeNightly : Schedule := seededSchedule 5 (demoProject "") (demoIDs "cache" "p/cache") (demoIDs "local" "p/local") demoSchedule.

(** The schedule as an operator paused it. *)
Definition pausedNightly : Schedule :=
  mkSchedule (sc_ID activeNightly) (sc_Name activeNightly) (sc_TargetID activeNightly) (sc_StorageID activeNightly) (sc_BackupType activeNightly)
    (sc_Expression activeNightly) (sc_RetentionPolicy activeNightly) (sc_Hooks activeNightly) true 1 1 (sc_Labels activeNightly).

#[local] Instance seedTargets : Codec Target := listCodec [seededTarget 5 (demoProject "") demoTarget].
#[local] Instance seedStorages : Codec Storage := listCodec [seededStorage 5 (demoProject "") (demoStorage "")].
#[local] Instance seedSchedules : Codec Schedule := listCodec [activeNightly; pausedNightly].
#[local] Instance seedRules : Codec NotificationRule := noCodec.
#[local] Instance seedTargetsLaws : CodecLaws Target := listCodec_laws _.
#[local] Instance seedStoragesLaws : CodecLaws Storage := listCodec_laws _.
#[local] Instance seedSchedulesLaws : CodecLaws Schedule := listCodec_laws _.
#[local] Instance seedRulesLaws : CodecLaws NotificationRule := noCodec_laws.

Definition seedURL (s : string) : option URL := Some (mkURL "file" "" "/backups").
Definition demoSeed (key : string) : M (gmap string (gmap string bytes)) unit :=
  seedAPIStoresFromConfig seedURL (fun _ => None) (fun o => Ok o) 0 (Some (demoConfig key)) 5.

Definition pausedState : gmap string (gmap string bytes) := (ScheduleSave (fun _ => None) pausedNightly ∅).2.

Example seed_runs :
  docs Schedule schedulesBucket pausedState !! "p/nightly"%string = Some pausedNightly /\ (demoSeed "" pausedState).1 = Ok tt /\
  docs Schedule schedulesBucket (demoSeed "" pausedState).2 !! "p/nightly"%string = Some activeNightly /\
  (demoSeed "age" ∅).1 = Err "storage option is not supported"%string /\ Validate (fun _ => None) (fun l => l) (demoConfig "age") = [].
Proof. vm_compute. repeat split. Qed.

Lemma demo_started : demoSeed "" pausedState = (Ok tt, (demoSeed "" pausedState).2).
Proof. rewrite (surjective_pairing (demoSeed "" pausedState)) at 1. f_equal. Qed.

Lemma start_resumes_schedules_witness : activeSchedule (if TimeIsZero 5 then 0 else 5) (configResourceID "p" "nightly") (demoSeed "" pausedState).2.
Proof.
  pose proof demo_started as E. unfold demoSeed in E at 1.
  exact (start_resumes_schedules seedURL (fun _ => None) (fun o => Ok o) 0 (demoConfig "") 5 pausedState _ E (demoProject "") demoSchedule (or_introl eq_refl) (or_introl eq_refl)).
Defined.

Lemma encryption_key_prevents_start_witness : seedAPIStoresFromConfig seedURL (fun _ => None) (fun o => Ok o) 0 (Some (demoConfig "age")) 5 (∅ : gmap string (gmap string bytes)) <> (Ok tt, ∅).
Proof.
  exact (encryption_key_prevents_start seedURL (fun _ => None) (fun o => Ok o) 0 (demoConfig "age") 5 ∅ ∅ (demoProject "age") (demoStorage "age")
    (or_introl eq_refl) (or_introl eq_refl) ltac:(discriminate)).
Defined.
