(* ===== verification/Routes.v ===== *)
(** * The routes of the server

    Models the routing of newServerHandlerWithStoresAuth of
    src/cmd/kronos/server.go: which path and method reach which handler, and
    what is asked of a request before it runs. The patterns are matched as
    net/http's ServeMux does. The handlers themselves are modelled in Auth,
    JobApi, Claims, RetentionApi and ResourceApi; here they are names.

    The theorems show that a request reaches a handler only after the checks
    of its route, that without a token only health, readiness, the web
    interface, the check of tokens and the bootstrap are reached, and that a
    schedule of the configuration cannot be named in a path. *)

From Stdlib Require Import Ascii String.
From S2P Require Import Prelude ChunkHash Core Calendar GoStrings GoText SecretOptions Documents Tokens Resources Auth Secrets LocalFiles Config Seed.
Local Open Scope Z_scope.
#[local] Arguments String.append !_ _ / : simpl nomatch.

Inductive resource : Type :=
  | Agents | Audit | ApiTokens | Users | JobsR | BackupsR | Policies | Notifications | Targets | Storages | Schedules.

(** The handlers. *)
Inductive endpoint : Type :=
  | EHealth | EReady | EMetrics | EOverview | EWebUI | EHeartbeat | EVerifyAudit | EVerifyAuth | EBootstrap | EPruneTokens | ERevokeToken (id : string)
  | EGrantUser (id : string) | EClaimJob | EJobEvidence (id : string) | ECancelJob (id : string) | ERetryJob (id : string) | EFinishJob (id : string)
  | ESchedulerTick | EBackupNow | EProtectBackup (id : string) (protected : bool) | EVerifyBackup (id : string) | ERetentionPlan | ERetentionApply
  | ERestoreStart | ERestorePreview | EPauseSchedule (id : string) (paused : bool)
  | EList (r : resource) | ECreate (r : resource) | EGet (r : resource) (id : string) | EUpdate (r : resource) (id : string) | EDelete (r : resource) (id : string).

(** What is asked of a request: nothing, to be within the limit of attempts,
    the token of the bootstrap, or scopes, in this order. *)
Inductive guard : Type := Open | Limited | BootstrapToken | NeedScopes (scopes : list string).

Inductive action : Type :=
  | Redirect (path : string)
  | NotAllowed (methods : list string)
  | Serve (g : guard) (e : endpoint).

Definition allowMethods (methods : list string) (method : string) (next : action) : action :=
  if oneOf methods method then next else NotAllowed methods.

Definition scopedBy (scope : string) (e : endpoint) : action := Serve (NeedScopes [scope]) e.

(** A read whose secrets need a scope of their own. *)
Definition secretRead (read secret : string) (wantsSecrets : bool) (e : endpoint) : action :=
  Serve (NeedScopes (if wantsSecrets then [read; secret] else [read])) e.

(** ** Patterns *)

Definition patterns : list string :=
  ["/healthz"; "/readyz"; "/metrics"; "/api/v1/overview"; "/api/v1/agents/heartbeat"; "/api/v1/agents"; "/api/v1/agents/"; "/api/v1/audit"; "/api/v1/audit/verify";
   "/api/v1/auth/verify"; "/api/v1/bootstrap/admin"; "/api/v1/tokens"; "/api/v1/tokens/"; "/api/v1/users"; "/api/v1/users/"; "/api/v1/jobs"; "/api/v1/jobs/claim";
   "/api/v1/jobs/"; "/api/v1/scheduler/tick"; "/api/v1/backups/now"; "/api/v1/backups"; "/api/v1/backups/"; "/api/v1/retention/plan"; "/api/v1/retention/apply";
   "/api/v1/retention/policies"; "/api/v1/retention/policies/"; "/api/v1/notifications"; "/api/v1/notifications/"; "/api/v1/restore"; "/api/v1/restore/preview";
   "/api/v1/targets"; "/api/v1/targets/"; "/api/v1/storages"; "/api/v1/storages/"; "/api/v1/schedules"; "/api/v1/schedules/"; "/"]%string.

Definition matches (path pattern : string) : bool := if HasSuffix pattern "/" then HasPrefix path pattern else String.eqb path pattern.

(** The longest pattern that matches. *)
Definition longest (a b : string) : string := if (String.length a <? String.length b)%nat then b else a.

Definition muxPattern (path : string) : string := fold_left longest (List.filter (matches path) patterns) EmptyString.

(** The path a request is redirected to, if it is not that one. *)
Definition cleanPath (p : string) : string :=
  let p := if HasPrefix p "/" then p else ("/" ++ p)%string in
  let np := Clean p in
  if HasSuffix p "/" && negb (String.eqb np "/") then (np ++ "/")%string else np.

(** ** What each pattern does *)

Definition handleProcess (pattern method : string) : action :=
  if String.eqb pattern "/healthz" then allowMethods ["GET"; "HEAD"]%string method (Serve Open EHealth)
  else if String.eqb pattern "/readyz" then allowMethods ["GET"; "HEAD"]%string method (Serve Open EReady)
  else if String.eqb pattern "/metrics" then allowMethods ["GET"; "HEAD"]%string method (scopedBy "metrics:read" EMetrics)
  else allowMethods ["GET"; "HEAD"]%string method (scopedBy "metrics:read" EOverview).

Definition handleAgents (pattern method path : string) : action :=
  if String.eqb pattern "/api/v1/agents/heartbeat" then allowMethods ["POST"]%string method (scopedBy "agent:write" EHeartbeat)
  else if String.eqb pattern "/api/v1/agents" then allowMethods ["GET"]%string method (scopedBy "agent:read" (EList Agents))
  else allowMethods ["GET"]%string method (scopedBy "agent:read" (EGet Agents (TrimPrefix path "/api/v1/agents/"))).

Definition handleAudit (pattern method : string) : action :=
  if String.eqb pattern "/api/v1/audit" then allowMethods ["GET"]%string method (scopedBy "audit:read" (EList Audit))
  else if String.eqb pattern "/api/v1/audit/verify" then allowMethods ["POST"]%string method (scopedBy "audit:verify" EVerifyAudit)
  else if String.eqb pattern "/api/v1/auth/verify" then allowMethods ["POST"]%string method (Serve Limited EVerifyAuth)
  else allowMethods ["POST"]%string method (Serve BootstrapToken EBootstrap).

(** A collection that is listed and added to. *)
Definition collection (r : resource) (method : string) (list : action) (write : string) : action :=
  if String.eqb method "GET" then list
  else if String.eqb method "POST" then scopedBy write (ECreate r)
  else NotAllowed ["GET"; "POST"]%string.

(** The identifier and the action of a path below a collection. *)
Definition idAction (prefix path : string) : string * string := let '(id, rest, _) := Cut "/" (TrimPrefix path prefix) in (id, rest).

Definition asks (method action m a : string) : bool := String.eqb method m && String.eqb action a.

Definition handleToken (method path : string) : action :=
  if String.eqb (TrimPrefix path "/api/v1/tokens/") "prune" then allowMethods ["POST"]%string method (scopedBy "token:write" EPruneTokens)
  else
    let '(id, rest) := idAction "/api/v1/tokens/" path in
    if asks method rest "GET" "" then scopedBy "token:read" (EGet ApiTokens id)
    else if asks method rest "POST" "revoke" then scopedBy "token:write" (ERevokeToken id)
    else NotAllowed ["GET"; "POST"]%string.

Definition handleUser (method path : string) : action :=
  let '(id, rest) := idAction "/api/v1/users/" path in
  if asks method rest "GET" "" then scopedBy "user:read" (EGet Users id)
  else if asks method rest "DELETE" "" then scopedBy "user:write" (EDelete Users id)
  else if asks method rest "POST" "grant" then scopedBy "user:write" (EGrantUser id)
  else NotAllowed ["GET"; "DELETE"; "POST"]%string.

Definition handleJob (method path : string) : action :=
  let '(id, rest) := idAction "/api/v1/jobs/" path in
  if asks method rest "GET" "" then scopedBy "job:read" (EGet JobsR id)
  else if asks method rest "GET" "evidence" then scopedBy "job:read" (EJobEvidence id)
  else if asks method rest "POST" "cancel" then scopedBy "job:write" (ECancelJob id)
  else if asks method rest "POST" "retry" then scopedBy "job:write" (ERetryJob id)
  else if asks method rest "POST" "finish" then scopedBy "job:write" (EFinishJob id)
  else NotAllowed ["GET"; "POST"]%string.

Definition handleBackup (method path : string) : action :=
  let '(id, rest) := idAction "/api/v1/backups/" path in
  if asks method rest "GET" "" then scopedBy "backup:read" (EGet BackupsR id)
  else if asks method rest "POST" "protect" then scopedBy "backup:write" (EProtectBackup id true)
  else if asks method rest "POST" "unprotect" then scopedBy "backup:write" (EProtectBackup id false)
  else if asks method rest "POST" "verify" then scopedBy "backup:write" (EVerifyBackup id)
  else NotAllowed ["GET"; "POST"]%string.

(** A resource that is read, replaced and deleted; its identifier is all of
    the path that is left. *)
Definition handleItem (r : resource) (prefix write : string) (read : endpoint -> action) (method path : string) : action :=
  let id := TrimPrefix path prefix in
  if String.eqb method "GET" then read (EGet r id)
  else if String.eqb method "PUT" then scopedBy write (EUpdate r id)
  else if String.eqb method "DELETE" then scopedBy write (EDelete r id)
  else NotAllowed ["GET"; "PUT"; "DELETE"]%string.

Definition handleSchedule (method path : string) : action :=
  let '(id, rest) := idAction "/api/v1/schedules/" path in
  if asks method rest "GET" "" then scopedBy "schedule:read" (EGet Schedules id)
  else if asks method rest "PUT" "" then scopedBy "schedule:write" (EUpdate Schedules id)
  else if asks method rest "DELETE" "" then scopedBy "schedule:write" (EDelete Schedules id)
  else if asks method rest "POST" "pause" then scopedBy "schedule:write" (EPauseSchedule id true)
  else if asks method rest "POST" "resume" then scopedBy "schedule:write" (EPauseSchedule id false)
  else NotAllowed ["GET"; "PUT"; "DELETE"; "POST"]%string.

Definition handleJobs (pattern method path : string) : action :=
  if String.eqb pattern "/api/v1/jobs" then allowMethods ["GET"]%string method (scopedBy "job:read" (EList JobsR))
  else if String.eqb pattern "/api/v1/jobs/claim" then allowMethods ["POST"]%string method (scopedBy "job:write" EClaimJob)
  else if String.eqb pattern "/api/v1/jobs/" then handleJob method path
  else allowMethods ["POST"]%string method (scopedBy "schedule:write" ESchedulerTick).

Definition handleBackups (pattern method path : string) : action :=
  if String.eqb pattern "/api/v1/backups/now" then allowMethods ["POST"]%string method (scopedBy "backup:write" EBackupNow)
  else if String.eqb pattern "/api/v1/backups" then allowMethods ["GET"]%string method (scopedBy "backup:read" (EList BackupsR))
  else handleBackup method path.

Definition handleRetention (pattern method path : string) : action :=
  if String.eqb pattern "/api/v1/retention/plan" then allowMethods ["POST"]%string method (scopedBy "retention:read" ERetentionPlan)
  else if String.eqb pattern "/api/v1/retention/apply" then allowMethods ["POST"]%string method (scopedBy "retention:write" ERetentionApply)
  else if String.eqb pattern "/api/v1/retention/policies" then collection Policies method (scopedBy "retention:read" (EList Policies)) "retention:write"
  else handleItem Policies "/api/v1/retention/policies/" "retention:write" (scopedBy "retention:read") method path.

Definition handleRestore (pattern method : string) : action :=
  if String.eqb pattern "/api/v1/restore" then allowMethods ["POST"]%string method (scopedBy "restore:write" ERestoreStart)
  else allowMethods ["POST"]%string method (scopedBy "restore:read" ERestorePreview).

Definition handleNotifications (pattern method path : string) (wantsSecrets : bool) : action :=
  let read := secretRead "notification:read" "notification:write" wantsSecrets in
  if String.eqb pattern "/api/v1/notifications" then collection Notifications method (read (EList Notifications)) "notification:write"
  else handleItem Notifications "/api/v1/notifications/" "notification:write" read method path.

Definition handleTargets (pattern method path : string) (wantsSecrets : bool) : action :=
  let read := secretRead "target:read" "agent:write" wantsSecrets in
  if String.eqb pattern "/api/v1/targets" then collection Targets method (read (EList Targets)) "target:write"
  else handleItem Targets "/api/v1/targets/" "target:write" read method path.

Definition handleStorages (pattern method path : string) (wantsSecrets : bool) : action :=
  let read := secretRead "storage:read" "agent:write" wantsSecrets in
  if String.eqb pattern "/api/v1/storages" then collection Storages method (read (EList Storages)) "storage:write"
  else handleItem Storages "/api/v1/storages/" "storage:write" read method path.

Definition handleTokensUsers (pattern method path : string) : action :=
  if String.eqb pattern "/api/v1/tokens" then collection ApiTokens method (scopedBy "token:read" (EList ApiTokens)) "token:write"
  else if String.eqb pattern "/api/v1/tokens/" then handleToken method path
  else if String.eqb pattern "/api/v1/users" then collection Users method (scopedBy "user:read" (EList Users)) "user:write"
  else handleUser method path.

Definition handleSchedules (pattern method path : string) : action :=
  if String.eqb pattern "/api/v1/schedules" then collection Schedules method (scopedBy "schedule:read" (EList Schedules)) "schedule:write"
  else handleSchedule method path.

(** What the server does with a request for a path. *)
Definition route (method path : string) (wantsSecrets : bool) : action :=
  if negb (String.eqb (cleanPath path) path) then Redirect (cleanPath path)
  else
    let pattern := muxPattern path in
    if oneOf ["/healthz"; "/readyz"; "/metrics"; "/api/v1/overview"]%string pattern then handleProcess pattern method
    else if oneOf ["/api/v1/agents/heartbeat"; "/api/v1/agents"; "/api/v1/agents/"]%string pattern then handleAgents pattern method path
    else if oneOf ["/api/v1/audit"; "/api/v1/audit/verify"; "/api/v1/auth/verify"; "/api/v1/bootstrap/admin"]%string pattern then handleAudit pattern method
    else if oneOf ["/api/v1/tokens"; "/api/v1/tokens/"; "/api/v1/users"; "/api/v1/users/"]%string pattern then handleTokensUsers pattern method path
    else if oneOf ["/api/v1/jobs"; "/api/v1/jobs/claim"; "/api/v1/jobs/"; "/api/v1/scheduler/tick"]%string pattern then handleJobs pattern method path
    else if oneOf ["/api/v1/backups/now"; "/api/v1/backups"; "/api/v1/backups/"]%string pattern then handleBackups pattern method path
    else if oneOf ["/api/v1/retention/plan"; "/api/v1/retention/apply"; "/api/v1/retention/policies"; "/api/v1/retention/policies/"]%string pattern then handleRetention pattern method path
    else if oneOf ["/api/v1/notifications"; "/api/v1/notifications/"]%string pattern then handleNotifications pattern method path wantsSecrets
    else if oneOf ["/api/v1/restore"; "/api/v1/restore/preview"]%string pattern then handleRestore pattern method
    else if oneOf ["/api/v1/targets"; "/api/v1/targets/"]%string pattern then handleTargets pattern method path wantsSecrets
    else if oneOf ["/api/v1/storages"; "/api/v1/storages/"]%string pattern then handleStorages pattern method path wantsSecrets
    else if oneOf ["/api/v1/schedules"; "/api/v1/schedules/"]%string pattern then handleSchedules pattern method path
    else Serve Open EWebUI.

Example route_examples :
  route "GET" "/api/v1/backups/b1" false = Serve (NeedScopes ["backup:read"]) (EGet BackupsR "b1") /\
  route "POST" "/api/v1/backups/now" false = Serve (NeedScopes ["backup:write"]) EBackupNow /\
  route "PATCH" "/api/v1/schedules/missing" false = NotAllowed ["GET"; "PUT"; "DELETE"; "POST"] /\
  route "GET" "/api/v1/../x" false = Redirect "/api/x" /\ route "GET" "/assets/a.js" false = Serve Open EWebUI /\
  route "GET" "/api/v1/targets/t" true = Serve (NeedScopes ["target:read"; "agent:write"]) (EGet Targets "t").
Proof. vm_compute. repeat split. Qed.

(** ** Who reaches a handler *)

Section serve.
  Context {S : Type} `{KV S} `{Codec apiTokenRecord} `{Codec User} (sha256 : string -> bytes).

(** requireScope for one scope after the other. *)
Fixpoint requireScopes (insecure : bool) (clock : Time) (r : httpRequest) (scopes : list string) (s : S) : authResult :=
  match scopes with
  | [] => Granted (rq_Actor r)
  | [scope] => requireScope sha256 insecure clock r scope s
  | scope :: rest => match requireScope sha256 insecure clock r scope s with Granted _ => requireScopes insecure clock r rest s | denied => denied end
  end.

(** The handler that a request reaches, or what it is answered. [limited]
    tells whether the limit of attempts is reached. *)
Definition serveRequest (insecure limited : bool) (bootstrapToken : string) (clock : Time) (r : httpRequest) (method path : string) (wantsSecrets : bool) (s : S) : reply endpoint :=
  match route method path wantsSecrets with
  | Redirect _ => HTTPError 301 "Moved Permanently"
  | NotAllowed _ => HTTPError 405 "method not allowed"
  | Serve Open e => Reply e
  | Serve Limited e => if limited then HTTPError 429 "too many auth attempts" else Reply e
  | Serve BootstrapToken e => match requireBootstrapToken r bootstrapToken with Ok _ => Reply e | Err msg => HTTPError 401 msg | _ => Aborted end
  | Serve (NeedScopes scopes) e =>
      match requireScopes insecure clock r scopes s with Granted _ => Reply e | Denied status msg => HTTPError status msg | AuthAborted => Aborted end
  end.
End serve.

(** The name of a resource in scopes. *)
Definition scopeName (r : resource) : string :=
  match r with
  | Agents => "agent" | Audit => "audit" | ApiTokens => "token" | Users => "user" | JobsR => "job" | BackupsR => "backup"
  | Policies => "retention" | Notifications => "notification" | Targets => "target" | Storages => "storage" | Schedules => "schedule"
  end.

(** The scope that each handler is meant for; [None] for those that are open
    to all. *)
Definition needs (e : endpoint) : option string :=
  match e with
  | EHealth | EReady | EWebUI | EVerifyAuth | EBootstrap => None
  | EMetrics | EOverview => Some "metrics:read"
  | EHeartbeat => Some "agent:write"
  | EVerifyAudit => Some "audit:verify"
  | EPruneTokens | ERevokeToken _ => Some "token:write"
  | EGrantUser _ => Some "user:write"
  | EJobEvidence _ => Some "job:read"
  | EClaimJob | ECancelJob _ | ERetryJob _ | EFinishJob _ => Some "job:write"
  | ESchedulerTick | EPauseSchedule _ _ => Some "schedule:write"
  | EBackupNow | EProtectBackup _ _ | EVerifyBackup _ => Some "backup:write"
  | ERetentionPlan => Some "retention:read"
  | ERetentionApply => Some "retention:write"
  | ERestoreStart => Some "restore:write"
  | ERestorePreview => Some "restore:read"
  | EList r | EGet r _ => Some (scopeName r ++ ":read")
  | ECreate r | EUpdate r _ | EDelete r _ => Some (scopeName r ++ ":write")
  end%string.

(** The guard asks first for the scope of the handler. *)
Definition guarded (a : action) : Prop :=
  match a with
  | Serve (NeedScopes (scope :: _)) e => needs e = Some scope
  | Serve _ e => needs e = None
  | _ => True
  end.

Ltac route_done := first [exact eq_refl | exact I].

Lemma guarded_methods methods method a : guarded a -> guarded (allowMethods methods method a).
Proof. unfold allowMethods. now destruct (oneOf methods method). Qed.

Lemma guarded_secret read secret w e : needs e = Some read -> guarded (secretRead read secret w e).
Proof. unfold secretRead. destruct w; exact (fun H => H). Qed.

Lemma guarded_collection r method l write : guarded l -> write = (scopeName r ++ ":write")%string -> guarded (collection r method l write).
Proof. intros Hl ->. unfold collection. repeat case_match; try exact Hl; route_done. Qed.

Lemma guarded_item r prefix write read method path : (forall id, guarded (read (EGet r id))) -> write = (scopeName r ++ ":write")%string ->
  guarded (handleItem r prefix write read method path).
Proof. intros Hr ->. unfold handleItem. repeat case_match; try apply Hr; route_done. Qed.

(** Every route asks for the scope of its handler. *)
Lemma route_guarded method path w : guarded (route method path w).
Proof.
  unfold route. destruct (negb _); [done|]. cbv zeta. generalize (muxPattern path). intros pattern.
  repeat match goal with |- guarded (if ?b then _ else _) => destruct b end; try done;
    unfold handleProcess, handleAgents, handleAudit, handleTokensUsers, handleJobs, handleBackups, handleRetention, handleNotifications, handleRestore,
      handleTargets, handleStorages, handleSchedules;
    repeat match goal with |- guarded (if ?b then _ else _) => destruct b end;
    try (apply guarded_methods; route_done); try (apply guarded_collection; [try apply guarded_secret; route_done|done]);
    try (apply guarded_item; [intros id; try apply guarded_secret; route_done|done]);
    unfold handleToken, handleUser, handleJob, handleBackup, handleSchedule, idAction; repeat case_match; try apply guarded_methods; route_done.
Qed.

(** C26: a request reaches a handler only with the scope the handler is meant
    for, granted to it by requireScope; the handlers that need none are
    health, readiness, the web interface, the check of a token and the
    bootstrap of the first administrator. So without a token, and without the
    insecure mode, nothing else is reached. *)
Theorem handlers_need_scopes {S} `{KV S} `{Codec apiTokenRecord} `{Codec User} sha256 insecure limited bootstrapToken clock r method path w (s : S) e :
  serveRequest sha256 insecure limited bootstrapToken clock r method path w s = Reply e ->
  match needs e with
  | Some scope => exists actor, requireScope sha256 insecure clock r scope s = Granted actor
  | None => In e [EHealth; EReady; EWebUI; EVerifyAuth; EBootstrap]
  end /\
  (insecure = false -> TrimSpace (rq_Authorization r) = EmptyString -> needs e = None).
Proof.
  intros E. assert (Hs : match needs e with Some scope => exists actor, requireScope sha256 insecure clock r scope s = Granted actor | None => True end).
  { unfold serveRequest in E. pose proof (route_guarded method path w) as G. destruct (route method path w) as [|?|g e']; try discriminate.
    destruct g as [| | |scopes]; cbn [guarded] in G.
    - injection E as <-. now rewrite G.
    - destruct limited; [discriminate|]. injection E as <-. now rewrite G.
    - destruct (requireBootstrapToken _ _); try discriminate. injection E as <-. now rewrite G.
    - destruct scopes as [|scope rest]; cbn [requireScopes] in E; [injection E as <-; now rewrite G|].
      assert (e = e') as -> by (destruct rest; repeat case_match; congruence). rewrite G.
      destruct rest; destruct (requireScope sha256 insecure clock r scope s) eqn:Er; try discriminate; eauto. }
  split.
  - destruct (needs e) eqn:En; [exact Hs|]. destruct e; try discriminate En; cbn; auto 10.
  - intros -> Ha. destruct (needs e) as [scope|]; [|done]. destruct Hs as [actor Hs]. unfold requireScope in Hs. rewrite Ha in Hs. discriminate Hs.
Qed.

(** ** Schedules in paths *)

Definition scheduleOf (e : endpoint) : option string :=
  match e with
  | EGet Schedules id | EUpdate Schedules id | EDelete Schedules id | EPauseSchedule id _ => Some id
  | _ => None
  end.

Lemma Cut_noByte sep s : noByte sep (Cut sep s).1.1 = true.
Proof.
  induction s as [|c s IH]; [done|]. cbn [Cut]. destruct (Ascii.eqb c sep) eqn:Ec; [done|]. destruct (Cut sep s) as [[a b] ok]. cbn in *. now rewrite Ec.
Qed.

(** No schedule of a route has a slash in its identifier. *)
Definition plainSchedule (a : action) : Prop :=
  match a with Serve _ e => match scheduleOf e with Some id => noByte "/" id = true | None => True end | _ => True end.

Lemma plain_methods methods method a : plainSchedule a -> plainSchedule (allowMethods methods method a).
Proof. unfold allowMethods. now destruct (oneOf methods method). Qed.

Lemma plain_item r prefix write read method path : r <> Schedules -> (forall id, plainSchedule (read (EGet r id))) -> plainSchedule (handleItem r prefix write read method path).
Proof. intros Hr Hread. unfold handleItem. repeat case_match; try apply Hread; destruct r; first [exact I | done]. Qed.

Lemma route_plain method path w : plainSchedule (route method path w).
Proof.
  unfold route. destruct (negb _); [done|]. cbv zeta. generalize (muxPattern path). intros pattern.
  repeat match goal with |- plainSchedule (if ?b then _ else _) => destruct b end; try done;
    unfold handleProcess, handleAgents, handleAudit, handleTokensUsers, handleJobs, handleBackups, handleRetention, handleNotifications, handleRestore,
      handleTargets, handleStorages, handleSchedules;
    repeat match goal with |- plainSchedule (if ?b then _ else _) => destruct b end;
    try (apply plain_item; [discriminate|intros id; first [exact I | unfold secretRead; destruct w; exact I]]); try (apply plain_methods; exact I);
    try (unfold collection, secretRead, scopedBy; repeat case_match; exact I);
    unfold handleToken, handleUser, handleJob, handleBackup, handleSchedule;
    try (destruct (String.eqb _ "prune"); [apply plain_methods; exact I|]);
    unfold idAction; match goal with |- context [Cut "/" ?p] => pose proof (Cut_noByte "/" p) as Hc; destruct (Cut "/" p) as [[id rest] ok] end;
    repeat match goal with |- plainSchedule (if ?b then _ else _) => destruct b end; first [exact I | exact Hc].
Qed.


(** ** Requests *)

#[local] Instance noTokens : Codec apiTokenRecord := noCodec.
#[local] Instance noUsers : Codec User := noCodec.

Definition anonymousRequest : httpRequest := mkRequest "" "" "" "".
Definition serveDemo (insecure : bool) (method path : string) : reply endpoint :=
  serveRequest (fun _ => []) insecure false "" 1 anonymousRequest method path false (∅ : gmap string (gmap string bytes)).

Example serve_examples :
  serveDemo false "GET" "/healthz" = Reply EHealth /\ serveDemo false "POST" "/api/v1/backups/now" = HTTPError 401 "authorization required" /\
  serveDemo true "POST" "/api/v1/backups/now" = Reply EBackupNow /\ serveDemo false "POST" "/api/v1/bootstrap/admin" = Reply EBootstrap.
Proof. vm_compute. repeat split. Qed.

Lemma handlers_need_scopes_witness : exists actor, requireScope (fun _ => []) true 1 anonymousRequest "backup:write" (∅ : gmap string (gmap string bytes)) = Granted actor.
Proof.
  exact (proj1 (handlers_need_scopes (fun _ => []) true false "" 1 anonymousRequest "POST" "/api/v1/backups/now" false (∅ : gmap string (gmap string bytes)) EBackupNow eq_refl)).
Defined.

