(* ===== verification/Engine.v ===== *)
(** * The backup engine

    Models src/internal/engine/backup.go and the records of
    src/internal/drivers/driver.go and registry.go. A driver is what the
    engine sees of it: the records it writes in a backup, and what it does
    with the stream of a restore. The goroutine of the driver and the
    pipeline are joined by a pipe: the pipeline reads what the driver wrote,
    in any pieces, and a write to a pipe whose reader has gone fails.

    encoding/json is the class [RecordCodec]; sort.Slice is a parameter, any
    sorted arrangement of the references.

    The lemmas show that the driver of a restore is given exactly the records
    that the driver of the backup wrote. *)

From Stdlib Require Import Ascii String.
From S2P Require Import Prelude KvNode KvMap ChunkHash Core Calendar GoStrings GoText Envelope FastCDC ChunkIndex Pipeline PipelineProofs Manifest Repository.
Local Open Scope Z_scope.

(** ** Drivers *)

Record ObjectRef := mkObjectRef { ob_Schema : string; ob_Name : string; ob_Kind : string }.

Record DRecord := mkDRecord
  { rc_Object : ObjectRef; rc_Payload : bytes; rc_Rows : Z; rc_Done : bool }.

Record ResumePoint := mkResumePoint
  { rp_Driver : string; rp_Position : string; rp_Time : Time; rp_Metadata : gmap string string }.

Record DTarget := mkDTarget
  { dt_Name : string; dt_Driver : string; dt_Connection : gmap string string; dt_Options : gmap string string }.

Record RestoreOptions := mkRestoreOptions
  { ro_ReplaceExisting : bool; ro_DryRun : bool; ro_Metadata : gmap string string }.

(** A driver, with the state its database is in: the records a backup writes
    before it returns, with its result, and, for the bytes of a restore, how
    many of them it takes from the pipe before it returns, with its result. *)
Record Driver := mkDriver
  { dv_Name : string;
    dv_Version : DTarget -> outcome string;
    dv_BackupFull : DTarget -> list DRecord * outcome ResumePoint;
    dv_BackupIncremental : DTarget -> Manifest -> list DRecord * outcome ResumePoint;
    dv_Restore : DTarget -> RestoreOptions -> bytes -> nat * outcome unit }.

Definition ErrIncrementalUnsupported : string := "incremental backup unsupported".

(** errors.Is: the error itself or one that wraps it. *)
Definition incrementalUnsupported (e : string) : bool :=
  (String.eqb e ErrIncrementalUnsupported || HasSuffix e (": " ++ ErrIncrementalUnsupported))%string.

Definition EOF : string := "EOF".

(** ** Records in the stream *)

(** A json.Encoder and a json.Decoder of records. [decodeRecords] gives what
    the decoder reads until its first error, and that error; strings that are
    not UTF-8 do not survive, so that the law is about [rc_plain] records. *)
Class RecordCodec := {
  encodeRecord : DRecord -> bytes;
  decodeRecords : bytes -> list DRecord * string;
  rc_plain : DRecord -> Prop
}.

Definition writeRecord `{RecordCodec} (record : DRecord) : bytes := encodeRecord record ++ [Byte.x0a].

Class RecordCodecLaws `{RecordCodec} := {
  records_roundtrip : forall rs, Forall rc_plain rs -> decodeRecords (concat (map writeRecord rs)) = (rs, EOF)
}.

Section Records.
  Context `{RecordCodec}.

Definition WriteRecord (obj : ObjectRef) (payload : bytes) : bytes := writeRecord (mkDRecord obj payload 0 false).

Definition FinishObject (obj : ObjectRef) (rows : Z) : bytes := writeRecord (mkDRecord obj [] rows true).

Definition recordStream (rs : list DRecord) : bytes := concat (map writeRecord rs).

(** A driver that reads records until NextRecord reports an error. *)
Definition readsAll (f : list DRecord -> string -> outcome unit) (stream : bytes) : nat * outcome unit :=
  let '(records, err) := decodeRecords stream in (length stream, f records err).
End Records.

(** ** The engine *)

Record BackupResult := mkBackupResult
  { br_ResumePoint : ResumePoint; br_Chunks : list ChunkRef; br_Stats : Stats }.

(** What reading a pipe gives when [data] was written to it and it was closed. *)
Definition pipeReader (data : bytes) (r : list read_result) : Prop := regular r /\ content r = data.

Section Engine.
  Context `{RecordCodec} (hashBytes : bytes -> bytes) (gzip zstd : Compressor) {B : Type} `{BE : Backend B}.
  (** The order sort.Slice leaves the references of a restore in. *)
  Context (order : list ChunkRef -> list ChunkRef).

(** The records [rs] of a driver run through the pipeline. *)
Definition fed (rs : list DRecord) (p : Pipeline) (d : dedup) (b : B) (result : outcome (list ChunkRef * Stats))
    (d' : dedup) (b' : B) : Prop :=
  exists r, pipeReader (recordStream rs) r /\ Feed hashBytes p r d b result d' b'.

(** An error of the pipeline comes before one of the driver. *)
Inductive BackupFull (driver : Driver) (target : DTarget) (p : Pipeline) (d : dedup) (b : B)
    : outcome BackupResult -> dedup -> B -> Prop :=
| bf_feed_error e d' b' :
    fed (dv_BackupFull driver target).1 p d b (Err e) d' b' -> BackupFull driver target p d b (Err e) d' b'
| bf_driver_error refs st e d' b' :
    fed (dv_BackupFull driver target).1 p d b (Ok (refs, st)) d' b' -> (dv_BackupFull driver target).2 = Err e ->
    BackupFull driver target p d b (Err e) d' b'
| bf_done refs st point d' b' :
    fed (dv_BackupFull driver target).1 p d b (Ok (refs, st)) d' b' -> (dv_BackupFull driver target).2 = Ok point ->
    BackupFull driver target p d b (Ok (mkBackupResult point refs st)) d' b'.

(** When the driver has no incremental backups, a full one follows. *)
Inductive BackupIncremental (driver : Driver) (target : DTarget) (parent : Manifest) (p : Pipeline) (d : dedup) (b : B)
    : outcome BackupResult -> dedup -> B -> Prop :=
| bi_feed_error e d' b' :
    fed (dv_BackupIncremental driver target parent).1 p d b (Err e) d' b' ->
    BackupIncremental driver target parent p d b (Err e) d' b'
| bi_driver_error refs st e d' b' :
    fed (dv_BackupIncremental driver target parent).1 p d b (Ok (refs, st)) d' b' ->
    (dv_BackupIncremental driver target parent).2 = Err e -> incrementalUnsupported e = false ->
    BackupIncremental driver target parent p d b (Err e) d' b'
| bi_unsupported refs st e d1 b1 result d' b' :
    fed (dv_BackupIncremental driver target parent).1 p d b (Ok (refs, st)) d1 b1 ->
    (dv_BackupIncremental driver target parent).2 = Err e -> incrementalUnsupported e = true ->
    BackupFull driver target p d1 b1 result d' b' ->
    BackupIncremental driver target parent p d b result d' b'
| bi_done refs st point d' b' :
    fed (dv_BackupIncremental driver target parent).1 p d b (Ok (refs, st)) d' b' ->
    (dv_BackupIncremental driver target parent).2 = Ok point ->
    BackupIncremental driver target parent p d b (Ok (mkBackupResult point refs st)) d' b'.

(** [Pipeline.Restore] with the order of sort.Slice. *)
Definition RestoreIn (p : Pipeline) (b : B) (refs : list ChunkRef) : outcome Stats * bytes :=
  match pl_cipher p with
  | None => (Err "cipher is required", [])
  | Some cipher => restore_loop hashBytes gzip zstd p cipher b (order refs) noStats []
  end.

(** [Restore]: the driver is given what the pipeline writes. When it returns
    before it has taken all of it, a write of the pipeline fails. *)
Definition Restore (driver : Driver) (target : DTarget) (p : Pipeline) (b : B) (refs : list ChunkRef)
    (opts : RestoreOptions) : outcome Stats :=
  let '(result, out) := RestoreIn p b refs in
  let '(taken, driverErr) := dv_Restore driver target opts out in
  if (taken <? length out)%nat then Err "restore chunk: io: read/write on closed pipe"
  else stats <~ result ;; _ <~ driverErr ;; Ok stats.
End Engine.

(** ** The order of references *)

Definition seq_before (x y : ChunkRef) : Prop := cr_seq x < cr_seq y.

(** What sort.Slice by sequence number guarantees. *)
Definition sorts (order : list ChunkRef -> list ChunkRef) : Prop :=
  forall l, order l ≡ₚ l /\ StronglySorted (fun x y => ref_less y x = false) (order l).

Lemma sort_by_sorts : sorts (sort_by ref_less).
Proof.
  intros l. split; [apply sort_by_perm|]. apply sort_by_sorted; unfold ref_less; intros.
  - apply Z.ltb_irrefl.
  - rewrite Z.ltb_lt in *. lia.
  - rewrite Z.ltb_ge in *. lia.
Qed.

(** [refs_loop] numbers the references. *)
Lemma refs_loop_numbered i refs out :
  refs_loop i refs = Ok out ->
  StronglySorted seq_before out /\ Forall (fun ref => i <= cr_seq ref) out /\
  (forall ref rest, out = ref :: rest -> cr_seq ref = i) /\ length out = length refs.
Proof.
  revert i out. induction refs as [|ref refs IH]; intros i out; simpl; [intros [= <-]; repeat constructor; done|].
  intros E. apply obind_ok in E as (h & _ & E). apply obind_ok in E as (rest & R & E). injection E as <-.
  apply IH in R as (S & F & _ & L). split_and!; [..|simpl; lia].
  - constructor; [done|]. eapply Forall_impl; [exact F|]. unfold seq_before. simpl. lia.
  - constructor; [simpl; lia|]. eapply Forall_impl; [exact F|]. simpl. lia.
  - now intros r l [= <- _].
Qed.

(** A sorted arrangement of references with different numbers is unique. *)
Lemma sorted_unique l l' :
  StronglySorted seq_before l -> StronglySorted (fun x y => ref_less y x = false) l' -> l' ≡ₚ l -> l' = l.
Proof.
  intros Hs. revert l'. induction Hs as [|x l Hs IH Hx]; intros l' Hs' P; [now apply Permutation_nil_r in P|].
  inversion Hs' as [|y l2 Hs2 Hy]; subst; [now apply Permutation_nil_l in P|].
  assert (y = x) as ->.
  { assert (Hin : y ∈ x :: l) by (rewrite <- P; set_solver). apply elem_of_cons in Hin as [|Hin]; [done|].
    rewrite Forall_forall in Hx. specialize (Hx y Hin). unfold seq_before in Hx.
    assert (Hx' : x ∈ y :: l2) by (rewrite P; set_solver). apply elem_of_cons in Hx' as [->|Hx']; [done|].
    rewrite Forall_forall in Hy. specialize (Hy x Hx'). unfold ref_less in Hy. rewrite Z.ltb_ge in Hy. lia. }
  f_equal. apply IH; [done|]. now apply Permutation_cons_inv in P.
Qed.

Lemma seq_before_sorted l : StronglySorted seq_before l -> StronglySorted (fun x y => ref_less y x = false) l.
Proof.
  induction 1 as [|x l Hs IH Hx]; constructor; [done|]. eapply Forall_impl; [exact Hx|].
  unfold seq_before, ref_less. intros y Hxy. apply Z.ltb_ge. lia.
Qed.

(** The references of one manifest are restored in their order. *)
Lemma order_numbered order i refs out :
  sorts order -> refs_loop i refs = Ok out -> order out = out /\ sort_by ref_less out = out.
Proof.
  intros Ho R. apply refs_loop_numbered in R as (S & _).
  destruct (Ho out) as [P1 S1]. destruct (sort_by_sorts out) as [P2 S2]. split; now apply sorted_unique.
Qed.

(** The references of two manifests are not: whatever is left of the order,
    the first reference of the second manifest comes before the second
    reference of the first. *)
Lemma order_two_manifests order c1 c2 r1 r2 rs s1 ss :
  sorts order -> PipelineRefs c1 = Ok (r1 :: r2 :: rs) -> PipelineRefs c2 = Ok (s1 :: ss) ->
  exists rest, order ((r1 :: r2 :: rs) ++ s1 :: ss) = r1 :: s1 :: rest \/
               order ((r1 :: r2 :: rs) ++ s1 :: ss) = s1 :: r1 :: rest.
Proof.
  intros Ho R1 R2. apply refs_loop_numbered in R1 as (S1 & _ & H1 & _). apply refs_loop_numbered in R2 as (S2 & _ & H2 & _).
  specialize (H1 _ _ eq_refl). specialize (H2 _ _ eq_refl).
  destruct (Ho ((r1 :: r2 :: rs) ++ s1 :: ss)) as [P S]. revert P S. generalize (order ((r1 :: r2 :: rs) ++ s1 :: ss)).
  intros l P S.
  assert (P' : l ≡ₚ r1 :: s1 :: (r2 :: rs) ++ ss).
  { rewrite P. simpl. apply Permutation_skip. change (r2 :: rs ++ s1 :: ss) with ((r2 :: rs) ++ s1 :: ss).
    rewrite <- Permutation_middle. done. }
  assert (Hlater : forall x, x ∈ (r2 :: rs) ++ ss -> 0 < cr_seq x).
  { inversion S1 as [|? ? _ F1]; subst. inversion S2 as [|? ? _ F2]; subst. unfold seq_before in *.
    rewrite Forall_forall in F1, F2. intros x Hx. apply elem_of_app in Hx as [Hx|Hx]; [apply F1 in Hx|apply F2 in Hx]; lia. }
  assert (Hfirst : forall x l2 others z, StronglySorted (fun x y => ref_less y x = false) (x :: l2) ->
    x :: l2 ≡ₚ z :: others -> cr_seq z = 0 -> cr_seq x <= 0).
  { intros x l2 others z Sx Px Hz. assert (Hin : z ∈ x :: l2) by (rewrite Px; set_solver).
    apply elem_of_cons in Hin as [->|Hin]; [lia|]. inversion Sx as [|? ? _ Fx]; subst. rewrite Forall_forall in Fx.
    apply Fx in Hin. unfold ref_less in Hin. rewrite Z.ltb_ge in Hin. lia. }
  assert (Hrest : forall z l2, StronglySorted (fun x y => ref_less y x = false) l2 ->
    l2 ≡ₚ z :: (r2 :: rs) ++ ss -> cr_seq z = 0 -> exists rest, l2 = z :: rest).
  { intros z [|y l2] Sy Py Hz; [now apply Permutation_nil_l in Py|]. exists l2. f_equal.
    assert (Hin : y ∈ z :: (r2 :: rs) ++ ss) by (rewrite <- Py; set_solver).
    apply elem_of_cons in Hin as [|Hin]; [done|]. apply Hlater in Hin. pose proof (Hfirst _ _ _ _ Sy Py Hz). lia. }
  destruct l as [|x l]; [now apply Permutation_nil_l in P'|]. inversion S as [|? ? Sl _]; subst.
  pose proof (Hfirst _ _ _ _ S P' H1) as Hx0.
  assert (Hin : x ∈ r1 :: s1 :: (r2 :: rs) ++ ss) by (rewrite <- P'; set_solver).
  apply elem_of_cons in Hin as [->|Hin]; [|apply elem_of_cons in Hin as [->|Hin]; [|apply Hlater in Hin; lia]].
  - apply Permutation_cons_inv, Hrest in P' as [rest ->]; eauto.
  - assert (P2 : s1 :: l ≡ₚ s1 :: r1 :: (r2 :: rs) ++ ss) by (rewrite P'; apply Permutation_swap).
    apply Permutation_cons_inv, Hrest in P2 as [rest ->]; eauto.
Qed.

(** ** What a restore writes *)

Section Stream.
  Context `{RecordCodecLaws} (hashBytes : bytes -> bytes) (gzip zstd : Compressor) {B : Type} `{BE : Backend B}.
  Context (order : list ChunkRef -> list ChunkRef) (order_sorts : sorts order).

(** The plain data of a stored chunk. *)
Definition chunkData (p : Pipeline) (cipher : Cipher) (b : B) (ref : ChunkRef) : bytes :=
  (restoreChunk hashBytes gzip zstd p cipher b ref).2.

Lemma restore_loop_data p cipher b refs st out st' out' :
  restore_loop hashBytes gzip zstd p cipher b refs st out = (Ok st', out') ->
  out' = out ++ concat (map (chunkData p cipher b) refs) /\
  st_bytesIn st' = st_bytesIn st + zlen (concat (map (chunkData p cipher b) refs)) /\
  st_chunks st' = st_chunks st + zlen refs.
Proof.
  revert st out. induction refs as [|ref refs IH]; intros st out; cbn [restore_loop map concat].
  - intros [= <- <-]. rewrite app_nil_r. unfold zlen. simpl. split_and!; [done|lia|lia].
  - unfold chunkData at 1 3. destruct (restoreChunk _ _ _ p cipher b ref) as [[size|e|e|] data] eqn:R; try done.
    intros E. apply IH in E as (-> & E & C). cbn [st_bytesIn st_chunks] in *.
    assert (size = zlen data) as ->.
    { unfold restoreChunk in R. destruct (_ =? 0)%nat; [done|]. destruct (obind _ _) as [x|e|e|]; try done.
      destruct (negb (beqb _ _)); [done|]. destruct (_ && _); [done|]. congruence. }
    cbn [snd]. unfold zlen in *. rewrite length_app. cbn [length]. split_and!; [now rewrite app_assoc|lia|lia].
Qed.

(** A restore of the references of one manifest is that of the pipeline. *)
Lemma restore_in_numbered p b refs out i :
  refs_loop i refs = Ok out -> RestoreIn hashBytes gzip zstd order p b out = Pipeline.Restore hashBytes gzip zstd p b out.
Proof.
  intros R. destruct (order_numbered _ _ _ _ order_sorts R) as [E1 E2]. unfold RestoreIn, Pipeline.Restore.
  now rewrite E1, E2.
Qed.

(** A driver that reads every record is given what the decoder makes of the
    stream. *)
Lemma restore_reads_all driver target p b refs opts f st out :
  dv_Restore driver target opts = readsAll f -> RestoreIn hashBytes gzip zstd order p b refs = (Ok st, out) ->
  Restore hashBytes gzip zstd order driver target p b refs opts =
  (_ <~ f (decodeRecords out).1 (decodeRecords out).2 ;; Ok st).
Proof.
  unfold Restore, readsAll. intros -> ->. destruct (decodeRecords out) as [rs e]. rewrite Nat.ltb_irrefl. simpl. done.
Qed.

(** A driver that stops early hides its own error: the caller is told that
    the pipe is closed. *)
Lemma restore_hides_driver_error driver target p b refs opts e st out taken :
  RestoreIn hashBytes gzip zstd order p b refs = (Ok st, out) ->
  dv_Restore driver target opts out = (taken, Err e) -> (taken < length out)%nat ->
  Restore hashBytes gzip zstd order driver target p b refs opts = Err "restore chunk: io: read/write on closed pipe".
Proof. unfold Restore. intros -> -> Ht. apply Nat.ltb_lt in Ht. now rewrite Ht. Qed.
End Stream.

(** ** Verification of stored backups

    Models src/internal/verify/manifest.go: the check that every chunk of a
    manifest exists, and the one that restores every object to nowhere.
    A report is returned with every result, as in the code; the text of the
    error does not list the missing keys. *)

Record ManifestReport := mkManifestReport
  { mr_Objects : Z; mr_Chunks : Z; mr_MissingChunks : list bytes; mr_StoredBytes : Z }.

Record ChunkReport := mkChunkReport
  { ck_ManifestReport : ManifestReport; ck_VerifiedChunks : Z; ck_RestoredBytes : Z }.

Definition noManifestReport : ManifestReport := mkManifestReport 0 0 [] 0.

Section Verify.
  Context (hashBytes : bytes -> bytes) (gzip zstd : Compressor) {B : Type} `{BE : Backend B}.
  Context (marshal : Manifest -> option bytes) (edVerify : bytes -> bytes -> bytes -> bool).
  (** [Backend.Head], as far as it is used: the size of an object. *)
  Context (head : bytes -> B -> outcome Z) (order : list ChunkRef -> list ChunkRef).

Definition headChunk (b : B) (report : ManifestReport) (key : bytes) : ManifestReport :=
  match head key b with
  | Ok size => mkManifestReport (mr_Objects report) (mr_Chunks report + 1) (mr_MissingChunks report) (mr_StoredBytes report + size)
  | _ => mkManifestReport (mr_Objects report) (mr_Chunks report + 1) (mr_MissingChunks report ++ [key]) (mr_StoredBytes report)
  end.

Definition VerifyManifest (m : Manifest) (publicKey : bytes) (b : B) : ManifestReport * outcome unit :=
  match VerifySignature marshal edVerify m publicKey with
  | Ok _ =>
      let report := foldl (headChunk b) (mkManifestReport (zlen (mf_Objects m)) 0 [] 0) (manifestKeys m) in
      if Nat.eqb (length (mr_MissingChunks report)) 0 then (report, Ok tt)
      else (report, Err "manifest references missing chunks")
  | Err e => (noManifestReport, Err e)
  | Panic e => (noManifestReport, Panic e)
  | Fuel => (noManifestReport, Fuel)
  end.

Fixpoint verifyObjects (p : Pipeline) (b : B) (objects : list MObject) (report : ChunkReport) : ChunkReport * outcome unit :=
  match objects with
  | [] => (report, Ok tt)
  | object :: rest =>
      match (refs <~ PipelineRefs (mo_Chunks object) ;; (RestoreIn hashBytes gzip zstd order p b refs).1) with
      | Ok stats =>
          verifyObjects p b rest
            (mkChunkReport (ck_ManifestReport report) (ck_VerifiedChunks report + st_chunks stats)
               (ck_RestoredBytes report + st_bytesIn stats))
      | Err e => (report, Err e)
      | Panic e => (report, Panic e)
      | Fuel => (report, Fuel)
      end
  end.

Definition VerifyChunks (p : Pipeline) (m : Manifest) (publicKey : bytes) (b : B) : ChunkReport * outcome unit :=
  let '(report, result) := VerifyManifest m publicKey b in
  let chunkReport := mkChunkReport report 0 0 in
  match result with
  | Ok _ => verifyObjects p b (mf_Objects m) chunkReport
  | _ => (chunkReport, result)
  end.

(** ** What the reports say *)

Lemma headChunk_fold b keys report :
  let r := foldl (headChunk b) report keys in
  mr_Chunks r = mr_Chunks report + zlen keys /\
  mr_MissingChunks r = mr_MissingChunks report ++ List.filter (fun k => negb (is_ok (head k b))) keys.
Proof.
  revert report. induction keys as [|k keys IH]; intros report; simpl.
  - rewrite app_nil_r. unfold zlen. simpl. split; [lia|done].
  - destruct (IH (headChunk b report k)) as [E1 E2]. rewrite E1, E2. unfold headChunk, zlen.
    destruct (head k b); simpl; (split; [lia|]); try done; now rewrite <- app_assoc.
Qed.

(** The report of a manifest names exactly the keys that are not there, and
    the verification succeeds exactly when there are none. *)
Lemma VerifyManifest_spec m publicKey b :
  VerifySignature marshal edVerify m publicKey = Ok tt ->
  let '(report, result) := VerifyManifest m publicKey b in
  mr_Chunks report = zlen (manifestKeys m) /\
  mr_MissingChunks report = List.filter (fun k => negb (is_ok (head k b))) (manifestKeys m) /\
  (result = Ok tt <-> forall k, In k (manifestKeys m) -> is_ok (head k b) = true).
Proof.
  intros V. unfold VerifyManifest. rewrite V.
  destruct (headChunk_fold b (manifestKeys m) (mkManifestReport (zlen (mf_Objects m)) 0 [] 0)) as [E1 E2].
  cbv zeta in E1, E2. simpl in E1, E2.
  assert (Q : List.filter (fun k => negb (is_ok (head k b))) (manifestKeys m) = [] <->
              forall k, In k (manifestKeys m) -> is_ok (head k b) = true).
  { split.
    - intros F k Hk. destruct (is_ok (head k b)) eqn:E; [done|]. exfalso.
      assert (Hin : In k (List.filter (fun k => negb (is_ok (head k b))) (manifestKeys m))) by (apply filter_In; now rewrite E).
      now rewrite F in Hin.
    - intros F. destruct (List.filter _ _) as [|k l] eqn:E; [done|]. exfalso.
      assert (Hin : In k (k :: l)) by now left. rewrite <- E in Hin. apply filter_In in Hin as [Hin Hk].
      now rewrite (F k Hin) in Hk. }
  destruct (Nat.eqb_spec (length (mr_MissingChunks (foldl (headChunk b) (mkManifestReport (zlen (mf_Objects m)) 0 [] 0)
    (manifestKeys m)))) 0) as [L|L]; rewrite E2 in L |- *; rewrite E1; (split_and!; [done..|]); rewrite <- Q.
  - split; [intros _; now apply length_zero_iff_nil|done].
  - split; [done|]. intros F. now rewrite F in L.
Qed.

(** When the verification of the chunks succeeds, every object of the
    manifest can be restored. *)
Lemma verifyObjects_ok p b objects report report' :
  verifyObjects p b objects report = (report', Ok tt) ->
  Forall (fun o => exists refs st out, PipelineRefs (mo_Chunks o) = Ok refs /\
            RestoreIn hashBytes gzip zstd order p b refs = (Ok st, out)) objects.
Proof.
  revert report. induction objects as [|o objects IH]; intros report; simpl; [constructor|].
  destruct (PipelineRefs (mo_Chunks o)) as [refs|e|e|] eqn:R; simpl; try done.
  destruct (RestoreIn hashBytes gzip zstd order p b refs) as [[st|e|e|] out] eqn:E; simpl; try done.
  intros V. constructor; [eauto|now apply IH in V].
Qed.
End Verify.

(** ** Settings of a target

    What the drivers share: the lookup of a setting in the maps of a target,
    the first value that is not blank (redis/driver.go, postgres/driver.go),
    the records of a stream of changes (drivers/driver.go), the external tools
    and what a backup writes. *)

(** The entry of a map of strings, "" when there is none. *)
Definition mget (m : gmap string string) (k : string) : string := default "" (m !! k).

Fixpoint firstNonEmpty (values : list string) : string :=
  match values with
  | [] => ""
  | value :: rest => if negb (String.eqb (TrimSpace value) "") then value else firstNonEmpty rest
  end.

Record StreamRecord := mkStreamRecord { sr_ResumePoint : ResumePoint; sr_Payload : bytes }.
Record ReplayTarget := mkReplayTarget { rt_Position : string; rt_Time : Time }.

(** The external tools: their output for a command line. *)
Class commandRunner (Q : Type) := {
  RunCommand : string -> list string -> option bytes -> list string -> M Q bytes
}.

(** ** Backups in progress: the database and what was written *)

Definition onDatabase {Q R A} (m : M Q A) : M (Q * list R) A := fun s =>
  let '(r, q) := m s.1 in (r, (q, s.2)).

Definition writeRecords {Q R} (records : list R) : M (Q * list R) unit := fun s => (Ok tt, (s.1, s.2 ++ records)).

(** The payload of a tool as an object. *)
Definition writeObject {Q} (obj : ObjectRef) (payload : bytes) : M (Q * list DRecord) unit :=
  writeRecords [mkDRecord obj payload 0 false; mkDRecord obj [] 0 true].

Lemma mbind_ext {S A B} (m : M S A) (k k' : A -> M S B) s : (forall a s', k a s' = k' a s') -> mbind m k s = mbind m k' s.
Proof. intros H. unfold mbind. destruct (m s) as [[a|e|e|] s']; [apply H|done..]. Qed.
