(* ===== verification/Executor.v ===== *)
(** * The executor of agents

    Models the jobs of src/internal/agent/executor.go and what
    src/internal/agent/worker.go reports of them. The backends of the
    executor are the state, by the identifier of their storage; an executor
    whose driver registry or pipeline factory is not set has [None] there.
    The context, the hooks' commands and the clock are parameters.

    The theorems show that what an agent backed up it restores record for
    record; that a chain of several manifests is not restored in their order;
    and that a driver without incremental backups fills a chain with full
    ones. *)

From Stdlib Require Import Ascii String.
From S2P Require Import Prelude KvNode KvMap ChunkHash Core Calendar GoStrings GoText Envelope FastCDC ChunkIndex Pipeline PipelineProofs Manifest Repository BackupSafety Cron Window Scheduler Documents Jobs JobApi Engine LocalStore.
Local Open Scope Z_scope.

Record BackupExecutor := mkExecutor
  { ex_Drivers : option (gmap string Driver);
    ex_Targets : gmap string DTarget;
    ex_Backups : gmap string Backup;
    ex_PipelineFactory : option (string -> outcome (option (Pipeline * dedup)));
    ex_PublicKey : bytes; ex_PrivateKey : bytes }.

Record JobResult := mkJobResult
  { jr_Backup : option Backup; jr_Failure : option FailureEvidence; jr_Restore : option RestoreReport;
    jr_Verification : option VerificationReport }.

Definition noJobResult : JobResult := mkJobResult None None None None.

(** What executeBackup has looked up before it calls the engine. *)
Record BackupPlan := mkBackupPlan
  { bp_Type : string; bp_Target : DTarget; bp_Driver : Driver; bp_Pipeline : Pipeline; bp_Dedup : dedup }.

Definition found {A} (o : option A) (msg : string) : outcome A :=
  match o with Some a => Ok a | None => Err msg end.

Section Executor.
  Context `{RecordCodec} (hashBytes : bytes -> bytes) (gzip zstd : Compressor) {B : Type} `{OS : ObjectStore B}.
  Context (marshal marshalIndent : Manifest -> option bytes) (unmarshal : bytes -> option Manifest)
          (edSign : bytes -> bytes -> bytes) (edVerify : bytes -> bytes -> bytes -> bool).
  Context (head : bytes -> B -> outcome Z) (order : list ChunkRef -> list ChunkRef).

Definition publicKey (e : BackupExecutor) : outcome bytes :=
  if zlen (ex_PublicKey e) =? 32 then Ok (ex_PublicKey e)
  else if zlen (ex_PrivateKey e) =? 64 then Ok (drop 32 (ex_PrivateKey e))
  else Err "manifest public key is required".

(** The manifest behind an identifier. *)
Definition loadByID (id : string) (pk : bytes) (b : B) : outcome Manifest :=
  LoadManifest marshal unmarshal edVerify (list_byte_of_string id) pk b.

Definition pipelineFor (e : BackupExecutor) (storageID : string) : outcome (Pipeline * dedup) :=
  factory <~ found (ex_PipelineFactory e) "pipeline factory is required" ;;
  p <~ factory storageID ;;
  found p "pipeline factory returned nil pipeline".

(** ** Backups *)

Definition prepareBackup (e : BackupExecutor) (job : Job) (s : gmap string B) : outcome (BackupPlan * B) :=
  let backupType := if String.eqb (jb_Type job) "" then BackupTypeFull else jb_Type job in
  if negb (String.eqb backupType BackupTypeFull || String.eqb backupType BackupTypeIncremental || String.eqb backupType BackupTypeDifferential)
  then Err "backup type is not supported by agent executor yet"
  else
    drivers <~ found (ex_Drivers e) "driver registry is required" ;;
    _ <~ found (ex_PipelineFactory e) "pipeline factory is required" ;;
    if negb (zlen (ex_PrivateKey e) =? 64) then Err "manifest signing key is required"
    else
      target <~ found (ex_Targets e !! jb_TargetID job) "target is not configured on agent" ;;
      backend <~ found (s !! jb_StorageID job) "storage is not configured on agent" ;;
      driver <~ found (drivers !! dt_Driver target) "target driver is not implemented in this build" ;;
      made <~ pipelineFor e (jb_StorageID job) ;;
      let '(p, d) := made in
      match pl_cipher p with
      | None => Err "pipeline cipher is required"
      | Some _ =>
          if Nat.eqb (length (pl_keyID p)) 0 then Err "pipeline key id is required"
          else Ok (mkBackupPlan backupType target driver p d, backend)
      end.

(** The parent of an incremental or differential backup. *)
Definition parentOf (e : BackupExecutor) (job : Job) (b : B) : outcome (Backup * Manifest) :=
  if IDIsZero (jb_ParentBackupID job) then Err "parent backup id is required"
  else
    parent <~ found (ex_Backups e !! jb_ParentBackupID job) "parent backup is not configured on agent" ;;
    if IDIsZero (bk_ManifestID parent) then Err "parent backup manifest id is required"
    else
      pk <~ publicKey e ;;
      m <~ loadByID (bk_ManifestID parent) pk b ;;
      Ok (parent, m).

Inductive runBackupEngine (e : BackupExecutor) (job : Job) (plan : BackupPlan) (b : B)
    : outcome (BackupResult * string) -> B -> Prop :=
| re_full result d' b' :
    bp_Type plan = BackupTypeFull ->
    BackupFull hashBytes (bp_Driver plan) (bp_Target plan) (bp_Pipeline plan) (bp_Dedup plan) b result d' b' ->
    runBackupEngine e job plan b (r <~ result ;; Ok (r, EmptyString)) b'
| re_refused err :
    bp_Type plan <> BackupTypeFull -> parentOf e job b = Err err -> runBackupEngine e job plan b (Err err) b
| re_incremental parent m result d' b' :
    bp_Type plan <> BackupTypeFull -> parentOf e job b = Ok (parent, m) ->
    BackupIncremental hashBytes (bp_Driver plan) (bp_Target plan) m (bp_Pipeline plan) (bp_Dedup plan) b result d' b' ->
    runBackupEngine e job plan b (r <~ result ;; Ok (r, bk_ID parent)) b'.

Definition stringPtrFromID (id : string) : option string := if IDIsZero id then None else Some id.

Definition commitOptions (e : BackupExecutor) (plan : BackupPlan) (parentID : string) (startedAt finishedAt : Time)
    (backupID version : string) : CommitOptions :=
  mkCommitOptions backupID (dt_Name (bp_Target plan)) (mkMDriver (dv_Name (bp_Driver plan)) version "") (bp_Type plan)
    (stringPtrFromID parentID) startedAt finishedAt
    (mkMEncryption (match pl_cipher (bp_Pipeline plan) with Some c => ci_algorithm c | None => "" end)
       (string_of_list_byte (pl_keyID (bp_Pipeline plan))) "")
    (ex_PrivateKey e).

(** Signs and stores the manifest of a finished run; [clock] is what
    CommitManifest reads. *)
Definition commitBackup (e : BackupExecutor) (job : Job) (plan : BackupPlan) (result : BackupResult) (parentID : string)
    (clock startedAt finishedAt : Time) (newID : outcome string) : M B Backup :=
  backupID <-- mlift newID ;;
  version <-- mlift (dv_Version (bp_Driver plan) (bp_Target plan)) ;;
  committed <-- CommitManifest marshal marshalIndent edSign clock (br_Chunks result) (br_Stats result)
    (commitOptions e plan parentID startedAt finishedAt backupID version) ;;
  mret (mkBackup backupID (jb_TargetID job) (jb_StorageID job) (jb_ID job) (bp_Type plan) parentID
          (string_of_list_byte committed.2) startedAt finishedAt (st_bytesIn (br_Stats result)) (st_chunks (br_Stats result)) false).

Inductive executeBackup (e : BackupExecutor) (job : Job) (clock startedAt finishedAt : Time) (newID : outcome string)
    (s : gmap string B) : outcome Backup -> gmap string B -> Prop :=
| xb_refused err :
    prepareBackup e job s = Err err -> executeBackup e job clock startedAt finishedAt newID s (Err err) s
| xb_engine_error plan b err b' :
    prepareBackup e job s = Ok (plan, b) -> runBackupEngine e job plan b (Err err) b' ->
    executeBackup e job clock startedAt finishedAt newID s (Err err) (<[jb_StorageID job := b']> s)
| xb_done plan b result parentID b' r b2 :
    prepareBackup e job s = Ok (plan, b) -> runBackupEngine e job plan b (Ok (result, parentID)) b' ->
    commitBackup e job plan result parentID clock startedAt finishedAt newID b' = (r, b2) ->
    executeBackup e job clock startedAt finishedAt newID s r (<[jb_StorageID job := b2]> s).

(** ** Restores *)

Fixpoint objectRefs (objects : list MObject) : outcome (list ChunkRef) :=
  match objects with
  | [] => Ok []
  | object :: rest =>
      refs <~ PipelineRefs (mo_Chunks object) ;;
      more <~ objectRefs rest ;;
      Ok (refs ++ more)
  end.

Definition manifestRefs (m : Manifest) : outcome (list ChunkRef) := objectRefs (mf_Objects m).

(** The references of all manifests, one after the other, with the number of
    objects and of stored bytes. *)
Fixpoint refs_of_manifests (b : B) (pk : bytes) (manifestIDs : list string) : outcome (list ChunkRef * Z * Z) :=
  match manifestIDs with
  | [] => Ok ([], 0, 0)
  | manifestID :: rest =>
      if IDIsZero manifestID then Err "restore manifest id is required"
      else
        m <~ loadByID manifestID pk b ;;
        refs <~ manifestRefs m ;;
        more <~ refs_of_manifests b pk rest ;;
        let '(refs', objects, stored) := more in
        Ok (refs ++ refs', zlen (mf_Objects m) + objects, foldr (fun ref n => cr_stored ref + n) 0 refs + stored)
  end.

Definition restoreRefs (b : B) (pk : bytes) (manifestIDs : list string) : outcome (list ChunkRef * RestoreReport) :=
  all <~ refs_of_manifests b pk manifestIDs ;;
  let '(refs, objects, stored) := all in
  Ok (refs, mkRestoreReport "" "" [] objects (zlen refs) stored 0 false).

(** The storage and the manifests of a restore or a verification: those of
    the job, or those of the backup when the agent knows it. *)
Definition jobSources (e : BackupExecutor) (backupID storageID manifestID : string) (manifestIDs : list string) : string * list string :=
  let '(storageID, manifestID) :=
    match ex_Backups e !! backupID with
    | Some backup => (orID storageID (bk_StorageID backup), orID manifestID (bk_ManifestID backup))
    | None => (storageID, manifestID)
    end in
  (storageID, if Nat.eqb (length manifestIDs) 0 && negb (IDIsZero manifestID) then [manifestID] else manifestIDs).

Definition restoreMetadata (job : Job) : gmap string string :=
  <["backup_id" := jb_RestoreBackupID job]> {["job_id" := jb_ID job]}%string.

Definition executeRestore (e : BackupExecutor) (job : Job) (s : gmap string B) : outcome RestoreReport :=
  drivers <~ found (ex_Drivers e) "driver registry is required" ;;
  _ <~ found (ex_PipelineFactory e) "pipeline factory is required" ;;
  pk <~ publicKey e ;;
  if IDIsZero (jb_RestoreBackupID job) then Err "restore backup id is required"
  else
    let targetID := orID (jb_RestoreTargetID job) (jb_TargetID job) in
    target <~ found (ex_Targets e !! targetID) "restore target is not configured on agent" ;;
    let '(storageID, manifestIDs) :=
      jobSources e (jb_RestoreBackupID job) (jb_StorageID job) (jb_RestoreManifestID job) (jb_RestoreManifestIDs job) in
    if IDIsZero storageID then Err "restore storage id is required"
    else if Nat.eqb (length manifestIDs) 0 then Err "restore manifest ids are required"
    else
      backend <~ found (s !! storageID) "storage is not configured on agent" ;;
      driver <~ found (drivers !! dt_Driver target) "target driver is not implemented in this build" ;;
      made <~ pipelineFor e storageID ;;
      sources <~ restoreRefs backend pk manifestIDs ;;
      let '(refs, report) := sources in
      stats <~ Restore hashBytes gzip zstd order driver target made.1 backend refs
        (mkRestoreOptions (jb_RestoreReplaceExisting job) (jb_RestoreDryRun job) (restoreMetadata job)) ;;
      Ok (mkRestoreReport (jb_RestoreBackupID job) targetID manifestIDs (rrp_Objects report) (rrp_Chunks report)
            (rrp_StoredBytes report) (st_bytesIn stats) (jb_RestoreDryRun job)).

(** ** Verifications *)

Definition addManifest (r : VerificationReport) (m : ManifestReport) : VerificationReport :=
  mkVerificationReport (vr_BackupID r) (vr_Level r) (vr_ManifestIDs r) (vr_Objects r + mr_Objects m)
    (vr_Chunks r + mr_Chunks m) (vr_VerifiedChunks r) (vr_StoredBytes r + mr_StoredBytes m) (vr_RestoredBytes r).

Definition addChunks (r : VerificationReport) (c : ChunkReport) : VerificationReport :=
  let r := addManifest r (ck_ManifestReport c) in
  mkVerificationReport (vr_BackupID r) (vr_Level r) (vr_ManifestIDs r) (vr_Objects r) (vr_Chunks r)
    (vr_VerifiedChunks r + ck_VerifiedChunks c) (vr_StoredBytes r) (vr_RestoredBytes r + ck_RestoredBytes c).

(** Checks one manifest after the other with [check]. *)
Fixpoint verify_loop {R} (b : B) (pk : bytes) (check : Manifest -> R * outcome unit) (add : VerificationReport -> R -> VerificationReport)
    (manifestIDs : list string) (report : VerificationReport) : outcome VerificationReport :=
  match manifestIDs with
  | [] => Ok report
  | manifestID :: rest =>
      m <~ loadByID manifestID pk b ;;
      let '(r, result) := check m in
      _ <~ result ;;
      verify_loop b pk check add rest (add report r)
  end.

Definition executeVerify (e : BackupExecutor) (job : Job) (s : gmap string B) : outcome VerificationReport :=
  pk <~ publicKey e ;;
  if IDIsZero (jb_VerifyBackupID job) then Err "verify backup id is required"
  else
    let '(storageID, manifestIDs) :=
      jobSources e (jb_VerifyBackupID job) (jb_StorageID job) (jb_VerifyManifestID job) (jb_VerifyManifestIDs job) in
    if IDIsZero storageID then Err "verify storage id is required"
    else if Nat.eqb (length manifestIDs) 0 then Err "verify manifest ids are required"
    else
      backend <~ found (s !! storageID) "storage is not configured on agent" ;;
      let level := if String.eqb (jb_VerifyLevel job) "" then JobVerificationChunk else jb_VerifyLevel job in
      let report := mkVerificationReport (jb_VerifyBackupID job) level manifestIDs 0 0 0 0 0 in
      if String.eqb level JobVerificationManifest then
        verify_loop backend pk (fun m => VerifyManifest marshal edVerify head m pk backend) addManifest manifestIDs report
      else if String.eqb level JobVerificationChunk then
        made <~ pipelineFor e storageID ;;
        match pl_cipher made.1 with
        | None => Err "pipeline cipher is required"
        | Some _ =>
            verify_loop backend pk
              (fun m => VerifyChunks hashBytes gzip zstd marshal edVerify head order made.1 m pk backend)
              addChunks manifestIDs report
        end
      else Err "unknown verification level".

(** ** Jobs *)

(** What a hook's command and its webhook do; the error of the job is passed
    to the hooks of a failure. *)
Context (runShellHook runWebhookHook : Job -> string -> string -> option string -> outcome unit).

Definition runHook (job : Job) (hookName : string) (jobErr : option string) (action : JobHookAction) : outcome unit :=
  let shell := TrimSpace (ha_Shell action) in
  let webhookURL := TrimSpace (ha_WebhookURL action) in
  _ <~ (if negb (String.eqb shell "") then runShellHook job hookName shell jobErr else Ok tt) ;;
  (if negb (String.eqb webhookURL "") then runWebhookHook job hookName webhookURL jobErr else Ok tt).

Fixpoint runHooks (job : Job) (hookName : string) (actions : list JobHookAction) (jobErr : option string) : outcome unit :=
  match actions with
  | [] => Ok tt
  | action :: rest => _ <~ runHook job hookName jobErr action ;; runHooks job hookName rest jobErr
  end.

(** The error of a failed job, after its hooks. *)
Definition runFailureHooks (job : Job) (jobErr : string) : string :=
  match runHooks job "on_failure" (jh_OnFailure (jb_Hooks job)) (Some jobErr) with
  | Err hookErr => (jobErr ++ "; on_failure hooks: " ++ hookErr)%string
  | _ => jobErr
  end.

Definition withFailureHooks {A} (job : Job) (r : outcome A) (result : A -> JobResult) : JobResult * outcome unit :=
  match r with
  | Ok a => (result a, Ok tt)
  | Err e => (noJobResult, Err (runFailureHooks job e))
  | Panic e => (noJobResult, Panic e)
  | Fuel => (noJobResult, Fuel)
  end.

Inductive Execute (e : BackupExecutor) (job : Job) (clock startedAt finishedAt : Time) (newID : outcome string)
    (s : gmap string B) : JobResult * outcome unit -> gmap string B -> Prop :=
| ex_restore :
    jb_Operation job = JobOperationRestore ->
    Execute e job clock startedAt finishedAt newID s
      (withFailureHooks job (executeRestore e job s) (fun r => mkJobResult None None (Some r) None)) s
| ex_verify :
    jb_Operation job = JobOperationVerify ->
    Execute e job clock startedAt finishedAt newID s
      (withFailureHooks job (executeVerify e job s) (fun r => mkJobResult None None None (Some r))) s
| ex_hook_error err :
    jb_Operation job <> JobOperationRestore -> jb_Operation job <> JobOperationVerify ->
    runHooks job "pre_backup" (jh_PreBackup (jb_Hooks job)) None = Err err ->
    Execute e job clock startedAt finishedAt newID s (noJobResult, Err err) s
| ex_backup r s' :
    jb_Operation job <> JobOperationRestore -> jb_Operation job <> JobOperationVerify ->
    runHooks job "pre_backup" (jh_PreBackup (jb_Hooks job)) None = Ok tt ->
    executeBackup e job clock startedAt finishedAt newID s r s' ->
    Execute e job clock startedAt finishedAt newID s (withFailureHooks job r (fun b => mkJobResult (Some b) None None None)) s'.

(** ** What the worker reports *)

Definition failedJobResult (job : Job) (err : string) : JobResult :=
  if negb (String.eqb (jb_Operation job) JobOperationRestore) then noJobResult
  else
    let manifestIDs :=
      if Nat.eqb (length (jb_RestoreManifestIDs job)) 0 && negb (IDIsZero (jb_RestoreManifestID job))
      then [jb_RestoreManifestID job] else jb_RestoreManifestIDs job in
    mkJobResult None
      (Some (mkFailureEvidence (jb_Operation job) "restore" err (jb_RestoreBackupID job)
               (orID (jb_RestoreTargetID job) (jb_TargetID job)) (jb_StorageID job) manifestIDs 0))
      None None.

(** Status, error and result with which the worker finishes a job. *)
Definition workerReport (job : Job) (executed : JobResult * outcome unit) : string * string * JobResult :=
  match executed with
  | (_, Err e) => (JobStatusFailed, e, failedJobResult job e)
  | (result, _) => (JobStatusSucceeded, ""%string, result)
  end.
End Executor.

(** ** A backup and its restore *)

Section Theorems.
  Context `{RecordCodecLaws} (hashBytes : bytes -> bytes) (gzip zstd : Compressor) {B : Type}
          `{BL : BackendLaws B} `{OL : !ObjectStore B}.
  Context (marshal marshalIndent : Manifest -> option bytes) (unmarshal : bytes -> option Manifest)
          (edSign : bytes -> bytes -> bytes) (edVerify : bytes -> bytes -> bytes -> bool).
  Context (order : list ChunkRef -> list ChunkRef) (order_sorts : sorts order).
  Context (json : forall m doc, marshalIndent m = Some doc -> unmarshal doc = Some m).

(** What an executor needs for a restore: everything is configured, and the
    manifests [mids] are those the job asks for. *)
Record can_restore (e : BackupExecutor) (job : Job) (sid : string) (mids : list string) (pk : bytes) (p : Pipeline)
    (driver : Driver) (target : DTarget) : Prop := {
  cr_drivers : exists drivers, ex_Drivers e = Some drivers /\ drivers !! dt_Driver target = Some driver;
  cr_pipeline : exists factory d, ex_PipelineFactory e = Some factory /\ factory sid = Ok (Some (p, d));
  cr_public : publicKey e = Ok pk;
  cr_backup : IDIsZero (jb_RestoreBackupID job) = false;
  cr_target : ex_Targets e !! orID (jb_RestoreTargetID job) (jb_TargetID job) = Some target;
  cr_sources : jobSources e (jb_RestoreBackupID job) (jb_StorageID job) (jb_RestoreManifestID job)
                 (jb_RestoreManifestIDs job) = (sid, mids);
  cr_storage : IDIsZero sid = false
}.

Definition jobOptions (job : Job) : RestoreOptions :=
  mkRestoreOptions (jb_RestoreReplaceExisting job) (jb_RestoreDryRun job) (restoreMetadata job).

Lemma executeRestore_run e job sid mids pk p driver target (b : B) (s : gmap string B) :
  can_restore e job sid mids pk p driver target -> s !! sid = Some b -> mids <> [] ->
  executeRestore hashBytes gzip zstd marshal unmarshal edVerify order e job s =
  (sources <~ restoreRefs marshal unmarshal edVerify b pk mids ;;
   stats <~ Restore hashBytes gzip zstd order driver target p b sources.1 (jobOptions job) ;;
   Ok (mkRestoreReport (jb_RestoreBackupID job) (orID (jb_RestoreTargetID job) (jb_TargetID job)) mids
         (rrp_Objects sources.2) (rrp_Chunks sources.2) (rrp_StoredBytes sources.2) (st_bytesIn stats)
         (jb_RestoreDryRun job))).
Proof.
  intros [(drivers & Hd & Hdr) (factory & d & Hf & Hp) Hpk Hb Ht Hs Hz] Hsid Hne. unfold executeRestore.
  rewrite Hd, Hf, Hpk, Hb, Ht. simpl. rewrite Hs, Hz. destruct mids as [|m mids]; [done|]. simpl.
  rewrite Hsid, Hdr. unfold pipelineFor. rewrite Hf. simpl. rewrite Hp. simpl.
  destruct (restoreRefs _ _ _ b pk (m :: mids)) as [[refs report]|e'|e'|]; done.
Qed.

Lemma manifest_id_nonzero key :
  hasPrefix manifestsPrefix key = true -> IDIsZero (string_of_list_byte key) = false.
Proof.
  unfold hasPrefix, manifestsPrefix. intros E. apply beqb_eq in E. destruct key as [|c key]; [done|].
  injection E as -> _. reflexivity.
Qed.

Lemma commit_stored clock refs st opts (b : B) m key b2 :
  CommitManifest marshal marshalIndent edSign clock refs st opts b = (Ok (m, key), b2) ->
  exists doc, marshalIndent m = Some doc /\ be_get key b2 = Ok doc.
Proof.
  unfold CommitManifest. destruct (String.eqb _ _); [done|]. destruct (String.eqb _ _); [done|].
  intros E. mrun E. unfold mret in E. injection E as <- <- <-. unfold mlift in *. simplify_eq.
  match goal with H : Marshal _ _ = Ok _ |- _ => unfold Marshal in H; destruct (marshalIndent _) as [doc|]; [|done]; injection H as -> end.
  eexists. split; [reflexivity|]. eapply put_get. eassumption.
Qed.

Lemma mlift_ok {S A} (o : outcome A) (s s' : S) a : mlift o s = (Ok a, s') -> o = Ok a /\ s' = s.
Proof. unfold mlift. intros [= -> ->]. done. Qed.

Lemma commitBackup_ok e job plan result parentID clock t0 t1 newID (b b2 : B) backup :
  commitBackup marshal marshalIndent edSign e job plan result parentID clock t0 t1 newID b = (Ok backup, b2) ->
  exists id version m key,
    newID = Ok id /\ dv_Version (bp_Driver plan) (bp_Target plan) = Ok version /\
    CommitManifest marshal marshalIndent edSign clock (br_Chunks result) (br_Stats result)
      (commitOptions e plan parentID t0 t1 id version) b = (Ok (m, key), b2) /\
    backup = mkBackup id (jb_TargetID job) (jb_StorageID job) (jb_ID job) (bp_Type plan) parentID
               (string_of_list_byte key) t0 t1 (st_bytesIn (br_Stats result)) (st_chunks (br_Stats result)) false.
Proof.
  unfold commitBackup. intros E. apply mbind_ok in E as (id & s1 & E1 & E). apply mlift_ok in E1 as [E1 ->].
  apply mbind_ok in E as (version & s2 & E2 & E). apply mlift_ok in E2 as [E2 ->].
  apply mbind_ok in E as ([m key] & s3 & E3 & E). injection E as <- <-. eauto 10.
Qed.

(** What an uploaded run is after its manifest was committed: it loads, and
    its references restore to the stream of the records. *)
Lemma committed_stream e job plan point refs st parentID clock t0 t1 newID (b b1 b2 : B) backup rs d d' cipher pk r :
  commitBackup marshal marshalIndent edSign e job plan (mkBackupResult point refs st) parentID clock t0 t1 newID b1 =
    (Ok backup, b2) ->
  pipeReader (recordStream rs) r -> Feed hashBytes (bp_Pipeline plan) r d b (Ok (refs, st)) d' b1 ->
  cdc_ok (pl_chunker (bp_Pipeline plan)) -> zlen (recordStream rs) < 2 ^ 63 ->
  environment_ok hashBytes gzip zstd (bp_Pipeline plan) cipher r d b ->
  (forall doc, be_get (list_byte_of_string (bk_ManifestID backup)) b2 = Ok doc -> zlen doc <= maxManifestBytes) ->
  (forall msg, edVerify pk msg (edSign (ex_PrivateKey e) msg) = true) -> zlen pk = 32 ->
  exists refs' report st',
    restoreRefs marshal unmarshal edVerify b2 pk [bk_ManifestID backup] = Ok (refs', report) /\
    rrp_Objects report = 1 /\ rrp_Chunks report = zlen refs /\
    RestoreIn hashBytes gzip zstd order (bp_Pipeline plan) b2 refs' = (Ok st', recordStream rs) /\
    st_bytesIn st' = zlen (recordStream rs).
Proof.
  intros E [Hr Hc] Hfeed Hcdc Hsz Henv Hdoc He Hpk. rewrite <- Hc in Hsz.
  destruct (feed_refs_ok hashBytes gzip zstd _ _ _ _ _ _ _ _ _ Hcdc Hr Hsz Henv Hfeed) as ((st1 & Hres) & Hrefs & Hsort).
  apply commitBackup_ok in E as (id & version & m & key & _ & _ & Hcm & ->).
  cbn [bk_ManifestID br_Chunks br_Stats] in *. rewrite list_byte_of_string_of_list_byte in Hdoc.
  destruct (commit_stored _ _ _ _ _ _ _ _ Hcm) as (doc & Hm & Hg).
  assert (Hj : forall d0, marshalIndent m = Some d0 -> unmarshal d0 = Some m /\ zlen d0 <= maxManifestBytes).
  { intros d0 Hd0. split; [now apply json|]. apply Hdoc. congruence. }
  destruct (commit_loads marshal marshalIndent unmarshal edSign edVerify _ _ _ _ _ _ _ _ _ Hcm Hj He Hpk) as (Hload & Hobj & Hpre & Hother).
  assert (Hnum : PipelineRefs (map ChunkFromPipeline refs) = Ok (imap (fun k ref => renumber (0 + Z.of_nat k) ref) refs)).
  { apply refs_loop_from_pipeline. eapply Forall_impl; [exact Hrefs|]. now intros ref [_ Hh]. }
  assert (Hrest : RestoreIn hashBytes gzip zstd order (bp_Pipeline plan) b2 (imap (fun k ref => renumber (0 + Z.of_nat k) ref) refs) =
                  (Ok st1, recordStream rs)).
  { rewrite (restore_in_numbered hashBytes gzip zstd order order_sorts _ _ _ _ _ Hnum).
    rewrite (restore_same hashBytes gzip zstd _ b1 b2 refs Hsort); [now rewrite Hres, Hc|].
    rewrite Forall_forall in *. intros ref Hin. apply Hother. intros Ek. destruct (Hrefs ref Hin) as [Hk _].
    apply manifests_not_data in Hpre. now rewrite <- Ek, Hk, contentKey_data in Hpre. }
  eexists _, _, st1. split_and!; [| | |exact Hrest|].
  - unfold restoreRefs. cbn [refs_of_manifests]. rewrite (manifest_id_nonzero _ Hpre). unfold loadByID.
    rewrite list_byte_of_string_of_list_byte, Hload. cbn [obind]. unfold manifestRefs. rewrite Hobj. cbn [objectRefs mo_Chunks].
    rewrite Hnum. cbn [obind]. rewrite !app_nil_r. reflexivity.
  - reflexivity.
  - cbn [rrp_Chunks]. unfold zlen. now rewrite length_imap.
  - unfold RestoreIn in Hrest. destruct (pl_cipher _) as [c|]; [|done].
    apply restore_loop_data in Hrest as (Hd & Hb & _). rewrite Hb, Hd. cbn. reflexivity.
Qed.

(** A restore whose pipeline writes the stream of [rs] gives the driver [rs]. *)
Lemma executeRestore_stream e job sid mids pk p driver target f (b : B) (s : gmap string B) refs report st rs :
  can_restore e job sid mids pk p driver target -> s !! sid = Some b -> mids <> [] ->
  restoreRefs marshal unmarshal edVerify b pk mids = Ok (refs, report) ->
  RestoreIn hashBytes gzip zstd order p b refs = (Ok st, recordStream rs) -> st_bytesIn st = zlen (recordStream rs) ->
  dv_Restore driver target (jobOptions job) = readsAll f -> Forall rc_plain rs ->
  exists report', executeRestore hashBytes gzip zstd marshal unmarshal edVerify order e job s = (_ <~ f rs EOF ;; Ok report') /\
    rrp_RestoredBytes report' = zlen (recordStream rs) /\ rrp_BackupID report' = jb_RestoreBackupID job /\
    rrp_Objects report' = rrp_Objects report /\ rrp_Chunks report' = rrp_Chunks report.
Proof.
  intros C Hs Hne Hsrc Hin Hb Hf Hp. rewrite (executeRestore_run _ _ _ _ _ _ _ _ _ _ C Hs Hne), Hsrc. cbn [obind fst snd].
  rewrite (restore_reads_all hashBytes gzip zstd order driver target p b refs _ f st _ Hf Hin).
  unfold recordStream at 1 2. rewrite (records_roundtrip rs Hp). cbn [fst snd].
  eexists. split; [destruct (f rs EOF) as [[]|x|x|]; reflexivity|]. cbn [rrp_RestoredBytes rrp_BackupID rrp_Objects rrp_Chunks].
  rewrite Hb. done.
Qed.

(** The conditions under which a run of the executor is considered: the
    parameters of the pipeline behave, the manifest stays under the limit of
    its reader, and [pk] verifies what the executor signs. *)
Record backup_conditions (e : BackupExecutor) (plan : BackupPlan) (cipher : Cipher) (pk : bytes) (d : dedup) (b b2 : B)
    (backup : Backup) (rs : list DRecord) : Prop := {
  bc_chunker : cdc_ok (pl_chunker (bp_Pipeline plan));
  bc_size : zlen (recordStream rs) < 2 ^ 63;
  bc_environment : forall r, pipeReader (recordStream rs) r ->
    environment_ok hashBytes gzip zstd (bp_Pipeline plan) cipher r d b;
  bc_document : forall doc, be_get (list_byte_of_string (bk_ManifestID backup)) b2 = Ok doc -> zlen doc <= maxManifestBytes;
  bc_signature : forall msg, edVerify pk msg (edSign (ex_PrivateKey e) msg) = true;
  bc_public : zlen pk = 32;
  bc_plain : Forall rc_plain rs
}.

(** A full backup and a commit: whoever can restore the manifest gives the
    driver the records. *)
Lemma full_then_restore e job plan cipher pk (b b1 b2 : B) d d' result parentID clock t0 t1 newID backup (s : gmap string B) :
  let rs := (dv_BackupFull (bp_Driver plan) (bp_Target plan)).1 in
  BackupFull hashBytes (bp_Driver plan) (bp_Target plan) (bp_Pipeline plan) d b (Ok result) d' b1 ->
  commitBackup marshal marshalIndent edSign e job plan result parentID clock t0 t1 newID b1 = (Ok backup, b2) ->
  backup_conditions e plan cipher pk d b b2 backup rs -> s !! jb_StorageID job = Some b2 ->
  forall e' job' driver target f,
    can_restore e' job' (jb_StorageID job) [bk_ManifestID backup] pk (bp_Pipeline plan) driver target ->
    dv_Restore driver target (jobOptions job') = readsAll f ->
    exists report, executeRestore hashBytes gzip zstd marshal unmarshal edVerify order e' job' s = (_ <~ f rs EOF ;; Ok report) /\
      rrp_RestoredBytes report = zlen (recordStream rs).
Proof.
  intros rs Hfull Hcommit [C1 C2 C3 C4 C5 C6 C7] Hs e' job' driver target f Hcan Hf.
  inversion Hfull as [| |refs st point d1 b0 (r & Hr & Hfeed) Hp]; subst.
  destruct (committed_stream e job plan point refs st parentID clock t0 t1 newID b b1 b2 backup rs d d' cipher pk r)
    as (refs' & report & st' & Hsrc & _ & _ & Hin & Hb); auto.
  destruct (executeRestore_stream e' job' _ _ pk _ driver target f b2 s refs' report st' rs Hcan Hs) as (report' & E & R & _);
    eauto; done.
Qed.


(** An incremental backup of a driver that has none: the job succeeds, the
    backup is recorded as incremental on its parent, but it holds the whole
    dump: its own manifest restores to every record of a full backup. A
    restore of the chain thus replays the dumps of the parent and of the
    child, one over the other. *)
Theorem unsupported_incremental_is_full e job clock t0 t1 newID (s s' : gmap string B) backup plan b b2 cipher pk
    parent m rs0 x :
  let rs := (dv_BackupFull (bp_Driver plan) (bp_Target plan)).1 in
  prepareBackup e job s = Ok (plan, b) -> bp_Type plan <> BackupTypeFull ->
  parentOf marshal unmarshal edVerify e job b = Ok (parent, m) ->
  dv_BackupIncremental (bp_Driver plan) (bp_Target plan) m = (rs0, Err x) -> incrementalUnsupported x = true ->
  executeBackup hashBytes marshal marshalIndent unmarshal edSign edVerify e job clock t0 t1 newID s (Ok backup) s' ->
  s' !! jb_StorageID job = Some b2 ->
  (forall refs st d1 b1, fed hashBytes rs0 (bp_Pipeline plan) (bp_Dedup plan) b (Ok (refs, st)) d1 b1 ->
     backup_conditions e plan cipher pk d1 b1 b2 backup rs) ->
  bk_Type backup = bp_Type plan /\ bk_ParentID backup = bk_ID parent /\
  forall e' job' driver target f,
    can_restore e' job' (jb_StorageID job) [bk_ManifestID backup] pk (bp_Pipeline plan) driver target ->
    dv_Restore driver target (jobOptions job') = readsAll f ->
    exists report, executeRestore hashBytes gzip zstd marshal unmarshal edVerify order e' job' s' = (_ <~ f rs EOF ;; Ok report) /\
      rrp_RestoredBytes report = zlen (recordStream rs).
Proof.
  intros rs Hprep Htype Hparent Hinc Hx Hexec Hs' Hcond.
  inversion Hexec as [| |plan' b' result parentID b1 r b2' Hprep' Hrun Hcommit]; subst.
  rewrite Hprep in Hprep'. injection Hprep' as <- <-. rewrite lookup_insert_eq in Hs'. injection Hs' as ->.
  inversion Hrun as [|err Hne|parent' m' result' d' b1' _ Hparent' Hbackup E]; subst; [done..|].
  rewrite Hparent in Hparent'. injection Hparent' as <- <-.
  apply obind_ok in E as (y & -> & E). injection E as -> <-.
  pose proof (commitBackup_ok _ _ _ _ _ _ _ _ _ _ _ _ Hcommit) as (id & version & mf & key & _ & _ & _ & ->).
  split; [done|]. split; [done|]. intros e' job' driver target f Hcan Hf.
  inversion Hbackup as [| |refs st x' d1 b0 result0 d2 b3 Hfed Hres Hu Hfull|refs st point d1 b0 Hfed Hres]; subst;
    rewrite Hinc in *; [|done].
  eapply (full_then_restore e job plan cipher pk b0 b1 b2 d1 d' result (bk_ID parent)); eauto. apply lookup_insert_eq.
Qed.

(** C16: a chain is not restored manifest by manifest: the references of every
    manifest are numbered from 0 and the pipeline sorts all of them by their
    number. When the first manifest has more than one chunk, the stream the
    driver is given starts with the first chunks of both manifests, in either
    order, before the second chunk of the first; and the restore of the agent
    succeeds if the driver makes something of it. *)
Theorem chain_restored_out_of_order e job (s : gmap string B) sid k1 k2 pk p driver target b report
    m1 m2 o1 o2 r1 r2 rs s1 ss cipher :
  can_restore e job sid [k1; k2] pk p driver target -> s !! sid = Some b -> pl_cipher p = Some cipher ->
  IDIsZero k1 = false -> loadByID marshal unmarshal edVerify k1 pk b = Ok m1 -> mf_Objects m1 = [o1] ->
  PipelineRefs (mo_Chunks o1) = Ok (r1 :: r2 :: rs) ->
  IDIsZero k2 = false -> loadByID marshal unmarshal edVerify k2 pk b = Ok m2 -> mf_Objects m2 = [o2] ->
  PipelineRefs (mo_Chunks o2) = Ok (s1 :: ss) ->
  executeRestore hashBytes gzip zstd marshal unmarshal edVerify order e job s = Ok report ->
  let data := chunkData hashBytes gzip zstd p cipher b in
  exists rest out, (out = data r1 ++ data s1 ++ rest \/ out = data s1 ++ data r1 ++ rest) /\
    (length out <= (dv_Restore driver target (jobOptions job) out).1)%nat /\
    (dv_Restore driver target (jobOptions job) out).2 = Ok tt.
Proof.
  intros Hcan Hs Hci Hk1 Hl1 Ho1 Hr1 Hk2 Hl2 Ho2 Hr2 Hexec data.
  rewrite (executeRestore_run _ _ _ _ _ _ _ _ _ _ Hcan Hs) in Hexec by done.
  unfold restoreRefs in Hexec. cbn [refs_of_manifests] in Hexec. rewrite Hk1, Hl1, Hk2, Hl2 in Hexec. cbn [obind] in Hexec.
  unfold manifestRefs in Hexec. rewrite Ho1, Ho2 in Hexec. cbn [objectRefs] in Hexec. rewrite Hr1, Hr2 in Hexec.
  cbn [obind fst snd] in Hexec. rewrite !app_nil_r in Hexec.
  apply obind_ok in Hexec as (st & Hrest & _). unfold Restore in Hrest.
  destruct (RestoreIn hashBytes gzip zstd order p b _) as [res out] eqn:Hin.
  destruct (dv_Restore driver target (jobOptions job) out) as [taken result] eqn:Hd.
  destruct (Nat.ltb_spec taken (length out)); [done|]. apply obind_ok in Hrest as (st' & -> & Hrest).
  apply obind_ok in Hrest as ([] & -> & _). unfold RestoreIn in Hin. rewrite Hci in Hin.
  apply restore_loop_data in Hin as (Hout & _). cbn [app] in Hout.
  destruct (order_two_manifests order _ _ _ _ _ _ _ order_sorts Hr1 Hr2) as (rest & Horder).
  exists (concat (map data rest)), out. rewrite Hd. split_and!; [|done|done].
  destruct Horder as [Ho|Ho]; cbn [app] in Ho; rewrite Ho in Hout; cbn [map concat] in Hout; [left|right]; exact Hout.
Qed.
End Theorems.

(** ** Concrete agents

    Runs of the executor on which the theorems of Executor apply: a record
    format of one byte a record, an agent with one target and one storage,
    and a repository with a chain of two manifests, the first of two chunks. *)

(** ** Records *)

Definition markRecord : DRecord := mkDRecord (mkObjectRef "" "t" "") [Byte.x02] 0 false.

Fixpoint markDecode (l : bytes) : list DRecord * string :=
  match l with
  | [] => ([], EOF)
  | Byte.x02 :: Byte.x0a :: rest => let (rs, e) := markDecode rest in (markRecord :: rs, e)
  | _ => ([], "invalid character"%string)
  end.

#[export] Instance markCodec : RecordCodec := {|
  encodeRecord _ := [Byte.x02];
  decodeRecords := markDecode;
  rc_plain r := r = markRecord
|}.

#[export] Instance markCodecLaws : RecordCodecLaws.
Proof.
  constructor. intros rs F. induction F as [|r rs -> F IH]; [done|].
  change (concat (map writeRecord (markRecord :: rs))) with (Byte.x02 :: Byte.x0a :: concat (map writeRecord rs)).
  simpl in *. now rewrite IH.
Qed.

(** ** An agent *)

Definition markDriver : Driver :=
  mkDriver "redis" (fun _ => Ok "7"%string)
    (fun _ => ([markRecord], Ok (mkResumePoint "redis" "" 0 ∅)))
    (fun _ _ => ([], Err ErrIncrementalUnsupported))
    (fun _ _ => readsAll (fun _ e => if String.eqb e EOF then Ok tt else Err e)).

Definition markTarget : DTarget := mkDTarget "orders" "redis" ∅ ∅.

Definition agent1 : BackupExecutor :=
  mkExecutor (Some {["redis"%string := markDriver]}) {["t1"%string := markTarget]}
    {["b0"%string := mkBackup "b0" "t1" "s1" "j0" "full" "" "manifests/0" 1 2 10 1 false]}
    (Some (fun _ => Ok (Some (toyPipeline, DSeen ∅)))) toyPublic (replicate 64 Byte.x07).

Definition agentJob (operation type parent restoreID : string) (mids : list string) : Job :=
  mkJob "j1" operation "" "t1" "s1" type "a1" parent restoreID "" mids "" 0 false false None None None "" "" [] "" None
    (mkHooks [] []) JobStatusRunning 1 2 0 "".

(** ** One full backup *)

Definition markChunk : PipelineChunk := mkPC 0 0 2 [Byte.x02; Byte.x0a].
Definition markHashed : HashedChunk := mkHC markChunk (padHash (pc_data markChunk)) false.
Definition markEncoded : EncodedChunk :=
  match encodeFunc toyPipeline [Byte.x09] markHashed with
  | Ok e => e | _ => mkEC markHashed [] "" "" [] [] end.
Definition markRef : ChunkRef :=
  match fst (uploadFunc markEncoded (∅ : gmap bytes bytes)) with Ok r => r | _ => mkRef 0 [] [] 0 0 0 [] "" "" [] false end.
Definition uploaded (b : gmap bytes bytes) : gmap bytes bytes := <[ec_key markEncoded := ec_payload markEncoded]> b.

Lemma mark_feed b :
  fed padHash [markRecord] toyPipeline (DSeen ∅) b
    (Ok ([markRef], foldl addRef noStats [markRef])) (DSeen (∅ ∪ {[ padHash (pc_data markChunk) ]})) (uploaded b).
Proof.
  exists [REOF [Byte.x02; Byte.x0a]]. split; [split; reflexivity|].
  apply (feed_done padHash toyPipeline [REOF [Byte.x02; Byte.x0a]] (DSeen ∅) b [markRef]); [reflexivity|].
  change (feed_start toyPipeline [REOF [Byte.x02; Byte.x0a]] (DSeen ∅) b)
    with (mkPS ([] ++ markChunk :: []) [] [] [] (DSeen ∅) b).
  eapply rtc_l; [apply st_hash; reflexivity|].
  eapply rtc_l; [apply (st_encode padHash toyPipeline [] [] markHashed [] [] []
                   (DSeen (∅ ∪ {[ padHash (pc_data markChunk) ]})) b [Byte.x09] markEncoded); reflexivity|].
  eapply rtc_l; [|apply rtc_refl].
  apply (st_upload padHash toyPipeline [] [] [] markEncoded [] []
           (DSeen (∅ ∪ {[ padHash (pc_data markChunk) ]})) b markRef (uploaded b)). reflexivity.
Qed.

(** Nothing happens when there are no records. *)
Lemma feed_nothing b refs st d1 b1 :
  fed padHash [] toyPipeline (DSeen ∅) b (Ok (refs, st)) d1 b1 -> d1 = DSeen ∅ /\ b1 = b.
Proof.
  intros (r & [Hr Hc] & F). inversion F as [rs d' b' _ Hrun| |]; subst. unfold feed_start in Hrun.
  rewrite chunkFunc_cuts in Hrun; [|unfold cdc_ok; simpl; lia|done|now rewrite Hc]. rewrite Hc in Hrun.
  change (snd (snd _)) with (@nil PipelineChunk) in Hrun.
  inversion Hrun as [|x y z S _]; subst; [done|]. exfalso.
  inversion S as [l1 c l2 hs es rs0 d b0 h d' _ E|cs l1 h l2 es rs0 d b0 nonce e _ E|cs hs l1 e l2 rs0 d b0 r0 b' _ E];
    (symmetry in E; apply app_eq_nil in E || idtac); try (by destruct l1).
Qed.

Lemma mark_environment b r : pipeReader (recordStream [markRecord]) r ->
  environment_ok padHash noneCompressor noneCompressor (B := gmap bytes bytes) toyPipeline toyCipher r (DSeen ∅) b.
Proof.
  intros [Hr Hc]. constructor; [reflexivity|exact toy_correct|exact padHash_size| | |set_solver].
  - intros x y [= <-]. exists noneCompressor. auto.
  - unfold stream_chunks. rewrite chunkFunc_cuts; [|unfold cdc_ok; simpl; lia|done|now rewrite Hc].
    rewrite Hc. intros x y Hx Hy _. vm_compute in Hx, Hy.
    apply list_elem_of_singleton in Hx. apply list_elem_of_singleton in Hy. now subst.
Qed.

(** ** Manifests *)

Definition markManifest (id type : string) (parent : option string) (finishedAt : Time) : Manifest :=
  match Sign toyMarshal toySign
    (buildManifest [markRef] (foldl addRef noStats [markRef])
       (mkCommitOptions id "orders" (mkMDriver "redis" "7" "") type parent 5 finishedAt
          (mkMEncryption AlgorithmAES256GCM "k" "") (replicate 64 Byte.x07))) (replicate 64 Byte.x07) with
  | Ok m => m
  | _ => toyManifest
  end.

Definition fullManifest : Manifest := markManifest "b1" "full" None 7.
Definition childManifest : Manifest := markManifest "b2" "incr" (Some "b0"%string) 7.

#[export] Instance MChunkRef_eq : EqDecision MChunkRef.
Proof. solve_decision. Defined.
#[export] Instance MObject_eq : EqDecision MObject.
Proof. solve_decision. Defined.
#[export] Instance MDriver_eq : EqDecision MDriver.
Proof. solve_decision. Defined.
#[export] Instance MEncryption_eq : EqDecision MEncryption.
Proof. solve_decision. Defined.
#[export] Instance MStats_eq : EqDecision MStats.
Proof. solve_decision. Defined.
#[export] Instance MSignature_eq : EqDecision MSignature.
Proof. solve_decision. Defined.
#[export] Instance Manifest_eq : EqDecision Manifest.
Proof. solve_decision. Defined.

(** The documents of the repository: the number of the manifest. *)
Definition markDocs (l : list Manifest) : Codec Manifest := listCodec l.

Lemma mark_json l m doc : @encode _ (markDocs l) m = Some doc -> @decode _ (markDocs l) doc = Some m.
Proof. apply (listCodec_laws l). Qed.

Lemma mark_documents l m doc : @encode _ (markDocs l) m = Some doc -> zlen doc <= maxManifestBytes.
Proof.
  simpl. destruct (list_find _ l) as [[i x]|]; [|done]. destruct (i <? 256)%nat; [|done]. intros [= <-]. vm_compute. discriminate.
Qed.

Definition markOrder : list ChunkRef -> list ChunkRef := sort_by ref_less.

(** ** The witness of a full backup *)

Definition fullJob : Job := agentJob "backup" "full" "" "" [].
Definition fullPlan : BackupPlan := mkBackupPlan "full" markTarget markDriver toyPipeline (DSeen ∅).
Definition docs1 : Codec Manifest := markDocs [fullManifest; childManifest].
Definition emptyStore : gmap string (gmap bytes bytes) := {["s1"%string := ∅]}.
Definition markResult : BackupResult :=
  mkBackupResult (mkResumePoint "redis" "" 0 ∅) [markRef] (foldl addRef noStats [markRef]).

Abbreviation markCommit e job plan parent id b :=
  (commitBackup (B := gmap bytes bytes) toyMarshal (@encode _ docs1) toySign e job plan markResult parent 7 5 7 (Ok id) (uploaded b)).

Definition fullBackup : Backup :=
  mkBackup "b1" "t1" "s1" "j1" "full" "" (string_of_list_byte (manifestKey 7 7 "b1")) 5 7 2 1 false.
Definition fullStore : gmap bytes bytes := (markCommit agent1 fullJob fullPlan ""%string "b1"%string ∅).2.

Lemma full_executed :
  executeBackup padHash toyMarshal (@encode _ docs1) (@decode _ docs1) toySign toyVerify agent1 fullJob 7 5 7 (Ok "b1"%string)
    emptyStore (Ok fullBackup) (<["s1"%string := fullStore]> emptyStore).
Proof.
  apply (xb_done padHash toyMarshal (@encode _ docs1) (@decode _ docs1) toySign toyVerify agent1 fullJob 7 5 7 (Ok "b1"%string)
    emptyStore fullPlan ∅ markResult "" (uploaded ∅)); [reflexivity| |].
  - change (Ok (markResult, ""%string)) with (r <~ Ok markResult ;; Ok (r, EmptyString)).
    apply re_full with (DSeen (∅ ∪ {[ padHash (pc_data markChunk) ]})); [reflexivity|].
    apply bf_done; [exact (mark_feed ∅)|reflexivity].
  - apply injective_projections; [vmrefl|reflexivity].
Qed.

Definition restoreOf (id : string) (mids : list string) : Job := agentJob "restore" "" "" id mids.

Lemma full_can_restore id mids : IDIsZero id = false -> ex_Backups agent1 !! id = None -> mids <> [] ->
  can_restore agent1 (restoreOf id mids) "s1" mids toyPublic toyPipeline markDriver markTarget.
Proof.
  intros Hid Hb Hm. split.
  - eexists. split; reflexivity.
  - eexists _, _. split; reflexivity.
  - reflexivity.
  - exact Hid.
  - reflexivity.
  - unfold jobSources. change (jb_RestoreBackupID (restoreOf id mids)) with id.
    change (agentJob "restore" "" "" id mids) with (restoreOf id mids). cbn [jb_RestoreBackupID] in *.
    rewrite Hb. destruct mids; [done|reflexivity].
  - reflexivity.
Qed.

Lemma mark_conditions plan backup rs b b2 :
  bp_Pipeline plan = toyPipeline -> rs = [markRecord] ->
  (forall doc, be_get (list_byte_of_string (bk_ManifestID backup)) b2 = Ok doc -> zlen doc <= maxManifestBytes) ->
  backup_conditions (B := gmap bytes bytes) padHash noneCompressor noneCompressor toySign toyVerify agent1 plan toyCipher
    toyPublic (DSeen ∅) b b2 backup rs.
Proof.
  intros Hp -> Hd. split; rewrite ?Hp; auto.
  - unfold cdc_ok. simpl. lia.
  - reflexivity.
  - intros r. apply mark_environment.
  - exact toy_signature.
  - repeat constructor.
Qed.

(** What a key of a store that is known holds is known. *)
Lemma small_document (key : bytes) (b : gmap bytes bytes) :
  (exists d : bytes, be_get key b = Ok d /\ zlen d <= maxManifestBytes) ->
  forall doc, be_get key b = Ok doc -> zlen doc <= maxManifestBytes.
Proof. intros (d & E & L) doc E'. rewrite E in E'. injection E' as <-. exact L. Qed.


(** ** The witness of an incremental backup that is a full one *)

Definition incrementalJob : Job := agentJob "backup" "incr" "b0" "" [].
Definition incrementalPlan : BackupPlan := mkBackupPlan "incr" markTarget markDriver toyPipeline (DSeen ∅).
Definition parentStore : gmap bytes bytes := {[ list_byte_of_string "manifests/0" := [Byte.x00] ]}.
Definition parentStores : gmap string (gmap bytes bytes) := {["s1"%string := parentStore]}.
Definition parentBackup : Backup := mkBackup "b0" "t1" "s1" "j0" "full" "" "manifests/0" 1 2 10 1 false.
Definition childBackup : Backup :=
  mkBackup "b2" "t1" "s1" "j1" "incr" "b0" (string_of_list_byte (manifestKey 7 7 "b2")) 5 7 2 1 false.
Definition childStore : gmap bytes bytes := (markCommit agent1 incrementalJob incrementalPlan "b0"%string "b2"%string parentStore).2.

Lemma parent_found :
  parentOf toyMarshal (@decode _ docs1) toyVerify agent1 incrementalJob parentStore = Ok (parentBackup, fullManifest).
Proof. vm_compute. reflexivity. Qed.

Lemma child_executed :
  executeBackup padHash toyMarshal (@encode _ docs1) (@decode _ docs1) toySign toyVerify agent1 incrementalJob 7 5 7
    (Ok "b2"%string) parentStores (Ok childBackup) (<["s1"%string := childStore]> parentStores).
Proof.
  apply (xb_done padHash toyMarshal (@encode _ docs1) (@decode _ docs1) toySign toyVerify agent1 incrementalJob 7 5 7
    (Ok "b2"%string) parentStores incrementalPlan parentStore markResult "b0" (uploaded parentStore)); [reflexivity| |].
  - change (Ok (markResult, "b0"%string)) with (r <~ Ok markResult ;; Ok (r, bk_ID parentBackup)).
    apply re_incremental with fullManifest (DSeen (∅ ∪ {[ padHash (pc_data markChunk) ]})); [discriminate|exact parent_found|].
    apply (bi_unsupported padHash markDriver markTarget fullManifest toyPipeline (DSeen ∅) parentStore [] noStats ErrIncrementalUnsupported
             (DSeen ∅) parentStore); [|reflexivity|reflexivity|].
    + exists []. split; [split; [exact I|reflexivity]|].
      apply (feed_done padHash toyPipeline [] (DSeen ∅) parentStore []); [reflexivity|]. apply rtc_refl.
    + apply bf_done; [exact (mark_feed parentStore)|reflexivity].
  - apply injective_projections; [vmrefl|reflexivity].
Qed.

Lemma unsupported_incremental_is_full_witness :
  bk_Type childBackup = "incr"%string /\ bk_ParentID childBackup = "b0"%string /\
  exists report,
    executeRestore padHash noneCompressor noneCompressor toyMarshal (@decode _ docs1) toyVerify markOrder agent1
      (restoreOf "b2" [bk_ManifestID childBackup]) (<["s1"%string := childStore]> parentStores) = Ok report /\
    rrp_RestoredBytes report = 2.
Proof.
  destruct (unsupported_incremental_is_full padHash noneCompressor noneCompressor toyMarshal (@encode _ docs1) (@decode _ docs1)
    toySign toyVerify markOrder sort_by_sorts (mark_json _) agent1 incrementalJob 7 5 7 (Ok "b2"%string) parentStores
    (<["s1"%string := childStore]> parentStores) childBackup incrementalPlan parentStore childStore toyCipher toyPublic
    parentBackup fullManifest [] ErrIncrementalUnsupported) as (T & P & R).
  - reflexivity.
  - discriminate.
  - exact parent_found.
  - reflexivity.
  - reflexivity.
  - exact child_executed.
  - reflexivity.
  - intros refs st d1 b1 F. apply feed_nothing in F as [-> ->]. apply mark_conditions; [reflexivity|reflexivity|].
    apply small_document. eexists. split; [vm_compute; reflexivity|vm_compute; discriminate].
  - split; [exact T|]. split; [exact P|].
    destruct (R agent1 (restoreOf "b2" [bk_ManifestID childBackup]) markDriver markTarget
      (fun (_ : list DRecord) (e : string) => if String.eqb e EOF then Ok tt else Err e)) as (report & E & L).
    + apply full_can_restore; [reflexivity|reflexivity|discriminate].
    + reflexivity.
    + exists report. split; [exact E|exact L].
Defined.

(** ** A chain of two manifests

    The first manifest holds one record cut into two chunks, the second one
    record in one chunk. *)

Definition storedChunk (seq offset : Z) (data : bytes) : EncodedChunk :=
  let h := mkHC (mkPC seq offset (zlen data) data) (padHash data) false in
  match encodeFunc toyPipeline [Byte.x09] h with Ok e => e | _ => mkEC h [] "" "" [] [] end.

Definition storedRef (e : EncodedChunk) : ChunkRef := refOf e (zlen (ec_payload e)) [].

Definition rootChunks : list EncodedChunk := [storedChunk 0 0 [Byte.x02]; storedChunk 1 1 [Byte.x0a]].

Definition chainManifest (id : string) (parent : option string) (chunks : list EncodedChunk) : Manifest :=
  let refs := map storedRef chunks in
  match Sign toyMarshal toySign
    (buildManifest refs (foldl addRef noStats refs)
       (mkCommitOptions id "orders" (mkMDriver "redis" "7" "") "full" parent 5 7 (mkMEncryption AlgorithmAES256GCM "k" "")
          (replicate 64 Byte.x07))) (replicate 64 Byte.x07) with
  | Ok m => m
  | _ => toyManifest
  end.

Definition rootManifest : Manifest := chainManifest "b1" None rootChunks.
Definition tailManifest : Manifest := chainManifest "b2" (Some "b1"%string) [markEncoded].
Definition docs2 : Codec Manifest := markDocs [rootManifest; tailManifest].

Definition chainStore : gmap bytes bytes :=
  list_to_map ((list_byte_of_string "manifests/1", [Byte.x00]) :: (list_byte_of_string "manifests/2", [Byte.x01]) ::
               map (fun e => (ec_key e, ec_payload e)) (rootChunks ++ [markEncoded])).

(** A driver that takes whatever it is given. *)
Definition laxDriver : Driver :=
  mkDriver "redis" (fun _ => Ok "7"%string) (fun _ => ([], Err "unused")) (fun _ _ => ([], Err "unused"))
    (fun _ _ stream => (length stream, Ok tt)).

Definition agent2 (driver : Driver) : BackupExecutor :=
  mkExecutor (Some {["redis"%string := driver]}) {["t1"%string := markTarget]} ∅
    (Some (fun _ => Ok (Some (toyPipeline, DSeen ∅)))) toyPublic [].

Definition chainJob : Job := restoreOf "b2" ["manifests/1"; "manifests/2"].

Abbreviation restoreChain driver :=
  (executeRestore padHash noneCompressor noneCompressor toyMarshal (@decode _ docs2) toyVerify markOrder (agent2 driver)
     chainJob {["s1"%string := chainStore]}).

(** The backups were those of two records; a driver that reads records fails
    on the stream it is given. *)
Lemma chain_restored_out_of_order_witness :
  (exists rest out,
     (out = [Byte.x02] ++ [Byte.x02; Byte.x0a] ++ rest \/ out = [Byte.x02; Byte.x0a] ++ [Byte.x02] ++ rest) /\
     (length out <= (dv_Restore laxDriver markTarget (jobOptions chainJob) out).1)%nat /\
     (dv_Restore laxDriver markTarget (jobOptions chainJob) out).2 = Ok tt) /\
  restoreChain markDriver = Err "invalid character".
Proof.
  split; [|vm_compute; reflexivity].
  pose (r1 := match PipelineRefs (map ChunkFromPipeline (map storedRef rootChunks)) with Ok l => l | _ => [] end).
  pose (r2 := match PipelineRefs (map ChunkFromPipeline [storedRef markEncoded]) with Ok l => l | _ => [] end).
  destruct (chain_restored_out_of_order padHash noneCompressor noneCompressor toyMarshal (@decode _ docs2) toyVerify markOrder
    sort_by_sorts (agent2 laxDriver) chainJob {["s1"%string := chainStore]} "s1" "manifests/1" "manifests/2" toyPublic toyPipeline
    laxDriver markTarget chainStore
    (match restoreChain laxDriver with Ok r => r | _ => mkRestoreReport "" "" [] 0 0 0 0 false end)
    rootManifest tailManifest
    (mkMObject "" "stream" (map ChunkFromPipeline (map storedRef rootChunks)))
    (mkMObject "" "stream" (map ChunkFromPipeline [storedRef markEncoded]))
    (nth 0 r1 markRef) (nth 1 r1 markRef) [] (nth 0 r2 markRef) [] toyCipher) as (rest & out & D & L & R).
  - split; try reflexivity; eexists _; [split; reflexivity|]. eexists. split; reflexivity.
  - reflexivity.
  - reflexivity.
  - reflexivity.
  - vm_compute. reflexivity.
  - vm_compute. reflexivity.
  - vm_compute. reflexivity.
  - reflexivity.
  - vm_compute. reflexivity.
  - vm_compute. reflexivity.
  - vm_compute. reflexivity.
  - vm_compute. reflexivity.
  - exists rest, out. split; [|split; assumption].
    assert (E1 : chunkData padHash noneCompressor noneCompressor toyPipeline toyCipher chainStore (nth 0 r1 markRef) = [Byte.x02])
      by (vm_compute; reflexivity).
    assert (E2 : chunkData padHash noneCompressor noneCompressor toyPipeline toyCipher chainStore (nth 0 r2 markRef) = [Byte.x02; Byte.x0a])
      by (vm_compute; reflexivity).
    rewrite E1, E2 in D. exact D.
Defined.
