(* ===== verification/Http.v ===== *)
(** * Requests and responses

    The parts of net/url and net/http that the clients under
    src/internal/storage/ use: escaping, URLs, queries, headers, requests and
    responses. A server is a parameter, the class [HttpServer]; a connection
    that fails is an error of [serve].

    What a server sees of a path is its escaped form; the theorems show that
    escaping loses nothing, and that a query is read as it was set. *)

From Stdlib Require Import Ascii String.
From S2P Require Import Prelude ChunkHash Core Calendar GoStrings GoText Retention FastCDC LocalFiles.
Local Open Scope Z_scope.
#[local] Arguments String.append !_ _ / : simpl nomatch.

(** ** Escaping *)

Inductive encoding : Type := encodePath | encodePathSegment | encodeQueryComponent.

Definition between (lo c hi : ascii) : bool := ((nat_of_ascii lo <=? nat_of_ascii c) && (nat_of_ascii c <=? nat_of_ascii hi))%nat.

(** Letters, digits and - . _ ~ *)
Definition isUnreserved (c : ascii) : bool :=
  between "A" c "Z" || between "a" c "z" || between "0" c "9" ||
  Ascii.eqb c "-" || Ascii.eqb c "." || Ascii.eqb c "_" || Ascii.eqb c "~".

Definition reserved : list ascii := ["$"; "&"; "+"; ","; "/"; ":"; ";"; "="; "?"; "@"]%char.

(** Whether escape keeps a byte as it is. *)
Definition shouldEscape (mode : encoding) (c : ascii) : bool :=
  if isUnreserved c then false
  else if existsb (Ascii.eqb c) reserved then
    match mode with
    | encodePath => Ascii.eqb c "?"
    | encodePathSegment => existsb (Ascii.eqb c) ["/"; ";"; ","; "?"]%char
    | encodeQueryComponent => true
    end
  else true.

Definition upperHex (n : nat) : ascii := if (n <? 10)%nat then ascii_of_nat (48 + n) else ascii_of_nat (55 + n).

Definition unhex (c : ascii) : option nat :=
  let n := nat_of_ascii c in
  if between "0" c "9" then Some (n - 48)%nat
  else if between "A" c "F" then Some (n - 55)%nat
  else if between "a" c "f" then Some (n - 87)%nat
  else None.

Definition percent (c : ascii) (rest : string) : string :=
  String "%" (String (upperHex (nat_of_ascii c / 16)) (String (upperHex (nat_of_ascii c mod 16)) rest)).

Definition isQuery (mode : encoding) : bool := match mode with encodeQueryComponent => true | _ => false end.

Fixpoint escape (mode : encoding) (s : string) : string :=
  match s with
  | EmptyString => EmptyString
  | String c r =>
      if Ascii.eqb c " " && isQuery mode then String "+" (escape mode r)
      else if shouldEscape mode c then percent c (escape mode r)
      else String c (escape mode r)
  end.

(** unescape: an error when a percent sign is not followed by two digits. *)
Fixpoint unescape (mode : encoding) (s : string) : option string :=
  match s with
  | EmptyString => Some EmptyString
  | String "%" (String a (String b r)) =>
      match unhex a, unhex b, unescape mode r with
      | Some x, Some y, Some t => Some (String (ascii_of_nat (16 * x + y)) t)
      | _, _, _ => None
      end
  | String "%" _ => None
  | String c r => option_map (String (if Ascii.eqb c "+" && isQuery mode then " "%char else c)) (unescape mode r)
  end.

Definition PathEscape : string -> string := escape encodePathSegment.
Definition QueryEscape : string -> string := escape encodeQueryComponent.

Example escape_examples :
  PathEscape "data/a b" = "data%2Fa%20b"%string /\ escape encodePath "/o/data%2Fa" = "/o/data%252Fa"%string /\
  QueryEscape "a b&c" = "a+b%26c"%string /\ unescape encodePath "data%252Fa" = Some "data%2Fa"%string.
Proof. vm_compute. repeat split. Qed.

(** Every byte is escaped to something that is read back. *)
Definition byte_back (mode : encoding) (c : ascii) : bool :=
  if Ascii.eqb c " " && isQuery mode then true
  else if shouldEscape mode c then
    match unhex (upperHex (nat_of_ascii c / 16)), unhex (upperHex (nat_of_ascii c mod 16)) with
    | Some x, Some y => Ascii.eqb (ascii_of_nat (16 * x + y)) c
    | _, _ => false
    end
  else negb (Ascii.eqb c "%") && negb (Ascii.eqb c "+" && isQuery mode).

Lemma every_byte_back mode c : byte_back mode c = true.
Proof. destruct c as [[] [] [] [] [] [] [] []], mode; reflexivity. Qed.

Lemma unescape_plain mode c r : Ascii.eqb c "%" = false ->
  unescape mode (String c r) = option_map (String (if Ascii.eqb c "+" && isQuery mode then " "%char else c)) (unescape mode r).
Proof. intros H. destruct c as [[] [] [] [] [] [] [] []]; try reflexivity. discriminate H. Qed.

Lemma unescape_escape mode s : unescape mode (escape mode s) = Some s.
Proof.
  induction s as [|c s IH]; [done|]. pose proof (every_byte_back mode c) as H. unfold byte_back in H. cbn [escape].
  destruct (Ascii.eqb c " " && isQuery mode) eqn:E.
  - apply andb_true_iff in E as [->%Ascii.eqb_eq Em]. rewrite unescape_plain by done. rewrite IH. cbn [option_map]. now rewrite Em.
  - destruct (shouldEscape mode c).
    + unfold percent. cbn [unescape]. rewrite IH. repeat case_match; try discriminate. now apply Ascii.eqb_eq in H as ->.
    + apply andb_true_iff in H as [H1%negb_true_iff H2%negb_true_iff]. rewrite unescape_plain, IH by done. cbn [option_map]. now rewrite H2.
Qed.

Lemma escape_inj mode a b : escape mode a = escape mode b -> a = b.
Proof. intros H. apply (f_equal (unescape mode)) in H. rewrite !unescape_escape in H. now injection H. Qed.

(** An escaped query component has neither of its separators. *)
Definition byte_free (c : ascii) : bool :=
  negb (shouldEscape encodeQueryComponent c) ||
  forallb (fun x => negb (Ascii.eqb x "&") && negb (Ascii.eqb x "=") && negb (Ascii.eqb x ";"))
    ["%"%char; upperHex (nat_of_ascii c / 16); upperHex (nat_of_ascii c mod 16)].

Lemma every_byte_free c : byte_free c = true /\
  (shouldEscape encodeQueryComponent c = false -> Ascii.eqb c "&" = false /\ Ascii.eqb c "=" = false /\ Ascii.eqb c ";" = false).
Proof. destruct c as [[] [] [] [] [] [] [] []]; vm_compute; repeat split; discriminate || reflexivity. Qed.

Lemma QueryEscape_free s : noByte "&" (QueryEscape s) = true /\ noByte "=" (QueryEscape s) = true /\ noByte ";" (QueryEscape s) = true.
Proof.
  unfold QueryEscape. induction s as [|c s (H1 & H2 & H3)]; [done|]. cbn [escape isQuery]. rewrite andb_true_r.
  destruct (Ascii.eqb c " "); [done|]. destruct (every_byte_free c) as [Hf Hc]. unfold byte_free in Hf.
  destruct (shouldEscape encodeQueryComponent c).
  - cbn [negb orb forallb] in Hf. unfold percent. cbn [noByte]. rewrite H1, H2, H3.
    rewrite !andb_true_iff in *. tauto.
  - destruct (Hc eq_refl) as (E1 & E2 & E3). cbn [noByte]. now rewrite E1, E2, E3.
Qed.

(** ** Queries *)

Abbreviation Values := (gmap string (list string)).

Definition ValuesSet (v : Values) (key value : string) : Values := <[key := [value]]> v.
Definition ValuesAdd (v : Values) (key value : string) : Values := <[key := default [] (v !! key) ++ [value]]> v.
Definition ValuesGet (v : Values) (key : string) : string := match v !! key with Some (x :: _) => x | _ => EmptyString end.

Definition nameLess {A} (a b : string * A) : bool := String.ltb a.1 b.1.

(** The pairs of a query in the order of their keys. *)
Definition pairsOf (l : list (string * list string)) : list (string * string) :=
  concat (map (fun e => map (pair e.1) e.2) l).

Definition sortedPairs (v : Values) : list (string * string) := pairsOf (sort_by nameLess (map_to_list v)).

Definition encodePair (p : string * string) : string := (QueryEscape p.1 ++ "=" ++ QueryEscape p.2)%string.

Definition Encode (v : Values) : string := Join (map encodePair (sortedPairs v)) "&".

(** url.ParseQuery skips what it cannot read, and reports it at the end. *)
Definition parsePart (acc : Values * bool) (part : string) : Values * bool :=
  let '(v, ok) := acc in
  if Contains part ";" then (v, false)
  else if String.eqb part "" then acc
  else
    let '(key, value, _) := Cut "=" part in
    match unescape encodeQueryComponent key, unescape encodeQueryComponent value with
    | Some key, Some value => (ValuesAdd v key value, ok)
    | _, _ => (v, false)
    end.

Definition ParseQuery (query : string) : Values * bool := fold_left parsePart (SplitOn "&" query) (∅, true).

Lemma Contains_noByte c s : noByte c s = true -> Contains s (String c "") = false.
Proof.
  induction s as [|d s IH]; [done|]. cbn [noByte Contains HasPrefix]. intros [H1%negb_true_iff H2]%andb_true_iff.
  rewrite Ascii.eqb_sym, H1, IH by done. done.
Qed.

Lemma noByte_app sep a b : noByte sep (a ++ b) = noByte sep a && noByte sep b.
Proof. induction a as [|c a IH]; [done|]. change (String.append (String c a) b) with (String c (a ++ b))%string. cbn [noByte]. now rewrite IH, andb_assoc. Qed.

Lemma parsePart_encode v ok p : parsePart (v, ok) (encodePair p) = (ValuesAdd v p.1 p.2, ok).
Proof.
  destruct (QueryEscape_free p.1) as (_ & K2 & K3), (QueryEscape_free p.2) as (_ & V2 & V3). unfold parsePart, encodePair.
  rewrite Contains_noByte by (rewrite !noByte_app, K3, V3; done).
  destruct (String.eqb_spec (QueryEscape p.1 ++ "=" ++ QueryEscape p.2) "") as [E|_]; [destruct (QueryEscape p.1); discriminate|].
  change ("=" ++ ?s)%string with (String "=" s). rewrite Cut_app by done. unfold QueryEscape. now rewrite !unescape_escape.
Qed.

Lemma parse_pairs pairs v ok : fold_left parsePart (map encodePair pairs) (v, ok) = (fold_left (fun v p => ValuesAdd v p.1 p.2) pairs v, ok).
Proof. revert v. induction pairs as [|p pairs IH]; intros v; [done|]. cbn [map fold_left]. rewrite parsePart_encode. apply IH. Qed.

Lemma ParseQuery_pairs pairs : ParseQuery (Join (map encodePair pairs) "&") = (fold_left (fun v p => ValuesAdd v p.1 p.2) pairs ∅, true).
Proof.
  unfold ParseQuery. destruct pairs as [|p pairs]; [reflexivity|].
  rewrite (SplitOn_Join "&"); [apply parse_pairs|done|]. apply Forall_map, Forall_forall. intros q _. unfold encodePair.
  destruct (QueryEscape_free q.1) as (K1 & _ & _), (QueryEscape_free q.2) as (V1 & _ & _). now rewrite !noByte_app, K1, V1.
Qed.

Definition valuesOf (k : string) (pairs : list (string * string)) : list string :=
  map snd (List.filter (fun p => String.eqb p.1 k) pairs).

Lemma fold_add_lookup pairs v k : fold_left (fun v p => ValuesAdd v p.1 p.2) pairs v !! k =
  match valuesOf k pairs with [] => v !! k | l => Some (default [] (v !! k) ++ l) end.
Proof.
  revert v. induction pairs as [|[k' x] pairs IH]; intros v; [done|]. cbn [fold_left fst snd]. rewrite IH. unfold valuesOf, ValuesAdd. cbn [List.filter fst].
  destruct (String.eqb_spec k' k) as [->|Hne].
  - rewrite lookup_insert_eq. cbn [map snd from_option]. destruct (map snd _); [done|]. unfold id. now rewrite <- app_assoc.
  - rewrite lookup_insert_ne by done. reflexivity.
Qed.

Lemma valuesOf_pairs k l : NoDup l.*1 -> valuesOf k (pairsOf l) = default [] ((list_to_map l : Values) !! k).
Proof.
  unfold valuesOf, pairsOf. induction l as [|[k' xs] l IH]; [done|]. cbn [fmap list_fmap fst]. intros Hn. apply NoDup_cons in Hn as [Hk Hn].
  cbn [map concat]. rewrite List.filter_app, map_app, IH by done. rewrite list_to_map_cons.
  cbn [fst snd].
  assert (E : List.filter (fun p => String.eqb p.1 k) (map (pair k') xs) = if String.eqb k' k then map (pair k') xs else []).
  { induction xs as [|x xs IHx]; [now destruct (String.eqb k' k)|]. cbn [map List.filter fst]. rewrite IHx. now destruct (String.eqb k' k). }
  rewrite E. destruct (String.eqb_spec k' k) as [->|Hne].
  - rewrite (not_elem_of_list_to_map_1 l k), lookup_insert_eq, map_map by done. cbn [from_option snd]. unfold id. now rewrite map_id, app_nil_r.
  - now rewrite lookup_insert_ne.
Qed.

Lemma add_pairs v l : (forall k x, v !! k = Some x -> x <> []) -> l ≡ₚ map_to_list v ->
  fold_left (fun v p => ValuesAdd v p.1 p.2) (pairsOf l) ∅ = v.
Proof.
  intros Hv Hp. apply map_eq. intros k. rewrite fold_add_lookup. assert (Hn : NoDup l.*1) by (rewrite Hp; apply NoDup_fst_map_to_list).
  rewrite valuesOf_pairs by done. rewrite (list_to_map_proper _ (map_to_list v) Hn Hp), list_to_map_to_list.
  rewrite lookup_empty. destruct (v !! k) as [[|x xs]|] eqn:E; [now destruct (Hv k [] E)|done|done].
Qed.

(** A query is read as it was set, but for the keys without a value. *)
Lemma ParseQuery_Encode v : (forall k l, v !! k = Some l -> l <> []) -> ParseQuery (Encode v) = (v, true).
Proof.
  intros Hv. unfold Encode. rewrite ParseQuery_pairs. f_equal. apply add_pairs; [done|]. apply sort_by_perm.
Qed.

(** ** Headers *)

Abbreviation Header := (gmap string (list string)).

(** http.CanonicalHeaderKey of a name without invalid bytes: capitals at the
    start and after each dash. *)
Fixpoint canonicalName (upper : bool) (s : string) : string :=
  match s with
  | EmptyString => EmptyString
  | String c r => String (if upper then upperAscii c else lowerAscii c) (canonicalName (Ascii.eqb c "-") r)
  end.

Definition CanonicalHeaderKey : string -> string := canonicalName true.

Definition HeaderSet (h : Header) (name value : string) : Header := <[CanonicalHeaderKey name := [value]]> h.
Definition HeaderValues (h : Header) (name : string) : list string := default [] (h !! CanonicalHeaderKey name).
Definition HeaderGet (h : Header) (name : string) : string := match HeaderValues h name with x :: _ => x | [] => EmptyString end.

Lemma HeaderGet_Set h name value : HeaderGet (HeaderSet h name value) name = value.
Proof. unfold HeaderGet, HeaderValues, HeaderSet. now rewrite lookup_insert_eq. Qed.

Lemma HeaderGet_Set_ne h name name' value : CanonicalHeaderKey name <> CanonicalHeaderKey name' ->
  HeaderGet (HeaderSet h name value) name' = HeaderGet h name'.
Proof. intros H. unfold HeaderGet, HeaderValues, HeaderSet. now rewrite lookup_insert_ne. Qed.

(** ** Requests and responses *)

Record URL := mkURL { u_Scheme : string; u_Host : string; u_Path : string; u_RawQuery : string }.

Definition EscapedPath (u : URL) : string := escape encodePath (u_Path u).
Definition URLQuery (u : URL) : Values := fst (ParseQuery (u_RawQuery u)).

Record Request := mkRequest
  { rq_Method : string; rq_URL : URL; rq_Host : string; rq_Header : Header; rq_Body : bytes; rq_ContentLength : Z }.

(** http.NewRequest of the string of a URL, which parses to the URL. *)
Definition NewRequest (method : string) (u : URL) (body : bytes) : Request := mkRequest method u (u_Host u) ∅ body (zlen body).

Definition withHeader (req : Request) (name value : string) : Request :=
  mkRequest (rq_Method req) (rq_URL req) (rq_Host req) (HeaderSet (rq_Header req) name value) (rq_Body req) (rq_ContentLength req).

Record Response := mkResponse { rs_StatusCode : Z; rs_Header : Header; rs_ContentLength : Z; rs_Body : list read_result }.

Class HttpServer (S : Type) := { serve : Request -> M S Response }.

Definition statusIn (resp : Response) (allowed : list Z) : bool := existsb (Z.eqb (rs_StatusCode resp)) allowed.

(** ** What the clients share *)

(** A stored object, as the clients report it. *)
Record StoredInfo := mkStored { si_Key : string; si_Size : Z; si_ETag : string; si_UpdatedAt : Time }.

(** One page of a listing. *)
Record StoredPage := mkPage { sp_Objects : list StoredInfo; sp_NextToken : string }.

Definition byKey (a b : StoredInfo) : bool := String.ltb (si_Key a) (si_Key b).

(** The keys that the clients accept. *)
Definition validKey (key : string) : bool :=
  negb (String.eqb key "" || String.eqb (Clean key) "." || IsAbs (Clean key) || String.eqb (Clean key) ".." || HasPrefix (Clean key) "../") &&
  negb (Contains key "\") && negb (existsb (String.eqb "..") (SplitOn "/" key)).

Lemma pathForKey_valid root key : pathForKey root key = if validKey key then Some (JoinPath root (Clean key)) else None.
Proof. unfold pathForKey, validKey. repeat case_match; try done; rewrite ?andb_true_r, ?andb_false_r, ?negb_true_iff in *; cbn in *; congruence. Qed.

(** A reader read to its end. *)
Definition readAll (r : list read_result) : outcome bytes :=
  match ended r with Some e => Err e | None => Ok (delivered r) end.

(** strings.Trim of one byte. *)
Fixpoint trimLeftByte (c : ascii) (s : string) : string :=
  match s with
  | String d r => if Ascii.eqb d c then trimLeftByte c r else s
  | EmptyString => EmptyString
  end.

Fixpoint trimRightByte (c : ascii) (s : string) : string :=
  match s with
  | String d r => match trimRightByte c r with EmptyString => if Ascii.eqb d c then EmptyString else String d EmptyString | t => String d t end
  | EmptyString => EmptyString
  end.

Definition TrimByte (c : ascii) (s : string) : string := trimRightByte c (trimLeftByte c s).

Definition quotation : ascii := ascii_of_nat 34.

Definition trimETag (etag : string) : string := TrimByte quotation etag.

Example trim_examples : TrimByte "/" "//a/b/" = "a/b"%string /\ TrimByte "/" "///" = ""%string /\ CanonicalHeaderKey "x-amz-date" = "X-Amz-Date"%string.
Proof. vm_compute. repeat split. Qed.
