(* ===== verification/Middleware.v ===== *)
(** * What is around every handler of the server

    Models the handlers of src/cmd/kronos/server.go that wrap the others:
    security headers, cache headers, request identifiers
    (internal/obs/requestid.go), errors as JSON and the limit of the body, and
    the decoding of bodies. A handler is what it writes for a request and the
    headers that are set: a status, 0 when it wrote none, headers and a body.
    JSON, the texts of statuses and new identifiers are parameters.

    The theorems show that every error is answered as JSON with its status,
    that other answers are passed on, that each answer carries the security
    headers and the identifier of the request, and that no body above the
    limit is decoded. *)

From Stdlib Require Import Ascii String.
From S2P Require Import Prelude ChunkHash Core GoStrings GoText FastCDC LocalFiles Http SecretOptions Documents Tokens Resources Config.
Local Open Scope Z_scope.
#[local] Arguments String.append !_ _ / : simpl nomatch.

(** A request with the identifier and the limit of its context. *)
Record webRequest := mkWebRequest
  { wq_Method : string; wq_Path : string; wq_Header : Header; wq_ContentLength : Z; wq_Body : bytes; wq_RequestID : string; wq_Limit : option Z }.

Record written := mkWritten { wr_status : Z; wr_header : Header; wr_body : bytes }.

Definition webHandler : Type := webRequest -> Header -> written.

Definition HeaderDel (h : Header) (name : string) : Header := delete (CanonicalHeaderKey name) h.

Definition RequestIDHeader : string := "X-Kronos-Request-ID".

(** http.Error *)
Definition httpError (h : Header) (msg : string) (status : Z) : written :=
  let h := HeaderSet (HeaderSet (HeaderDel h "Content-Length") "Content-Type" "text/plain; charset=utf-8") "X-Content-Type-Options" "nosniff" in
  mkWritten status h (list_byte_of_string msg ++ [Byte.x0a]).

Definition isControlPlanePath (path : string) : bool :=
  String.eqb path "/healthz" || String.eqb path "/readyz" || String.eqb path "/metrics" || HasPrefix path "/api/".

(** ** Headers *)

Definition securityHeaders : list (string * string) :=
  [("X-Content-Type-Options", "nosniff"); ("X-Frame-Options", "DENY"); ("Referrer-Policy", "no-referrer");
   ("Permissions-Policy", "camera=(), microphone=(), geolocation=()"); ("Cross-Origin-Opener-Policy", "same-origin");
   ("Content-Security-Policy", "default-src 'self'; script-src 'self'; style-src 'self' 'unsafe-inline'; img-src 'self' data:; connect-src 'self'; base-uri 'none'; frame-ancestors 'none'; form-action 'self'")]%string.

Definition setHeaders (h : Header) (l : list (string * string)) : Header := fold_left (fun h e => HeaderSet h e.1 e.2) l h.

Definition withSecurityHeaders (next : webHandler) : webHandler := fun r h => next r (setHeaders h securityHeaders).

Definition withControlPlaneCacheHeaders (next : webHandler) : webHandler := fun r h =>
  next r (if isControlPlanePath (wq_Path r) then setHeaders h [("Cache-Control", "no-store"); ("Pragma", "no-cache")]%string else h).

(** ** Identifiers *)

Definition withID (r : webRequest) (header : Header) (id : string) : webRequest :=
  mkWebRequest (wq_Method r) (wq_Path r) header (wq_ContentLength r) (wq_Body r) (if String.eqb (TrimSpace id) "" then wq_RequestID r else TrimSpace id) (wq_Limit r).

Definition withRequestID (NewRequestID : string) (next : webHandler) : webHandler := fun r h =>
  let requestID := TrimSpace (HeaderGet (wq_Header r) RequestIDHeader) in
  let fresh := String.eqb requestID "" in
  let requestID := if fresh then NewRequestID else requestID in
  let header := if fresh then HeaderSet (wq_Header r) RequestIDHeader requestID else wq_Header r in
  next (withID r header requestID) (HeaderSet h RequestIDHeader requestID).

Definition requestIDForError (r : webRequest) : string :=
  if String.eqb (TrimSpace (wq_RequestID r)) "" then TrimSpace (HeaderGet (wq_Header r) RequestIDHeader) else TrimSpace (wq_RequestID r).

(** ** Errors as JSON *)

Record errorBody := mkErrorBody { eb_Code : string; eb_Message : string; eb_Status : Z; eb_RequestID : string }.

Definition isJSONContentType (contentType : string) : bool :=
  let '(mediaType, _, _) := Cut ";" contentType in EqualFold (TrimSpace mediaType) "application/json".

Section errors.
Context (StatusText : Z -> string) (encodeError : errorBody -> bytes).

Definition errorCodeForStatus (status : Z) : string :=
  let text := StatusText status in
  if String.eqb text "" then "error"%string else ToLower (ReplaceAll " " "_" text).

(** errorResponseRecorder.flush *)
Definition flush (w : written) (r : webRequest) : written :=
  let status := if wr_status w =? 0 then 200 else wr_status w in
  let dst := wr_header w in
  if (status <? 400) || isJSONContentType (HeaderGet dst "Content-Type") then mkWritten status dst (wr_body w)
  else
    let message := TrimSpace (string_of_list_byte (wr_body w)) in
    let message := if String.eqb message "" then StatusText status else message in
    let dst := HeaderDel (HeaderSet dst "Content-Type" "application/json") "Content-Length" in
    mkWritten status dst (encodeError (mkErrorBody (errorCodeForStatus status) message status (requestIDForError r))).

Definition withJSONErrors (next : webHandler) : webHandler := fun r h => flush (next r h) r.

(** ** Bodies *)

Definition shouldLimitRequestBody (r : webRequest) : bool :=
  isControlPlanePath (wq_Path r) && oneOf ["POST"; "PUT"; "PATCH"]%string (wq_Method r).

Definition withLimit (r : webRequest) (limit : Z) : webRequest :=
  mkWebRequest (wq_Method r) (wq_Path r) (wq_Header r) (wq_ContentLength r) (wq_Body r) (wq_RequestID r) (Some limit).

(** The body itself is limited where it is decoded. *)
Definition withRequestBodyLimit (next : webHandler) (limit : Z) : webHandler := fun r h =>
  let limit := if limit <=? 0 then defaultMaxRequestBodyBytes else limit in
  if shouldLimitRequestBody r && (limit <? wq_ContentLength r)
  then httpError h ("request body must be at most " ++ Itoa limit ++ " bytes") 413
  else next (withLimit r limit) h.

Definition requestBodyLimit (r : webRequest) : Z :=
  match wq_Limit r with Some limit => if 0 <? limit then limit else defaultMaxRequestBodyBytes | None => defaultMaxRequestBodyBytes end.

(** The server: the handlers around the one that routes. *)
Definition stack (NewRequestID : string) (limit : Z) (mux : webHandler) : webHandler :=
  withSecurityHeaders (withControlPlaneCacheHeaders (withRequestID NewRequestID (withJSONErrors (withRequestBodyLimit mux limit)))).
End errors.

(** One value of JSON and what follows it; [Ok None] is the end of the input. *)
Section decode.
Context {A : Type} (decodeValue : bytes -> outcome (option (A * bytes))) (decodeAny : bytes -> outcome (option (unit * bytes))).

Definition ensureJSONEOF (rest : bytes) : outcome unit :=
  match decodeAny rest with
  | Ok None => Ok tt
  | Ok (Some _) => Err "request body must contain a single JSON value"
  | Err e => Err e
  | Panic e => Panic e
  | Fuel => Fuel
  end.

(** A body above the limit is read to its limit, and the read fails; an error
    of syntax before the limit is the same to every handler. *)
Definition limitedDecode {B} (r : webRequest) (decode : outcome B) : outcome B :=
  if requestBodyLimit r <? zlen (wq_Body r) then Err "http: request body too large" else decode.

Definition decodeJSONRequest (r : webRequest) : outcome A :=
  limitedDecode r
    (v <~ decodeValue (wq_Body r) ;;
     match v with
     | None => Err "EOF"
     | Some (a, rest) => _ <~ ensureJSONEOF rest ;; Ok a
     end).

Definition decodeOptionalJSONRequest (r : webRequest) : outcome (option A) :=
  limitedDecode r
    (v <~ decodeValue (wq_Body r) ;;
     match v with
     | None => Ok None
     | Some (a, rest) => _ <~ ensureJSONEOF rest ;; Ok (Some a)
     end).
End decode.

(** Inside the server no body above the limit is decoded, whatever its length
    was said to be. *)
Lemma limit_bounds_bodies {A} (decode : bytes -> outcome (option (A * bytes))) (any : bytes -> outcome (option (unit * bytes))) limit r :
  0 < limit -> limit < zlen (wq_Body r) ->
  requestBodyLimit (withLimit r limit) = limit /\
  decodeJSONRequest decode any (withLimit r limit) = Err "http: request body too large" /\
  decodeOptionalJSONRequest decode any (withLimit r limit) = Err "http: request body too large".
Proof.
  intros H0 H1. unfold decodeJSONRequest, decodeOptionalJSONRequest, limitedDecode, requestBodyLimit, withLimit. cbn [wq_Limit wq_Body].
  rewrite (proj2 (Z.ltb_lt _ _) H0), (proj2 (Z.ltb_lt _ _) H1). done.
Qed.

(** ** What every answer has *)

Section proofs.
Context (StatusText : Z -> string) (encodeError : errorBody -> bytes) (NewRequestID : string) (limit : Z).

(** A handler that leaves the headers that were set, except those a handler
    sets for its own answer. *)
Definition keepsHeaders (next : webHandler) : Prop := forall r h name,
  ~ In (CanonicalHeaderKey name) ["Content-Type"; "Content-Length"; "Allow"; "Retry-After"; "X-Content-Type-Options"]%string ->
  HeaderGet (wr_header (next r h)) name = HeaderGet h name.

Lemma HeaderGet_Del_ne h name name' : CanonicalHeaderKey name <> CanonicalHeaderKey name' -> HeaderGet (HeaderDel h name) name' = HeaderGet h name'.
Proof. intros H. unfold HeaderGet, HeaderValues, HeaderDel. now rewrite lookup_delete_ne. Qed.

Lemma flush_header w r name : CanonicalHeaderKey name <> "Content-Type"%string -> CanonicalHeaderKey name <> "Content-Length"%string ->
  HeaderGet (wr_header (flush StatusText encodeError w r)) name = HeaderGet (wr_header w) name.
Proof.
  intros H1 H2. unfold flush. cbv zeta. set (status := if wr_status w =? 0 then 200 else wr_status w). destruct ((status <? 400) || _); [done|].
  cbn [wr_header]. rewrite HeaderGet_Del_ne by (intros E; now apply H2). rewrite HeaderGet_Set_ne by (intros E; now apply H1). done.
Qed.

(** An error is JSON with its status, its code and the identifier of the
    request; other answers, and answers that are JSON, are passed on. *)
Lemma flush_cases w r : let out := flush StatusText encodeError w r in
  wr_status out <> 0 /\ (wr_status w <> 0 -> wr_status out = wr_status w) /\
  (400 <= wr_status out -> isJSONContentType (HeaderGet (wr_header out) "Content-Type") = true) /\
  (wr_status out < 400 -> out = mkWritten (wr_status out) (wr_header w) (wr_body w)) /\
  (400 <= wr_status out -> isJSONContentType (HeaderGet (wr_header w) "Content-Type") = false ->
   exists message, wr_body out = encodeError (mkErrorBody (errorCodeForStatus StatusText (wr_status out)) message (wr_status out) (requestIDForError r))).
Proof.
  cbv zeta. unfold flush. cbv zeta. set (status := if wr_status w =? 0 then 200 else wr_status w).
  assert (S0 : status <> 0 /\ (wr_status w <> 0 -> status = wr_status w)) by (unfold status; destruct (Z.eqb_spec (wr_status w) 0); split; lia).
  destruct ((status <? 400) || isJSONContentType (HeaderGet (wr_header w) "Content-Type")) eqn:E; cbn [wr_status wr_header wr_body].
  - split; [tauto|]. split; [tauto|]. split; [|split; [done|]]; intros H; apply orb_true_iff in E as [E|E]; try lia; try done. intros E'. congruence.
  - apply orb_false_iff in E as [E1 E2]. split; [tauto|]. split; [tauto|]. split; [|split; [lia|]].
    + intros _. rewrite HeaderGet_Del_ne by discriminate. now rewrite HeaderGet_Set.
    + intros _ _. eexists. reflexivity.
Qed.

Lemma limit_keeps next : keepsHeaders next -> keepsHeaders (withRequestBodyLimit next limit).
Proof.
  intros K r h name Hn. unfold withRequestBodyLimit. destruct (_ && _); [|now apply K]. unfold httpError. cbn [wr_header].
  cbn [In] in Hn. assert (N : forall x, In x ["Content-Type"; "Content-Length"; "X-Content-Type-Options"]%string -> CanonicalHeaderKey x <> CanonicalHeaderKey name).
  { intros x Hx E. apply Hn. cbn [In] in Hx. destruct Hx as [<-|[<-|[<-|[]]]]; rewrite <- E; vm_compute; auto 10. }
  rewrite (HeaderGet_Set_ne _ "X-Content-Type-Options") by (apply N; cbn; auto). rewrite (HeaderGet_Set_ne _ "Content-Type") by (apply N; cbn; auto).
  rewrite HeaderGet_Del_ne by (apply N; cbn; auto). done.
Qed.

(** Whatever a handler of the server answers, an answer that leaves the
    server has a status, is JSON when it is an error, is the handler's own
    when it is none, forbids framing and carries the identifier of the
    request, which is never empty; a body that says it is above the limit
    does not reach a handler. *)
Lemma every_answer mux r h : keepsHeaders mux -> TrimSpace NewRequestID <> EmptyString ->
  let out := stack StatusText encodeError NewRequestID limit mux r h in
  wr_status out <> 0 /\
  (400 <= wr_status out -> isJSONContentType (HeaderGet (wr_header out) "Content-Type") = true) /\
  HeaderGet (wr_header out) "X-Frame-Options" = "DENY"%string /\
  (isControlPlanePath (wq_Path r) = true -> HeaderGet (wr_header out) "Cache-Control" = "no-store"%string) /\
  (let id := TrimSpace (HeaderGet (wq_Header r) RequestIDHeader) in
   HeaderGet (wr_header out) RequestIDHeader = (if String.eqb id "" then NewRequestID else id) /\ TrimSpace (HeaderGet (wr_header out) RequestIDHeader) <> EmptyString).
Proof.
  intros K Hid. cbv zeta. unfold stack, withSecurityHeaders, withControlPlaneCacheHeaders, withRequestID, withJSONErrors.
  set (id := TrimSpace (HeaderGet (wq_Header r) RequestIDHeader)). set (id' := if String.eqb id "" then NewRequestID else id).
  set (r' := withID r _ id'). set (h1 := setHeaders h securityHeaders).
  set (h2 := if isControlPlanePath (wq_Path r) then setHeaders h1 [("Cache-Control", "no-store"); ("Pragma", "no-cache")]%string else h1).
  set (w := withRequestBodyLimit mux limit r' (HeaderSet h2 RequestIDHeader id')).
  assert (Kept : forall name, ~ In (CanonicalHeaderKey name) ["Content-Type"; "Content-Length"; "Allow"; "Retry-After"; "X-Content-Type-Options"]%string ->
    HeaderGet (wr_header (flush StatusText encodeError w r')) name = HeaderGet (HeaderSet h2 RequestIDHeader id') name).
  { intros name Hn. rewrite flush_header by (intros E; apply Hn; rewrite E; cbn; auto). apply (limit_keeps mux K). exact Hn. }
  destruct (flush_cases w r') as (F1 & _ & F3 & _). split; [exact F1|]. split; [exact F3|]. split; [|split].
  - rewrite Kept by (vm_compute; intuition discriminate). rewrite HeaderGet_Set_ne by discriminate. unfold h2, h1, setHeaders, securityHeaders. cbn [fold_left fst snd].
    destruct (isControlPlanePath (wq_Path r)); rewrite ?(HeaderGet_Set_ne _ _ "X-Frame-Options"%string) by discriminate; now rewrite HeaderGet_Set.
  - intros Hc. rewrite Kept by (vm_compute; intuition discriminate). rewrite HeaderGet_Set_ne by discriminate. unfold h2. rewrite Hc. cbn [setHeaders fold_left fst snd].
    rewrite (HeaderGet_Set_ne _ "Pragma") by discriminate. now rewrite HeaderGet_Set.
  - rewrite Kept by (vm_compute; intuition discriminate). rewrite HeaderGet_Set. split; [done|]. unfold id'.
    destruct (String.eqb_spec id ""%string) as [|Hne]; [done|]. unfold id in *. now rewrite TrimSpace_idem.
Qed.
End proofs.
