(* ===== verification/S3Sign.v ===== *)
(** * Signatures of S3 requests

    Models src/internal/storage/s3/sigv4.go. SHA-256 and HMAC are parameters;
    the clock's reading is an argument.

    The theorem shows what a signature binds: two requests with one signature
    agree in all that the service acts on. *)

From Stdlib Require Import Ascii String.
From S2P Require Import Prelude ChunkHash Core Calendar GoStrings GoText Retention FastCDC LocalFiles Http.
Local Open Scope Z_scope.
#[local] Arguments String.append !_ _ / : simpl nomatch.

Definition algorithm : string := "AWS4-HMAC-SHA256".
Definition awsRequest : string := "aws4_request".
Definition emptyPayloadSHA256 : string := "e3b0c44298fc1c149afbf4c8996fb92427ae41e4649b934ca495991b7852b855".

Record Credentials := mkCreds { cd_AccessKey : string; cd_SecretKey : string; cd_SessionToken : string; cd_ExpiresAt : Time }.
Record Signer := mkSigner { sg_Region : string; sg_Service : string }.
Record Signature := mkSignature
  { sn_Authorization : string; sn_CanonicalRequest : string; sn_StringToSign : string; sn_SignedHeaders : string;
    sn_Signature : string; sn_PayloadHash : string }.

Definition newline : ascii := ascii_of_nat 10.
Definition lines (l : list string) : string := Join l (String newline "").

(** ** The canonical request *)

Fixpoint uriEncode (value : string) (encodeSlash : bool) : string :=
  match value with
  | EmptyString => EmptyString
  | String c r =>
      if isUnreserved c || (Ascii.eqb c "/" && negb encodeSlash) then String c (uriEncode r encodeSlash)
      else percent c (uriEncode r encodeSlash)
  end.

Definition canonicalURI (u : URL) : string := if String.eqb (u_Path u) "" then "/" else uriEncode (u_Path u) false.

Definition pairLess (a b : string * string) : bool := if String.eqb a.1 b.1 then String.ltb a.2 b.2 else String.ltb a.1 b.1.

Definition queryPairs (values : Values) : list (string * string) :=
  concat (map (fun e =>
    match e.2 with
    | [] => [(uriEncode e.1 true, EmptyString)]
    | vals => map (fun value => (uriEncode e.1 true, uriEncode value true)) vals
    end) (map_to_list values)).

Definition joinPair (p : string * string) : string := (p.1 ++ "=" ++ p.2)%string.

Definition canonicalQuery (values : Values) : string := Join (map joinPair (sort_by pairLess (queryPairs values))) "&".

Definition hostOf (req : Request) : string := if String.eqb (rq_Host req) "" then u_Host (rq_URL req) else rq_Host req.

(** The headers that are signed, by their names in lower case. *)
Definition addLower (headers : gmap string (list string)) (e : string * list string) : gmap string (list string) :=
  let lower := ToLower e.1 in
  if String.eqb lower "authorization" then headers else <[lower := default [] (headers !! lower) ++ e.2]> headers.

Definition signedHeaders (req : Request) : gmap string (list string) :=
  <["host" := [hostOf req]]> (fold_left addLower (map_to_list (rq_Header req)) ∅).

Definition canonicalHeaderValue (values : list string) : string := Join (map (fun value => Join (Fields value) " ") values) ",".

Definition headerLine (e : string * list string) : string := (e.1 ++ ":" ++ canonicalHeaderValue e.2)%string.

Definition sortedHeaders (req : Request) : list (string * list string) := sort_by nameLess (map_to_list (signedHeaders req)).

Definition canonicalHeaders (req : Request) : string * string :=
  (concatAll (map (fun e => (headerLine e ++ String newline "")%string) (sortedHeaders req)), Join (map fst (sortedHeaders req)) ";").

Definition canonicalRequest (req : Request) (payloadHash : string) : string * string :=
  let '(headers, signed) := canonicalHeaders req in
  (lines [rq_Method req; canonicalURI (rq_URL req); canonicalQuery (URLQuery (rq_URL req)); headers; signed; payloadHash], signed).

(** ** Signing *)

Definition digitsOf (n : nat) (z : Z) : string := string_of_list_byte (decimal n z).

Definition shortDate (now : Time) : string := (digitsOf 4 (tYear now) ++ digitsOf 2 (tMonth now) ++ digitsOf 2 (tDay now))%string.

Definition timestamp (now : Time) : string :=
  (shortDate now ++ "T" ++ digitsOf 2 (tHour now) ++ digitsOf 2 (tMinute now) ++ digitsOf 2 (tSecond now) ++ "Z")%string.

Definition credentialScope (date region service : string) : string := Join [date; region; service; awsRequest] "/".

Section signing.
Context (sha256 : bytes -> bytes) (hmac : bytes -> bytes -> bytes).

Definition hexSHA256 (data : string) : string := string_of_list_byte (hexEncode (sha256 (list_byte_of_string data))).

Definition hmacSHA256 (key : bytes) (data : string) : bytes := hmac key (list_byte_of_string data).

Definition signingKey (secret date region service : string) : bytes :=
  hmacSHA256 (hmacSHA256 (hmacSHA256 (hmacSHA256 (list_byte_of_string ("AWS4" ++ secret)) date) region) service) awsRequest.

Definition withSigned (req : Request) (creds : Credentials) (now : Time) (payloadHash : string) : Request :=
  let req := withHeader req "x-amz-date" (timestamp now) in
  let req := withHeader req "x-amz-content-sha256" payloadHash in
  if String.eqb (cd_SessionToken creds) "" then req else withHeader req "x-amz-security-token" (cd_SessionToken creds).

Definition stringToSign (now : Time) (scope canonical : string) : string :=
  lines [algorithm; timestamp now; scope; hexSHA256 canonical].

Definition SignRequest (s : Signer) (req : Request) (creds : Credentials) (now : Time) (payloadHash : string) : outcome (Signature * Request) :=
  if String.eqb (cd_AccessKey creds) "" || String.eqb (cd_SecretKey creds) "" then Err "access key and secret key are required"
  else if String.eqb (sg_Region s) "" then Err "region is required"
  else
    let service := if String.eqb (sg_Service s) "" then "s3"%string else sg_Service s in
    let payloadHash := if String.eqb payloadHash "" then emptyPayloadSHA256 else payloadHash in
    let req := withSigned req creds now payloadHash in
    let '(canonical, signed) := canonicalRequest req payloadHash in
    let scope := credentialScope (shortDate now) (sg_Region s) service in
    let toSign := stringToSign now scope canonical in
    let signature := string_of_list_byte (hexEncode (hmacSHA256 (signingKey (cd_SecretKey creds) (shortDate now) (sg_Region s) service) toSign)) in
    let authorization := (algorithm ++ " Credential=" ++ cd_AccessKey creds ++ "/" ++ scope ++ ",SignedHeaders=" ++ signed ++ ",Signature=" ++ signature)%string in
    Ok (mkSignature authorization canonical toSign signed signature payloadHash, withHeader req "Authorization" authorization).
End signing.

Definition toyRequest : Request :=
  let u := mkURL "https" "s3.example" "/b/data/a b" (Encode (ValuesSet (ValuesSet ∅ "uploadId" "x/y") "partNumber" "2")) in
  withHeader (NewRequest "PUT" u []) "If-None-Match" "*".

Example sign_examples :
  timestamp (Date 2023 11 14 22 13 20 0) = "20231114T221320Z"%string /\
  canonicalQuery (URLQuery (rq_URL toyRequest)) = "partNumber=2&uploadId=x%2Fy"%string /\
  canonicalHeaders (withSigned toyRequest (mkCreds "a" "s" "" 0) 0 "h") =
    ("host:s3.example" ++ String newline ("if-none-match:*" ++ String newline ("x-amz-content-sha256:h" ++ String newline
     ("x-amz-date:00010101T000000Z" ++ String newline ""))), "host;if-none-match;x-amz-content-sha256;x-amz-date")%string /\
  canonicalURI (rq_URL toyRequest) = "/b/data/a%20b"%string.
Proof. vm_compute. repeat split. Qed.

(** ** What a signature binds *)

Lemma isUnreserved_percent c : isUnreserved c = true -> Ascii.eqb c "%" = false /\ Ascii.eqb c newline = false /\ Ascii.eqb c "=" = false /\ Ascii.eqb c "&" = false.
Proof. destruct c as [[] [] [] [] [] [] [] []]; vm_compute; intros H; try discriminate H; repeat split. Qed.

(** uriEncode escapes as the path segments and queries of net/url do, apart
    from the bytes that those keep. *)
Definition uri_back (c : ascii) : bool :=
  match unhex (upperHex (nat_of_ascii c / 16)), unhex (upperHex (nat_of_ascii c mod 16)) with
  | Some x, Some y => Ascii.eqb (ascii_of_nat (16 * x + y)) c
  | _, _ => false
  end.

Lemma every_uri_back c : uri_back c = true.
Proof. destruct c as [[] [] [] [] [] [] [] []]; reflexivity. Qed.

Lemma uriEncode_back s slash : unescape encodePath (uriEncode s slash) = Some s.
Proof.
  induction s as [|c s IH]; [done|]. cbn [uriEncode]. destruct (isUnreserved c || (Ascii.eqb c "/" && negb slash)) eqn:E.
  - assert (Hc : Ascii.eqb c "%" = false) by (apply orb_true_iff in E as [E|[->%Ascii.eqb_eq _]%andb_true_iff]; [now apply isUnreserved_percent in E as [? _]|done]).
    rewrite unescape_plain, IH by done. cbn [option_map isQuery]. now rewrite andb_false_r.
  - unfold percent. cbn [unescape]. pose proof (every_uri_back c) as H. unfold uri_back in H. rewrite IH.
    repeat case_match; try discriminate. now apply Ascii.eqb_eq in H as ->.
Qed.

Lemma uriEncode_inj s t slash : uriEncode s slash = uriEncode t slash -> s = t.
Proof. intros H. apply (f_equal (unescape encodePath)) in H. rewrite !uriEncode_back in H. now injection H. Qed.

(** What is encoded has no separator of the canonical request. *)
Definition separators : list ascii := [newline; "="%char; "&"%char].

Lemma percent_free c x : In x separators -> noByte x (percent c "") = true.
Proof. destruct c as [[] [] [] [] [] [] [] []]; intros [<-|[<-|[<-|[]]]]; reflexivity. Qed.

Lemma percent_app c r : percent c r = (percent c "" ++ r)%string.
Proof. reflexivity. Qed.

Lemma uriEncode_free s slash x : In x separators -> noByte x (uriEncode s slash) = true.
Proof.
  intros Hx. induction s as [|c s IH]; [done|]. cbn [uriEncode]. destruct (isUnreserved c || (Ascii.eqb c "/" && negb slash)) eqn:E.
  - cbn [noByte]. rewrite IH, andb_true_r. apply negb_true_iff.
    apply orb_true_iff in E as [E|[->%Ascii.eqb_eq _]%andb_true_iff].
    + apply isUnreserved_percent in E as (_ & E1 & E2 & E3). destruct Hx as [<-|[<-|[<-|[]]]]; assumption.
    + destruct Hx as [<-|[<-|[<-|[]]]]; reflexivity.
  - rewrite percent_app, noByte_app, IH, percent_free by done. done.
Qed.

Lemma noByte_Join x sep l : noByte x sep = true -> Forall (fun s => noByte x s = true) l -> noByte x (Join l sep) = true.
Proof.
  intros Hs. induction 1 as [|s rest H Hr IH]; [done|]. destruct rest as [|t rest]; [exact H|].
  change (Join (s :: t :: rest) sep) with (s ++ sep ++ Join (t :: rest) sep)%string. now rewrite !noByte_app, H, Hs, IH.
Qed.

Lemma fields_free s cur : noByte newline cur = true -> Forall (fun f => noByte newline f = true) (fields_loop s cur).
Proof.
  revert cur. induction s as [|c s IH]; intros cur Hc; cbn [fields_loop].
  - destruct (String.eqb cur ""); repeat constructor. exact Hc.
  - destruct (asciiSpace c) eqn:E; [destruct (String.eqb cur ""); [now apply IH|constructor; [done|now apply IH]]|].
    apply IH. rewrite noByte_app, Hc. cbn [noByte]. destruct (Ascii.eqb_spec c newline) as [->|_]; [discriminate E|done].
Qed.

Lemma headerValue_free values : noByte newline (canonicalHeaderValue values) = true.
Proof.
  apply noByte_Join; [done|]. apply Forall_map, Forall_forall. intros v _. apply noByte_Join; [done|]. now apply fields_free.
Qed.

(** Split at its newlines, the canonical request gives its parts. *)
Definition parts (req : Request) (payloadHash : string) : list string :=
  [rq_Method req; canonicalURI (rq_URL req); canonicalQuery (URLQuery (rq_URL req))] ++
  map headerLine (sortedHeaders req) ++ [EmptyString; Join (map fst (sortedHeaders req)) ";"; payloadHash].

Lemma lines_cons s rest : rest <> [] -> lines (s :: rest) = (s ++ String newline (lines rest))%string.
Proof. destruct rest; [done|]. reflexivity. Qed.

Lemma lines_block l rest : rest <> [] -> lines (concatAll (map (fun s => s ++ String newline "") l) :: rest)%string = lines (l ++ EmptyString :: rest).
Proof.
  intros Hr. induction l as [|s l IH]; [done|]. rewrite lines_cons in IH by done. change ((s :: l) ++ ?r) with (s :: (l ++ r)).
  rewrite !lines_cons by (done || now destruct l). cbn [map concatAll fold_right]. fold (concatAll (map (fun s => (s ++ String newline "")%string) l)).
  rewrite <- IH. rewrite !string_append_assoc. reflexivity.
Qed.

Lemma canonicalRequest_parts req payloadHash : fst (canonicalRequest req payloadHash) = lines (parts req payloadHash).
Proof.
  unfold canonicalRequest, canonicalHeaders, parts. cbn [fst].
  rewrite <- (map_map headerLine (fun s => (s ++ String newline "")%string)). cbn [app].
  rewrite !(lines_cons (rq_Method req)), !(lines_cons (canonicalURI _)), !(lines_cons (canonicalQuery _)) by (done || now destruct (map headerLine _)).
  now rewrite lines_block.
Qed.

(** A request whose method and header names have no byte that separates. *)
Definition wellFormed (req : Request) : Prop :=
  noByte newline (rq_Method req) = true /\
  forall name values, signedHeaders req !! name = Some values -> noByte newline name = true /\ noByte ":" name = true /\ noByte ";" name = true.

Lemma in_sortedHeaders req e : In e (sortedHeaders req) <-> signedHeaders req !! e.1 = Some e.2.
Proof.
  unfold sortedHeaders. rewrite sort_by_in, <- list_elem_of_In. destruct e as [name values]. apply elem_of_map_to_list.
Qed.

Lemma query_free values : noByte newline (canonicalQuery values) = true.
Proof.
  apply noByte_Join; [done|]. apply Forall_map, Forall_forall. intros p Hp.
  rewrite sort_by_perm in Hp. unfold queryPairs in Hp. apply list_elem_of_In, in_concat in Hp as (l & Hl & Hp).
  apply in_map_iff in Hl as ([k vs] & <- & _). unfold joinPair. cbn [fst snd] in Hp.
  destruct vs as [|v vs]; [destruct Hp as [<-|[]]|apply in_map_iff in Hp as (x & <- & _)]; cbn [fst snd];
    rewrite !noByte_app, !uriEncode_free by (now left); done.
Qed.

Lemma parts_free req payloadHash : wellFormed req -> noByte newline payloadHash = true ->
  Forall (fun s => noByte newline s = true) (parts req payloadHash).
Proof.
  intros [Hm Hn] Hp. unfold parts. rewrite !Forall_app, !Forall_cons, Forall_nil. repeat split; try done.
  - unfold canonicalURI. destruct (String.eqb _ ""); [done|]. apply uriEncode_free. now left.
  - apply query_free.
  - apply Forall_map, Forall_forall. intros e He%list_elem_of_In%in_sortedHeaders. unfold headerLine.
    destruct (Hn _ _ He) as (H1 & _ & _). now rewrite !noByte_app, H1, headerValue_free.
  - apply noByte_Join; [done|]. apply Forall_map, Forall_forall. intros e He%list_elem_of_In%in_sortedHeaders. now apply (Hn _ _ He).
Qed.

(** *** The parts of the parts *)

Lemma map_inj_on {A C} (f : A -> C) (P : A -> Prop) (l k : list A) : (forall x y, P x -> P y -> f x = f y -> x = y) ->
  Forall P l -> Forall P k -> map f l = map f k -> l = k.
Proof.
  intros Hf Hl. revert k. induction Hl as [|x l Hx Hl IH]; intros [|y k] Hk E; try discriminate; [done|].
  apply Forall_cons in Hk as [Hy Hk]. injection E as E1 E2. f_equal; eauto.
Qed.

Lemma cut_pair sep a b a' b' : noByte sep a = true -> noByte sep a' = true -> (a ++ String sep b = a' ++ String sep b')%string -> a = a' /\ b = b'.
Proof. intros H H' E. apply (f_equal (Cut sep)) in E. rewrite !Cut_app in E by done. now injection E. Qed.

(** The headers as they are signed. *)
Definition headerView (req : Request) : gmap string string := canonicalHeaderValue <$> signedHeaders req.

Lemma headerView_list req : headerView req = list_to_map (map (fun e => (e.1, canonicalHeaderValue e.2)) (sortedHeaders req)).
Proof.
  unfold headerView, sortedHeaders. pose proof (sort_by_perm nameLess (map_to_list (signedHeaders req))) as Hp.
  assert (Hn : NoDup (sort_by nameLess (map_to_list (signedHeaders req))).*1) by (rewrite Hp; apply NoDup_fst_map_to_list).
  transitivity (canonicalHeaderValue <$> (list_to_map (sort_by nameLess (map_to_list (signedHeaders req))) : gmap string (list string))).
  - f_equal. rewrite (list_to_map_proper _ (map_to_list (signedHeaders req)) Hn Hp). now rewrite list_to_map_to_list.
  - clear Hn Hp. induction (sort_by nameLess _) as [|[k v] l IH]; [apply fmap_empty|]. cbn [map]. rewrite !list_to_map_cons, fmap_insert, IH. done.
Qed.

Lemma headerLines_view r1 r2 : wellFormed r1 -> wellFormed r2 -> map headerLine (sortedHeaders r1) = map headerLine (sortedHeaders r2) ->
  headerView r1 = headerView r2.
Proof.
  intros [_ H1] [_ H2] E. rewrite !headerView_list. f_equal.
  set (view := fun e : string * list string => (e.1, canonicalHeaderValue e.2)).
  apply (map_inj_on (fun p : string * string => (p.1 ++ String ":" p.2)%string) (fun p => noByte ":" p.1 = true)).
  - intros [a b] [a' b'] Ha Ha' Hab. cbn [fst snd] in *. destruct (cut_pair ":" a b a' b' Ha Ha' Hab) as [-> ->]. done.
  - apply Forall_map, Forall_forall. intros e He%list_elem_of_In%in_sortedHeaders. now apply (H1 _ _ He).
  - apply Forall_map, Forall_forall. intros e He%list_elem_of_In%in_sortedHeaders. now apply (H2 _ _ He).
  - rewrite !map_map. exact E.
Qed.

(** The pairs of a query before they are encoded. *)
Definition rawPairs (values : Values) : list (string * string) :=
  concat (map (fun e => match e.2 with [] => [(e.1, EmptyString)] | vals => map (pair e.1) vals end) (map_to_list values)).

Definition decodePair (p : string * string) : option string * option string := (unescape encodePath p.1, unescape encodePath p.2).

Lemma decode_pairs values : map decodePair (queryPairs values) = map (fun p => (Some p.1, Some p.2)) (rawPairs values).
Proof.
  unfold queryPairs, rawPairs. rewrite !concat_map, !map_map. f_equal. apply map_ext. intros [k [|v vs]]; cbn [fst snd map].
  - unfold decodePair. cbn [fst snd]. now rewrite uriEncode_back.
  - unfold decodePair. cbn [fst snd]. rewrite !uriEncode_back. f_equal. rewrite !map_map. apply map_ext. intros x. cbn [fst snd]. now rewrite !uriEncode_back.
Qed.

Definition freePair (p : string * string) : Prop := noByte "=" p.1 = true /\ noByte "&" p.1 = true /\ noByte "&" p.2 = true.

Lemma queryPairs_free values : Forall freePair (sort_by pairLess (queryPairs values)).
Proof.
  apply Forall_forall. intros p Hp. rewrite sort_by_perm in Hp. unfold queryPairs in Hp.
  apply list_elem_of_In, in_concat in Hp as (l & Hl & Hp). apply in_map_iff in Hl as ([k vs] & <- & _). cbn [fst snd] in Hp.
  destruct vs as [|v vs]; [destruct Hp as [<-|[]]|apply in_map_iff in Hp as (x & <- & _)]; unfold freePair; cbn [fst snd];
    rewrite !uriEncode_free by (unfold separators; cbn; tauto); done.
Qed.

Lemma joinPairs_inj l k : Forall freePair l -> Forall freePair k -> Join (map joinPair l) "&" = Join (map joinPair k) "&" -> l = k.
Proof.
  assert (Hs : forall l : list (string * string), Forall freePair l -> l <> [] -> SplitOn "&" (Join (map joinPair l) "&") = map joinPair l).
  { intros m Hm Hne. apply (SplitOn_Join "&"); [now destruct m|]. apply Forall_map. eapply Forall_impl; [exact Hm|].
    intros p (H1 & H2 & H3). unfold joinPair. now rewrite !noByte_app, H2, H3. }
  assert (Hj : forall m : list (string * string), m <> [] -> Join (map joinPair m) "&" <> EmptyString).
  { intros [|[a b] [|q m]] Hm; [done|..]; destruct a; discriminate. }
  intros Hl Hk E. destruct (decide (l = [])) as [->|Nl], (decide (k = [])) as [->|Nk]; [done|destruct (Hj k Nk); exact (eq_sym E)|destruct (Hj l Nl); exact E|].
  apply (f_equal (SplitOn "&")) in E. rewrite !Hs in E by done.
  apply (map_inj_on joinPair freePair l k); [|done..]. intros [a b] [a' b'] (Ha & _) (Ha' & _) Hab. unfold joinPair in Hab. cbn [fst snd] in *.
  destruct (cut_pair "=" a b a' b' Ha Ha' Hab) as [-> ->]. done.
Qed.

Lemma query_binds v1 v2 : canonicalQuery v1 = canonicalQuery v2 -> rawPairs v1 ≡ₚ rawPairs v2.
Proof.
  intros E. apply joinPairs_inj in E; [|apply queryPairs_free..].
  assert (Hp : queryPairs v1 ≡ₚ queryPairs v2) by (rewrite <- (sort_by_perm pairLess (queryPairs v1)), E; apply sort_by_perm).
  apply (Permutation_map decodePair) in Hp. rewrite !decode_pairs in Hp.
  apply (Permutation_map (fun p : option string * option string => (default EmptyString p.1, default EmptyString p.2))) in Hp.
  assert (H : forall l : list (string * string), map (fun p : option string * option string => (default EmptyString p.1, default EmptyString p.2))
    (map (fun p => (Some p.1, Some p.2)) l) = l) by (induction l as [|[a b] l IH]; [done|]; cbn [map fst snd from_option]; now rewrite IH).
  now rewrite !H in Hp.
Qed.

Definition slashPath (u : URL) : string := if String.eqb (u_Path u) "" then "/"%string else u_Path u.

Lemma uri_binds u1 u2 : canonicalURI u1 = canonicalURI u2 -> slashPath u1 = slashPath u2.
Proof.
  assert (H : forall u, canonicalURI u = uriEncode (slashPath u) false) by (intros u; unfold canonicalURI, slashPath; now destruct (String.eqb _ "")).
  rewrite !H. apply uriEncode_inj.
Qed.

Record sameMeaning (r1 r2 : Request) : Prop := {
  sm_method : rq_Method r1 = rq_Method r2;
  sm_path : slashPath (rq_URL r1) = slashPath (rq_URL r2);
  sm_query : rawPairs (URLQuery (rq_URL r1)) ≡ₚ rawPairs (URLQuery (rq_URL r2));
  sm_headers : headerView r1 = headerView r2
}.

Lemma canonicalRequest_binds r1 r2 h1 h2 : wellFormed r1 -> wellFormed r2 -> noByte newline h1 = true -> noByte newline h2 = true ->
  fst (canonicalRequest r1 h1) = fst (canonicalRequest r2 h2) -> sameMeaning r1 r2 /\ h1 = h2.
Proof.
  intros W1 W2 N1 N2 E. rewrite !canonicalRequest_parts in E. apply (f_equal (SplitOn newline)) in E. unfold lines in E.
  rewrite !(SplitOn_Join newline) in E by (try apply parts_free; done || now destruct (map headerLine _)).
  unfold parts in E. cbn [app] in E. injection E as Em Eu Eq Et. apply app_inj_2 in Et as [El Et]; [|done]. injection Et as _ Eh.
  split; [|done]. split; [done|now apply uri_binds|now apply query_binds|now apply headerLines_view].
Qed.

Lemma string_of_bytes_inj a b : string_of_list_byte a = string_of_list_byte b -> a = b.
Proof. intros H. apply (f_equal list_byte_of_string) in H. now rewrite !list_byte_of_string_of_list_byte in H. Qed.

Lemma hex_free l : noByte newline (string_of_list_byte (hexEncode l)) = true.
Proof.
  unfold string_of_list_byte in *. induction l as [|x l IH]; [done|]. cbn [hexEncode map string_of_list_ascii noByte]. rewrite IH, !andb_true_r.
  destruct x; reflexivity.
Qed.

Lemma split_last s t : noByte newline t = true -> exists h l, SplitOn newline (s ++ String newline t) = h :: l ++ [t].
Proof.
  intros Ht. induction s as [|c s (h & l & IH)].
  - exists EmptyString, []. change (String.append "" ?x) with x. cbn [SplitOn]. now rewrite Ascii.eqb_refl, SplitOn_single.
  - change (String.append (String c s) ?x) with (String c (s ++ x))%string. cbn [SplitOn]. rewrite IH.
    destruct (Ascii.eqb c newline); [now exists EmptyString, (h :: l)|now exists (String c h), l].
Qed.

Lemma last_line a b t u : noByte newline t = true -> noByte newline u = true -> (a ++ String newline t = b ++ String newline u)%string -> t = u.
Proof.
  intros Ht Hu E. destruct (split_last a t Ht) as (h & l & Ea), (split_last b u Hu) as (h' & l' & Eb). rewrite E, Eb in Ea.
  change (h' :: l' ++ [u]) with ((h' :: l') ++ [u]) in Ea. change (h :: l ++ [t]) with ((h :: l) ++ [t]) in Ea.
  now apply app_inj_tail in Ea as [_ ->].
Qed.

Lemma stringToSign_binds sha256 now1 now2 scope1 scope2 c1 c2 :
  stringToSign sha256 now1 scope1 c1 = stringToSign sha256 now2 scope2 c2 -> sha256 (list_byte_of_string c1) = sha256 (list_byte_of_string c2).
Proof.
  assert (E : forall now scope c, exists a, stringToSign sha256 now scope c = (a ++ String newline (hexSHA256 sha256 c))%string).
  { intros. exists (lines [algorithm; timestamp now; scope]). unfold stringToSign, lines. cbn [Join]. now rewrite !string_append_assoc. }
  intros H. destruct (E now1 scope1 c1) as [a Ea], (E now2 scope2 c2) as [b Eb]. rewrite Ea, Eb in H. apply last_line in H; [|apply hex_free|apply hex_free].
  apply string_of_bytes_inj in H. now apply hexEncode_inj.
Qed.

Lemma list_byte_of_string_inj a b : list_byte_of_string a = list_byte_of_string b -> a = b.
Proof. intros H. apply (f_equal string_of_list_byte) in H. now rewrite !string_of_list_byte_of_string in H. Qed.

(** C24: a signature of S3 binds what the service acts on: two signed requests
    of one signature have the same method, path, query and signed headers, the
    host, the date and the session token among them, and the same hash of the
    payload, unless SHA-256 or HMAC collide on them. *)
Theorem sigv4_binds sha256 hmac s1 s2 req1 req2 creds1 creds2 now1 now2 hash1 hash2 sig1 sig2 r1 r2 :
  SignRequest sha256 hmac s1 req1 creds1 now1 hash1 = Ok (sig1, r1) -> SignRequest sha256 hmac s2 req2 creds2 now2 hash2 = Ok (sig2, r2) ->
  sn_Signature sig1 = sn_Signature sig2 ->
  (forall k1 k2 d1 d2, d1 = list_byte_of_string (sn_StringToSign sig1) -> d2 = list_byte_of_string (sn_StringToSign sig2) -> hmac k1 d1 = hmac k2 d2 -> d1 = d2) ->
  (forall d1 d2, d1 = list_byte_of_string (sn_CanonicalRequest sig1) -> d2 = list_byte_of_string (sn_CanonicalRequest sig2) -> sha256 d1 = sha256 d2 -> d1 = d2) ->
  let signed1 := withSigned req1 creds1 now1 (sn_PayloadHash sig1) in
  let signed2 := withSigned req2 creds2 now2 (sn_PayloadHash sig2) in
  wellFormed signed1 -> wellFormed signed2 -> noByte newline (sn_PayloadHash sig1) = true -> noByte newline (sn_PayloadHash sig2) = true ->
  sameMeaning signed1 signed2 /\ sn_PayloadHash sig1 = sn_PayloadHash sig2.
Proof.
  unfold SignRequest. intros S1 S2 Es Hm Hs.
  destruct (String.eqb (cd_AccessKey creds1) "" || _); [discriminate|]. destruct (String.eqb (sg_Region s1) ""); [discriminate|].
  destruct (String.eqb (cd_AccessKey creds2) "" || _); [discriminate|]. destruct (String.eqb (sg_Region s2) ""); [discriminate|].
  set (h1 := if String.eqb hash1 "" then _ else _) in S1. set (h2 := if String.eqb hash2 "" then _ else _) in S2.
  destruct (canonicalRequest (withSigned req1 creds1 now1 h1) h1) as [c1 l1] eqn:E1.
  destruct (canonicalRequest (withSigned req2 creds2 now2 h2) h2) as [c2 l2] eqn:E2.
  injection S1 as <- _. injection S2 as <- _. cbn [sn_Signature sn_StringToSign sn_CanonicalRequest sn_PayloadHash] in *. intros W1 W2 N1 N2.
  unfold hmacSHA256 in Es. apply string_of_bytes_inj, hexEncode_inj in Es.
  specialize (Hm _ _ _ _ eq_refl eq_refl Es). apply list_byte_of_string_inj, stringToSign_binds in Hm.
  specialize (Hs _ _ eq_refl eq_refl Hm). apply list_byte_of_string_inj in Hs.
  apply canonicalRequest_binds; [done..|]. now rewrite E1, E2.
Qed.

(** Two requests that differ in nothing that is signed. *)
Lemma sigv4_binds_witness :
  let id (x : bytes) := x in
  let mac (k d : bytes) := d in
  let creds := mkCreds "a" "s" "" 0 in
  let other := withHeader toyRequest "If-None-Match" " * " in
  sameMeaning (withSigned toyRequest creds 0 "h") (withSigned other creds 0 "h") /\ "h"%string = "h"%string.
Proof.
  intros id mac creds other.
  destruct (SignRequest id mac (mkSigner "eu" "s3") toyRequest creds 0 "h") as [[sig1 r1]|?|?|] eqn:E1; [|discriminate E1..].
  destruct (SignRequest id mac (mkSigner "eu" "s3") other creds 0 "h") as [[sig2 r2]|?|?|] eqn:E2; [|discriminate E2..].
  assert (H1 : sn_PayloadHash sig1 = "h"%string) by (vm_compute in E1; now injection E1 as <- _).
  assert (H2 : sn_PayloadHash sig2 = "h"%string) by (vm_compute in E2; now injection E2 as <- _).
  assert (W : forall b : bool, wellFormed (withSigned (if b then toyRequest else other) creds 0 "h")).
  { intros b. split; [now destruct b|]. intros name values Hn. apply elem_of_map_to_list in Hn.
    assert (H : forallb (fun e => noByte newline e.1 && noByte ":" e.1 && noByte ";" e.1) (map_to_list (signedHeaders (withSigned (if b then toyRequest else other) creds 0 "h"))) = true)
      by (destruct b; vm_compute; reflexivity).
    rewrite forallb_forall in H. specialize (H (name, values) (proj1 (list_elem_of_In _ _) Hn)). cbn [fst] in H.
    apply andb_true_iff in H as [[H ?]%andb_true_iff ?]. done. }
  pose proof (sigv4_binds id mac (mkSigner "eu" "s3") (mkSigner "eu" "s3") toyRequest other creds creds 0 0 "h" "h" sig1 sig2 r1 r2 E1 E2) as T.
  cbv zeta in T. rewrite H1, H2 in T. apply T; [|done|done|exact (W true)|exact (W false)|done|done].
  vm_compute in E1, E2. injection E1 as <- _. injection E2 as <- _. reflexivity.
Defined.
