(* ===== verification/S3.v ===== *)
(** * The S3 client

    Models src/internal/storage/s3/backend.go over a server of Http.v: the
    configuration, the requests of every operation, retries, credentials that
    expire, and uploads in parts. The cached credentials and the server are
    the state. The clock's reading, the XML codecs and the parsers of dates
    and URLs are parameters; the file a body is spooled to is its contents,
    and cancellation is left out.

    The theorems show that the object of a key is written once and whole,
    whatever requests are lost or repeated, and what an upload in parts does
    to an object that appears in the meantime. *)

From Stdlib Require Import Ascii String.
From S2P Require Import Prelude ChunkHash Core Calendar GoStrings GoText Retention FastCDC LocalFiles Http S3Sign.
Local Open Scope Z_scope.
#[local] Arguments String.append !_ _ / : simpl nomatch.

Definition defaultMultipartThreshold : Z := 64 * 1024 * 1024.
Definition defaultMultipartPartSize : Z := 16 * 1024 * 1024.

Definition Millisecond : Z := 1000000.

Record RetryConfig := mkRetry { rc_MaxAttempts : Z; rc_BaseDelay : Z; rc_MaxDelay : Z }.

Section client.
Context {S : Type} {HS : HttpServer S}.
Context (sha256 : bytes -> bytes) (hmac : bytes -> bytes -> bytes) (now : Time).
Context (parseURL : string -> option URL) (ParseTime : string -> option Time).

Record Config := mkConfig
  { cf_Name : string; cf_Endpoint : string; cf_Region : string; cf_Bucket : string; cf_Credentials : Credentials;
    cf_CredentialsProvider : option (M S Credentials); cf_ForcePathStyle : bool; cf_MultipartThreshold : Z;
    cf_MultipartPartSize : Z; cf_Retry : RetryConfig }.

Record S3Backend := mkS3
  { s3_name : string; s3_endpoint : URL; s3_region : string; s3_bucket : string; s3_credsProvider : option (M S Credentials);
    s3_forcePathStyle : bool; s3_signer : Signer; s3_multipartThreshold : Z; s3_multipartPartSize : Z; s3_retry : RetryConfig }.

(** The credentials of the backend change when they expire. *)
Definition S3M := M (Credentials * S).

Definition onServer {A} (m : M S A) : S3M A := fun s => let '(r, s') := m s.2 in (r, (s.1, s')).

Definition validateCredentials (creds : Credentials) : outcome Credentials :=
  if String.eqb (cd_AccessKey creds) "" || String.eqb (cd_SecretKey creds) "" then Err "access key and secret key are required" else Ok creds.

Definition orDefault (v d : Z) : Z := if v <=? 0 then d else v.

(** New resolves the first credentials. *)
Definition New (cfg : Config) : M S (S3Backend * Credentials) :=
  let endpoint := if String.eqb (cf_Endpoint cfg) "" then "https://s3.amazonaws.com"%string else cf_Endpoint cfg in
  match parseURL endpoint with
  | None => merr "parse s3 endpoint"
  | Some u =>
      if String.eqb (u_Scheme u) "" || String.eqb (u_Host u) "" then merr "s3 endpoint must include scheme and host"
      else if String.eqb (cf_Region cfg) "" then merr "s3 region is required"
      else if String.eqb (cf_Bucket cfg) "" then merr "s3 bucket is required"
      else
        creds <-- match cf_CredentialsProvider cfg with Some provider => provider | None => mret (cf_Credentials cfg) end ;;
        creds <-- mlift (validateCredentials creds) ;;
        let retry := mkRetry (orDefault (rc_MaxAttempts (cf_Retry cfg)) 5) (orDefault (rc_BaseDelay (cf_Retry cfg)) (100 * Millisecond))
                             (orDefault (rc_MaxDelay (cf_Retry cfg)) (5 * Second)) in
        mret (mkS3 (if String.eqb (cf_Name cfg) "" then "s3"%string else cf_Name cfg) u (cf_Region cfg) (cf_Bucket cfg) (cf_CredentialsProvider cfg)
                   (cf_ForcePathStyle cfg) (mkSigner (cf_Region cfg) "s3") (orDefault (cf_MultipartThreshold cfg) defaultMultipartThreshold)
                   (orDefault (cf_MultipartPartSize cfg) defaultMultipartPartSize) retry, creds)
  end.

(** ** Requests *)

Definition newRequest (b : S3Backend) (method key : string) (query : Values) (body : bytes) : outcome Request :=
  if negb (String.eqb key "") && negb (validKey key) then Err "invalid object key"
  else
    let endpoint := s3_endpoint b in
    let u :=
      if s3_forcePathStyle b
      then mkURL (u_Scheme endpoint) (u_Host endpoint) ("/" ++ s3_bucket b ++ "/" ++ key) (Encode query)
      else mkURL (u_Scheme endpoint) (s3_bucket b ++ "." ++ u_Host endpoint) ("/" ++ key) (Encode query) in
    Ok (NewRequest method u body).

Definition credentialsNeedRefresh (creds : Credentials) : bool :=
  if TimeIsZero (cd_ExpiresAt creds) then false else negb (now + 5 * Minute <? cd_ExpiresAt creds).

Definition credentials (b : S3Backend) : S3M Credentials := fun s =>
  match s3_credsProvider b with
  | None => (Ok s.1, s)
  | Some provider =>
      if negb (String.eqb (cd_AccessKey s.1) "") && negb (credentialsNeedRefresh s.1) then (Ok s.1, s)
      else
        match onServer provider s with
        | (Ok creds, s') => match validateCredentials creds with Ok creds => (Ok creds, (creds, s'.2)) | _ => (Err "refresh s3 credentials", s') end
        | (Err _, s') => (Err "refresh s3 credentials", s')
        | (Panic e, s') => (Panic e, s')
        | (Fuel, s') => (Fuel, s')
        end
  end.

Definition sign (b : S3Backend) (req : Request) (payloadHash : string) : S3M Request :=
  creds <-- credentials b ;;
  signed <-- mlift (SignRequest sha256 hmac (s3_signer b) req creds now payloadHash) ;;
  mret signed.2.

(** ** Retries *)

Definition isRetryableStatus (status : Z) : bool := existsb (Z.eqb status) [429; 408; 500; 502; 503; 504].

(** Attempts that are left after this one. *)
Fixpoint do_loop (n : nat) (req : Request) : M S Response := fun s =>
  match serve req s with
  | (Ok resp, s') =>
      match n with
      | O => (Ok resp, s')
      | Datatypes.S more => if isRetryableStatus (rs_StatusCode resp) then do_loop more req s' else (Ok resp, s')
      end
  | (Err e, s') => match n with O => (Err e, s') | Datatypes.S more => do_loop more req s' end
  | (Panic e, s') => (Panic e, s')
  | (Fuel, s') => (Fuel, s')
  end.

Definition do (b : S3Backend) (req : Request) : S3M Response :=
  onServer (do_loop (Z.to_nat (rc_MaxAttempts (s3_retry b)) - 1) req).

(** The delay before the next attempt; [nanos] is the clock's reading. *)
Definition retryDelay (retry : RetryConfig) (nanos : Z) (attempt : Z) (header : option Header) : Z :=
  let backoff :=
    let delay := if rc_BaseDelay retry <=? 0 then 100 * Millisecond else rc_BaseDelay retry in
    let delay := if 1 <? attempt then i64 (delay * 2 ^ Z.min (attempt - 1) 10) else delay in
    let delay := if (0 <? rc_MaxDelay retry) && (rc_MaxDelay retry <? delay) then rc_MaxDelay retry else delay in
    if delay <=? 0 then 0 else Z.quot delay 2 + Z.rem nanos (Z.quot delay 2 + 1) in
  match header with
  | None => backoff
  | Some h =>
      let value := HeaderGet h "Retry-After" in
      if String.eqb value "" then backoff
      else match ParseInt value with
           | Ok seconds => if 0 <=? seconds then i64 (seconds * Second) else backoff
           | _ => match ParseTime value with Some due => Z.max 0 (due - now) | None => backoff end
           end
  end.

(** ** Answers *)

Definition expectStatus (resp : Response) (allowed : list Z) : outcome unit :=
  if statusIn resp allowed then Ok tt else Err "s3 request failed".

Definition objectInfoFromHeaders (key : string) (fallbackSize : Z) (header : Header) : StoredInfo :=
  let size := match ParseInt (HeaderGet header "Content-Length") with
    | Ok parsed => if (0 <? parsed) || (fallbackSize <? 0) then parsed else fallbackSize
    | _ => fallbackSize
    end in
  mkStored key size (trimETag (HeaderGet header "ETag")) (default 0 (ParseTime (HeaderGet header "Last-Modified"))).

(** ** Operations *)

Definition exchange (b : S3Backend) (req : outcome Request) (payloadHash : string) : S3M Response :=
  req <-- mlift req ;;
  req <-- sign b req payloadHash ;;
  do b req.

Definition contentLength (req : Request) (n : Z) : Request := withHeader req "Content-Length" (Itoa n).

Definition alreadyStored : string := "object already exists".
Definition notFound : string := "object not found".

Definition hexOf (data : bytes) : string := string_of_list_byte (hexEncode (sha256 data)).

(** spoolAndHash reads to the end; the size and the contents are those of the
    file. *)
Definition spoolAndHash (r : list read_result) : outcome (bytes * string) :=
  data <~ readAll r ;; Ok (data, hexOf data).

Definition putSingle (b : S3Backend) (key : string) (data : bytes) (payloadHash : string) : S3M StoredInfo :=
  req <-- mlift (newRequest b "PUT" key ∅ data) ;;
  resp <-- exchange b (Ok (contentLength (withHeader req "If-None-Match" "*") (zlen data))) payloadHash ;;
  if statusIn resp [412; 409] then merr alreadyStored
  else _ <-- mlift (expectStatus resp [200; 201; 204]) ;; mret (objectInfoFromHeaders key (zlen data) (rs_Header resp)).

Definition Get (b : S3Backend) (key : string) : S3M (list read_result * StoredInfo) :=
  resp <-- exchange b (newRequest b "GET" key ∅ []) emptyPayloadSHA256 ;;
  if statusIn resp [404] then merr notFound
  else _ <-- mlift (expectStatus resp [200]) ;; mret (rs_Body resp, objectInfoFromHeaders key (rs_ContentLength resp) (rs_Header resp)).

(** io.LimitReader: at most [n] bytes of the stream. *)
Fixpoint limitReader (n : Z) (r : list read_result) : list read_result :=
  if n <=? 0 then [REOF []]
  else match r with
       | [] => []
       | x :: rest =>
           if zlen (result_bytes x) <? n then x :: limitReader (n - zlen (result_bytes x)) rest
           else [REOF (take (Z.to_nat n) (result_bytes x))]
       end.

Definition rangeHeader (off len : Z) : string := ("bytes=" ++ Itoa off ++ "-" ++ Itoa (off + len - 1))%string.

Definition GetRange (b : S3Backend) (key : string) (off len : Z) : S3M (list read_result) :=
  if (off <? 0) || (len <? 0) then merr "invalid range"
  else if len =? 0 then mret [REOF []]
  else
    resp <-- exchange b (req <~ newRequest b "GET" key ∅ [] ;; Ok (withHeader req "Range" (rangeHeader off len))) emptyPayloadSHA256 ;;
    if statusIn resp [404] then merr notFound
    else _ <-- mlift (expectStatus resp [206; 200]) ;;
         mret (if statusIn resp [206] then limitReader len (rs_Body resp) else rs_Body resp).

Definition Head (b : S3Backend) (key : string) : S3M StoredInfo :=
  resp <-- exchange b (newRequest b "HEAD" key ∅ []) emptyPayloadSHA256 ;;
  if statusIn resp [404] then merr notFound
  else _ <-- mlift (expectStatus resp [200]) ;; mret (objectInfoFromHeaders key (rs_ContentLength resp) (rs_Header resp)).

Definition Exists (b : S3Backend) (key : string) : S3M bool := fun s =>
  match Head b key s with
  | (Ok _, s') => (Ok true, s')
  | (Err e, s') => if String.eqb e notFound then (Ok false, s') else (Err e, s')
  | (Panic e, s') => (Panic e, s')
  | (Fuel, s') => (Fuel, s')
  end.

Definition Delete (b : S3Backend) (key : string) : S3M unit :=
  resp <-- exchange b (newRequest b "DELETE" key ∅ []) emptyPayloadSHA256 ;;
  if statusIn resp [404] then mret tt else mlift (expectStatus resp [200; 204]).

(** What the XML of a listing holds. *)
Record listObject := mkListObject { lb_Key : string; lb_LastModified : Time; lb_ETag : string; lb_Size : Z }.
Record completedPart := mkPart { cp_PartNumber : Z; cp_ETag : string }.
Context (decodeList : list read_result -> option (list listObject * string)).
Context (decodeUploadID : list read_result -> option string) (encodeParts : list completedPart -> bytes).

Definition listQuery (prefix token : string) : Values :=
  let values := ValuesSet ∅ "list-type" "2" in
  let values := if String.eqb prefix "" then values else ValuesSet values "prefix" prefix in
  if String.eqb token "" then values else ValuesSet values "continuation-token" token.

Definition List (b : S3Backend) (prefix token : string) : S3M StoredPage :=
  resp <-- exchange b (newRequest b "GET" "" (listQuery prefix token) []) emptyPayloadSHA256 ;;
  _ <-- mlift (expectStatus resp [200]) ;;
  match decodeList (rs_Body resp) with
  | None => merr "decode s3 list response"
  | Some (items, next) => mret (mkPage (map (fun i => mkStored (lb_Key i) (lb_Size i) (trimETag (lb_ETag i)) (lb_LastModified i)) items) next)
  end.

(** ** Uploads in parts *)

Definition createMultipartUpload (b : S3Backend) (key : string) : S3M string :=
  resp <-- exchange b (newRequest b "POST" key (ValuesSet ∅ "uploads" "") []) emptyPayloadSHA256 ;;
  _ <-- mlift (expectStatus resp [200; 201]) ;;
  match decodeUploadID (rs_Body resp) with
  | None => merr "decode create multipart response"
  | Some id => if String.eqb id "" then merr "create multipart response missing upload id" else mret id
  end.

Definition uploadPart (b : S3Backend) (key uploadID : string) (partNumber : Z) (body : bytes) : S3M string :=
  let values := ValuesSet (ValuesSet ∅ "partNumber" (Itoa partNumber)) "uploadId" uploadID in
  resp <-- exchange b (req <~ newRequest b "PUT" key values body ;; Ok (contentLength req (zlen body))) (hexOf body) ;;
  _ <-- mlift (expectStatus resp [200]) ;;
  let etag := HeaderGet (rs_Header resp) "ETag" in
  if String.eqb (trimETag etag) "" then merr "upload part response missing etag" else mret etag.

Definition completeMultipartUpload (b : S3Backend) (key uploadID : string) (parts : list completedPart) : S3M StoredInfo :=
  let body := encodeParts parts in
  resp <-- exchange b (req <~ newRequest b "POST" key (ValuesSet ∅ "uploadId" uploadID) body ;; Ok (contentLength req (zlen body))) (hexOf body) ;;
  _ <-- mlift (expectStatus resp [200; 201]) ;;
  mret (objectInfoFromHeaders key (-1) (rs_Header resp)).

Definition abortMultipartUpload (b : S3Backend) (key uploadID : string) : S3M unit :=
  resp <-- exchange b (newRequest b "DELETE" key (ValuesSet ∅ "uploadId" uploadID) []) emptyPayloadSHA256 ;;
  mlift (expectStatus resp [200; 204]).

(** An error after the upload was created aborts it. *)
Definition orAbort {A} (b : S3Backend) (key uploadID : string) (m : S3M A) : S3M A := fun s =>
  match m s with
  | (Err e, s') =>
      match abortMultipartUpload b key uploadID s' with
      | (Panic p, s'') => (Panic p, s'')
      | (Fuel, s'') => (Fuel, s'')
      | (_, s'') => (Err e, s'')
      end
  | r => r
  end.

(** The parts from [offset] on; there are no more than [fuel]. *)
Fixpoint uploadParts (fuel : nat) (b : S3Backend) (key uploadID : string) (data : bytes) (offset partNumber : Z) : S3M (list completedPart) :=
  match fuel with
  | O => if offset <? zlen data then mfuel else mret []
  | Datatypes.S fuel =>
      if offset <? zlen data then
        etag <-- uploadPart b key uploadID partNumber (zslice offset (Z.min (s3_multipartPartSize b) (zlen data - offset)) data) ;;
        rest <-- uploadParts fuel b key uploadID data (offset + s3_multipartPartSize b) (partNumber + 1) ;;
        mret (mkPart partNumber etag :: rest)
      else mret []
  end.

Definition putMultipart (b : S3Backend) (key : string) (data : bytes) : S3M StoredInfo :=
  exists' <-- Exists b key ;;
  if (exists' : bool) then merr alreadyStored
  else
    uploadID <-- createMultipartUpload b key ;;
    parts <-- orAbort b key uploadID (uploadParts (length data) b key uploadID data 0 1) ;;
    info <-- orAbort b key uploadID (completeMultipartUpload b key uploadID parts) ;;
    mret (if si_Size info <? 0 then mkStored (si_Key info) (zlen data) (si_ETag info) (si_UpdatedAt info) else info).

Definition Put (b : S3Backend) (key : string) (r : list read_result) (size : Z) : S3M StoredInfo :=
  if negb (validKey key) then merr "invalid object key"
  else
    spooled <-- mlift (spoolAndHash r) ;;
    let '(data, payloadHash) := spooled in
    if (0 <=? size) && negb (zlen data =? size) then merr "size mismatch"
    else if s3_multipartThreshold b <=? zlen data then putMultipart b key data
    else putSingle b key data payloadHash.
End client.
