(* ===== verification/S3Proofs.v ===== *)
(** * Objects of the S3 client

    What the operations of S3.v do to the objects of a service that behaves as
    documented ([S3Laws]): it applies a request or does not, whether its
    answer arrives or not. *)

From Stdlib Require Import Ascii String.
From S2P Require Import Prelude ChunkHash Core Calendar GoStrings GoText Retention FastCDC LocalFiles Http S3Sign S3.
Local Open Scope Z_scope.
#[local] Arguments String.append !_ _ / : simpl nomatch.

(** ** The service *)

Abbreviation location := (string * string)%type.

(** Its objects by host and path, and the parts of the uploads by upload and
    number. *)
Record S3State := mkS3State { so_objects : gmap location bytes; so_parts : gmap (string * Z) bytes }.

Definition locationOf (req : Request) : location := (rq_Host req, u_Path (rq_URL req)).

Definition partNumberOf (v : Values) : Z := default 0 (Atoi (ValuesGet v "partNumber")).

Section service.
Context (decodeParts : bytes -> list Z).

(** The documented effect of a request, and the status of its answer. *)
Definition s3_apply (req : Request) (st : S3State) : Z * S3State :=
  let v := URLQuery (rq_URL req) in
  let at_ := locationOf req in
  let upload := ValuesGet v "uploadId" in
  if String.eqb (rq_Method req) "PUT" then
    if negb (String.eqb upload "") then (200, mkS3State (so_objects st) (<[(upload, partNumberOf v) := rq_Body req]> (so_parts st)))
    else if String.eqb (HeaderGet (rq_Header req) "If-None-Match") "*" && bool_decide (is_Some (so_objects st !! at_)) then (412, st)
    else (200, mkS3State (<[at_ := rq_Body req]> (so_objects st)) (so_parts st))
  else if String.eqb (rq_Method req) "POST" && negb (String.eqb upload "") then
    match mapM (fun n => so_parts st !! (upload, n)) (decodeParts (rq_Body req)) with
    | Some parts => (200, mkS3State (<[at_ := concat parts]> (so_objects st)) (so_parts st))
    | None => (400, st)
    end
  else if String.eqb (rq_Method req) "DELETE" && String.eqb upload "" then (204, mkS3State (delete at_ (so_objects st)) (so_parts st))
  else if String.eqb (rq_Method req) "GET" || String.eqb (rq_Method req) "HEAD" then
    (if bool_decide (is_Some (so_objects st !! at_)) || bool_decide (is_Some (v !! "list-type")) then 200 else 404, st)
  else (200, st).

Definition effect (req : Request) (st : S3State) : S3State := snd (s3_apply req st).

(** Answers that tell what happened. *)
Definition decisive (status : Z) : bool := ((200 <=? status) && (status <=? 299)) || existsb (Z.eqb status) [404; 409; 412].

Class S3Laws (S : Type) `{HttpServer S} := {
  stateOf : S -> S3State;
  applied_or_not : forall req (s : S) r s', serve req s = (r, s') -> stateOf s' = stateOf s \/ stateOf s' = effect req (stateOf s);
  answered : forall req (s : S) resp s', serve req s = (Ok resp, s') -> decisive (rs_StatusCode resp) = true ->
    rs_StatusCode resp = fst (s3_apply req (stateOf s)) /\ stateOf s' = effect req (stateOf s);
  other_error : forall req (s : S) e s', serve req s = (Err e, s') -> e <> notFound;
  body_read : forall req (s : S) resp s' data, serve req s = (Ok resp, s') -> rq_Method req = "GET"%string -> URLQuery (rq_URL req) = ∅ ->
    rs_StatusCode resp = 200 -> readAll (rs_Body resp) = Ok data -> so_objects (stateOf s) !! locationOf req = Some data
}.

Lemma effect_idem req st : effect req (effect req st) = effect req st.
Proof.
  unfold effect, s3_apply. cbv zeta. destruct (String.eqb (rq_Method req) "PUT").
  - destruct (negb _); [cbn; now rewrite insert_insert_eq|]. destruct (String.eqb (HeaderGet _ _) "*").
    + cbn [andb]. destruct (so_objects st !! locationOf req) as [v|] eqn:E.
      * rewrite !bool_decide_true by eauto. done.
      * rewrite (bool_decide_false _ is_Some_None). cbn [snd so_objects]. rewrite lookup_insert_eq, bool_decide_true by eauto. done.
    + cbn [andb snd so_objects so_parts]. now rewrite insert_insert_eq.
  - destruct (_ && negb _).
    + destruct (mapM (fun n => so_parts st !! (ValuesGet (URLQuery (rq_URL req)) "uploadId", n)) (decodeParts (rq_Body req))) as [l|] eqn:E;
        cbn [snd so_parts so_objects]; rewrite E; cbn [snd]; [now rewrite insert_insert_eq|done].
    + destruct (_ && _); cbn [snd so_objects so_parts]; [now rewrite delete_delete_eq|].
      now destruct (_ || _).
Qed.

Lemma decisive_final status : decisive status = true -> isRetryableStatus status = false.
Proof.
  unfold decisive, isRetryableStatus. cbn [existsb]. intros H.
  repeat match goal with |- context [status =? ?n] => destruct (Z.eqb_spec status n); [subst; discriminate H|] end. done.
Qed.

Context {S : Type} {HS : HttpServer S} {HL : S3Laws S}.

Lemma do_loop_state n req (s : S) r s' : do_loop n req s = (r, s') -> stateOf s' = stateOf s \/ stateOf s' = effect req (stateOf s).
Proof.
  revert s. induction n as [|n IH]; intros s; cbn [do_loop]; destruct (serve req s) as [[resp|e|e|] s1] eqn:E;
    pose proof (applied_or_not _ _ _ _ E) as H; try (intros [= _ <-]; exact H); [destruct (isRetryableStatus _); [|intros [= _ <-]; exact H]|];
    intros Hn%IH; destruct H as [H|H], Hn as [Hn|Hn]; rewrite H in Hn; rewrite ?effect_idem in Hn; auto.
Qed.

(** A decisive answer is one of the request, applied to the state or to what
    an earlier attempt made of it. *)
Lemma do_loop_answer n req (s : S) resp s' : do_loop n req s = (Ok resp, s') -> decisive (rs_StatusCode resp) = true ->
  stateOf s' = effect req (stateOf s) /\
  (rs_StatusCode resp = fst (s3_apply req (stateOf s)) \/ rs_StatusCode resp = fst (s3_apply req (effect req (stateOf s)))).
Proof.
  intros Hd Hs. revert s Hd. induction n as [|n IH]; intros s; cbn [do_loop]; destruct (serve req s) as [[x|e|e|] s1] eqn:E; try discriminate.
  - intros [= -> <-]. destruct (answered _ _ _ _ E Hs); auto.
  - destruct (isRetryableStatus (rs_StatusCode x)) eqn:Er.
    + intros H. destruct (IH _ H) as [H1 H2]. destruct (applied_or_not _ _ _ _ E) as [H'|H']; rewrite H' in H1, H2; rewrite ?effect_idem in *; tauto.
    + intros [= -> <-]. destruct (answered _ _ _ _ E Hs); auto.
  - intros H. destruct (IH _ H) as [H1 H2]. destruct (applied_or_not _ _ _ _ E) as [H'|H']; rewrite H' in H1, H2; rewrite ?effect_idem in *; tauto.
Qed.

Lemma do_loop_error n req (s : S) e s' : do_loop n req s = (Err e, s') -> e <> notFound.
Proof.
  revert s. induction n as [|n IH]; intros s; cbn [do_loop]; destruct (serve req s) as [[x|m|m|] s1] eqn:E; try discriminate.
  - intros [= <- _]. eapply other_error, E.
  - destruct (isRetryableStatus _); [apply IH|discriminate].
  - apply IH.
Qed.

Lemma do_loop_body n req (s : S) resp s' data : do_loop n req s = (Ok resp, s') -> rq_Method req = "GET"%string -> URLQuery (rq_URL req) = ∅ ->
  rs_StatusCode resp = 200 -> readAll (rs_Body resp) = Ok data -> so_objects (stateOf s) !! locationOf req = Some data.
Proof.
  intros Hd Hm Hq Hs Hr. assert (Hg : forall st, effect req st = st).
  { intros st. unfold effect, s3_apply. rewrite Hm, Hq. cbv zeta.
    change (ValuesGet ∅ "uploadId") with EmptyString. reflexivity. }
  revert s Hd. induction n as [|n IH]; intros s; cbn [do_loop]; destruct (serve req s) as [[x|e|e|] s1] eqn:E; try discriminate.
  - intros [= -> <-]. eapply body_read; eauto.
  - destruct (isRetryableStatus (rs_StatusCode x)) eqn:Er; [|intros [= -> <-]; eapply body_read; eauto].
    intros H%IH. destruct (applied_or_not _ _ _ _ E) as [<-|H']; [done|]. now rewrite H', Hg in H.
  - intros H%IH. destruct (applied_or_not _ _ _ _ E) as [<-|H']; [done|]. now rewrite H', Hg in H.
Qed.

(** ** Requests of the client *)

Context (sha256 : bytes -> bytes) (hmac : bytes -> bytes -> bytes) (now : Time) (ParseTime : string -> option Time).
Context (b : S3Backend (S := S)).
(** Credentials are not objects. *)
Context (provider_state : forall provider s, s3_credsProvider b = Some provider -> stateOf (provider s).2 = stateOf s).

Definition keyLocation (key : string) : location :=
  if s3_forcePathStyle b then (u_Host (s3_endpoint b), "/" ++ s3_bucket b ++ "/" ++ key)%string
  else (s3_bucket b ++ "." ++ u_Host (s3_endpoint b), "/" ++ key)%string.

(** What the service looks at in a request. *)
Record asks (req : Request) (method key : string) (query : Values) (body : bytes) (ifNone : string) : Prop := {
  as_method : rq_Method req = method;
  as_location : locationOf req = keyLocation key;
  as_query : URLQuery (rq_URL req) = query;
  as_body : rq_Body req = body;
  as_ifNone : HeaderGet (rq_Header req) "If-None-Match" = ifNone
}.

Lemma newRequest_asks method key query body : validKey key = true -> (forall k l, query !! k = Some l -> l <> []) ->
  exists req, newRequest b method key query body = Ok req /\ asks req method key query body "".
Proof.
  intros Hk Hq. unfold newRequest. rewrite Hk. cbn [negb]. rewrite andb_false_r. eexists. split; [reflexivity|].
  destruct (s3_forcePathStyle b) eqn:E; split; unfold locationOf, keyLocation, URLQuery; rewrite ?E;
    cbn [NewRequest rq_Method rq_URL rq_Host rq_Header rq_Body u_Path u_RawQuery u_Host]; rewrite ?ParseQuery_Encode by done; reflexivity.
Qed.

Lemma asks_header req method key query body ifNone name value : CanonicalHeaderKey name <> "If-None-Match"%string ->
  asks req method key query body ifNone -> asks (withHeader req name value) method key query body ifNone.
Proof. intros Hn [H1 H2 H3 H4 H5]. split; try assumption. cbn [withHeader rq_Header]. now rewrite HeaderGet_Set_ne. Qed.

Lemma asks_ifNone req method key query body ifNone value : asks req method key query body ifNone ->
  asks (withHeader req "If-None-Match" value) method key query body value.
Proof. intros [H1 H2 H3 H4 H5]. split; try assumption. cbn [withHeader rq_Header]. now rewrite HeaderGet_Set. Qed.

Lemma signed_asks sg req creds payloadHash sig req' method key query body ifNone :
  SignRequest sha256 hmac sg req creds now payloadHash = Ok (sig, req') ->
  asks req method key query body ifNone -> asks req' method key query body ifNone.
Proof.
  unfold SignRequest, withSigned. intros H Ha. repeat (case_match; try discriminate); injection H as _ <-; repeat apply asks_header; try done; intros H'; discriminate H'.
Qed.

Lemma credentials_state cs r cs' : credentials now b cs = (r, cs') -> stateOf cs'.2 = stateOf cs.2.
Proof.
  unfold credentials, onServer. destruct cs as [creds s]. cbn [fst snd]. destruct (s3_credsProvider b) as [provider|] eqn:Ep; [|intros [= _ <-]; done].
  destruct (_ && _); [intros [= _ <-]; done|]. pose proof (provider_state _ s eq_refl) as H. destruct (provider s) as [r' s']. cbn [snd] in H.
  destruct r' as [c| | |]; [destruct (validateCredentials c)|..]; intros [= _ <-]; exact H.
Qed.

Lemma credentials_error cs e cs' : credentials now b cs = (Err e, cs') -> e <> notFound.
Proof.
  unfold credentials. destruct (s3_credsProvider b) as [provider|]; [|discriminate]. destruct (_ && _); [discriminate|].
  destruct (onServer provider cs) as [[c| | |] s']; [destruct (validateCredentials c)|..]; intros [= <- _] H; discriminate H.
Qed.

Lemma sign_error sg req creds payloadHash e : SignRequest sha256 hmac sg req creds now payloadHash = Err e -> e <> notFound.
Proof. unfold SignRequest. intros H. repeat (case_match; try discriminate); injection H as <-; intros H; discriminate H. Qed.

(** What a request does to the state, and what its answer tells. *)
Lemma exchange_state req method key query body ifNone payloadHash cs r cs' : asks req method key query body ifNone ->
  exchange sha256 hmac now b (Ok req) payloadHash cs = (r, cs') ->
  exists req', asks req' method key query body ifNone /\
  (stateOf cs'.2 = stateOf cs.2 \/ stateOf cs'.2 = effect req' (stateOf cs.2)) /\
  (forall e, r = Err e -> e <> notFound) /\
  forall resp, r = Ok resp ->
    (decisive (rs_StatusCode resp) = true -> stateOf cs'.2 = effect req' (stateOf cs.2) /\
      (rs_StatusCode resp = fst (s3_apply req' (stateOf cs.2)) \/ rs_StatusCode resp = fst (s3_apply req' (effect req' (stateOf cs.2))))) /\
    (forall data, method = "GET"%string -> query = ∅ -> rs_StatusCode resp = 200 -> readAll (rs_Body resp) = Ok data ->
      so_objects (stateOf cs.2) !! keyLocation key = Some data).
Proof.
  intros Ha. unfold exchange, sign. cbn [mlift]. unfold mbind at 1. cbn [mlift]. unfold mbind at 1. unfold mbind at 1.
  destruct (credentials now b cs) as [rc cs1] eqn:Ec. pose proof (credentials_state _ _ _ Ec) as Hc.
  destruct rc as [creds|e|e|]; [|intros [= <- <-]; exists req; split; [done|]; split; [auto|]; split; [|intros ? H; discriminate H]..].
  2: { intros e' [= <-]. revert Ec. apply credentials_error. }
  2-3: intros ? H; discriminate H.
  unfold mbind at 1. unfold mlift. destruct (SignRequest sha256 hmac (s3_signer b) req creds now payloadHash) as [[sig req']|e|e|] eqn:Es;
    [|intros [= <- <-]; exists req; split; [done|]; split; [auto|]; split; [|intros ? H; discriminate H]..].
  2: { intros e' [= <-]. revert Es. apply sign_error. }
  2-3: intros ? H; discriminate H.
  cbn [mret snd]. unfold do, onServer, mbind. cbn. destruct (do_loop _ req' cs1.2) as [r' s'] eqn:Ed. intros [= <- <-]. cbn [snd].
  exists req'. pose proof (signed_asks _ _ _ _ _ _ _ _ _ _ _ Es Ha) as Ha'. split; [done|]. rewrite <- Hc. split; [now apply (do_loop_state _ _ _ _ _ Ed)|].
  split; [intros e ->; exact (do_loop_error _ _ _ _ _ Ed)|]. intros resp ->. split; [intros Hd; now apply (do_loop_answer _ _ _ _ _ Ed)|].
  intros data Hm Hq H2 Hr. rewrite <- (as_location _ _ _ _ _ _ Ha'). eapply do_loop_body; eauto.
  - now rewrite (as_method _ _ _ _ _ _ Ha').
  - now rewrite (as_query _ _ _ _ _ _ Ha').
Qed.

(** ** One request *)

Lemma no_query (k : string) (l : list string) : (∅ : Values) !! k = Some l -> l <> [].
Proof. now rewrite lookup_empty. Qed.

Lemma apply_put req key data st : asks req "PUT" key ∅ data "*" -> s3_apply req st =
  if bool_decide (is_Some (so_objects st !! keyLocation key)) then (412, st)
  else (200, mkS3State (<[keyLocation key := data]> (so_objects st)) (so_parts st)).
Proof. intros [H1 H2 H3 H4 H5]. unfold s3_apply. now rewrite H1, H2, H3, H4, H5. Qed.

Lemma apply_read req method key ifNone st : method = "GET"%string \/ method = "HEAD"%string -> asks req method key ∅ [] ifNone -> s3_apply req st =
  (if bool_decide (is_Some (so_objects st !! keyLocation key)) then 200 else 404, st).
Proof.
  intros Hm [H1 H2 H3 H4 H5]. unfold s3_apply. rewrite H1, H2, H3. cbv zeta. change (ValuesGet ∅ "uploadId") with EmptyString.
  destruct Hm as [-> | ->]; cbn [String.eqb Ascii.eqb Bool.eqb negb andb orb];
    rewrite lookup_empty, (bool_decide_false _ (@is_Some_None (list string))), orb_false_r; done.
Qed.

(** The object is as it was, or the data that were not there before. *)
Definition storedOrSame (key : string) (data : bytes) (st st' : S3State) : Prop :=
  so_objects st' = so_objects st \/ so_objects st !! keyLocation key = None /\ so_objects st' = <[keyLocation key := data]> (so_objects st).

Definition stored (key : string) (data : bytes) (st st' : S3State) : Prop :=
  so_objects st !! keyLocation key = None /\ so_objects st' = <[keyLocation key := data]> (so_objects st).

Lemma put_effect req key data st : asks req "PUT" key ∅ data "*" -> storedOrSame key data st (effect req st).
Proof.
  intros Ha. unfold effect, storedOrSame. rewrite (apply_put req key data st Ha). destruct (so_objects st !! keyLocation key) as [v|] eqn:E.
  - rewrite bool_decide_true by eauto. now left.
  - rewrite (bool_decide_false _ is_Some_None). now right.
Qed.

Lemma putSingle_exact key data payloadHash cs r cs' : validKey key = true ->
  putSingle sha256 hmac now ParseTime b key data payloadHash cs = (r, cs') ->
  storedOrSame key data (stateOf cs.2) (stateOf cs'.2) /\ forall info, r = Ok info -> stored key data (stateOf cs.2) (stateOf cs'.2).
Proof.
  intros Hk. unfold putSingle. destruct (newRequest_asks "PUT" key ∅ data Hk no_query) as (req & -> & Ha).
  cbn [mlift]. unfold mbind at 1, mlift at 1. intros H.
  apply (asks_ifNone _ _ _ _ _ _ "*") in Ha. apply (asks_header _ _ _ _ _ _ "Content-Length" (Itoa (zlen data))) in Ha; [|discriminate].
  unfold contentLength in H. unfold mbind at 1 in H.
  destruct (exchange sha256 hmac now b (Ok (withHeader (withHeader req "If-None-Match" "*") "Content-Length" (Itoa (zlen data)))) payloadHash cs) as [r1 cs1] eqn:E.
  destruct (exchange_state _ _ _ _ _ _ _ _ _ _ Ha E) as (req' & Ha' & Hs & _ & Hr).
  assert (H0 : storedOrSame key data (stateOf cs.2) (stateOf cs1.2)).
  { destruct Hs as [-> | ->]; [now left|now apply put_effect]. }
  destruct r1 as [resp|e|e|]; [|injection H as <- <-; split; [done|discriminate]..].
  destruct (statusIn resp [412; 409]) eqn:E1; [injection H as <- <-; split; [done|discriminate]|].
  unfold mbind, mlift, expectStatus in H. destruct (statusIn resp [200; 201; 204]) eqn:E2; [|injection H as <- <-; split; [done|discriminate]].
  injection H as _ <-. split; [done|]. intros _ _. destruct (Hr resp eq_refl) as [Hd _]. unfold statusIn in E1, E2. cbn [existsb] in E1, E2.
  destruct Hd as [Heff Hst]; [unfold decisive; rewrite orb_true_iff, andb_true_iff; left; lia|].
  unfold stored. destruct (so_objects (stateOf cs.2) !! keyLocation key) as [v|] eqn:Eo.
  - exfalso. assert (K : forall st, is_Some (so_objects st !! keyLocation key) -> fst (s3_apply req' st) = 412)
      by (intros st Hi; rewrite (apply_put _ _ _ _ Ha'), bool_decide_true by done; done).
    destruct Hst as [Hst|Hst]; rewrite K in Hst; try lia; [now rewrite Eo|].
    unfold effect. rewrite (apply_put _ _ _ _ Ha'), Eo, bool_decide_true by eauto. cbn [snd]. now rewrite Eo.
  - split; [done|]. rewrite Heff. unfold effect. rewrite (apply_put _ _ _ _ Ha'), Eo, (bool_decide_false _ is_Some_None). done.
Qed.

(** A state that no request of a reading operation changes. *)
Lemma read_effect req method key ifNone st : method = "GET"%string \/ method = "HEAD"%string -> asks req method key ∅ [] ifNone -> effect req st = st.
Proof. intros Hm Ha. unfold effect. now rewrite (apply_read _ _ _ _ _ Hm Ha). Qed.

Lemma Get_exact key cs body info cs' : validKey key = true -> Get sha256 hmac now ParseTime b key cs = (Ok (body, info), cs') ->
  forall data, readAll body = Ok data -> so_objects (stateOf cs.2) !! keyLocation key = Some data.
Proof.
  intros Hk. unfold Get. destruct (newRequest_asks "GET" key ∅ [] Hk no_query) as (req & -> & Ha). intros H data Hd.
  unfold mbind at 1 in H. destruct (exchange sha256 hmac now b (Ok req) emptyPayloadSHA256 cs) as [r1 cs1] eqn:E.
  destruct (exchange_state _ _ _ _ _ _ _ _ _ _ Ha E) as (req' & _ & _ & _ & Hr). destruct r1 as [resp|e|e|]; try discriminate.
  destruct (statusIn resp [404]); [discriminate|]. unfold mbind, mlift, expectStatus in H. destruct (statusIn resp [200]) eqn:E2; [|discriminate].
  injection H as <- _ _. unfold statusIn in E2. cbn [existsb] in E2. destruct (Hr resp eq_refl) as [_ Hb]. apply Hb; auto; lia.
Qed.

Lemma Exists_exact key cs r cs' : validKey key = true -> Exists sha256 hmac now ParseTime b key cs = (r, cs') ->
  stateOf cs'.2 = stateOf cs.2 /\ (r = Ok false -> so_objects (stateOf cs.2) !! keyLocation key = None).
Proof.
  intros Hk. unfold Exists, Head. destruct (newRequest_asks "HEAD" key ∅ [] Hk no_query) as (req & -> & Ha). unfold mbind at 1.
  destruct (exchange sha256 hmac now b (Ok req) emptyPayloadSHA256 cs) as [r1 cs1] eqn:E.
  destruct (exchange_state _ _ _ _ _ _ _ _ _ _ Ha E) as (req' & Ha' & Hs & He & Hr).
  rewrite (read_effect _ _ _ _ _ (or_intror eq_refl) Ha') in Hs. assert (K : stateOf cs1.2 = stateOf cs.2) by tauto.
  destruct r1 as [resp|e|e|]; [|destruct (String.eqb_spec e notFound) as [->|_]; [now destruct (He notFound eq_refl)|]; intros [= <- <-]; done|intros [= <- <-]; done..].
  destruct (statusIn resp [404]) eqn:E4.
  - unfold merr. rewrite String.eqb_refl. intros [= <- <-]. split; [done|]. intros _. unfold statusIn in E4. cbn [existsb] in E4.
    destruct (Hr resp eq_refl) as [Hd _]. destruct Hd as [_ Hd]; [unfold decisive; cbn [existsb]; rewrite orb_true_iff; right; lia|].
    rewrite (read_effect _ _ _ _ _ (or_intror eq_refl) Ha'), (apply_read _ _ _ _ _ (or_intror eq_refl) Ha') in Hd. cbn [fst] in Hd.
    destruct (so_objects (stateOf cs.2) !! keyLocation key); [|done]. rewrite bool_decide_true in Hd by eauto. lia.
  - unfold mbind, mlift, expectStatus. destruct (statusIn resp [200]); intros [= <- <-]; done.
Qed.

(** ** Uploads in parts *)

Lemma apply_part req key id n body ifNone st : id <> EmptyString -> - 2 ^ 63 <= n < 2 ^ 63 ->
  asks req "PUT" key (ValuesSet (ValuesSet ∅ "partNumber" (Itoa n)) "uploadId" id) body ifNone ->
  s3_apply req st = (200, mkS3State (so_objects st) (<[(id, n) := body]> (so_parts st))).
Proof.
  intros Hid Hn [H1 H2 H3 H4 H5]. unfold s3_apply, partNumberOf. rewrite H1, H3, H4. cbv zeta.
  change (ValuesGet (ValuesSet ?v "uploadId" id) "uploadId") with (match (ValuesSet v "uploadId" id) !! "uploadId"%string with Some (x :: _) => x | _ => EmptyString end).
  unfold ValuesGet, ValuesSet. rewrite lookup_insert_eq, lookup_insert_ne, lookup_insert_eq, Atoi_Itoa by done.
  apply String.eqb_neq in Hid. rewrite Hid. reflexivity.
Qed.

Lemma part_query n id (k : string) l : (ValuesSet (ValuesSet ∅ "partNumber" (Itoa n)) "uploadId" id : Values) !! k = Some l -> l <> [].
Proof. unfold ValuesSet. rewrite !lookup_insert_Some, lookup_empty. intros [[_ <-]|[_ [[_ <-]|[_ H]]]]; done. Qed.

Lemma upload_query name id (k : string) l : (ValuesSet ∅ name id : Values) !! k = Some l -> l <> [].
Proof. unfold ValuesSet. rewrite lookup_insert_Some, lookup_empty. intros [[_ <-]|[_ H]]; done. Qed.

Lemma uploadPart_exact key id n body cs r cs' : validKey key = true -> id <> EmptyString -> - 2 ^ 63 <= n < 2 ^ 63 ->
  uploadPart sha256 hmac now b key id n body cs = (r, cs') ->
  so_objects (stateOf cs'.2) = so_objects (stateOf cs.2) /\
  (forall id' m, (id', m) <> (id, n) -> so_parts (stateOf cs'.2) !! (id', m) = so_parts (stateOf cs.2) !! (id', m)) /\
  forall etag, r = Ok etag -> so_parts (stateOf cs'.2) !! (id, n) = Some body.
Proof.
  intros Hk Hid Hn. unfold uploadPart. destruct (newRequest_asks "PUT" key _ body Hk (part_query n id)) as (req & -> & Ha). cbn [obind]. unfold mbind at 1.
  apply (asks_header _ _ _ _ _ _ "Content-Length" (Itoa (zlen body))) in Ha; [|discriminate]. unfold contentLength.
  destruct (exchange sha256 hmac now b _ (hexOf sha256 body) cs) as [r1 cs1] eqn:E.
  destruct (exchange_state _ _ _ _ _ _ _ _ _ _ Ha E) as (req' & Ha' & Hs & _ & Hr).
  assert (He : effect req' (stateOf cs.2) = mkS3State (so_objects (stateOf cs.2)) (<[(id, n) := body]> (so_parts (stateOf cs.2))))
    by (unfold effect; now rewrite (apply_part _ _ _ _ _ _ _ Hid Hn Ha')).
  assert (H0 : so_objects (stateOf cs1.2) = so_objects (stateOf cs.2) /\
    forall id' m, (id', m) <> (id, n) -> so_parts (stateOf cs1.2) !! (id', m) = so_parts (stateOf cs.2) !! (id', m)).
  { destruct Hs as [-> | ->]; [done|]. rewrite He. cbn [so_objects so_parts]. split; [done|]. intros id' m Hne. now rewrite lookup_insert_ne. }
  destruct H0 as [H0 H0']. destruct r1 as [resp|e|e|]; [|intros [= <- <-]; split; [done|]; split; [done|discriminate]..].
  unfold mbind, mlift, expectStatus. destruct (statusIn resp [200]) eqn:E2; [|intros [= <- <-]; split; [done|]; split; [done|discriminate]].
  unfold statusIn in E2. cbn [existsb] in E2. destruct (Hr resp eq_refl) as [Hd _].
  destruct Hd as [Hd _]; [unfold decisive; rewrite orb_true_iff, andb_true_iff; left; lia|].
  destruct (String.eqb _ ""); intros [= <- <-]; (split; [done|]; split; [done|]); [discriminate|]. intros _ _. rewrite Hd, He. cbn [so_parts]. now rewrite lookup_insert_eq.
Qed.

Definition partNumbers (parts : list completedPart) : list Z := map cp_PartNumber parts.

Lemma uploadParts_exact key id data fuel : validKey key = true -> id <> EmptyString -> 0 < s3_multipartPartSize b -> zlen data < 2 ^ 63 ->
  forall offset n cs r cs', 0 <= offset -> 1 <= n <= offset + 1 ->
  uploadParts sha256 hmac now fuel b key id data offset n cs = (r, cs') ->
  so_objects (stateOf cs'.2) = so_objects (stateOf cs.2) /\
  (forall m, m < n -> so_parts (stateOf cs'.2) !! (id, m) = so_parts (stateOf cs.2) !! (id, m)) /\
  forall parts, r = Ok parts ->
    exists slices, mapM (fun k => so_parts (stateOf cs'.2) !! (id, k)) (partNumbers parts) = Some slices /\
      concat slices = drop (Z.to_nat offset) data /\ Forall (fun k => n <= k < 2 ^ 63) (partNumbers parts).
Proof.
  intros Hk Hid Hp Hd. induction fuel as [|fuel IH]; intros offset n cs r cs' Ho Hn; cbn [uploadParts].
  - destruct (Z.ltb_spec offset (zlen data)) as [Hlt|Hge]; intros [= <- <-]; (split; [done|]; split; [done|]); [discriminate|].
    intros parts [= <-]. exists []. split; [done|]. split; [|constructor]. rewrite drop_ge; [done|]. unfold zlen in Hge. lia.
  - destruct (Z.ltb_spec offset (zlen data)) as [Hlt|Hge].
    2: { intros [= <- <-]. split; [done|]. split; [done|]. intros parts [= <-]. exists []. split; [done|]. split; [|constructor].
         rewrite drop_ge; [done|]. unfold zlen in Hge. lia. }
    set (size := Z.min (s3_multipartPartSize b) (zlen data - offset)). unfold mbind at 1.
    destruct (uploadPart sha256 hmac now b key id n (zslice offset size data) cs) as [r1 cs1] eqn:E1.
    assert (Hn' : - 2 ^ 63 <= n < 2 ^ 63) by lia.
    destruct (uploadPart_exact _ _ _ _ _ _ _ Hk Hid Hn' E1) as (Ho1 & Hp1 & Hr1).
    assert (H1 : forall m, m < n -> so_parts (stateOf cs1.2) !! (id, m) = so_parts (stateOf cs.2) !! (id, m)) by (intros m Hm; apply Hp1; intros [=]; lia).
    destruct r1 as [etag|e|e|]; [|intros [= <- <-]; split; [done|]; split; [done|discriminate]..].
    unfold mbind at 1. destruct (uploadParts sha256 hmac now fuel b key id data (offset + s3_multipartPartSize b) (n + 1) cs1) as [r2 cs2] eqn:E2.
    destruct (IH (offset + s3_multipartPartSize b) (n + 1) cs1 r2 cs2 ltac:(lia) ltac:(lia) E2) as (Ho2 & Hp2 & Hr2).
    assert (H2 : forall m, m < n -> so_parts (stateOf cs2.2) !! (id, m) = so_parts (stateOf cs.2) !! (id, m)) by (intros m Hm; rewrite Hp2 by lia; now apply H1).
    destruct r2 as [rest|e|e|]; intros [= <- <-]; (split; [congruence|]; split; [exact H2|]); [|discriminate..].
    intros parts [= <-]. destruct (Hr2 rest eq_refl) as (slices & Hm & Hc & Hf). exists (zslice offset size data :: slices).
    split; [|split; [|cbn [partNumbers map cp_PartNumber]; constructor; [lia|]; eapply Forall_impl; [exact Hf|]; intros x Hx; cbn in Hx; lia]].
    + cbn [partNumbers map cp_PartNumber mapM]. rewrite Hp2, (Hr1 etag eq_refl) by lia. cbn. unfold partNumbers in Hm. rewrite Hm. done.
    + cbn [concat]. rewrite Hc. unfold zslice, size.
      rewrite <- (take_drop (Z.to_nat (Z.min (s3_multipartPartSize b) (zlen data - offset))) (drop (Z.to_nat offset) data)) at 2. f_equal.
      rewrite drop_drop. destruct (Z.min_spec (s3_multipartPartSize b) (zlen data - offset)) as [[Hle ->]|[Hle ->]].
      * f_equal. lia.
      * rewrite !drop_ge; [done|unfold zlen in *; lia..].
Qed.

Context (decodeUploadID : list read_result -> option string) (encodeParts : list completedPart -> bytes).
(** The codec of the list of parts. *)
Context (parts_roundtrip : forall parts, Forall (fun k => 1 <= k < 2 ^ 63) (partNumbers parts) -> decodeParts (encodeParts parts) = partNumbers parts).

Lemma apply_other req method key name id ifNone st : method = "POST"%string /\ name = "uploads"%string /\ id = EmptyString \/
  method = "DELETE"%string /\ name = "uploadId"%string /\ id <> EmptyString ->
  asks req method key (ValuesSet ∅ name id) [] ifNone -> effect req st = st.
Proof.
  intros Hc [H1 H2 H3 H4 H5]. unfold effect, s3_apply. rewrite H1, H3. cbv zeta. destruct Hc as [(-> & -> & ->)|(-> & -> & Hid)].
  - change (ValuesGet (ValuesSet ∅ "uploads" "") "uploadId") with EmptyString. reflexivity.
  - change (ValuesGet (ValuesSet ∅ "uploadId" id) "uploadId") with id. apply String.eqb_neq in Hid. rewrite Hid. reflexivity.
Qed.

Lemma create_exact key cs r cs' : validKey key = true -> createMultipartUpload sha256 hmac now decodeUploadID b key cs = (r, cs') ->
  stateOf cs'.2 = stateOf cs.2 /\ forall id, r = Ok id -> id <> EmptyString.
Proof.
  intros Hk. unfold createMultipartUpload. destruct (newRequest_asks "POST" key _ [] Hk (upload_query "uploads" "")) as (req & -> & Ha). unfold mbind at 1.
  destruct (exchange sha256 hmac now b (Ok req) emptyPayloadSHA256 cs) as [r1 cs1] eqn:E.
  destruct (exchange_state _ _ _ _ _ _ _ _ _ _ Ha E) as (req' & Ha' & Hs & _ & _).
  rewrite (apply_other _ _ _ _ _ _ _ (or_introl (conj eq_refl (conj eq_refl eq_refl))) Ha') in Hs. assert (K : stateOf cs1.2 = stateOf cs.2) by tauto.
  destruct r1 as [resp|e|e|]; [|intros [= <- <-]; done..]. unfold mbind, mlift, expectStatus.
  destruct (statusIn resp [200; 201]); [|intros [= <- <-]; done]. destruct (decodeUploadID _) as [id|]; [|intros [= <- <-]; done].
  destruct (String.eqb_spec id ""); intros [= <- <-]; split; try done. now intros ? [= <-].
Qed.

Lemma abort_exact key id cs r cs' : validKey key = true -> id <> EmptyString -> abortMultipartUpload sha256 hmac now b key id cs = (r, cs') ->
  stateOf cs'.2 = stateOf cs.2.
Proof.
  intros Hk Hid. unfold abortMultipartUpload. destruct (newRequest_asks "DELETE" key _ [] Hk (upload_query "uploadId" id)) as (req & -> & Ha). unfold mbind at 1.
  destruct (exchange sha256 hmac now b (Ok req) emptyPayloadSHA256 cs) as [r1 cs1] eqn:E.
  destruct (exchange_state _ _ _ _ _ _ _ _ _ _ Ha E) as (req' & Ha' & Hs & _ & _).
  rewrite (apply_other _ _ _ _ _ _ _ (or_intror (conj eq_refl (conj eq_refl Hid))) Ha') in Hs. assert (K : stateOf cs1.2 = stateOf cs.2) by tauto.
  destruct r1 as [resp|e|e|]; intros [= _ <-]; exact K.
Qed.

Lemma orAbort_exact {A} key id (m : S3M A) cs r cs' : validKey key = true -> id <> EmptyString ->
  orAbort sha256 hmac now b key id m cs = (r, cs') -> exists r1 cs1, m cs = (r1, cs1) /\ stateOf cs'.2 = stateOf cs1.2 /\ (forall a, r = Ok a -> r1 = Ok a).
Proof.
  intros Hk Hid. unfold orAbort. destruct (m cs) as [[a|e|e|] cs1]; try (intros [= <- <-]; eexists _, _; split; [reflexivity|]; done).
  destruct (abortMultipartUpload sha256 hmac now b key id cs1) as [r2 cs2] eqn:E. pose proof (abort_exact _ _ _ _ _ Hk Hid E) as H.
  destruct r2; intros [= <- <-]; eexists _, _; split; try reflexivity; (split; [exact H|discriminate]).
Qed.

Lemma complete_exact key id parts slices cs r cs' : validKey key = true -> id <> EmptyString ->
  mapM (fun k => so_parts (stateOf cs.2) !! (id, k)) (partNumbers parts) = Some slices -> Forall (fun k => 1 <= k < 2 ^ 63) (partNumbers parts) ->
  completeMultipartUpload sha256 hmac now ParseTime encodeParts b key id parts cs = (r, cs') ->
  let written := <[keyLocation key := concat slices]> (so_objects (stateOf cs.2)) in
  (so_objects (stateOf cs'.2) = so_objects (stateOf cs.2) \/ so_objects (stateOf cs'.2) = written) /\
  forall info, r = Ok info -> so_objects (stateOf cs'.2) = written.
Proof.
  intros Hk Hid Hm Hf. unfold completeMultipartUpload. cbv zeta.
  destruct (newRequest_asks "POST" key _ (encodeParts parts) Hk (upload_query "uploadId" id)) as (req & -> & Ha). cbn [obind]. unfold mbind at 1.
  apply (asks_header _ _ _ _ _ _ "Content-Length" (Itoa (zlen (encodeParts parts)))) in Ha; [|discriminate]. unfold contentLength.
  destruct (exchange sha256 hmac now b _ (hexOf sha256 (encodeParts parts)) cs) as [r1 cs1] eqn:E.
  destruct (exchange_state _ _ _ _ _ _ _ _ _ _ Ha E) as (req' & Ha' & Hs & _ & Hr).
  assert (He : so_objects (effect req' (stateOf cs.2)) = <[keyLocation key := concat slices]> (so_objects (stateOf cs.2))).
  { destruct Ha' as [H1 H2 H3 H4 H5]. unfold effect, s3_apply. rewrite H1, H2, H3, H4, parts_roundtrip by done. cbv zeta.
    change (ValuesGet (ValuesSet ∅ "uploadId" id) "uploadId") with id. apply String.eqb_neq in Hid. rewrite Hid, Hm. reflexivity. }
  assert (H0 : so_objects (stateOf cs1.2) = so_objects (stateOf cs.2) \/ so_objects (stateOf cs1.2) = <[keyLocation key := concat slices]> (so_objects (stateOf cs.2)))
    by (destruct Hs as [-> | ->]; [now left|right; exact He]).
  destruct r1 as [resp|e|e|]; [|intros [= <- <-]; split; [done|discriminate]..].
  unfold mbind, mlift, expectStatus. destruct (statusIn resp [200; 201]) eqn:E2; intros [= <- <-]; (split; [done|]); [|discriminate]. intros _ _.
  unfold statusIn in E2. cbn [existsb] in E2. destruct (Hr resp eq_refl) as [Hd _].
  destruct Hd as [-> _]; [unfold decisive; rewrite orb_true_iff, andb_true_iff; left; lia|exact He].
Qed.

Lemma putMultipart_exact key data cs r cs' : validKey key = true -> 0 < s3_multipartPartSize b -> zlen data < 2 ^ 63 ->
  putMultipart sha256 hmac now ParseTime decodeUploadID encodeParts b key data cs = (r, cs') ->
  storedOrSame key data (stateOf cs.2) (stateOf cs'.2) /\ forall info, r = Ok info -> stored key data (stateOf cs.2) (stateOf cs'.2).
Proof.
  intros Hk Hp Hd. unfold putMultipart, storedOrSame, stored. unfold mbind at 1.
  destruct (Exists sha256 hmac now ParseTime b key cs) as [r1 cs1] eqn:E1. destruct (Exists_exact _ _ _ _ Hk E1) as [S1 X1]. rewrite <- S1 in X1 |- *.
  destruct r1 as [[]|e|e|]; [intros [= <- <-]; split; [now left|discriminate]| |intros [= <- <-]; split; [now left|discriminate]..].
  specialize (X1 eq_refl). unfold mbind at 1. destruct (createMultipartUpload sha256 hmac now decodeUploadID b key cs1) as [r2 cs2] eqn:E2.
  destruct (create_exact _ _ _ _ Hk E2) as [S2 X2]. rewrite <- S2 in X1 |- *.
  destruct r2 as [id|e|e|]; [|intros [= <- <-]; split; [now left|discriminate]..]. specialize (X2 id eq_refl).
  unfold mbind at 1. destruct (orAbort sha256 hmac now b key id _ cs2) as [r3 cs3] eqn:E3.
  destruct (orAbort_exact _ _ _ _ _ _ Hk X2 E3) as (r3' & cs3' & E3' & S3' & X3).
  destruct (uploadParts_exact _ _ _ _ Hk X2 Hp Hd 0 1 _ _ _ ltac:(lia) ltac:(lia) E3') as (O3 & _ & P3). rewrite <- S3' in O3, P3. rewrite <- O3 in X1 |- *.
  destruct r3 as [parts|e|e|]; [|intros [= <- <-]; split; [now left|discriminate]..].
  destruct (P3 parts (X3 parts eq_refl)) as (slices & Hm & Hc & Hf). change (drop (Z.to_nat 0) data) with data in Hc.
  unfold mbind at 1. destruct (orAbort sha256 hmac now b key id _ cs3) as [r4 cs4] eqn:E4.
  destruct (orAbort_exact _ _ _ _ _ _ Hk X2 E4) as (r4' & cs4' & E4' & S4' & X4).
  destruct (complete_exact _ _ _ _ _ _ _ Hk X2 Hm Hf E4') as [W4 Z4]. cbv zeta in W4, Z4. rewrite <- S4' in W4, Z4. rewrite Hc in W4, Z4.
  destruct r4 as [info|e|e|]; intros [= <- <-]; (split; [destruct W4 as [-> | ->]; auto|]); [|discriminate..].
  intros _ _. split; [exact X1|]. exact (Z4 info (X4 info eq_refl)).
Qed.

End service.

(** ** Runs of the S3 client

    A service that loses answers, as an instance of [S3Laws], and runs of the
    client against it: what a lost answer is reported as, what another client
    can do during an upload in parts, and what a range is when the service
    does not know ranges. *)

(** ** A service *)

(** The list of parts as numbers of eight bytes. *)
Definition toyEncodeParts (parts : list completedPart) : bytes := concat (map (le_encode 8) (partNumbers parts)).

Fixpoint decode_loop (fuel : nat) (data : bytes) : list Z :=
  match fuel, data with
  | Datatypes.S fuel, _ :: _ => le_decode (take 8 data) :: decode_loop fuel (drop 8 data)
  | _, _ => []
  end.

Definition toyDecodeParts (data : bytes) : list Z := decode_loop (length data) data.

Lemma decode_encoded numbers fuel : Forall (fun k => 1 <= k < 2 ^ 63) numbers -> (length numbers <= fuel)%nat ->
  decode_loop fuel (concat (map (le_encode 8) numbers)) = numbers.
Proof.
  intros Hf. revert fuel. induction Hf as [|k numbers Hk Hf IH]; intros fuel Hl; [now destruct fuel|]. destruct fuel as [|fuel]; [cbn in Hl; lia|].
  cbn [map concat]. destruct (le_encode 8 k ++ concat (map (le_encode 8) numbers)) as [|x l] eqn:E.
  - apply (f_equal length) in E. rewrite length_app, le_encode_length in E. cbn in E. lia.
  - cbn [decode_loop]. rewrite <- E. rewrite (take_app_length' _ _ 8), (drop_app_length' _ _ 8) by now rewrite le_encode_length.
    rewrite le_decode_encode_small by (cbn; lia). f_equal. apply IH. cbn in Hl. lia.
Qed.

Lemma encoded_length numbers : length (concat (map (le_encode 8) numbers)) = (8 * length numbers)%nat.
Proof. induction numbers as [|k l IH]; [done|]. cbn [map concat]. rewrite length_app, le_encode_length, IH. cbn [length]. lia. Qed.

Lemma toy_parts_roundtrip parts : Forall (fun k => 1 <= k < 2 ^ 63) (partNumbers parts) -> toyDecodeParts (toyEncodeParts parts) = partNumbers parts.
Proof. intros Hf. unfold toyDecodeParts, toyEncodeParts. apply decode_encoded; [done|]. rewrite encoded_length. lia. Qed.

(** What becomes of the next request: it is lost, or applied and the answer
    is lost. *)
Inductive fault : Type := FLost | FHidden.

Record Flaky := mkFlaky { fl_state : S3State; fl_faults : list (option fault) }.

Definition answer (req : Request) (status : Z) (st : S3State) : Response :=
  let body := if String.eqb (rq_Method req) "GET" then default [] (so_objects st !! locationOf req) else [] in
  mkResponse status (HeaderSet ∅ "ETag" "e1") (zlen body) (bytesReader body).

#[export] Instance flakyServer : HttpServer Flaky := {
  serve req s :=
    let '(status, st) := s3_apply toyDecodeParts req (fl_state s) in
    let faults := tl (fl_faults s) in
    match hd None (fl_faults s) with
    | None => (Ok (answer req status (fl_state s)), mkFlaky st faults)
    | Some FLost => (Ok (answer req 500 (fl_state s)), mkFlaky (fl_state s) faults)
    | Some FHidden => (Ok (answer req 500 (fl_state s)), mkFlaky st faults)
    end
}.

Lemma readAll_bytes data : readAll (bytesReader data) = Ok data.
Proof. destruct data; unfold readAll; cbn; [done|]. now rewrite app_nil_r. Qed.

#[export] Program Instance flakyLaws : S3Laws toyDecodeParts Flaky := {| stateOf := fl_state |}.
Next Obligation.
  intros req s r s'. cbn [serve flakyServer]. destruct (s3_apply toyDecodeParts req (fl_state s)) as [status st] eqn:E. unfold effect. rewrite E.
  destruct (hd None (fl_faults s)) as [[]|]; intros [= _ <-]; auto.
Qed.
Next Obligation.
  intros req s resp s'. cbn [serve flakyServer]. destruct (s3_apply toyDecodeParts req (fl_state s)) as [status st] eqn:E. unfold effect. rewrite E.
  destruct (hd None (fl_faults s)) as [[]|]; intros [= <- <-]; cbn; intros H; try discriminate H. done.
Qed.
Next Obligation.
  intros req s e s'. cbn [serve flakyServer]. destruct (s3_apply toyDecodeParts req (fl_state s)) as [status st].
  destruct (hd None (fl_faults s)) as [[]|]; discriminate.
Qed.
Next Obligation.
  intros req s resp s' data. cbn [serve flakyServer]. destruct (s3_apply toyDecodeParts req (fl_state s)) as [status st] eqn:E.
  destruct (hd None (fl_faults s)) as [[]|]; intros [= <- <-] Hm Hq H2; try discriminate H2; cbn [answer rs_StatusCode rs_Body] in *.
  unfold answer in *. cbn [rs_StatusCode rs_Body] in *. rewrite Hm. cbn [String.eqb Ascii.eqb Bool.eqb]. rewrite readAll_bytes. intros [= <-].
  unfold s3_apply in E. rewrite Hm, Hq in E. cbv zeta in E. change (ValuesGet ∅ "uploadId") with EmptyString in E.
  cbn [String.eqb Ascii.eqb Bool.eqb negb andb orb] in E. rewrite lookup_empty, (bool_decide_false _ (@is_Some_None (list string))), orb_false_r in E.
  destruct (so_objects (fl_state s) !! locationOf req) as [v|]; [done|]. injection E as <- _. discriminate H2.
Qed.

(** ** Its client *)

Definition toyHash (x : bytes) : bytes := take 4 x.
Definition toyMac (k d : bytes) : bytes := take 4 d.
Definition toyCreds : Credentials := mkCreds "id" "secret" "" 0.
Definition toyTime (s : string) : option Time := None.

Definition toyS3 {S} (threshold partSize : Z) : S3Backend (S := S) :=
  mkS3 "s3" (mkURL "https" "s3.example" "" "") "eu" "b" None true (mkSigner "eu" "s3") threshold partSize (mkRetry 3 0 0).

Definition toyUploadID (r : list read_result) : option string := Some "u1"%string.

Definition toyPut {S} `{HttpServer S} (b : S3Backend (S := S)) (key : string) (data : bytes) : S3M (S := S) StoredInfo :=
  Put toyHash toyMac 0 toyTime toyUploadID toyEncodeParts b key (bytesReader data) (zlen data).

Definition emptyState : S3State := mkS3State ∅ ∅.
Definition five : bytes := [Byte.x01; Byte.x02; Byte.x03; Byte.x04; Byte.x05].

Definition objectAt (key : string) (s : Flaky) : option bytes := so_objects (fl_state s) !! ("s3.example"%string, ("/b/" ++ key)%string).

Example s3_runs :
  (let s := (toyPut (toyS3 100 2) "data/a" five (toyCreds, mkFlaky emptyState [])).2.2 in objectAt "data/a" s = Some five) /\
  (let s := (toyPut (toyS3 4 2) "data/a" five (toyCreds, mkFlaky emptyState [])).2.2 in objectAt "data/a" s = Some five /\ size (so_parts (fl_state s)) = 3%nat) /\
  (let '(r, s) := toyPut (toyS3 100 2) "data/a" five (toyCreds, mkFlaky emptyState [Some FLost; Some FLost]) in is_ok r = true /\ objectAt "data/a" s.2 = Some five) /\
  (let '(r, s) := toyPut (toyS3 100 2) "data/a" five (toyCreds, mkFlaky emptyState [Some FLost; Some FLost; Some FLost]) in r = Err "s3 request failed"%string).
Proof. vm_compute. repeat split. Qed.

(** A lost answer: the client repeats the request, and takes its own object
    for one that was there before. *)
Lemma lost_answer_is_conflict :
  let '(r, s) := toyPut (toyS3 100 2) "data/a" five (toyCreds, mkFlaky emptyState [Some FHidden]) in
  r = Err alreadyStored /\ objectAt "data/a" s.2 = Some five.
Proof. vm_compute. repeat split. Qed.


(** ** Two clients *)

(** A service another client writes to before some requests. *)
Record Shared := mkShared { sh_server : Flaky; sh_writes : list (option (location * bytes)) }.

Definition otherWrite (w : option (location * bytes)) (s : Flaky) : Flaky :=
  match w with
  | Some (at_, data) => mkFlaky (mkS3State (<[at_ := data]> (so_objects (fl_state s))) (so_parts (fl_state s))) (fl_faults s)
  | None => s
  end.

#[export] Instance sharedServer : HttpServer Shared := {
  serve req s :=
    let '(r, s') := serve req (otherWrite (hd None (sh_writes s)) (sh_server s)) in (r, mkShared s' (tl (sh_writes s)))
}.

(** An upload in parts asks once whether the object exists, and its completion
    is not conditional: an object that another client put in between is
    overwritten, and both are told that they stored it. *)
Lemma parts_overwrite :
  let other := Some (("s3.example"%string, "/b/data/a"%string), [Byte.xff]) in
  let '(r, s) := toyPut (toyS3 4 2) "data/a" five (toyCreds, mkShared (mkFlaky emptyState []) [None; None; other]) in
  is_ok r = true /\ objectAt "data/a" (sh_server s.2) = Some five.
Proof. vm_compute. repeat split. Qed.

(** In one request it is not. *)
Lemma single_does_not_overwrite :
  let other := Some (("s3.example"%string, "/b/data/a"%string), [Byte.xff]) in
  let '(r, s) := toyPut (toyS3 100 2) "data/a" five (toyCreds, mkShared (mkFlaky emptyState []) [other]) in
  r = Err alreadyStored /\ objectAt "data/a" (sh_server s.2) = Some [Byte.xff].
Proof. vm_compute. repeat split. Qed.

(** The service above answers a range with the whole object and status 200,
    as HTTP allows: the client takes it for the range. *)
Lemma range_is_whole_object :
  let s := (toyPut (toyS3 100 2) "data/a" five (toyCreds, mkFlaky emptyState [])).2 in
  match (GetRange toyHash toyMac 0 (toyS3 100 2) "data/a" 3 1 s).1 with Ok body => readAll body = Ok five | _ => False end.
Proof. vm_compute. reflexivity. Qed.
