(* ===== verification/S3Credentials.v ===== *)
(** * Where S3 credentials come from

    Models src/internal/storage/s3/credentials.go: fixed credentials, those of
    the environment, of a web identity and of the instance metadata. The
    environment, the file system, url.Parse and the decoders of answers are
    parameters.

    The theorems show that credentials that are resolved are never empty, and
    when cached ones are asked for again. *)

From Stdlib Require Import Ascii String.
From S2P Require Import Prelude ChunkHash Core Calendar GoStrings GoText Retention FastCDC LocalFiles Http S3Sign S3.
Local Open Scope Z_scope.

Definition defaultSTSEndpoint : string := "https://sts.amazonaws.com/".
Definition defaultIMDSEndpoint : string := "http://169.254.169.254".

Record WebIdentityProvider := mkWebIdentity
  { wi_Endpoint : string; wi_RoleARN : string; wi_RoleSessionName : string; wi_TokenFile : string; wi_DurationSeconds : Z }.

Record IMDSProvider := mkIMDS { im_Endpoint : string; im_TTL : Z }.

Record imdsCredentials := mkImdsCredentials { ic_Code : string; ic_Credentials : Credentials }.

Section providers.
Context {S : Type} {HS : HttpServer S}.
Context (Getenv : string -> string) (ReadFile : string -> option string) (parseURL : string -> option URL).
Context (decodeSTS : list read_result -> option Credentials) (decodeIMDS : list read_result -> option imdsCredentials).

Definition StaticResolve (creds : Credentials) : M S Credentials := mlift (validateCredentials creds).

Definition EnvResolve : M S Credentials :=
  mlift (validateCredentials (mkCreds (Getenv "AWS_ACCESS_KEY_ID") (Getenv "AWS_SECRET_ACCESS_KEY") (Getenv "AWS_SESSION_TOKEN") 0)).

Definition newRequestTo (method url : string) (body : bytes) : outcome Request :=
  match parseURL url with None => Err "parse url" | Some u => Ok (NewRequest method u body) end.

Definition successful (resp : Response) : bool := (200 <=? rs_StatusCode resp) && (rs_StatusCode resp <=? 299).

Definition orElse (value fallback : string) : string := if String.eqb value "" then fallback else value.

Definition identityValues (p : WebIdentityProvider) (token : string) : Values :=
  let values := ValuesSet ∅ "Action" "AssumeRoleWithWebIdentity" in
  let values := ValuesSet values "Version" "2011-06-15" in
  let values := ValuesSet values "RoleArn" (wi_RoleARN p) in
  let values := ValuesSet values "RoleSessionName" (orElse (wi_RoleSessionName p) "kronos") in
  let values := ValuesSet values "WebIdentityToken" (TrimSpace token) in
  if 0 <? wi_DurationSeconds p then ValuesSet values "DurationSeconds" (Itoa (wi_DurationSeconds p)) else values.

Definition WebIdentityResolve (p : WebIdentityProvider) : M S Credentials :=
  if String.eqb (wi_RoleARN p) "" then merr "web identity role ARN is required"
  else if String.eqb (wi_TokenFile p) "" then merr "web identity token file is required"
  else match ReadFile (wi_TokenFile p) with
       | None => merr "read web identity token"
       | Some token =>
           req <-- mlift (newRequestTo "POST" (orElse (wi_Endpoint p) defaultSTSEndpoint) (list_byte_of_string (Encode (identityValues p token)))) ;;
           resp <-- serve (withHeader req "Content-Type" "application/x-www-form-urlencoded") ;;
           if negb (successful resp) then merr "assume role with web identity failed"
           else match decodeSTS (rs_Body resp) with
                | None => merr "decode assume role with web identity response"
                | Some creds => mlift (validateCredentials creds)
                end
       end.

(** At most a mebibyte of a successful answer. *)
Definition readSuccessfulText (resp : Response) : outcome string :=
  if negb (successful resp) then Err "request failed"
  else text <~ readAll (limitReader (1024 * 1024) (rs_Body resp)) ;; Ok (string_of_list_byte text).

Definition trimRightSlashes (s : string) : string := trimRightByte "/" s.

Definition metadata (endpoint : string) : string := (endpoint ++ "/latest/meta-data/iam/security-credentials/")%string.

Definition tokenHeader : string := "X-aws-ec2-metadata-token".

(** The token, the name of the role, and its credentials. *)
Definition IMDSResolve (p : IMDSProvider) : M S Credentials :=
  let endpoint := orElse (trimRightSlashes (im_Endpoint p)) defaultIMDSEndpoint in
  let ttl := if im_TTL p <=? 0 then 6 * Hour else im_TTL p in
  tokenReq <-- mlift (newRequestTo "PUT" (endpoint ++ "/latest/api/token") []) ;;
  tokenResp <-- serve (withHeader tokenReq "X-aws-ec2-metadata-token-ttl-seconds" (Itoa (Z.quot ttl Second))) ;;
  token <-- mlift (readSuccessfulText tokenResp) ;;
  roleReq <-- mlift (newRequestTo "GET" (metadata endpoint) []) ;;
  roleResp <-- serve (withHeader roleReq tokenHeader token) ;;
  names <-- mlift (readSuccessfulText roleResp) ;;
  let roleName := TrimSpace (hd EmptyString (SplitOn newline names)) in
  if String.eqb roleName "" then merr "imds returned empty role name"
  else
    credsReq <-- mlift (newRequestTo "GET" (metadata endpoint ++ PathEscape roleName) []) ;;
    credsResp <-- serve (withHeader credsReq tokenHeader token) ;;
    if negb (successful credsResp) then merr "get imds credentials failed"
    else match decodeIMDS (rs_Body credsResp) with
         | None => merr "decode imds credentials"
         | Some doc =>
             if negb (String.eqb (ic_Code doc) "Success") then merr "imds credentials response code"
             else mlift (validateCredentials (ic_Credentials doc))
         end.

(** ** What is resolved *)

Definition complete (creds : Credentials) : Prop := cd_AccessKey creds <> EmptyString /\ cd_SecretKey creds <> EmptyString.

Lemma validated_complete creds creds' : validateCredentials creds = Ok creds' -> creds' = creds /\ complete creds.
Proof.
  unfold validateCredentials, complete. destruct (String.eqb_spec (cd_AccessKey creds) ""), (String.eqb_spec (cd_SecretKey creds) ""); intros [= <-]. done.
Qed.

Ltac binds H := repeat (apply mbind_ok in H as (? & ? & ? & H)).

Lemma WebIdentity_complete p s creds s' : WebIdentityResolve p s = (Ok creds, s') -> complete creds.
Proof.
  unfold WebIdentityResolve. destruct (String.eqb _ ""); [discriminate|]. destruct (String.eqb _ ""); [discriminate|].
  destruct (ReadFile _); [|discriminate]. intros H. binds H. destruct (negb _); [discriminate|]. destruct (decodeSTS _); [|discriminate].
  unfold mlift in H. injection H as H _. now apply validated_complete in H as [-> ?].
Qed.

Lemma IMDS_complete p s creds s' : IMDSResolve p s = (Ok creds, s') -> complete creds.
Proof.
  unfold IMDSResolve. intros H. binds H. destruct (String.eqb _ ""); [discriminate|]. binds H. destruct (negb _); [discriminate|].
  destruct (decodeIMDS _) as [doc|]; [|discriminate]. destruct (negb _); [discriminate|]. unfold mlift in H. injection H as H _.
  now apply validated_complete in H as [-> ?].
Qed.
End providers.

(** Credentials a backend uses are complete, and not about to expire unless
    the provider gave them just now. *)
Lemma credentials_used {S} (now : Time) (b : S3Backend (S := S)) provider cs creds cs' : s3_credsProvider b = Some provider ->
  credentials now b cs = (Ok creds, cs') ->
  cs'.1 = creds /\
  (cs' = cs /\ cd_AccessKey creds <> EmptyString /\ (cd_ExpiresAt creds = 0 \/ now + 5 * Minute < cd_ExpiresAt creds) \/
   provider cs.2 = (Ok creds, cs'.2) /\ complete creds).
Proof.
  intros Hp. unfold credentials. rewrite Hp. destruct (negb (String.eqb (cd_AccessKey cs.1) "") && negb (credentialsNeedRefresh now cs.1)) eqn:E.
  - intros [= <- <-]. split; [done|]. left. split; [done|]. apply andb_true_iff in E as [E1%negb_true_iff E2%negb_true_iff].
    apply String.eqb_neq in E1. split; [done|]. unfold credentialsNeedRefresh, TimeIsZero in E2. destruct (Z.eqb_spec (cd_ExpiresAt cs.1) 0); [now left|]. right. lia.
  - unfold onServer. destruct (provider cs.2) as [[c|e|e|] s'] eqn:Es; try discriminate.
    destruct (validateCredentials c) as [c'| | |] eqn:Ev; try discriminate. intros [= <- <-]. apply validated_complete in Ev as [-> Hc]. split; [done|]. right. done.
Qed.

Example resolve_examples :
  let server (s : nat) : outcome Response * nat := (Ok (mkResponse 200 ∅ 0 (bytesReader (list_byte_of_string (if Nat.eqb s 0 then "token" else "role one")))), Datatypes.S s) in
  let H : HttpServer nat := {| serve _ := server |} in
  let url (s : string) := Some (mkURL "http" "imds" s "") in
  let creds := mkCreds "id" "secret" "session" 0 in
  IMDSResolve (HS := H) url (fun _ => Some (mkImdsCredentials "Success" creds)) (mkIMDS "http://imds/" 0) 0%nat = (Ok creds, 3%nat) /\
  IMDSResolve (HS := H) url (fun _ => Some (mkImdsCredentials "Failed" creds)) (mkIMDS "" 0) 0%nat = (Err "imds credentials response code"%string, 3%nat) /\
  fst (EnvResolve (S := nat) (fun _ => EmptyString) 0%nat) = Err "access key and secret key are required"%string.
Proof. vm_compute. repeat split. Qed.

(** ** Delays *)

(** Without the wish of the service a delay is bounded by the settings. *)
Lemma retryDelay_bound now ParseTime retry nanos attempt : 0 <= nanos -> 0 < rc_MaxDelay retry ->
  0 <= retryDelay now ParseTime retry nanos attempt None <= rc_MaxDelay retry.
Proof.
  intros Hn Hm. unfold retryDelay.
  set (d0 := if rc_BaseDelay retry <=? 0 then 100 * Millisecond else rc_BaseDelay retry).
  set (d1 := if 1 <? attempt then i64 (d0 * 2 ^ Z.min (attempt - 1) 10) else d0).
  set (d2 := if (0 <? rc_MaxDelay retry) && (rc_MaxDelay retry <? d1) then rc_MaxDelay retry else d1).
  assert (Hd : d2 <= rc_MaxDelay retry) by (unfold d2; destruct (Z.ltb_spec 0 (rc_MaxDelay retry)), (Z.ltb_spec (rc_MaxDelay retry) d1); cbn; lia).
  destruct (Z.leb_spec d2 0) as [H|H]; [lia|].
  pose proof (Z.quot_pos d2 2 ltac:(lia) ltac:(lia)). pose proof (Z.quot_rem d2 2 ltac:(lia)) as Hq.
  pose proof (Z.rem_bound_pos d2 2 ltac:(lia) ltac:(lia)). pose proof (Z.rem_bound_pos nanos (Z.quot d2 2 + 1) Hn ltac:(lia)). lia.
Qed.

(** With it there is no bound: a year here. *)
Example retry_after : retryDelay 0 (fun _ => None) (mkRetry 5 Millisecond Second) 0 1 (Some (HeaderSet ∅ "Retry-After" "31536000")) = 365 * Day.
Proof. vm_compute. reflexivity. Qed.
