(* ===== verification/Gcs.v ===== *)
(** * The Google Cloud Storage client

    Models src/internal/storage/gcs/backend.go over a server of Http.v. The
    JSON decoders and the parsers of dates and URLs are parameters; the file a
    body is spooled to is its contents, and cancellation is left out.

    The theorem shows which object the requests name: the one a Put stored is
    never found again. *)

From Stdlib Require Import Ascii String.
From S2P Require Import Prelude ChunkHash Core Calendar GoStrings GoText Retention FastCDC LocalFiles Engine Http.
Local Open Scope Z_scope.
#[local] Arguments String.append !_ _ / : simpl nomatch.

Definition defaultEndpoint : string := "https://storage.googleapis.com".
Definition defaultListPageSize : string := "1000".
Definition alreadyStored : string := "object already exists".
Definition notFound : string := "object not found".

Record objectResource := mkResource
  { or_Name : string; or_Size : string; or_ETag : string; or_MD5Hash : string; or_CRC32C : string; or_Updated : string }.

Record GcsConfig := mkGcsConfig
  { gf_Name : string; gf_Bucket : string; gf_Prefix : string; gf_Endpoint : string; gf_BearerToken : string; gf_APIKey : string }.

Record GcsBackend := mkGcs
  { gcs_name : string; gcs_bucket : string; gcs_prefix : string; gcs_base : URL; gcs_token : string; gcs_apiKey : string }.

Definition cleanPrefix (prefix : string) : string :=
  let prefix := TrimByte "/" (TrimSpace prefix) in
  if String.eqb prefix "" then EmptyString else (prefix ++ "/")%string.

Section client.
Context {S : Type} {HS : HttpServer S}.
Context (sha256 : bytes -> bytes) (parseURL : string -> option URL) (ParseRFC3339 : string -> option Time).
Context (decodeResource : list read_result -> option objectResource)
        (decodeListing : list read_result -> option (list objectResource * string)).

Definition New (cfg : GcsConfig) : outcome GcsBackend :=
  let name := TrimSpace (gf_Name cfg) in
  let bucket := TrimByte "/" (TrimSpace (gf_Bucket cfg)) in
  if String.eqb bucket "" then Err "gcs bucket is required"
  else
    let endpoint := TrimSpace (gf_Endpoint cfg) in
    match parseURL (if String.eqb endpoint "" then defaultEndpoint else endpoint) with
    | None => Err "parse gcs endpoint"
    | Some base =>
        if String.eqb (u_Scheme base) "" || String.eqb (u_Host base) "" then Err "gcs endpoint must include scheme and host"
        else Ok (mkGcs (if String.eqb name "" then "gcs"%string else name) bucket (cleanPrefix (gf_Prefix cfg)) base
                       (TrimSpace (gf_BearerToken cfg)) (TrimSpace (gf_APIKey cfg)))
    end.

(** ** Requests *)

Definition objectName (b : GcsBackend) (key : string) : string := (gcs_prefix b ++ key)%string.

(** path.Join *)
Definition pathJoin (elems : list string) : string :=
  match List.filter (fun e => negb (String.eqb e "")) elems with [] => EmptyString | l => Clean (Join l "/") end.

Definition slashed (p : string) : string := if HasPrefix p "/" then p else ("/" ++ p)%string.

(** The values of a map are added in some order. *)
Definition addValues (query values : Values) : Values :=
  fold_left (fun q p => ValuesAdd q p.1 p.2) (pairsOf (map_to_list values)) query.

Definition newRequest (b : GcsBackend) (method apiPath : string) (values : Values) (body : bytes) : Request :=
  let base := gcs_base b in
  let query := addValues (URLQuery base) values in
  let query := if String.eqb (gcs_apiKey b) "" then query else ValuesSet query "key" (gcs_apiKey b) in
  NewRequest method (mkURL (u_Scheme base) (u_Host base) (slashed (pathJoin [trimRightByte "/" (u_Path base); apiPath])) (Encode query)) body.

Definition bucketPath (b : GcsBackend) : string := ("/storage/v1/b/" ++ PathEscape (gcs_bucket b) ++ "/o")%string.

Definition objectRequest (b : GcsBackend) (method key : string) (values : Values) (body : bytes) : Request :=
  let values := ValuesSet values "alt" (firstNonEmpty [ValuesGet values "alt"; "json"%string]) in
  newRequest b method (bucketPath b ++ "/" ++ PathEscape (objectName b key)) values body.

Definition authorize (b : GcsBackend) (req : Request) : Request :=
  if String.eqb (gcs_token b) "" then req else withHeader req "Authorization" ("Bearer " ++ gcs_token b).

Definition sendRequest (b : GcsBackend) (req : Request) : M S Response := serve (authorize b req).

(** ** Answers *)

Definition expectStatus (resp : Response) (allowed : list Z) : outcome unit :=
  if statusIn resp allowed then Ok tt else Err "gcs request failed".

Definition objectInfoFromResource (key : string) (resource : objectResource) : StoredInfo :=
  mkStored key (match ParseInt (or_Size resource) with Ok n => n | _ => 0 end)
    (firstNonEmpty [or_MD5Hash resource; or_ETag resource; or_CRC32C resource])
    (if String.eqb (or_Updated resource) "" then 0 else default 0 (ParseRFC3339 (or_Updated resource))).

Definition requireKey (key : string) : M S unit := if validKey key then mret tt else merr "invalid object key".

Definition hexOf (data : bytes) : string := string_of_list_byte (hexEncode (sha256 data)).

Definition spoolAndHash (r : list read_result) : outcome (bytes * string) := data <~ readAll r ;; Ok (data, hexOf data).

(** ** Operations *)

Definition uploadValues (b : GcsBackend) (key : string) : Values :=
  ValuesSet (ValuesSet (ValuesSet ∅ "uploadType" "media") "name" (objectName b key)) "ifGenerationMatch" "0".

Definition uploadRequest (b : GcsBackend) (key : string) (data : bytes) : Request :=
  let req := newRequest b "POST" ("/upload/storage/v1/b/" ++ PathEscape (gcs_bucket b) ++ "/o") (uploadValues b key) data in
  withHeader (withHeader req "Content-Length" (Itoa (zlen data))) "Content-Type" "application/octet-stream".

Definition Put (b : GcsBackend) (key : string) (r : list read_result) (size : Z) : M S StoredInfo :=
  _ <-- requireKey key ;;
  spooled <-- mlift (spoolAndHash r) ;;
  let '(data, payloadHash) := spooled in
  if (0 <=? size) && negb (zlen data =? size) then merr "size mismatch"
  else
    resp <-- sendRequest b (uploadRequest b key data) ;;
    if statusIn resp [412; 409] then merr alreadyStored
    else
      _ <-- mlift (expectStatus resp [200]) ;;
      match decodeResource (rs_Body resp) with
      | None => merr "decode gcs upload response"
      | Some meta =>
          let info := objectInfoFromResource key meta in
          mret (mkStored key (if si_Size info =? 0 then zlen data else si_Size info)
                         (if String.eqb (si_ETag info) "" then payloadHash else si_ETag info) (si_UpdatedAt info))
      end.

Definition Head (b : GcsBackend) (key : string) : M S StoredInfo :=
  _ <-- requireKey key ;;
  resp <-- sendRequest b (objectRequest b "GET" key ∅ []) ;;
  if statusIn resp [404] then merr notFound
  else
    _ <-- mlift (expectStatus resp [200]) ;;
    match decodeResource (rs_Body resp) with
    | None => merr "decode gcs object metadata"
    | Some meta => mret (objectInfoFromResource key meta)
    end.

Definition mediaValues : Values := ValuesSet ∅ "alt" "media".

Definition Get (b : GcsBackend) (key : string) : M S (list read_result * StoredInfo) :=
  _ <-- requireKey key ;;
  info <-- Head b key ;;
  resp <-- sendRequest b (objectRequest b "GET" key mediaValues []) ;;
  if statusIn resp [404] then merr notFound
  else _ <-- mlift (expectStatus resp [200]) ;; mret (rs_Body resp, info).

(** A range of no bytes is asked for as one of one byte. *)
Definition rangeHeader (off len : Z) : string :=
  ("bytes=" ++ Itoa off ++ "-" ++ Itoa (if (len =? 0)%Z then off else off + len - 1))%string.

Definition GetRange (b : GcsBackend) (key : string) (off len : Z) : M S (list read_result) :=
  _ <-- requireKey key ;;
  if (off <? 0) || (len <? 0) then merr "invalid range"
  else
    resp <-- sendRequest b (withHeader (objectRequest b "GET" key mediaValues []) "Range" (rangeHeader off len)) ;;
    if statusIn resp [404] then merr notFound
    else _ <-- mlift (expectStatus resp [206; 200]) ;; mret (rs_Body resp).

Definition Exists (b : GcsBackend) (key : string) : M S bool := fun s =>
  match Head b key s with
  | (Ok _, s') => (Ok true, s')
  | (Err e, s') => if String.eqb e notFound then (Ok false, s') else (Err e, s')
  | (Panic e, s') => (Panic e, s')
  | (Fuel, s') => (Fuel, s')
  end.

Definition Delete (b : GcsBackend) (key : string) : M S unit :=
  _ <-- requireKey key ;;
  resp <-- sendRequest b (objectRequest b "DELETE" key ∅ []) ;;
  if statusIn resp [404] then mret tt else mlift (expectStatus resp [204; 200]).

Definition listValues (b : GcsBackend) (prefix token : string) : Values :=
  let values := ValuesSet ∅ "maxResults" defaultListPageSize in
  let merged := objectName b prefix in
  let values := if String.eqb merged "" then values else ValuesSet values "prefix" merged in
  if String.eqb token "" then values else ValuesSet values "pageToken" token.

Definition List (b : GcsBackend) (prefix token : string) : M S StoredPage :=
  resp <-- sendRequest b (newRequest b "GET" (bucketPath b) (listValues b prefix token) []) ;;
  _ <-- mlift (expectStatus resp [200]) ;;
  match decodeListing (rs_Body resp) with
  | None => merr "decode gcs list response"
  | Some (items, next) =>
      mret (mkPage (sort_by byKey (map (fun i => objectInfoFromResource (TrimPrefix (or_Name i) (gcs_prefix b)) i) items)) next)
  end.
End client.

(** ** The object a request names *)

(** The service takes the name of an object from the path as it is sent,
    undoing one escape. *)
Definition namedObject (bucket : string) (req : Request) : option string :=
  let prefix := ("/storage/v1/b/" ++ PathEscape bucket ++ "/o/")%string in
  let path := EscapedPath (rq_URL req) in
  if HasPrefix path prefix then unescape encodePathSegment (TrimPrefix path prefix) else None.

Class GcsLaws (bucket : string) (S : Type) `{HttpServer S} := {
  gcs_objects : S -> gmap string bytes;
  (** An upload that is answered with success has stored the object. *)
  gcs_uploaded : forall req s resp s', serve req s = (Ok resp, s') -> rq_Method req = "POST"%string -> rs_StatusCode resp = 200 ->
    gcs_objects s' = <[ValuesGet (URLQuery (rq_URL req)) "name" := rq_Body req]> (gcs_objects s);
  (** What is asked for an object that does not exist is answered so. *)
  gcs_missing : forall req s name, rq_Method req = "GET"%string \/ rq_Method req = "DELETE"%string -> namedObject bucket req = Some name ->
    gcs_objects s !! name = None -> exists resp s', serve req s = (Ok resp, s') /\ rs_StatusCode resp = 404 /\ gcs_objects s' = gcs_objects s
}.

Lemma segment_kept c : shouldEscape encodePathSegment c = false -> shouldEscape encodePath c = false.
Proof. destruct c as [[] [] [] [] [] [] [] []]; reflexivity || (intros H; discriminate H). Qed.

Lemma PathEscape_segment s : s <> EmptyString -> PathEscape s <> "."%string -> PathEscape s <> ".."%string -> segment (PathEscape s).
Proof.
  intros Hs H1 H2. assert (Hne : PathEscape s <> EmptyString).
  { destruct s as [|c s]; [done|]. unfold PathEscape. cbn [escape isQuery]. rewrite andb_false_r. destruct (shouldEscape _ c); discriminate. }
  split; [done|]. split; [done|]. split; [done|]. clear. unfold PathEscape. induction s as [|c s IH]; [done|]. cbn [escape isQuery]. rewrite andb_false_r.
  destruct (shouldEscape encodePathSegment c) eqn:E.
  - unfold percent. cbn [noByte]. rewrite IH. destruct c as [[] [] [] [] [] [] [] []]; reflexivity.
  - cbn [noByte]. rewrite IH, andb_true_r. destruct c as [[] [] [] [] [] [] [] []]; reflexivity || discriminate E.
Qed.

Lemma escape_app mode s t : escape mode (s ++ t) = (escape mode s ++ escape mode t)%string.
Proof.
  induction s as [|c s IH]; [done|]. change (String.append (String c s) t) with (String c (s ++ t))%string. cbn [escape]. rewrite IH.
  destruct (_ && _); [done|]. now destruct (shouldEscape mode c).
Qed.

Lemma HasPrefix_TrimPrefix p s : HasPrefix (p ++ s) p = true /\ TrimPrefix (p ++ s) p = s.
Proof.
  split; [apply HasPrefix_app|]. unfold TrimPrefix. rewrite HasPrefix_app. induction p as [|c p IH]; [now destruct s|exact IH].
Qed.

(** What needs no escape in a segment of a path. *)
Definition plainName (s : string) : Prop :=
  allChars (fun c => negb (shouldEscape encodePathSegment c)) s = true /\ s <> EmptyString /\ s <> "."%string /\ s <> ".."%string.

Lemma plain_escape s : allChars (fun c => negb (shouldEscape encodePathSegment c)) s = true -> PathEscape s = s /\ escape encodePath s = s.
Proof.
  unfold PathEscape. induction s as [|c s IH]; [done|]. cbn [allChars escape isQuery]. rewrite !andb_false_r. intros [Hc%negb_true_iff Hs]%andb_true_iff.
  destruct (IH Hs) as [E1 E2]. rewrite Hc, (segment_kept c Hc), E1, E2. done.
Qed.

Lemma unescape_mode m m' : isQuery m = isQuery m' -> forall n s, (String.length s < n)%nat -> unescape m s = unescape m' s.
Proof.
  intros Hm. induction n as [|n IH]; intros s Hs; [lia|]. destruct s as [|c r]; [done|]. cbn [String.length] in Hs.
  destruct (Ascii.eqb c "%") eqn:E.
  - apply Ascii.eqb_eq in E as ->. destruct r as [|x [|y r]]; [done..|]. cbn [unescape]. rewrite (IH r) by (cbn in Hs; lia). done.
  - rewrite !unescape_plain by done. now rewrite Hm, (IH r) by lia.
Qed.

Lemma unescape_path s : unescape encodePathSegment (escape encodePath s) = Some s.
Proof. rewrite (unescape_mode encodePathSegment encodePath eq_refl _ _ (Nat.lt_succ_diag_r _)). apply unescape_escape. Qed.

Lemma escaped_dot t : PathEscape t = "."%string \/ PathEscape t = ".."%string -> Contains t "/" = false.
Proof.
  assert (E : forall x, PathEscape t = PathEscape x -> Contains x "/" = false -> Contains t "/" = false) by (intros x E; now apply escape_inj in E as ->).
  intros [H|H]; [exact (E "."%string H eq_refl)|exact (E ".."%string H eq_refl)].
Qed.

(** A request for an object names it by its escaped name: the name is escaped
    once by the client, and once more when the URL is sent. *)
Lemma objectRequest_names b method key values body : u_Path (gcs_base b) = EmptyString -> plainName (gcs_bucket b) ->
  Contains (objectName b key) "/" = true ->
  namedObject (gcs_bucket b) (objectRequest b method key values body) = Some (PathEscape (objectName b key)).
Proof.
  intros Hb (Hp & H0 & H1 & H2) Hc. destruct (plain_escape _ Hp) as [Ep Ep']. set (name := objectName b key) in *.
  assert (Hs : segment (PathEscape name)) by (apply PathEscape_segment; [intros E; rewrite E in Hc; discriminate|intros E; rewrite escaped_dot in Hc by auto; discriminate..]).
  assert (Hbs : segment (gcs_bucket b)) by (rewrite <- Ep; apply PathEscape_segment; rewrite ?Ep; done).
  assert (E : (bucketPath b ++ "/" ++ PathEscape name)%string = pathOf ["storage"; "v1"; "b"; gcs_bucket b; "o"; PathEscape name]%string)
    by (unfold bucketPath, pathOf; rewrite Ep; cbn [Join]; rewrite !string_append_assoc; reflexivity).
  assert (Hpath : u_Path (rq_URL (objectRequest b method key values body)) = pathOf ["storage"; "v1"; "b"; gcs_bucket b; "o"; PathEscape name]%string).
  { cbn [objectRequest newRequest NewRequest rq_URL u_Path]. rewrite Hb. cbn [trimRightByte]. fold name. rewrite E.
    unfold pathJoin. cbn [List.filter String.eqb negb]. change (String.eqb (pathOf ?l) "") with false. cbn [negb Join].
    rewrite Clean_pathOf by (repeat apply Forall_cons_2; try exact Hs; try exact Hbs; try apply Forall_nil_2; repeat split; discriminate). unfold slashed, pathOf. now rewrite HasPrefix_slash. }
  unfold namedObject, EscapedPath. rewrite Hpath, Ep.
  assert (Hx : escape encodePath (pathOf ["storage"; "v1"; "b"; gcs_bucket b; "o"; PathEscape name]%string) =
    (("/storage/v1/b/" ++ gcs_bucket b ++ "/o/") ++ escape encodePath (PathEscape name))%string).
  { unfold pathOf. cbn [Join]. rewrite !escape_app, Ep', !string_append_assoc. reflexivity. }
  rewrite Hx. destruct (HasPrefix_TrimPrefix ("/storage/v1/b/" ++ gcs_bucket b ++ "/o/") (escape encodePath (PathEscape name))) as [-> ->].
  apply unescape_path.
Qed.

Lemma addValues_empty values : (forall k l, values !! k = Some l -> l <> []) -> addValues ∅ values = values.
Proof. intros Hv. now apply add_pairs. Qed.

Lemma set_values (v : Values) name value : (forall k l, v !! k = Some l -> l <> []) -> forall k l, ValuesSet v name value !! k = Some l -> l <> [].
Proof. intros Hv k l. unfold ValuesSet. rewrite lookup_insert_Some. intros [[_ <-]|[_ H]]; [done|eauto]. Qed.

Lemma no_values (k : string) (l : list string) : (∅ : Values) !! k = Some l -> l <> [].
Proof. now rewrite lookup_empty. Qed.

Lemma upload_name b key data : u_RawQuery (gcs_base b) = EmptyString ->
  ValuesGet (URLQuery (rq_URL (uploadRequest b key data))) "name" = objectName b key.
Proof.
  intros Hq. unfold uploadRequest. cbn [withHeader newRequest NewRequest rq_URL]. unfold URLQuery at 1. cbn [u_RawQuery].
  assert (Hv : forall k l, uploadValues b key !! k = Some l -> l <> []) by (unfold uploadValues; repeat apply set_values; apply no_values).
  assert (E : URLQuery (gcs_base b) = ∅) by (unfold URLQuery; rewrite Hq; reflexivity). rewrite E, addValues_empty by done.
  assert (G : ValuesGet (uploadValues b key) "name" = objectName b key).
  { unfold ValuesGet, uploadValues, ValuesSet. rewrite lookup_insert_ne by discriminate. now rewrite lookup_insert_eq. }
  destruct (String.eqb (gcs_apiKey b) ""); rewrite ParseQuery_Encode by first [exact Hv|exact (set_values _ _ _ Hv)]; [exact G|].
  cbn [fst]. unfold ValuesGet in *. unfold ValuesSet. rewrite lookup_insert_ne by discriminate. exact G.
Qed.

Lemma noByte_Contains c s : noByte c s = true -> Contains s (String c "") = false.
Proof. apply Contains_noByte. Qed.

Lemma escaped_name_differs s : Contains s "/" = true -> PathEscape s <> s.
Proof.
  intros Hc E. destruct s as [|c r] eqn:Es; [discriminate Hc|]. rewrite <- Es in *.
  assert (Hs : segment (PathEscape s)) by (apply PathEscape_segment; [now rewrite Es|intros H; rewrite escaped_dot in Hc by auto; discriminate..]).
  destruct Hs as (_ & _ & _ & Hs). rewrite E in Hs. apply Contains_noByte in Hs. congruence.
Qed.

Section lost.
Context (bucket : string) {S : Type} {HS : HttpServer S} {HL : GcsLaws bucket S}.
Context (sha256 : bytes -> bytes) (ParseRFC3339 : string -> option Time) (decodeResource : list read_result -> option objectResource).
Context (b : GcsBackend) (bucket_is : gcs_bucket b = bucket).

Lemma authorized b' req : rq_Method (authorize b' req) = rq_Method req /\ rq_URL (authorize b' req) = rq_URL req /\ rq_Body (authorize b' req) = rq_Body req.
Proof. unfold authorize. now destruct (String.eqb _ ""). Qed.

Lemma missing_answer method key values s : method = "GET"%string \/ method = "DELETE"%string -> u_Path (gcs_base b) = EmptyString -> plainName bucket ->
  Contains (objectName b key) "/" = true -> gcs_objects s !! PathEscape (objectName b key) = None ->
  exists resp s', sendRequest b (objectRequest b method key values []) s = (Ok resp, s') /\ rs_StatusCode resp = 404 /\ gcs_objects s' = gcs_objects s.
Proof.
  intros Hm Hb Hp Hc Hn. unfold sendRequest. destruct (authorized b (objectRequest b method key values [])) as (Em & Eu & _).
  apply (gcs_missing (bucket := bucket) _ s (PathEscape (objectName b key))); [rewrite Em; exact Hm| |done].
  unfold namedObject. rewrite Eu. subst bucket. now apply objectRequest_names.
Qed.

(** An object that is stored in Google Cloud Storage under a key with a
    slash is never found again: every later request names it by its escaped
    name, so that reading it fails, Exists denies it, and Delete reports
    success and leaves it. *)
Theorem gcs_stored_never_found key r size s info s' : u_Path (gcs_base b) = EmptyString -> u_RawQuery (gcs_base b) = EmptyString -> plainName bucket ->
  Contains (objectName b key) "/" = true -> gcs_objects s !! PathEscape (objectName b key) = None ->
  Put sha256 ParseRFC3339 decodeResource b key r size s = (Ok info, s') ->
  gcs_objects s' !! objectName b key = Some (delivered r) /\
  fst (Get ParseRFC3339 decodeResource b key s') = Err notFound /\
  fst (Exists ParseRFC3339 decodeResource b key s') = Ok false /\
  (fst (Delete b key s') = Ok tt /\ gcs_objects (Delete b key s').2 = gcs_objects s').
Proof.
  intros Hb Hq Hp Hc Hn. unfold Put, requireKey. destruct (validKey key) eqn:Hk; [|discriminate]. unfold mbind at 1. cbn [mret].
  unfold spoolAndHash, readAll. destruct (ended r); [discriminate|]. cbn [obind]. unfold mbind at 1. cbn [mlift].
  destruct ((0 <=? size) && negb (zlen (delivered r) =? size)); [discriminate|]. unfold mbind at 1. intros H.
  destruct (sendRequest b (uploadRequest b key (delivered r)) s) as [[resp|e|e|] s1] eqn:E; try discriminate.
  destruct (statusIn resp [412; 409]); [discriminate|]. unfold mbind, mlift, expectStatus in H.
  destruct (statusIn resp [200]) eqn:E2; [|discriminate]. assert (Hs : s1 = s') by (destruct (decodeResource _); [now injection H|discriminate]). subst s1.
  unfold statusIn in E2. cbn [existsb] in E2. unfold sendRequest in E. destruct (authorized b (uploadRequest b key (delivered r))) as (Em & Eu & Ebody).
  pose proof (gcs_uploaded _ _ _ _ E ltac:(now rewrite Em) ltac:(lia)) as Ho. rewrite Eu, Ebody, upload_name in Ho by done.
  change (rq_Body (uploadRequest b key (delivered r))) with (delivered r) in Ho.
  assert (Hn' : gcs_objects s' !! PathEscape (objectName b key) = None).
  { rewrite Ho, lookup_insert_ne; [done|]. intros E'. now apply (escaped_name_differs _ Hc). }
  assert (Hh : exists s1, Head ParseRFC3339 decodeResource b key s' = (Err notFound, s1)).
  { unfold Head, requireKey. rewrite Hk. unfold mbind at 1. cbn [mret]. unfold mbind at 1.
    destruct (missing_answer "GET" key ∅ s' (or_introl eq_refl) Hb Hp Hc Hn') as (x & s1 & -> & Hx & _). unfold statusIn. rewrite Hx. cbn. eauto. }
  destruct Hh as [s1 Hh]. split; [now rewrite Ho, lookup_insert_eq|]. split; [|split].
  - unfold Get, requireKey. rewrite Hk. unfold mbind at 1. cbn [mret]. unfold mbind at 1. now rewrite Hh.
  - unfold Exists. now rewrite Hh.
  - assert (Hd : exists s2, Delete b key s' = (Ok tt, s2) /\ gcs_objects s2 = gcs_objects s'); [|now destruct Hd as (s2 & -> & Hsame)].
    unfold Delete, requireKey. rewrite Hk. unfold mbind at 1. cbn [mret]. unfold mbind at 1.
    destruct (missing_answer "DELETE" key ∅ s' (or_intror eq_refl) Hb Hp Hc Hn') as (x & s2 & -> & Hx & Hsame). unfold statusIn. rewrite Hx. exists s2. done.
Qed.
End lost.

(** ** A service *)

Definition gcsAnswer (status : Z) (body : bytes) : Response := mkResponse status ∅ (zlen body) (bytesReader body).

#[export] Instance gcsServer : HttpServer (gmap string bytes) := {
  serve req s :=
    if String.eqb (rq_Method req) "POST" then
      let name := ValuesGet (URLQuery (rq_URL req)) "name" in
      if bool_decide (is_Some (s !! name)) then (Ok (gcsAnswer 412 []), s) else (Ok (gcsAnswer 200 []), <[name := rq_Body req]> s)
    else match namedObject "repo" req with
         | None => (Ok (gcsAnswer 200 []), s)
         | Some name =>
             match s !! name with
             | None => (Ok (gcsAnswer 404 []), s)
             | Some data => if String.eqb (rq_Method req) "DELETE" then (Ok (gcsAnswer 204 []), delete name s) else (Ok (gcsAnswer 200 data), s)
             end
         end
}.

#[export] Program Instance gcsLaws : GcsLaws "repo" (gmap string bytes) := {| gcs_objects s := s |}.
Next Obligation.
  intros req s resp s'. cbn [serve gcsServer]. intros H Hm Hs. rewrite Hm in H. cbn [String.eqb Ascii.eqb Bool.eqb] in H.
  destruct (bool_decide _); injection H as <- <-; [discriminate Hs|done].
Qed.
Next Obligation.
  intros req s name Hm Hn Ho. cbn [serve gcsServer]. rewrite Hn, Ho. exists (gcsAnswer 404 []), s. split; [|done]. now destruct Hm as [-> | ->].
Qed.

Definition toyGcs : GcsBackend := mkGcs "gcs" "repo" "" (mkURL "https" "storage.googleapis.com" "" "") "token" "".
Definition toyResource (r : list read_result) : option objectResource := Some (mkResource "" "" "" "" "" "").

Lemma gcs_stored_never_found_witness :
  let s' := (Put (fun x => x) (fun _ => None) toyResource toyGcs "data/a" (bytesReader [Byte.x01]) 1 (∅ : gmap string bytes)).2 in
  s' = {[ "data/a"%string := [Byte.x01] ]} /\ fst (Get (fun _ => None) toyResource toyGcs "data/a" s') = Err notFound.
Proof.
  destruct (Put (fun x => x) (fun _ => None) toyResource toyGcs "data/a" (bytesReader [Byte.x01]) 1 (∅ : gmap string bytes)) as [[info|e|e|] s'] eqn:E;
    [|vm_compute in E; discriminate E..].
  assert (P : plainName "repo") by (repeat split; try reflexivity; discriminate).
  destruct (gcs_stored_never_found "repo" (fun x => x) (fun _ => None) toyResource toyGcs eq_refl "data/a" (bytesReader [Byte.x01]) 1 ∅ info s'
    eq_refl eq_refl P eq_refl (lookup_empty (M := gmap string) _) E) as (_ & H & _).
  split; [|exact H]. apply (f_equal snd) in E. rewrite <- (E : _ = s'). vm_compute. reflexivity.
Defined.
