(* ===== verification/Azure.v ===== *)
(** * The Azure Blob Storage client

    Models src/internal/storage/azure/backend.go over a server of Http.v. The
    XML decoder, HMAC and the parsers of dates and URLs are parameters; the
    file a body is spooled to is its contents, and cancellation is left out.

    The theorems show what a Put does to the blobs of a service, and that two
    keys of one clean form are one blob. *)

From Stdlib Require Import Ascii String.
From S2P Require Import Prelude ChunkHash Core Calendar GoStrings GoText Retention FastCDC LocalFiles Engine Http S3Sign Gcs.
Local Open Scope Z_scope.
#[local] Arguments String.append !_ _ / : simpl nomatch.

Definition storageVersion : string := "2023-11-03".
Definition defaultListPageSize : string := "1000".

Record AzureConfig := mkAzureConfig
  { ac_Name : string; ac_AccountName : string; ac_AccountKey : string; ac_Container : string; ac_Prefix : string; ac_Endpoint : string; ac_SASToken : string }.

Record AzureBackend := mkAzure
  { az_name : string; az_accountName : string; az_accountKey : bytes; az_container : string; az_prefix : string; az_endpoint : URL; az_sas : Values }.

(** What the XML of a listing holds of a blob. *)
Record blob := mkBlob { bl_Name : string; bl_LastModified : Time; bl_ETag : string; bl_ContentLength : Z }.

Section client.
Context {S : Type} {HS : HttpServer S}.
Context (sha256 : bytes -> bytes) (hmac : bytes -> bytes -> bytes) (now : Time).
Context (parseURL : string -> option URL) (ParseTime : string -> option Time) (formatTime : Time -> string).
Context (decodeListing : list read_result -> option (list blob * string)).

Definition New (cfg : AzureConfig) : outcome AzureBackend :=
  let name := TrimSpace (ac_Name cfg) in
  let account := TrimSpace (ac_AccountName cfg) in
  let raw := TrimSpace (ac_Endpoint cfg) in
  if String.eqb account "" && String.eqb raw "" then Err "azure account name is required"
  else
    let container := TrimByte "/" (TrimSpace (ac_Container cfg)) in
    if String.eqb container "" then Err "azure container is required"
    else
      match parseURL (if String.eqb raw "" then "https://" ++ account ++ ".blob.core.windows.net" else raw)%string with
      | None => Err "parse azure endpoint"
      | Some endpoint =>
          if String.eqb (u_Scheme endpoint) "" || String.eqb (u_Host endpoint) "" then Err "azure endpoint must include scheme and host"
          else
            let key := TrimSpace (ac_AccountKey cfg) in
            match (if String.eqb key "" then Some [] else DecodeString stdAlphabet (list_byte_of_string key)) with
            | None => Err "decode azure account key"
            | Some key =>
                let token := TrimSpace (ac_SASToken cfg) in
                let '(sas, ok) := if String.eqb token "" then (∅, true) else ParseQuery (TrimPrefix token "?") in
                if negb (ok : bool) then Err "parse azure sas token"
                else Ok (mkAzure (if String.eqb name "" then "azure"%string else name) account key container (cleanPrefix (ac_Prefix cfg)) endpoint sas)
            end
      end.

(** ** Requests *)

Definition blobName (b : AzureBackend) (key : string) : string := (az_prefix b ++ key)%string.

Definition newBlobRequest (b : AzureBackend) (method blob : string) (values : Values) (body : bytes) : Request :=
  let u := az_endpoint b in
  let parts := trimRightByte "/" (u_Path u) :: az_container b :: (if String.eqb blob "" then [] else SplitOn "/" blob) in
  let query := addValues (addValues (URLQuery u) (az_sas b)) values in
  let req := NewRequest method (mkURL (u_Scheme u) (u_Host u) (slashed (pathJoin parts)) (Encode query)) body in
  withHeader (withHeader req "x-ms-date" (formatTime now)) "x-ms-version" storageVersion.

Definition newRequest (b : AzureBackend) (method key : string) (values : Values) (body : bytes) : outcome Request :=
  if validKey key then Ok (newBlobRequest b method (blobName b key) values body) else Err "invalid object key".

Definition newContainerRequest (b : AzureBackend) (method : string) (values : Values) (body : bytes) : Request := newBlobRequest b method "" values body.

(** ** Signing *)

Definition canonicalizedHeaders (headers : Header) : string :=
  let keys := List.filter (fun key => HasPrefix key "x-ms-") (map (fun e => ToLower e.1) (map_to_list headers)) in
  let text key :=
    let values := sort_by String.ltb (map (fun v => Join (Fields v) " ") (HeaderValues headers key)) in
    (key ++ ":" ++ Join values "," ++ String newline "")%string in
  concatAll (map text (sort_by String.ltb keys)).

Definition signatureKey (lower : string) : bool :=
  HasPrefix lower "sig" || HasPrefix lower "se" || HasPrefix lower "sp" || HasPrefix lower "sv" || HasPrefix lower "sr".

Definition canonicalizedResource (u : URL) (account : string) : string :=
  let path := EscapedPath u in
  let query := URLQuery u in
  let keys := sort_by String.ltb (List.filter (fun lower => negb (signatureKey lower)) (map (fun e => ToLower e.1) (map_to_list query))) in
  let text key := (String newline "" ++ key ++ ":" ++ Join (sort_by String.ltb (default [] (query !! key))) ",")%string in
  ("/" ++ account ++ (if String.eqb path "" then "/" else path) ++ concatAll (map text keys))%string.

Definition azureStringToSign (req : Request) (account : string) : string :=
  let headers := rq_Header req in
  let contentLength := HeaderGet headers "Content-Length" in
  let parts := [rq_Method req; HeaderGet headers "Content-Encoding"; HeaderGet headers "Content-Language";
    (if String.eqb contentLength "0" then EmptyString else contentLength); HeaderGet headers "Content-MD5"; HeaderGet headers "Content-Type";
    HeaderGet headers "Date"; HeaderGet headers "If-Modified-Since"; HeaderGet headers "If-Match"; HeaderGet headers "If-None-Match";
    HeaderGet headers "If-Unmodified-Since"; HeaderGet headers "Range"] in
  (Join parts (String newline "") ++ String newline "" ++ canonicalizedHeaders headers ++ canonicalizedResource (rq_URL req) account)%string.

Definition sign (b : AzureBackend) (req : Request) : outcome Request :=
  if (length (az_accountKey b) =? 0)%nat then Ok req
  else if String.eqb (az_accountName b) "" then Err "azure account name is required for shared key auth"
  else
    let signature := string_of_list_byte (EncodeToString stdAlphabet (hmac (az_accountKey b) (list_byte_of_string (azureStringToSign req (az_accountName b))))) in
    Ok (withHeader req "Authorization" ("SharedKey " ++ az_accountName b ++ ":" ++ signature)).

(** ** Answers *)

Definition expectStatus (resp : Response) (allowed : list Z) : outcome unit :=
  if statusIn resp allowed then Ok tt else Err "azure blob request failed".

Definition headerSize (header : Header) (name : string) : option Z :=
  match ParseInt (HeaderGet header name) with Ok n => Some n | _ => None end.

Definition objectInfoFromHeaders (key : string) (fallbackSize : Z) (header : Header) : StoredInfo :=
  let size := match headerSize header "Content-Length" with
    | Some n => n
    | None => default fallbackSize (headerSize header "x-ms-blob-content-length")
    end in
  mkStored key size (trimETag (HeaderGet header "ETag")) (default 0 (ParseTime (HeaderGet header "Last-Modified"))).

Definition hexOf (data : bytes) : string := string_of_list_byte (hexEncode (sha256 data)).

Definition spoolAndHash (r : list read_result) : outcome (bytes * string) := data <~ readAll r ;; Ok (data, hexOf data).

Definition exchange (b : AzureBackend) (req : outcome Request) : M S Response :=
  req <-- mlift req ;;
  req <-- mlift (sign b req) ;;
  serve req.

(** ** Operations *)

Definition putRequest (b : AzureBackend) (key : string) (data : bytes) (payloadHash : string) : outcome Request :=
  req <~ newRequest b "PUT" key ∅ data ;;
  let req := withHeader (withHeader (withHeader req "Content-Length" (Itoa (zlen data))) "Content-Type" "application/octet-stream") "If-None-Match" "*" in
  Ok (withHeader (withHeader req "x-ms-blob-type" "BlockBlob") "x-ms-meta-kronos-sha256" payloadHash).

Definition Put (b : AzureBackend) (key : string) (r : list read_result) (size : Z) : M S StoredInfo :=
  if negb (validKey key) then merr "invalid object key"
  else
    spooled <-- mlift (spoolAndHash r) ;;
    let '(data, payloadHash) := spooled in
    if (0 <=? size) && negb (zlen data =? size) then merr "size mismatch"
    else
      resp <-- exchange b (putRequest b key data payloadHash) ;;
      if statusIn resp [412; 409] then merr alreadyStored
      else
        _ <-- mlift (expectStatus resp [201; 200]) ;;
        let info := objectInfoFromHeaders key (zlen data) (rs_Header resp) in
        mret (mkStored key (zlen data) (if String.eqb (si_ETag info) "" then payloadHash else si_ETag info) (si_UpdatedAt info)).

Definition Get (b : AzureBackend) (key : string) : M S (list read_result * StoredInfo) :=
  resp <-- exchange b (newRequest b "GET" key ∅ []) ;;
  if statusIn resp [404] then merr notFound
  else _ <-- mlift (expectStatus resp [200]) ;; mret (rs_Body resp, objectInfoFromHeaders key (rs_ContentLength resp) (rs_Header resp)).

Definition GetRange (b : AzureBackend) (key : string) (off len : Z) : M S (list read_result) :=
  if negb (validKey key) then merr "invalid object key"
  else if (off <? 0) || (len <? 0) then merr "invalid range"
  else
    resp <-- exchange b (req <~ newRequest b "GET" key ∅ [] ;; Ok (withHeader req "x-ms-range" (rangeHeader off len))) ;;
    if statusIn resp [404] then merr notFound
    else _ <-- mlift (expectStatus resp [206; 200]) ;; mret (rs_Body resp).

Definition Head (b : AzureBackend) (key : string) : M S StoredInfo :=
  resp <-- exchange b (newRequest b "HEAD" key ∅ []) ;;
  if statusIn resp [404] then merr notFound
  else _ <-- mlift (expectStatus resp [200]) ;; mret (objectInfoFromHeaders key (rs_ContentLength resp) (rs_Header resp)).

Definition Exists (b : AzureBackend) (key : string) : M S bool := fun s =>
  match Head b key s with
  | (Ok _, s') => (Ok true, s')
  | (Err e, s') => if String.eqb e notFound then (Ok false, s') else (Err e, s')
  | (Panic e, s') => (Panic e, s')
  | (Fuel, s') => (Fuel, s')
  end.

Definition Delete (b : AzureBackend) (key : string) : M S unit :=
  resp <-- exchange b (newRequest b "DELETE" key ∅ []) ;;
  if statusIn resp [404] then mret tt else mlift (expectStatus resp [202; 200; 204]).

Definition listValues (b : AzureBackend) (prefix token : string) : Values :=
  let values := ValuesSet (ValuesSet (ValuesSet ∅ "restype" "container") "comp" "list") "maxresults" defaultListPageSize in
  let values := if String.eqb (blobName b prefix) "" then values else ValuesSet values "prefix" (blobName b prefix) in
  if String.eqb token "" then values else ValuesSet values "marker" token.

Definition List (b : AzureBackend) (prefix token : string) : M S StoredPage :=
  resp <-- exchange b (Ok (newContainerRequest b "GET" (listValues b prefix token) [])) ;;
  _ <-- mlift (expectStatus resp [200]) ;;
  match decodeListing (rs_Body resp) with
  | None => merr "decode azure list response"
  | Some (items, next) =>
      let object i := mkStored (TrimPrefix (bl_Name i) (az_prefix b)) (bl_ContentLength i) (trimETag (bl_ETag i)) (bl_LastModified i) in
      mret (mkPage (sort_by byKey (map object items)) next)
  end.
End client.

(** ** Blobs of a service *)

(** A service that stores blobs by their path, and does not overwrite when it
    is told so. *)
Class AzureLaws (S : Type) `{HttpServer S} := {
  az_blobs : S -> gmap string bytes;
  az_put_effect : forall req s r s', serve req s = (r, s') -> rq_Method req = "PUT"%string -> HeaderGet (rq_Header req) "If-None-Match" = "*"%string ->
    az_blobs s' = az_blobs s \/
    az_blobs s !! u_Path (rq_URL req) = None /\ az_blobs s' = <[u_Path (rq_URL req) := rq_Body req]> (az_blobs s);
  az_put_stored : forall req s resp s', serve req s = (Ok resp, s') -> rq_Method req = "PUT"%string -> HeaderGet (rq_Header req) "If-None-Match" = "*"%string ->
    statusIn resp [201; 200] = true ->
    az_blobs s !! u_Path (rq_URL req) = None /\ az_blobs s' = <[u_Path (rq_URL req) := rq_Body req]> (az_blobs s)
}.

Definition blobPath (b : AzureBackend) (key : string) : string :=
  slashed (pathJoin (trimRightByte "/" (u_Path (az_endpoint b)) :: az_container b :: SplitOn "/" (blobName b key))).

Section stored.
Context {S : Type} {HS : HttpServer S} {HL : AzureLaws S}.
Context (sha256 : bytes -> bytes) (hmac : bytes -> bytes -> bytes) (now : Time) (ParseTime : string -> option Time) (formatTime : Time -> string).

Lemma sign_keeps b req req' : sign hmac b req = Ok req' ->
  rq_Method req' = rq_Method req /\ rq_URL req' = rq_URL req /\ rq_Body req' = rq_Body req /\
  HeaderGet (rq_Header req') "If-None-Match" = HeaderGet (rq_Header req) "If-None-Match".
Proof.
  unfold sign. destruct (_ =? 0)%nat; [intros [= <-]; done|]. destruct (String.eqb _ ""); [discriminate|]. intros [= <-]. cbn [withHeader rq_Method rq_URL rq_Body rq_Header].
  rewrite HeaderGet_Set_ne by discriminate. done.
Qed.

Lemma valid_not_empty b key : validKey key = true -> String.eqb (blobName b key) "" = false.
Proof.
  intros Hk. unfold blobName. destruct key as [|c key]; [discriminate|]. destruct (az_prefix b); reflexivity.
Qed.

(** A Put stores the bytes of the reader in a blob that did not exist, or
    leaves all blobs as they are; when it succeeds, it is the former. *)
Lemma azure_put_exact b key r size s res s' : Put sha256 hmac now ParseTime formatTime b key r size s = (res, s') ->
  let written := <[blobPath b key := delivered r]> (az_blobs s) in
  (az_blobs s' = az_blobs s \/ az_blobs s !! blobPath b key = None /\ az_blobs s' = written) /\
  (forall info, res = Ok info -> az_blobs s !! blobPath b key = None /\ az_blobs s' = written /\ si_Size info = zlen (delivered r)).
Proof.
  cbv zeta. unfold Put. destruct (validKey key) eqn:Hk; [|intros [= <- <-]; split; [now left|discriminate]]. cbn [negb].
  unfold spoolAndHash, readAll. destruct (ended r); [intros [= <- <-]; split; [now left|discriminate]|]. cbn [obind]. unfold mbind at 1. cbn [mlift].
  destruct (_ && _); [intros [= <- <-]; split; [now left|discriminate]|].
  unfold mbind at 1, exchange, putRequest, newRequest. rewrite Hk. cbn [obind mlift]. unfold mbind at 1.
  set (req := withHeader _ "x-ms-meta-kronos-sha256" _). unfold mbind at 1. unfold mlift at 1.
  assert (Hr : rq_Method req = "PUT"%string /\ u_Path (rq_URL req) = blobPath b key /\ rq_Body req = delivered r /\ HeaderGet (rq_Header req) "If-None-Match" = "*"%string).
  { unfold req, newBlobRequest, blobPath. rewrite valid_not_empty by done. cbn [withHeader NewRequest rq_Method rq_URL rq_Body rq_Header u_Path].
    rewrite !HeaderGet_Set_ne by discriminate. now rewrite HeaderGet_Set. }
  destruct Hr as (Hm & Hp & Hb & Hi).
  destruct (sign hmac b req) as [req'|e|e|] eqn:Es; [|intros [= <- <-]; split; [now left|discriminate]..].
  destruct (sign_keeps _ _ _ Es) as (Em & Eu & Eb & Ei). rewrite <- Em in Hm. rewrite <- Eu in Hp. rewrite <- Eb in Hb. rewrite <- Ei in Hi. clear req Es Em Eu Eb Ei.
  unfold mlift at 1. destruct (serve req' s) as [x s1] eqn:E. pose proof (az_put_effect _ _ _ _ E Hm Hi) as He. rewrite Hp, Hb in He.
  destruct x as [resp|e|e|]; [|intros [= <- <-]; split; [done|discriminate]..].
  cbn [fst snd]. destruct (statusIn resp [412; 409]); [intros [= <- <-]; split; [done|discriminate]|]. unfold mbind, mlift, expectStatus.
  destruct (statusIn resp [201; 200]) eqn:Ek; intros [= <- <-]; (split; [exact He|]); [|discriminate].
  intros info [= <-]. destruct (az_put_stored _ _ _ _ E Hm Hi Ek) as [H1 H2]. now rewrite Hp, Hb in *.
Qed.
End stored.

(** Two keys of one clean form are one blob, although a listing tells them
    apart from each other. *)
Example azure_alias : let b := mkAzure "azure" "acc" [] "box" "" (mkURL "https" "acc.blob" "" "") ∅ in
  blobPath b "data//a" = "/box/data/a"%string /\ blobPath b "data/a" = "/box/data/a"%string /\ validKey "data//a" = true /\
  rangeHeader 3 0 = rangeHeader 3 1.
Proof. vm_compute. repeat split. Qed.

Example azure_sign : let u := mkURL "https" "acc.blob" "/box/data/a b" "comp=list&sv=2020&marker=x" in
  canonicalizedResource u "acc" = ("/acc/box/data/a%20b" ++ String newline ("comp:list" ++ String newline "marker:x"))%string /\
  canonicalizedHeaders (HeaderSet (HeaderSet (HeaderSet ∅ "x-ms-version" "v") "x-ms-date" " d   e ") "Range" "r") =
    ("x-ms-date:d e" ++ String newline ("x-ms-version:v" ++ String newline ""))%string.
Proof. vm_compute. repeat split. Qed.
