(* ===== verification/Sftp.v ===== *)
(** * The SFTP client

    Models src/internal/storage/sftp/backend.go over the class [SftpClient] of
    what it asks of a connection (github.com/pkg/sftp): each operation is one
    step of the state of the server, and can fail. Keys, the agent, files of
    known hosts and dialling are parameters; cancellation is left out.

    The theorems show that the host key is checked unless the settings say
    otherwise, and that a Put is atomic on every server that behaves as
    documented; a server in memory does. *)

From Stdlib Require Import Ascii String.
From S2P Require Import Prelude ChunkHash Core Calendar GoStrings GoText Retention FastCDC LocalFiles Http S3Sign S3 Gcs.
Local Open Scope Z_scope.
#[local] Arguments String.append !_ _ / : simpl nomatch.

Definition defaultPageSize : nat := 1000.
Definition notExist : string := "file does not exist".

Record FileInfo := mkFileInfo { fi_Size : Z; fi_ModTime : Time }.

(** An entry of a walk: its path, what is known of it, and whether it is a
    directory. *)
Record walkEntry := mkEntry { we_Path : string; we_Info : option FileInfo; we_IsDir : bool }.

Class SftpClient (S : Type) := {
  sf_Stat : string -> M S FileInfo;
  sf_MkdirAll : string -> M S unit;
  sf_Create : string -> M S unit;          (* O_WRONLY|O_CREATE|O_EXCL *)
  sf_Write : string -> bytes -> M S unit;
  sf_Close : string -> M S unit;
  sf_Remove : string -> M S unit;
  sf_Rename : string -> string -> M S unit;
  sf_Read : string -> M S (list read_result * FileInfo);   (* Open and Stat *)
  sf_Walk : string -> M S (list (outcome walkEntry))
}.

(** ** Connecting *)

Record SftpConfig := mkSftpConfig
  { sc_Name : string; sc_Address : string; sc_Root : string; sc_Username : string; sc_Password : string; sc_PrivateKeyPEM : string;
    sc_PrivateKeyPath : string; sc_Passphrase : string; sc_AgentSocket : string; sc_KnownHostsPath : string; sc_InsecureIgnoreHostKey : bool; sc_Timeout : Z }.

Record SftpBackend := mkSftp { sb_name : string; sb_root : string }.

(** How the host key is checked. *)
Inductive hostKeyCheck : Type := AnyHostKey | KnownHosts (path : string).

Section connect.
Context {Signer : Type} (parsePrivateKey : string -> string -> option Signer) (ReadFile : string -> option string).
Context (agentDial : string -> bool) (loadKnownHosts : string -> bool).

Inductive authMethod : Type := Password (password : string) | PublicKeys (signer : Signer) | AgentKeys (socket : string).

Record sshConfig := mkSsh { sh_User : string; sh_Auth : list authMethod; sh_HostKey : hostKeyCheck; sh_Timeout : Z }.

Definition authMethods (cfg : SftpConfig) : outcome (list authMethod) :=
  let passwords := if String.eqb (sc_Password cfg) "" then [] else [Password (sc_Password cfg)] in
  let inline := TrimSpace (sc_PrivateKeyPEM cfg) in
  key <~ (if String.eqb inline "" && negb (String.eqb (TrimSpace (sc_PrivateKeyPath cfg)) "")
          then match ReadFile (sc_PrivateKeyPath cfg) with Some data => Ok data | None => Err "read sftp private key" end
          else Ok inline) ;;
  keys <~ (if String.eqb key "" then Ok []
           else match parsePrivateKey key (sc_Passphrase cfg) with Some signer => Ok [PublicKeys signer] | None => Err "parse sftp private key" end) ;;
  agents <~ (if String.eqb (TrimSpace (sc_AgentSocket cfg)) "" then Ok []
             else if agentDial (sc_AgentSocket cfg) then Ok [AgentKeys (sc_AgentSocket cfg)] else Err "connect ssh agent") ;;
  Ok (passwords ++ keys ++ agents).

Definition hostKeyCallback (cfg : SftpConfig) : outcome hostKeyCheck :=
  if sc_InsecureIgnoreHostKey cfg then Ok AnyHostKey
  else if String.eqb (TrimSpace (sc_KnownHostsPath cfg)) "" then Err "sftp known_hosts path is required unless insecure_ignore_host_key is true"
  else if loadKnownHosts (sc_KnownHostsPath cfg) then Ok (KnownHosts (sc_KnownHostsPath cfg)) else Err "load sftp known_hosts".

(** New up to the dialling: the address, the settings of the connection and
    the backend. *)
Definition New (cfg : SftpConfig) (dial : string -> sshConfig -> outcome unit) : outcome SftpBackend :=
  if String.eqb (TrimSpace (sc_Address cfg)) "" then Err "sftp address is required"
  else
    let address := if Contains (sc_Address cfg) ":" then sc_Address cfg else (sc_Address cfg ++ ":22")%string in
    if String.eqb (TrimSpace (sc_Username cfg)) "" then Err "sftp username is required"
    else
      auth <~ authMethods cfg ;;
      if (length auth =? 0)%nat then Err "sftp authentication requires password, private_key, private_key_path, or agent_socket"
      else
        hostKey <~ hostKeyCallback cfg ;;
        _ <~ dial address (mkSsh (sc_Username cfg) auth hostKey (if sc_Timeout cfg <=? 0 then 30 * Second else sc_Timeout cfg)) ;;
        let root := Clean ("/" ++ TrimPrefix (sc_Root cfg) "/") in
        Ok (mkSftp (if String.eqb (TrimSpace (sc_Name cfg)) "" then "sftp"%string else sc_Name cfg) (if String.eqb root "." then "/"%string else root)).

(** The host key is checked against the known hosts, unless the settings ask
    for any key. *)
Lemma host_key_checked cfg dial b : New cfg dial = Ok b -> sc_InsecureIgnoreHostKey cfg = false ->
  exists address ssh, dial address ssh = Ok tt /\ sh_HostKey ssh = KnownHosts (sc_KnownHostsPath cfg) /\ loadKnownHosts (sc_KnownHostsPath cfg) = true.
Proof.
  unfold New, hostKeyCallback. intros H Hi. rewrite Hi in H. destruct (String.eqb _ ""); [discriminate|]. destruct (String.eqb _ ""); [discriminate|].
  destruct (authMethods cfg) as [auth|?|?|]; [|discriminate..]. cbn [obind] in H. destruct (_ =? 0)%nat; [discriminate|].
  destruct (String.eqb _ ""); [discriminate|]. destruct (loadKnownHosts _) eqn:E; [|discriminate]. cbn [obind] in H.
  destruct (dial _ _) as [[]|?|?|] eqn:Ed; [|discriminate..]. eauto.
Qed.
End connect.

(** An operation that returns, with a result or an error. *)
Definition returns {A} (r : outcome A) : Prop := match r with Ok _ | Err _ => True | _ => False end.

(** ** Operations *)

Section client.
Context {S : Type} {SC : SftpClient S} (sha256 : bytes -> bytes) (randomSuffix : string).

(** path.Dir and path.Base of a clean absolute path. *)
Definition pathBase (p : string) : string := List.last (SplitOn "/" p) EmptyString.
Definition pathDir (p : string) : string := pathOf (removelast (tl (SplitOn "/" p))).

Definition sftpPath (b : SftpBackend) (key : string) : outcome string :=
  match pathForKey (sb_root b) key with Some p => Ok p | None => Err "invalid object key" end.

Definition tmpPath (final : string) : string :=
  pathJoin [pathDir final; ("." ++ pathBase final ++ "." ++ randomSuffix ++ ".tmp")%string].

(** The result of an operation as a value, to look at its error. *)
Definition tryM {A} (m : M S A) : M S (outcome A) := fun s =>
  match m s with
  | (Panic e, s') => (Panic e, s')
  | (Fuel, s') => (Fuel, s')
  | (r, s') => (Ok r, s')
  end.

(** copyWithContext into the open file. *)
Fixpoint copy_loop (fuel : nat) (path : string) (written : bytes) (r : list read_result) : M S bytes :=
  match fuel with
  | O => mfuel
  | Datatypes.S fuel =>
      let '(x, rest) := read copyBuffer r in
      _ <-- (match result_bytes x with [] => mret tt | bs => sf_Write path bs end) ;;
      let written := written ++ result_bytes x in
      match x with
      | RData _ => copy_loop fuel path written rest
      | REOF _ => mret written
      | RErr _ e => merr e
      end
  end.

Definition copyWithContext (path : string) (r : list read_result) : M S bytes := copy_loop (stream_size r + 1) path [] r.

(** An error after the temporary file was created removes it. *)
Definition discard {A} (tmp e : string) : M S A := _ <-- tryM (sf_Remove tmp) ;; merr e.

Definition commit (key final tmp : string) (data : bytes) (size : Z) : M S StoredInfo :=
  if (0 <=? size) && negb (zlen data =? size) then discard tmp "size mismatch"
  else
    renamed <-- tryM (sf_Rename tmp final) ;;
    match renamed with
    | Ok _ =>
        info <-- sf_Stat final ;;
        mret (mkStored key (fi_Size info) (string_of_list_byte (hexEncode (sha256 data))) (fi_ModTime info))
    | _ => discard tmp "commit sftp object"
    end.

Definition Put (b : SftpBackend) (key : string) (r : list read_result) (size : Z) : M S StoredInfo :=
  final <-- mlift (sftpPath b key) ;;
  found <-- tryM (sf_Stat final) ;;
  match found with
  | Ok _ => merr alreadyStored
  | Err e =>
      if negb (String.eqb e notExist) then merr e
      else
        _ <-- sf_MkdirAll (pathDir final) ;;
        let tmp := tmpPath final in
        _ <-- sf_Create tmp ;;
        copied <-- tryM (copyWithContext tmp r) ;;
        closed <-- tryM (sf_Close tmp) ;;
        match copied, closed with
        | Ok data, Ok _ => commit key final tmp data size
        | Ok _, _ => discard tmp "close sftp temp object"
        | Err e, _ => discard tmp e
        | _, _ => mfuel
        end
  | _ => mfuel
  end.

(** A missing file is an error of its own. *)
Definition orMissing {A} (m : M S A) : M S A := fun s =>
  match m s with (Err e, s') => (Err (if String.eqb e notExist then notFound else e), s') | r => r end.

Definition sftpInfo (key : string) (info : FileInfo) : StoredInfo := mkStored key (fi_Size info) "" (fi_ModTime info).

Definition Get (b : SftpBackend) (key : string) : M S (list read_result * StoredInfo) :=
  p <-- mlift (sftpPath b key) ;;
  file <-- orMissing (sf_Read p) ;;
  mret (file.1, sftpInfo key file.2).

(** Seek past [n] bytes of what the file delivers. *)
Fixpoint seekReader (n : Z) (r : list read_result) : list read_result :=
  if n <=? 0 then r
  else match r with
       | [] => []
       | x :: rest =>
           if zlen (result_bytes x) <? n then seekReader (n - zlen (result_bytes x)) rest
           else with_bytes x (drop (Z.to_nat n) (result_bytes x)) :: rest
       end.

Definition GetRange (b : SftpBackend) (key : string) (off len : Z) : M S (list read_result) :=
  if (off <? 0) || (len <? 0) then merr "invalid range"
  else
    p <-- mlift (sftpPath b key) ;;
    file <-- orMissing (sf_Read p) ;;
    mret (S3.limitReader len (seekReader off file.1)).

Definition Head (b : SftpBackend) (key : string) : M S StoredInfo :=
  p <-- mlift (sftpPath b key) ;;
  info <-- orMissing (sf_Stat p) ;;
  mret (sftpInfo key info).

Definition Exists (b : SftpBackend) (key : string) : M S bool := fun s =>
  match Head b key s with
  | (Ok _, s') => (Ok true, s')
  | (Err e, s') => if String.eqb e notFound then (Ok false, s') else (Err e, s')
  | (Panic e, s') => (Panic e, s')
  | (Fuel, s') => (Fuel, s')
  end.

Definition Delete (b : SftpBackend) (key : string) : M S unit :=
  p <-- mlift (sftpPath b key) ;;
  removed <-- tryM (sf_Remove p) ;;
  match removed with
  | Err e => if String.eqb e notExist then mret tt else merr e
  | r => mlift r
  end.

(** The entries of a walk that are listed. *)
Fixpoint listed (b : SftpBackend) (prefix token : string) (entries : list (outcome walkEntry)) : outcome (list StoredInfo) :=
  match entries with
  | [] => Ok []
  | entry :: rest =>
      e <~ entry ;;
      match we_Info e with
      | None => listed b prefix token rest
      | Some info =>
          if we_IsDir e then listed b prefix token rest
          else
            let key := TrimPrefix (TrimPrefix (we_Path e) (trimRightByte "/" (sb_root b) ++ "/")) "/" in
            let name := pathBase key in
            if HasSuffix name ".tmp" || HasSuffix name ".lock" then listed b prefix token rest
            else if negb (HasPrefix key prefix) || (negb (String.eqb token "") && negb (String.ltb token key)) then listed b prefix token rest
            else objects <~ listed b prefix token rest ;; Ok (sftpInfo key info :: objects)
      end
  end.

Definition List (b : SftpBackend) (prefix token : string) : M S StoredPage :=
  entries <-- sf_Walk (sb_root b) ;;
  objects <-- mlift (listed b prefix token entries) ;;
  let objects := sort_by byKey objects in
  if (length objects <=? defaultPageSize)%nat then mret (mkPage objects EmptyString)
  else match objects !! (defaultPageSize - 1)%nat with
       | Some o => mret (mkPage (take defaultPageSize objects) (si_Key o))
       | None => mpanic "index out of range"
       end.
End client.

(** ** The SFTP client is atomic

    The promises of a server on its files, [SftpLaws], and what Sftp.Put does
    to the files on every server that keeps them; a server in memory that keeps
    them, with operations that are lost or answered by nobody, and runs of the
    client against it. *)

(** ** What a server promises

    [filesOf]: the files of a server. An operation that fails may have taken
    effect; a name is not given to two files, and a rename does not replace a
    file (SSH_FXP_RENAME of version 3 of the protocol). *)

Class SftpLaws (S : Type) {SC : SftpClient S} := {
  filesOf : S -> gmap string bytes;
  law_Stat p s r s' : sf_Stat p s = (r, s') -> filesOf s' = filesOf s /\ returns r /\ (r = Err notExist -> filesOf s !! p = None);
  law_MkdirAll p s r s' : sf_MkdirAll p s = (r, s') -> filesOf s' = filesOf s /\ returns r;
  law_Create p s r s' : sf_Create p s = (r, s') -> returns r /\
    (filesOf s' = filesOf s /\ r <> Ok tt \/ filesOf s !! p = None /\ filesOf s' = <[p := []]> (filesOf s));
  law_Write p bs old s r s' : filesOf s !! p = Some old -> sf_Write p bs s = (r, s') -> returns r /\
    exists x, filesOf s' = <[p := x]> (filesOf s) /\ (r = Ok tt -> x = old ++ bs);
  law_Close p s r s' : sf_Close p s = (r, s') -> filesOf s' = filesOf s /\ returns r;
  law_Remove p s r s' : sf_Remove p s = (r, s') -> returns r /\ (filesOf s' = filesOf s \/ filesOf s' = delete p (filesOf s));
  law_Rename p q s r s' : sf_Rename p q s = (r, s') -> returns r /\
    (filesOf s' = filesOf s /\ r <> Ok tt \/
     exists data, filesOf s !! p = Some data /\ filesOf s !! q = None /\ filesOf s' = <[q := data]> (delete p (filesOf s)))
}.

Section proofs.
Context {S : Type} {SC : SftpClient S} {SL : SftpLaws S} (sha256 : bytes -> bytes) (randomSuffix : string).
Implicit Types (s : S) (f : gmap string bytes).

Lemma tryM_inv {A} (m : M S A) s (r : outcome A) s' : m s = (r, s') -> returns r -> tryM m s = (Ok r, s').
Proof. unfold tryM. intros ->. now destruct r. Qed.

(** The copy writes the temporary file and nothing else. *)
Lemma copy_exact f tmp fuel : forall written r s res s', (stream_size r < fuel)%nat -> filesOf s = <[tmp := written]> f ->
  copy_loop fuel tmp written r s = (res, s') ->
  returns res /\ (exists x, filesOf s' = <[tmp := x]> f) /\
  forall data, res = Ok data -> ended r = None /\ data = written ++ delivered r /\ filesOf s' = <[tmp := data]> f.
Proof.
  induction fuel as [|fuel IH]; intros written r s res s' Hl Hf; [lia|]. cbn [copy_loop].
  pose proof (delivered_read copyBuffer r ltac:(unfold copyBuffer; lia)) as Hr. destruct (read copyBuffer r) as [x rest] eqn:E. cbn [fst snd] in Hr.
  pose proof (read_ended _ _ _ _ E) as Hx. unfold mbind at 1.
  destruct ((match result_bytes x with [] => mret tt | bs => sf_Write tmp bs end) s) as [r1 s1] eqn:E1.
  assert (W : returns r1 /\ exists y, filesOf s1 = <[tmp := y]> f /\ (r1 = Ok tt -> y = written ++ result_bytes x)).
  { destruct (result_bytes x) as [|c bs] eqn:Eb.
    - injection E1 as <- <-. split; [done|]. exists written. now rewrite app_nil_r.
    - assert (Hw : filesOf s !! tmp = Some written) by (rewrite Hf; apply lookup_insert_eq).
      destruct (law_Write _ _ _ _ _ _ Hw E1) as (? & y & Hy & ?). split; [done|]. exists y. rewrite Hy, Hf, insert_insert_eq. done. }
  destruct W as (R1 & y & Hy & Wy). destruct r1 as [[]|e|e|]; [|intros [= <- <-]; split; [done|]; split; [eauto|discriminate]|destruct R1..].
  rewrite (Wy eq_refl) in Hy. clear Wy. rewrite Hr. destruct x as [bs|bs|bs e]; cbn [result_bytes] in *; rewrite ?app_nil_r.
  - intros H. destruct (read_shrinks copyBuffer _ _ _ ltac:(unfold copyBuffer; lia) E) as [Hs He].
    assert (Hl' : (stream_size rest < fuel)%nat) by lia.
    destruct (IH _ _ _ _ _ Hl' Hy H) as (H1 & H2 & H3). split; [done|]. split; [done|]. intros data Hd.
    destruct (H3 data Hd) as (? & -> & ?). split; [congruence|]. now rewrite app_assoc.
  - intros [= <- <-]. split; [done|]. split; [eauto|]. now intros data [= <-].
  - intros [= <- <-]. split; [done|]. split; [eauto|]. discriminate.
Qed.

(** At most the temporary file is left behind. *)
Definition leaves tmp f s : Prop := filesOf s = f \/ f !! tmp = None /\ exists x, filesOf s = <[tmp := x]> f.

Lemma discard_leaves {A} tmp e f s res s' x : f !! tmp = None -> filesOf s = <[tmp := x]> f ->
  discard (A := A) tmp e s = (res, s') -> res = Err e /\ leaves tmp f s'.
Proof.
  intros Hn Hf. unfold discard, mbind at 1. destruct (sf_Remove tmp s) as [r1 s1] eqn:E1. destruct (law_Remove _ _ _ _ E1) as [R H].
  rewrite (tryM_inv _ _ _ _ E1 R). intros [= <- <-]. split; [done|]. unfold leaves. destruct H as [H|H]; rewrite H, Hf.
  - right. eauto.
  - left. now rewrite delete_insert_id.
Qed.

Definition putData (r : list read_result) (size : Z) (data : bytes) : Prop :=
  ended r = None /\ data = delivered r /\ (0 <= size -> zlen data = size).

(** What a Put leaves: at most its temporary file, or the object. *)
Definition putLeaves final tmp (r : list read_result) (size : Z) f s : Prop :=
  leaves tmp f s \/ f !! final = None /\ exists data, putData r size data /\ filesOf s = <[final := data]> f.

Lemma commit_exact key final tmp r size data f s res s' :
  f !! tmp = None -> f !! final = None -> filesOf s = <[tmp := data]> f -> ended r = None -> data = delivered r ->
  commit sha256 key final tmp data size s = (res, s') ->
  returns res /\ putLeaves final tmp r size f s' /\
  forall info, res = Ok info -> putData r size data /\ filesOf s' = <[final := data]> f /\
    si_Key info = key /\ si_ETag info = string_of_list_byte (hexEncode (sha256 data)).
Proof.
  intros Hn Hfn Hf He Hd. unfold commit. destruct ((0 <=? size) && negb (zlen data =? size)) eqn:Es.
  - intros H. destruct (discard_leaves _ _ _ _ _ _ _ Hn Hf H) as [-> ?]. split; [done|]. split; [now left|discriminate].
  - assert (Hp : putData r size data).
    { split; [done|]. split; [done|]. intros Hz. apply andb_false_iff in Es as [Es|Es]; [lia|]. apply negb_false_iff in Es. lia. }
    unfold mbind at 1. destruct (sf_Rename tmp final s) as [r1 s1] eqn:E1. destruct (law_Rename _ _ _ _ _ E1) as [R H].
    rewrite (tryM_inv _ _ _ _ E1 R). rewrite Hf in H.
    assert (Hcase : filesOf s1 = <[tmp := data]> f /\ r1 <> Ok tt \/ tmp <> final /\ filesOf s1 = <[final := data]> f).
    { destruct H as [[H Hne]|(d & H1 & H2 & H3)]; [now left|]. right. rewrite lookup_insert_eq in H1. injection H1 as <-.
      split; [intros ->; now rewrite lookup_insert_eq in H2|]. now rewrite H3, delete_insert_id. }
    clear H. assert (Hdis : forall res s', discard (A := StoredInfo) tmp "commit sftp object" s1 = (res, s') ->
        res = Err "commit sftp object"%string /\ putLeaves final tmp r size f s').
    { intros res1 s2 H. destruct Hcase as [[Hc _]|[Hne Hc]]; [destruct (discard_leaves _ _ _ _ _ _ _ Hn Hc H) as [? ?]; split; [done|now left]|].
      unfold discard, mbind at 1 in H. destruct (sf_Remove tmp s1) as [r2 s3] eqn:E2. destruct (law_Remove _ _ _ _ E2) as [R2 H2].
      rewrite (tryM_inv _ _ _ _ E2 R2) in H. injection H as <- <-. split; [done|]. right. split; [done|]. exists data. split; [done|].
      destruct H2 as [-> | ->]; rewrite Hc; [done|]. apply delete_id. now rewrite lookup_insert_ne. }
    destruct r1 as [[]|e|e|]; [|intros H; destruct (Hdis _ _ H) as [-> ?]; split; [done|]; split; [done|discriminate]|destruct R..].
    destruct Hcase as [[_ Hc]|[_ Hc]]; [done|]. unfold mbind at 1. destruct (sf_Stat final s1) as [r2 s2] eqn:E2.
    destruct (law_Stat _ _ _ _ E2) as (H2 & R2 & _). rewrite Hc in H2.
    destruct r2 as [i|e|e|]; [|..|destruct R2]; intros [= <- <-]; (split; [done|]; split; [right; eauto|]); [|discriminate..].
    intros info [= <-]. auto.
Qed.

(** C25: an object of SFTP is written at most once and whole: whatever fails,
    with or without effect, Put returns, and afterwards the files are those of
    before and at most a temporary one, or the path of the key, which had no
    file, has exactly the bytes of the reader and every other file is as it
    was; when Put succeeds it is the latter, with the hash of the bytes. (For
    one client at a time.) *)
Theorem sftp_put_exact b key r size s res s' final : sftpPath b key = Ok final ->
  Put sha256 randomSuffix b key r size s = (res, s') ->
  returns res /\ putLeaves final (tmpPath randomSuffix final) r size (filesOf s) s' /\
  forall info, res = Ok info -> exists data, putData r size data /\ filesOf s !! final = None /\
    filesOf s' = <[final := data]> (filesOf s) /\ si_Key info = key /\ si_ETag info = string_of_list_byte (hexEncode (sha256 data)).
Proof.
  intros Hp. unfold Put. unfold mbind at 1. unfold mlift. rewrite Hp. cbv beta iota. unfold mbind at 1.
  destruct (sf_Stat final s) as [r1 s1] eqn:E1. destruct (law_Stat _ _ _ _ E1) as (F1 & R1 & N1). rewrite (tryM_inv _ _ _ _ E1 R1).
  assert (Hleft : forall s2, filesOf s2 = filesOf s -> putLeaves final (tmpPath randomSuffix final) r size (filesOf s) s2) by (intros; left; now left).
  assert (Hno : forall e s2, filesOf s2 = filesOf s -> returns (Err (A := StoredInfo) e) /\ putLeaves final (tmpPath randomSuffix final) r size (filesOf s) s2 /\
    forall info, Err e = Ok info -> exists data, putData r size data /\ filesOf s !! final = None /\
    filesOf s2 = <[final := data]> (filesOf s) /\ si_Key info = key /\ si_ETag info = string_of_list_byte (hexEncode (sha256 data))).
  { intros e s2 H2. split; [done|]. split; [auto|discriminate]. }
  destruct r1 as [i|e|e|]; [intros [= <- <-]; now apply Hno| |destruct R1..].
  destruct (String.eqb_spec e notExist) as [->|]; cbn [negb]; [|intros [= <- <-]; now apply Hno].
  specialize (N1 eq_refl). unfold mbind at 1. destruct (sf_MkdirAll (pathDir final) s1) as [r2 s2] eqn:E2. destruct (law_MkdirAll _ _ _ _ E2) as (F2 & R2).
  destruct r2 as [[]|e|e|]; [|intros [= <- <-]; apply Hno; congruence|destruct R2..].
  cbv zeta. set (tmp := tmpPath randomSuffix final) in *. unfold mbind at 1. destruct (sf_Create tmp s2) as [r3 s3] eqn:E3.
  destruct (law_Create _ _ _ _ E3) as [R3 F3]. rewrite F2, F1 in F3.
  destruct r3 as [[]|e|e|]; [| |destruct R3..].
  2:{ intros [= <- <-]. split; [done|]. split; [|discriminate]. left. destruct F3 as [[F3 _]|[F3 F3']]; [now left|right; eauto]. }
  destruct F3 as [[_ F3]|[Ht F3]]; [done|]. unfold mbind at 1.
  destruct (copyWithContext tmp r s3) as [r4 s4] eqn:E4. unfold copyWithContext in E4.
  destruct (copy_exact _ _ _ _ _ _ _ _ (Nat.lt_add_pos_r 1 _ Nat.lt_0_1) F3 E4) as (R4 & (x & F4) & H4).
  fold (copyWithContext tmp r) in E4. rewrite (tryM_inv _ _ _ _ E4 R4). unfold mbind at 1.
  destruct (sf_Close tmp s4) as [r5 s5] eqn:E5. destruct (law_Close _ _ _ _ E5) as (F5 & R5). rewrite (tryM_inv _ _ _ _ E5 R5).
  rewrite F4 in F5.
  assert (Hdis : forall e, discard tmp e s5 = (res, s') -> returns res /\ putLeaves final tmp r size (filesOf s) s' /\ forall info, res = Ok info -> exists data, putData r size data /\ filesOf s !! final = None /\
    filesOf s' = <[final := data]> (filesOf s) /\ si_Key info = key /\ si_ETag info = string_of_list_byte (hexEncode (sha256 data))).
  { intros e H. destruct (discard_leaves _ _ _ _ _ _ _ Ht F5 H) as [-> ?]. split; [done|]. split; [now left|discriminate]. }
  destruct r4 as [data|e|e|]; [|apply Hdis|destruct R4..]. destruct (H4 data eq_refl) as (He & Hd & F4'). cbn [app] in Hd.
  assert (F5' : filesOf s5 = <[tmp := data]> (filesOf s)) by congruence.
  destruct r5 as [[]|e|e|]; [|apply Hdis|destruct R5..].
  intros H. destruct (commit_exact _ _ _ _ _ _ _ _ _ _ Ht N1 F5' He Hd H) as (R6 & L6 & H6). split; [done|]. split; [done|].
  intros info Hi. destruct (H6 info Hi) as (? & ? & ? & ?). eauto 7.
Qed.
End proofs.

(** ** A server

    Files in memory, and what becomes of the next operations: an operation is
    answered, it is lost, or it is applied and its answer is lost. *)

Inductive sftpFault : Type := OpLost | OpHidden.

Record ToySftp := mkToySftp { ts_files : gmap string bytes; ts_faults : list (option sftpFault) }.

Definition connectionLost : string := "connection lost".

(** An operation with its effect on the files, if it can be done. *)
Definition toyOp {A} (apply : gmap string bytes -> outcome (A * gmap string bytes)) : M ToySftp A := fun s =>
  let faults := tl (ts_faults s) in
  match apply (ts_files s), hd None (ts_faults s) with
  | Ok (_, _), Some OpLost => (Err connectionLost, mkToySftp (ts_files s) faults)
  | Ok (_, f), Some OpHidden => (Err connectionLost, mkToySftp f faults)
  | Ok (a, f), None => (Ok a, mkToySftp f faults)
  | Err e, _ => (Err e, mkToySftp (ts_files s) faults)
  | _, _ => (Err connectionLost, mkToySftp (ts_files s) faults)
  end.

Definition existing {A} (f : gmap string bytes) (p : string) (k : bytes -> A) : outcome A :=
  match f !! p with Some data => Ok (k data) | None => Err notExist end.

#[export] Instance toySftp : SftpClient ToySftp := {
  sf_Stat p := toyOp (fun f => existing f p (fun data => (mkFileInfo (zlen data) 0, f)));
  sf_MkdirAll p := toyOp (fun f => Ok (tt, f));
  sf_Create p := toyOp (fun f => match f !! p with Some _ => Err "file exists"%string | None => Ok (tt, <[p := []]> f) end);
  sf_Write p bs := toyOp (fun f => existing f p (fun data => (tt, <[p := data ++ bs]> f)));
  sf_Close p := toyOp (fun f => Ok (tt, f));
  sf_Remove p := toyOp (fun f => existing f p (fun _ => (tt, delete p f)));
  sf_Rename p q := toyOp (fun f => match f !! q with Some _ => Err "file exists"%string | None => existing f p (fun data => (tt, <[q := data]> (delete p f))) end);
  sf_Read p := toyOp (fun f => existing f p (fun data => (bytesReader data, mkFileInfo (zlen data) 0, f)));
  sf_Walk root := toyOp (fun f => Ok (map (fun e => Ok (mkEntry e.1 (Some (mkFileInfo (zlen e.2) 0)) false)) (filter (fun e => Is_true (HasPrefix e.1 (root ++ "/"))) (map_to_list f)), f))
}.

(** An operation fails without effect, or it takes effect. *)
Lemma toyOp_inv {A} (apply : gmap string bytes -> outcome (A * gmap string bytes)) s r s' : toyOp apply s = (r, s') ->
  (exists e, r = Err e /\ ts_files s' = ts_files s /\ (e = connectionLost \/ apply (ts_files s) = Err e)) \/
  exists a, apply (ts_files s) = Ok (a, ts_files s') /\ (r = Ok a \/ r = Err connectionLost).
Proof.
  unfold toyOp. destruct (apply (ts_files s)) as [[a f]|e|e|]; [destruct (hd None (ts_faults s)) as [[]|]|..];
    intros [= <- <-]; cbn [ts_files]; eauto 8.
Qed.

Ltac toy_op := intros; match goal with H : _ = (_, _) |- _ => cbn [sf_Stat sf_MkdirAll sf_Create sf_Write sf_Close sf_Remove sf_Rename toySftp] in H; apply toyOp_inv in H as [(e & -> & Hf & He)|(a & Ha & Hr)] end.
Ltac toy_cases := repeat case_match; simplify_eq/=; repeat split; try done; try congruence; eauto 7.

#[export] Program Instance toySftpLaws : SftpLaws ToySftp := {| filesOf := ts_files |}.
Next Obligation.
  toy_op; [|unfold existing in Ha; destruct Hr as [-> | ->]; toy_cases]. split; [done|]. split; [done|].
  intros [= ->]. destruct He as [He|He]; [discriminate He|]. unfold existing in He. toy_cases.
Qed.
Next Obligation. toy_op; [done|]. destruct Hr as [-> | ->]; toy_cases. Qed.
Next Obligation. toy_op; [toy_cases; left; toy_cases|]. destruct Hr as [-> | ->]; toy_cases; right; toy_cases. Qed.
Next Obligation.
  toy_op.
  - split; [done|]. exists old. rewrite Hf, insert_id by done. done.
  - unfold existing in Ha. rewrite H in Ha. injection Ha as <- <-. split; [now destruct Hr as [-> | ->]|]. eauto.
Qed.
Next Obligation. toy_op; [done|]. destruct Hr as [-> | ->]; toy_cases. Qed.
Next Obligation. toy_op; [split; [done|now left]|]. unfold existing in Ha. destruct Hr as [-> | ->]; toy_cases. Qed.
Next Obligation.
  toy_op; [split; [done|now left]|]. unfold existing in Ha. destruct (ts_files s !! q) eqn:Eq; [discriminate|].
  destruct (ts_files s !! p) as [data|] eqn:Ep; [|discriminate]. injection Ha as <- Hd. split; [now destruct Hr as [-> | ->]|]. right. eauto.
Qed.

Definition toySftpBackend : SftpBackend := mkSftp "sftp" "/backups".
Definition toyReader : list read_result := [RData [Byte.x01]; REOF [Byte.x02; Byte.x03]].

Definition toySftpPut (faults : list (option sftpFault)) : outcome StoredInfo * ToySftp :=
  Put (fun x => x) "5e" toySftpBackend "data/a" toyReader 3 (mkToySftp ∅ faults).

(** What is left when an operation is lost or its answer is: the fifth write,
    the rename, and the rename with the removal after it. *)
Example sftp_runs :
  (let '(r, s) := toySftpPut [] in is_ok r = true /\ map_to_list (ts_files s) = [("/backups/data/a"%string, [Byte.x01; Byte.x02; Byte.x03])]) /\
  (let '(r, s) := toySftpPut [None; None; None; None; Some OpLost] in r = Err connectionLost /\ map_to_list (ts_files s) = []) /\
  (let '(r, s) := toySftpPut [None; None; None; None; None; None; Some OpHidden] in
     r = Err "commit sftp object"%string /\ map_to_list (ts_files s) = [("/backups/data/a"%string, [Byte.x01; Byte.x02; Byte.x03])]) /\
  (let '(r, s) := toySftpPut [None; None; None; None; None; None; Some OpLost; Some OpLost] in
     r = Err "commit sftp object"%string /\ map_to_list (ts_files s) = [("/backups/data/.a.5e.tmp"%string, [Byte.x01; Byte.x02; Byte.x03])]).
Proof. vm_compute. repeat split. Qed.

(** A rename whose answer is lost. *)
Lemma sftp_put_exact_witness :
  let '(r, s) := toySftpPut [None; None; None; None; None; None; Some OpHidden] in
  returns r /\ putLeaves "/backups/data/a" (tmpPath "5e" "/backups/data/a") toyReader 3 ∅ s.
Proof.
  destruct (toySftpPut [None; None; None; None; None; None; Some OpHidden]) as [r s] eqn:E.
  destruct (sftp_put_exact (fun x => x) "5e" toySftpBackend "data/a" toyReader 3 _ _ _ "/backups/data/a" ltac:(reflexivity) E) as (H1 & H2 & _).
  exact (conj H1 H2).
Defined.

Definition twoFiles : ToySftp := mkToySftp {["/backups/data/a"%string := [Byte.x01]; "/backups/data/.a.5e.tmp"%string := [Byte.x02]; "/backups/b"%string := [Byte.x03; Byte.x04]]} [].

(** The listing leaves the temporary files out; a range is what it says; a
    missing object is deleted without an error. *)
Example sftp_reads :
  (match (List toySftpBackend "" "" twoFiles).1 with Ok p => map si_Key (sp_Objects p) = ["b"; "data/a"]%string | _ => False end) /\
  (match (GetRange toySftpBackend "b" 1 1 twoFiles).1 with Ok r => readAll r = Ok [Byte.x04] | _ => False end) /\
  (Get toySftpBackend "c" twoFiles).1 = Err notFound /\ (Delete toySftpBackend "c" twoFiles).1 = Ok tt /\ (Exists toySftpBackend "c" twoFiles).1 = Ok false.
Proof. vm_compute. repeat split. Qed.
