(* ===== verification/AgentClient.v ===== *)
(** * How an agent reaches the server and opens its storages

    Models src/internal/agent/client.go, the client of the API of the server,
    and of src/internal/agent/executor.go what turns the records the server
    lists into targets and backends: options and their secret references, the
    settings of each kind of storage, OpenStorageBackend and SyncResources,
    and what the hooks of a job are told. A backend is made by the New of its
    client. JSON, url.Parse and the formatting of values are parameters.

    The class [ControlPlane] is what the worker of an agent needs of the
    server; a client over HTTP is an instance.

    The theorems show which records an agent cannot open although the server
    accepts them, and that one of them is enough for the agent to open none. *)

From Stdlib Require Import Ascii String.
From S2P Require Import Prelude ChunkHash Core Calendar GoStrings GoText FastCDC SecretOptions Documents Tokens Resources RateLimit Jobs JobApi Secrets Engine Executor LocalFiles Http S3Sign S3 S3Credentials Gcs Azure Sftp.
Local Open Scope Z_scope.
#[local] Arguments String.append !_ _ / : simpl nomatch.

(** ** The server, as an agent sees it

    The identifier is that of the agent, sent with every request. *)

Class ControlPlane (W : Type) := {
  cpHeartbeat : AgentHeartbeat -> M W AgentSnapshot;
  cpListTargets : string -> M W (list Target);
  cpListStorages : string -> M W (list Storage);
  cpListBackups : string -> M W (list Backup);
  cpClaim : string -> M W (option Job);
  cpFinish : string -> string -> string -> string -> JobResult -> M W Job   (* agent, job, status, message *)
}.

(** ** The client *)

Record Client := mkClient { cl_baseURL : Http.URL; cl_Token : string }.

Section client.
Context {W : Type} {HS : HttpServer W} (parseURL : string -> option Http.URL) (Getenv : string -> string) (requestID : string).

Definition NewClient (serverAddr : string) : outcome Client :=
  let serverAddr := if Contains serverAddr "://" then serverAddr else ("http://" ++ serverAddr)%string in
  match parseURL serverAddr with
  | None => Err "parse server address"
  | Some parsed =>
      if String.eqb (u_Scheme parsed) "" || String.eqb (u_Host parsed) "" then Err "invalid server address"
      else Ok (mkClient (Http.mkURL (u_Scheme parsed) (u_Host parsed) (trimRightByte "/" (u_Path parsed)) "") (TrimSpace (Getenv "KRONOS_TOKEN")))
  end.

(** The path of a request is written into the URL as it is, so that it is
    escaped when the URL is. *)
Definition endpoint (c : Client) (path : string) : Http.URL :=
  let '(apiPath, rawQuery, _) := Cut "?" path in
  Http.mkURL (u_Scheme (cl_baseURL c)) (u_Host (cl_baseURL c)) (trimRightByte "/" (u_Path (cl_baseURL c)) ++ apiPath) rawQuery.

Definition setIf (name value : string) (req : Http.Request) : Http.Request := if String.eqb value "" then req else withHeader req name value.

Definition newRequest (c : Client) (agentID method path : string) (body : bytes) : Http.Request :=
  let token := TrimSpace (cl_Token c) in
  let req := NewRequest method (endpoint c path) body in
  let req := if String.eqb token "" then req else withHeader req "Authorization" ("Bearer " ++ token) in
  withHeader (setIf "X-Kronos-Agent-ID" (TrimSpace agentID) req) "X-Kronos-Request-ID" requestID.

(** The error of an answer carries its path. *)
Definition do {A} (req : Http.Request) (path : string) (decode : list read_result -> option A) : M W A :=
  resp <-- serve req ;;
  if (rs_StatusCode resp <? 200) || (300 <=? rs_StatusCode resp) then merr ("control-plane request " ++ path ++ " failed")
  else match decode (rs_Body resp) with Some a => mret a | None => merr "decode response" end.

Definition getJSON {A} (c : Client) (agentID path : string) (decode : list read_result -> option A) : M W A :=
  do (newRequest c agentID "GET" path []) path decode.

Definition postJSON {A} (c : Client) (agentID path : string) (payload : option bytes) (decode : list read_result -> option A) : M W A :=
  match payload with
  | None => merr "encode request"
  | Some body => do (withHeader (newRequest c agentID "POST" path body) "Content-Type" "application/json") path decode
  end.

Context (encodeHeartbeat : AgentHeartbeat -> option bytes) (encodeFinish : finishJobRequest -> option bytes).
Context (decodeSnapshot : list read_result -> option AgentSnapshot) (decodeTargets : list read_result -> option (list Target))
        (decodeStorages : list read_result -> option (list Storage)) (decodeBackups : list read_result -> option (list Backup))
        (decodeTarget : list read_result -> option Target) (decodeStorage : list read_result -> option Storage) (decodeBackup : list read_result -> option Backup)
        (decodeClaim : list read_result -> option (option Job)) (decodeJob : list read_result -> option Job).

Definition Heartbeat (c : Client) (heartbeat : AgentHeartbeat) : M W AgentSnapshot :=
  postJSON c "" "/api/v1/agents/heartbeat" (encodeHeartbeat heartbeat) decodeSnapshot.

Definition Claim (c : Client) (agentID : string) : M W (option Job) := postJSON c agentID "/api/v1/jobs/claim" (Some []) decodeClaim.

Definition finishRequest (status message : string) (result : JobResult) : finishJobRequest :=
  mkFinish status message (jr_Backup result) (jr_Failure result) (jr_Restore result) (jr_Verification result).

Definition Finish (c : Client) (agentID id status message : string) (result : JobResult) : M W Job :=
  postJSON c agentID ("/api/v1/jobs/" ++ PathEscape id ++ "/finish") (encodeFinish (finishRequest status message result)) decodeJob.

Definition ListTargets (c : Client) (agentID : string) : M W (list Target) := getJSON c agentID "/api/v1/targets?include_secrets=true" decodeTargets.
Definition ListStorages (c : Client) (agentID : string) : M W (list Storage) := getJSON c agentID "/api/v1/storages?include_secrets=true" decodeStorages.
Definition ListBackups (c : Client) (agentID : string) : M W (list Backup) := getJSON c agentID "/api/v1/backups" decodeBackups.

Definition GetTarget (c : Client) (agentID id : string) : M W Target :=
  getJSON c agentID ("/api/v1/targets/" ++ PathEscape id ++ "?include_secrets=true") decodeTarget.
Definition GetStorage (c : Client) (agentID id : string) : M W Storage :=
  getJSON c agentID ("/api/v1/storages/" ++ PathEscape id ++ "?include_secrets=true") decodeStorage.
Definition GetBackup (c : Client) (agentID id : string) : M W Backup := getJSON c agentID ("/api/v1/backups/" ++ PathEscape id) decodeBackup.

Definition clientPlane (c : Client) : ControlPlane W := {|
  cpHeartbeat := Heartbeat c; cpListTargets := ListTargets c; cpListStorages := ListStorages c; cpListBackups := ListBackups c;
  cpClaim := Claim c; cpFinish := Finish c |}.
End client.

(** Every request of a client with a token carries it, and the identifier of
    the agent. *)
Lemma client_headers c requestID agentID method path body : let req := newRequest requestID c agentID method path body in
  HeaderGet (rq_Header req) "X-Kronos-Request-ID" = requestID /\
  (TrimSpace (cl_Token c) <> EmptyString -> HeaderGet (rq_Header req) "Authorization" = ("Bearer " ++ TrimSpace (cl_Token c))%string) /\
  (TrimSpace agentID <> EmptyString -> HeaderGet (rq_Header req) "X-Kronos-Agent-ID" = TrimSpace agentID).
Proof.
  cbv zeta. unfold newRequest, withHeader. cbn [rq_Header]. split; [apply HeaderGet_Set|]. split.
  - intros H. rewrite HeaderGet_Set_ne by discriminate. unfold setIf. rewrite (proj2 (String.eqb_neq _ _) H).
    destruct (String.eqb (TrimSpace agentID) ""); unfold withHeader; cbn [rq_Header]; rewrite ?(HeaderGet_Set_ne _ "X-Kronos-Agent-ID") by discriminate; apply HeaderGet_Set.
  - intros H. rewrite HeaderGet_Set_ne by discriminate. unfold setIf. rewrite (proj2 (String.eqb_neq _ _) H). unfold withHeader. cbn [rq_Header]. apply HeaderGet_Set.
Qed.

(** The identifier of a target of the configuration has a slash: it is
    escaped, and its escape is escaped with the URL. *)
Example escaped_twice : let c := mkClient (Http.mkURL "http" "127.0.0.1:8500" "" "") "" in
  u_Path (endpoint c ("/api/v1/targets/" ++ PathEscape "p/cache" ++ "?include_secrets=true")) = "/api/v1/targets/p%2Fcache"%string /\
  EscapedPath (endpoint c ("/api/v1/targets/" ++ PathEscape "p/cache" ++ "?include_secrets=true")) = "/api/v1/targets/p%252Fcache"%string.
Proof. vm_compute. split; reflexivity. Qed.

(** ** Options *)

(** What url.Parse finds in the URI of a storage. *)
Record storageURL := mkStorageURL
  { su_Scheme : string; su_Host : string; su_Path : string; su_Opaque : string; su_Username : string; su_Password : option string; su_User : bool }.

(** The backends of an agent. *)
Inductive agentBackend {H : Type} : Type :=
  | OnDisk (name root : string)
  | OnS3 (b : @S3Backend H) (creds : Credentials)
  | OnSftp (b : SftpBackend)
  | OnAzure (b : AzureBackend)
  | OnGcs (b : GcsBackend).
Arguments agentBackend H : clear implicits.

(** What an agent has taken from the server. *)
Record agentResources {H : Type} := mkResources
  { rs_Targets : gmap string DTarget; rs_Backends : gmap string (agentBackend H); rs_Backups : gmap string Backup }.
Arguments agentResources H : clear implicits.
Arguments mkResources {H} rs_Targets rs_Backends rs_Backups.

(** What it works with: the server, and the storages it reaches. *)
Record agentWorld {H W : Type} := mkAgent { aw_server : W; aw_host : H; aw_resources : agentResources H }.
Arguments agentWorld H W : clear implicits.
Arguments mkAgent {H W} aw_server aw_host aw_resources.

Definition onServer {H W A} (m : M W A) : M (agentWorld H W) A := fun a => let '(r, w) := m (aw_server a) in (r, mkAgent w (aw_host a) (aw_resources a)).
Definition onHost {H W A} (m : M H A) : M (agentWorld H W) A := fun a => let '(r, h) := m (aw_host a) in (r, mkAgent (aw_server a) h (aw_resources a)).
Definition setResources {H W} (f : agentResources H -> agentResources H) : M (agentWorld H W) unit :=
  fun a => (Ok tt, mkAgent (aw_server a) (aw_host a) (f (aw_resources a))).

Section resources.
Context (sprint : optval -> string) (ParseBool : string -> option bool).

(** The first key that is there decides, also when its value is empty. *)
Fixpoint optionString (opts : options) (keys : list string) : string :=
  match keys with
  | [] => EmptyString
  | key :: rest =>
      match opts !! key with
      | None | Some ONull => optionString opts rest
      | Some (OString s) => s
      | Some v => sprint v
      end
  end.

Definition optionBool (opts : options) (keys : list string) : bool :=
  let value := TrimSpace (ToLower (optionString opts keys)) in
  if String.eqb value "" then false else default false (ParseBool value).

(** The JSON of credentials, by the names of its fields. *)
Context (parseCredentials : string -> option (gmap string string)).

Fixpoint firstNonEmpty (values : list string) : string :=
  match values with
  | [] => EmptyString
  | v :: rest => if String.eqb v "" then firstNonEmpty rest else v
  end.

Definition parseS3Credentials (value : string) : outcome Credentials :=
  match parseCredentials value with
  | None => Err "parse s3 credentials: expected env, aws, imds, or JSON object"
  | Some raw =>
      let get name := default EmptyString (raw !! name) in
      let creds := mkCreds (firstNonEmpty [get "access_key"; get "access_key_id"; get "aws_access_key_id"]%string)
                           (firstNonEmpty [get "secret_key"; get "secret_access_key"; get "aws_secret_access_key"]%string)
                           (firstNonEmpty [get "session_token"; get "aws_session_token"; get "token"]%string) 0 in
      if String.eqb (cd_AccessKey creds) "" || String.eqb (cd_SecretKey creds) "" then Err "s3 credentials JSON requires access_key and secret_key" else Ok creds
  end.

(** ** The settings of each kind of storage *)

Context (parseURI : string -> option storageURL).

Definition localStorageRoot (raw : string) : outcome string :=
  if String.eqb (TrimSpace raw) "" then Err "local storage uri is required"
  else
    match parseURI raw with
    | None => Err "parse local storage uri"
    | Some u =>
        if String.eqb (su_Scheme u) "" then Ok raw
        else if negb (String.eqb (su_Scheme u) "file") then Err "local storage uri must use file scheme"
        else if negb (String.eqb (su_Path u) "") then Ok (su_Path u)
        else if negb (String.eqb (su_Host u) "") then Ok (su_Host u)
        else if negb (String.eqb (su_Opaque u) "") then Ok (su_Opaque u)
        else Err "local storage root is required"
    end.

Definition s3Bucket (raw : string) : outcome string :=
  match parseURI raw with
  | None => Err "parse s3 storage uri"
  | Some u =>
      if negb (String.eqb (su_Scheme u) "s3") then Err "s3 storage uri must use s3 scheme"
      else if negb (String.eqb (su_Host u) "") then Ok (su_Host u)
      else
        let bucket := TrimByte " " (hd EmptyString (SplitOn "/" (TrimPrefix (su_Path u) "/"))) in
        if String.eqb bucket "" then Err "s3 bucket is required" else Ok bucket
  end.

Section s3.
Context {H : Type} (envCredentials : M H Credentials) (imdsCredentials : string -> M H Credentials).

(** The zero values of a Config are replaced by its New. *)
Definition s3Settings (item : Storage) (bucket : string) (creds : Credentials) (provider : option (M H Credentials)) : S3.Config (S := H) :=
  S3.mkConfig (so_Name item) (optionString (so_Options item) ["endpoint"%string]) (optionString (so_Options item) ["region"%string]) bucket creds provider
    (optionBool (so_Options item) ["force_path_style"%string]) 0 0 (mkRetry 0 0 0).

Definition s3StorageConfig (item : Storage) : outcome (S3.Config (S := H)) :=
  bucket <~ s3Bucket (so_URI item) ;;
  let opts := so_Options item in
  let accessKey := optionString opts ["access_key"; "accessKey"; "aws_access_key_id"]%string in
  if negb (String.eqb accessKey "")
  then Ok (s3Settings item bucket (mkCreds accessKey (optionString opts ["secret_key"; "secretKey"; "aws_secret_access_key"]%string)
                                     (optionString opts ["session_token"; "sessionToken"; "aws_session_token"]%string) 0) None)
  else
    let credentials := TrimSpace (optionString opts ["credentials"; "credentials_provider"]%string) in
    if oneOf [""; "env"; "aws"; "aws_env"]%string (ToLower credentials) then Ok (s3Settings item bucket (mkCreds "" "" "" 0) (Some envCredentials))
    else if oneOf ["imds"; "instance_metadata"]%string (ToLower credentials)
    then Ok (s3Settings item bucket (mkCreds "" "" "" 0) (Some (imdsCredentials (optionString opts ["imds_endpoint"%string]))))
    else parsed <~ parseS3Credentials credentials ;; Ok (s3Settings item bucket parsed None).
End s3.

Definition sftpStorageConfig (item : Storage) : outcome SftpConfig :=
  match parseURI (so_URI item) with
  | None => Err "parse sftp storage uri"
  | Some u =>
      if negb (String.eqb (su_Scheme u) "sftp") then Err "sftp storage uri must use sftp scheme"
      else if String.eqb (su_Host u) "" then Err "sftp storage uri host is required"
      else
        let opt := optionString (so_Options item) in
        let username := opt ["username"; "user"]%string in
        let password := opt ["password"%string] in
        let username := if su_User u && String.eqb username "" then su_Username u else username in
        let password := match su_Password u with Some value => if su_User u && String.eqb password "" then value else password | None => password end in
        Ok (mkSftpConfig (so_Name item) (su_Host u) (su_Path u) username password (opt ["private_key"; "privateKey"]%string)
              (opt ["private_key_path"; "privateKeyPath"]%string) (opt ["passphrase"; "private_key_passphrase"; "privateKeyPassphrase"]%string)
              (opt ["agent_socket"; "ssh_agent_socket"]%string) (opt ["known_hosts"; "knownHosts"]%string)
              (optionBool (so_Options item) ["insecure_ignore_host_key"; "insecureIgnoreHostKey"]%string) 0)
  end.

Definition azureStorageConfig (item : Storage) : outcome AzureConfig :=
  match parseURI (so_URI item) with
  | None => Err "parse azure storage uri"
  | Some u =>
      if negb (oneOf ["azure"; "azblob"]%string (su_Scheme u)) then Err "azure storage uri must use azure or azblob scheme"
      else
        let opt := optionString (so_Options item) in
        let account := opt ["account_name"; "accountName"; "account"]%string in
        let container := opt ["container"%string] in
        let prefix := opt ["prefix"%string] in
        let parts := SplitOn "/" (TrimByte "/" (su_Path u)) in
        let first := hd EmptyString parts in
        let hosted := negb (String.eqb (su_Host u) "") in
        let account := if hosted && String.eqb account "" then su_Host u else account in
        let inPath := hosted && negb (String.eqb first "") in
        let container := if inPath && String.eqb container "" then first else container in
        let prefix := if inPath && String.eqb prefix "" && (1 <? length parts)%nat then Join (tl parts) "/" else prefix in
        Ok (mkAzureConfig (so_Name item) account (opt ["account_key"; "accountKey"]%string) container prefix (opt ["endpoint"%string])
              (opt ["sas_token"; "sasToken"; "sas"]%string))
  end.

Definition gcsStorageConfig (item : Storage) : outcome GcsConfig :=
  match parseURI (so_URI item) with
  | None => Err "parse gcs storage uri"
  | Some u =>
      if negb (oneOf ["gcs"; "gs"]%string (su_Scheme u)) then Err "gcs storage uri must use gcs or gs scheme"
      else
        let opt := optionString (so_Options item) in
        let bucket := opt ["bucket"%string] in
        let prefix := opt ["prefix"%string] in
        let hosted := negb (String.eqb (su_Host u) "") in
        let bucket := if hosted && String.eqb bucket "" then su_Host u else bucket in
        let prefix := if hosted && String.eqb prefix "" then TrimByte "/" (su_Path u) else prefix in
        Ok (mkGcsConfig (so_Name item) bucket prefix (opt ["endpoint"%string]) (opt ["bearer_token"; "bearerToken"; "access_token"; "accessToken"]%string)
              (opt ["api_key"; "apiKey"]%string))
  end.

(** ** Opening *)

Section open.
Context {H Signer : Type} (parseURL : string -> option Http.URL).
Context (envCredentials : M H Credentials) (imdsCredentials : string -> M H Credentials).
Context (makeRoot : string -> outcome string).   (* filepath.Abs and os.MkdirAll *)
Context (parsePrivateKey : string -> string -> option Signer) (ReadFile : string -> option string) (agentDial loadKnownHosts : string -> bool)
        (dial : string -> @sshConfig Signer -> outcome unit).

(** New of the local backend. *)
Definition newLocal (name root : string) : outcome (agentBackend H) :=
  if String.eqb root "" then Err "local storage root is required"
  else abs <~ makeRoot root ;; Ok (OnDisk (if String.eqb name "" then "local"%string else name) abs).

Definition OpenStorageBackend (item : Storage) : M H (agentBackend H) :=
  if String.eqb (so_Kind item) "local" then root <-- mlift (localStorageRoot (so_URI item)) ;; mlift (newLocal (so_Name item) root)
  else if String.eqb (so_Kind item) "s3" then
    cfg <-- mlift (s3StorageConfig envCredentials imdsCredentials item) ;;
    made <-- S3.New parseURL cfg ;; mret (OnS3 made.1 made.2)
  else if String.eqb (so_Kind item) "sftp" then
    cfg <-- mlift (sftpStorageConfig item) ;; b <-- mlift (Sftp.New parsePrivateKey ReadFile agentDial loadKnownHosts cfg dial) ;; mret (OnSftp b)
  else if String.eqb (so_Kind item) "azure" then
    cfg <-- mlift (azureStorageConfig item) ;; b <-- mlift (Azure.New parseURL cfg) ;; mret (OnAzure b)
  else if String.eqb (so_Kind item) "gcs" then
    cfg <-- mlift (gcsStorageConfig item) ;; b <-- mlift (Gcs.New parseURL cfg) ;; mret (OnGcs b)
  else merr "storage kind is not implemented in this build".

(** ** Records of the server *)

Definition connectionKeys : list string := ["host"; "port"; "username"; "password"; "tls"; "sslmode"; "dsn"]%string.

Definition setNonEmpty (key value : string) (m : gmap string string) : gmap string string := if String.eqb value "" then m else <[key := value]> m.

Definition targetConnection (t : Target) : gmap string string :=
  let out := setNonEmpty "database" (tg_Database t) (setNonEmpty "addr" (tg_Endpoint t) ∅) in
  let out := fold_left (fun out key => setNonEmpty key (optionString (tg_Options t) [key]) out) connectionKeys out in
  if String.eqb (default EmptyString (out !! "username"%string)) "" then setNonEmpty "username" (optionString (tg_Options t) ["user"%string]) out else out.

Definition stringOptions (opts : options) : gmap string string := sprint <$> opts.

Definition resolveOption (resolve : Reference -> outcome string) (value : optval) : outcome optval :=
  match value with
  | OString text =>
      match ParsePlaceholder (TrimSpace text) with
      | Ok (Some ref) => resolved <~ resolve ref ;; Ok (OString resolved)
      | Ok None => Ok value
      | Err e => Err e
      | Panic e => Panic e
      | Fuel => Fuel
      end
  | _ => Ok value
  end.

(** The order in which options are resolved decides only which error is
    returned. *)
Definition resolveResourceOptions (resolve : Reference -> outcome string) (opts : options) : outcome options :=
  eachOption (fun _ value => resolveOption resolve value) opts.

(** One of its targets as an agent uses it. *)
Definition agentTarget (resolve : Reference -> outcome string) (t : Target) : outcome (string * DTarget) :=
  opts <~ resolveResourceOptions resolve (tg_Options t) ;;
  let t := withOptions t opts in
  Ok (tg_ID t, mkDTarget (tg_Name t) (tg_Driver t) (targetConnection t) (stringOptions (tg_Options t))).

Fixpoint syncTargets (resolve : Reference -> outcome string) (targets : list Target) (out : gmap string DTarget) : outcome (gmap string DTarget) :=
  match targets with
  | [] => Ok out
  | t :: rest => made <~ agentTarget resolve t ;; syncTargets resolve rest (<[made.1 := made.2]> out)
  end.

Fixpoint syncStorages (resolve : Reference -> outcome string) (storages : list Storage) (out : gmap string (agentBackend H)) : M H (gmap string (agentBackend H)) :=
  match storages with
  | [] => mret out
  | item :: rest =>
      opts <-- mlift (resolveResourceOptions resolve (so_Options item)) ;;
      backend <-- OpenStorageBackend (withStorageOptions item opts) ;;
      syncStorages resolve rest (<[so_ID item := backend]> out)
  end.

Definition backupsByID (backups : list Backup) : gmap string Backup := fold_left (fun m b => <[bk_ID b := b]> m) backups ∅.

(** Each part is replaced once it is complete; the storages are opened anew
    and those of before are not closed. *)
Definition SyncResources {W} `{ControlPlane W} (resolve : Reference -> outcome string) (agentID : string) : M (agentWorld H W) unit :=
  targets <-- onServer (cpListTargets agentID) ;;
  targets <-- mlift (syncTargets resolve targets ∅) ;;
  _ <-- setResources (fun r => mkResources targets (rs_Backends r) (rs_Backups r)) ;;
  storages <-- onServer (cpListStorages agentID) ;;
  backends <-- onHost (syncStorages resolve storages ∅) ;;
  _ <-- setResources (fun r => mkResources (rs_Targets r) backends (rs_Backups r)) ;;
  backups <-- onServer (cpListBackups agentID) ;;
  setResources (fun r => mkResources (rs_Targets r) (rs_Backends r) (backupsByID backups)).
End open.
End resources.

(** ** Hooks *)

Section hooks.
Context {H : Type} {HS : HttpServer H} (parseURL : string -> option Http.URL).
Context (shell : list string -> string -> string * option string).   (* environment, command: output and error *)
Context (encodePayload : list (string * string) -> option bytes).

Definition hookEnv (job : Job) (hookName : string) (jobErr : option string) : list string :=
  ["KRONOS_HOOK=" ++ hookName; "KRONOS_JOB_ID=" ++ jb_ID job; "KRONOS_JOB_OPERATION=" ++ jb_Operation job; "KRONOS_TARGET_ID=" ++ jb_TargetID job;
   "KRONOS_STORAGE_ID=" ++ jb_StorageID job; "KRONOS_SCHEDULE_ID=" ++ jb_ScheduleID job]%string ++
  match jobErr with Some e => ["KRONOS_JOB_ERROR=" ++ e]%string | None => [] end.

Definition hookPayload (job : Job) (hookName : string) (jobErr : option string) : list (string * string) :=
  [("hook", hookName); ("job_id", jb_ID job); ("operation", jb_Operation job); ("target_id", jb_TargetID job); ("storage_id", jb_StorageID job);
   ("schedule_id", jb_ScheduleID job)]%string ++ match jobErr with Some e => [("error"%string, e)] | None => [] end.

Definition runShellHook (environ : list string) (job : Job) (hookName command : string) (jobErr : option string) : outcome unit :=
  let '(output, err) := shell (environ ++ hookEnv job hookName jobErr) command in
  match err with
  | None => Ok tt
  | Some e => let text := TrimSpace output in if String.eqb text "" then Err e else Err (e ++ ": " ++ text)
  end.

Definition runWebhookHook (job : Job) (hookName webhookURL : string) (jobErr : option string) : M H unit :=
  match encodePayload (hookPayload job hookName jobErr), parseURL webhookURL with
  | None, _ => merr "encode payload"
  | _, None => merr "parse webhook url"
  | Some payload, Some u =>
      resp <-- serve (withHeader (NewRequest "POST" u payload) "Content-Type" "application/json") ;;
      if (rs_StatusCode resp <? 200) || (300 <=? rs_StatusCode resp) then merr "webhook returned" else mret tt
  end.
End hooks.

(** ** Storages that no agent opens *)

Section proofs.
Context (sprint : optval -> string) (ParseBool : string -> option bool) (parseCredentials : string -> option (gmap string string)) (parseURI : string -> option storageURL).
Context {H Signer : Type} (parseURL : string -> option Http.URL) (envCredentials : M H Credentials) (imdsCredentials : string -> M H Credentials)
        (makeRoot : string -> outcome string) (parsePrivateKey : string -> string -> option Signer) (ReadFile : string -> option string)
        (agentDial loadKnownHosts : string -> bool) (dial : string -> @sshConfig Signer -> outcome unit).

Local Abbreviation openIt := (OpenStorageBackend sprint ParseBool parseCredentials parseURI parseURL envCredentials imdsCredentials makeRoot parsePrivateKey ReadFile agentDial loadKnownHosts dial).
Local Abbreviation syncAll := (syncStorages sprint ParseBool parseCredentials parseURI parseURL envCredentials imdsCredentials makeRoot parsePrivateKey ReadFile agentDial loadKnownHosts dial).

(** An S3 storage without a region is never opened. *)
Lemma region_required item (h : H) : so_Kind item = "s3"%string -> optionString sprint (so_Options item) ["region"%string] = EmptyString -> is_ok (openIt item h).1 = false.
Proof.
  intros Hk Hr. unfold OpenStorageBackend. rewrite Hk. cbn [String.eqb Ascii.eqb Bool.eqb].
  unfold mbind, mlift. destruct (s3StorageConfig _ _ _ _ _ _ item) as [cfg|?|?|] eqn:E; try done.
  assert (R : S3.cf_Region cfg = EmptyString).
  { unfold s3StorageConfig in E. apply obind_ok in E as (b & _ & E). repeat case_match; try done; try (injection E as <-; exact Hr).
    apply obind_ok in E as (c & _ & E). injection E as <-. exact Hr. }
  unfold S3.New. rewrite R. destruct (parseURL _) as [u|]; [|done]. destruct (_ || _); done.
Qed.

(** One storage that cannot be opened, or whose secrets cannot be resolved
    on the host of the agent, leaves the agent without any. *)
Lemma one_storage_fails_all resolve item storages out (h : H) : In item storages ->
  (forall opts h, resolveResourceOptions resolve (so_Options item) = Ok opts -> is_ok (openIt (withStorageOptions item opts) h).1 = false) ->
  is_ok (syncAll resolve storages out h).1 = false.
Proof.
  intros Hin Hf. revert out h. induction storages as [|so rest IH]; [done|]. intros out h. cbn [syncStorages]. unfold mbind at 1, mlift.
  destruct Hin as [->|Hin].
  - destruct (resolveResourceOptions resolve (so_Options item)) as [opts|?|?|] eqn:E; try done. specialize (Hf opts h eq_refl). unfold mbind.
    destruct (openIt (withStorageOptions item opts) h) as [[b|?|?|] h']; done.
  - destruct (resolveResourceOptions resolve (so_Options so)) as [opts|?|?|]; try done. unfold mbind.
    destruct (openIt (withStorageOptions so opts) h) as [[b|?|?|] h']; try done. now apply IH.
Qed.

(** A secret reference of a target that cannot be resolved on the host of an
    agent does so too, whichever agent the target is meant for. *)
Lemma one_target_fails_all resolve t targets out : In t targets -> is_ok (resolveResourceOptions resolve (tg_Options t)) = false ->
  is_ok (syncTargets sprint resolve targets out) = false.
Proof.
  intros Hin Hf. revert out. induction targets as [|t' rest IH]; [done|]. intros out. cbn [syncTargets]. unfold agentTarget. destruct Hin as [->|Hin].
  - destruct (resolveResourceOptions _ _); done.
  - destruct (resolveResourceOptions resolve (tg_Options t')); try done. now apply IH.
Qed.

(** The prefix of an S3 storage is ignored: two storages of one bucket that
    differ in it share their objects. *)
Lemma s3_prefix_ignored item prefix :
  s3StorageConfig sprint ParseBool parseCredentials parseURI envCredentials imdsCredentials (withStorageOptions item (<["prefix"%string := prefix]> (so_Options item))) =
  s3StorageConfig sprint ParseBool parseCredentials parseURI envCredentials imdsCredentials item.
Proof.
  assert (O : forall keys, ~ In "prefix"%string keys -> optionString sprint (<["prefix"%string := prefix]> (so_Options item)) keys = optionString sprint (so_Options item) keys).
  { induction keys as [|k keys IH]; [done|]. intros Hn. cbn [optionString]. rewrite lookup_insert_ne by (intros E; apply Hn; left; done).
    rewrite IH by (intros E; apply Hn; now right). done. }
  unfold s3StorageConfig, s3Settings, optionBool. cbn [so_Options so_URI so_Name withStorageOptions].
  rewrite !O by (cbn; intuition discriminate). done.
Qed.
End proofs.
