(* ===== verification/Worker.v ===== *)
(** * The worker of an agent

    Models src/internal/agent/worker.go over any server ([ControlPlane]) and
    any executor of jobs, and the server's own handlers as such a server, with
    its registry, its clock and the loop of src/cmd/kronos/server.go that
    ticks the scheduler every minute.

    A tick of a worker sends one heartbeat and then runs its jobs one after
    the other; the server takes an agent without a heartbeat for 30 seconds
    as lost and fails its jobs. The theorem shows what follows for every job
    that runs for 90 seconds or more. *)

From Stdlib Require Import String.
From S2P Require Import Prelude ChunkHash S3Sign S3 S3Credentials Sftp Core Calendar GoStrings GoText Cron Window Scheduler Documents Jobs SecretOptions Tokens Resources Auth RateLimit Runner JobApi Claims Secrets ResourceApi Engine Executor AgentClient.
Local Open Scope Z_scope.

(** ** The worker *)

Class JobExecutor (W : Type) := {
  executeJob : Job -> M W (JobResult * outcome unit);
  syncResources : option (M W unit)      (* when the executor is a ResourceSyncer *)
}.

Record Worker := mkWorker { wo_Heartbeat : AgentHeartbeat; wo_MaxJobsPerTick : Z }.

Section worker.
Context {W : Type} `{ControlPlane W} `{JobExecutor W}.

(** execute: the result of a job, and how it is reported. *)
Definition workerExecute (agentID : string) (job : Job) : M W unit :=
  executed <-- executeJob job ;;
  let '(status, message, result) := workerReport job executed in
  match executed.2 with
  | Ok _ => _ <-- cpFinish agentID (jb_ID job) status message result ;; mret tt
  | Err err => fun w =>
      match cpFinish agentID (jb_ID job) status message result w with
      | (Ok _, w) => (Ok tt, w)
      | (Err finishErr, w) => (Err ("job " ++ jb_ID job ++ " failed: " ++ err ++ "; finish failed: " ++ finishErr), w)
      | (Panic e, w) => (Panic e, w)
      | (Fuel, w) => (Fuel, w)
      end
  | Panic e => mpanic e
  | Fuel => mfuel
  end.

Fixpoint claim_jobs (agentID : string) (limit : nat) : M W unit :=
  match limit with
  | O => mret tt
  | S limit =>
      job <-- cpClaim agentID ;;
      match job with
      | None => mret tt
      | Some job => _ <-- workerExecute agentID job ;; claim_jobs agentID limit
      end
  end.

Definition tick (w : Worker) : M W unit :=
  let agentID := hb_ID (wo_Heartbeat w) in
  _ <-- cpHeartbeat (wo_Heartbeat w) ;;
  _ <-- (match syncResources with Some sync => sync | None => mret tt end) ;;
  claim_jobs agentID (if wo_MaxJobsPerTick w <=? 0 then 1%nat else Z.to_nat (wo_MaxJobsPerTick w)).

(** The context is cancelled after [ticks] ticks of the ticker. *)
Fixpoint ticksUntilCancelled (w : Worker) (ticks : nat) : M W unit :=
  match ticks with
  | O => merr "context canceled"
  | S ticks => _ <-- tick w ;; ticksUntilCancelled w ticks
  end.

Definition Run (w : Worker) (ticks : nat) : M W unit :=
  if String.eqb (hb_ID (wo_Heartbeat w)) "" then merr "agent id is required"
  else _ <-- tick w ;; ticksUntilCancelled w ticks.

(** An error of a tick ends the worker. *)
Lemma tick_error_ends w ticks s e s' : hb_ID (wo_Heartbeat w) <> EmptyString -> tick w s = (Err e, s') -> Run w ticks s = (Err e, s').
Proof. intros Hi E. unfold Run. rewrite (proj2 (String.eqb_neq _ _) Hi). now apply mbind_fail. Qed.
End worker.

(** ** The server in one process with its agent *)

Record serverWorld {S : Type} := mkServer { sw_state : S; sw_registry : AgentRegistry; sw_clock : Time }.
Arguments serverWorld S : clear implicits.

Section server.
Context {S : Type} `{KV S} `{Codec Job} `{Codec Backup} `{Codec EvidenceArtifact} `{Codec Schedule} `{Codec ScheduleState} `{Codec Target} `{Codec Storage}.
Context (marshalEvidence : RestoreEvidence -> option bytes) (sum256 : bytes -> bytes) (reveal : options -> outcome options)
        (LL : string -> option Location) (audit : string -> string -> string -> M S unit).

(** An answer as its client sees it. *)
Definition answered {A} (h : Time -> AgentRegistry -> handler S A) : M (serverWorld S) A := fun w =>
  let '(r, s) := h (sw_clock w) (sw_registry w) (sw_state w) in
  (match r with Reply a => Ok a | HTTPError _ msg => Err msg | Aborted => Err "EOF" end, mkServer _ s (sw_registry w) (sw_clock w)).

Definition serveHeartbeat (heartbeat : AgentHeartbeat) : M (serverWorld S) AgentSnapshot := fun w =>
  if String.eqb (hb_ID heartbeat) "" then (Err "agent id is required", w)
  else
    let '(snapshot, registry) := RateLimit.Heartbeat (sw_clock w) heartbeat (sw_registry w) in
    (Ok snapshot, mkServer _ (sw_state w) registry (sw_clock w)).

Definition handleListBackups : handler S (list Backup) := listed "backups" BackupStoreList (fun b => b).

(** The requests of an agent, whose token is granted the scopes of an agent. *)
#[export] Instance serverPlane : ControlPlane (serverWorld S) := {
  cpHeartbeat := serveHeartbeat;
  cpListTargets agentID := answered (fun _ _ => handleListTargets reveal true);
  cpListStorages agentID := answered (fun _ _ => handleListStorages reveal true);
  cpListBackups agentID := answered (fun _ _ => handleListBackups);
  cpClaim agentID := answered (fun clock registry => handleClaimJob reveal audit clock (Auth.mkRequest "" "" agentID "") registry);
  cpFinish agentID id status message result :=
    answered (fun clock _ => handleFinishJob marshalEvidence sum256 audit clock (Some (finishRequest status message result)) id)
}.

#[export] Instance agentPlane {H} : ControlPlane (agentWorld H (serverWorld S)) := {
  cpHeartbeat h := onServer (cpHeartbeat h);
  cpListTargets a := onServer (cpListTargets a);
  cpListStorages a := onServer (cpListStorages a);
  cpListBackups a := onServer (cpListBackups a);
  cpClaim a := onServer (cpClaim a);
  cpFinish a id status message result := onServer (cpFinish a id status message result)
}.

(** ** Time passes while a job runs *)

(** The ticks of startSchedulerLoop, started at [t0], after [from] and not
    after [until]. *)
Definition tickTimes (t0 from until : Time) : list Time :=
  let k0 := (from - t0) / Minute in
  map (fun k => t0 + k * Minute) (seqZ (k0 + 1) ((until - t0) / Minute - k0)).

Context (ids : Time -> list (outcome string)).   (* what core.NewID returns in a tick *)

Definition schedulerTicks (registry : AgentRegistry) (times : list Time) (s : S) : S :=
  fold_left (fun s t => (tickScheduler LL t (ids t) registry s).2) times s.

(** A job is what it returns, how long it takes and what it does to the
    storages; meanwhile the scheduler ticks. The agent sends nothing. *)
Definition executeTimed {H} (t0 : Time) (work : Job -> agentResources H -> H -> (JobResult * outcome unit) * Z * H) (job : Job) :
    M (agentWorld H (serverWorld S)) (JobResult * outcome unit) := fun a =>
  let '(result, duration, h) := work job (aw_resources a) (aw_host a) in
  let w := aw_server a in
  let until := sw_clock w + duration in
  (Ok result, mkAgent (mkServer _ (schedulerTicks (sw_registry w) (tickTimes t0 (sw_clock w) until) (sw_state w)) (sw_registry w) until) h (aw_resources a)).
End server.

(** ** Lost jobs *)

Section proofs.
Context {S : Type} `{KVLaws S} `{CodecLaws Job} `{CodecLaws Backup} `{CodecLaws Schedule} `{CodecLaws ScheduleState}.
Context (LL : string -> option Location) (ids : Time -> list (outcome string)).

(** What failLostAgentJobs makes of a job. *)
Definition lostJob (now : Time) (lost : gset string) (job : Job) : Job :=
  if negb (String.eqb (jb_AgentID job) "" || negb (bool_decide (jb_AgentID job ∈ lost))) && activeJob job then Jobs.failed now "agent_lost" job else job.

Lemma failLost_loop_spec now lost jobs n l (s : S) r s' :
  NoDup (map jb_ID jobs) -> (forall j, In j jobs -> table s !! jb_ID j = Some j) ->
  failLost_loop now lost jobs n l s = (Ok r, s') ->
  forall i j, table s !! i = Some j -> jb_ID j = i -> table s' !! i = Some (if bool_decide (i ∈ map jb_ID jobs) then lostJob now lost j else j).
Proof.
  revert n l s. induction jobs as [|job jobs IH]; intros n l s Hnd Hin.
  { cbn [failLost_loop]. intros [= <- <-] i j L _. now rewrite bool_decide_false by apply not_elem_of_nil. }
  change (NoDup (jb_ID job :: map jb_ID jobs)) in Hnd. apply NoDup_cons in Hnd as [Hni Hnd]. assert (Hin' : forall j, In j jobs -> table s !! jb_ID j = Some j) by (intros j Hj; apply Hin; now right).
  assert (Same : forall i j, table s !! i = Some j -> jb_ID j = i -> lostJob now lost job = job -> failLost_loop now lost jobs n l s = (Ok r, s') ->
            table s' !! i = Some (if bool_decide (i ∈ jb_ID job :: map jb_ID jobs) then lostJob now lost j else j)).
  { intros i j L Ei Hs E. rewrite (IH _ _ _ Hnd Hin' E i j L Ei). f_equal. destruct (decide (i = jb_ID job)) as [->|Hne].
    - rewrite (bool_decide_false _ Hni), bool_decide_true by constructor. rewrite (Hin job (or_introl eq_refl)) in L. injection L as <-. done.
    - assert (E' : i ∈ jb_ID job :: map jb_ID jobs <-> i ∈ map jb_ID jobs) by (rewrite elem_of_cons; tauto). now rewrite (bool_decide_ext _ _ E'). }
  intros E i j L Ei. cbn [failLost_loop] in E. change (map jb_ID (job :: jobs)) with (jb_ID job :: map jb_ID jobs).
  destruct (_ || _) eqn:C1 in E; [apply Same; [done|done| |done]; unfold lostJob; now rewrite C1|].
  destruct (activeJob job) eqn:C2; cbn [negb] in E; [|apply Same; [done|done| |done]; unfold lostJob; now rewrite C2, andb_false_r].
  apply mbind_ok in E as (u & s1 & Sv & E). apply Save_table in Sv. cbn [is_ok] in Sv. change (jb_ID (Jobs.failed now "agent_lost" job)) with (jb_ID job) in Sv.
  assert (Hin1 : forall j, In j jobs -> table s1 !! jb_ID j = Some j).
  { intros j0 Hj. rewrite Sv, lookup_insert_ne; [now apply Hin'|]. intros Eq. apply Hni. rewrite Eq. now apply list_elem_of_In, in_map. }
  destruct (decide (i = jb_ID job)) as [->|Hne].
  - rewrite (Hin job (or_introl eq_refl)) in L. injection L as <-.
    assert (L1 : table s1 !! jb_ID job = Some (Jobs.failed now "agent_lost" job)) by (rewrite Sv; apply lookup_insert_eq).
    rewrite (IH _ _ _ Hnd Hin1 E _ _ L1 eq_refl), (bool_decide_false _ Hni), bool_decide_true by constructor.
    unfold lostJob. now rewrite C1, C2.
  - assert (L1 : table s1 !! i = Some j) by (rewrite Sv, lookup_insert_ne by auto; exact L).
    rewrite (IH _ _ _ Hnd Hin1 E i j L1 Ei). assert (E' : i ∈ jb_ID job :: map jb_ID jobs <-> i ∈ map jb_ID jobs) by (rewrite elem_of_cons; tauto). now rewrite (bool_decide_ext _ _ E').
Qed.

Lemma failLost_table clock reg (s s' : S) r : Jobs.keyed s -> failLostAgentJobs clock reg clock s = (Ok r, s') ->
  forall i j, table s !! i = Some j -> table s' !! i = Some (lostJob clock (lostAgents clock reg) j).
Proof.
  intros K. unfold failLostAgentJobs. destruct (bool_decide_reflect (lostAgents clock reg = ∅)) as [Em|_].
  - intros [= _ <-] i j L. rewrite L, Em. unfold lostJob. rewrite (bool_decide_false (_ ∈ ∅)) by apply not_elem_of_empty. now rewrite orb_true_r.
  - intros E i j L. apply mbind_ok in E as (jobs & s1 & Ls & E). unfold ListJobs in Ls. destruct (tscan s) as [l|?|?|] eqn:T; try done. cbn in Ls. injection Ls as <- <-.
    destruct (snapshot_ok s l K T) as (N1 & N2 & N3). rewrite Forall_forall in N2. replace (if TimeIsZero clock then clock else clock) with clock in E by now destruct (TimeIsZero clock).
    rewrite (failLost_loop_spec _ _ _ _ _ _ _ _ N1 (fun j Hj => N2 j (proj2 (list_elem_of_In _ _) Hj)) E i j L (keyed_id _ _ _ K L)).
    rewrite bool_decide_true; [done|]. apply list_elem_of_In. rewrite <- (keyed_id _ _ _ K L). apply in_map. now apply (N3 i).
Qed.

(** The agents that are lost. *)
Lemma in_lostAgents clock reg id : registered reg -> id ∈ lostAgents clock reg <-> exists a, ar_agents reg !! id = Some a /\ statusAt reg (ag_LastHeartbeat a) clock = AgentDegraded.
Proof.
  intros R. unfold lostAgents. rewrite elem_of_list_to_set, list_elem_of_In, in_map_iff. setoid_rewrite filter_In. split.
  - intros (a & <- & Ha & Hd). apply in_ListAgents in Ha; [|done]. unfold GetAgent in Ha. destruct (ar_agents reg !! ag_ID a) as [b|] eqn:L; [|done].
    injection Ha as <-. exists b. split; [first [exact L | reflexivity]|]. unfold isDegraded in Hd. now apply String.eqb_eq in Hd.
  - intros (a & L & Hd). exists (withStatus reg clock a). assert (Ei : ag_ID (withStatus reg clock a) = id) by (cbn; now apply R). split; [exact Ei|]. split.
    + apply in_ListAgents; [done|]. rewrite Ei. unfold GetAgent. now rewrite L.
    + unfold isDegraded. cbn [withStatus ag_Status]. rewrite Hd. reflexivity.
Qed.

(** *** A tick of the scheduler *)

Lemma failLost_agree now lost jobs n l (s : S) : agree [jobsBucket] s (failLost_loop now lost jobs n l s).2.
Proof.
  revert n l s. induction jobs as [|job jobs IH]; intros n l s; cbn [failLost_loop]; [apply agree_refl|].
  destruct (_ || _); [apply IH|]. destruct (negb _); [apply IH|]. unfold mbind. destruct (Save _ s) as [[u|e|e|] s1] eqn:E; apply Save_agree in E; try exact E.
  apply (agree_trans _ _ s1); [exact E|apply IH].
Qed.

Lemma agree_weaken bs bs' (s s' : S) : agree bs s s' -> (forall b, In b bs -> In b bs') -> agree bs' s s'.
Proof. intros A Hs b Hn. apply A. intros Hb. apply Hn. now apply Hs. Qed.

#[local] Instance agree_transitive bs : Transitive (agree (S := S) bs).
Proof. intros s1 s2 s3. apply agree_trans. Qed.

Lemma tickScheduler_agree t reg (s : S) : agree [jobsBucket; scheduleStatesBucket] s (tickScheduler LL t (ids t) reg s).2.
Proof.
  apply (mbind_rel (agree [jobsBucket; scheduleStatesBucket])).
  - unfold failLostAgentJobs. destruct (bool_decide _); [apply agree_refl|]. unfold mbind, ListJobs. destruct (tscan s); cbn; try apply agree_refl.
    eapply agree_weaken; [apply failLost_agree|]. cbn. tauto.
  - intros l s1 _. apply (mbind_rel (agree [jobsBucket; scheduleStatesBucket])); [|intros; apply agree_refl].
    apply (mbind_rel (agree [jobsBucket; scheduleStatesBucket])).
    + eapply agree_weaken; [apply (tickCursors_spec LL t s1 (tickCursors LL t s1).1), surjective_pairing|]. cbn. tauto.
    + intros due s2 _. destruct due as [|d due]; [apply agree_refl|]. apply (mbind_rel (agree [jobsBucket; scheduleStatesBucket])); [apply agree_refl|].
      intros backups s3 _. eapply agree_weaken; [eapply EnqueueDue_agree, surjective_pairing|]. cbn. tauto.
Qed.

(** The identifiers of new jobs are listed and not that of the job. *)
Definition freshIDs (id : string) : Prop := forall t i, In (Ok i) (ids t) -> listable i /\ i <> id.

Lemma RunnerTick_table id t (s : S) : freshIDs id -> Jobs.keyed s -> Jobs.keyed (RunnerTick LL t (ids t) s).2 /\ table (RunnerTick LL t (ids t) s).2 !! id = table s !! id.
Proof.
  intros F K. unfold RunnerTick, mbind. destruct (tickCursors LL t s) as [due s1] eqn:E. apply tickCursors_spec in E.
  assert (T : table s1 = table s) by (apply (agree_table _ _ _ E); intros [Hb|[]]; discriminate).
  assert (K1 : Jobs.keyed s1) by (unfold Jobs.keyed; rewrite T; exact K). rewrite <- T.
  destruct due as [[|d due]|?|?|]; try (split; [exact K1|done]). destruct (BackupStoreList s1) as [backups|?|?|]; try (split; [exact K1|done]).
  pose proof (EnqueueDue_table t (ids t) (map (attachParent backups) (d :: due)) s1 _ _ (surjective_pairing _)) as G. destruct G as [K2 Hk]; [intros i Hi; now apply (F t)|].
  split; [now apply K2|]. apply Hk. intros Hi. now destruct (F t id Hi).
Qed.

Lemma tickScheduler_table id t reg (s : S) j : freshIDs id -> Jobs.keyed s -> is_ok (failLostAgentJobs t reg t s).1 = true -> table s !! id = Some j ->
  Jobs.keyed (tickScheduler LL t (ids t) reg s).2 /\ table (tickScheduler LL t (ids t) reg s).2 !! id = Some (lostJob t (lostAgents t reg) j).
Proof.
  intros F K R L. unfold tickScheduler, mbind. pose proof (quieter_failLost t reg t s K) as [K1 _]. destruct (failLostAgentJobs t reg t s) as [[l|?|?|] s1] eqn:E; try done.
  cbn [snd] in K1. pose proof (failLost_table _ _ _ _ _ K E id j L) as L1. pose proof (RunnerTick_table id t s1 F K1) as [K2 L2].
  destruct (RunnerTick LL t (ids t) s1) as [[js|?|?|] s2]; cbn [snd mret] in *; now rewrite L2.
Qed.

(** The store takes the jobs of lost agents in each tick. *)
Fixpoint ticksWork (reg : AgentRegistry) (times : list Time) (s : S) : Prop :=
  match times with
  | [] => True
  | t :: rest => is_ok (failLostAgentJobs t reg t s).1 = true /\ ticksWork reg rest (tickScheduler LL t (ids t) reg s).2
  end.

Lemma failed_stays t reg j now : lostJob t (lostAgents t reg) (Jobs.failed now "agent_lost" j) = Jobs.failed now "agent_lost" j.
Proof. unfold lostJob. change (activeJob (Jobs.failed now "agent_lost" j)) with false. now rewrite andb_false_r. Qed.

Lemma failed_ticks id reg times now (s : S) j : freshIDs id -> Jobs.keyed s -> ticksWork reg times s -> table s !! id = Some (Jobs.failed now "agent_lost" j) ->
  table (schedulerTicks LL ids reg times s) !! id = Some (Jobs.failed now "agent_lost" j).
Proof.
  intros F. revert s. induction times as [|t times IH]; intros s K Wk L; [exact L|]. destruct Wk as [R Wk]. cbn [schedulerTicks fold_left].
  destruct (tickScheduler_table id t reg s _ F K R L) as [K1 L1]. rewrite failed_stays in L1. now apply IH.
Qed.

(** A job whose agent is lost at one of the ticks is failed by them. *)
Lemma lost_in_ticks id reg times (s : S) j a : freshIDs id -> Jobs.keyed s -> registered reg -> ticksWork reg times s ->
  table s !! id = Some j -> activeJob j = true -> jb_AgentID j <> EmptyString -> ar_agents reg !! jb_AgentID j = Some a ->
  (exists t, In t times /\ ar_degradedAfter reg < t - ag_LastHeartbeat a) ->
  exists t, In t times /\ table (schedulerTicks LL ids reg times s) !! id = Some (Jobs.failed t "agent_lost" j).
Proof.
  intros F K R. revert s K. induction times as [|t times IH]; intros s K Wk L Ac Hn La (t0 & Hin & Late); [done|]. destruct Wk as [Rk Wk].
  destruct (tickScheduler_table id t reg s j F K Rk L) as [K1 L1]. cbn [schedulerTicks fold_left].
  destruct (decide (jb_AgentID j ∈ lostAgents t reg)) as [Lo|Nl].
  - exists t. split; [now left|]. apply failed_ticks; try done. rewrite L1. unfold lostJob. rewrite bool_decide_true, Ac by done. apply String.eqb_neq in Hn. now rewrite Hn.
  - assert (Hj : lostJob t (lostAgents t reg) j = j) by (unfold lostJob; rewrite (bool_decide_false _ Nl), orb_true_r; done). rewrite Hj in L1.
    destruct Hin as [<-|Hin].
    + exfalso. apply Nl, (in_lostAgents _ _ _ R). exists a. split; [done|]. unfold statusAt. apply Z.ltb_lt in Late. now rewrite Late.
    + destruct (IH _ K1 Wk L1 Ac Hn La) as (t1 & Hi1 & Ht1); [now exists t0|]. exists t1. split; [now right|exact Ht1].
Qed.

Lemma schedulerTicks_agree reg times (s : S) : agree [jobsBucket; scheduleStatesBucket] s (schedulerTicks LL ids reg times s).
Proof.
  revert s. induction times as [|t times IH]; intros s; [apply agree_refl|]. cbn [schedulerTicks fold_left].
  eapply agree_trans; [apply tickScheduler_agree|apply IH].
Qed.
End proofs.

(** The scheduler ticks between 30 and 90 seconds after any instant. *)
Lemma minute_tick t0 from until : from + 90 * Second <= until -> exists t, In t (tickTimes t0 from until) /\ from + 30 * Second < t.
Proof.
  unfold tickTimes. intros Hd. assert (Hm : Minute = 60 * Second) by reflexivity. assert (Hs : 0 < Second) by reflexivity.
  generalize dependent Second. generalize Minute. intros m sec Hd Hm Hs. subst m.
  set (d := (from + 30 * sec - t0) / (60 * sec)).
  pose proof (Z.div_mod (from + 30 * sec - t0) (60 * sec) ltac:(lia)) as D. pose proof (Z.mod_pos_bound (from + 30 * sec - t0) (60 * sec) ltac:(lia)) as B. fold d in D.
  exists (t0 + (d + 1) * (60 * sec)). split; [|nia].
  apply in_map_iff. exists (d + 1). split; [reflexivity|]. apply list_elem_of_In, elem_of_seqZ.
  assert (L1 : (from - t0) / (60 * sec) <= d) by (apply Z.div_le_mono; lia).
  assert (L2 : d + 1 <= (until - t0) / (60 * sec)) by (apply Z.div_le_lower_bound; nia). lia.
Qed.

(** ** A job of 90 seconds *)

Section lost.
Context {S : Type} `{KVLaws S} `{CodecLaws Job} `{CodecLaws Backup} `{CodecLaws EvidenceArtifact} `{CodecLaws Schedule} `{CodecLaws ScheduleState}
        `{CodecLaws Target} `{CodecLaws Storage}.
Context (marshalEvidence : RestoreEvidence -> option bytes) (sum256 : bytes -> bytes) (reveal : options -> outcome options)
        (LL : string -> option Location) (audit : string -> string -> string -> M S unit) (audit_frame : forall a k i s, unchanged s (audit a k i s).2).
Context {Host : Type} (ids : Time -> list (outcome string)) (t0 : Time)
        (work : Job -> agentResources Host -> Host -> (JobResult * outcome unit) * Z * Host).
Context (sync : M (agentWorld Host (serverWorld S)) unit) (sync_keeps : forall a, aw_server (sync a).2 = aw_server a).

#[local] Instance plane : ControlPlane (agentWorld Host (serverWorld S)) := agentPlane marshalEvidence sum256 reveal audit.

#[local] Instance timedExecutor : JobExecutor (agentWorld Host (serverWorld S)) :=
  {| executeJob := executeTimed LL ids t0 work; syncResources := Some sync |}.

(** What a claim that gives a job leaves. *)
Lemma claim_state agentID (a a' : agentWorld Host (serverWorld S)) job :
  Jobs.keyed (sw_state (aw_server a)) -> cpClaim agentID a = (Ok (Some job), a') ->
  Jobs.keyed (sw_state (aw_server a')) /\ table (sw_state (aw_server a')) !! jb_ID job = Some job /\ activeJob job = true /\ jb_AgentID job = TrimSpace agentID /\
  sw_registry (aw_server a') = sw_registry (aw_server a) /\ sw_clock (aw_server a') = sw_clock (aw_server a).
Proof.
  intros K E.
  change (onServer (answered (fun clock registry => handleClaimJob reveal audit clock (Auth.mkRequest "" "" agentID "") registry)) a = (Ok (Some job), a')) in E. unfold onServer, answered in E. destruct (handleClaimJob _ _ _ _ _ _) as [r s1] eqn:C.
  destruct r as [o|?|]; try done. injection E as -> <-. cbn [aw_server sw_state sw_registry sw_clock].
  apply (handleClaimJob_spec reveal audit audit_frame) in C as (s0 & Q & [[_ N]|(j & (j0 & L & _ & _ & _ & _ & Ag & St & T) & Ej & _)]); [now destruct (N job)| |done].
  specialize (Ej _ eq_refl) as <-. destruct (Q K) as [K0 _].
  split_and!; try done.
  - apply (keyed_insert s0 s1 job K0); [now apply (K0 _ j0)|exact T].
  - rewrite T. apply lookup_insert_eq.
  - unfold activeJob. rewrite St. reflexivity.
Qed.

(** Reporting a job that is over is an error, which ends the worker. *)
Lemma finish_refused agentID id status message result (a : agentWorld Host (serverWorld S)) j :
  table (sw_state (aw_server a)) !! id = Some j -> terminalJobStatus (jb_Status j) = true ->
  exists e, cpFinish agentID id status message result a = (Err e, a).
Proof.
  intros L T. change (exists e, onServer (answered (fun clock _ => handleFinishJob marshalEvidence sum256 audit clock (Some (finishRequest status message result)) id)) a = (Err e, a)).
  unfold onServer, answered.
  destruct (handleFinishJob_terminal marshalEvidence sum256 audit (sw_clock (aw_server a)) (Some (finishRequest status message result)) id _ _ L T) as [F1 F2].
  destruct (handleFinishJob marshalEvidence sum256 audit _ _ _ _) as [r s1]. cbn [fst snd] in *. subst s1. destruct a as [[st rg ck] hs rs].
  destruct r as [v|?|]; [now destruct (F2 v)|eexists; reflexivity..].
Qed.

Lemma execute_lost agentID (a : agentWorld Host (serverWorld S)) job result r duration h :
  let w := aw_server a in let times := tickTimes t0 (sw_clock w) (sw_clock w + duration) in
  Jobs.keyed (sw_state w) -> table (sw_state w) !! jb_ID job = Some job -> activeJob job = true -> jb_AgentID job <> EmptyString ->
  registered (sw_registry w) -> ar_degradedAfter (sw_registry w) <= 30 * Second ->
  (exists g, ar_agents (sw_registry w) !! jb_AgentID job = Some g /\ ag_LastHeartbeat g <= sw_clock w) ->
  work job (aw_resources a) (aw_host a) = ((result, r), duration, h) -> (r = Ok tt \/ exists e, r = Err e) -> 90 * Second <= duration ->
  freshIDs ids (jb_ID job) -> ticksWork LL ids (sw_registry w) times (sw_state w) ->
  exists e a' t, workerExecute agentID job a = (Err e, a') /\ In t times /\
    table (sw_state (aw_server a')) !! jb_ID job = Some (Jobs.failed t "agent_lost" job) /\
    agree [jobsBucket; scheduleStatesBucket] (sw_state w) (sw_state (aw_server a')).
Proof.
  intros w times K L Ac Hn R Dg (g & Lg & Hg) Hw Hr Hd F Wk.
  destruct (minute_tick t0 (sw_clock w) (sw_clock w + duration)) as (t1 & Ht1 & Late); [lia|].
  destruct (lost_in_ticks LL ids (jb_ID job) (sw_registry w) times (sw_state w) job g F K R Wk L Ac Hn Lg) as (t & Ht & Lt); [exists t1; split; [exact Ht1|lia]|].
  unfold workerExecute, mbind. cbn [executeJob timedExecutor]. unfold executeTimed. fold w. rewrite Hw. cbn [fst snd].
  set (a1 := mkAgent (mkServer S _ _ _) h _).
  pose proof (schedulerTicks_agree LL ids (sw_registry w) times (sw_state w)) as Ag.
  assert (L1 : table (sw_state (aw_server a1)) !! jb_ID job = Some (Jobs.failed t "agent_lost" job)) by exact Lt.
  destruct (workerReport job (result, r)) as [[status message] res].
  destruct (finish_refused agentID (jb_ID job) status message res a1 _ L1 eq_refl) as (e & Fe). destruct Hr as [->|(e' & ->)]; cbn [snd]; rewrite Fe; eexists _, a1, t; (split; [reflexivity|]); (split; [exact Ht|]); (split; [exact L1|exact Ag]).
Qed.

End lost.

(** ** A storage that stops every agent *)

Section synced.
Context {S : Type} `{KV S} `{Codec Job} `{Codec Backup} `{Codec EvidenceArtifact} `{Codec Schedule} `{Codec ScheduleState} `{Codec Target} `{Codec Storage}.
Context (marshalEvidence : RestoreEvidence -> option bytes) (sum256 : bytes -> bytes) (reveal : options -> outcome options) (audit : string -> string -> string -> M S unit).
Context {Host Signer : Type} (sprint : optval -> string) (ParseBool : string -> option bool) (parseCredentials : string -> option (gmap string string))
        (parseURI : string -> option storageURL) (parseURL : string -> option Http.URL) (envCredentials : M Host Credentials) (imdsCredentials : string -> M Host Credentials)
        (makeRoot : string -> outcome string) (parsePrivateKey : string -> string -> option Signer) (ReadFile : string -> option string)
        (agentDial loadKnownHosts : string -> bool) (dial : string -> @sshConfig Signer -> outcome unit) (resolve : Reference -> outcome string).

#[local] Instance listPlane : ControlPlane (serverWorld S) := serverPlane marshalEvidence sum256 reveal audit.

#[local] Instance syncPlane : ControlPlane (agentWorld Host (serverWorld S)) := agentPlane marshalEvidence sum256 reveal audit.

Definition syncAgent : string -> M (agentWorld Host (serverWorld S)) unit :=
  SyncResources sprint ParseBool parseCredentials parseURI parseURL envCredentials imdsCredentials makeRoot parsePrivateKey ReadFile agentDial loadKnownHosts dial resolve.

(** The listings of the server leave it as it is. *)
Lemma listed_answer {A B} what (lister : S -> outcome (list A)) (show : A -> B) (a : agentWorld Host (serverWorld S)) :
  onServer (answered (fun _ _ => listed what lister show)) a =
  (match lister (sw_state (aw_server a)) with Ok l => Ok (map show l) | Err _ => Err ("list " ++ what)%string | Panic _ | Fuel => Err "EOF"%string end, a).
Proof.
  destruct a as [[st rg ck] h rs]. unfold onServer, answered, listed, attempt, readOnly, answer. cbn [aw_server sw_state sw_clock sw_registry].
  now destruct (lister st).
Qed.

Lemma listed_keeps {A B} what (lister : S -> outcome (list A)) (show : A -> B) (a : agentWorld Host (serverWorld S)) :
  aw_server (onServer (answered (fun _ _ => listed what lister show)) a).2 = aw_server a.
Proof. now rewrite listed_answer. Qed.

Lemma SyncResources_keeps agentID (a : agentWorld Host (serverWorld S)) : aw_server (syncAgent agentID a).2 = aw_server a.
Proof.
  pose (same := fun x y : agentWorld Host (serverWorld S) => aw_server y = aw_server x).
  assert (T : Transitive same) by (intros x y z E1 E2; unfold same in *; congruence).
  change (same a (syncAgent agentID a).2). unfold syncAgent, SyncResources.
  apply (mbind_rel same); [apply listed_keeps|]. intros targets a1 _.
  apply (mbind_rel same); [done|]. intros made a2 _. apply (mbind_rel same); [done|]. intros [] a3 _.
  apply (mbind_rel same); [apply listed_keeps|]. intros storages a4 _. apply (mbind_rel same).
  - unfold onHost, same. now destruct (syncStorages _ _ _ _ _ _ _ _ _ _ _ _ _ _ _ _ _).
  - intros backends a5 _. apply (mbind_rel same); [done|]. intros [] a6 _. apply (mbind_rel same); [apply listed_keeps|done].
Qed.

Lemma sync_refused agentID storages item (a : agentWorld Host (serverWorld S)) :
  StorageList reveal (sw_state (aw_server a)) = Ok storages -> In item storages -> so_Kind item = "s3"%string -> so_Options item !! "region"%string = None ->
  is_ok (syncAgent agentID a).1 = false.
Proof.
  intros L Hin Hk Hr. unfold syncAgent, SyncResources, mbind.
  assert (E1 : exists r, onServer (cpListTargets agentID) a = (r, a)) by (eexists; apply listed_answer). destruct E1 as [rt ->].
  destruct rt as [targets|?|?|]; try done. unfold mlift. destruct (syncTargets _ _ _ _) as [made|?|?|]; try done. unfold setResources.
  set (a2 := mkAgent (aw_server a) _ _). assert (E2 : onServer (cpListStorages agentID) a2 = (Ok storages, a2)).
  { etransitivity; [apply listed_answer|]. change (aw_server a2) with (aw_server a). now rewrite L, map_id. }
  rewrite E2.
  unfold onHost. pose proof (one_storage_fails_all sprint ParseBool parseCredentials parseURI parseURL envCredentials imdsCredentials makeRoot parsePrivateKey ReadFile
    agentDial loadKnownHosts dial resolve item storages ∅ (aw_host a2) Hin) as F.
  match type of F with ?P -> _ => assert (P) as Hreg end.
  { intros opts h0 E. apply region_required; [exact Hk|]. cbn [so_Options withStorageOptions]. unfold resolveResourceOptions in E.
    pose proof (eachOption_lookup _ _ _ E "region"%string) as N. rewrite Hr in N. cbn [optionString]. now rewrite N. }
  specialize (F Hreg). now destruct (syncStorages _ _ _ _ _ _ _ _ _ _ _ _ _ _ _ _ _) as [[b|?|?|] h'].
Qed.

Context (executor : Job -> M (agentWorld Host (serverWorld S)) (JobResult * outcome unit)).

#[local] Instance syncExecutor (agentID : string) : JobExecutor (agentWorld Host (serverWorld S)) :=
  {| executeJob := executor; syncResources := Some (syncAgent agentID) |}.

(** C40: one storage of kind s3 that was saved without a region ends every agent
    of the server: its first tick fails before it claims a job, the worker
    returns, and the jobs stay as they are, also those for other storages. *)
Theorem one_storage_stops_agents worker ticks storages item (a : agentWorld Host (serverWorld S)) :
  let agentID := hb_ID (wo_Heartbeat worker) in
  StorageList reveal (sw_state (aw_server a)) = Ok storages -> In item storages -> so_Kind item = "s3"%string -> so_Options item !! "region"%string = None ->
  let after := Run (H0 := syncExecutor agentID) worker ticks a in
  is_ok after.1 = false /\ sw_state (aw_server after.2) = sw_state (aw_server a).
Proof.
  intros agentID L Hin Hk Hr after. subst after. unfold Run. fold agentID. destruct (String.eqb agentID "") eqn:Ei; [done|].
  assert (T : is_ok (tick (H0 := syncExecutor agentID) worker a).1 = false /\ sw_state (aw_server (tick (H0 := syncExecutor agentID) worker a).2) = sw_state (aw_server a)).
  2: { unfold mbind. destruct (tick (H0 := syncExecutor agentID) worker a) as [[u|?|?|] a']; cbn [fst snd is_ok] in T; try done. now destruct T. }
  unfold tick, mbind. destruct (cpHeartbeat (wo_Heartbeat worker) a) as [hr a0] eqn:Hb.
  cbn in Hb. unfold onServer, serveHeartbeat in Hb. fold agentID in Hb. rewrite Ei in Hb. cbn in Hb. injection Hb as <- Hb.
  assert (S0 : sw_state (aw_server a0) = sw_state (aw_server a)) by (rewrite <- Hb; done). cbn [syncResources syncExecutor]. fold agentID.
  pose proof (sync_refused agentID storages item a0) as F. rewrite S0 in F. specialize (F L Hin Hk Hr).
  pose proof (SyncResources_keeps agentID a0) as K. destruct (syncAgent agentID a0) as [[u|?|?|] a1]; cbn [fst snd is_ok] in F, K; try done; cbn [fst snd is_ok]; rewrite K; now split.
Qed.
End synced.

(** ** An instance *)

Definition endedJob : Job := Jobs.failed (demoClock + Minute) "agent_lost" (startedOn "a1").

#[local] Instance lostJobs : Codec Job := listCodec [queuedJob; startedOn "a1"; endedJob].
#[local] Instance lostBackups : Codec Backup := noCodec.
#[local] Instance lostEvidence : Codec EvidenceArtifact := noCodec.
#[local] Instance lostSchedules : Codec Schedule := noCodec.
#[local] Instance lostStates : Codec ScheduleState := noCodec.
#[local] Instance lostTargets : Codec Target := noCodec.
#[local] Instance lostStorages : Codec Storage := noCodec.

Definition memStore : Type := gmap string (gmap string bytes).

Definition lostWorker : Worker := mkWorker (mkHeartbeat "a1" "v1" "" 1 ∅ 0) 1.

Definition ninetySeconds (job : Job) (r : agentResources unit) (h : unit) : (JobResult * outcome unit) * Z * unit :=
  ((noJobResult, Ok tt), 90 * Second, tt).

Definition withQueued : memStore :=
  (handleBackupNow noAudit demoClock (Ok "j1"%string) (Some (mkBackupNow "t1" "s1" "" "")) (∅ : memStore)).2.

Definition beforeTick : agentWorld unit (serverWorld memStore) :=
  mkAgent (mkServer _ withQueued (NewAgentRegistry (30 * Second)) demoClock) tt (mkResources ∅ ∅ ∅).

Definition whenFinished : agentWorld unit (serverWorld memStore) :=
  let '(_, a) := Run (H := plane (fun _ => None) (fun b => b) clearOptions noAudit)
                     (H0 := timedExecutor (fun _ => None) (fun _ => []) demoClock ninetySeconds (fun a => (Ok tt, a))) lostWorker 5 beforeTick in a.

Lemma withQueued_keyed : Jobs.keyed withQueued.
Proof.
  assert (T : table withQueued = {["j1"%string := queuedJob]}) by vmrefl.
  intros id j. rewrite T. intros L. apply lookup_singleton_Some in L as [<- <-]. done.
Qed.


#[local] Instance byte_eq : EqDecision Byte.byte := Byte.byte_eq_dec.
#[local] Instance optval_eq : EqDecision optval := optval_eq_dec.
#[local] Instance Storage_eq : EqDecision Storage.
Proof. solve_decision. Defined.

Definition regionless : Storage :=
  mkStorage "s1" "Bucket" "s3" "s3://backups" (<["endpoint"%string := OString "https://minio.local"]> ∅) demoClock demoClock ∅.

Definition parseS3 (raw : string) : option Resources.URL := Some (mkURL "s3" "backups" "").

Definition withStorage : memStore :=
  (StorageSave (H1 := listCodec [regionless]) parseS3 (fun o => Ok o) regionless withQueued).2.

Definition withRegionless : agentWorld unit (serverWorld memStore) :=
  mkAgent (mkServer _ withStorage (NewAgentRegistry (30 * Second)) demoClock) tt (mkResources ∅ ∅ ∅).

(** The server accepts the storage, and the queued job is for another one. *)
Lemma one_storage_stops_agents_witness :
  is_ok (StorageSave (H1 := listCodec [regionless]) parseS3 (fun o => Ok o) regionless withQueued).1 = true /\
  is_ok (Run (H := syncPlane (H6 := listCodec [regionless]) (fun _ => None) (fun b => b) clearOptions noAudit)
    (H0 := syncExecutor (H6 := listCodec [regionless]) (Signer := unit) (fun _ => None) (fun b => b) clearOptions noAudit
       (fun _ => EmptyString) (fun _ => None) (fun _ => None) (fun _ => None) (fun _ => None) (merr "no credentials") (fun _ => merr "no metadata")
       (fun r => Ok r) (fun _ _ => None) (fun _ => None) (fun _ => false) (fun _ => false) (fun _ _ => Ok tt) (fun _ => Err "no secrets") (fun _ => mret (noJobResult, Ok tt)) "a1")
    lostWorker 5 withRegionless).1 = false.
Proof.
  split; [vmrefl|].
  apply (one_storage_stops_agents (H6 := listCodec [regionless]) (Signer := unit) (fun _ => None) (fun b => b) clearOptions noAudit
       (fun _ => EmptyString) (fun _ => None) (fun _ => None) (fun _ => None) (fun _ => None) (merr "no credentials") (fun _ => merr "no metadata")
       (fun r => Ok r) (fun _ _ => None) (fun _ => None) (fun _ => false) (fun _ => false) (fun _ _ => Ok tt) (fun _ => Err "no secrets") (fun _ => mret (noJobResult, Ok tt))
       lostWorker 5 [regionless] regionless withRegionless).
  - vmrefl.
  - now left.
  - reflexivity.
  - vmrefl.
Defined.
