(* ===== verification/Resp.v ===== *)
(** * The Redis serialization protocol

    Models src/internal/drivers/redis/resp.go. A reader is the part of the
    stream it has not consumed; a stream that ends early is EOF, which the
    reader of a connection reports when its peer closes it. Allocations above
    [maxAlloc] panic, as make does on 64-bit Linux.

    The theorems show that a command is read back as it was encoded, that
    reading always ends, and that a reply can make the reader panic. *)

From Stdlib Require Import Ascii String.
From S2P Require Import Prelude ChunkHash Core GoStrings GoText.
Local Open Scope Z_scope.

Definition TypeSimpleString : byte := Byte.x2b.
Definition TypeError : byte := Byte.x2d.
Definition TypeInteger : byte := Byte.x3a.
Definition TypeBulkString : byte := Byte.x24.
Definition TypeArray : byte := Byte.x2a.
Definition TypeNull : byte := Byte.x5f.

Inductive Value : Type :=
| mkValue (Type_ : byte) (Str : string) (Int : Z) (Array : list Value) (Null : bool).

Definition v_Type (v : Value) : byte := let 'mkValue t _ _ _ _ := v in t.
Definition v_String (v : Value) : string := let 'mkValue _ s _ _ _ := v in s.
Definition v_Int (v : Value) : Z := let 'mkValue _ _ i _ _ := v in i.
Definition v_Array (v : Value) : list Value := let 'mkValue _ _ _ a _ := v in a.
Definition v_Null (v : Value) : bool := let 'mkValue _ _ _ _ n := v in n.

Definition bulkValue (s : string) : Value := mkValue TypeBulkString s 0 [] false.

Definition crlf : bytes := [Byte.x0d; Byte.x0a].

Definition encodeArg (arg : string) : bytes :=
  list_byte_of_string ("$" ++ Itoa (Z.of_nat (String.length arg))) ++ crlf ++ list_byte_of_string arg ++ crlf.

Definition EncodeCommand (args : list string) : bytes :=
  list_byte_of_string ("*" ++ Itoa (zlen args)) ++ crlf ++ concat (map encodeArg args).

(** ReadBytes('\n'): the bytes up to the first line feed, which is dropped. *)
Fixpoint cutLine (l : bytes) : option (bytes * bytes) :=
  match l with
  | [] => None
  | Byte.x0a :: r => Some ([], r)
  | b :: r => match cutLine r with Some (line, rest) => Some (b :: line, rest) | None => None end
  end.

(** A line without its carriage return. *)
Fixpoint chopCR (line : bytes) : option bytes :=
  match line with
  | [] => None
  | [Byte.x0d] => Some []
  | b :: r => match chopCR r with Some l => Some (b :: l) | None => None end
  end.

Definition readLine : M bytes string := fun l =>
  match cutLine l with
  | None => (Err "EOF", [])
  | Some (line, rest) =>
      match chopCR line with
      | None => (Err "RESP line missing CRLF terminator", rest)
      | Some text => (Ok (string_of_list_byte text), rest)
      end
  end.

(** The largest allocation of make, in bytes, and the size of a Value. *)
Definition maxAlloc : Z := 2 ^ 48.
Definition valueSize : Z := 64.

Definition readNumber : M bytes Z :=
  line <-- readLine ;;
  match Atoi line with Some n => mret n | None => merr "strconv: invalid syntax" end.

Definition readBulk : M bytes Value :=
  size <-- readNumber ;;
  if size =? -1 then mret (mkValue TypeBulkString "" 0 [] true)
  else if size <? -1 then merr "invalid bulk string size"
  else if (i64 (size + 2) <? 0) || (maxAlloc <? size + 2) then fun l => (Panic "makeslice: len out of range", l)
  else fun l =>
    if zlen l <? size + 2 then (Err (if zlen l =? 0 then "EOF" else "unexpected EOF"), [])
    else
      let data := take (Z.to_nat size) l in
      let rest := drop (Z.to_nat size) l in
      if beqb (take 2 rest) crlf then (Ok (bulkValue (string_of_list_byte data)), drop 2 rest)
      else (Err "bulk string missing CRLF terminator", drop 2 rest).

(** [readMany] is the loop of readArray over the values left to read. *)
Fixpoint ReadValue (fuel : nat) : M bytes Value :=
  match fuel with
  | O => mfuel
  | S fuel => fun l =>
      match l with
      | [] => (Err "EOF", [])
      | prefix :: l =>
          (if Byte.eqb prefix TypeSimpleString then line <-- readLine ;; mret (mkValue TypeSimpleString line 0 [] false)
           else if Byte.eqb prefix TypeError then line <-- readLine ;; mret (mkValue TypeError line 0 [] false)
           else if Byte.eqb prefix TypeInteger then n <-- readNumber ;; mret (mkValue TypeInteger "" n [] false)
           else if Byte.eqb prefix TypeBulkString then readBulk
           else if Byte.eqb prefix TypeArray then
             count <-- readNumber ;;
             if count =? -1 then mret (mkValue TypeArray "" 0 [] true)
             else if count <? -1 then merr "invalid array size"
             else if maxAlloc <? count * valueSize then fun l => (Panic "makeslice: cap out of range", l)
             else values <-- readMany fuel count ;; mret (mkValue TypeArray "" 0 values false)
           else if Byte.eqb prefix TypeNull then _ <-- readLine ;; mret (mkValue TypeNull "" 0 [] true)
           else merr "unsupported RESP type") l
      end
  end
with readMany (fuel : nat) (count : Z) : M bytes (list Value) :=
  match fuel with
  | O => mfuel
  | S fuel =>
      if count <=? 0 then mret []
      else v <-- ReadValue fuel ;; rest <-- readMany fuel (count - 1) ;; mret (v :: rest)
  end.

(** Fuel that is always enough. *)
Definition Read : M bytes Value := fun l => ReadValue (2 * length l + 1) l.

Example resp_reads :
  Read (list_byte_of_string "+PONG" ++ crlf) = (Ok (mkValue TypeSimpleString "PONG" 0 [] false), []) /\
  Read (list_byte_of_string "*2" ++ crlf ++ list_byte_of_string ":-7" ++ crlf ++ list_byte_of_string "$-1" ++ crlf ++ [Byte.x41]) =
    (Ok (mkValue TypeArray "" 0 [mkValue TypeInteger "" (-7) [] false; mkValue TypeBulkString "" 0 [] true] false), [Byte.x41]) /\
  Read (EncodeCommand ["SET"; "k"; ""]) = (Ok (mkValue TypeArray "" 0 [bulkValue "SET"; bulkValue "k"; bulkValue ""] false), []) /\
  Read (list_byte_of_string "$9223372036854775806" ++ crlf) = (Panic "makeslice: len out of range", []).
Proof. vm_compute. repeat split. Qed.

(** ** Reading consumes the stream *)

Lemma cutLine_length l line rest : cutLine l = Some (line, rest) -> l = line ++ Byte.x0a :: rest.
Proof.
  revert line. induction l as [|b l IH]; intros line; [done|]. cbn [cutLine].
  destruct (Byte.byte_eq_dec b Byte.x0a) as [->|Hb]; [now intros [= <- <-]|].
  assert (E : (match b with Byte.x0a => Some ([], l)
               | _ => match cutLine l with Some (line, rest) => Some (b :: line, rest) | None => None end end) =
              match cutLine l with Some (line, rest) => Some (b :: line, rest) | None => None end) by (by destruct b).
  rewrite E. destruct (cutLine l) as [[line' rest']|]; [|done]. intros [= <- <-]. simpl. now rewrite (IH line').
Qed.

Lemma chopCR_snoc line text : chopCR line = Some text -> line = text ++ [Byte.x0d].
Proof.
  revert text. induction line as [|b line IH]; intros text; [done|]. destruct line as [|c line].
  - destruct (Byte.byte_eq_dec b Byte.x0d) as [->|Hb]; [now intros [= <-]|]. by destruct b.
  - assert (E : chopCR (b :: c :: line) = match chopCR (c :: line) with Some l => Some (b :: l) | None => None end) by (by destruct b).
    rewrite E. destruct (chopCR (c :: line)) as [t|]; [|done]. intros [= <-]. simpl. now rewrite (IH t).
Qed.

Lemma consumes_line : consumes 2 readLine.
Proof.
  intros l. unfold readLine. destruct (cutLine l) as [[line rest]|] eqn:E; [|simpl; split; [lia|done]].
  apply cutLine_length in E as ->. destruct (chopCR line) as [text|] eqn:C; simpl; rewrite length_app; simpl; (split; [|done]).
  - apply chopCR_snoc in C as ->. rewrite length_app. simpl. lia.
  - lia.
Qed.

Lemma consumes_number : consumes 2 readNumber.
Proof.
  apply (consumes_bind 2 0); [apply consumes_line|]. intros line.
  destruct (Atoi line); [apply consumes_ret|apply consumes_err].
Qed.

Lemma consumes_bulk : consumes 2 readBulk.
Proof.
  apply (consumes_bind 2 0); [apply consumes_number|]. intros size.
  destruct (size =? -1); [apply consumes_ret|]. destruct (size <? -1); [apply consumes_err|].
  destruct (_ || _); [intros l; simpl; split; [lia|done]|]. intros l.
  destruct (zlen l <? size + 2); [simpl; split; [lia|done]|].
  cbv zeta. destruct (beqb (take 2 (drop (Z.to_nat size) l)) crlf); cbn [fst snd is_ok]; rewrite !length_drop; (split; [lia|done]).
Qed.

(** Enough fuel for a stream of [n] bytes. *)
Lemma read_consumes fuel :
  (forall l, (2 * length l + 1 <= fuel)%nat ->
     (length (ReadValue fuel l).2 + (if is_ok (ReadValue fuel l).1 then 1 else 0) <= length l)%nat /\ (ReadValue fuel l).1 <> Fuel) /\
  (forall count l, (2 * length l + 2 <= fuel)%nat ->
     (length (readMany fuel count l).2 <= length l)%nat /\ (readMany fuel count l).1 <> Fuel).
Proof.
  induction fuel as [|fuel [IHv IHm]]; [split; intros; lia|]. split.
  - intros [|prefix l] Hf; [simpl; split; [lia|done]|]. cbn [ReadValue].
    assert (C : forall rd : M bytes Value, consumes 0 rd ->
      (length (rd l).2 + (if is_ok (rd l).1 then 1 else 0) <= length (prefix :: l))%nat /\ (rd l).1 <> Fuel).
    { intros rd Hrd. destruct (Hrd l) as [L P]. split; [|done]. cbn [length]. destruct (is_ok _); lia. }
    assert (W : forall (A : Type) (rd : M bytes A) (f : A -> M bytes Value), consumes 2 rd -> (forall a, consumes 0 (f a)) ->
      consumes 0 (x <-- rd ;; f x)).
    { intros A rd f H1 H2. apply (consumes_weaken 2); [lia|]. now apply (consumes_bind 2 0). }
    destruct (Byte.eqb prefix TypeSimpleString); [apply C, W; [apply consumes_line|intros; apply consumes_ret]|].
    destruct (Byte.eqb prefix TypeError); [apply C, W; [apply consumes_line|intros; apply consumes_ret]|].
    destruct (Byte.eqb prefix TypeInteger); [apply C, W; [apply consumes_number|intros; apply consumes_ret]|].
    destruct (Byte.eqb prefix TypeBulkString); [apply C, (consumes_weaken 2); [lia|apply consumes_bulk]|].
    destruct (Byte.eqb prefix TypeArray).
    { unfold mbind. destruct (consumes_number l) as [L P]. destruct (readNumber l) as [[count|e|e|] r]; simpl in *; try (split; [lia|done]).
      destruct (count =? -1); [simpl; split; [lia|done]|]. destruct (count <? -1); [simpl; split; [lia|done]|].
      destruct (maxAlloc <? _); [simpl; split; [lia|done]|].
      destruct (IHm count r) as [L2 P2]; [lia|]. destruct (readMany fuel count r) as [[vs|e|e|] r']; simpl in *; (split; [lia|done]). }
    destruct (Byte.eqb prefix TypeNull); [apply C, W; [apply consumes_line|intros; apply consumes_ret]|].
    simpl. split; [lia|done].
  - intros count l Hf. cbn [readMany]. destruct (count <=? 0); [simpl; split; [lia|done]|]. unfold mbind.
    destruct (IHv l) as [L P]; [lia|]. destruct (ReadValue fuel l) as [[v|e|e|] r]; simpl in *; try (split; [lia|done]).
    destruct (IHm (count - 1) r) as [L2 P2]; [lia|].
    destruct (readMany fuel (count - 1) r) as [[vs|e|e|] r']; simpl in *; (split; [lia|done]).
Qed.

(** Reading a reply ends: whatever the server sends, [ReadValue] returns a
    value, an error or panics on an allocation; it never puts bytes back, and
    a value takes at least one. *)
Theorem resp_read_terminates l :
  (Read l).1 <> Fuel /\ (length (Read l).2 <= length l)%nat /\
  (is_ok (Read l).1 = true -> (length (Read l).2 < length l)%nat).
Proof.
  unfold Read. destruct (proj1 (read_consumes (2 * length l + 1)) l) as [L P]; [lia|].
  split_and!; [done|destruct (is_ok _); lia|]. intros E. rewrite E in L. lia.
Qed.

(** ** Commands are read back *)

Lemma cutLine_app text rest : ~ In Byte.x0a text -> cutLine (text ++ Byte.x0a :: rest) = Some (text, rest).
Proof.
  induction text as [|b text IH]; intros Hn; [done|]. simpl in Hn. cbn [app cutLine]. rewrite IH by tauto.
  destruct b; try done. exfalso. tauto.
Qed.

Lemma chopCR_app text : chopCR (text ++ [Byte.x0d]) = Some text.
Proof.
  induction text as [|b text IH]; [done|]. cbn [app chopCR]. rewrite IH. destruct (text ++ [Byte.x0d]) eqn:E; [now destruct text|].
  now destruct b.
Qed.

Lemma readLine_app s rest : ~ In Byte.x0a (list_byte_of_string s) -> readLine (list_byte_of_string s ++ crlf ++ rest) = (Ok s, rest).
Proof.
  intros Hn. unfold readLine, crlf. cbn [app]. change (Byte.x0d :: Byte.x0a :: rest) with ([Byte.x0d] ++ Byte.x0a :: rest).
  rewrite app_assoc, cutLine_app.
  - now rewrite chopCR_app, string_of_list_byte_of_string.
  - rewrite in_app_iff. simpl. intros [?|[?|?]]; [tauto|discriminate|done].
Qed.

Lemma Itoa_no_line z : ~ In Byte.x0a (list_byte_of_string (Itoa z)).
Proof.
  pose proof (Itoa_chars z) as E. revert E. generalize (Itoa z). intros s. induction s as [|c s IH]; [intros _ []|].
  cbn [allChars]. rewrite andb_true_iff. intros [Hc Hs]. rewrite list_byte_cons. intros [E|Hin]; [|now apply IH].
  apply (f_equal ascii_of_byte) in E. rewrite ascii_of_byte_of_ascii in E. subst c. discriminate.
Qed.

Lemma readNumber_app z rest : - 2 ^ 63 <= z < 2 ^ 63 ->
  readNumber (list_byte_of_string (Itoa z) ++ crlf ++ rest) = (Ok z, rest).
Proof.
  intros Hz. unfold readNumber, mbind. rewrite readLine_app by apply Itoa_no_line. now rewrite Atoi_Itoa.
Qed.

(** An argument that fits an allocation. *)
Definition smallArg (arg : string) : Prop := Z.of_nat (String.length arg) + 2 <= maxAlloc.

(** An encoded argument after its type. *)
Definition argBody (arg : string) : bytes :=
  list_byte_of_string (Itoa (Z.of_nat (String.length arg))) ++ crlf ++ list_byte_of_string arg ++ crlf.

Lemma readBulk_arg arg rest : smallArg arg -> readBulk (argBody arg ++ rest) = (Ok (bulkValue arg), rest).
Proof.
  intros Hs. unfold argBody, smallArg, maxAlloc in *. rewrite <- !app_assoc. unfold readBulk, mbind.
  rewrite readNumber_app by lia. set (n := Z.of_nat (String.length arg)) in *.
  replace (n =? -1) with false by lia. replace (n <? -1) with false by lia.
  rewrite i64_id by lia.
  replace ((n + 2 <? 0) || (maxAlloc <? n + 2)) with false by (unfold maxAlloc; lia).
  replace (zlen _ <? n + 2) with false.
  2:{ subst n. rewrite !zlen_app, zlen_list_byte. change (zlen crlf) with 2. pose proof (zlen_nonneg rest). lia. }
  assert (E : Z.to_nat n = length (list_byte_of_string arg)).
  { pose proof (zlen_list_byte arg) as E. unfold zlen in E. lia. }
  cbv zeta. rewrite E, drop_app_length, take_app_length. cbn [crlf app take drop beqb].
  now rewrite string_of_list_byte_of_string.
Qed.

Lemma encodeArg_prefix arg : encodeArg arg = TypeBulkString :: argBody arg.
Proof. reflexivity. Qed.

Lemma ReadValue_arg fuel arg rest : smallArg arg ->
  ReadValue (S fuel) (encodeArg arg ++ rest) = (Ok (bulkValue arg), rest).
Proof.
  intros Hs. rewrite encodeArg_prefix. cbn [app ReadValue].
  change (Byte.eqb TypeBulkString TypeSimpleString) with false. change (Byte.eqb TypeBulkString TypeError) with false.
  change (Byte.eqb TypeBulkString TypeInteger) with false. change (Byte.eqb TypeBulkString TypeBulkString) with true.
  cbv iota. now apply readBulk_arg.
Qed.

Lemma readMany_args fuel args rest : Forall smallArg args -> (length args < fuel)%nat ->
  readMany fuel (zlen args) (concat (map encodeArg args) ++ rest) = (Ok (map bulkValue args), rest).
Proof.
  intros F. revert fuel. induction F as [|arg args Ha F IH]; intros [|fuel] Hf; try (simpl in Hf; lia); [done|].
  cbn [map concat]. rewrite <- app_assoc. cbn [readMany length] in *. rewrite zlen_cons.
  replace (_ <=? 0) with false by (unfold zlen; lia). unfold mbind.
  destruct fuel as [|fuel]; [lia|]. rewrite ReadValue_arg by done.
  replace (zlen args + 1 - 1) with (zlen args) by lia || replace (1 + zlen args - 1) with (zlen args) by lia.
  now rewrite IH by lia.
Qed.

Lemma encodeArg_length arg : (1 <= length (encodeArg arg))%nat.
Proof. rewrite encodeArg_prefix. simpl. lia. Qed.

Lemma concat_args_length args : (length args <= length (concat (map encodeArg args)))%nat.
Proof.
  induction args as [|a args IH]; simpl; [lia|]. rewrite length_app. pose proof (encodeArg_length a). lia.
Qed.

(** A command is read as it was sent: the reader of the other side gets
    from the bytes of [EncodeCommand] exactly its arguments, whatever bytes
    they hold, and nothing of what follows. *)
Theorem resp_command_roundtrip args rest :
  Forall smallArg args -> zlen args * valueSize <= maxAlloc ->
  Read (EncodeCommand args ++ rest) = (Ok (mkValue TypeArray "" 0 (map bulkValue args) false), rest).
Proof.
  intros F Hn. unfold Read. set (fuel := (2 * length (EncodeCommand args ++ rest))%nat).
  assert (Hf : (length args < fuel)%nat).
  { unfold fuel, EncodeCommand. rewrite !length_app. pose proof (concat_args_length args). simpl. lia. }
  rewrite Nat.add_1_r. unfold EncodeCommand. change ("*" ++ ?x)%string with (String "*" x). rewrite list_byte_cons.
  cbn [app ReadValue]. change (byte_of_ascii "*") with TypeArray.
  change (Byte.eqb TypeArray TypeSimpleString) with false. change (Byte.eqb TypeArray TypeError) with false.
  change (Byte.eqb TypeArray TypeInteger) with false. change (Byte.eqb TypeArray TypeBulkString) with false.
  change (Byte.eqb TypeArray TypeArray) with true. cbv iota. rewrite <- !app_assoc. unfold mbind.
  unfold maxAlloc, valueSize in Hn. pose proof (zlen_nonneg args).
  rewrite readNumber_app by lia. replace (zlen args =? -1) with false by lia. replace (zlen args <? -1) with false by lia.
  replace (maxAlloc <? zlen args * valueSize) with false by (unfold maxAlloc, valueSize; lia).
  now rewrite readMany_args.
Qed.

Lemma resp_command_roundtrip_witness :
  let args := ["RESTORE"; "k"; "-1"; "a b"]%string in
  Read (EncodeCommand args ++ [Byte.x2b]) = (Ok (mkValue TypeArray "" 0 (map bulkValue args) false), [Byte.x2b]).
Proof.
  intros args. apply (resp_command_roundtrip args [Byte.x2b]).
  - repeat constructor; unfold smallArg, maxAlloc; simpl; lia.
  - unfold maxAlloc, valueSize, zlen. simpl. lia.
Defined.
