(* ===== verification/RedisDriver.v ===== *)
(** * The Redis driver

    Models src/internal/drivers/redis/client.go, driver.go and psync.go. The
    server at the other end of a connection is a parameter: for a command, the
    bytes it sends back. A driver call changes the connection and, in a
    backup, the records written. JSON, the clock and Sscanf are parameters.

    The theorems show on which servers a backup cannot start, that a key
    without expiry cannot be restored, and that an incremental backup holds
    nothing. *)

From Stdlib Require Import Ascii String.
From S2P Require Import Prelude KvNode KvMap ChunkHash Core Calendar GoStrings GoText Envelope FastCDC ChunkIndex Pipeline PipelineProofs Manifest Engine Resp.
Local Open Scope Z_scope.

Record keyRecord := mkKeyRecord { kr_Key : string; kr_Type : string; kr_TTLMillis : Z; kr_Dump : bytes }.
Record aclRecord := mkAclRecord { ar_Users : list string }.
Record streamCommandRecord := mkStreamCommand { sm_Command : list string; sm_Args : list string }.

Definition useRedisNativeProtocol (target : DTarget) : bool :=
  let value := ToLower (TrimSpace (firstNonEmpty
    [mget (dt_Connection target) "protocol"; mget (dt_Connection target) "native_protocol"; mget (dt_Connection target) "native";
     mget (dt_Options target) "protocol"; mget (dt_Options target) "native_protocol"; mget (dt_Options target) "native"])) in
  negb (existsb (String.eqb value) ["scan+dump"; "shell"; "external"]).

(** The part of a line before its carriage return. *)
Definition trimCR (line : string) : string := TrimSuffix line (String "013" "").

Fixpoint info_lines (prefix : string) (lines : list string) : string :=
  match lines with
  | [] => ""
  | line :: rest =>
      let line := trimCR line in
      if HasPrefix line prefix then dropString (String.length prefix) line else info_lines prefix rest
  end.

Definition parseInfoField (info name : string) : string := info_lines (name ++ ":") (SplitOn "010" info).

Definition parseScanResponse (value : Value) : outcome (string * list string) :=
  match v_Array value with
  | [cursor; keyValues] =>
      if negb (Byte.eqb (v_Type value) TypeArray) then Err "unexpected SCAN response"
      else if negb (Byte.eqb (v_Type keyValues) TypeArray) then Err "unexpected SCAN key list"
      else Ok (v_String cursor, map v_String (v_Array keyValues))
  | _ => Err "unexpected SCAN response"
  end.

Section Redis.
  Context {S : Type} (serve : list string -> S -> bytes * S).
  Context (marshalKey : keyRecord -> bytes) (unmarshalKey : bytes -> option keyRecord)
          (marshalACL : aclRecord -> bytes) (unmarshalACL : bytes -> option aclRecord)
          (marshalCommand : streamCommandRecord -> bytes) (unmarshalCommand : bytes -> option streamCommandRecord)
          (unmarshalList : bytes -> option (list string)) (sscanf : string -> Z)
          (codec : RecordCodec).

(** A connection: what the server sent and was not read, and the server. *)
Record Conn := mkConn { cn_unread : bytes; cn_server : S }.

Definition Do (args : list string) : M Conn Value := fun c =>
  let '(sent, server) := serve args (cn_server c) in
  let '(r, rest) := Read (cn_unread c ++ sent) in
  let c := mkConn rest server in
  match r with
  | Ok value => if Byte.eqb (v_Type value) TypeError then (Err (v_String value), c) else (Ok value, c)
  | _ => (r, c)
  end.

Definition Auth (username password : string) : M Conn unit :=
  if String.eqb password "" then mret tt
  else
    value <-- Do (if String.eqb username "" then ["AUTH"; password] else ["AUTH"; username; password]) ;;
    if Byte.eqb (v_Type value) TypeSimpleString && String.eqb (v_String value) "OK" then mret tt
    else merr "unexpected AUTH response".

Definition Hello (version : Z) (username password : string) : M Conn Value :=
  if negb ((version =? 2) || (version =? 3)) then merr "unsupported RESP version"
  else Do (["HELLO"; Itoa version] ++
           (if String.eqb password "" then []
            else ["AUTH"; if String.eqb username "" then "default" else username; password])).

(** An error of [Hello] is followed by [Auth]. *)
Definition connect (target : DTarget) : M Conn unit := fun c =>
  let username := mget (dt_Connection target) "username" in
  let password := mget (dt_Connection target) "password" in
  match Hello 3 username password c with
  | (Ok _, c) => (Ok tt, c)
  | (Err _, c) => Auth username password c
  | (Panic e, c) => (Panic e, c)
  | (Fuel, c) => (Fuel, c)
  end.

Definition dialAddress (target : DTarget) : string :=
  let get := mget (dt_Connection target) in
  if negb (String.eqb (get "addr") "") then get "addr"
  else (if String.eqb (get "host") "" then "127.0.0.1" else get "host") ++ ":" ++
       (if String.eqb (get "port") "" then "6379" else get "port").

Definition RVersion (target : DTarget) : M Conn string :=
  _ <-- connect target ;;
  value <-- Do ["INFO"; "server"] ;;
  if Byte.eqb (v_Type value) TypeBulkString then mret (parseInfoField (v_String value) "redis_version")
  else merr "unexpected INFO response".

Definition RTest (target : DTarget) : M Conn unit :=
  _ <-- connect target ;;
  value <-- Do ["PING"] ;;
  if Byte.eqb (v_Type value) TypeSimpleString && String.eqb (v_String value) "PONG" then mret tt
  else merr "unexpected PING response".

(** ** Backups *)

(** A backup or a stream in progress: the connection and what was written. *)
Record Run (R : Type) := mkRun { rn_conn : Conn; rn_records : list R }.
Arguments mkRun {R} _ _.
Arguments rn_conn {R} _.
Arguments rn_records {R} _.

Definition onConn {R A} (m : M Conn A) : M (Run R) A := fun r =>
  let '(o, c) := m (rn_conn r) in (o, mkRun c (rn_records r)).

Definition write {R} (record : R) : M (Run R) unit := fun r => (Ok tt, mkRun (rn_conn r) (rn_records r ++ [record])).

Fixpoint acl_users (values : list Value) : outcome (list string) :=
  match values with
  | [] => Ok []
  | user :: rest =>
      if negb (Byte.eqb (v_Type user) TypeBulkString) && negb (Byte.eqb (v_Type user) TypeSimpleString)
      then Err "unexpected ACL LIST user entry"
      else users <~ acl_users rest ;; Ok (v_String user :: users)
  end.

Definition backupACL : M (Run DRecord) unit :=
  value <-- onConn (Do ["ACL"; "LIST"]) ;;
  if negb (Byte.eqb (v_Type value) TypeArray) then merr "unexpected ACL LIST response"
  else
    users <-- mlift (acl_users (v_Array value)) ;;
    let obj := mkObjectRef "" "acl" "acl" in
    _ <-- write (mkDRecord obj (marshalACL (mkAclRecord users)) 0 false) ;;
    write (mkDRecord obj [] (zlen users) true).

Definition backupKey (key : string) : M (Run DRecord) unit :=
  typeValue <-- onConn (Do ["TYPE"; key]) ;;
  ttlValue <-- onConn (Do ["PTTL"; key]) ;;
  dumpValue <-- onConn (Do ["DUMP"; key]) ;;
  if Byte.eqb (v_Type dumpValue) TypeBulkString && v_Null dumpValue then mret tt
  else
    let record := mkKeyRecord key (v_String typeValue) (v_Int ttlValue) (list_byte_of_string (v_String dumpValue)) in
    let obj := mkObjectRef "" key (v_String typeValue) in
    _ <-- write (mkDRecord obj (marshalKey record) 0 false) ;;
    write (mkDRecord obj [] 1 true).

Fixpoint backupKeys (keys : list string) : M (Run DRecord) unit :=
  match keys with
  | [] => mret tt
  | key :: rest => _ <-- backupKey key ;; backupKeys rest
  end.

(** [fuel] bounds the pages of the scan, which the server may never end. *)
Fixpoint scan_loop (fuel : nat) (cursor : string) : M (Run DRecord) unit :=
  match fuel with
  | O => mfuel
  | Datatypes.S fuel =>
      response <-- onConn (Do ["SCAN"; cursor; "COUNT"; "100"]) ;;
      page <-- mlift (parseScanResponse response) ;;
      _ <-- backupKeys page.2 ;;
      if String.eqb page.1 "0" then mret tt else scan_loop fuel page.1
  end.

Definition RBackupFull (fuel : nat) (target : DTarget) : M (Run DRecord) ResumePoint :=
  _ <-- onConn (connect target) ;;
  _ <-- backupACL ;;
  _ <-- scan_loop fuel "0" ;;
  mret (mkResumePoint "redis" "scan:0" 0 ∅).

Definition BackupIncrementalPSYNC (target : DTarget) (parent : Manifest) : M (Run DRecord) ResumePoint :=
  _ <-- onConn (connect target) ;;
  let masterRunID := default "*" (mf_Streams parent !! "redis_master_run_id") in
  let masterOffset := match mf_Streams parent !! "redis_master_offset" with Some text => sscanf text | None => 0 end in
  roleResult <-- onConn (Do ["ROLE"]) ;;
  match v_Array roleResult with
  | role :: _ =>
      if negb (Byte.eqb (v_Type roleResult) TypeArray) then merr "unexpected ROLE response"
      else if String.eqb (v_String role) "master" then merr "redis incremental backup requires replica mode"
      else
        infoResult <-- onConn (Do ["INFO"; "replication"]) ;;
        if negb (Byte.eqb (v_Type infoResult) TypeBulkString) then merr "unexpected INFO response"
        else
          let info := v_String infoResult in
          if String.eqb (parseInfoField info "master_link_status") "down" then merr "master link is down"
          else mret (mkResumePoint "redis" ("psync:" ++ masterRunID ++ ":" ++ Itoa masterOffset) 0
                       (<["master_host" := parseInfoField info "master_host"]>
                        (<["master_port" := parseInfoField info "master_port"]>
                         (<["master_run_id" := masterRunID]> {["master_offset" := Itoa masterOffset]}))))
  | [] => merr "unexpected ROLE response"
  end.

Definition RBackupIncremental (target : DTarget) (parent : Manifest) : M (Run DRecord) ResumePoint :=
  if negb (useRedisNativeProtocol target) then merr ErrIncrementalUnsupported
  else BackupIncrementalPSYNC target parent.

(** ** Restores *)

Fixpoint acl_loop (dryRun : bool) (users : list string) : M Conn unit :=
  match users with
  | [] => mret tt
  | user :: rest =>
      match Fields user with
      | word :: name :: rules =>
          if negb (String.eqb word "user") then merr "invalid ACL user entry"
          else if dryRun then acl_loop dryRun rest
          else _ <-- Do (["ACL"; "SETUSER"; name] ++ rules) ;; acl_loop dryRun rest
      | _ => merr "invalid ACL user entry"
      end
  end.

Definition restoreACL (payload : bytes) (opts : RestoreOptions) : M Conn unit :=
  match unmarshalACL payload with
  | None => merr "json: acl"
  | Some record => acl_loop (ro_DryRun opts) (ar_Users record)
  end.

Definition restoreArgs (record : keyRecord) (opts : RestoreOptions) : list string :=
  ["RESTORE"; kr_Key record; Itoa (kr_TTLMillis record); string_of_list_byte (kr_Dump record)] ++
  (if ro_ReplaceExisting opts then ["REPLACE"] else []).

Definition restoreRecord (record : DRecord) (opts : RestoreOptions) : M Conn unit :=
  if rc_Done record then mret tt
  else if String.eqb (ob_Kind (rc_Object record)) "acl" then restoreACL (rc_Payload record) opts
  else match unmarshalKey (rc_Payload record) with
       | None => merr "json: key"
       | Some redisRecord =>
           if ro_DryRun opts then mret tt
           else _ <-- Do (restoreArgs redisRecord opts) ;; mret tt
       end.

(** The records and what NextRecord reports after them. *)
Fixpoint restore_records (records : list DRecord) (last : string) (opts : RestoreOptions) : M Conn unit :=
  match records with
  | [] => if String.eqb last EOF then mret tt else merr last
  | record :: rest => _ <-- restoreRecord record opts ;; restore_records rest last opts
  end.

Definition RRestore (target : DTarget) (records : list DRecord) (last : string) (opts : RestoreOptions) : M Conn unit :=
  _ <-- connect target ;; restore_records records last opts.

(** ** Streams *)

Definition parseStreamCommand (payload : bytes) : outcome (list string) :=
  match unmarshalList payload with
  | Some command => Ok command
  | None =>
      match unmarshalCommand payload with
      | None => Err "json: command"
      | Some record => Ok (sm_Command record ++ sm_Args record)
      end
  end.

Definition replayCommand (command : list string) : M Conn unit :=
  match command with [] => mret tt | _ => _ <-- Do command ;; mret tt end.

Fixpoint replay_loop (records : list StreamRecord) (last : string) (targetPoint : ReplayTarget) : M Conn unit :=
  match records with
  | [] => if String.eqb last EOF then mret tt else merr last
  | record :: rest =>
      if negb (TimeIsZero (rt_Time targetPoint)) && (rt_Time targetPoint <? rp_Time (sr_ResumePoint record)) then mret tt
      else
        command <-- mlift (parseStreamCommand (sr_Payload record)) ;;
        _ <-- replayCommand command ;;
        if negb (String.eqb (rt_Position targetPoint) "") && String.eqb (rp_Position (sr_ResumePoint record)) (rt_Position targetPoint)
        then mret tt else replay_loop rest last targetPoint
  end.

Definition ReplayStream (target : DTarget) (records : list StreamRecord) (last : string) (targetPoint : ReplayTarget) : M Conn unit :=
  _ <-- connect target ;; replay_loop records last targetPoint.

(** A replay that stops before the first record past its target. *)
Fixpoint aofReplayStream (records : list StreamRecord) (last : string) (targetPoint : ReplayTarget) : M Conn unit :=
  match records with
  | [] => if String.eqb last EOF then mret tt else merr last
  | record :: rest =>
      let point := sr_ResumePoint record in
      if negb (TimeIsZero (rt_Time targetPoint)) && negb (TimeIsZero (rp_Time point)) && (rt_Time targetPoint <? rp_Time point)
      then mret tt
      else if negb (String.eqb (rt_Position targetPoint) "") && String.leb (rt_Position targetPoint) (rp_Position point)
      then mret tt
      else
        command <-- mlift (parseStreamCommand (sr_Payload record)) ;;
        _ <-- replayCommand command ;;
        aofReplayStream rest last targetPoint
  end.

(** One record of the replication stream, at the offset seen last. *)
Definition waitRecord (lastOffset : Z) (now : Time) : StreamRecord :=
  mkStreamRecord (mkResumePoint "redis" ("offset:" ++ Itoa lastOffset) now {["master_offset" := Itoa lastOffset]})
    (marshalCommand (mkStreamCommand ["WAIT"; "1"; "0"] [])).

(** At most a thousand events; [clock] gives the time of each. *)
Fixpoint capture_loop (events : nat) (clock : nat -> Time) (lastOffset : Z) : M (Run StreamRecord) unit :=
  match events with
  | O => mret tt
  | Datatypes.S events =>
      value <-- onConn (Do ["WAIT"; "1"; "0"]) ;;
      let lastOffset := if Byte.eqb (v_Type value) TypeInteger && (0 <? v_Int value) then v_Int value else lastOffset in
      _ <-- write (waitRecord lastOffset (clock events)) ;;
      capture_loop events clock lastOffset
  end.

Definition captureReplicationStream (clock : nat -> Time) : M (Run StreamRecord) unit := capture_loop 1000 clock 0.

Definition psyncStreaming (target : DTarget) (rp : ResumePoint) (clock : nat -> Time) : M (Run StreamRecord) unit :=
  let id := mget (rp_Metadata rp) "master_run_id" in
  let masterRunID := if String.eqb id "" then "*" else id in
  let offset := mget (rp_Metadata rp) "master_offset" in
  let masterOffset := if String.eqb offset "" then 0 else sscanf offset in
  _ <-- onConn (Do ["REPLICAOF"; mget (dt_Connection target) "master_host"; mget (dt_Connection target) "master_port"]) ;;
  psyncResult <-- onConn (Do ["PSYNC"; masterRunID; Itoa masterOffset]) ;;
  _ <-- (if Byte.eqb (v_Type psyncResult) TypeError
         then if String.eqb (v_String psyncResult) "UNKNOWN" then _ <-- onConn (Do ["PSYNC"; "?"; "1"]) ;; mret tt
              else merr "psync error"
         else mret tt) ;;
  captureReplicationStream clock.

(** Without a native protocol or a position the call waits until its context
    is cancelled. *)
Definition RStream (target : DTarget) (rp : ResumePoint) (clock : nat -> Time) : M (Run StreamRecord) unit :=
  if negb (useRedisNativeProtocol target) || String.eqb (rp_Driver rp) "" || String.eqb (rp_Position rp) ""
  then merr "context canceled"
  else _ <-- onConn (connect target) ;; psyncStreaming target rp clock.

(** The driver as the engine sees it; every call dials a connection to the
    server in the state [s]. *)
Definition redisDriver (s : S) (fuel : nat) : Driver :=
  let dial := mkConn [] s in
  mkDriver "redis" (fun target => (RVersion target dial).1)
    (fun target => let '(r, run) := RBackupFull fuel target (mkRun dial []) in (rn_records run, r))
    (fun target parent => let '(r, run) := RBackupIncremental target parent (mkRun dial []) in (rn_records run, r))
    (fun target opts => readsAll (H := codec) (fun records last => (RRestore target records last opts dial).1)).
End Redis.
Arguments mkRun {S R} _ _.
Arguments rn_conn {S R} _.
Arguments rn_records {S R} _.

(** ** Connections in step

    A server that answers every command with one complete value keeps the
    connection in step: nothing unread is left. *)

Section Laws.
  Context {S : Type} (serve : list string -> S -> bytes * S).
  Context (marshalKey : keyRecord -> bytes) (unmarshalKey : bytes -> option keyRecord)
          (marshalACL : aclRecord -> bytes) (unmarshalACL : bytes -> option aclRecord) (sscanf : string -> Z).

Definition in_step : Prop := forall args s, exists v, Read (serve args s).1 = (Ok v, []).

(** The server answers [args] with [reply]. *)
Definition replies (args : list string) (reply : bytes) : Prop := forall s, (serve args s).1 = reply.

Lemma Do_synced args s : in_step ->
  exists v, Read (serve args s).1 = (Ok v, []) /\
    Do serve args (mkConn [] s) =
      ((if Byte.eqb (v_Type v) TypeError then Err (v_String v) else Ok v), mkConn [] (serve args s).2).
Proof.
  intros St. destruct (St args s) as [v E]. exists v. split; [done|]. unfold Do. cbn [cn_server cn_unread app].
  destruct (serve args s) as [sent s'] eqn:Es. cbn [fst snd] in *. rewrite E. now destruct (Byte.eqb (v_Type v) TypeError).
Qed.

(** [m] leaves a connection in step in step. *)
Definition stays {A} (m : M (Conn (S := S)) A) : Prop := forall s, exists s', (m (mkConn [] s)).2 = mkConn [] s'.

Lemma stays_ret {A} (a : A) : stays (mret a).
Proof. intros s. eexists. reflexivity. Qed.

Lemma stays_err {A} e : stays (merr e : M _ A).
Proof. intros s. eexists. reflexivity. Qed.

Lemma stays_bind {A B} (m : M _ A) (f : A -> M _ B) : stays m -> (forall a, stays (f a)) -> stays (x <-- m ;; f x).
Proof.
  intros Hm Hf s. destruct (Hm s) as [s1 E]. unfold mbind. destruct (m (mkConn [] s)) as [[a|e|e|] c]; simpl in *; subst; eauto.
  apply Hf.
Qed.

Context (step : in_step).

Lemma stays_Do args : stays (Do serve args).
Proof. intros s. destruct (Do_synced args s step) as (v & _ & ->). eexists. reflexivity. Qed.

Lemma stays_Auth username password : stays (Auth serve username password).
Proof.
  unfold Auth. destruct (String.eqb password ""); [apply stays_ret|].
  apply stays_bind; [apply stays_Do|]. intros v. destruct (_ && _); [apply stays_ret|apply stays_err].
Qed.

Lemma stays_connect target : stays (connect serve target).
Proof.
  intros s. unfold connect, Hello. cbn [Z.eqb negb orb Pos.eqb].
  destruct (Do_synced (["HELLO"; Itoa 3] ++ (if String.eqb (mget (dt_Connection target) "password") "" then []
            else ["AUTH"; if String.eqb (mget (dt_Connection target) "username") "" then "default" else mget (dt_Connection target) "username";
                  mget (dt_Connection target) "password"])) s step) as (v & _ & E).
  rewrite E. destruct (Byte.eqb (v_Type v) TypeError); [apply stays_Auth|eexists; reflexivity].
Qed.

Lemma stays_acl dryRun users : stays (acl_loop serve dryRun users).
Proof.
  induction users as [|user users IH]; [apply stays_ret|]. cbn [acl_loop].
  destruct (Fields user) as [|word [|name rules]]; [apply stays_err..|]. destruct (negb _); [apply stays_err|].
  destruct dryRun; [exact IH|]. apply stays_bind; [apply stays_Do|done].
Qed.

Lemma stays_record record opts : stays (restoreRecord serve unmarshalKey unmarshalACL record opts).
Proof.
  unfold restoreRecord, restoreACL. destruct (rc_Done record); [apply stays_ret|]. destruct (String.eqb _ _).
  - destruct (unmarshalACL _); [apply stays_acl|apply stays_err].
  - destruct (unmarshalKey _); [|apply stays_err]. destruct (ro_DryRun opts); [apply stays_ret|].
    apply stays_bind; [apply stays_Do|intros; apply stays_ret].
Qed.

(** A record that is refused on every connection in step makes every restore
    fail that contains it. *)
Lemma refused_record record opts : (forall s, is_ok (restoreRecord serve unmarshalKey unmarshalACL record opts (mkConn [] s)).1 = false) ->
  forall records last s, In record records ->
  is_ok (restore_records serve unmarshalKey unmarshalACL records last opts (mkConn [] s)).1 = false.
Proof.
  intros Hr records last. induction records as [|x records IH]; intros s [].
  - subst x. cbn [restore_records]. unfold mbind. specialize (Hr s).
    destruct (restoreRecord _ _ _ record opts (mkConn [] s)) as [[u|e|e|] c]; done.
  - cbn [restore_records]. unfold mbind. destruct (stays_record x opts s) as [s1 E].
    destruct (restoreRecord _ _ _ x opts (mkConn [] s)) as [[u|e|e|] c]; [|done..]. simpl in E. subst c. now apply IH.
Qed.

(** ** Keys without expiry *)

(** A reply in step is read in one piece. *)
Lemma Do_reply args reply s v : replies args reply -> Read reply = (Ok v, []) -> Byte.eqb (v_Type v) TypeError = false ->
  Do serve args (mkConn [] s) = (Ok v, mkConn [] (serve args s).2).
Proof.
  intros Hr Hv Ht. destruct (Do_synced args s step) as (v' & E & ->). rewrite Hr, Hv in E. injection E as <-. now rewrite Ht.
Qed.

Definition integerValue (n : Z) : Value := mkValue TypeInteger "" n [] false.
Definition statusValue (s : string) : Value := mkValue TypeSimpleString s 0 [] false.

(** A key without expiry cannot be restored: PTTL answers -1 for it, a
    backup records that number, and RESTORE refuses a negative one: every
    restore of records that contain such a key fails, whatever else they
    contain, unless it is a dry run. *)
Theorem persistent_key_unrestorable key ty data rTYPE rPTTL rDUMP (rs : list DRecord) s :
  replies ["TYPE"; key]%string rTYPE -> Read rTYPE = (Ok (statusValue ty), []) ->
  replies ["PTTL"; key]%string rPTTL -> Read rPTTL = (Ok (integerValue (-1)), []) ->
  replies ["DUMP"; key]%string rDUMP -> Read rDUMP = (Ok (bulkValue data), []) ->
  (forall k dump more s, exists e, Read (serve (["RESTORE"; k; "-1"; dump]%string ++ more) s).1 = (Ok (mkValue TypeError e 0 [] false), [])) ->
  ty <> "acl"%string ->
  let saved := mkKeyRecord key ty (-1) (list_byte_of_string data) in
  unmarshalKey (marshalKey saved) = Some saved ->
  let record := mkDRecord (mkObjectRef "" key ty) (marshalKey saved) 0 false in
  (exists s', backupKey serve marshalKey key (mkRun (mkConn [] s) rs) =
     (Ok tt, mkRun (mkConn [] s') (rs ++ [record] ++ [mkDRecord (mkObjectRef "" key ty) [] 1 true]))) /\
  (forall target records last opts s', In record records -> ro_DryRun opts = false ->
     is_ok (RRestore serve unmarshalKey unmarshalACL target records last opts (mkConn [] s')).1 = false).
Proof.
  intros T1 T2 P1 P2 D1 D2 Refuse Hty saved Json record. split.
  - unfold backupKey, onConn, write, mbind. cbn [rn_conn rn_records].
    rewrite (Do_reply _ _ _ _ T1 T2) by done. cbn [rn_conn]. rewrite (Do_reply _ _ _ _ P1 P2) by done. cbn [rn_conn].
    rewrite (Do_reply _ _ _ _ D1 D2) by done. cbn. rewrite <- app_assoc. eexists. reflexivity.
  - intros target records last opts s' Hin Hdry. unfold RRestore, mbind.
    destruct (stays_connect target s') as [s1 E]. destruct (connect serve target (mkConn [] s')) as [[u|e|e|] c]; [|done..].
    simpl in E. subst c. apply (refused_record record); [|done]. intros s2. unfold restoreRecord.
    cbn [rc_Done rc_Object ob_Kind rc_Payload record]. apply String.eqb_neq in Hty. rewrite Hty, Json, Hdry.
    unfold mbind, restoreArgs. cbn [kr_Key kr_TTLMillis kr_Dump saved].
    destruct (Do_synced (["RESTORE"; key; Itoa (-1); string_of_list_byte (list_byte_of_string data)] ++
      (if ro_ReplaceExisting opts then ["REPLACE"] else [])) s2 step) as (v & Ev & ->).
    destruct (Refuse key (string_of_list_byte (list_byte_of_string data)) (if ro_ReplaceExisting opts then ["REPLACE"%string] else []) s2) as (e & Ee).
    change (Itoa (-1)) with "-1"%string in Ev. rewrite Ee in Ev. injection Ev as <-. done.
Qed.
End Laws.

(** ** Servers on which no backup starts *)

Lemma read_stray d l :
  ~ In d [TypeSimpleString; TypeError; TypeInteger; TypeBulkString; TypeArray; TypeNull] ->
  Read (d :: l) = (Err "unsupported RESP type", l).
Proof.
  intros Hd. unfold Read. rewrite Nat.add_1_r. cbn [ReadValue].
  assert (N : forall t, In t [TypeSimpleString; TypeError; TypeInteger; TypeBulkString; TypeArray; TypeNull] -> Byte.eqb d t = false).
  { intros t Ht. destruct (Byte.eqb d t) eqn:E; [|done]. apply Byte.byte_dec_bl in E. now subst. }
  rewrite !N by (simpl; tauto). done.
Qed.

Section Start.
  Context {S : Type} (serve : list string -> S -> bytes * S).
  Context (marshalKey : keyRecord -> bytes) (marshalACL : aclRecord -> bytes) (sscanf : string -> Z).

(** A byte that starts no reply the reader knows, such as a digit or the
    percent sign of a map. *)
Definition stray (d : byte) : Prop :=
  ~ In d [TypeSimpleString; TypeError; TypeInteger; TypeBulkString; TypeArray; TypeNull].

Lemma Do_stray args s d l : stray d ->
  exists l', Do serve args (mkConn (d :: l) s) = (Err "unsupported RESP type", mkConn (l ++ l') (serve args s).2).
Proof.
  intros Hd. unfold Do. cbn [cn_server cn_unread]. destruct (serve args s) as [sent s'].
  cbn [app]. rewrite read_stray by done. eexists. reflexivity.
Qed.

(** Answers of a server that only knows errors for a command. *)
Definition refuses_command (name : string) : Prop :=
  forall args s, exists e, Read (serve (name :: args) s).1 = (Ok (mkValue TypeError e 0 [] false), []).

Lemma Do_refused name args s : refuses_command name ->
  exists e, Do serve (name :: args) (mkConn [] s) = (Err e, mkConn [] (serve (name :: args) s).2).
Proof.
  intros R. destruct (R args s) as [e E]. exists e. unfold Do. cbn [cn_server cn_unread app].
  destruct (serve (name :: args) s) as [sent s']. cbn [fst snd] in *. now rewrite E.
Qed.

(** The backup fails when the list of users cannot be read. *)
Lemma backup_needs_acl fuel target s c rs e c' :
  connect serve target (mkConn [] s) = (Ok tt, c) -> Do serve ["ACL"; "LIST"]%string c = (Err e, c') ->
  RBackupFull serve marshalKey marshalACL fuel target (mkRun (mkConn [] s) rs) = (Err e, mkRun c' rs).
Proof.
  intros C D. unfold RBackupFull, mbind at 1, onConn at 1. cbn [rn_conn rn_records]. rewrite C.
  unfold mbind at 1, backupACL, mbind at 1, onConn. cbn [rn_conn rn_records]. now rewrite D.
Qed.

(** No full backup of Redis starts. A server that knows RESP3 answers
    HELLO 3 with a map, which the reader does not know: it takes one byte of
    the answer and leaves the rest in the way of the next reply. A server that
    knows neither HELLO nor ACL refuses the listing of users. In both cases
    the backup fails and writes no record. *)
Theorem redis_backup_cannot_start fuel target s :
  ((forall args s, exists d body, (serve ("HELLO" :: "3" :: args)%string s).1 = Byte.x25 :: d :: body /\ stray d) ->
   exists e run, RBackupFull serve marshalKey marshalACL fuel target (mkRun (mkConn [] s) []) = (Err e, run) /\ rn_records run = []) /\
  (in_step serve -> refuses_command "HELLO" -> refuses_command "ACL" ->
   exists e run, RBackupFull serve marshalKey marshalACL fuel target (mkRun (mkConn [] s) []) = (Err e, run) /\ rn_records run = []).
Proof.
  split.
  - intros Maps. set (password := mget (dt_Connection target) "password").
    set (username := mget (dt_Connection target) "username").
    set (more := if String.eqb password "" then [] else ["AUTH"; if String.eqb username "" then "default" else username; password]%string).
    destruct (Maps more s) as (d & body & E & Hd).
    assert (H3 : Do serve ("HELLO" :: "3" :: more)%string (mkConn [] s) =
                 (Err "unsupported RESP type", mkConn (d :: body) (serve ("HELLO" :: "3" :: more)%string s).2)).
    { unfold Do. cbn [cn_server cn_unread app]. destruct (serve _ s) as [sent s'] eqn:Es. cbn [fst snd] in *. subst sent.
      rewrite read_stray; [done|]. simpl. intros C. repeat (destruct C as [C|C]; [discriminate|]). done. }
    assert (C : exists c, connect serve target (mkConn [] s) = Auth serve username password c /\ c = mkConn (d :: body) (serve ("HELLO" :: "3" :: more)%string s).2).
    { eexists. split; [|reflexivity]. unfold connect, Hello. fold password username. cbn [Z.eqb Pos.eqb orb negb]. fold more.
      change (["HELLO"; Itoa 3]%string ++ more) with ("HELLO" :: "3" :: more)%string. now rewrite H3. }
    destruct C as (c & C & ->). unfold Auth in C. destruct (String.eqb password "").
    + destruct (Do_stray ["ACL"; "LIST"]%string (serve ("HELLO" :: "3" :: more)%string s).2 d body Hd) as (l' & D).
      eexists _, _. split; [eapply backup_needs_acl; [exact C|exact D]|done].
    + destruct (Do_stray (if String.eqb username "" then ["AUTH"; password] else ["AUTH"; username; password])%string
                  (serve ("HELLO" :: "3" :: more)%string s).2 d body Hd) as (l' & D).
      unfold mbind in C. rewrite D in C. unfold RBackupFull, mbind at 1, onConn at 1. cbn [rn_conn rn_records]. rewrite C.
      eexists _, _. split; [reflexivity|done].
  - intros St RH RA. destruct (stays_connect serve St target s) as [s1 E].
    destruct (connect serve target (mkConn [] s)) as [r c] eqn:C. simpl in E. subst c.
    assert (Hr : (exists e, r = Err e) \/ r = Ok tt).
    { unfold connect, Hello in C. cbn [Z.eqb Pos.eqb orb negb] in C.
      match type of C with context [Do serve (["HELLO"; Itoa 3]%string ++ ?m)] =>
        destruct (Do_refused "HELLO" (Itoa 3 :: m) s RH) as (e & D); change (["HELLO"; Itoa 3]%string ++ m) with ("HELLO" :: Itoa 3 :: m)%string in C; rewrite D in C end.
      unfold Auth in C. destruct (String.eqb _ ""); [injection C as <- _; auto|]. unfold mbind in C.
      match type of C with context [Do serve ?a (mkConn [] ?x)] => destruct (Do_synced serve a x St) as (v & _ & D2); rewrite D2 in C end.
      destruct (Byte.eqb (v_Type v) TypeError); [injection C as <- _; eauto|].
      destruct (_ && _); injection C as <- _; eauto. }
    destruct Hr as [[e ->]| ->].
    + unfold RBackupFull, mbind at 1, onConn at 1. cbn [rn_conn rn_records]. rewrite C. eexists _, _. split; [reflexivity|done].
    + destruct (Do_refused "ACL" ["LIST"%string] s1 RA) as (e & D).
      eexists _, _. split; [eapply backup_needs_acl; [exact C|exact D]|done].
Qed.

(** An incremental backup of Redis over its native protocol writes no
    record: when it succeeds, the changes since its parent are nowhere, and a
    restore of the chain gives the state of the parent. *)
Theorem redis_incremental_is_empty target parent (run run' : Run (S := S) DRecord) rp :
  RBackupIncremental serve sscanf target parent run = (Ok rp, run') -> rn_records run' = rn_records run.
Proof.
  assert (OC : forall A (m : M (Conn (S := S)) A) (r r' : Run (S := S) DRecord) x, onConn m r = (x, r') -> rn_records r' = rn_records r).
  { intros A m r r' x. unfold onConn. destruct (m (rn_conn r)) as [o c]. now intros [= _ <-]. }
  unfold RBackupIncremental. destruct (negb _); [done|]. unfold BackupIncrementalPSYNC. intros E.
  apply mbind_ok in E as (u & r1 & E1 & E). apply OC in E1.
  apply mbind_ok in E as (role & r2 & E2 & E). apply OC in E2.
  destruct (v_Array role) as [|v vs]; [done|]. destruct (negb _); [done|]. destruct (String.eqb _ "master"); [done|].
  apply mbind_ok in E as (info & r3 & E3 & E). apply OC in E3.
  destruct (negb _); [done|]. destruct (String.eqb _ "down"); [done|]. injection E as _ <-. congruence.
Qed.
End Start.

(** ** Runs of the Redis driver

    Concrete servers for the theorems about the Redis driver: one that holds a
    single key without expiry, one that answers HELLO with a map, one that
    knows neither HELLO nor ACL, and a replica. *)

(** A reply in one line. *)
Definition lineReply (s : string) : bytes := list_byte_of_string s ++ crlf.

(** The server of one key "k" that never expires. *)
Definition oneKey (args : list string) (s : unit) : bytes * unit :=
  (match args with
   | name :: _ =>
       if String.eqb name "TYPE" then lineReply "+string"
       else if String.eqb name "PTTL" then lineReply ":-1"
       else if String.eqb name "DUMP" then encodeArg "v"
       else if String.eqb name "RESTORE" then lineReply "-ERR Invalid TTL value, must be >= 0"
       else if String.eqb name "ACL" then lineReply "*0"
       else if String.eqb name "SCAN" then lineReply "*2" ++ encodeArg "0" ++ lineReply "*1" ++ encodeArg "k"
       else lineReply "-ERR unknown command"
   | [] => lineReply "-ERR empty command"
   end, s).

(** Records of keys as lists of four words. *)
Definition keyWords (r : keyRecord) : bytes :=
  EncodeCommand [kr_Key r; kr_Type r; Itoa (kr_TTLMillis r); string_of_list_byte (kr_Dump r)].

Definition keyOfWords (l : bytes) : option keyRecord :=
  match (Read l).1 with
  | Ok (mkValue _ _ _ [k; t; n; d] _) =>
      match Atoi (v_String n) with
      | Some ttl => Some (mkKeyRecord (v_String k) (v_String t) ttl (list_byte_of_string (v_String d)))
      | None => None
      end
  | _ => None
  end.

Definition noWords (l : bytes) : option aclRecord := None.
Definition aclWords (r : aclRecord) : bytes := EncodeCommand (ar_Users r).

Lemma oneKey_in_step : in_step oneKey.
Proof.
  intros args s. unfold oneKey. cbn [fst]. destruct args as [|name args].
  - eexists. vm_compute. reflexivity.
  - repeat (destruct (String.eqb name _); [eexists; vm_compute; reflexivity|]). eexists. vm_compute. reflexivity.
Qed.

Definition plainTarget : DTarget := mkDTarget "redis" "redis" ∅ ∅.

(** The whole backup of that server: the users, the key and its end. *)
Example one_key_backup :
  match RBackupFull oneKey keyWords aclWords 1 plainTarget (mkRun (mkConn [] tt) []) with
  | (Ok rp, run) => (map rc_Done (rn_records run), map (fun r => keyOfWords (rc_Payload r)) (skipn 2 (rn_records run)))
  | _ => ([], [])
  end = ([false; true; false; true], [Some (mkKeyRecord "k" "string" (-1) [Byte.x76]); None]).
Proof. vm_compute. reflexivity. Qed.

Lemma persistent_key_unrestorable_witness :
  exists s', backupKey oneKey keyWords "k" (mkRun (mkConn [] tt) []) = (Ok tt, mkRun (mkConn [] s')
    [mkDRecord (mkObjectRef "" "k" "string") (keyWords (mkKeyRecord "k" "string" (-1) (list_byte_of_string "v"))) 0 false;
     mkDRecord (mkObjectRef "" "k" "string") [] 1 true]).
Proof.
  refine (proj1 (persistent_key_unrestorable oneKey keyWords keyOfWords noWords oneKey_in_step
    "k" "string" "v" (lineReply "+string") (lineReply ":-1") (encodeArg "v") [] tt _ _ _ _ _ _ _ _ _)).
  - intros s. reflexivity.
  - vm_compute. reflexivity.
  - intros s. reflexivity.
  - vm_compute. reflexivity.
  - intros s. reflexivity.
  - vm_compute. reflexivity.
  - intros k dump more s. eexists. vm_compute. reflexivity.
  - discriminate.
  - vm_compute. reflexivity.
Defined.

(** A server of version 6 or later, and one of version 5. *)
Definition knowsResp3 (args : list string) (s : unit) : bytes * unit :=
  (match args with
   | name :: _ => if String.eqb name "HELLO" then lineReply "%1" ++ encodeArg "server" ++ encodeArg "redis" else lineReply "*0"
   | [] => lineReply "-ERR empty command"
   end, s).

Definition knowsNoAcl (args : list string) (s : unit) : bytes * unit := (lineReply "-ERR unknown command", s).

Lemma redis_backup_cannot_start_witness :
  (exists e run, RBackupFull knowsResp3 keyWords aclWords 5 plainTarget (mkRun (mkConn [] tt) []) = (Err e, run) /\ rn_records run = []) /\
  (exists e run, RBackupFull knowsNoAcl keyWords aclWords 5 plainTarget (mkRun (mkConn [] tt) []) = (Err e, run) /\ rn_records run = []).
Proof.
  split.
  - apply (proj1 (redis_backup_cannot_start knowsResp3 keyWords aclWords 5 plainTarget tt)).
    intros args s. eexists _, _. split; [reflexivity|]. vm_compute. intuition discriminate.
  - apply (proj2 (redis_backup_cannot_start knowsNoAcl keyWords aclWords 5 plainTarget tt)).
    + intros args s. eexists. vm_compute. reflexivity.
    + intros args s. eexists. vm_compute. reflexivity.
    + intros args s. eexists. vm_compute. reflexivity.
Defined.

(** A replica whose link is up. *)
Definition replica (args : list string) (s : unit) : bytes * unit :=
  (match args with
   | name :: _ =>
       if String.eqb name "ROLE" then lineReply "*1" ++ encodeArg "slave"
       else if String.eqb name "INFO" then encodeArg "master_link_status:up"
       else lineReply "+OK"
   | [] => lineReply "+OK"
   end, s).

Definition fullManifest : Manifest :=
  mkManifest 1 "full" "redis" (mkMDriver "redis" "7" "dev") "full" None 1 2 "none" (mkMEncryption "aes-256-gcm" "k" "none") (mkMStats 0 0 0 (0, 1)) []
    ∅ None.

Lemma redis_incremental_is_empty_witness :
  rn_records (RBackupIncremental replica (fun _ => 0) plainTarget fullManifest (mkRun (mkConn [] tt) [])).2 = [].
Proof.
  eapply (redis_incremental_is_empty replica (fun _ => 0) plainTarget fullManifest (mkRun (mkConn [] tt) [])).
  vm_compute. reflexivity.
Defined.
