(* ===== verification/PgText.v ===== *)
(** * The text of a PostgreSQL dump

    Models the records, the catalogue queries and the writers of
    src/internal/drivers/postgres/native_backup.go. A writer is the text it
    appends to the payload. *)

From Stdlib Require Import Ascii String.
From S2P Require Import Prelude ChunkHash Core GoStrings GoText.
Local Open Scope string_scope.

Record pgNativeTable := mkTable { tb_Schema : string; tb_Name : string }.
Record pgNativeColumn := mkColumn { cl_Name : string; cl_Type : string; cl_NotNull : bool; cl_Default : option string }.
Record pgNativeConstraint := mkConstraint { ct_Name : string; ct_Definition : string }.
Record pgNativeExtension := mkExtension { ex_Name : string; ex_Schema : string; ex_Version : string }.
Record pgNativeType := mkType { ty_Schema : string; ty_Definition : string }.
Record pgNativeSequence := mkSequence
  { sq_Schema : string; sq_Name : string; sq_DataType : string; sq_StartValue : string; sq_MinValue : string;
    sq_MaxValue : string; sq_IncrementBy : string; sq_CacheSize : string; sq_Cycle : bool; sq_LastValue : option string;
    sq_OwnedSchema : string; sq_OwnedTable : string; sq_OwnedColumn : string }.
Record pgNativeView := mkView { vw_Schema : string; vw_Name : string; vw_Definition : string; vw_Materialized : bool }.

(** Values of a row, [None] for NULL. Indexes, triggers and routines are their
    definitions. *)
Definition pgRow : Type := list (option string).
Record pgNativeTableDump := mkTableDump
  { td_Table : pgNativeTable; td_Columns : list pgNativeColumn; td_Rows : list pgRow;
    td_Constraints : list pgNativeConstraint; td_Indexes : list string; td_Triggers : list string }.

(** ** Quoting *)

Definition quote : ascii := "'".
Definition dquote : ascii := "034".
Definition newline : string := String "010" "".

Definition quotedBy (q : ascii) (value : string) : string :=
  String q (ReplaceAll q (String q (String q "")) value ++ String q "").

Definition quotePGIdentifier (value : string) : string := quotedBy dquote value.
Definition quotePGLiteral (value : string) : string := quotedBy quote value.
Definition quotePGQualifiedName (schema name : string) : string :=
  quotePGIdentifier schema ++ "." ++ quotePGIdentifier name.

Definition parsePGBool (value : string) : bool :=
  existsb (String.eqb (ToLower (TrimSpace value))) ["t"; "true"; "1"; "yes"; "on"].

(** ** Queries of the catalogue *)

Definition pgNativeTablesQuery : string := "
select n.nspname as schema_name, c.relname as table_name
from pg_catalog.pg_class c
join pg_catalog.pg_namespace n on n.oid = c.relnamespace
where c.relkind in ('r', 'p')
  and n.nspname not in ('pg_catalog', 'information_schema')
  and n.nspname not like 'pg_toast%'
order by n.nspname, c.relname".

Definition pgNativeExtensionsQuery : string := "
select e.extname as extension_name,
       n.nspname as schema_name,
       e.extversion as extension_version
from pg_catalog.pg_extension e
join pg_catalog.pg_namespace n on n.oid = e.extnamespace
where e.extname <> 'plpgsql'
order by e.extname".

Definition pgNativeEnumTypesQuery : string := "
select n.nspname as schema_name,
       t.typname as type_name,
       string_agg(quote_literal(e.enumlabel), ', ' order by e.enumsortorder) as enum_labels
from pg_catalog.pg_type t
join pg_catalog.pg_namespace n on n.oid = t.typnamespace
join pg_catalog.pg_enum e on e.enumtypid = t.oid
where t.typtype = 'e'
  and n.nspname not in ('pg_catalog', 'information_schema')
  and n.nspname not like 'pg_toast%'
group by n.nspname, t.typname
order by n.nspname, t.typname".

Definition pgNativeDomainTypesQuery : string := "
select n.nspname as schema_name,
       t.typname as type_name,
       pg_catalog.format_type(t.typbasetype, t.typtypmod) as base_type,
       pg_catalog.pg_get_expr(t.typdefaultbin, 0) as domain_default,
       t.typnotnull::text as not_null,
       string_agg(pg_catalog.pg_get_constraintdef(con.oid, true), ' ' order by con.conname) as constraints
from pg_catalog.pg_type t
join pg_catalog.pg_namespace n on n.oid = t.typnamespace
left join pg_catalog.pg_constraint con on con.contypid = t.oid
where t.typtype = 'd'
  and n.nspname not in ('pg_catalog', 'information_schema')
  and n.nspname not like 'pg_toast%'
group by n.nspname, t.typname, t.typbasetype, t.typtypmod, t.typdefaultbin, t.typnotnull
order by n.nspname, t.typname".

Definition pgNativeSequencesQuery : string := "
select s.schemaname as schema_name,
       s.sequencename as sequence_name,
       s.data_type,
       s.start_value::text,
       s.min_value::text,
       s.max_value::text,
       s.increment_by::text,
       s.cache_size::text,
       s.cycle::text,
       s.last_value::text,
       tn.nspname as owned_schema,
       tc.relname as owned_table,
       ta.attname as owned_column
from pg_catalog.pg_sequences s
join pg_catalog.pg_class c on c.relkind = 'S' and c.relname = s.sequencename
join pg_catalog.pg_namespace n on n.oid = c.relnamespace and n.nspname = s.schemaname
left join pg_catalog.pg_depend d on d.objid = c.oid and d.deptype in ('a', 'i')
left join pg_catalog.pg_class tc on tc.oid = d.refobjid
left join pg_catalog.pg_namespace tn on tn.oid = tc.relnamespace
left join pg_catalog.pg_attribute ta on ta.attrelid = tc.oid and ta.attnum = d.refobjsubid
where s.schemaname not in ('pg_catalog', 'information_schema')
  and s.schemaname not like 'pg_toast%'
order by s.schemaname, s.sequencename".

Definition pgNativeViewsQuery : string := "
select n.nspname as schema_name,
       c.relname as view_name,
       c.relkind,
       pg_catalog.pg_get_viewdef(c.oid, true) as view_def
from pg_catalog.pg_class c
join pg_catalog.pg_namespace n on n.oid = c.relnamespace
where c.relkind in ('v', 'm')
  and n.nspname not in ('pg_catalog', 'information_schema')
  and n.nspname not like 'pg_toast%'
order by n.nspname, c.relname".

Definition pgNativeRoutinesQuery : string := "
select pg_catalog.pg_get_functiondef(p.oid) as routine_def
from pg_catalog.pg_proc p
join pg_catalog.pg_namespace n on n.oid = p.pronamespace
where p.prokind in ('f', 'p')
  and n.nspname not in ('pg_catalog', 'information_schema')
  and n.nspname not like 'pg_toast%'
order by n.nspname, p.proname, p.oid".

Definition pgNativeColumnsQuery (table : pgNativeTable) : string :=
  ("
select a.attname as column_name,
       pg_catalog.format_type(a.atttypid, a.atttypmod) as data_type,
       a.attnotnull::text as not_null,
       pg_catalog.pg_get_expr(ad.adbin, ad.adrelid) as column_default
from pg_catalog.pg_attribute a
join pg_catalog.pg_class c on c.oid = a.attrelid
join pg_catalog.pg_namespace n on n.oid = c.relnamespace
left join pg_catalog.pg_attrdef ad on ad.adrelid = a.attrelid and ad.adnum = a.attnum
where n.nspname = " ++ quotePGLiteral (tb_Schema table) ++ "
  and c.relname = " ++ quotePGLiteral (tb_Name table) ++ "
  and a.attnum > 0
  and not a.attisdropped
order by a.attnum")%string.

Definition pgNativeConstraintsQuery (table : pgNativeTable) : string :=
  ("
select con.conname as constraint_name,
       pg_catalog.pg_get_constraintdef(con.oid, true) as constraint_def
from pg_catalog.pg_constraint con
join pg_catalog.pg_class c on c.oid = con.conrelid
join pg_catalog.pg_namespace n on n.oid = c.relnamespace
where n.nspname = " ++ quotePGLiteral (tb_Schema table) ++ "
  and c.relname = " ++ quotePGLiteral (tb_Name table) ++ "
  and con.contype in ('p', 'u', 'c', 'f', 'x')
order by case when con.contype = 'f' then 1 else 0 end, con.conname")%string.

Definition pgNativeIndexesQuery (table : pgNativeTable) : string :=
  ("
select pg_catalog.pg_get_indexdef(i.indexrelid) as index_def
from pg_catalog.pg_index i
join pg_catalog.pg_class c on c.oid = i.indrelid
join pg_catalog.pg_namespace n on n.oid = c.relnamespace
join pg_catalog.pg_class ic on ic.oid = i.indexrelid
where n.nspname = " ++ quotePGLiteral (tb_Schema table) ++ "
  and c.relname = " ++ quotePGLiteral (tb_Name table) ++ "
  and not exists (
    select 1
    from pg_catalog.pg_constraint con
    where con.conindid = i.indexrelid
  )
order by ic.relname")%string.

Definition pgNativeTriggersQuery (table : pgNativeTable) : string :=
  ("
select pg_catalog.pg_get_triggerdef(t.oid, true) as trigger_def
from pg_catalog.pg_trigger t
join pg_catalog.pg_class c on c.oid = t.tgrelid
join pg_catalog.pg_namespace n on n.oid = c.relnamespace
where n.nspname = " ++ quotePGLiteral (tb_Schema table) ++ "
  and c.relname = " ++ quotePGLiteral (tb_Name table) ++ "
  and not t.tgisinternal
order by t.tgname")%string.

(** ** Writers *)

Definition semi (definition : string) : string := if HasSuffix definition ";" then definition else definition ++ ";".

Definition createSchema (schema : string) : string := "CREATE SCHEMA IF NOT EXISTS " ++ quotePGIdentifier schema.

(** The statement that creates a schema, before what is put into it. *)
Definition writeSchema (needed : bool) (schema : string) : string :=
  if needed then createSchema schema ++ ";" ++ newline else "".

Definition namedSchema (schema : string) : bool := negb (String.eqb schema "") && negb (String.eqb schema "public").

Definition createExtension (extension : pgNativeExtension) : string :=
  "CREATE EXTENSION IF NOT EXISTS " ++ quotePGIdentifier (ex_Name extension) ++
  (if negb (String.eqb (ex_Schema extension) "") then " WITH SCHEMA " ++ quotePGIdentifier (ex_Schema extension) else "") ++
  (if negb (String.eqb (ex_Version extension) "") then " VERSION " ++ quotePGLiteral (ex_Version extension) else "").

Definition writeNativeExtensionDefinition (extension : pgNativeExtension) : string :=
  writeSchema (namedSchema (ex_Schema extension)) (ex_Schema extension) ++
  createExtension extension ++ ";" ++ newline ++ newline.

Definition writeNativeTypeDefinition (typ : pgNativeType) : string :=
  let definition := TrimSpace (ty_Definition typ) in
  if String.eqb definition "" then ""
  else
    writeSchema (namedSchema (ty_Schema typ)) (ty_Schema typ) ++ semi definition ++ newline ++ newline.

Definition writeSequenceClause (prefix value : string) : string :=
  if String.eqb value "" then "" else prefix ++ value.

Definition createSequence (sequence : pgNativeSequence) : string :=
  "CREATE SEQUENCE " ++ quotePGQualifiedName (sq_Schema sequence) (sq_Name sequence) ++
  writeSequenceClause " AS " (sq_DataType sequence) ++
  writeSequenceClause " START WITH " (sq_StartValue sequence) ++
  writeSequenceClause " INCREMENT BY " (sq_IncrementBy sequence) ++
  writeSequenceClause " MINVALUE " (sq_MinValue sequence) ++
  writeSequenceClause " MAXVALUE " (sq_MaxValue sequence) ++
  writeSequenceClause " CACHE " (sq_CacheSize sequence) ++
  (if sq_Cycle sequence then " CYCLE" else " NO CYCLE").

Definition writeNativeSequenceDefinition (sequence : pgNativeSequence) : string :=
  writeSchema (negb (String.eqb (sq_Schema sequence) "public")) (sq_Schema sequence) ++
  createSequence sequence ++ ";" ++ newline ++ newline.

Definition ownSequence (sequence : pgNativeSequence) : string :=
  "ALTER SEQUENCE " ++ quotePGQualifiedName (sq_Schema sequence) (sq_Name sequence) ++ " OWNED BY " ++
  quotePGQualifiedName (sq_OwnedSchema sequence) (sq_OwnedTable sequence) ++ "." ++ quotePGIdentifier (sq_OwnedColumn sequence).

Definition unowned (sequence : pgNativeSequence) : bool :=
  String.eqb (sq_OwnedSchema sequence) "" || String.eqb (sq_OwnedTable sequence) "" || String.eqb (sq_OwnedColumn sequence) "".

Definition writeNativeSequenceOwnership (sequence : pgNativeSequence) : string :=
  if unowned sequence then "" else ownSequence sequence ++ ";" ++ newline ++ newline.

Definition setSequence (sequence : pgNativeSequence) (value : string) : string :=
  "SELECT pg_catalog.setval(" ++ quotePGLiteral (quotePGQualifiedName (sq_Schema sequence) (sq_Name sequence)) ++
  ", " ++ value ++ ", true)".

Definition writeNativeSequenceSetValue (sequence : pgNativeSequence) : string :=
  match sq_LastValue sequence with
  | None => ""
  | Some value =>
      if String.eqb value "" then ""
      else setSequence sequence value ++ ";" ++ newline
  end.

Definition createView (view : pgNativeView) : string :=
  (if vw_Materialized view then "CREATE MATERIALIZED VIEW " else "CREATE VIEW ") ++
  quotePGQualifiedName (vw_Schema view) (vw_Name view) ++ " AS" ++ newline.

Definition writeNativeViewDefinition (view : pgNativeView) : string :=
  writeSchema (negb (String.eqb (vw_Schema view) "public")) (vw_Schema view) ++
  createView view ++ TrimSpace (vw_Definition view) ++
  (if vw_Materialized view then newline ++ "WITH NO DATA;" else ";") ++ newline ++ newline.

Definition writeNativeRoutineDefinition (routine : string) : string :=
  let definition := TrimSpace routine in
  if String.eqb definition "" then "" else semi definition ++ newline ++ newline.

Definition writeColumn (column : pgNativeColumn) : string :=
  "  " ++ quotePGIdentifier (cl_Name column) ++ " " ++ cl_Type column ++
  match cl_Default column with
  | Some value => if negb (String.eqb value "") then " DEFAULT " ++ value else ""
  | None => ""
  end ++
  (if cl_NotNull column then " NOT NULL" else "").

Definition createTable (table : pgNativeTable) (columns : list pgNativeColumn) : string :=
  "CREATE TABLE " ++ quotePGQualifiedName (tb_Schema table) (tb_Name table) ++ " (" ++
  match columns with
  | [] => ""
  | _ => newline ++ Join (map writeColumn columns) ("," ++ newline) ++ newline
  end ++ ")".

Definition writeNativeTableDefinition (table : pgNativeTable) (columns : list pgNativeColumn) : string :=
  writeSchema (negb (String.eqb (tb_Schema table) "public")) (tb_Schema table) ++
  createTable table columns ++ ";" ++ newline ++ newline.

(** The value of the column at [i] of a row. *)
Definition insertValue (row : pgRow) (i : nat) : string :=
  match nth i row None with None => "NULL" | Some value => quotePGLiteral value end.

Definition insertRow (table : pgNativeTable) (columns : list pgNativeColumn) (row : pgRow) : string :=
  match columns with
  | [] => "INSERT INTO " ++ quotePGQualifiedName (tb_Schema table) (tb_Name table) ++ " DEFAULT VALUES"
  | _ => "INSERT INTO " ++ quotePGQualifiedName (tb_Schema table) (tb_Name table) ++ " (" ++
         Join (map (fun column => quotePGIdentifier (cl_Name column)) columns) ", " ++ ") VALUES (" ++
         Join (map (insertValue row) (seq 0 (length columns))) ", " ++ ")"
  end.

Definition writeNativeTableData (table : pgNativeTable) (columns : list pgNativeColumn) (rows : list pgRow) : string :=
  concatAll (map (fun row => insertRow table columns row ++ ";" ++ newline) rows) ++ newline.

Definition addConstraint (table : pgNativeTable) (constraint : pgNativeConstraint) : string :=
  "ALTER TABLE " ++ quotePGQualifiedName (tb_Schema table) (tb_Name table) ++ " ADD CONSTRAINT " ++
  quotePGIdentifier (ct_Name constraint) ++ " " ++ ct_Definition constraint.

(** A definition of the catalogue on a line of its own. *)
Definition writeDefinition (text : string) : string :=
  let definition := TrimSpace text in
  if String.eqb definition "" then "" else semi definition ++ newline.

Definition writeNativeTablePostData (table : pgNativeTable) (constraints : list pgNativeConstraint) (indexes triggers : list string) : string :=
  concatAll (map (fun constraint => addConstraint table constraint ++ ";" ++ newline) constraints) ++
  concatAll (map writeDefinition indexes) ++ concatAll (map writeDefinition triggers) ++
  match constraints, indexes, triggers with [], [], [] => "" | _, _, _ => newline end.

(** ** The payload of a backup *)

(** What a backup has read from its database. *)
Record PgDump := mkPgDump
  { pd_Extensions : list pgNativeExtension; pd_Types : list pgNativeType; pd_Sequences : list pgNativeSequence;
    pd_Dumps : list pgNativeTableDump; pd_Views : list pgNativeView; pd_Routines : list string }.

Definition pgDumpPayload (d : PgDump) : string :=
  "SET standard_conforming_strings = on;" ++ newline ++ newline ++
  concatAll (map writeNativeExtensionDefinition (pd_Extensions d)) ++
  concatAll (map writeNativeTypeDefinition (pd_Types d)) ++
  concatAll (map writeNativeSequenceDefinition (pd_Sequences d)) ++
  concatAll (map (fun dump => writeNativeTableDefinition (td_Table dump) (td_Columns dump)) (pd_Dumps d)) ++
  concatAll (map writeNativeSequenceOwnership (pd_Sequences d)) ++
  concatAll (map (fun dump => writeNativeTableData (td_Table dump) (td_Columns dump) (td_Rows dump)) (pd_Dumps d)) ++
  concatAll (map writeNativeRoutineDefinition (pd_Routines d)) ++
  concatAll (map (fun dump => writeNativeTablePostData (td_Table dump) (td_Constraints dump) (td_Indexes dump) (td_Triggers dump)) (pd_Dumps d)) ++
  concatAll (map writeNativeSequenceSetValue (pd_Sequences d)) ++
  concatAll (map writeNativeViewDefinition (pd_Views d)).

Example pg_text_examples :
  quotePGLiteral "it's" = "'it''s'" /\
  writeNativeTableData (mkTable "public" "t") [mkColumn "a" "text" true None; mkColumn "b" "int" false None] [[Some "x'; DROP"; None]; [Some ""]] =
    "INSERT INTO " ++ quotePGQualifiedName "public" "t" ++ " (" ++ quotePGIdentifier "a" ++ ", " ++ quotePGIdentifier "b" ++
    ") VALUES ('x''; DROP', NULL);" ++ newline ++
    "INSERT INTO " ++ quotePGQualifiedName "public" "t" ++ " (" ++ quotePGIdentifier "a" ++ ", " ++ quotePGIdentifier "b" ++
    ") VALUES ('', NULL);" ++ newline ++ newline.
Proof. vm_compute. repeat split. Qed.
