(* ===== verification/PgSplit.v ===== *)
(** * Splitting SQL into statements

    Models splitPGSQLStatements and readPGDollarTag of
    src/internal/drivers/postgres/native_restore.go. The loop over the text is
    a recursion over its characters; [sc_skip] counts the characters a step
    has taken ahead and that the loop passes over.

    The lemmas show how quoted names, literals and plain text scan, whatever
    follows them, and that a fragment which scans to the top level does so
    inside any text. *)

From Stdlib Require Import Ascii String.
From S2P Require Import Prelude ChunkHash Core GoStrings GoText PgText.
Local Open Scope string_scope.
#[local] Arguments String.append !_ _ / : simpl nomatch.

Definition NUL : ascii := "000".

Definition tagChar (ch : ascii) : bool :=
  let n := nat_of_ascii ch in
  Ascii.eqb ch "_" || isDigit ch || ((65 <=? n) && (n <=? 90))%nat || ((97 <=? n) && (n <=? 122))%nat.

(** The rest of a tag after its first dollar sign. *)
Fixpoint tag_loop (sql : string) : option string :=
  match sql with
  | EmptyString => None
  | String ch rest =>
      if Ascii.eqb ch "$" then Some "$"
      else if tagChar ch then match tag_loop rest with Some tag => Some (String ch tag) | None => None end
      else None
  end.

Definition readPGDollarTag (sql : string) : option string :=
  match sql with
  | String ch rest =>
      if Ascii.eqb ch "$" then match tag_loop rest with Some tag => Some (String ch tag) | None => None end else None
  | EmptyString => None
  end.

Record scan := mkScan
  { sc_current : string; sc_statements : list string; sc_dollarTag : string; sc_inSingle : bool; sc_inDouble : bool;
    sc_inLineComment : bool; sc_inBlockComment : bool; sc_skip : nat }.

(** Outside of quotes and comments, with nothing taken ahead. *)
Definition topLevel (current : string) (statements : list string) : scan :=
  mkScan current statements "" false false false false 0.

Definition setCurrent (st : scan) (current : string) : scan :=
  mkScan current (sc_statements st) (sc_dollarTag st) (sc_inSingle st) (sc_inDouble st) (sc_inLineComment st) (sc_inBlockComment st) (sc_skip st).
Definition setTag (st : scan) (tag : string) (skip : nat) : scan :=
  mkScan (sc_current st) (sc_statements st) tag (sc_inSingle st) (sc_inDouble st) (sc_inLineComment st) (sc_inBlockComment st) skip.
Definition setQuotes (st : scan) (single double : bool) (skip : nat) : scan :=
  mkScan (sc_current st) (sc_statements st) (sc_dollarTag st) single double (sc_inLineComment st) (sc_inBlockComment st) skip.
Definition setComments (st : scan) (line block : bool) (skip : nat) : scan :=
  mkScan (sc_current st) (sc_statements st) (sc_dollarTag st) (sc_inSingle st) (sc_inDouble st) line block skip.

Definition addStatement (statements : list string) (text : string) : list string :=
  let statement := TrimSpace text in
  if negb (String.eqb statement "") then statements ++ [statement] else statements.

(** One pass of the loop; [rest] is what follows [ch]. *)
Definition split_step (ch : ascii) (rest : string) (st : scan) : scan :=
  let next := match rest with String c _ => c | EmptyString => NUL end in
  let st := setCurrent st (sc_current st ++ String ch "") in
  match sc_skip st with
  | S skip => mkScan (sc_current st) (sc_statements st) (sc_dollarTag st) (sc_inSingle st) (sc_inDouble st) (sc_inLineComment st) (sc_inBlockComment st) skip
  | O =>
      if sc_inLineComment st then (if Ascii.eqb ch "010" then setComments st false (sc_inBlockComment st) 0 else st)
      else if sc_inBlockComment st then
        (if Ascii.eqb ch "*" && Ascii.eqb next "/" then setComments st false false 1 else st)
      else if negb (String.eqb (sc_dollarTag st) "") then
        (if HasPrefix (String ch rest) (sc_dollarTag st) then setTag st "" (String.length (sc_dollarTag st) - 1) else st)
      else if sc_inSingle st then
        (if Ascii.eqb ch quote && Ascii.eqb next quote then setQuotes st true (sc_inDouble st) 1
         else if Ascii.eqb ch quote then setQuotes st false (sc_inDouble st) 0 else st)
      else if sc_inDouble st then
        (if Ascii.eqb ch dquote && Ascii.eqb next dquote then setQuotes st false true 1
         else if Ascii.eqb ch dquote then setQuotes st false false 0 else st)
      else if Ascii.eqb ch "-" && Ascii.eqb next "-" then setComments st true false 1
      else if Ascii.eqb ch "/" && Ascii.eqb next "*" then setComments st false true 1
      else if Ascii.eqb ch quote then setQuotes st true false 0
      else if Ascii.eqb ch dquote then setQuotes st false true 0
      else match readPGDollarTag (String ch rest) with
           | Some tag => setTag st tag (String.length tag - 1)
           | None =>
               if Ascii.eqb ch ";"
               then mkScan "" (addStatement (sc_statements st) (sc_current st)) "" false false false false 0
               else st
           end
  end.

Fixpoint split_loop (sql : string) (st : scan) : scan :=
  match sql with
  | EmptyString => st
  | String ch rest => split_loop rest (split_step ch rest st)
  end.

Definition splitPGSQLStatements (sql : string) : outcome (list string) :=
  let st := split_loop sql (topLevel "" []) in
  if sc_inSingle st || sc_inDouble st || sc_inBlockComment st || negb (String.eqb (sc_dollarTag st) "")
  then Err "unterminated postgres SQL statement"
  else Ok (addStatement (sc_statements st) (sc_current st)).

Example split_examples :
  splitPGSQLStatements "select ';' ; -- a; b" = Ok ["select ';' ;"; "-- a; b"] /\
  splitPGSQLStatements " ;select $a$ ; $$ $a$;" = Ok [";"; "select $a$ ; $$ $a$;"] /\
  splitPGSQLStatements "select /* ; */ 1 ;; " = Ok ["select /* ; */ 1 ;"; ";"] /\
  splitPGSQLStatements "select 'it''s" = Err "unterminated postgres SQL statement" /\
  splitPGSQLStatements "a$1;b$;" = Ok ["a$1;"; "b$;"].
Proof. vm_compute. repeat split. Qed.

(** ** Strings *)

Lemma sapp_cons c (a b : string) : String c a ++ b = String c (a ++ b).
Proof. reflexivity. Qed.

Lemma sapp_assoc (a b c : string) : (a ++ b) ++ c = a ++ (b ++ c).
Proof. induction a as [|x a IH]; [done|]. rewrite !sapp_cons. now rewrite IH. Qed.

Lemma sapp_nil_r (a : string) : a ++ "" = a.
Proof. induction a as [|x a IH]; [done|]. rewrite !sapp_cons. now rewrite IH. Qed.

(** [cur] followed by one more character and then [a]. *)
Lemma sapp_snoc (cur : string) c a : (cur ++ String c "") ++ a = cur ++ String c a.
Proof. now rewrite sapp_assoc. Qed.

(** ** Scanning a prefix

    What a step looks ahead at is settled when the text goes on with a
    character that ends every token. *)

(** A character that starts no quote or comment and ends none. *)
Definition delimiter (c : ascii) : bool :=
  negb (tagChar c) && negb (existsb (Ascii.eqb c) [quote; dquote; "-"; "*"; "/"; "$"]%char).

Definition settled (rest : string) : bool := match rest with EmptyString => true | String c _ => delimiter c end.

(** A tag is a dollar sign, letters, digits or underscores, and a dollar sign. *)
Definition validTag (tag : string) : Prop := tag = "" \/ exists rest, tag_loop rest = Some rest /\ tag = String "$" rest.

Lemma delimiter_spec c : delimiter c = true ->
  tagChar c = false /\ Ascii.eqb c quote = false /\ Ascii.eqb c dquote = false /\ Ascii.eqb c "-" = false /\
  Ascii.eqb c "*" = false /\ Ascii.eqb c "/" = false /\ Ascii.eqb c "$" = false.
Proof.
  unfold delimiter. rewrite andb_true_iff, !negb_true_iff. intros [H1 H2]. cbn [existsb] in H2.
  repeat (apply orb_false_iff in H2 as [? H2]). done.
Qed.

Lemma HasPrefix_nil s : HasPrefix s "" = true.
Proof. now destruct s. Qed.

Lemma tag_loop_self s tag : tag_loop s = Some tag -> tag_loop tag = Some tag /\ HasPrefix s tag = true.
Proof.
  revert tag. induction s as [|c s IH]; intros tag; [done|]. cbn [tag_loop].
  destruct (Ascii.eqb c "$") eqn:D; [intros [= <-]; split; [done|]; cbn [HasPrefix]; rewrite Ascii.eqb_sym, D; now destruct s|].
  destruct (tagChar c) eqn:T; [|done]. destruct (tag_loop s) as [t|]; [|done]. intros [= <-].
  destruct (IH t eq_refl) as [E P]. cbn [tag_loop HasPrefix]. rewrite D, T, E, P, Ascii.eqb_refl. done.
Qed.

Lemma tag_loop_settled s r : settled r = true -> tag_loop (s ++ r) = tag_loop s.
Proof.
  intros Hr. induction s as [|c s IH].
  - destruct r as [|c r]; [done|]. apply delimiter_spec in Hr as (T & _ & _ & _ & _ & _ & D).
    cbn [String.append tag_loop]. now rewrite D, T.
  - rewrite sapp_cons. cbn [tag_loop]. now rewrite IH.
Qed.

Lemma readTag_settled s r : settled r = true -> s <> "" -> readPGDollarTag (s ++ r) = readPGDollarTag s.
Proof. intros Hr Hs. destruct s as [|c s]; [done|]. rewrite sapp_cons. cbn [readPGDollarTag]. now rewrite tag_loop_settled. Qed.

(** A valid tag is not completed by what follows. *)
Lemma HasPrefix_loop_settled s r t : settled r = true -> tag_loop t = Some t -> HasPrefix (s ++ r) t = HasPrefix s t.
Proof.
  intros Hr. revert t. induction s as [|c s IH]; intros t Ht.
  - destruct r as [|d r]; [done|]. apply delimiter_spec in Hr as (T & _ & _ & _ & _ & _ & D).
    destruct t as [|c t]; [done|]. cbn [String.append HasPrefix]. destruct (Ascii.eqb_spec c d) as [->|]; [|done].
    cbn [tag_loop] in Ht. now rewrite D, T in Ht.
  - destruct t as [|e t]; [done|]. rewrite sapp_cons. cbn [HasPrefix]. destruct (Ascii.eqb_spec e c) as [->|]; [|done].
    cbn [andb]. cbn [tag_loop] in Ht. destruct (Ascii.eqb c "$") eqn:D; [injection Ht as _ <-; now rewrite !HasPrefix_nil|].
    destruct (tagChar c); [|done]. destruct (tag_loop t) as [u|] eqn:E; [|done]. injection Ht as ->; now apply IH.
Qed.

Lemma HasPrefix_settled c s r tag : settled r = true -> validTag tag -> HasPrefix (String c s ++ r) tag = HasPrefix (String c s) tag.
Proof.
  intros Hr [->|(t & Ht & ->)]; [done|]. rewrite sapp_cons. cbn [HasPrefix]. f_equal. now apply HasPrefix_loop_settled.
Qed.

Lemma split_step_settled c s r st : settled r = true -> validTag (sc_dollarTag st) ->
  split_step c (s ++ r) st = split_step c s st.
Proof.
  intros Hr Ht. unfold split_step. cbv zeta. cbn [setCurrent sc_skip sc_inLineComment sc_inBlockComment sc_dollarTag sc_inSingle sc_inDouble].
  pose proof (HasPrefix_settled c s r _ Hr Ht) as HP. rewrite !sapp_cons in HP. rewrite HP.
  pose proof (readTag_settled (String c s) r Hr ltac:(done)) as HT. rewrite !sapp_cons in HT. rewrite HT.
  destruct s as [|d s]; [|done]. cbn [String.append]. destruct r as [|d r]; [done|].
  apply delimiter_spec in Hr as (_ & Q & DQ & M & ST & SL & _). rewrite Q, DQ, M, ST, SL. done.
Qed.

Lemma split_step_tag c s st : validTag (sc_dollarTag st) -> validTag (sc_dollarTag (split_step c s st)).
Proof.
  intros Ht. unfold split_step. cbv zeta. destruct (sc_skip _); [|exact Ht].
  repeat (match goal with |- context [if ?b then _ else _] => destruct b end; try exact Ht; try (now left));
    (destruct (readPGDollarTag (String c s)) as [tag|] eqn:E; [|exact Ht || now left]);
    (cbn [setTag sc_dollarTag]; right; cbn [readPGDollarTag] in E; destruct (Ascii.eqb_spec c "$") as [->|]; [|done];
     destruct (tag_loop s) as [t|] eqn:L; [|done]; injection E as <-; exists t; split; [now apply tag_loop_self in L|done]).
Qed.

(** The scan of a text is the scan of its parts. *)
Lemma split_loop_app s r st : settled r = true -> validTag (sc_dollarTag st) ->
  split_loop (s ++ r) st = split_loop r (split_loop s st).
Proof.
  intros Hr. revert st. induction s as [|c s IH]; intros st Ht; [done|].
  rewrite sapp_cons. cbn [split_loop]. rewrite split_step_settled by done. apply IH. now apply split_step_tag.
Qed.

(** ** Fragments

    A text is a fragment when its scan ends at the top level and meets no
    semicolon there. *)

Definition sqlFragment (t : string) : bool :=
  let st := split_loop t (topLevel "" []) in
  match sc_statements st with [] => true | _ => false end && String.eqb (sc_dollarTag st) "" &&
  negb (sc_inSingle st) && negb (sc_inDouble st) && negb (sc_inLineComment st) && negb (sc_inBlockComment st) &&
  Nat.eqb (sc_skip st) 0.

Lemma trimLeft_semi x : trimLeft (x ++ ";") = trimLeft x ++ ";".
Proof. induction x as [|c x IH]; [done|]. rewrite sapp_cons. cbn [trimLeft]. destruct (asciiSpace c); [done|reflexivity]. Qed.

Lemma TrimSpace_semi x : TrimSpace (x ++ ";") = trimLeft x ++ ";".
Proof. unfold TrimSpace. rewrite trimLeft_semi. now apply trimRight_last. Qed.

Lemma addStatement_semi sts x : addStatement sts (x ++ ";") = (sts ++ [(trimLeft x ++ ";")%string])%list.
Proof. unfold addStatement. rewrite TrimSpace_semi. now destruct (trimLeft x). Qed.

(** [st] after [cur] and [sts]. *)
Definition framed (cur : string) (sts : list string) (st : scan) : scan :=
  mkScan (cur ++ sc_current st) (sts ++ sc_statements st)%list (sc_dollarTag st) (sc_inSingle st) (sc_inDouble st)
    (sc_inLineComment st) (sc_inBlockComment st) (sc_skip st).

Lemma split_step_framed cur sts c s st : sc_statements st = [] ->
  (sc_statements (split_step c s st) = [] /\ sc_current (split_step c s st) = sc_current st ++ String c "" /\
   split_step c s (framed cur sts st) = framed cur sts (split_step c s st)) \/
  sc_statements (split_step c s st) <> [].
Proof.
  destruct st as [cur0 sts0 tag single double line block skip]. cbn [sc_statements]. intros ->.
  unfold split_step, framed. cbv zeta. cbn [setCurrent sc_skip sc_inLineComment sc_inBlockComment sc_dollarTag
    sc_inSingle sc_inDouble sc_current sc_statements]. rewrite app_nil_r, sapp_assoc.
  destruct skip; [|left; cbn; rewrite ?app_nil_r; done].
  repeat (match goal with |- context [if ?b then _ else _] => lazymatch b with Ascii.eqb c ";" => fail | _ => destruct b end end;
    try (left; cbn; rewrite ?app_nil_r; done)).
  destruct (readPGDollarTag (String c s)); [left; cbn; rewrite ?app_nil_r; done|].
  destruct (Ascii.eqb_spec c ";") as [->|]; [right|left; cbn; rewrite ?app_nil_r; done].
  cbn [sc_statements]. rewrite addStatement_semi. now destruct (trimLeft _).
Qed.

Lemma split_step_grows c s st : sc_statements st <> [] -> sc_statements (split_step c s st) <> [].
Proof.
  intros Hs. unfold split_step. cbv zeta. destruct (sc_skip _); [|exact Hs].
  repeat (match goal with |- context [if ?b then _ else _] => lazymatch b with Ascii.eqb c ";" => fail | _ => destruct b end end; try exact Hs).
  destruct (readPGDollarTag _); [exact Hs|].
  destruct (Ascii.eqb _ ";"); [|exact Hs]. cbn [sc_statements setCurrent]. unfold addStatement.
  destruct (negb _); [|exact Hs]. now destruct (sc_statements st).
Qed.

Lemma split_loop_grows s st : sc_statements st <> [] -> sc_statements (split_loop s st) <> [].
Proof. revert st. induction s as [|c s IH]; intros st Hs; [done|]. cbn [split_loop]. apply IH. now apply split_step_grows. Qed.

Lemma split_loop_framed cur sts s st : sc_statements st = [] -> sc_statements (split_loop s st) = [] ->
  sc_current (split_loop s st) = sc_current st ++ s /\
  split_loop s (framed cur sts st) = framed cur sts (split_loop s st).
Proof.
  revert st. induction s as [|c s IH]; intros st Hs Hf; [split; [now rewrite sapp_nil_r|done]|]. cbn [split_loop] in *.
  destruct (split_step_framed cur sts c s st Hs) as [(E1 & E2 & E3)|E].
  - destruct (IH _ E1 Hf) as [F1 F2]. rewrite E3, F2, F1, E2. split; [apply sapp_snoc|done].
  - now apply (split_loop_grows s) in E.
Qed.

(** ** Texts that scan to the top level *)

(** Before [r], the text [t] only adds to what is current. *)
Definition scans (t r : string) : Prop :=
  forall cur sts, split_loop (t ++ r) (topLevel cur sts) = split_loop r (topLevel (cur ++ t) sts).

Lemma scans_nil r : scans "" r.
Proof. intros cur sts. now rewrite sapp_nil_r. Qed.

Lemma scans_app a b r : scans a (b ++ r) -> scans b r -> scans (a ++ b) r.
Proof. intros Ha Hb cur sts. now rewrite sapp_assoc, Ha, Hb, sapp_assoc. Qed.

Lemma scans_fragment t r : sqlFragment t = true -> settled r = true -> scans t r.
Proof.
  unfold sqlFragment. intros Ht Hr cur sts. rewrite split_loop_app by (done || now left).
  set (st := split_loop t (topLevel "" [])) in *.
  destruct (sc_statements st) eqn:E0; [|done]. rewrite !andb_true_iff, !negb_true_iff, Nat.eqb_eq, String.eqb_eq in Ht.
  destruct Ht as [[[[[[_ E1] E2] E3] E4] E5] E6].
  destruct (split_loop_framed cur sts t (topLevel "" []) eq_refl E0) as [F1 F2]. fold st in F1, F2. cbn [topLevel sc_current] in F1.
  change (framed cur sts (topLevel "" [])) with (topLevel (cur ++ "") (sts ++ [])%list) in F2.
  rewrite sapp_nil_r, app_nil_r in F2. rewrite F2. unfold framed, topLevel. rewrite F1, E0, E1, E2, E3, E4, E5, E6, app_nil_r. done.
Qed.

(** A character that is nothing but itself at the top level. *)
Definition plainChar (c : ascii) : bool := negb (existsb (Ascii.eqb c) [quote; dquote; "-"; "/"; "$"; ";"]%char).

Lemma scans_plain t r : allChars plainChar t = true -> scans t r.
Proof.
  intros Ht. induction t as [|c t IH]; intros cur sts; [now rewrite sapp_nil_r|]. cbn [allChars] in Ht.
  apply andb_true_iff in Ht as [Hc Ht]. rewrite sapp_cons. cbn [split_loop].
  assert (E : split_step c (t ++ r) (topLevel cur sts) = topLevel (cur ++ String c "") sts).
  { unfold plainChar in Hc. rewrite negb_true_iff in Hc. cbn [existsb] in Hc. repeat (apply orb_false_iff in Hc as [? Hc]).
    unfold split_step. cbn [topLevel setCurrent sc_skip sc_inLineComment sc_inBlockComment sc_dollarTag sc_inSingle sc_inDouble
      sc_current sc_statements String.eqb negb readPGDollarTag].
    repeat match goal with H : Ascii.eqb c _ = false |- _ => rewrite H; clear H end. done. }
  rewrite E, (IH Ht), sapp_snoc. done.
Qed.

(** The state inside quotes. *)
Definition inQuotes (q : ascii) (cur : string) (sts : list string) : scan :=
  mkScan cur sts "" (Ascii.eqb q quote) (Ascii.eqb q dquote) false false 0.

Definition isQuote (q : ascii) : Prop := q = quote \/ q = dquote.

Definition starts (q : ascii) (r : string) : bool := match r with String c _ => Ascii.eqb c q | EmptyString => false end.

Lemma quoted_loop q v r cur sts : isQuote q -> starts q r = false ->
  split_loop (ReplaceAll q (String q (String q "")) v ++ String q r) (inQuotes q cur sts) =
  split_loop r (topLevel (cur ++ ReplaceAll q (String q (String q "")) v ++ String q "") sts).
Proof.
  intros Hq Hr. revert cur. induction v as [|c v IH]; intros cur.
  - cbn [ReplaceAll String.append split_loop]. f_equal.
    destruct Hq as [-> | ->]; unfold split_step, inQuotes; (destruct r as [|d r]; [done|]); cbn [starts] in Hr; cbn; now rewrite Hr.
  - cbn [ReplaceAll]. destruct (Ascii.eqb_spec c q) as [->|Hc].
    + rewrite !sapp_cons. cbn [String.append split_loop].
      assert (E : split_step q (ReplaceAll q (String q (String q "")) v ++ String q r)
                    (split_step q (String q (ReplaceAll q (String q (String q "")) v ++ String q r)) (inQuotes q cur sts)) =
                  inQuotes q ((cur ++ String q "") ++ String q "") sts) by (destruct Hq as [-> | ->]; reflexivity).
      rewrite E, IH, !sapp_snoc. done.
    + rewrite !sapp_cons. cbn [split_loop].
      assert (E : forall s, split_step c s (inQuotes q cur sts) = inQuotes q (cur ++ String c "") sts).
      { intros s. apply Ascii.eqb_neq in Hc. destruct Hq as [-> | ->]; unfold split_step, inQuotes; cbn; now rewrite Hc. }
      rewrite E, IH, sapp_snoc. done.
Qed.

Lemma scans_quoted q v r : isQuote q -> starts q r = false -> scans (quotedBy q v) r.
Proof.
  intros Hq Hr cur sts. unfold quotedBy. rewrite sapp_cons. cbn [split_loop].
  assert (E : forall s, split_step q s (topLevel cur sts) = inQuotes q (cur ++ String q "") sts) by (destruct Hq as [-> | ->]; reflexivity).
  rewrite E, sapp_assoc. cbn [String.append]. rewrite quoted_loop by done. now rewrite sapp_snoc.
Qed.

Lemma scans_identifier v r : starts dquote r = false -> scans (quotePGIdentifier v) r.
Proof. apply scans_quoted. now right. Qed.

Lemma scans_literal v r : starts quote r = false -> scans (quotePGLiteral v) r.
Proof. apply scans_quoted. now left. Qed.

Lemma scans_qualified a b r : starts dquote r = false -> scans (quotePGQualifiedName a b) r.
Proof.
  intros Hr. unfold quotePGQualifiedName. apply scans_app; [now apply scans_identifier|].
  apply scans_app; [now apply scans_plain|now apply scans_identifier].
Qed.

(** ** Texts that hold whole statements *)

(** After blanks, the text [t] leaves blanks and adds the statements [ss]. *)
Definition emits (t : string) (ss : list string) : Prop :=
  forall r cur sts, IDIsZero cur = true ->
  exists cur', IDIsZero cur' = true /\ split_loop (t ++ r) (topLevel cur sts) = split_loop r (topLevel cur' (sts ++ ss)%list).

Lemma IDIsZero_app a b : IDIsZero (a ++ b) = IDIsZero a && IDIsZero b.
Proof. induction a as [|c a IH]; [done|]. rewrite sapp_cons. cbn [IDIsZero]. now rewrite IH, andb_assoc. Qed.

Lemma trimLeft_blank a b : IDIsZero a = true -> trimLeft (a ++ b) = trimLeft b.
Proof.
  induction a as [|c a IH]; [done|]. cbn [IDIsZero]. rewrite andb_true_iff. intros [Hc Ha]. rewrite sapp_cons. cbn [trimLeft].
  rewrite Hc. now apply IH.
Qed.

Lemma blank_plain t : IDIsZero t = true -> allChars plainChar t = true.
Proof.
  induction t as [|c t IH]; [done|]. cbn [IDIsZero allChars]. rewrite !andb_true_iff. intros [Hc Ht]. split; [|now apply IH].
  revert Hc. clear. destruct c as [[] [] [] [] [] [] [] []]; done.
Qed.

Lemma emits_blank t : IDIsZero t = true -> emits t [].
Proof.
  intros Ht r cur sts Hc. exists (cur ++ t). rewrite IDIsZero_app, Hc, Ht, app_nil_r. split; [done|].
  apply scans_plain. now apply blank_plain.
Qed.

Lemma emits_app a b sa sb : emits a sa -> emits b sb -> emits (a ++ b) (sa ++ sb).
Proof.
  intros Ha Hb r cur sts Hc. rewrite sapp_assoc. destruct (Ha (b ++ r) cur sts Hc) as (c1 & H1 & ->).
  destruct (Hb r c1 (sts ++ sa)%list H1) as (c2 & H2 & ->). exists c2. now rewrite app_assoc.
Qed.

Lemma emits_concat ts ss : Forall2 emits ts ss -> emits (concatAll ts) (concat ss).
Proof. induction 1; [now apply emits_blank|]. cbn [concatAll fold_right concat]. now apply emits_app. Qed.

Lemma emits_concat_map {A} (f : A -> string) (g : A -> list string) l : (forall x, In x l -> emits (f x) (g x)) ->
  emits (concatAll (map f l)) (concat (map g l)).
Proof.
  intros Hl. apply emits_concat. induction l as [|x l IH]; cbn [map]; constructor.
  - apply Hl. now left.
  - apply IH. intros y Hy. apply Hl. now right.
Qed.

Lemma emits_statement body : (forall r, scans body (String ";" r)) -> trimLeft (body ++ ";") = body ++ ";" ->
  emits (body ++ ";") [body ++ ";"].
Proof.
  intros Hs Ht r cur sts Hc. exists "". split; [done|]. rewrite sapp_assoc. cbn [String.append]. rewrite Hs. cbn [split_loop].
  f_equal. unfold split_step, topLevel. cbn. rewrite addStatement_semi. unfold topLevel. f_equal. f_equal.
  rewrite trimLeft_semi in Ht. rewrite trimLeft_blank by done. now rewrite Ht.
Qed.

Lemma split_emits t ss : emits t ss -> splitPGSQLStatements t = Ok ss.
Proof.
  intros He. unfold splitPGSQLStatements. destruct (He "" "" [] eq_refl) as (cur & Hc & E). rewrite sapp_nil_r in E. rewrite E.
  cbn. unfold addStatement. destruct (TrimSpace cur) eqn:T; [done|exfalso].
  assert (L : trimLeft cur = "") by (rewrite <- (sapp_nil_r cur); now rewrite trimLeft_blank). unfold TrimSpace in T. now rewrite L in T.
Qed.
