(* ===== verification/PgDump.v ===== *)
(** * The statements of a PostgreSQL dump

    What splitting gives back of the payload a native backup writes: the
    statements of every writer of PgText, in order.

    The rows of a table need no assumption: whatever their values and the
    names hold, a row is one statement, and reading it by the rules of SQL
    gives the values back. The texts that come from the catalogue are assumed
    to be complete SQL ([sqlFragment]). *)

From Stdlib Require Import Ascii String.
From S2P Require Import Prelude ChunkHash Core GoStrings GoText PgText PgSplit.
Local Open Scope string_scope.
#[local] Arguments String.append !_ _ / : simpl nomatch.

(** ** Statements *)

(** A text of the catalogue without its final semicolon. *)
Definition statementOf (text : string) : string := TrimSuffix (TrimSpace text) ";".

Definition terminated (body : string) : string := body ++ ";".

Definition schemaStatements (needed : bool) (schema : string) : list string :=
  if needed then [terminated (createSchema schema)] else [].

Definition definitionStatements (text : string) : list string :=
  if String.eqb (TrimSpace text) "" then [] else [terminated (statementOf text)].

Definition extensionStatements (extension : pgNativeExtension) : list string :=
  schemaStatements (namedSchema (ex_Schema extension)) (ex_Schema extension) ++ [terminated (createExtension extension)].

Definition typeStatements (typ : pgNativeType) : list string :=
  if String.eqb (TrimSpace (ty_Definition typ)) "" then []
  else schemaStatements (namedSchema (ty_Schema typ)) (ty_Schema typ) ++ [terminated (statementOf (ty_Definition typ))].

Definition sequenceStatements (sequence : pgNativeSequence) : list string :=
  schemaStatements (negb (String.eqb (sq_Schema sequence) "public")) (sq_Schema sequence) ++ [terminated (createSequence sequence)].

Definition ownershipStatements (sequence : pgNativeSequence) : list string :=
  if unowned sequence then [] else [terminated (ownSequence sequence)].

Definition setValueStatements (sequence : pgNativeSequence) : list string :=
  match sq_LastValue sequence with
  | None => []
  | Some value => if String.eqb value "" then [] else [terminated (setSequence sequence value)]
  end.

Definition tableStatements (dump : pgNativeTableDump) : list string :=
  schemaStatements (negb (String.eqb (tb_Schema (td_Table dump)) "public")) (tb_Schema (td_Table dump)) ++
  [terminated (createTable (td_Table dump) (td_Columns dump))].

Definition rowStatements (dump : pgNativeTableDump) : list string :=
  map (fun row => terminated (insertRow (td_Table dump) (td_Columns dump) row)) (td_Rows dump).

Definition postDataStatements (dump : pgNativeTableDump) : list string :=
  map (fun constraint => terminated (addConstraint (td_Table dump) constraint)) (td_Constraints dump) ++
  concat (map definitionStatements (td_Indexes dump)) ++ concat (map definitionStatements (td_Triggers dump)).

(** A view whose definition ends with a semicolon, as the catalogue gives it,
    becomes two statements. *)
Definition viewStatements (view : pgNativeView) : list string :=
  let definition := TrimSpace (vw_Definition view) in
  schemaStatements (negb (String.eqb (vw_Schema view) "public")) (vw_Schema view) ++
  (if HasSuffix definition ";"
   then [createView view ++ definition; if vw_Materialized view then "WITH NO DATA;" else ";"]
   else [createView view ++ definition ++ (if vw_Materialized view then newline ++ "WITH NO DATA;" else ";")])%string.

Definition dumpStatements (d : PgDump) : list string :=
  ("SET standard_conforming_strings = on;" :: concat (map extensionStatements (pd_Extensions d)) ++
   concat (map typeStatements (pd_Types d)) ++ concat (map sequenceStatements (pd_Sequences d)) ++
   concat (map tableStatements (pd_Dumps d)) ++ concat (map ownershipStatements (pd_Sequences d)) ++
   concat (map rowStatements (pd_Dumps d)) ++ concat (map definitionStatements (pd_Routines d)) ++
   concat (map postDataStatements (pd_Dumps d)) ++ concat (map setValueStatements (pd_Sequences d)) ++
   concat (map viewStatements (pd_Views d)))%list.

(** ** Dumps whose catalogue texts are complete SQL *)

Definition goodText (text : string) : bool := sqlFragment (statementOf text).

Definition goodColumn (column : pgNativeColumn) : bool :=
  sqlFragment (cl_Type column) && match cl_Default column with Some value => sqlFragment value | None => true end.

Definition goodSequence (sequence : pgNativeSequence) : bool :=
  sqlFragment (sq_DataType sequence) && sqlFragment (sq_StartValue sequence) && sqlFragment (sq_MinValue sequence) &&
  sqlFragment (sq_MaxValue sequence) && sqlFragment (sq_IncrementBy sequence) && sqlFragment (sq_CacheSize sequence) &&
  match sq_LastValue sequence with Some value => sqlFragment value | None => true end.

Definition goodTable (dump : pgNativeTableDump) : bool :=
  forallb goodColumn (td_Columns dump) && forallb (fun c => sqlFragment (ct_Definition c)) (td_Constraints dump) &&
  forallb goodText (td_Indexes dump) && forallb goodText (td_Triggers dump).

Definition goodDump (d : PgDump) : bool :=
  forallb (fun typ => goodText (ty_Definition typ)) (pd_Types d) && forallb goodSequence (pd_Sequences d) &&
  forallb goodTable (pd_Dumps d) && forallb (fun view => goodText (vw_Definition view)) (pd_Views d) &&
  forallb goodText (pd_Routines d).

(** ** Every writer *)

Lemma settled_starts q r : isQuote q -> settled r = true -> starts q r = false.
Proof. intros Hq Hr. destruct r as [|c r]; [done|]. apply delimiter_spec in Hr as (_ & Q & D & _). now destruct Hq as [-> | ->]. Qed.

Lemma scans_join {A} (f : A -> string) l sep r :
  (forall x r', In x l -> settled r' = true -> scans (f x) r') -> allChars plainChar sep = true ->
  settled sep = true -> sep <> "" -> settled r = true -> scans (Join (map f l) sep) r.
Proof.
  intros Hf Hs Hd Hn Hr. induction l as [|x l IH]; [apply scans_nil|]. cbn [map Join].
  assert (IH' : scans (Join (map f l) sep) r) by (apply IH; intros; apply Hf; [now right|done]).
  destruct (map f l) as [|y ys]; [apply Hf; [now left|done]|].
  apply scans_app; [apply Hf; [now left|]|apply scans_app; [now apply scans_plain|done]]. now destruct sep.
Qed.

(** [settle] decides what a text starts with, [scan] applies the lemmas on
    [scans] to a concatenation. *)
Ltac settle :=
  first [reflexivity | assumption | match goal with |- context [if ?b then _ else _] => destruct b; settle end].

Ltac scan :=
  repeat first
    [ apply scans_nil
    | apply scans_plain; reflexivity
    | apply scans_qualified; settle
    | apply scans_identifier; settle
    | apply scans_literal; settle
    | apply scans_fragment; [assumption|settle]
    | apply scans_app
    | match goal with |- scans (if ?b then _ else _) _ => destruct b end ].

Lemma emits_line body blank : (forall r, scans body (String ";" r)) -> trimLeft (body ++ ";") = body ++ ";" ->
  IDIsZero blank = true -> emits (body ++ ";" ++ blank) [terminated body].
Proof.
  intros Hs Ht Hb. rewrite <- sapp_assoc. change [terminated body] with ([terminated body] ++ [])%list.
  apply emits_app; [now apply emits_statement|now apply emits_blank].
Qed.

Lemma emits_schema needed schema : emits (writeSchema needed schema) (schemaStatements needed schema).
Proof.
  destruct needed; [|now apply emits_blank]. unfold writeSchema, schemaStatements.
  apply emits_line; [|reflexivity..]. intros r. unfold createSchema. scan.
Qed.

Lemma emits_extension extension : emits (writeNativeExtensionDefinition extension) (extensionStatements extension).
Proof.
  apply emits_app; [apply emits_schema|]. apply emits_line; [|reflexivity..].
  intros r. unfold createExtension. scan.
Qed.

Lemma trim_trimmed text s : TrimSpace text = s -> trimLeft s = s.
Proof.
  intros <-. unfold TrimSpace. induction text as [|c text IH]; [done|]. cbn [trimLeft].
  destruct (asciiSpace c) eqn:E; [exact IH|]. cbn [trimRight]. destruct (trimRight text); cbn [trimLeft]; now rewrite ?E; cbn [trimLeft]; rewrite ?E.
Qed.

Lemma semi_statement text : semi (TrimSpace text) = terminated (statementOf text).
Proof.
  unfold semi, terminated, statementOf. destruct (HasSuffix (TrimSpace text) ";") eqn:E.
  - apply HasSuffix_spec in E as [p ->]. now rewrite TrimSuffix_app.
  - f_equal. symmetry. revert E. generalize (TrimSpace text). intros s. induction s as [|c s IH]; [done|].
    cbn [HasSuffix TrimSuffix]. rewrite orb_false_iff. intros [-> E]. now rewrite IH.
Qed.

Lemma statement_trimmed text : trimLeft (terminated (statementOf text)) = terminated (statementOf text).
Proof.
  rewrite <- semi_statement. pose proof (trim_trimmed text _ eq_refl) as T. unfold semi.
  destruct (HasSuffix _ _); [done|]. now rewrite trimLeft_semi, T.
Qed.

Lemma emits_definition text blank : goodText text = true -> IDIsZero blank = true ->
  emits (semi (TrimSpace text) ++ blank) [terminated (statementOf text)].
Proof.
  intros Hg Hb. rewrite semi_statement. unfold terminated at 1. rewrite sapp_assoc.
  apply emits_line; [|apply statement_trimmed|done]. intros r. now apply scans_fragment.
Qed.

Lemma emits_type typ : goodText (ty_Definition typ) = true -> emits (writeNativeTypeDefinition typ) (typeStatements typ).
Proof.
  intros Hg. unfold writeNativeTypeDefinition, typeStatements. destruct (String.eqb _ ""); [now apply emits_blank|].
  apply emits_app; [apply emits_schema|now apply emits_definition].
Qed.

Lemma emits_sequence sequence : goodSequence sequence = true -> emits (writeNativeSequenceDefinition sequence) (sequenceStatements sequence).
Proof.
  intros Hg. unfold goodSequence in Hg. rewrite !andb_true_iff in Hg. destruct Hg as [[[[[[? ?] ?] ?] ?] ?] _].
  apply emits_app; [apply emits_schema|]. apply emits_line; [|reflexivity..].
  intros r. unfold createSequence, writeSequenceClause. scan.
Qed.

Lemma emits_ownership sequence : emits (writeNativeSequenceOwnership sequence) (ownershipStatements sequence).
Proof.
  unfold writeNativeSequenceOwnership, ownershipStatements. destruct (unowned sequence); [now apply emits_blank|].
  apply emits_line; [|reflexivity..]. intros r. unfold ownSequence. scan.
Qed.

Lemma emits_setValue sequence : goodSequence sequence = true -> emits (writeNativeSequenceSetValue sequence) (setValueStatements sequence).
Proof.
  intros Hg. unfold goodSequence in Hg. rewrite andb_true_iff in Hg. destruct Hg as [_ Hg].
  unfold writeNativeSequenceSetValue, setValueStatements. destruct (sq_LastValue sequence) as [value|]; [|now apply emits_blank].
  destruct (String.eqb value ""); [now apply emits_blank|]. apply emits_line; [|reflexivity..].
  intros r. unfold setSequence. scan.
Qed.

Lemma scans_column column r : goodColumn column = true -> settled r = true -> scans (writeColumn column) r.
Proof.
  unfold goodColumn. rewrite andb_true_iff. intros [Ht Hd] Hr. unfold writeColumn.
  destruct (cl_Default column) as [value|]; scan.
Qed.

Lemma emits_table dump : goodTable dump = true ->
  emits (writeNativeTableDefinition (td_Table dump) (td_Columns dump)) (tableStatements dump).
Proof.
  unfold goodTable. rewrite !andb_true_iff, forallb_forall. intros [[[Hc _] _] _].
  apply emits_app; [apply emits_schema|]. apply emits_line; [|reflexivity..]. intros r. unfold createTable.
  scan. apply scans_join; [|reflexivity..|done|reflexivity]. intros x r' Hx. apply scans_column. now apply Hc.
Qed.

(** The rows need no assumption. *)
Lemma scans_insert table columns row r : settled r = true -> scans (insertRow table columns row) r.
Proof.
  intros Hr. unfold insertRow. destruct columns as [|column columns]; [scan|]. scan.
  - apply (scans_join (fun c => quotePGIdentifier (cl_Name c))); [|reflexivity..|done|reflexivity].
    intros x r' _ Hr'. apply scans_identifier. apply settled_starts; [now right|done].
  - apply scans_join; [|reflexivity..|done|reflexivity].
    intros i r' _ Hr'. unfold insertValue. destruct (nth i row None); [|scan].
    apply scans_literal. apply settled_starts; [now left|done].
Qed.

Lemma emits_row table columns row : emits (insertRow table columns row ++ ";" ++ newline) [terminated (insertRow table columns row)].
Proof.
  apply emits_line; [|unfold insertRow; now destruct columns|reflexivity]. intros r. now apply scans_insert.
Qed.

Lemma emits_rows table columns rows :
  emits (writeNativeTableData table columns rows) (map (fun row => terminated (insertRow table columns row)) rows).
Proof.
  unfold writeNativeTableData. rewrite <- (app_nil_r (map (fun row => terminated _) rows)). apply emits_app; [|now apply emits_blank].
  replace (map (fun row => terminated (insertRow table columns row)) rows)
    with (concat (map (fun row => [terminated (insertRow table columns row)]) rows)).
  - apply emits_concat_map. intros row _. apply emits_row.
  - induction rows as [|row rows IH]; [done|]. simpl. now rewrite IH.
Qed.

Lemma emits_definition_line text : goodText text = true -> emits (writeDefinition text) (definitionStatements text).
Proof.
  intros Hg. unfold writeDefinition, definitionStatements. cbv zeta. destruct (String.eqb _ ""); [now apply emits_blank|].
  now apply emits_definition.
Qed.

Lemma emits_routine routine : goodText routine = true -> emits (writeNativeRoutineDefinition routine) (definitionStatements routine).
Proof.
  intros Hg. unfold writeNativeRoutineDefinition, definitionStatements. cbv zeta. destruct (String.eqb _ ""); [now apply emits_blank|].
  now apply emits_definition.
Qed.

Lemma emits_post dump : goodTable dump = true ->
  emits (writeNativeTablePostData (td_Table dump) (td_Constraints dump) (td_Indexes dump) (td_Triggers dump)) (postDataStatements dump).
Proof.
  unfold goodTable. rewrite !andb_true_iff, !forallb_forall. intros [[[_ Hc] Hi] Ht].
  unfold writeNativeTablePostData, postDataStatements. rewrite <- (app_nil_r (_ ++ _ ++ _)%list), <- !app_assoc.
  apply emits_app; [|apply emits_app; [|apply emits_app]].
  - replace (map (fun constraint => terminated (addConstraint (td_Table dump) constraint)) (td_Constraints dump))
      with (concat (map (fun constraint => [terminated (addConstraint (td_Table dump) constraint)]) (td_Constraints dump))).
    + apply emits_concat_map. intros c Hin. specialize (Hc c Hin). apply emits_line; [|reflexivity..]. intros r. unfold addConstraint. scan.
    + generalize (td_Constraints dump). intros l. induction l as [|x l IH]; [done|]. simpl. now rewrite IH.
  - apply emits_concat_map. intros x Hx. apply emits_definition_line. now apply Hi.
  - apply emits_concat_map. intros x Hx. apply emits_definition_line. now apply Ht.
  - destruct (td_Constraints dump), (td_Indexes dump), (td_Triggers dump); now apply emits_blank.
Qed.

Lemma emits_view view : goodText (vw_Definition view) = true -> emits (writeNativeViewDefinition view) (viewStatements view).
Proof.
  intros Hg. unfold goodText, statementOf in Hg. unfold writeNativeViewDefinition, viewStatements. cbv zeta.
  apply emits_app; [apply emits_schema|]. remember (TrimSpace (vw_Definition view)) as text eqn:E. clear E.
  destruct (HasSuffix text ";") eqn:Hs.
  - apply HasSuffix_spec in Hs as [p ->]. rewrite TrimSuffix_app in Hg.
    assert (Sc : forall r, scans (createView view ++ p) (String ";" r)) by (intros r; unfold createView; scan).
    replace (createView view ++ (p ++ ";") ++ (if vw_Materialized view then newline ++ "WITH NO DATA;" else ";") ++ newline ++ newline)
      with ((createView view ++ p) ++ ";" ++ (if vw_Materialized view then newline ++ "WITH NO DATA;" else ";") ++ newline ++ newline)
      by (now rewrite !sapp_assoc).
    replace (createView view ++ p ++ ";") with (terminated (createView view ++ p)) by (unfold terminated; now rewrite sapp_assoc).
    rewrite <- (sapp_assoc _ ";"). change [terminated (createView view ++ p); if vw_Materialized view then "WITH NO DATA;" else ";"]
      with ([terminated (createView view ++ p)] ++ [if vw_Materialized view then "WITH NO DATA;" else ";"])%list.
    apply emits_app.
    + apply emits_statement; [done|]. unfold createView. now destruct (vw_Materialized view).
    + destruct (vw_Materialized view).
      * change [terminated "WITH NO DATA"] with ([] ++ [terminated "WITH NO DATA"])%list. rewrite sapp_assoc.
        change (["WITH NO DATA;"]) with ([] ++ [terminated "WITH NO DATA"])%list. apply emits_app; [now apply emits_blank|].
        apply (emits_line "WITH NO DATA" (newline ++ newline)); [|reflexivity..]. intros r. scan.
      * apply (emits_line "" (newline ++ newline)); [|reflexivity..]. intros r. scan.
  - assert (N : TrimSuffix text ";" = text).
    { revert Hs. clear. induction text as [|c s IH]; [done|]. cbn [HasSuffix TrimSuffix]. rewrite orb_false_iff.
      intros [-> E]. now rewrite IH. }
    rewrite N in Hg. destruct (vw_Materialized view) eqn:M.
    + replace (createView view ++ text ++ (newline ++ "WITH NO DATA;") ++ newline ++ newline)
        with ((createView view ++ text ++ newline ++ "WITH NO DATA") ++ ";" ++ newline ++ newline) by (now rewrite !sapp_assoc).
      replace [createView view ++ text ++ newline ++ "WITH NO DATA;"] with [terminated (createView view ++ text ++ newline ++ "WITH NO DATA")]
        by (unfold terminated; now rewrite !sapp_assoc).
      apply emits_line; [|unfold createView; now rewrite M|reflexivity]. intros r. unfold createView. rewrite M. scan.
    + replace (createView view ++ text ++ ";" ++ newline ++ newline) with ((createView view ++ text) ++ ";" ++ newline ++ newline) by (now rewrite !sapp_assoc).
      replace [createView view ++ text ++ ";"] with [terminated (createView view ++ text)] by (unfold terminated; now rewrite !sapp_assoc).
      apply emits_line; [|unfold createView; now rewrite M|reflexivity]. intros r. unfold createView. rewrite M. scan.
Qed.

Lemma emits_dump d : goodDump d = true -> emits (pgDumpPayload d) (dumpStatements d).
Proof.
  unfold goodDump. rewrite !andb_true_iff, !forallb_forall. intros [[[[Ht Hs] Hd] Hv] Hr].
  unfold pgDumpPayload, dumpStatements.
  change ("SET standard_conforming_strings = on;" ++ newline ++ newline ++ ?x) with ("SET standard_conforming_strings = on;" ++ newline ++ newline ++ x).
  match goal with |- emits (_ ++ _ ++ _ ++ ?x) (?a :: ?y) =>
    change (emits ("SET standard_conforming_strings = on" ++ ";" ++ newline ++ newline ++ x) ([terminated "SET standard_conforming_strings = on"] ++ y)%list);
    replace ("SET standard_conforming_strings = on" ++ ";" ++ newline ++ newline ++ x)
      with (("SET standard_conforming_strings = on" ++ ";" ++ newline ++ newline) ++ x) by (now rewrite !sapp_assoc) end.
  apply emits_app; [apply (emits_line "SET standard_conforming_strings = on" (newline ++ newline)); [intros r; scan|reflexivity..]|].
  repeat apply emits_app; apply emits_concat_map; intros x Hx.
  - apply emits_extension.
  - now apply emits_type, Ht.
  - now apply emits_sequence, Hs.
  - now apply emits_table, Hd.
  - apply emits_ownership.
  - apply emits_rows.
  - now apply emits_routine, Hr.
  - now apply emits_post, Hd.
  - now apply emits_setValue, Hs.
  - now apply emits_view, Hv.
Qed.

(** ** Reading a row back

    A reader of INSERT statements by the rules of SQL: names between double
    quotes, literals between single quotes, a doubled quote for a quote. It
    knows nothing of the table. *)

Definition expect (p s : string) : option string := if HasPrefix s p then Some (dropString (String.length p) s) else None.

Fixpoint unquote (q : ascii) (s : string) : option (string * string) :=
  match s with
  | EmptyString => None
  | String c r =>
      if Ascii.eqb c q then
        match r with
        | String d r' =>
            if Ascii.eqb d q then match unquote q r' with Some (v, rest) => Some (String q v, rest) | None => None end
            else Some ("", r)
        | EmptyString => Some ("", r)
        end
      else match unquote q r with Some (v, rest) => Some (String c v, rest) | None => None end
  end.

Definition readQuoted (q : ascii) (s : string) : option (string * string) :=
  match s with String c r => if Ascii.eqb c q then unquote q r else None | EmptyString => None end.

Definition readValue (s : string) : option (option string * string) :=
  match expect "NULL" s with
  | Some r => Some (None, r)
  | None => match readQuoted quote s with Some (v, r) => Some (Some v, r) | None => None end
  end.

Fixpoint readList {A} (item : string -> option (A * string)) (fuel : nat) (s : string) : option (list A * string) :=
  match fuel with
  | O => None
  | S fuel =>
      match item s with
      | None => None
      | Some (x, r) =>
          match expect ", " r with
          | Some r' => match readList item fuel r' with Some (xs, r'') => Some (x :: xs, r'')%list | None => None end
          | None => Some ([x], r)
          end
      end
  end.

Record insertion := mkInsertion { in_Schema : string; in_Name : string; in_Columns : list string; in_Row : pgRow }.

Definition readInsert (s : string) : option insertion :=
  s ← expect "INSERT INTO " s;
  '(schema, s) ← readQuoted dquote s;
  s ← expect "." s;
  '(name, s) ← readQuoted dquote s;
  s ← expect " (" s;
  '(columns, s) ← readList (readQuoted dquote) (String.length s) s;
  s ← expect ") VALUES (" s;
  '(row, s) ← readList readValue (String.length s) s;
  if String.eqb s ");" then Some (mkInsertion schema name columns row) else None.

Lemma expect_app p s : expect p (p ++ s) = Some s.
Proof. unfold expect. now rewrite HasPrefix_app, dropString_app. Qed.

Lemma unquote_app q v r : starts q r = false ->
  unquote q (ReplaceAll q (String q (String q "")) v ++ String q r) = Some (v, r).
Proof.
  intros Hr. induction v as [|c v IH].
  - cbn [ReplaceAll String.append unquote]. rewrite Ascii.eqb_refl. destruct r as [|d r]; [done|]. cbn [starts] in Hr. now rewrite Hr.
  - cbn [ReplaceAll]. destruct (Ascii.eqb_spec c q) as [->|Hc].
    + rewrite !sapp_cons. cbn [String.append unquote]. now rewrite Ascii.eqb_refl, IH.
    + rewrite !sapp_cons. cbn [unquote]. apply Ascii.eqb_neq in Hc. now rewrite Hc, IH.
Qed.

Lemma readQuoted_app q v r : starts q r = false -> readQuoted q (quotedBy q v ++ r) = Some (v, r).
Proof.
  intros Hr. unfold quotedBy. rewrite sapp_cons. cbn [readQuoted]. rewrite Ascii.eqb_refl, sapp_assoc. now apply unquote_app.
Qed.

Lemma readValue_app (value : option string) r : starts quote r = false ->
  readValue (match value with None => "NULL" | Some v => quotePGLiteral v end ++ r) = Some (value, r).
Proof.
  intros Hr. unfold readValue. destruct value as [v|]; [|now rewrite expect_app].
  pose proof (readQuoted_app quote v r Hr) as E. unfold quotePGLiteral. rewrite E. reflexivity.
Qed.

(** What follows an item of a list. *)
Definition listEnd (r : string) : bool := starts "," r || starts ")" r.

Lemma listEnd_starts q r : listEnd r = true -> q <> ","%char -> q <> ")"%char -> starts q r = false.
Proof.
  unfold listEnd. destruct r as [|c r]; [done|]. cbn [starts]. intros H ? ?.
  destruct (Ascii.eqb_spec c q) as [->|]; [|done]. apply orb_true_iff in H as [->%Ascii.eqb_eq | ->%Ascii.eqb_eq]; congruence.
Qed.

Lemma readList_join {A} (item : string -> option (A * string)) (f : A -> string) l r fuel :
  (forall x r', In x l -> listEnd r' = true -> item (f x ++ r') = Some (x, r')) -> l <> [] -> (length l <= fuel)%nat ->
  listEnd r = true -> expect ", " r = None -> readList item fuel (Join (map f l) ", " ++ r) = Some (l, r).
Proof.
  intros Hi Hn Hf Hr He. revert fuel Hf. induction l as [|x l IH]; intros fuel Hf; [done|].
  destruct fuel as [|fuel]; [simpl in Hf; lia|]. destruct l as [|y l].
  - cbn [map Join readList]. now rewrite Hi, He by (try done; now left).
  - cbn [map Join]. rewrite sapp_assoc. cbn [readList]. rewrite Hi by (try reflexivity; now left). rewrite sapp_assoc, expect_app.
    change (f y :: map f l)%list with (map f (y :: l)). rewrite IH; [done|intros; apply Hi; [now right|done]|done|simpl in *; lia].
Qed.

Lemma Join_length {A} (f : A -> string) l r : r <> "" -> (length l <= String.length (Join (map f l) ", " ++ r))%nat.
Proof.
  intros Hr. rewrite string_app_length. assert (1 <= String.length r)%nat by (destruct r; simpl; [done|lia]).
  induction l as [|x [|y l] IH]; [simpl; lia..|].
  cbn [map Join] in *. rewrite !string_app_length. cbn [length String.length] in *. lia.
Qed.

Lemma map_insertValue (row : pgRow) n : length row = n ->
  map (insertValue row) (seq 0 n) = map (fun value => match value with None => "NULL" | Some v => quotePGLiteral v end) row.
Proof.
  intros <-. unfold insertValue.
  rewrite <- (map_map (fun i => nth i row None) (fun value => match value with None => "NULL" | Some v => quotePGLiteral v end)).
  f_equal. apply (nth_ext _ _ None None); [now rewrite length_map, length_seq|]. intros i Hi.
  rewrite length_map, length_seq in Hi. rewrite (nth_indep _ None (nth 0 row None)) by now rewrite length_map, length_seq.
  rewrite (map_nth (fun i => nth i row None) (seq 0 (length row)) 0 i). now rewrite seq_nth.
Qed.

Lemma readInsert_row table columns row : columns <> [] -> length row = length columns ->
  readInsert (terminated (insertRow table columns row)) =
    Some (mkInsertion (tb_Schema table) (tb_Name table) (map cl_Name columns) row).
Proof.
  intros Hc Hl. unfold terminated, insertRow. destruct columns as [|column columns]; [done|].
  assert (Hn : map cl_Name (column :: columns) <> []%list) by done.
  remember (column :: columns) as cols eqn:E. clear E Hc column columns.
  rewrite map_insertValue by done. rewrite <- (map_map cl_Name quotePGIdentifier).
  assert (Hr : row <> []%list) by (intros ->; now destruct cols).
  unfold readInsert, base.mbind, option_bind, quotePGQualifiedName, quotePGIdentifier. rewrite !sapp_assoc.
  rewrite expect_app, readQuoted_app by reflexivity. cbv beta iota.
  rewrite expect_app, readQuoted_app by reflexivity. cbv beta iota. rewrite expect_app. cbv beta iota.
  rewrite (readList_join _ (quotedBy dquote));
    [|intros; now apply readQuoted_app, listEnd_starts|done|now apply Join_length|reflexivity..].
  cbv beta iota. rewrite expect_app. cbv beta iota.
  rewrite (readList_join readValue);
    [|intros; now apply readValue_app, listEnd_starts|done|now apply Join_length|reflexivity..].
  reflexivity.
Qed.

(** C21: the rows of a table survive a backup whatever they hold: splitting the
    text of the rows gives one statement for each row, and reading a statement
    by the rules of SQL gives the names of the table and of its columns and
    the values of the row. No value and no name, with whatever quotes,
    semicolons, comments or dollar signs, ends a statement early. *)
Theorem pg_rows_survive table columns rows :
  columns <> [] -> (forall row, In row rows -> length row = length columns) ->
  exists statements, splitPGSQLStatements (writeNativeTableData table columns rows) = Ok statements /\
    map readInsert statements =
    map (fun row => Some (mkInsertion (tb_Schema table) (tb_Name table) (map cl_Name columns) row)) rows.
Proof.
  intros Hc Hl. eexists. split; [apply split_emits, emits_rows|]. rewrite map_map. apply map_ext_in.
  intros row Hin. apply readInsert_row; [done|now apply Hl].
Qed.

Lemma pg_rows_survive_witness :
  exists statements,
    splitPGSQLStatements (writeNativeTableData (mkTable "public" "t; --") [mkColumn "a" "text" true None; mkColumn "$b$" "text" false None]
      [[Some "'); DROP TABLE x; --"; None]; [Some "$$"; Some "/* ;"]]) = Ok statements /\
    map readInsert statements =
    [Some (mkInsertion "public" "t; --" ["a"; "$b$"] [Some "'); DROP TABLE x; --"; None]);
     Some (mkInsertion "public" "t; --" ["a"; "$b$"] [Some "$$"; Some "/* ;"])].
Proof.
  apply (pg_rows_survive (mkTable "public" "t; --") [mkColumn "a" "text" true None; mkColumn "$b$" "text" false None]
    [[Some "'); DROP TABLE x; --"; None]; [Some "$$"; Some "/* ;"]]); [done|].
  intros row [<-|[<-|[]]]; reflexivity.
Defined.
