(* ===== verification/PgWire.v ===== *)
(** * Messages of the PostgreSQL protocol

    Models the codec of src/internal/drivers/postgres/wire.go: messages, rows,
    row descriptions and error responses, and the loop that reads the result
    of a query. A reader is the part of the stream it has not consumed.

    The theorems show that the result a server sends is read back exactly and
    that reading a result ends on every stream. *)

From Stdlib Require Import Ascii String.
From S2P Require Import Prelude ChunkHash Core GoStrings GoText PgText.
Local Open Scope Z_scope.

Definition pgProtocolVersion30 : Z := 196608.
Definition maxPGMessagePayload : Z := Z.shiftl 64 20.

Record pgMessage := mkMessage { ms_Type : byte; ms_Payload : bytes }.

Record pgField := mkField
  { fd_Name : string; fd_TableOID : Z; fd_Attribute : Z; fd_DataTypeOID : Z; fd_DataTypeSize : Z; fd_TypeModifier : Z;
    fd_FormatCode : Z }.

Record pgQueryResult := mkResult { qr_Fields : list pgField; qr_Rows : list pgRow; qr_Command : string }.

(** ** Reading *)

Definition signed (bits z : Z) : Z := (z + 2 ^ (bits - 1)) mod 2 ^ bits - 2 ^ (bits - 1).

(** io.ReadFull of [n] bytes. *)
Definition readFull (n : Z) : M bytes bytes := fun l =>
  if zlen l <? n then (Err (if zlen l =? 0 then "EOF" else "unexpected EOF"), [])
  else (Ok (take (Z.to_nat n) l), drop (Z.to_nat n) l).

Definition readUint32 : M bytes Z := b <-- readFull 4 ;; mret (be_decode b).
Definition readInt16 : M bytes Z := b <-- readFull 2 ;; mret (signed 16 (be_decode b)).
Definition readInt32 : M bytes Z := b <-- readFull 4 ;; mret (signed 32 (be_decode b)).

Fixpoint cstring_loop (l out : bytes) : outcome string * bytes :=
  match l with
  | [] => (Err "EOF", [])
  | b :: r => if Byte.eqb b Byte.x00 then (Ok (string_of_list_byte out), r) else cstring_loop r (out ++ [b])
  end.

Definition readCString : M bytes string := fun l => cstring_loop l [].

Definition readPGMessage : M bytes pgMessage :=
  typ <-- readFull 1 ;;
  length <-- readInt32 ;;
  if (length <? 4) || (maxPGMessagePayload <? length - 4) then merr "invalid postgres message length"
  else payload <-- readFull (length - 4) ;; mret (mkMessage (hd Byte.x00 typ) payload).

Definition parseAuthenticationCode (payload : bytes) : outcome Z :=
  if zlen payload <? 4 then Err "postgres authentication message too short"
  else Ok (signed 32 (be_decode (take 4 payload))).

Definition readField : M bytes pgField :=
  name <-- readCString ;;
  tableOID <-- readUint32 ;;
  attr <-- readInt16 ;;
  typeOID <-- readUint32 ;;
  typeSize <-- readInt16 ;;
  typeMod <-- readInt32 ;;
  format <-- readInt16 ;;
  mret (mkField name tableOID attr typeOID typeSize typeMod format).

Definition readColumn : M bytes (option string) :=
  length <-- readInt32 ;;
  if length =? -1 then mret None
  else fun l =>
    if (length <? 0) || (zlen l <? length) then (Err "invalid postgres column length", l)
    else (data <-- readFull length ;; mret (Some (string_of_list_byte data))) l.

(** The loop over a count of items. *)
Fixpoint readItems {A} (item : M bytes A) (n : nat) : M bytes (list A) :=
  match n with
  | O => mret []
  | S n => x <-- item ;; rest <-- readItems item n ;; mret (x :: rest)
  end.

Definition parseRowDescription (payload : bytes) : outcome (list pgField) :=
  fst ((count <-- readInt16 ;;
        if count <? 0 then merr "negative postgres field count" else readItems readField (Z.to_nat count)) payload).

Definition parseDataRow (payload : bytes) : outcome pgRow :=
  fst ((count <-- readInt16 ;;
        if count <? 0 then merr "negative postgres row column count" else readItems readColumn (Z.to_nat count)) payload).

(** bytes.IndexByte(l, 0) as what is before and after it. *)
Fixpoint cutNul (l : bytes) : option (bytes * bytes) :=
  match l with
  | [] => None
  | b :: r =>
      if Byte.eqb b Byte.x00 then Some ([], r)
      else match cutNul r with Some (head, rest) => Some (b :: head, rest) | None => None end
  end.

(** The fields of an error, the last one of a code first. *)
Fixpoint error_loop (fuel : nat) (payload : bytes) (fields : list (byte * string)) : option (list (byte * string)) :=
  match fuel, payload with
  | S fuel, code :: rest =>
      if Byte.eqb code Byte.x00 then Some fields
      else match cutNul rest with
           | None => None
           | Some (text, rest) => error_loop fuel rest ((code, string_of_list_byte text) :: fields)
           end
  | _, _ => Some fields
  end.

Definition errorField (fields : list (byte * string)) (code : byte) : string :=
  match find (fun f => Byte.eqb f.1 code) fields with Some f => f.2 | None => "" end.

Definition parseErrorResponse (payload : bytes) : string :=
  match error_loop (length payload) payload [] with
  | None => "malformed postgres error response"
  | Some fields =>
      let message := if String.eqb (errorField fields Byte.x4d) "" then "postgres server error" else errorField fields Byte.x4d in
      if negb (String.eqb (errorField fields Byte.x53) "") then errorField fields Byte.x53 ++ ": " ++ message else message
  end.

Fixpoint trimNul (s : string) : string :=
  match s with
  | EmptyString => EmptyString
  | String c r => match trimNul r with EmptyString => if Ascii.eqb c "000" then "" else String c "" | r => String c r end
  end.

Definition msgRowDescription : byte := Byte.x54.
Definition msgDataRow : byte := Byte.x44.
Definition msgCommandComplete : byte := Byte.x43.
Definition msgError : byte := Byte.x45.
Definition msgReady : byte := Byte.x5a.
Definition msgParameter : byte := Byte.x53.
Definition msgNotice : byte := Byte.x4e.

(** Each message takes at least five bytes of the stream. *)
Fixpoint result_loop (fuel : nat) (result : pgQueryResult) : M bytes pgQueryResult :=
  match fuel with
  | O => mfuel
  | S fuel =>
      msg <-- readPGMessage ;;
      let t := ms_Type msg in
      if Byte.eqb t msgRowDescription then
        fields <-- mlift (parseRowDescription (ms_Payload msg)) ;;
        result_loop fuel (mkResult fields (qr_Rows result) (qr_Command result))
      else if Byte.eqb t msgDataRow then
        row <-- mlift (parseDataRow (ms_Payload msg)) ;;
        result_loop fuel (mkResult (qr_Fields result) (qr_Rows result ++ [row]) (qr_Command result))
      else if Byte.eqb t msgCommandComplete then
        result_loop fuel (mkResult (qr_Fields result) (qr_Rows result) (trimNul (string_of_list_byte (ms_Payload msg))))
      else if Byte.eqb t msgError then merr (parseErrorResponse (ms_Payload msg))
      else if Byte.eqb t msgReady then mret result
      else if Byte.eqb t msgParameter || Byte.eqb t msgNotice then result_loop fuel result
      else merr "unexpected postgres query message"
  end.

Definition noResult : pgQueryResult := mkResult [] [] "".

Definition readSimpleQueryResult : M bytes pgQueryResult := fun l => result_loop (S (length l)) noResult l.

(** ** Writing *)

Definition writeTypedMessage (typ : byte) (payload : bytes) : bytes :=
  typ :: be_encode 4 (signed 32 (zlen payload + 4)) ++ payload.

(** A text and the zero byte that ends it. *)
Definition cstring (s : string) : bytes := list_byte_of_string s ++ [Byte.x00].

Definition startupParams (params : gmap string string) : list (string * string) :=
  List.filter (fun p => negb (String.eqb p.1 "")) (sort_by (fun a b => String.ltb a.1 b.1) (map_to_list params)).

Definition writeStartupMessage (params : gmap string string) : bytes :=
  let payload := be_encode 4 pgProtocolVersion30 ++
    concat (map (fun p => cstring p.1 ++ cstring p.2) (startupParams params)) ++ [Byte.x00] in
  be_encode 4 (signed 32 (zlen payload + 4)) ++ payload.

(** ** What a server sends

    The encoding of a result by the protocol, for the statements below. *)

Definition encodeField (f : pgField) : bytes :=
  cstring (fd_Name f) ++ be_encode 4 (fd_TableOID f) ++ be_encode 2 (fd_Attribute f) ++ be_encode 4 (fd_DataTypeOID f) ++
  be_encode 2 (fd_DataTypeSize f) ++ be_encode 4 (fd_TypeModifier f) ++ be_encode 2 (fd_FormatCode f).

Definition encodeColumn (value : option string) : bytes :=
  match value with
  | None => be_encode 4 (-1)
  | Some s => be_encode 4 (Z.of_nat (String.length s)) ++ list_byte_of_string s
  end.

Definition encodeRow (row : pgRow) : bytes := be_encode 2 (zlen row) ++ concat (map encodeColumn row).
Definition encodeFields (fields : list pgField) : bytes := be_encode 2 (zlen fields) ++ concat (map encodeField fields).

Definition encodeResult (result : pgQueryResult) : bytes :=
  writeTypedMessage msgRowDescription (encodeFields (qr_Fields result)) ++
  concat (map (fun row => writeTypedMessage msgDataRow (encodeRow row)) (qr_Rows result)) ++
  writeTypedMessage msgCommandComplete (cstring (qr_Command result)) ++
  writeTypedMessage msgReady [Byte.x49].

Example wire_examples :
  (readSimpleQueryResult (encodeResult (mkResult [mkField "a" 1 (-2) 23 4 (-1) 0] [[Some "x"]; [None]] "SELECT 2"))).1 =
    Ok (mkResult [mkField "a" 1 (-2) 23 4 (-1) 0] [[Some "x"]; [None]] "SELECT 2") /\
  (readSimpleQueryResult (writeTypedMessage Byte.x49 [] ++ writeTypedMessage msgReady [Byte.x49])).1 = Err "unexpected postgres query message" /\
  parseErrorResponse (list_byte_of_string "SERROR" ++ [Byte.x00] ++ list_byte_of_string "Mno" ++ [Byte.x00; Byte.x00]) = "ERROR: no"%string.
Proof. vm_compute. repeat split. Qed.

(** ** Reading ends *)

Lemma consumes_full n : 0 <= n -> consumes (Z.to_nat n) (readFull n).
Proof.
  intros Hn l. unfold readFull. destruct (Z.ltb_spec (zlen l) n); simpl; [split; [lia|done]|].
  rewrite length_drop. unfold zlen in *. split; [lia|done].
Qed.

Lemma consumes_int32 : consumes 4 readInt32.
Proof. apply (consumes_bind 4 0); [now apply (consumes_full 4)|]. intros b. apply consumes_ret. Qed.

Lemma consumes_message : consumes 5 readPGMessage.
Proof.
  apply (consumes_bind 1 4); [now apply (consumes_full 1)|]. intros typ.
  apply (consumes_bind 4 0); [apply consumes_int32|]. intros n.
  destruct (Z.ltb_spec n 4); [apply consumes_err|]. destruct (_ <? n - 4); [apply consumes_err|].
  apply (consumes_weaken (Z.to_nat (n - 4) + 0)); [lia|]. apply consumes_bind; [apply consumes_full; lia|]. intros p. apply consumes_ret.
Qed.

Lemma items_no_fuel {A} (item : M bytes A) n l : (forall l, (item l).1 <> Fuel) -> (readItems item n l).1 <> Fuel.
Proof.
  intros Hi. revert l. induction n as [|n IH]; intros l; [done|]. cbn [readItems]. unfold mbind.
  specialize (Hi l). destruct (item l) as [[x|e|e|] r]; simpl in *; try done.
  specialize (IH r). destruct (readItems item n r) as [[y|e|e|] r']; done.
Qed.

Lemma consumes_uint32 : consumes 4 readUint32.
Proof. apply (consumes_bind 4 0); [now apply (consumes_full 4)|]. intros b. apply consumes_ret. Qed.

Lemma consumes_int16 : consumes 2 readInt16.
Proof. apply (consumes_bind 2 0); [now apply (consumes_full 2)|]. intros b. apply consumes_ret. Qed.

Lemma consumes_cstring : consumes 1 readCString.
Proof.
  intros l. unfold readCString. generalize (@nil byte). induction l as [|b l IH]; intros out; simpl; [split; [lia|done]|].
  destruct (Byte.eqb b Byte.x00); simpl; [split; [lia|done]|]. destruct (IH (out ++ [b])) as [L P]. split; [lia|done].
Qed.

Lemma consumes_field : consumes 19 readField.
Proof.
  unfold readField.
  repeat first [eapply (consumes_bind 1 18); [apply consumes_cstring|]; intros ? | eapply (consumes_bind 4 14); [apply consumes_uint32|]; intros ?
    | eapply (consumes_bind 2 12); [apply consumes_int16|]; intros ? | eapply (consumes_bind 4 8); [apply consumes_uint32|]; intros ?
    | eapply (consumes_bind 2 6); [apply consumes_int16|]; intros ? | eapply (consumes_bind 4 2); [apply consumes_int32|]; intros ?
    | eapply (consumes_bind 2 0); [apply consumes_int16|]; intros ?; apply consumes_ret].
Qed.

Lemma consumes_column : consumes 4 readColumn.
Proof.
  apply (consumes_bind 4 0); [apply consumes_int32|]. intros n. destruct (n =? -1); [apply consumes_ret|].
  intros l. destruct (Z.ltb_spec n 0); simpl; [split; [lia|done]|].
  destruct (zlen l <? n); simpl; [split; [lia|done]|].
  revert l. change (consumes 0 (data <-- readFull n ;; mret (Some (string_of_list_byte data)))).
  apply (consumes_weaken (Z.to_nat n + 0)); [lia|]. apply consumes_bind; [now apply consumes_full|]. intros d. apply consumes_ret.
Qed.

Lemma counted_no_fuel {A} (item : M bytes A) e p : (forall l, (item l).1 <> Fuel) ->
  fst ((count <-- readInt16 ;; if count <? 0 then merr e else readItems item (Z.to_nat count)) p) <> Fuel.
Proof.
  intros Hi. unfold mbind. destruct (consumes_int16 p) as [_ P]. destruct (readInt16 p) as [[n|e'|e'|] r]; simpl in *; try done.
  destruct (n <? 0); [done|]. now apply items_no_fuel.
Qed.

Lemma parseRow_no_fuel p : parseDataRow p <> Fuel.
Proof. apply counted_no_fuel. intros l. apply consumes_column. Qed.

Lemma parseFields_no_fuel p : parseRowDescription p <> Fuel.
Proof. apply counted_no_fuel. intros l. apply consumes_field. Qed.

Lemma result_consumes fuel result l : (length l < fuel)%nat ->
  (length (result_loop fuel result l).2 <= length l)%nat /\ (result_loop fuel result l).1 <> Fuel.
Proof.
  revert result l. induction fuel as [|fuel IH]; intros result l Hf; [lia|].
  set (good := fun x : outcome pgQueryResult * bytes => (length x.2 <= length l)%nat /\ x.1 <> Fuel).
  change (good (result_loop (S fuel) result l)). cbn [result_loop]. unfold mbind at 1.
  destruct (consumes_message l) as [L P]. destruct (readPGMessage l) as [[msg|e|e|] r]; simpl in L, P; try (split; simpl; [lia|done]).
  assert (R : forall result', good (result_loop fuel result' r)).
  { intros result'. destruct (IH result' r) as [L' P']; [lia|]. split; [lia|done]. }
  assert (Z : forall o, o <> Fuel -> good (o, r)) by (intros o Ho; split; simpl; [lia|done]).
  cbv zeta. destruct (Byte.eqb _ msgRowDescription).
  { unfold mbind, mlift. pose proof (parseFields_no_fuel (ms_Payload msg)) as N. destruct (parseRowDescription _); [apply R|apply Z; done..]. }
  destruct (Byte.eqb _ msgDataRow).
  { unfold mbind, mlift. pose proof (parseRow_no_fuel (ms_Payload msg)) as N. destruct (parseDataRow _); [apply R|apply Z; done..]. }
  destruct (Byte.eqb _ msgCommandComplete); [apply R|]. destruct (Byte.eqb _ msgError); [now apply Z|].
  destruct (Byte.eqb _ msgReady); [now apply Z|]. destruct (_ || _); [apply R|now apply Z].
Qed.

Theorem pg_result_terminates l :
  (readSimpleQueryResult l).1 <> Fuel /\ (length (readSimpleQueryResult l).2 <= length l)%nat.
Proof. unfold readSimpleQueryResult. destruct (result_consumes (S (length l)) noResult l) as [L P]; [lia|]. done. Qed.

(** ** A result is read back *)

Lemma takeFull_app n a b : zlen a = n -> readFull n (a ++ b) = (Ok a, b).
Proof.
  intros <-. unfold readFull. rewrite zlen_app. pose proof (zlen_nonneg b). replace (zlen a + zlen b <? zlen a) with false by lia.
  unfold zlen. rewrite Nat2Z.id, take_app_length, drop_app_length. done.
Qed.

Lemma be_decode_encode n z : be_decode (be_encode n z) = z mod 256 ^ Z.of_nat n.
Proof. unfold be_decode, be_encode. rewrite reverse_involutive. apply le_decode_encode. Qed.

Lemma zlen_be n z : zlen (be_encode n z) = Z.of_nat n.
Proof. unfold zlen. now rewrite be_encode_length. Qed.

Lemma signed_mod bits z : 0 < bits -> - 2 ^ (bits - 1) <= z < 2 ^ (bits - 1) -> signed bits (z mod 2 ^ bits) = z.
Proof.
  intros Hb Hz. unfold signed. assert (E : 2 ^ bits = 2 * 2 ^ (bits - 1)) by (rewrite <- Z.pow_succ_r by lia; f_equal; lia).
  rewrite Zplus_mod_idemp_l. rewrite Z.mod_small by lia. lia.
Qed.

Lemma signed_id bits z : 0 < bits -> - 2 ^ (bits - 1) <= z < 2 ^ (bits - 1) -> signed bits z = z.
Proof.
  intros Hb Hz. unfold signed. assert (E : 2 ^ bits = 2 * 2 ^ (bits - 1)) by (rewrite <- Z.pow_succ_r by lia; f_equal; lia).
  rewrite Z.mod_small by lia. lia.
Qed.

Lemma readInt16_app z r : - 2 ^ 15 <= z < 2 ^ 15 -> readInt16 (be_encode 2 z ++ r) = (Ok z, r).
Proof.
  intros Hz. unfold readInt16, mbind. rewrite takeFull_app by apply zlen_be. rewrite be_decode_encode.
  change (256 ^ Z.of_nat 2) with (2 ^ 16). now rewrite (signed_mod 16).
Qed.

Lemma readInt32_app z r : - 2 ^ 31 <= z < 2 ^ 31 -> readInt32 (be_encode 4 z ++ r) = (Ok z, r).
Proof.
  intros Hz. unfold readInt32, mbind. rewrite takeFull_app by apply zlen_be. rewrite be_decode_encode.
  change (256 ^ Z.of_nat 4) with (2 ^ 32). now rewrite (signed_mod 32).
Qed.

Lemma readUint32_app z r : 0 <= z < 2 ^ 32 -> readUint32 (be_encode 4 z ++ r) = (Ok z, r).
Proof.
  intros Hz. unfold readUint32, mbind. rewrite takeFull_app by apply zlen_be. rewrite be_decode_encode.
  change (256 ^ Z.of_nat 4) with (2 ^ 32). now rewrite Z.mod_small.
Qed.

Lemma cstring_loop_app s r out : ~ In Byte.x00 s -> cstring_loop (s ++ Byte.x00 :: r) out = (Ok (string_of_list_byte (out ++ s)), r).
Proof.
  revert out. induction s as [|b s IH]; intros out Hn; [simpl; now rewrite app_nil_r|]. simpl in Hn. cbn [app cstring_loop].
  destruct (Byte.eqb b Byte.x00) eqn:E; [apply Byte.byte_dec_bl in E; tauto|]. rewrite IH by tauto. now rewrite <- app_assoc.
Qed.

(** A text without a zero byte. *)
Definition noNul (s : string) : Prop := ~ In Byte.x00 (list_byte_of_string s).

Lemma readCString_app s r : noNul s -> readCString (cstring s ++ r) = (Ok s, r).
Proof.
  intros Hn. unfold readCString, cstring. rewrite <- app_assoc. cbn [app]. rewrite cstring_loop_app by done.
  cbn [app]. now rewrite string_of_list_byte_of_string.
Qed.

Lemma readMessage_app t p r : zlen p <= maxPGMessagePayload -> readPGMessage (writeTypedMessage t p ++ r) = (Ok (mkMessage t p), r).
Proof.
  intros Hp. assert (M : maxPGMessagePayload = 67108864) by reflexivity. pose proof (zlen_nonneg p) as Hn.
  unfold writeTypedMessage, readPGMessage, mbind. change (t :: be_encode 4 (signed 32 (zlen p + 4)) ++ p) with ([t] ++ (be_encode 4 (signed 32 (zlen p + 4)) ++ p)). rewrite <- !app_assoc.
  rewrite (takeFull_app 1 [t]) by done. rewrite (signed_id 32) by lia. rewrite readInt32_app by lia.
  replace ((zlen p + 4 <? 4) || (maxPGMessagePayload <? zlen p + 4 - 4)) with false by lia.
  now rewrite takeFull_app by lia.
Qed.

Lemma readItems_app {A} (item : M bytes A) (encode : A -> bytes) l r :
  (forall x r', In x l -> item (encode x ++ r') = (Ok x, r')) -> readItems item (length l) (concat (map encode l) ++ r) = (Ok l, r).
Proof.
  intros Hi. induction l as [|x l IH]; [done|]. cbn [length readItems map concat]. unfold mbind.
  rewrite <- app_assoc, Hi by now left. rewrite IH; [done|]. intros y r' Hy. apply Hi. now right.
Qed.

(** Results a server can send: the fields in their ranges, payloads within the
    limit of the reader. *)
Definition sendableField (f : pgField) : Prop :=
  noNul (fd_Name f) /\ 0 <= fd_TableOID f < 2 ^ 32 /\ - 2 ^ 15 <= fd_Attribute f < 2 ^ 15 /\ 0 <= fd_DataTypeOID f < 2 ^ 32 /\
  - 2 ^ 15 <= fd_DataTypeSize f < 2 ^ 15 /\ - 2 ^ 31 <= fd_TypeModifier f < 2 ^ 31 /\ - 2 ^ 15 <= fd_FormatCode f < 2 ^ 15.

Definition sendableRow (row : pgRow) : Prop := zlen row < 2 ^ 15 /\ zlen (encodeRow row) <= maxPGMessagePayload.

Definition sendable (result : pgQueryResult) : Prop :=
  Forall sendableField (qr_Fields result) /\ zlen (qr_Fields result) < 2 ^ 15 /\
  zlen (encodeFields (qr_Fields result)) <= maxPGMessagePayload /\ Forall sendableRow (qr_Rows result) /\
  noNul (qr_Command result) /\ Z.of_nat (String.length (qr_Command result)) < maxPGMessagePayload.

Lemma readField_app f r : sendableField f -> readField (encodeField f ++ r) = (Ok f, r).
Proof.
  intros (H1 & H2 & H3 & H4 & H5 & H6 & H7). unfold encodeField, readField. rewrite <- !app_assoc.
  unfold mbind. rewrite readCString_app by done. rewrite readUint32_app by done. rewrite readInt16_app by done.
  rewrite readUint32_app by done. rewrite readInt16_app by done. rewrite readInt32_app by done. rewrite readInt16_app by done.
  now destruct f.
Qed.

Lemma readColumn_app value r : zlen (encodeColumn value) <= maxPGMessagePayload -> readColumn (encodeColumn value ++ r) = (Ok value, r).
Proof.
  assert (M : maxPGMessagePayload = 67108864) by reflexivity. unfold readColumn, mbind. destruct value as [s|]; cbn [encodeColumn].
  - rewrite zlen_app, zlen_list_byte, zlen_be. intros Hs. rewrite <- app_assoc, readInt32_app by lia.
    replace (_ =? -1) with false by lia. rewrite zlen_app, zlen_list_byte. pose proof (zlen_nonneg r).
    replace (_ || _) with false by lia. rewrite takeFull_app by apply zlen_list_byte. now rewrite string_of_list_byte_of_string.
  - intros _. rewrite readInt32_app by lia. done.
Qed.

Lemma column_within row value : In value row -> zlen (encodeColumn value) <= zlen (encodeRow row).
Proof.
  intros Hin. unfold encodeRow. rewrite zlen_app, zlen_be. induction row as [|x row IH]; [done|]. cbn [map concat]. rewrite zlen_app.
  pose proof (zlen_nonneg (encodeColumn x)). pose proof (zlen_nonneg (concat (map encodeColumn row))).
  destruct Hin as [->|Hin]; [lia|]. specialize (IH Hin). lia.
Qed.

Lemma parseRow_encode row : sendableRow row -> parseDataRow (encodeRow row) = Ok row.
Proof.
  intros [H1 H2]. pose proof (zlen_nonneg row). unfold parseDataRow, encodeRow, mbind. rewrite readInt16_app by lia.
  replace (zlen row <? 0) with false by lia. unfold zlen. rewrite Nat2Z.id. rewrite <- (app_nil_r (concat _)).
  rewrite (readItems_app readColumn encodeColumn); [done|]. intros x r' Hx. apply readColumn_app.
  pose proof (column_within row x Hx). lia.
Qed.

Lemma parseFields_encode fields : Forall sendableField fields -> zlen fields < 2 ^ 15 ->
  parseRowDescription (encodeFields fields) = Ok fields.
Proof.
  intros Hf Hl. pose proof (zlen_nonneg fields). unfold parseRowDescription, encodeFields, mbind. rewrite readInt16_app by lia.
  replace (zlen fields <? 0) with false by lia. unfold zlen. rewrite Nat2Z.id. rewrite <- (app_nil_r (concat _)).
  rewrite (readItems_app readField encodeField); [done|]. intros x r' Hx. apply readField_app.
  rewrite List.Forall_forall in Hf. now apply Hf.
Qed.

Lemma trimNul_last s : noNul s -> trimNul (s ++ String "000" "") = s.
Proof.
  unfold noNul. induction s as [|c s IH]; [done|]. rewrite list_byte_cons. cbn [In]. intros Hn.
  change (String c s ++ String "000" "")%string with (String c (s ++ String "000" "")). cbn [trimNul]. rewrite IH by tauto.
  destruct s; [|done]. destruct (Ascii.eqb_spec c "000") as [->|]; [exfalso; apply Hn; now left|done].
Qed.

Lemma cstring_string s : string_of_list_byte (cstring s) = (s ++ String "000" "")%string.
Proof.
  unfold cstring. change [Byte.x00] with (list_byte_of_string (String "000" "")). rewrite <- list_byte_app.
  apply string_of_list_byte_of_string.
Qed.

Lemma rows_loop fuel fields rows before command r : Forall sendableRow rows -> (length rows <= fuel)%nat ->
  result_loop fuel (mkResult fields before command) (concat (map (fun row => writeTypedMessage msgDataRow (encodeRow row)) rows) ++ r) =
  result_loop (fuel - length rows) (mkResult fields (before ++ rows) command) r.
Proof.
  intros Hr. revert fuel before. induction Hr as [|row rows [H1 H2] Hr IH]; intros fuel before Hf.
  - rewrite app_nil_r. simpl. now rewrite Nat.sub_0_r.
  - destruct fuel as [|fuel]; [simpl in Hf; lia|]. cbn [map concat result_loop]. unfold mbind at 1.
    rewrite <- app_assoc, readMessage_app by done. cbn [ms_Type ms_Payload]. cbv zeta.
    change (Byte.eqb msgDataRow msgRowDescription) with false. change (Byte.eqb msgDataRow msgDataRow) with true. cbv iota.
    unfold mbind, mlift. rewrite parseRow_encode by done. cbn [qr_Fields qr_Rows qr_Command]. rewrite IH by (simpl in Hf; lia).
    simpl length. now rewrite <- app_assoc.
Qed.

Lemma message_length t p : (5 <= length (writeTypedMessage t p))%nat.
Proof. unfold writeTypedMessage. cbn [length]. rewrite length_app, be_encode_length. lia. Qed.

Lemma rows_length rows : (length rows <= length (concat (map (fun row => writeTypedMessage msgDataRow (encodeRow row)) rows)))%nat.
Proof.
  induction rows as [|row rows IH]; [done|]. cbn [map concat length]. rewrite length_app.
  pose proof (message_length msgDataRow (encodeRow row)). lia.
Qed.

(** What a query answers is read back exactly: for every result a server
    can send, its fields with their types, its rows with NULL and empty values
    kept apart, and its command tag, the reader of the protocol returns that
    result, and leaves what follows it in the stream. *)
Theorem pg_result_roundtrip result rest : sendable result ->
  readSimpleQueryResult (encodeResult result ++ rest) = (Ok result, rest).
Proof.
  intros (Hf & Hfn & Hfl & Hr & Hc & Hcl). unfold readSimpleQueryResult, encodeResult.
  set (fuel := length (_ ++ rest)).
  assert (Hfuel : (S (S (S (length (qr_Rows result)))) <= fuel)%nat).
  { subst fuel. rewrite !length_app. pose proof (rows_length (qr_Rows result)).
    pose proof (message_length msgRowDescription (encodeFields (qr_Fields result))).
    pose proof (message_length msgReady [Byte.x49]). lia. }
  rewrite <- !app_assoc. cbn [result_loop]. unfold mbind at 1. rewrite readMessage_app by done. cbn [ms_Type ms_Payload]. cbv zeta.
  change (Byte.eqb msgRowDescription msgRowDescription) with true. cbv iota. unfold mbind at 1, mlift. rewrite parseFields_encode by done.
  rewrite rows_loop by (done || lia). destruct (fuel - length (qr_Rows result))%nat as [|[|k]] eqn:Ek; [lia..|].
  cbn [result_loop]. unfold mbind at 1. rewrite readMessage_app.
  2:{ unfold cstring. rewrite zlen_app, zlen_list_byte. change (zlen [Byte.x00]) with 1. lia. }
  cbn [ms_Type ms_Payload]. cbv zeta.
  change (Byte.eqb msgCommandComplete msgRowDescription) with false. change (Byte.eqb msgCommandComplete msgDataRow) with false.
  change (Byte.eqb msgCommandComplete msgCommandComplete) with true. cbv iota. unfold mbind.
  rewrite readMessage_app by (change (zlen [Byte.x49]) with 1; reflexivity || done). cbn [ms_Type].
  change (Byte.eqb msgReady msgRowDescription) with false. change (Byte.eqb msgReady msgDataRow) with false.
  change (Byte.eqb msgReady msgCommandComplete) with false. change (Byte.eqb msgReady msgError) with false.
  change (Byte.eqb msgReady msgReady) with true. cbv iota. cbn [qr_Fields qr_Rows app noResult].
  rewrite cstring_string, trimNul_last by done. now destruct result.
Qed.
