(* ===== verification/PgConn.v ===== *)
(** * Connections to PostgreSQL

    Models src/internal/drivers/postgres/wire.go (the start of a connection,
    queries and COPY), scram.go, md5.go and native.go. The server is a
    parameter: for a message of the client, the bytes it answers. A connection
    keeps the messages sent, each with whether it was sent inside TLS. The
    hash functions, the nonce, the TLS handshake, dialling and url.Parse are
    parameters.

    The theorems show that no message but the request for TLS leaves a
    connection in clear when the settings require TLS, except in the query for
    the position of the log, which ignores the settings. *)

From Stdlib Require Import Ascii String.
From S2P Require Import Prelude ChunkHash Core Calendar GoStrings GoText Manifest Engine PgText PgWire.
Local Open Scope Z_scope.

(** ** Addresses *)

(** The part of a string before its last colon and after it. *)
Fixpoint lastColon (s : string) : option (string * string) :=
  match s with
  | EmptyString => None
  | String c r =>
      match lastColon r with
      | Some (a, b) => Some (String c a, b)
      | None => if Ascii.eqb c ":" then Some (EmptyString, r) else None
      end
  end.

(** net.SplitHostPort *)
Definition SplitHostPort (hostport : string) : option (string * string) :=
  match lastColon hostport with
  | None => None
  | Some (host, port) =>
      if HasPrefix host "[" then
        match Cut "]" host with
        | (inner, EmptyString, true) =>
            let inner := dropString 1 inner in
            if Contains inner "[" || Contains port "[" || Contains port "]" then None else Some (inner, port)
        | _ => None
        end
      else if Contains host ":" || Contains hostport "[" || Contains hostport "]" then None else Some (host, port)
  end.

(** net.JoinHostPort *)
Definition JoinHostPort (host port : string) : string :=
  if Contains host ":" then "[" ++ host ++ "]:" ++ port else host ++ ":" ++ port.

Definition splitAddress (address : string) : string * string :=
  let address := TrimSpace address in
  if String.eqb address "" then ("", "")%string
  else match SplitHostPort address with
       | Some hp => hp
       | None =>
           match SplitOn ":" address with
           | [host; port] => (host, port)
           | _ => (address, "")
           end
       end.

Example address_examples :
  splitAddress " db:5433 " = ("db", "5433")%string /\ splitAddress "[::1]:5432" = ("::1", "5432")%string /\
  splitAddress "db" = ("db", "")%string /\ splitAddress "::1" = ("::1", "")%string /\ JoinHostPort "::1" "5432" = "[::1]:5432"%string.
Proof. vm_compute. repeat split. Qed.

(** ** Settings *)

Record pgNativeConfig := mkConfig
  { pn_Address : string; pn_Host : string; pn_Port : string; pn_Database : string; pn_Username : string; pn_Password : string;
    pn_SSLMode : string; pn_ApplicationName : string }.

(** What url.Parse gives of a DSN. *)
Record PgURL := mkURL
  { ur_Scheme : string; ur_Hostname : string; ur_Port : string; ur_EscapedPath : string; ur_User : option (string * option string);
    ur_Query : string -> string }.

Definition normalizePGSSLMode (value : string) : string :=
  let mode := ToLower (TrimSpace value) in
  if existsb (String.eqb mode) ["disable"; "false"; "off"; ""] then "disable"
  else if existsb (String.eqb mode) ["true"; "on"] then "require" else mode.

Definition pgSSLModeUsesTLS (value : string) : bool :=
  existsb (String.eqb (normalizePGSSLMode value)) ["allow"; "prefer"; "require"; "verify-ca"; "verify-full"].

Definition pgSSLModeRequiresTLS (value : string) : bool :=
  existsb (String.eqb (normalizePGSSLMode value)) ["require"; "verify-ca"; "verify-full"].

(** [value] in place of [old] unless it is blank. *)
Definition orElse (value old : string) : string := if negb (String.eqb (TrimSpace value) "") then TrimSpace value else old.
Definition notEmpty (value old : string) : string := if negb (String.eqb value "") then value else old.

Section Config.
  Context (parseURL : string -> option PgURL) (pathUnescape : string -> option string).

Definition pgDefaults : pgNativeConfig :=
  mkConfig "" "127.0.0.1" "5432" "postgres" "postgres" "" "disable" "kronos".

Definition configFromDSN (dsn : string) : outcome pgNativeConfig :=
  match parseURL dsn with
  | None => Err "parse postgres dsn"
  | Some parsed =>
      if negb (String.eqb (ur_Scheme parsed) "postgres") && negb (String.eqb (ur_Scheme parsed) "postgresql")
      then Err "unsupported postgres dsn scheme"
      else
        let path := TrimPrefix (ur_EscapedPath parsed) "/" in
        database <~ (if String.eqb path "" then Ok (pn_Database pgDefaults)
                     else match pathUnescape path with Some d => Ok d | None => Err "parse postgres database name" end) ;;
        let username := match ur_User parsed with Some (name, _) => notEmpty name (pn_Username pgDefaults) | None => pn_Username pgDefaults end in
        let password := match ur_User parsed with Some (_, Some password) => password | _ => pn_Password pgDefaults end in
        let sslMode := TrimSpace (ur_Query parsed "sslmode") in
        Ok (mkConfig "" (notEmpty (ur_Hostname parsed) (pn_Host pgDefaults)) (notEmpty (ur_Port parsed) (pn_Port pgDefaults))
              database username password
              (if String.eqb sslMode "" then pn_SSLMode pgDefaults else normalizePGSSLMode sslMode)
              (orElse (ur_Query parsed "application_name") (pn_ApplicationName pgDefaults)))
  end.

Definition pgNativeConfigFromTarget (target : DTarget) : outcome pgNativeConfig :=
  let connection := mget (dt_Connection target) in
  let options := mget (dt_Options target) in
  let dsn := TrimSpace (connection "dsn") in
  cfg <~ (if String.eqb dsn "" then Ok pgDefaults else configFromDSN dsn) ;;
  let '(addrHost, addrPort) := splitAddress (connection "addr") in
  let host := orElse (connection "host") (notEmpty addrHost (pn_Host cfg)) in
  let port := orElse (connection "port") (notEmpty addrPort (pn_Port cfg)) in
  let password := firstNonEmpty [connection "password"; options "password"] in
  let sslMode := TrimSpace (firstNonEmpty [connection "sslmode"; connection "tls"; options "sslmode"; options "tls"]) in
  Ok (mkConfig (JoinHostPort host port) host port
        (orElse (firstNonEmpty [connection "database"; options "database"]) (pn_Database cfg))
        (orElse (firstNonEmpty [connection "username"; connection "user"; options "username"; options "user"]) (pn_Username cfg))
        (if negb (String.eqb (TrimSpace password) "") then password else pn_Password cfg)
        (if String.eqb sslMode "" then pn_SSLMode cfg else normalizePGSSLMode sslMode)
        (orElse (firstNonEmpty [connection "application_name"; options "application_name"]) (pn_ApplicationName cfg))).
End Config.

Definition startupSettings (cfg : pgNativeConfig) : gmap string string :=
  let params : gmap string string := {["user" := pn_Username cfg; "database" := pn_Database cfg]} in
  if negb (String.eqb (pn_ApplicationName cfg) "") then <["application_name" := pn_ApplicationName cfg]> params else params.

(** ** Connections *)

Section Conn.
  Context {S : Type} (serve : bytes -> S -> bytes * S).
  Context (md5 sha256 : bytes -> bytes) (hmac : bytes -> bytes -> bytes) (pbkdf2 : bytes -> bytes -> Z -> bytes) (nonce : outcome string).

Record PgConn := mkPgConn { pc_unread : bytes; pc_server : S; pc_tls : bool; pc_sent : list (bool * bytes) }.

Definition send (message : bytes) : M PgConn unit := fun c =>
  let '(answer, server) := serve message (pc_server c) in
  (Ok tt, mkPgConn (pc_unread c ++ answer) server (pc_tls c) (pc_sent c ++ [(pc_tls c, message)])).

Definition reading {A} (m : M bytes A) : M PgConn A := fun c =>
  let '(r, rest) := m (pc_unread c) in (r, mkPgConn rest (pc_server c) (pc_tls c) (pc_sent c)).

Definition textBytes (s : string) : bytes := list_byte_of_string s.

Definition performMD5PasswordAuth (username password : string) (authPayload : bytes) : M PgConn unit :=
  if String.eqb password "" then merr "postgres server requested MD5 password auth but no password was provided"
  else if zlen authPayload <? 8 then merr "postgres MD5 authentication message too short"
  else
    let salt := take 4 (drop 4 authPayload) in
    let inner := md5 (textBytes (password ++ username)) in
    let outer := md5 (hexEncode inner ++ salt) in
    send (writeTypedMessage Byte.x70 (textBytes "md5" ++ hexEncode outer ++ [Byte.x00])).

(** *** SCRAM-SHA-256 *)

Definition scramSHA256Mechanism : string := "SCRAM-SHA-256".

Fixpoint mechanism_loop (fuel : nat) (mechanisms : bytes) : bool :=
  match fuel, mechanisms with
  | Datatypes.S fuel, _ :: _ =>
      match cutNul mechanisms with
      | None | Some ([], _) => false
      | Some (name, rest) => String.eqb (string_of_list_byte name) scramSHA256Mechanism || mechanism_loop fuel rest
      end
  | _, _ => false
  end.

Definition supportsSCRAMSHA256 (authPayload : bytes) : bool := mechanism_loop (length authPayload) (drop 4 authPayload).

Definition writeSASLInitialResponse (mechanism : string) (initial : bytes) : M PgConn unit :=
  send (writeTypedMessage Byte.x70 (cstring mechanism ++ be_encode 4 (signed 32 (zlen initial)) ++ initial)).

(** The attributes of a message, the last one of a letter first. *)
Fixpoint attribute_loop (parts : list string) (out : list (ascii * string)) : outcome (list (ascii * string)) :=
  match parts with
  | [] => Ok out
  | String k (String "=" (String c r)) :: rest => attribute_loop rest ((k, String c r) :: out)
  | _ => Err "malformed postgres SCRAM attribute"
  end.

Definition parseSCRAMAttributes (message : string) : outcome (list (ascii * string)) :=
  if String.eqb message "" then Ok [] else attribute_loop (SplitOn "," message) [].

Definition attribute (attrs : list (ascii * string)) (k : ascii) : string :=
  match find (fun a => Ascii.eqb a.1 k) attrs with Some a => a.2 | None => "" end.

(** base64.StdEncoding: the codec of Base64 with its padding. *)
Definition padBase64 (l : bytes) : bytes :=
  match (length l mod 4)%nat with 2%nat => l ++ [Byte.x3d; Byte.x3d] | 3%nat => l ++ [Byte.x3d] | _ => l end.

Definition stdEncode (l : bytes) : bytes := padBase64 (EncodeToString stdAlphabet l).

Definition unpad (l : bytes) : bytes :=
  match reverse l with
  | Byte.x3d :: Byte.x3d :: r => reverse r
  | Byte.x3d :: r => reverse r
  | _ => l
  end.

Definition stdDecode (l : bytes) : option bytes :=
  let l := List.filter (fun b => negb (lineBreak b)) l in
  if Nat.eqb (length l mod 4) 0 then decodeDigits stdAlphabet (unpad l) else None.

Definition xorByte (a b : byte) : byte := z2b (Z.lxor (b2z a) (b2z b)).

(** The final message of the client and the signature it expects. *)
Definition buildSCRAMSHA256Final (password clientNonce clientFirstBare serverFirst : string) : outcome (string * string) :=
  attrs <~ parseSCRAMAttributes serverFirst ;;
  let serverNonce := attribute attrs "r" in
  if String.eqb serverNonce "" then Err "postgres SCRAM server-first message missing nonce"
  else if negb (HasPrefix serverNonce clientNonce) then Err "postgres SCRAM server nonce does not extend client nonce"
  else if String.eqb (attribute attrs "s") "" then Err "postgres SCRAM server-first message missing salt"
  else match stdDecode (textBytes (attribute attrs "s")) with
       | None => Err "decode postgres SCRAM salt"
       | Some salt =>
           match Atoi (attribute attrs "i") with
           | None => Err "invalid postgres SCRAM iteration count"
           | Some iterations =>
               if iterations <=? 0 then Err "invalid postgres SCRAM iteration count"
               else
                 let clientFinalWithoutProof := ("c=" ++ string_of_list_byte (stdEncode (textBytes "n,,")) ++ ",r=" ++ serverNonce)%string in
                 let authMessage := textBytes (clientFirstBare ++ "," ++ serverFirst ++ "," ++ clientFinalWithoutProof) in
                 let saltedPassword := pbkdf2 (textBytes password) salt iterations in
                 let clientKey := hmac saltedPassword (textBytes "Client Key") in
                 let clientSignature := hmac (sha256 clientKey) authMessage in
                 let clientProof := zip_with xorByte clientKey clientSignature in
                 let serverKey := hmac saltedPassword (textBytes "Server Key") in
                 Ok (clientFinalWithoutProof ++ ",p=" ++ string_of_list_byte (stdEncode clientProof),
                     string_of_list_byte (stdEncode (hmac serverKey authMessage)))%string
           end
       end.

Definition escapeSCRAMUsername (username : string) : string :=
  ReplaceAll "," "=2C" (ReplaceAll "=" "=3D" username).

(** The payload after the code of an authentication message with [code]. *)
Definition authContinue (code : Z) : M PgConn string :=
  msg <-- reading readPGMessage ;;
  if Byte.eqb (ms_Type msg) msgError then merr (parseErrorResponse (ms_Payload msg))
  else
    got <-- mlift (parseAuthenticationCode (ms_Payload msg)) ;;
    if negb (got =? code) then merr "unexpected postgres SCRAM authentication code"
    else mret (string_of_list_byte (drop 4 (ms_Payload msg))).

Definition performSCRAMSHA256 (username password : string) (authPayload : bytes) : M PgConn unit :=
  if String.eqb password "" then merr "postgres server requested SCRAM-SHA-256 but no password was provided"
  else if negb (supportsSCRAMSHA256 authPayload) then merr "postgres server did not advertise SCRAM-SHA-256"
  else
    clientNonce <-- mlift nonce ;;
    let clientFirstBare := ("n=" ++ escapeSCRAMUsername username ++ ",r=" ++ clientNonce)%string in
    _ <-- writeSASLInitialResponse scramSHA256Mechanism (textBytes ("n,," ++ clientFirstBare)) ;;
    serverFirst <-- authContinue 11 ;;
    final <-- mlift (buildSCRAMSHA256Final password clientNonce clientFirstBare serverFirst) ;;
    _ <-- send (writeTypedMessage Byte.x70 (textBytes final.1)) ;;
    serverFinal <-- authContinue 12 ;;
    attrs <-- mlift (parseSCRAMAttributes serverFinal) ;;
    if negb (String.eqb (attribute attrs "e") "") then merr "postgres SCRAM authentication failed"
    else if String.eqb (attribute attrs "v") "" then merr "postgres SCRAM final message missing server signature"
    else if negb (String.eqb (attribute attrs "v") final.2) then merr "postgres SCRAM server signature mismatch"
    else mret tt.

(** *** The start of a connection *)

Definition msgAuthentication : byte := Byte.x52.
Definition msgKeyData : byte := Byte.x4b.

Definition authenticate (username password : string) (payload : bytes) : M PgConn unit :=
  code <-- mlift (parseAuthenticationCode payload) ;;
  if code =? 0 then mret tt
  else if code =? 3 then
    if String.eqb password "" then merr "postgres server requested cleartext password but none was provided"
    else send (writeTypedMessage Byte.x70 (cstring password))
  else if code =? 5 then performMD5PasswordAuth username password payload
  else if code =? 10 then performSCRAMSHA256 username password payload
  else merr "postgres authentication method is not supported by native pgwire path yet".

(** [fuel] bounds the messages of the server, which may never be ready. *)
Fixpoint readStartupReady (fuel : nat) (username password : string) : M PgConn unit :=
  match fuel with
  | O => mfuel
  | Datatypes.S fuel =>
      msg <-- reading readPGMessage ;;
      let t := ms_Type msg in
      if Byte.eqb t msgAuthentication then
        _ <-- authenticate username password (ms_Payload msg) ;; readStartupReady fuel username password
      else if existsb (Byte.eqb t) [msgParameter; msgKeyData; msgNotice] then readStartupReady fuel username password
      else if Byte.eqb t msgError then merr (parseErrorResponse (ms_Payload msg))
      else if Byte.eqb t msgReady then mret tt
      else merr "unexpected postgres startup message"
  end.

Definition startup (fuel : nat) (params : gmap string string) (password : string) : M PgConn unit :=
  _ <-- send (writeStartupMessage params) ;; readStartupReady fuel (mget params "user") password.

Definition sendQuery (query : string) : M PgConn unit := send (writeTypedMessage Byte.x51 (cstring query)).

Definition pgSimpleQuery (fuel : nat) (params : gmap string string) (password query : string) : M PgConn pgQueryResult :=
  _ <-- startup fuel params password ;; _ <-- sendQuery query ;; reading readSimpleQueryResult.

(** What is left to read is the data of the copy. *)
Definition pgCopyBinaryOut (fuel : nat) (params : gmap string string) (password table : string) : M PgConn bytes :=
  _ <-- startup fuel params password ;;
  _ <-- sendQuery ("COPY " ++ table ++ " TO STDOUT WITH BINARY") ;;
  msg <-- reading readPGMessage ;;
  if Byte.eqb (ms_Type msg) Byte.x57 then fun c => (Ok (pc_unread c), c)
  else if Byte.eqb (ms_Type msg) msgError then merr (parseErrorResponse (ms_Payload msg))
  else merr "expected CopyInResponse".

(** *** TLS *)

Definition pgSSLRequestCode : Z := 80877103.
Definition sslRequest : bytes := be_encode 4 8 ++ be_encode 4 pgSSLRequestCode.

(** [handshake] is the TLS handshake with the server; what the server sent
    after its answer would be read as a part of it. *)
Context (handshake : pgNativeConfig -> S -> outcome S).

Definition tlsClient (cfg : pgNativeConfig) : M PgConn unit := fun c =>
  match pc_unread c with
  | [] =>
      match handshake cfg (pc_server c) with
      | Ok server => (Ok tt, mkPgConn [] server true (pc_sent c))
      | Err e => (Err e, c)
      | Panic e => (Panic e, c)
      | Fuel => (Fuel, c)
      end
  | _ => (Err "tls: first record does not look like a TLS handshake", c)
  end.

Definition startPGNativeTLS (cfg : pgNativeConfig) : M PgConn unit :=
  _ <-- send sslRequest ;;
  response <-- reading (readFull 1) ;;
  if negb (Byte.eqb (hd Byte.x00 response) Byte.x53) then
    if pgSSLModeRequiresTLS (pn_SSLMode cfg) then merr "postgres server does not support SSL" else mret tt
  else tlsClient cfg.

Definition negotiateTLS (cfg : pgNativeConfig) : M PgConn unit :=
  if pgSSLModeUsesTLS (pn_SSLMode cfg) then startPGNativeTLS cfg else mret tt.

(** *** Calls that dial a connection of their own *)

Context (dial : string -> S -> outcome unit).
Context (parseURL : string -> option PgURL) (pathUnescape : string -> option string) (fuel : nat).

(** The server, and everything sent to it so far. *)
Record PgWorld := mkPgWorld { pw_server : S; pw_sent : list (bool * bytes) }.

Definition onDial {A} (address : string) (m : M PgConn A) : M PgWorld A := fun w =>
  match dial address (pw_server w) with
  | Ok _ => let '(r, c) := m (mkPgConn [] (pw_server w) false (pw_sent w)) in (r, mkPgWorld (pc_server c) (pc_sent c))
  | Err e => (Err e, w)
  | Panic e => (Panic e, w)
  | Fuel => (Fuel, w)
  end.

Definition pgNativeSimpleQuery (target : DTarget) (query : string) : M PgWorld pgQueryResult :=
  cfg <-- mlift (pgNativeConfigFromTarget parseURL pathUnescape target) ;;
  onDial (pn_Address cfg) (_ <-- negotiateTLS cfg ;; pgSimpleQuery fuel (startupSettings cfg) (pn_Password cfg) query).

Definition pgNativeCopyBinaryOut (target : DTarget) (table : string) : M PgWorld bytes :=
  cfg <-- mlift (pgNativeConfigFromTarget parseURL pathUnescape target) ;;
  onDial (pn_Address cfg) (_ <-- negotiateTLS cfg ;; pgCopyBinaryOut fuel (startupSettings cfg) (pn_Password cfg) table).

(** No TLS here. *)
Definition pgNativeGetCurrentLSN (target : DTarget) : M PgWorld string :=
  cfg <-- mlift (pgNativeConfigFromTarget parseURL pathUnescape target) ;;
  onDial (pn_Address cfg)
    (result <-- pgSimpleQuery fuel (startupSettings cfg) (pn_Password cfg) "SELECT pg_current_wal_lsn()" ;;
     match qr_Rows result with
     | (Some lsn :: _) :: _ => mret lsn
     | _ => merr "pg_current_wal_lsn() returned no result"
     end).

(** ** What is sent in clear *)

(** [m] keeps the mode of the connection, sends in that mode only, and the
    messages sent before stay. *)
Definition steady {A} (m : M PgConn A) : Prop := forall c r c', m c = (r, c') ->
  pc_tls c' = pc_tls c /\ exists new, pc_sent c' = pc_sent c ++ new /\ Forall (fun s => s.1 = pc_tls c) new.

Lemma steady_ret {A} (a : A) : steady (mret a).
Proof. intros c r c' [= <- <-]. split; [done|]. exists []. now rewrite app_nil_r. Qed.

Lemma steady_err {A} e : steady (merr e : M PgConn A).
Proof. intros c r c' [= <- <-]. split; [done|]. exists []. now rewrite app_nil_r. Qed.

Lemma steady_fuel {A} : steady (mfuel : M PgConn A).
Proof. intros c r c' [= <- <-]. split; [done|]. exists []. now rewrite app_nil_r. Qed.

Lemma steady_lift {A} (o : outcome A) : steady (mlift o : M PgConn A).
Proof. intros c r c' [= <- <-]. split; [done|]. exists []. now rewrite app_nil_r. Qed.

Lemma steady_reading {A} (m : M bytes A) : steady (reading m).
Proof.
  intros c r c'. unfold reading. destruct (m (pc_unread c)) as [o rest]. intros [= <- <-]. split; [done|].
  exists []. now rewrite app_nil_r.
Qed.

Lemma steady_send message : steady (send message).
Proof.
  intros c r c'. unfold send. destruct (serve message (pc_server c)) as [answer server]. intros [= <- <-]. split; [done|].
  exists [(pc_tls c, message)]. split; [done|]. now repeat constructor.
Qed.

Lemma steady_bind {A B} (m : M PgConn A) (f : A -> M PgConn B) : steady m -> (forall a, steady (f a)) -> steady (x <-- m ;; f x).
Proof.
  intros Hm Hf c r c'. unfold mbind. destruct (m c) as [o c1] eqn:E. destruct (Hm c o c1 E) as (T1 & n1 & S1 & F1).
  destruct o as [a|e|e|].
  - intros E2. destruct (Hf a c1 r c' E2) as (T2 & n2 & S2 & F2). split; [congruence|]. exists (n1 ++ n2).
    rewrite S2, S1, app_assoc. split; [done|]. apply Forall_app. split; [done|]. now rewrite T1 in F2.
  - intros [= <- <-]. eauto.
  - intros [= <- <-]. eauto.
  - intros [= <- <-]. eauto.
Qed.

Ltac steady :=
  repeat first
    [ apply steady_ret | apply steady_err | apply steady_fuel | apply steady_lift | apply steady_reading | apply steady_send
    | apply steady_bind; [|intros ?] | match goal with |- steady (if ?b then _ else _) => destruct b end ].

Lemma steady_continue code : steady (authContinue code).
Proof. unfold authContinue. steady. Qed.

Lemma steady_scram username password payload : steady (performSCRAMSHA256 username password payload).
Proof. unfold performSCRAMSHA256, writeSASLInitialResponse. cbv zeta. steady; apply steady_continue || steady. Qed.

Lemma steady_authenticate username password payload : steady (authenticate username password payload).
Proof. unfold authenticate, performMD5PasswordAuth. cbv zeta. steady; apply steady_scram. Qed.

Lemma steady_startup username password n : steady (readStartupReady n username password).
Proof.
  induction n as [|n IH]; [apply steady_fuel|]. cbn [readStartupReady]. apply steady_bind; [apply steady_reading|]. intros msg. cbv zeta.
  destruct (Byte.eqb _ _); [apply steady_bind; [apply steady_authenticate|done]|]. destruct (existsb _ _); [done|]. steady.
Qed.

Lemma steady_query params password query : steady (pgSimpleQuery fuel params password query).
Proof. unfold pgSimpleQuery, startup, sendQuery. steady; apply steady_startup. Qed.

Lemma steady_copy params password table : steady (pgCopyBinaryOut fuel params password table).
Proof.
  unfold pgCopyBinaryOut, startup, sendQuery. steady; try apply steady_startup.
  intros c r c' [= <- <-]. split; [done|]. exists []. now rewrite app_nil_r.
Qed.

(** What is sent after TLS was required. *)
Lemma negotiated_sends {A} cfg (m : M PgConn A) c r c' : pgSSLModeRequiresTLS (pn_SSLMode cfg) = true -> steady m ->
  (_ <-- negotiateTLS cfg ;; m) c = (r, c') -> pc_tls c = false ->
  exists new, pc_sent c' = pc_sent c ++ new /\ Forall (fun s => s.1 = false -> s.2 = sslRequest) new.
Proof.
  intros Hreq Hm. unfold negotiateTLS.
  replace (pgSSLModeUsesTLS (pn_SSLMode cfg)) with true.
  2:{ symmetry. unfold pgSSLModeRequiresTLS, pgSSLModeUsesTLS in *. cbn [existsb] in *. rewrite !orb_true_iff in *. tauto. }
  unfold startPGNativeTLS. rewrite Hreq. cbv iota. intros E Ht. rewrite <- mbind_assoc in E. unfold mbind at 1 in E. unfold send in E.
  destruct (serve sslRequest (pc_server c)) as [answer server]. rewrite Ht in E. cbn [pc_sent pc_tls] in E.
  rewrite <- mbind_assoc in E. unfold mbind at 1, reading in E. cbn [pc_unread pc_server pc_tls pc_sent] in E.
  assert (Only : Forall (fun s : bool * bytes => s.1 = false -> s.2 = sslRequest) [(false, sslRequest)]) by now repeat constructor.
  destruct (readFull 1 (pc_unread c ++ answer)) as [[response|e|e|] rest]; try (injection E as <- <-; eauto; fail).
  destruct (negb _); [unfold mbind, merr in E; injection E as <- <-; eauto|].
  unfold mbind, tlsClient in E. cbn [pc_unread pc_server pc_sent] in E.
  destruct rest; [|injection E as <- <-; eauto].
  destruct (handshake cfg server) as [server'|e|e|]; try (injection E as <- <-; eauto; fail).
  destruct (Hm _ _ _ E) as (_ & new & Es & Hn). cbn [pc_sent pc_tls] in Es, Hn. exists ((false, sslRequest) :: new).
  rewrite Es, <- app_assoc. split; [done|]. constructor; [done|]. eapply Forall_impl; [exact Hn|]. simpl. intros s Hs Hs'. congruence.
Qed.

(** When the settings of a target require TLS (sslmode require, verify-ca or
    verify-full), a query and a copy send nothing in clear but the request for
    TLS: neither the name of the user nor a password nor the query, whatever
    the server answers. *)
Theorem pg_required_tls_kept target cfg w :
  pgNativeConfigFromTarget parseURL pathUnescape target = Ok cfg -> pgSSLModeRequiresTLS (pn_SSLMode cfg) = true ->
  (forall query r w', pgNativeSimpleQuery target query w = (r, w') ->
     exists new, pw_sent w' = pw_sent w ++ new /\ Forall (fun s => s.1 = false -> s.2 = sslRequest) new) /\
  (forall table r w', pgNativeCopyBinaryOut target table w = (r, w') ->
     exists new, pw_sent w' = pw_sent w ++ new /\ Forall (fun s => s.1 = false -> s.2 = sslRequest) new).
Proof.
  intros Hc Hreq.
  assert (D : forall A (m : M PgConn A) address r w', steady m -> onDial address (_ <-- negotiateTLS cfg ;; m) w = (r, w') ->
    exists new, pw_sent w' = pw_sent w ++ new /\ Forall (fun s => s.1 = false -> s.2 = sslRequest) new).
  { intros A m address r w' Hm. unfold onDial.
    destruct (dial address (pw_server w)); [|intros [= <- <-]; exists []; now rewrite app_nil_r..].
    destruct ((_ <-- negotiateTLS cfg ;; m) (mkPgConn [] (pw_server w) false (pw_sent w))) as [r1 c1] eqn:E.
    intros [= <- <-]. cbn [pw_sent]. now apply (negotiated_sends cfg m _ _ _ Hreq Hm E). }
  split; intros q r w'; unfold pgNativeSimpleQuery, pgNativeCopyBinaryOut, mbind at 1, mlift; rewrite Hc; apply D;
    [apply steady_query|apply steady_copy].
Qed.

Lemma sent_bind {A B} (m : M PgConn A) (f : A -> M PgConn B) c x : (forall a, steady (f a)) ->
  In x (pc_sent (m c).2) -> In x (pc_sent ((a <-- m ;; f a) c).2).
Proof.
  intros Hf Hx. unfold mbind. destruct (m c) as [[a|e|e|] c1]; [|done..]. simpl in Hx.
  destruct (f a c1) as [r c2] eqn:E. destruct (Hf a _ _ _ E) as (_ & new & Hn & _). cbn [snd]. rewrite Hn. apply in_app_iff. now left.
Qed.

(** A server that asks for the password in clear is given it. *)
Lemma startup_cleartext n username password c rest : password <> ""%string ->
  pc_unread c = writeTypedMessage msgAuthentication (be_encode 4 3) ++ rest ->
  In (pc_tls c, writeTypedMessage Byte.x70 (cstring password)) (pc_sent (readStartupReady (Datatypes.S n) username password c).2).
Proof.
  intros Hp Hc. apply String.eqb_neq in Hp. cbn [readStartupReady]. unfold mbind at 1, reading at 1. rewrite Hc, readMessage_app by done.
  cbn [ms_Type ms_Payload]. cbv zeta. change (Byte.eqb msgAuthentication msgAuthentication) with true. cbv iota.
  apply sent_bind; [intros _; apply steady_startup|]. unfold authenticate, mbind, mlift.
  change (parseAuthenticationCode (be_encode 4 3)) with (Ok 3). cbv iota beta. change (3 =? 0) with false. change (3 =? 3) with true. cbv iota.
  rewrite Hp. unfold send. cbn [pc_server pc_sent pc_tls]. destruct (serve _ (pc_server c)) as [answer server]. cbn [snd pc_sent].
  apply in_app_iff. right. now left.
Qed.

(** The query for the position of the log ignores the setting: it opens a
    connection without TLS even when the settings require it, and gives the
    password in clear to a server that asks for it. Every incremental backup
    of PostgreSQL starts with that query. *)
Theorem pg_lsn_sends_password_in_clear target cfg w n rest :
  pgNativeConfigFromTarget parseURL pathUnescape target = Ok cfg -> pn_Password cfg <> ""%string ->
  dial (pn_Address cfg) (pw_server w) = Ok tt -> fuel = Datatypes.S n ->
  (serve (writeStartupMessage (startupSettings cfg)) (pw_server w)).1 = writeTypedMessage msgAuthentication (be_encode 4 3) ++ rest ->
  In (false, writeTypedMessage Byte.x70 (cstring (pn_Password cfg))) (pw_sent (pgNativeGetCurrentLSN target w).2).
Proof.
  intros Hc Hp Hd Hfuel Hs. unfold pgNativeGetCurrentLSN, mbind at 1, mlift. rewrite Hc. unfold onDial. rewrite Hd.
  match goal with |- context [let '(r, c) := ?m ?c0 in _] =>
    enough (In (false, writeTypedMessage Byte.x70 (cstring (pn_Password cfg))) (pc_sent (m c0).2)) by (destruct (m c0); done) end.
  apply sent_bind; [intros result; destruct (qr_Rows result) as [|[|[lsn|] ?] ?]; steady|].
  unfold pgSimpleQuery. apply sent_bind; [intros _; unfold sendQuery; steady|].
  unfold startup, mbind, send. cbn [pc_server pc_unread pc_tls pc_sent].
  destruct (serve (writeStartupMessage (startupSettings cfg)) (pw_server w)) as [answer server]. simpl in Hs. subst answer. rewrite Hfuel.
  match goal with |- context [readStartupReady _ _ _ ?c] => apply (startup_cleartext n _ _ c rest Hp eq_refl) end.
Qed.
End Conn.
