(* ===== verification/PgDriver.v ===== *)
(** * The PostgreSQL driver

    Models src/internal/drivers/postgres/native_backup.go (what a backup
    reads), native_restore.go and driver.go against the class
    [pgNativeQueryer], the interface of the source; PgConn implements it. The
    external tools are a parameter.

    The theorems show what a restore of a native backup runs, and that a
    database with a view cannot be restored. *)

From Stdlib Require Import Ascii String.
From S2P Require Import Prelude ChunkHash Core Calendar GoStrings GoText Manifest Engine PgText PgSplit PgDump PgWire PgConn Documents.
Local Open Scope Z_scope.

(** A queryer, with what it acts on; a copy is the messages left to read. *)
Class pgNativeQueryer (Q : Type) := {
  SimpleQuery : DTarget -> string -> M Q pgQueryResult;
  CopyBinaryOut : DTarget -> string -> M Q bytes;
  GetCurrentLSN : DTarget -> M Q string
}.

(** ** Rows by name *)

Fixpoint rowByName (fields : list pgField) (row : pgRow) (mapped : gmap string string) : option (gmap string string) :=
  match fields, row with
  | [], [] => Some mapped
  | field :: fields, value :: row =>
      rowByName fields row (match value with Some v => <[fd_Name field := v]> mapped | None => mapped end)
  | _, _ => None
  end.

Fixpoint rows_loop (fields : list pgField) (rows : list pgRow) : outcome (list (gmap string string)) :=
  match rows with
  | [] => Ok []
  | row :: rest =>
      match rowByName fields row ∅ with
      | None => Err "postgres row has another number of values than fields"
      | Some mapped => out <~ rows_loop fields rest ;; Ok (mapped :: out)
      end
  end.

Definition pgRowsByName (result : pgQueryResult) : outcome (list (gmap string string)) :=
  rows_loop (qr_Fields result) (qr_Rows result).

Definition rowPtr (row : gmap string string) (key : string) : option string := row !! key.

(** ** The data of a copy *)

(** What is left of the messages, and whether the copy has ended. *)
Record pgCopyReader := mkCopyReader { cr_unread : bytes; cr_done : bool }.

(** Read into a buffer of [n] bytes: the bytes copied and the error. *)
Definition copyRead (n : Z) : pgCopyReader -> bytes * option string * pgCopyReader := fun r =>
  if cr_done r then ([], Some EOF, r)
  else match readPGMessage (cr_unread r) with
       | (Ok msg, rest) =>
           if Byte.eqb (ms_Type msg) Byte.x64 then
             (take (Z.to_nat n) (ms_Payload msg), if n <? zlen (ms_Payload msg) then Some "short buffer" else None, mkCopyReader rest false)
           else if Byte.eqb (ms_Type msg) msgCommandComplete then ([], Some EOF, mkCopyReader rest true)
           else if Byte.eqb (ms_Type msg) msgError then ([], Some (parseErrorResponse (ms_Payload msg)), mkCopyReader rest true)
           else ([], Some "unexpected COPY message during data phase", mkCopyReader rest true)
       | (Err e, rest) => ([], Some e, mkCopyReader rest false)
       | (_, rest) => ([], Some "", mkCopyReader rest false)
       end.

(** io.ReadFull: an error of the read that completes the buffer is dropped.
    Each pass takes a message of at least five bytes. *)
Fixpoint copy_loop (fuel : nat) (n : Z) (got : bytes) : M pgCopyReader bytes :=
  match fuel with
  | O => mfuel
  | S fuel => fun r =>
      if n <=? zlen got then (Ok got, r)
      else
        let '(data, err, r) := copyRead (n - zlen got) r in
        let got := got ++ data in
        match err with
        | None => copy_loop fuel n got r
        | Some e =>
            if n <=? zlen got then (Ok got, r)
            else (Err (if String.eqb e EOF && (0 <? zlen got) then "unexpected EOF" else e), r)
        end
  end.

Definition copyFull (n : Z) : M pgCopyReader bytes := fun r => copy_loop (length (cr_unread r) + 2) n [] r.

Definition copyInt16 : M pgCopyReader Z := b <-- copyFull 2 ;; mret (signed 16 (be_decode b)).
Definition copyInt32 : M pgCopyReader Z := b <-- copyFull 4 ;; mret (signed 32 (be_decode b)).

(** The values of a row from the column [i] on; [count] columns are left. *)
Fixpoint copy_row (nullBitmap : bytes) (count : nat) (i : Z) : M pgCopyReader pgRow :=
  match count with
  | O => mret []
  | S count =>
      value <-- (if negb (Z.land (b2z (nth (Z.to_nat (i / 8)) nullBitmap Byte.x00)) (Z.shiftr 128 (i mod 8)) =? 0) then mret None
                 else
                   valLen <-- copyInt32 ;;
                   if valLen =? -1 then mret None
                   else if (valLen <? 0) || (2 ^ 30 <? valLen) then merr "COPY BINARY: invalid value length"
                   else data <-- copyFull valLen ;; mret (Some (string_of_list_byte data))) ;;
      rest <-- copy_row nullBitmap count (i + 1) ;;
      mret (value :: rest)
  end.

(** [fuel] bounds the rows; each takes at least two bytes of a message. *)
Fixpoint copy_rows (fuel : nat) (colCount : Z) (rows : list pgRow) : M pgCopyReader (list pgRow) :=
  match fuel with
  | O => mfuel
  | S fuel =>
      rowLen <-- copyInt16 ;;
      if rowLen =? -1 then mret rows
      else
        let nullBitmapLen := Z.quot (signed 16 (colCount + 7)) 8 in
        if nullBitmapLen <? 0 then mpanic "makeslice: len out of range"
        else
          nullBitmap <-- copyFull nullBitmapLen ;;
          row <-- copy_row nullBitmap (Z.to_nat colCount) 0 ;;
          copy_rows fuel colCount (rows ++ [row])
  end.

Definition pgReadBinaryCopy (stream : bytes) (columns : list pgNativeColumn) : outcome (list pgRow) :=
  fst ((colCount <-- copyInt16 ;;
        if negb (colCount =? zlen columns) then merr "COPY BINARY: expected another number of columns"
        else copy_rows (length stream + 1) colCount []) (mkCopyReader stream false)).

(** ** Reading the database *)

Section Backup.
  Context {Q : Type} `{!pgNativeQueryer Q} (target : DTarget).

Definition listRows (query : string) : M Q (list (gmap string string)) :=
  result <-- SimpleQuery target query ;; mlift (pgRowsByName result).

(** The rows of a query in which none of [keys] is empty. *)
Definition completeRows (query : string) (keys : list string) : M Q (list (gmap string string)) :=
  rows <-- listRows query ;;
  mret (List.filter (fun row => forallb (fun key => negb (String.eqb (mget row key) "")) keys) rows).

Definition pgNativeListTables : M Q (list pgNativeTable) :=
  rows <-- listRows pgNativeTablesQuery ;;
  mret (map (fun row => mkTable (mget row "schema_name") (mget row "table_name")) rows).

Definition pgNativeListExtensions : M Q (list pgNativeExtension) :=
  rows <-- completeRows pgNativeExtensionsQuery ["extension_name"] ;;
  mret (map (fun row => mkExtension (mget row "extension_name") (mget row "schema_name") (mget row "extension_version")) rows).

Definition enumType (row : gmap string string) : pgNativeType :=
  mkType (mget row "schema_name")
    ("CREATE TYPE " ++ quotePGQualifiedName (mget row "schema_name") (mget row "type_name") ++ " AS ENUM (" ++ mget row "enum_labels" ++ ");").

Definition pgNativeListEnumTypes : M Q (list pgNativeType) :=
  rows <-- completeRows pgNativeEnumTypesQuery ["schema_name"; "type_name"; "enum_labels"] ;; mret (map enumType rows).

Definition domainType (row : gmap string string) : pgNativeType :=
  mkType (mget row "schema_name")
    ("CREATE DOMAIN " ++ quotePGQualifiedName (mget row "schema_name") (mget row "type_name") ++ " AS " ++ mget row "base_type" ++
     (if negb (String.eqb (mget row "domain_default") "") then " DEFAULT " ++ mget row "domain_default" else "") ++
     (if parsePGBool (mget row "not_null") then " NOT NULL" else "") ++
     (if negb (String.eqb (mget row "constraints") "") then " " ++ mget row "constraints" else "") ++ ";").

Definition pgNativeListDomainTypes : M Q (list pgNativeType) :=
  rows <-- completeRows pgNativeDomainTypesQuery ["schema_name"; "type_name"; "base_type"] ;; mret (map domainType rows).

Definition pgNativeListTypes : M Q (list pgNativeType) :=
  enums <-- pgNativeListEnumTypes ;; domains <-- pgNativeListDomainTypes ;; mret (enums ++ domains).

Definition sequenceOf (row : gmap string string) : pgNativeSequence :=
  mkSequence (mget row "schema_name") (mget row "sequence_name") (mget row "data_type") (mget row "start_value") (mget row "min_value")
    (mget row "max_value") (mget row "increment_by") (mget row "cache_size") (parsePGBool (mget row "cycle")) (rowPtr row "last_value")
    (mget row "owned_schema") (mget row "owned_table") (mget row "owned_column").

Definition pgNativeListSequences : M Q (list pgNativeSequence) :=
  rows <-- listRows pgNativeSequencesQuery ;; mret (map sequenceOf rows).

Definition pgNativeListViews : M Q (list pgNativeView) :=
  rows <-- completeRows pgNativeViewsQuery ["schema_name"; "view_name"; "view_def"] ;;
  mret (map (fun row => mkView (mget row "schema_name") (mget row "view_name") (mget row "view_def")
                          (String.eqb (mget row "relkind") "m")) rows).

Definition pgNativeListRoutines : M Q (list string) :=
  rows <-- completeRows pgNativeRoutinesQuery ["routine_def"] ;; mret (map (fun row => mget row "routine_def") rows).

Definition pgNativeListColumns (table : pgNativeTable) : M Q (list pgNativeColumn) :=
  rows <-- listRows (pgNativeColumnsQuery table) ;;
  mret (map (fun row => mkColumn (mget row "column_name") (mget row "data_type") (parsePGBool (mget row "not_null"))
                          (rowPtr row "column_default")) rows).

Definition pgNativeListConstraints (table : pgNativeTable) : M Q (list pgNativeConstraint) :=
  rows <-- completeRows (pgNativeConstraintsQuery table) ["constraint_name"; "constraint_def"] ;;
  mret (map (fun row => mkConstraint (mget row "constraint_name") (mget row "constraint_def")) rows).

Definition pgNativeListIndexes (table : pgNativeTable) : M Q (list string) :=
  rows <-- completeRows (pgNativeIndexesQuery table) ["index_def"] ;; mret (map (fun row => mget row "index_def") rows).

Definition pgNativeListTriggers (table : pgNativeTable) : M Q (list string) :=
  rows <-- completeRows (pgNativeTriggersQuery table) ["trigger_def"] ;; mret (map (fun row => mget row "trigger_def") rows).

(** The largest allocation of make on 64-bit Linux, in rows of 24 bytes. *)
Definition maxRows : Z := 2 ^ 48 / 24.

(** The rows of a table without columns: only their number is known. *)
Definition pgCountRows (table : pgNativeTable) : M Q (list pgRow) :=
  rows <-- listRows ("select count(*)::text as row_count from " ++ quotePGQualifiedName (tb_Schema table) (tb_Name table)) ;;
  match rows with
  | [] => mret []
  | row :: _ =>
      match Atoi (mget row "row_count") with
      | None => merr "invalid postgres zero-column row count"
      | Some count =>
          if count <? 0 then merr "invalid postgres zero-column row count"
          else if maxRows <? count then mpanic "makeslice: len out of range"
          else mret (replicate (Z.to_nat count) [])
      end
  end.

(** An error of the copy, and a copy without rows, are followed by SELECT. *)
Definition pgNativeReadTable (table : pgNativeTable) (columns : list pgNativeColumn) : M Q (list pgRow) :=
  let name := quotePGQualifiedName (tb_Schema table) (tb_Name table) in
  let select : M Q (list pgRow) :=
    result <-- SimpleQuery target ("select " ++ Join (map (fun column => quotePGIdentifier (cl_Name column)) columns) ", " ++ " from " ++ name) ;;
    mret (qr_Rows result) in
  match columns with
  | [] => pgCountRows table
  | _ => fun q =>
      match CopyBinaryOut target name q with
      | (Ok stream, q) =>
          match pgReadBinaryCopy stream columns with
          | Ok (row :: rows) => (Ok (row :: rows), q)
          | Panic e => (Panic e, q)
          | _ => select q
          end
      | (Err _, q) => select q
      | (Panic e, q) => (Panic e, q)
      | (Fuel, q) => (Fuel, q)
      end
  end.

Definition readTableDump (table : pgNativeTable) : M Q pgNativeTableDump :=
  columns <-- pgNativeListColumns table ;;
  rows <-- pgNativeReadTable table columns ;;
  constraints <-- pgNativeListConstraints table ;;
  indexes <-- pgNativeListIndexes table ;;
  triggers <-- pgNativeListTriggers table ;;
  mret (mkTableDump table columns rows constraints indexes triggers).

Fixpoint readTableDumps (tables : list pgNativeTable) : M Q (list pgNativeTableDump) :=
  match tables with
  | [] => mret []
  | table :: rest => dump <-- readTableDump table ;; dumps <-- readTableDumps rest ;; mret (dump :: dumps)
  end.

(** Everything a backup reads, each query on its own. *)
Definition readDump : M Q PgDump :=
  tables <-- pgNativeListTables ;;
  extensions <-- pgNativeListExtensions ;;
  types <-- pgNativeListTypes ;;
  sequences <-- pgNativeListSequences ;;
  views <-- pgNativeListViews ;;
  routines <-- pgNativeListRoutines ;;
  dumps <-- readTableDumps tables ;;
  mret (mkPgDump extensions types sequences dumps views routines).

(** ** Settings *)

Definition databaseObjectKind : string := "database".
Definition globalsObjectKind : string := "postgres_globals".

Definition databaseName : string :=
  let connection := TrimSpace (mget (dt_Connection target) "database") in
  let option := TrimSpace (mget (dt_Options target) "database") in
  if negb (String.eqb connection "") then connection else if negb (String.eqb option "") then option else "postgres".

Definition includeGlobals : bool :=
  let value := firstNonEmpty
    [mget (dt_Connection target) "include_globals"; mget (dt_Connection target) "includeGlobals";
     mget (dt_Options target) "include_globals"; mget (dt_Options target) "includeGlobals"; mget (dt_Options target) "globals"] in
  existsb (String.eqb (ToLower (TrimSpace value))) ["1"; "true"; "yes"; "on"].

Definition useNativeProtocol : bool :=
  let value := ToLower (TrimSpace (firstNonEmpty
    [mget (dt_Connection target) "protocol"; mget (dt_Connection target) "native_protocol"; mget (dt_Connection target) "native";
     mget (dt_Options target) "protocol"; mget (dt_Options target) "native_protocol"; mget (dt_Options target) "native"])) in
  negb (existsb (String.eqb value) ["pg_dump"; "shell"; "external"]).

(** ** Native backups and restores *)

Definition totalRows (d : PgDump) : Z := foldr (fun dump n => zlen (td_Rows dump) + n) 0 (pd_Dumps d).

(** The records of a backup: the payload and the end of its object. *)
Definition dumpRecords (d : PgDump) : list DRecord :=
  let obj := mkObjectRef "public" databaseName databaseObjectKind in
  [mkDRecord obj (list_byte_of_string (pgDumpPayload d)) 0 false; mkDRecord obj [] (totalRows d) true].

Definition pgNativeBackupFull : M Q (list DRecord * ResumePoint) :=
  if includeGlobals then merr "native postgres backup does not support include_globals yet"
  else d <-- readDump ;; mret (dumpRecords d, mkResumePoint "postgres" "pgwire:native-sql" 0 ∅).

Definition isRestorableObject (kind : string) : bool := String.eqb kind databaseObjectKind || String.eqb kind globalsObjectKind.

Fixpoint run_statements (statements : list string) : M Q unit :=
  match statements with
  | [] => mret tt
  | statement :: rest => _ <-- SimpleQuery target statement ;; run_statements rest
  end.

Definition replaceRequired : string :=
  "postgres restore requires replace_existing=true because plain SQL restore can overwrite existing objects".

Definition restoreRecord (record : DRecord) (opts : RestoreOptions) : M Q unit :=
  if rc_Done record || negb (isRestorableObject (ob_Kind (rc_Object record))) then mret tt
  else if ro_DryRun opts then mret tt
  else if negb (ro_ReplaceExisting opts) then merr replaceRequired
  else statements <-- mlift (splitPGSQLStatements (string_of_list_byte (rc_Payload record))) ;; run_statements statements.

(** The records and what NextRecord reports after them. *)
Fixpoint pgNativeRestore (records : list DRecord) (last : string) (opts : RestoreOptions) : M Q unit :=
  match records with
  | [] => if String.eqb last EOF then mret tt else merr last
  | record :: rest => _ <-- restoreRecord record opts ;; pgNativeRestore rest last opts
  end.
End Backup.

(** ** The driver *)

(** The parts of the DSN that the tools are given. *)
Record PgDSN := mkDSN { ds_Host : string; ds_Path : string; ds_User : option string; ds_SSLMode : string }.

Section Driver.
  Context {Q : Type} `{!pgNativeQueryer Q} `{!commandRunner Q} (target : DTarget).
  (** url.URL.String, a DSN without its password, and its password. *)
  Context (formatDSN : PgDSN -> string) (withoutPassword : string -> string) (passwordFromURL : string -> string).

Definition postgresDSN : string :=
  let connection := mget (dt_Connection target) in
  let options := mget (dt_Options target) in
  let value := TrimSpace (connection "dsn") in
  if negb (String.eqb value "") then withoutPassword value
  else
    let '(addrHost, addrPort) := splitAddress (connection "addr") in
    let host := orElse (connection "host") addrHost in
    let port := orElse (connection "port") addrPort in
    let sslMode := TrimSpace (firstNonEmpty [connection "sslmode"; connection "tls"; options "sslmode"; options "tls"]) in
    let lower := ToLower sslMode in
    formatDSN (mkDSN (JoinHostPort (notEmpty host "127.0.0.1") (notEmpty port "5432")) ("/" ++ databaseName target)
      (if negb (String.eqb (connection "username") "") then Some (connection "username") else None)
      (if existsb (String.eqb lower) [""; "disable"; "false"; "off"] then "disable"
       else if existsb (String.eqb lower) ["true"; "on"] then "require" else sslMode)).

Definition postgresEnv : list string :=
  let password := firstNonEmpty [mget (dt_Connection target) "password"; mget (dt_Options target) "password"] in
  let dsn := TrimSpace (mget (dt_Connection target) "dsn") in
  let password := if String.eqb password "" then (if negb (String.eqb dsn "") then passwordFromURL dsn else password) else password in
  if String.eqb (TrimSpace password) "" then [] else ["PGPASSWORD=" ++ password]%string.

Definition PgVersion : M Q string :=
  out <-- RunCommand "pg_dump" ["--version"] None [] ;; mret (TrimSpace (string_of_list_byte out)).

Definition PgTest : M Q unit :=
  if useNativeProtocol target then _ <-- SimpleQuery target "select 1" ;; mret tt
  else _ <-- RunCommand "pg_dump" ["--schema-only"; "--dbname"; postgresDSN] None postgresEnv ;; mret tt.

Definition PgBackupFull : M (Q * list DRecord) ResumePoint :=
  if useNativeProtocol target then
    result <-- onDatabase (pgNativeBackupFull target) ;; _ <-- writeRecords result.1 ;; mret result.2
  else
    _ <-- (if includeGlobals target then
             payload <-- onDatabase (RunCommand "pg_dumpall" ["--globals-only"; "--no-role-passwords"; "--dbname"; postgresDSN] None postgresEnv) ;;
             writeObject (mkObjectRef "" "globals" globalsObjectKind) payload
           else mret tt) ;;
    payload <-- onDatabase (RunCommand "pg_dump" ["--format=plain"; "--no-owner"; "--no-privileges"; "--dbname"; postgresDSN] None postgresEnv) ;;
    _ <-- writeObject (mkObjectRef "public" (databaseName target) databaseObjectKind) payload ;;
    mret (mkResumePoint "postgres" (if includeGlobals target then "pg_dumpall:globals+pg_dump:plain" else "pg_dump:plain") 0 ∅).

Definition PgBackupIncremental (parent : Manifest) : M (Q * list DRecord) ResumePoint :=
  if negb (useNativeProtocol target) then merr ErrIncrementalUnsupported
  else
    lsn <-- onDatabase (GetCurrentLSN target) ;;
    mret (mkResumePoint "postgres" ("pgwire:lsn:" ++ lsn) 0
            (<["lsn" := lsn]> {["parent_lsn" := mget (mf_Streams parent) "lsn"]})).

(** The record of a change; a change without a transaction panics. *)
Fixpoint streamRows (rows : list pgRow) : M (Q * list StreamRecord) unit :=
  match rows with
  | [] => mret tt
  | (Some lsn :: xid :: Some data :: _) :: rest =>
      match xid with
      | None => mpanic "invalid memory address or nil pointer dereference"
      | Some xid =>
          _ <-- writeRecords [mkStreamRecord (mkResumePoint "postgres" lsn 0 (<["lsn" := lsn]> {["xid" := xid]})) (list_byte_of_string data)] ;;
          streamRows rest
      end
  | _ :: rest => streamRows rest
  end.

Definition PgStream (rp : ResumePoint) : M (Q * list StreamRecord) unit :=
  if negb (useNativeProtocol target) then merr "context canceled"
  else
    let startLSN := mget (rp_Metadata rp) "lsn" in
    let query := ("SELECT lsn, xid, data FROM pg_logical_slot_get_changes('kronos_slot', NULL, NULL)" ++
                  (if negb (String.eqb startLSN "") then " WHERE lsn > '" ++ startLSN ++ "'" else ""))%string in
    result <-- onDatabase (SimpleQuery target query) ;;
    streamRows (qr_Rows result).

Fixpoint external_restore (records : list DRecord) (last : string) (opts : RestoreOptions) : M Q unit :=
  match records with
  | [] => if String.eqb last EOF then mret tt else merr last
  | record :: rest =>
      _ <-- (if rc_Done record || negb (isRestorableObject (ob_Kind (rc_Object record))) then mret tt
             else if ro_DryRun opts then mret tt
             else if negb (ro_ReplaceExisting opts) then merr replaceRequired
             else _ <-- RunCommand "psql" ["--single-transaction"; "--set"; "ON_ERROR_STOP=1"; "--dbname"; postgresDSN]
                          (Some (rc_Payload record)) postgresEnv ;; mret tt) ;;
      external_restore rest last opts
  end.

Definition PgRestore (records : list DRecord) (last : string) (opts : RestoreOptions) : M Q unit :=
  if useNativeProtocol target then pgNativeRestore target records last opts else external_restore records last opts.

(** Positions of the log are compared as strings. *)
Definition pastTarget (point : ResumePoint) (targetPoint : ReplayTarget) : bool :=
  (negb (TimeIsZero (rt_Time targetPoint)) && negb (TimeIsZero (rp_Time point)) && (rt_Time targetPoint <? rp_Time point)) ||
  (negb (String.eqb (rt_Position targetPoint) "") && negb (String.eqb (rp_Position point) "") &&
   String.leb (rt_Position targetPoint) (rp_Position point)).

Fixpoint replay_records (records : list StreamRecord) (last : string) (targetPoint : ReplayTarget) : M Q unit :=
  match records with
  | [] => if String.eqb last EOF then mret tt else merr last
  | record :: rest =>
      if pastTarget (sr_ResumePoint record) targetPoint then mret tt
      else
        _ <-- (match sr_Payload record with
               | [] => mret tt
               | payload => _ <-- SimpleQuery target (string_of_list_byte payload) ;; mret tt
               end) ;;
        replay_records rest last targetPoint
  end.

Definition PgReplayStream (records : list StreamRecord) (last : string) (targetPoint : ReplayTarget) : M Q unit :=
  if negb (useNativeProtocol target) then merr ErrIncrementalUnsupported else replay_records records last targetPoint.

(** A position of the log before its target is past it for the driver: 0/9
    comes before 0/10. *)
Example lsn_compared_as_text :
  pastTarget (mkResumePoint "postgres" "0/9000000" 0 ∅) (mkReplayTarget "0/10000000" 0) = true.
Proof. vm_compute. reflexivity. Qed.
End Driver.

(** ** Restores of native backups *)

Section Restores.
  Context {Q : Type} `{!pgNativeQueryer Q}.

Lemma native_restore_dump (source target : DTarget) d opts (q : Q) : goodDump d = true ->
  ro_DryRun opts = false -> ro_ReplaceExisting opts = true ->
  pgNativeRestore target (dumpRecords source d) EOF opts q = run_statements target (dumpStatements d) q.
Proof.
  intros Hd H1 H2. unfold dumpRecords. cbn [pgNativeRestore]. unfold restoreRecord at 1. cbn [rc_Done rc_Object ob_Kind rc_Payload].
  change (isRestorableObject databaseObjectKind) with true. rewrite H1, H2. cbn [negb orb].
  rewrite string_of_list_byte_of_string, (split_emits _ _ (emits_dump d Hd)). unfold mbind, mlift. cbv beta iota.
  destruct (run_statements target (dumpStatements d) q) as [[[]|e|e|] q']; reflexivity.
Qed.

Lemma run_refused target statement statements (q : Q) : (forall q, is_ok (SimpleQuery target statement q).1 = false) ->
  In statement statements -> is_ok (run_statements target statements q).1 = false.
Proof.
  intros Hr. revert q. induction statements as [|s statements IH]; intros q []; cbn [run_statements]; unfold mbind.
  - subst s. specialize (Hr q). destruct (SimpleQuery target statement q) as [[r|e|e|] q']; done.
  - destruct (SimpleQuery target s q) as [[r|e|e|] q']; [now apply IH|done..].
Qed.

Lemma dump_view_statement d view : In view (pd_Views d) -> vw_Materialized view = false ->
  HasSuffix (TrimSpace (vw_Definition view)) ";" = true -> In ";"%string (dumpStatements d).
Proof.
  intros Hin Hm Hs. unfold dumpStatements. right. rewrite !in_app_iff. repeat right. apply in_concat. exists (viewStatements view).
  split; [now apply (in_map viewStatements)|].
  unfold viewStatements. cbv zeta. rewrite Hs, Hm. apply in_app_iff. right. right. now left.
Qed.
End Restores.


(** A database with a view cannot be restored. The catalogue gives the
    definition of a view with a semicolon at its end, to which the backup adds
    another: the restore runs the lone semicolon as a statement, the server
    answers it with EmptyQueryResponse, which the reader takes for an error,
    and the restore fails whatever the database it runs on. *)
Theorem pg_view_breaks_restore {Q : Type} `{!pgNativeQueryer Q} source target d view opts (q : Q) :
  (forall q, exists rest, (SimpleQuery target ";" q).1 = (readSimpleQueryResult (writeTypedMessage Byte.x49 [] ++ rest)).1) ->
  In view (pd_Views d) -> vw_Materialized view = false -> HasSuffix (TrimSpace (vw_Definition view)) ";" = true ->
  goodDump d = true -> ro_DryRun opts = false -> ro_ReplaceExisting opts = true ->
  is_ok (pgNativeRestore target (dumpRecords source d) EOF opts q).1 = false.
Proof.
  intros Hserver Hin Hm Hs Hd H1 H2. rewrite native_restore_dump by done. apply (run_refused target ";"); [|now apply (dump_view_statement d view)].
  intros q0. destruct (Hserver q0) as [rest ->]. unfold readSimpleQueryResult. cbn [result_loop]. unfold mbind at 1.
  now rewrite readMessage_app.
Qed.

(** An incremental backup over the native protocol writes no record. *)
Lemma pg_incremental_is_empty {Q : Type} `{!pgNativeQueryer Q} target parent (s s' : Q * list DRecord) rp :
  PgBackupIncremental target parent s = (Ok rp, s') -> s'.2 = s.2.
Proof.
  unfold PgBackupIncremental. destruct (negb _); [done|]. intros E. apply mbind_ok in E as (lsn & s1 & E1 & E).
  injection E as _ <-. unfold onDatabase in E1. destruct (GetCurrentLSN target s.1) as [o q]. now injection E1 as _ <-.
Qed.

(** ** Runs of the PostgreSQL driver

    Concrete databases and servers for the theorems about the driver: a
    database of one table, one with a view whose restore meets the answer to
    an empty query, and servers that ask for TLS and for a password. *)

(** A field of which only the name matters. *)
Definition named (name : string) : pgField := mkField name 0 0 25 (-1) (-1) 0.

Definition table (names : list string) (rows : list pgRow) : pgQueryResult := mkResult (map named names) rows "SELECT".

(** ** A database of one table

    It logs what it is asked; a copy is refused. *)

Definition columnsQuery : string := pgNativeColumnsQuery (mkTable "public" "t").

Definition oneTable (views : list pgRow) (query : string) : pgQueryResult :=
  if String.eqb query pgNativeTablesQuery then table ["schema_name"; "table_name"] [[Some "public"; Some "t"]]%string
  else if String.eqb query pgNativeViewsQuery then table ["schema_name"; "view_name"; "relkind"; "view_def"] views
  else if String.eqb query columnsQuery then
    table ["column_name"; "data_type"; "not_null"; "column_default"] [[Some "a;"; Some "text"; Some "true"; Some "';'::text"]]%string
  else if HasPrefix query "select " then table ["a;"] [[Some "it's"]; [None]]%string
  else noResult.

(** An empty query is answered as the protocol says. *)
Definition emptyAnswer : bytes := writeTypedMessage Byte.x49 [] ++ writeTypedMessage msgReady [Byte.x49].

Definition logged (views : list pgRow) : pgNativeQueryer (list string) := {|
  SimpleQuery := fun _ query log =>
    (if String.eqb query ";" then (readSimpleQueryResult emptyAnswer).1 else Ok (oneTable views query), log ++ [query]);
  CopyBinaryOut := fun _ _ log => (Err "expected CopyInResponse", log);
  GetCurrentLSN := fun _ log => (Ok "0/16B3748", log)
|}.

Definition plainPg : DTarget := mkDTarget "pg" "postgres" ∅ ∅.
Definition replacing : RestoreOptions := mkRestoreOptions true false ∅.

(** What a queryer's database holds for a backup. *)
Definition dumpOf (views : list pgRow) : PgDump :=
  match (readDump (pgNativeQueryer0 := logged views) plainPg []).1 with Ok d => d | _ => mkPgDump [] [] [] [] [] [] end.

Example one_table_statements : dumpStatements (dumpOf []) =
  ["SET standard_conforming_strings = on;";
   "CREATE TABLE " ++ quotePGQualifiedName "public" "t" ++ " (" ++ newline ++ "  " ++ quotePGIdentifier "a;" ++
     " text DEFAULT ';'::text NOT NULL" ++ newline ++ ");";
   "INSERT INTO " ++ quotePGQualifiedName "public" "t" ++ " (" ++ quotePGIdentifier "a;" ++ ") VALUES ('it''s');";
   "INSERT INTO " ++ quotePGQualifiedName "public" "t" ++ " (" ++ quotePGIdentifier "a;" ++ ") VALUES (NULL);"]%string.
Proof. vm_compute. reflexivity. Qed.


(** ** A database with a view *)

Definition aView : list pgRow := [[Some "public"; Some "v"; Some "v"; Some " SELECT t.a FROM t;"]]%string.

Lemma pg_view_breaks_restore_witness :
  is_ok (pgNativeRestore (pgNativeQueryer0 := logged aView) plainPg (dumpRecords plainPg (dumpOf aView)) EOF replacing []).1 = false.
Proof.
  refine (pg_view_breaks_restore (pgNativeQueryer0 := logged aView) plainPg plainPg (dumpOf aView)
    (mkView "public" "v" " SELECT t.a FROM t;" false) replacing [] _ _ _ _ _ _ _).
  - intros q. exists (writeTypedMessage msgReady [Byte.x49]). reflexivity.
  - vm_compute. now left.
  - reflexivity.
  - vm_compute. reflexivity.
  - vm_compute. reflexivity.
  - reflexivity.
  - reflexivity.
Defined.

(** ** A result on the wire *)

Definition aResult : pgQueryResult := mkResult [named "a"; named "b"] [[Some "x"; None]; [Some ""; Some "'"]]%string "SELECT 2".

Lemma pg_result_roundtrip_witness : readSimpleQueryResult (encodeResult aResult ++ [Byte.x41]) = (Ok aResult, [Byte.x41]).
Proof.
  refine (pg_result_roundtrip aResult [Byte.x41] _). unfold sendable.
  assert (F : forall name, noNul name -> sendableField (named name)) by (intros name Hn; unfold sendableField; simpl; split_and!; (done || lia)).
  assert (E : maxPGMessagePayload = 67108864) by reflexivity. split_and!.
  - repeat constructor; apply F; vm_compute; intuition discriminate.
  - reflexivity.
  - vm_compute. discriminate.
  - repeat constructor; vm_compute; discriminate.
  - vm_compute. intuition discriminate.
  - vm_compute. reflexivity.
Defined.

(** ** Servers and the settings of a target *)

Definition secureTarget : DTarget := mkDTarget "pg" "postgres" {["password" := "secret"; "sslmode" := "verify-full"]}%string ∅.
Definition noURL (dsn : string) : option PgURL := None.
Definition samePath (path : string) : option string := Some path.

Definition secureConfig : pgNativeConfig :=
  match pgNativeConfigFromTarget noURL samePath secureTarget with Ok cfg => cfg | _ => pgDefaults end.

Example secure_config : secureConfig = mkConfig "127.0.0.1:5432" "127.0.0.1" "5432" "postgres" "postgres" "secret" "verify-full" "kronos".
Proof. vm_compute. reflexivity. Qed.

(** A server that accepts TLS, asks for the password in clear, and answers
    any query with a result. *)
Definition asksPassword (message : bytes) (s : unit) : bytes * unit :=
  (if beqb message sslRequest then [Byte.x53]
   else match message with
        | Byte.x51 :: _ => encodeResult aResult
        | Byte.x70 :: _ => writeTypedMessage msgAuthentication (be_encode 4 0) ++ writeTypedMessage msgReady [Byte.x49]
        | _ => writeTypedMessage msgAuthentication (be_encode 4 3)
        end, s).

Definition sameBytes (b : bytes) : bytes := b.
Definition anyMac (a b : bytes) : bytes := a ++ b.
Definition anyKey (a b : bytes) (n : Z) : bytes := a ++ b.
Definition accepts (cfg : pgNativeConfig) (s : unit) : outcome unit := Ok s.
Definition dials (address : string) (s : unit) : outcome unit := Ok tt.

(** The names and values in clear when the settings require TLS: none. *)
Lemma pg_required_tls_kept_witness :
  exists new, pw_sent (pgNativeSimpleQuery asksPassword sameBytes sameBytes anyMac anyKey (Ok "n"%string) accepts dials noURL samePath 9
                         secureTarget "select 1" (mkPgWorld tt [])).2 = [] ++ new /\
    Forall (fun s => s.1 = false -> s.2 = sslRequest) new.
Proof.
  eapply (proj1 (pg_required_tls_kept asksPassword sameBytes sameBytes anyMac anyKey (Ok "n"%string) accepts dials noURL samePath 9
    secureTarget secureConfig (mkPgWorld tt []) ltac:(vm_compute; reflexivity) ltac:(vm_compute; reflexivity))).
  apply surjective_pairing.
Defined.

Example tls_run :
  let '(r, w) := pgNativeSimpleQuery asksPassword sameBytes sameBytes anyMac anyKey (Ok "n"%string) accepts dials noURL samePath 9
                   secureTarget "select 1" (mkPgWorld tt []) in
  r = Ok aResult /\ map fst (pw_sent w) = [false; true; true; true].
Proof. vm_compute. split; reflexivity. Qed.

Lemma pg_lsn_sends_password_in_clear_witness :
  In (false, writeTypedMessage Byte.x70 (cstring "secret"))
    (pw_sent (pgNativeGetCurrentLSN asksPassword sameBytes sameBytes anyMac anyKey (Ok "n"%string) dials noURL samePath 9
                secureTarget (mkPgWorld tt [])).2).
Proof.
  refine (pg_lsn_sends_password_in_clear asksPassword sameBytes sameBytes anyMac anyKey (Ok "n"%string) dials noURL samePath 9
    secureTarget secureConfig (mkPgWorld tt []) 8 [] _ _ _ _ _).
  - vm_compute. reflexivity.
  - vm_compute. discriminate.
  - reflexivity.
  - reflexivity.
  - vm_compute. reflexivity.
Defined.

(** ** Copies

    A server answers COPY with CopyOutResponse, which the reader does not
    expect, so that the rows come from SELECT; a stream in the format of the
    server starts with a signature no table has as its number of columns. *)

Example copy_refused :
  let serve message (s : unit) :=
    (match message with
     | Byte.x51 :: _ => writeTypedMessage Byte.x48 [Byte.x01; Byte.x00; Byte.x00]
     | _ => writeTypedMessage msgReady [Byte.x49]
     end, s) in
  (pgCopyBinaryOut serve sameBytes sameBytes anyMac anyKey (Ok "n"%string) 9 ∅ "" "t" (mkPgConn [] tt false [])).1 =
    Err "expected CopyInResponse" /\
  pgReadBinaryCopy (writeTypedMessage Byte.x64 (list_byte_of_string "PGCOPY")) [mkColumn "a" "text" false None] =
    Err "COPY BINARY: expected another number of columns".
Proof. vm_compute. split; reflexivity. Qed.
