(* ===== verification/MySqlText.v ===== *)
(** * The text of a MySQL dump

    Models src/internal/drivers/mysql/native_backup.go (the writers) and the
    splitting of SQL in native_restore.go. The loop of the splitting is a
    recursion over the characters; [my_take] counts the characters it copies
    ahead and [my_skip] those it drops.

    The theorems show that the rows of a dump survive the splitting and are
    read back by the rules of MySQL when their values are ordinary, and that a
    value that starts with 0x is run as SQL. *)

From Stdlib Require Import Ascii String.
From S2P Require Import Prelude ChunkHash Core GoStrings GoText PgText PgSplit PgDump.
Local Open Scope string_scope.
#[local] Arguments String.append !_ _ / : simpl nomatch.

Record mysqlTable := mkMyTable { mt_Schema : string; mt_Name : string }.
Record mysqlColumn := mkMyColumn
  { mc_Name : string; mc_Type : string; mc_NotNull : bool; mc_Key : string; mc_Default : option string; mc_Extra : string }.

Definition mysqlRow : Type := list (option string).

(** ** Writers *)

Definition backtick : ascii := "`".

Definition quoteMysqlIdentifier (name : string) : string := quotedBy backtick name.
Definition quoteMysqlValue (value : string) : string := quotedBy quote value.

(** Values that are written as they are. *)
Definition specialValue (value : string) : bool :=
  let upper := ToUpper value in
  String.eqb upper "NULL" || String.eqb upper "CURRENT_TIMESTAMP" || HasPrefix upper "0X".

Definition mysqlQuoteValue (value : string) : string := if specialValue value then value else quotedBy quote value.

Definition mysqlValue (row : mysqlRow) (i : nat) : string :=
  match nth i row None with None => "NULL" | Some value => mysqlQuoteValue value end.

Definition mysqlInsert (table : mysqlTable) (columns : list mysqlColumn) (row : mysqlRow) : string :=
  "INSERT INTO " ++ quoteMysqlIdentifier (mt_Schema table) ++ "." ++ quoteMysqlIdentifier (mt_Name table) ++ " (" ++
  Join (map (fun column => quoteMysqlIdentifier (mc_Name column)) columns) ", " ++ ") VALUES (" ++
  Join (map (mysqlValue row) (seq 0 (length columns))) ", " ++ ")".

Definition writeMySQLTableData (table : mysqlTable) (columns : list mysqlColumn) (rows : list mysqlRow) : string :=
  concatAll (map (fun row => mysqlInsert table columns row ++ ";" ++ newline) rows).

(** ** Splitting *)

Record mscan := mkMscan { my_current : string; my_statements : list string; my_inString : bool; my_take : nat; my_skip : nat }.

(** The characters before the first one of [stops]. *)
Fixpoint spanUntil (stops : list ascii) (s : string) : nat :=
  match s with
  | EmptyString => O
  | String c r => if existsb (Ascii.eqb c) stops then O else S (spanUntil stops r)
  end.

(** The characters up to the end of a comment, all when it has none. *)
Fixpoint blockEnd (s : string) : nat :=
  match s with
  | EmptyString => O
  | String c r => match r with
                  | String d _ => if Ascii.eqb c "*" && Ascii.eqb d "/" then 2%nat else S (blockEnd r)
                  | EmptyString => 1%nat
                  end
  end.

(** One pass of the loop; [rest] is what follows [c]. *)
Definition my_step (c : ascii) (rest : string) (st : mscan) : mscan :=
  let 'mkMscan current statements inString take skip := st in
  let next := match rest with String d _ => d | EmptyString => NUL end in
  let written := current ++ String c "" in
  match skip, take with
  | S skip, _ => mkMscan current statements inString take skip
  | O, S take => mkMscan written statements inString take 0
  | O, O =>
      if negb inString && Ascii.eqb c quote then mkMscan written statements true 0 0
      else if inString then
        (if Ascii.eqb c quote then
           (if Ascii.eqb next quote then mkMscan written statements true 1 0 else mkMscan written statements false 0 0)
         else mkMscan written statements true 0 0)
      else if HasPrefix (String c rest) "DELIMITER " then
        mkMscan "" (addStatement statements current) false 0 (9 + spanUntil ["010"; ";"]%char (dropString 9 rest))
      else if Ascii.eqb c ";" then mkMscan "" (addStatement statements current) false 0 0
      else if Ascii.eqb c "-" && Ascii.eqb next "-" then mkMscan current statements false 0 (spanUntil ["010"%char] rest)
      else if Ascii.eqb c "/" && Ascii.eqb next "*" then mkMscan current statements false 0 (1 + blockEnd (dropString 1 rest))
      else mkMscan written statements false 0 0
  end.

Fixpoint my_loop (sql : string) (st : mscan) : mscan :=
  match sql with
  | EmptyString => st
  | String c rest => my_loop rest (my_step c rest st)
  end.

Definition splitMySQLStatements (sql : string) : list string :=
  let st := my_loop sql (mkMscan "" [] false 0 0) in addStatement (my_statements st) (my_current st).

Example mysql_split_examples :
  splitMySQLStatements "a 'x;''y'; b -- c; d
 e; /* f;*/ g" = ["a 'x;''y'"; "b 
 e"; "g"] /\
  splitMySQLStatements "a DELIMITER //
b; c" = ["a"; "b"; "c"] /\
  splitMySQLStatements "CREATE TABLE `it's` (a int); x" = ["CREATE TABLE `it's` (a int); x"].
Proof. vm_compute. repeat split. Qed.

(** *** Statements are trimmed and not empty *)

Definition goodStatement (s : string) : Prop := TrimSpace s = s /\ s <> "".

Lemma addStatement_good sts text : Forall goodStatement sts -> Forall goodStatement (addStatement sts text).
Proof.
  intros H. unfold addStatement. destruct (String.eqb_spec (TrimSpace text) ""); [done|].
  apply Forall_app. split; [done|]. repeat constructor; [apply TrimSpace_idem|done].
Qed.

Lemma my_step_good c rest st : Forall goodStatement (my_statements st) -> Forall goodStatement (my_statements (my_step c rest st)).
Proof.
  destruct st as [cur sts ins take skip]. intros H. cbn [my_statements] in H. unfold my_step.
  repeat first [exact H | apply addStatement_good; exact H | case_match].
Qed.

Lemma my_loop_good sql st : Forall goodStatement (my_statements st) -> Forall goodStatement (my_statements (my_loop sql st)).
Proof. revert st. induction sql as [|c sql IH]; intros st H; [done|]. apply IH. now apply my_step_good. Qed.

Lemma split_good sql : Forall goodStatement (splitMySQLStatements sql).
Proof. apply addStatement_good. now apply my_loop_good. Qed.

(** ** Scanning *)

Definition myTop (cur : string) (sts : list string) : mscan := mkMscan cur sts false 0 0.

(** Before [r], the text [t] only adds to what is current. *)
Definition my_scans (t r : string) : Prop :=
  forall cur sts, my_loop (t ++ r) (myTop cur sts) = my_loop r (myTop (cur ++ t) sts).

Lemma my_scans_nil r : my_scans "" r.
Proof. intros cur sts. now rewrite sapp_nil_r. Qed.

Lemma my_scans_app a b r : my_scans a (b ++ r) -> my_scans b r -> my_scans (a ++ b) r.
Proof. intros Ha Hb cur sts. now rewrite sapp_assoc, Ha, Hb, sapp_assoc. Qed.

(** Characters that are nothing but themselves; D could start DELIMITER. *)
Definition myPlain (c : ascii) : bool := negb (existsb (Ascii.eqb c) [quote; ";"; "-"; "/"; "D"]%char).

Lemma my_step_plain c rest cur sts : existsb (Ascii.eqb c) [quote; ";"; "-"; "/"]%char = false ->
  HasPrefix (String c rest) "DELIMITER " = false -> my_step c rest (myTop cur sts) = myTop (cur ++ String c "") sts.
Proof.
  intros Hc Hd. cbn [existsb] in Hc. repeat (apply orb_false_iff in Hc as [? Hc]). unfold my_step, myTop. rewrite Hd.
  repeat match goal with H : Ascii.eqb c _ = false |- _ => rewrite H; clear H end. done.
Qed.

Lemma my_scans_plain t r : allChars myPlain t = true -> my_scans t r.
Proof.
  intros Ht. induction t as [|c t IH]; intros cur sts; [now rewrite sapp_nil_r|]. cbn [allChars] in Ht.
  apply andb_true_iff in Ht as [Hc Ht]. rewrite sapp_cons. cbn [my_loop]. unfold myPlain in Hc. rewrite negb_true_iff in Hc.
  cbn [existsb] in Hc. repeat (apply orb_false_iff in Hc as [? Hc]).
  rewrite my_step_plain; [now rewrite (IH Ht), sapp_snoc| |].
  - cbn [existsb]. now repeat match goal with H : Ascii.eqb c _ = false |- _ => rewrite H; clear H end.
  - cbn [HasPrefix]. rewrite Ascii.eqb_sym. now match goal with H : Ascii.eqb c "D" = false |- _ => rewrite H end.
Qed.

(** Names of letters and other characters that need no quoting. *)
Definition nameChar (c : ascii) : bool := negb (existsb (Ascii.eqb c) [quote; ";"; "-"; "/"; " "; backtick]%char).

Lemma name_no_delimiter s r p : allChars nameChar s = true -> allChars nameChar p = true ->
  HasPrefix (s ++ String backtick r) (p ++ " ") = false.
Proof.
  revert p. induction s as [|c s IH]; intros p Hs Hp.
  - destruct p as [|d p]; [reflexivity|]. rewrite sapp_cons. cbn [String.append HasPrefix]. cbn [allChars] in Hp.
    apply andb_true_iff in Hp as [Hd _]. destruct (Ascii.eqb_spec d backtick) as [->|]; [discriminate|done].
  - cbn [allChars] in Hs. apply andb_true_iff in Hs as [Hc Hs]. rewrite sapp_cons. destruct p as [|d p]; cbn [String.append HasPrefix].
    + destruct (Ascii.eqb_spec " " c) as [<-|]; [discriminate|done].
    + cbn [allChars] in Hp. apply andb_true_iff in Hp as [_ Hp]. rewrite IH by done. apply andb_false_r.
Qed.

Lemma ReplaceAll_none q new s : allChars (fun c => negb (Ascii.eqb c q)) s = true -> ReplaceAll q new s = s.
Proof.
  induction s as [|c s IH]; [done|]. cbn [allChars ReplaceAll]. rewrite andb_true_iff, negb_true_iff. intros [-> Hs]. now rewrite IH.
Qed.

Lemma allChars_impl (P Q : ascii -> bool) s : (forall c, P c = true -> Q c = true) -> allChars P s = true -> allChars Q s = true.
Proof. intros H. induction s as [|c s IH]; [done|]. cbn [allChars]. rewrite !andb_true_iff. intros [? ?]. eauto. Qed.

Lemma my_scans_name n r : allChars nameChar n = true -> my_scans (quoteMysqlIdentifier n) r.
Proof.
  intros Hn. unfold quoteMysqlIdentifier, quotedBy. rewrite ReplaceAll_none.
  2:{ revert Hn. apply allChars_impl. intros c. unfold nameChar. rewrite !negb_true_iff. cbn [existsb]. rewrite !orb_false_iff. tauto. }
  change (my_scans (String backtick "" ++ (n ++ String backtick "")) r).
  apply my_scans_app; [now apply my_scans_plain|]. apply my_scans_app; [|now apply my_scans_plain].
  intros cur sts. change (String backtick "" ++ r) with (String backtick r). revert cur. induction n as [|c n IH]; intros cur; [now rewrite sapp_nil_r|].
  pose proof Hn as Hcn. cbn [allChars] in Hn. apply andb_true_iff in Hn as [Hc Hn]. rewrite sapp_cons. cbn [my_loop].
  rewrite my_step_plain; [now rewrite (IH Hn), sapp_snoc| |].
  - unfold nameChar in Hc. rewrite negb_true_iff in Hc. cbn [existsb] in *. rewrite !orb_false_iff in *. tauto.
  - rewrite <- sapp_cons. exact (name_no_delimiter (String c n) r "DELIMITER" Hcn eq_refl).
Qed.

Lemma my_quoted_loop v r cur sts : starts quote r = false ->
  my_loop (ReplaceAll quote (String quote (String quote "")) v ++ String quote r) (mkMscan cur sts true 0 0) =
  my_loop r (myTop (cur ++ ReplaceAll quote (String quote (String quote "")) v ++ String quote "") sts).
Proof.
  intros Hr. revert cur. induction v as [|c v IH]; intros cur.
  - cbn [ReplaceAll String.append my_loop]. f_equal. destruct r as [|d r]; [done|]. cbn [starts] in Hr. cbn. now rewrite Hr.
  - cbn [ReplaceAll]. destruct (Ascii.eqb_spec c quote) as [->|Hc].
    + rewrite !sapp_cons. cbn [String.append my_loop].
      assert (E : my_step quote (ReplaceAll quote (String quote (String quote "")) v ++ String quote r)
                    (my_step quote (String quote (ReplaceAll quote (String quote (String quote "")) v ++ String quote r)) (mkMscan cur sts true 0 0)) =
                  mkMscan ((cur ++ String quote "") ++ String quote "") sts true 0 0) by reflexivity.
      rewrite E, IH, !sapp_snoc. done.
    + rewrite !sapp_cons. cbn [my_loop]. apply Ascii.eqb_neq in Hc.
      assert (E : forall s, my_step c s (mkMscan cur sts true 0 0) = mkMscan (cur ++ String c "") sts true 0 0) by (intros s; cbn; now rewrite Hc).
      rewrite E, IH, sapp_snoc. done.
Qed.

Lemma my_scans_literal v r : starts quote r = false -> my_scans (quotedBy quote v) r.
Proof.
  intros Hr cur sts. unfold quotedBy. rewrite sapp_cons. cbn [my_loop].
  change (my_step quote ?s (myTop cur sts)) with (mkMscan (cur ++ String quote "") sts true 0 0).
  rewrite sapp_assoc. cbn [String.append]. rewrite my_quoted_loop by done. now rewrite sapp_snoc.
Qed.

(** *** Text without comments that a semicolon ends *)

(** No semicolon, comment or DELIMITER outside of quotes, which are closed. *)
Fixpoint quietText (inString : bool) (s : string) : bool :=
  match s with
  | EmptyString => negb inString
  | String c r =>
      if inString then
        (if Ascii.eqb c quote then
           match r with
           | String d r' => if Ascii.eqb d quote then quietText true r' else quietText false r
           | EmptyString => true
           end
         else quietText true r)
      else if Ascii.eqb c quote then quietText true r
      else
        negb (existsb (Ascii.eqb c) [";"; "-"; "/"]%char) && negb (HasPrefix s "DELIMITER ") && quietText false r
  end.

Lemma HasPrefix_semi s p r : noByte ";" p = true -> HasPrefix (s ++ String ";" r) p = HasPrefix s p.
Proof.
  revert p. induction s as [|c s IH]; intros [|d p] Hp; try reflexivity; cbn [noByte] in Hp; rewrite andb_true_iff, negb_true_iff in Hp;
    destruct Hp as [Hd Hp].
  - cbn [String.append HasPrefix]. now rewrite Hd.
  - rewrite sapp_cons. cbn [HasPrefix]. now rewrite IH.
Qed.

Lemma my_quiet n s inString r cur sts : (String.length s <= n)%nat -> quietText inString s = true ->
  my_loop (s ++ String ";" r) (mkMscan cur sts inString 0 0) = my_loop (String ";" r) (myTop (cur ++ s) sts).
Proof.
  revert s inString cur. induction n as [|n IH]; intros [|c s] inString cur Hn Hq; try (cbn in Hn; lia).
  1, 2: cbn [quietText] in Hq; rewrite negb_true_iff in Hq; subst; now rewrite sapp_nil_r.
  cbn [String.length] in Hn. rewrite sapp_cons. cbn [quietText] in Hq. destruct inString.
  - destruct (Ascii.eqb c quote) eqn:Ec.
    + apply Ascii.eqb_eq in Ec as ->. destruct s as [|d s].
      * reflexivity.
      * destruct (Ascii.eqb d quote) eqn:Ed.
        -- apply Ascii.eqb_eq in Ed as ->. rewrite sapp_cons. cbn [my_loop].
           change (my_step quote ?t (my_step quote (String quote ?u) (mkMscan cur sts true 0 0)))
             with (mkMscan ((cur ++ String quote "") ++ String quote "") sts true 0 0).
           rewrite IH by (cbn [String.length] in Hn; lia || done). now rewrite !sapp_snoc.
        -- transitivity (my_loop (String d s ++ String ";" r) (myTop (cur ++ String quote "") sts)).
           { rewrite sapp_cons. cbn [my_loop]. f_equal. f_equal. cbn. now rewrite Ed. }
           etransitivity; [exact (IH (String d s) false _ ltac:(lia) Hq)|now rewrite sapp_snoc].
    + cbn [my_loop]. replace (my_step c (s ++ String ";" r) (mkMscan cur sts true 0 0)) with (mkMscan (cur ++ String c "") sts true 0 0)
        by (cbn; now rewrite Ec).
      rewrite IH by (lia || done). now rewrite sapp_snoc.
  - destruct (Ascii.eqb c quote) eqn:Ec.
    + apply Ascii.eqb_eq in Ec as ->. cbn [my_loop].
      change (my_step quote ?t (mkMscan cur sts false 0 0)) with (mkMscan (cur ++ String quote "") sts true 0 0).
      rewrite IH by (lia || done). now rewrite sapp_snoc.
    + rewrite !andb_true_iff, !negb_true_iff in Hq. destruct Hq as [[H1 H2] H3]. cbn [my_loop].
      change (mkMscan cur sts false 0 0) with (myTop cur sts). rewrite my_step_plain.
      * unfold myTop. rewrite IH by (lia || done). now rewrite sapp_snoc.
      * cbn [existsb] in *. now rewrite Ec.
      * rewrite <- sapp_cons, HasPrefix_semi; done.
Qed.

Lemma my_scans_quiet s r : quietText false s = true -> my_scans s (String ";" r).
Proof. intros Hs cur sts. exact (my_quiet _ s false r cur sts (le_n _) Hs). Qed.

(** ** Rows of ordinary values *)

Definition safeTable (table : mysqlTable) (columns : list mysqlColumn) : bool :=
  allChars nameChar (mt_Schema table) && allChars nameChar (mt_Name table) &&
  forallb (fun column => allChars nameChar (mc_Name column)) columns.

(** Not written as it is, and without a backslash, which starts an escape of
    MySQL. *)
Definition ordinaryValue (value : string) : bool := negb (specialValue value) && noByte "\" value.

Definition ordinaryRow (row : mysqlRow) : bool :=
  forallb (fun value => match value with Some v => ordinaryValue v | None => true end) row.

Lemma my_scans_join {A} (f : A -> string) l sep r :
  (forall x r', In x l -> settled r' = true -> my_scans (f x) r') -> allChars myPlain sep = true ->
  settled sep = true -> sep <> "" -> settled r = true -> my_scans (Join (map f l) sep) r.
Proof.
  intros Hf Hs Hd Hn Hr. induction l as [|x l IH]; [apply my_scans_nil|]. cbn [map Join].
  assert (IH' : my_scans (Join (map f l) sep) r) by (apply IH; intros; apply Hf; [now right|done]).
  destruct (map f l) as [|y ys]; [apply Hf; [now left|done]|].
  apply my_scans_app; [apply Hf; [now left|]|apply my_scans_app; [now apply my_scans_plain|done]]. now destruct sep.
Qed.

(** A value that is quoted. *)
Definition plainValue (value : option string) : string := match value with None => "NULL" | Some v => quotedBy quote v end.

Lemma map_mysqlValue (row : mysqlRow) n : length row = n -> ordinaryRow row = true ->
  map (mysqlValue row) (seq 0 n) = map plainValue row.
Proof.
  intros Hl Ho. transitivity (map (insertValue row) (seq 0 n)).
  - apply map_ext_in. intros i Hi. apply in_seq in Hi. unfold mysqlValue, insertValue, mysqlQuoteValue.
    unfold ordinaryRow in Ho. rewrite forallb_forall in Ho.
    specialize (Ho (nth i row None) ltac:(apply nth_In; lia)). destruct (nth i row None) as [v|]; [|done].
    unfold ordinaryValue in Ho. rewrite andb_true_iff, negb_true_iff in Ho. destruct Ho as [-> _]. reflexivity.
  - now rewrite (map_insertValue row n Hl).
Qed.

Ltac my_scan :=
  repeat first
    [ apply my_scans_nil
    | apply my_scans_plain; reflexivity
    | apply my_scans_name; assumption
    | apply my_scans_literal; reflexivity
    | apply my_scans_app ].

Lemma my_scans_insert table columns row r : safeTable table columns = true -> length row = length columns -> ordinaryRow row = true ->
  my_scans (mysqlInsert table columns row) r.
Proof.
  unfold safeTable. rewrite !andb_true_iff, forallb_forall. intros [[Hs Hn] Hc] Hl Ho. unfold mysqlInsert.
  rewrite map_mysqlValue by done. my_scan.
  - apply (my_scans_join (fun column => quoteMysqlIdentifier (mc_Name column))); [|reflexivity..|done|reflexivity].
    intros x r' Hx _. apply my_scans_name. now apply Hc.
  - apply (my_scans_join plainValue); [|reflexivity..|done|reflexivity].
    intros [v|] r' _ Hr'; [|now apply my_scans_plain]. apply my_scans_literal. apply settled_starts; [now left|done].
Qed.

Lemma addStatement_trimmed sts cur body : IDIsZero cur = true ->
  addStatement sts (cur ++ String "I" body ++ ")") = (sts ++ [(String "I" body ++ ")")%string])%list.
Proof.
  intros Hc. unfold addStatement, TrimSpace. rewrite trimLeft_blank by done. rewrite sapp_cons.
  change (trimLeft (String "I" (body ++ ")"))) with (String "I" body ++ ")"). now rewrite trimRight_last.
Qed.

Lemma insert_shape table columns row : exists body, mysqlInsert table columns row = String "I" body ++ ")".
Proof.
  exists ("NSERT INTO " ++ quoteMysqlIdentifier (mt_Schema table) ++ "." ++ quoteMysqlIdentifier (mt_Name table) ++ " (" ++
    Join (map (fun column => quoteMysqlIdentifier (mc_Name column)) columns) ", " ++ ") VALUES (" ++
    Join (map (mysqlValue row) (seq 0 (length columns))) ", ").
  rewrite sapp_cons, !sapp_assoc. reflexivity.
Qed.

Lemma trim_after_blank cur s : IDIsZero cur = true -> TrimSpace (cur ++ s) = TrimSpace s.
Proof. intros Hc. unfold TrimSpace. now rewrite trimLeft_blank. Qed.

Lemma my_row table columns row r cur sts : safeTable table columns = true -> length row = length columns -> ordinaryRow row = true ->
  IDIsZero cur = true ->
  my_loop ((mysqlInsert table columns row ++ ";" ++ newline) ++ r) (myTop cur sts) =
  my_loop r (myTop newline (sts ++ [mysqlInsert table columns row])%list).
Proof.
  intros Ht Hl Ho Hc. rewrite !sapp_assoc, my_scans_insert by done. cbn [String.append newline my_loop].
  change (my_step ";" ?s (myTop ?c ?st)) with (myTop "" (addStatement st c)).
  destruct (insert_shape table columns row) as [body ->]. rewrite addStatement_trimmed by done. reflexivity.
Qed.

Lemma my_rows table columns rows r cur sts : safeTable table columns = true ->
  (forall row, In row rows -> length row = length columns /\ ordinaryRow row = true) -> IDIsZero cur = true ->
  exists cur', IDIsZero cur' = true /\
    my_loop (writeMySQLTableData table columns rows ++ r) (myTop cur sts) =
    my_loop r (myTop cur' (sts ++ map (mysqlInsert table columns) rows)%list).
Proof.
  intros Ht. revert cur sts. induction rows as [|row rows IH]; intros cur sts Hr Hc.
  - exists cur. split; [done|]. cbn [map]. now rewrite app_nil_r.
  - destruct (Hr row (or_introl eq_refl)) as [Hl Ho]. unfold writeMySQLTableData, concatAll. cbn [map fold_right].
    rewrite sapp_assoc, my_row by done. destruct (IH newline (sts ++ [mysqlInsert table columns row])%list) as (cur' & H1 & H2);
      [intros; apply Hr; now right|done|].
    exists cur'. split; [done|]. etransitivity; [exact H2|]. now rewrite <- app_assoc.
Qed.

(** ** Reading a row back by the rules of MySQL *)

(** The character an escape stands for. *)
Definition unescape (c : ascii) : ascii :=
  if Ascii.eqb c "0" then NUL else if Ascii.eqb c "n" then "010"%char else if Ascii.eqb c "r" then "013"%char
  else if Ascii.eqb c "t" then "009"%char else if Ascii.eqb c "b" then "008"%char else if Ascii.eqb c "Z" then "026"%char else c.

Fixpoint unquoteMysql (s : string) : option (string * string) :=
  match s with
  | EmptyString => None
  | String c r =>
      if Ascii.eqb c "\" then
        match r with
        | String d r' => match unquoteMysql r' with Some (v, rest) => Some (String (unescape d) v, rest) | None => None end
        | EmptyString => None
        end
      else if Ascii.eqb c quote then
        match r with
        | String d r' =>
            if Ascii.eqb d quote then match unquoteMysql r' with Some (v, rest) => Some (String quote v, rest) | None => None end
            else Some ("", r)
        | EmptyString => Some ("", r)
        end
      else match unquoteMysql r with Some (v, rest) => Some (String c v, rest) | None => None end
  end.

Definition readMysqlValue (s : string) : option (option string * string) :=
  match expect "NULL" s with
  | Some r => Some (None, r)
  | None =>
      match s with
      | String c r => if Ascii.eqb c quote then match unquoteMysql r with Some (v, r) => Some (Some v, r) | None => None end else None
      | EmptyString => None
      end
  end.

Definition readMysqlInsert (s : string) : option insertion :=
  s ← expect "INSERT INTO " s;
  '(schema, s) ← readQuoted backtick s;
  s ← expect "." s;
  '(name, s) ← readQuoted backtick s;
  s ← expect " (" s;
  '(columns, s) ← readList (readQuoted backtick) (String.length s) s;
  s ← expect ") VALUES (" s;
  '(row, s) ← readList readMysqlValue (String.length s) s;
  if String.eqb s ")" then Some (mkInsertion schema name columns row) else None.

Lemma unquoteMysql_app v r : noByte "\" v = true -> starts quote r = false ->
  unquoteMysql (ReplaceAll quote (String quote (String quote "")) v ++ String quote r) = Some (v, r).
Proof.
  intros Hv Hr. induction v as [|c v IH].
  - cbn. destruct r as [|d r]; [done|]. cbn [starts] in Hr. now rewrite Hr.
  - cbn [noByte] in Hv. rewrite andb_true_iff, negb_true_iff in Hv. destruct Hv as [Hc Hv]. cbn [ReplaceAll].
    destruct (Ascii.eqb_spec c quote) as [->|Hq].
    + rewrite !sapp_cons. cbn [String.append unquoteMysql]. cbn [Ascii.eqb Bool.eqb]. rewrite IH by done. reflexivity.
    + rewrite !sapp_cons. cbn [unquoteMysql]. apply Ascii.eqb_neq in Hq. now rewrite Hc, Hq, IH.
Qed.

Lemma readMysqlValue_app value r : match value with Some v => ordinaryValue v | None => true end = true -> starts quote r = false ->
  readMysqlValue (plainValue value ++ r) = Some (value, r).
Proof.
  intros Ho Hr. unfold readMysqlValue. destruct value as [v|]; [|cbn [plainValue]; now rewrite expect_app].
  unfold ordinaryValue in Ho. rewrite andb_true_iff in Ho. destruct Ho as [_ Hv].
  pose proof (unquoteMysql_app v r Hv Hr) as E. cbn [plainValue]. unfold quotedBy. rewrite sapp_cons, sapp_assoc. cbn [String.append].
  rewrite E. reflexivity.
Qed.

Lemma readMysqlInsert_row table columns row : columns <> [] -> length row = length columns -> ordinaryRow row = true ->
  readMysqlInsert (mysqlInsert table columns row) =
    Some (mkInsertion (mt_Schema table) (mt_Name table) (map mc_Name columns) row).
Proof.
  intros Hc Hl Ho. unfold mysqlInsert. rewrite map_mysqlValue by done. rewrite <- (map_map mc_Name quoteMysqlIdentifier).
  assert (Hn : map mc_Name columns <> []%list) by (now destruct columns).
  assert (Hr : row <> []%list) by (intros ->; now destruct columns).
  unfold readMysqlInsert, base.mbind, option_bind, quoteMysqlIdentifier.
  rewrite expect_app, readQuoted_app by reflexivity. cbv beta iota.
  rewrite expect_app, readQuoted_app by reflexivity. cbv beta iota. rewrite expect_app. cbv beta iota.
  rewrite (readList_join _ (quotedBy backtick));
    [|intros; now apply readQuoted_app, listEnd_starts|done|now apply Join_length|reflexivity..].
  cbv beta iota. rewrite expect_app. cbv beta iota.
  rewrite (readList_join readMysqlValue); [|intros v r' Hv Hr'|done|now apply Join_length|reflexivity..].
  - reflexivity.
  - unfold ordinaryRow in Ho. rewrite forallb_forall in Ho. apply readMysqlValue_app; [now apply Ho|now apply listEnd_starts].
Qed.

(** C33: the rows of a MySQL table survive a native backup when they are
    ordinary: for names without the characters the splitting treats apart and
    values that are not written raw and hold no backslash, splitting the text
    of the rows gives one statement for each row, and MySQL reads from it the
    names of the table and its columns and the values of the row, whatever
    quotes, semicolons, comment marks or line ends the values hold. *)
Theorem mysql_rows_survive table columns rows : columns <> [] -> safeTable table columns = true ->
  (forall row, In row rows -> length row = length columns /\ ordinaryRow row = true) ->
  splitMySQLStatements (writeMySQLTableData table columns rows) = map (mysqlInsert table columns) rows /\
  map readMysqlInsert (splitMySQLStatements (writeMySQLTableData table columns rows)) =
    map (fun row => Some (mkInsertion (mt_Schema table) (mt_Name table) (map mc_Name columns) row)) rows.
Proof.
  intros Hc Ht Hr.
  assert (E : splitMySQLStatements (writeMySQLTableData table columns rows) = map (mysqlInsert table columns) rows).
  { unfold splitMySQLStatements. destruct (my_rows table columns rows "" "" [] Ht Hr eq_refl) as (cur & Hb & E).
    rewrite (sapp_nil_r (writeMySQLTableData _ _ _)) in E. change (mkMscan "" [] false 0 0) with (myTop "" []). rewrite E. cbn [my_loop myTop my_statements my_current app].
    unfold addStatement. pose proof (trim_after_blank cur "" Hb) as T. rewrite sapp_nil_r in T. now rewrite T. }
  split; [exact E|]. rewrite E, map_map. apply map_ext_in. intros row Hi. destruct (Hr row Hi) as [Hl Ho]. now apply readMysqlInsert_row.
Qed.

Lemma mysql_rows_survive_witness :
  map readMysqlInsert (splitMySQLStatements (writeMySQLTableData (mkMyTable "app" "notes")
    [mkMyColumn "id" "int" true "PRI" None ""; mkMyColumn "body" "text" false "" None ""]
    [[Some "1"; Some "it's; -- DELIMITER /* x */"]; [Some "2"; None]])) =
  [Some (mkInsertion "app" "notes" ["id"; "body"] [Some "1"; Some "it's; -- DELIMITER /* x */"]);
   Some (mkInsertion "app" "notes" ["id"; "body"] [Some "2"; None])].
Proof.
  apply (mysql_rows_survive (mkMyTable "app" "notes")
    [mkMyColumn "id" "int" true "PRI" None ""; mkMyColumn "body" "text" false "" None ""]
    [[Some "1"; Some "it's; -- DELIMITER /* x */"]; [Some "2"; None]]); [discriminate|reflexivity|].
  intros row [<- | [<- | []]]; now split.
Defined.

(** ** A value that is run as SQL *)

(** A statement without the characters the splitting treats apart, and
    without space around it. *)
Definition payload (sql : string) : bool :=
  allChars myPlain sql && negb (String.eqb sql "") && String.eqb (TrimSpace sql) sql.

Lemma my_comment s sts cur : allChars (fun c => negb (Ascii.eqb c "010")) s = true ->
  my_loop (s ++ newline) (mkMscan cur sts false 0 (String.length s)) = myTop (cur ++ newline) sts.
Proof.
  intros Hs. induction s as [|c s IH]; [reflexivity|]. cbn [allChars] in Hs. apply andb_true_iff in Hs as [_ Hs].
  rewrite sapp_cons. cbn [String.length my_loop]. exact (IH Hs).
Qed.

Lemma spanUntil_line s : allChars (fun c => negb (Ascii.eqb c "010")) s = true ->
  spanUntil ["010"%char] (s ++ newline) = String.length s.
Proof.
  induction s as [|c s IH]; [reflexivity|]. cbn [allChars]. rewrite andb_true_iff, negb_true_iff. intros [Hc Hs].
  rewrite sapp_cons. cbn [spanUntil existsb String.length]. rewrite Hc. cbn. now rewrite IH.
Qed.

Lemma my_statement body rest cur sts : my_scans body (";" ++ rest) ->
  my_loop (body ++ ";" ++ rest) (myTop cur sts) = my_loop rest (myTop "" (addStatement sts (cur ++ body))).
Proof. intros H. rewrite H. reflexivity. Qed.

(** A value of a MySQL table that starts with 0x is written into the
    backup as it is, so a row can carry SQL: a user who can store the text
    "0x0); <sql>; -- " in the only column of a table has <sql> run, by itself
    and with the rights of the restoring account, when the backup is
    restored. *)
Theorem mysql_value_runs_as_sql table column sql : safeTable table [column] = true -> payload sql = true ->
  splitMySQLStatements (writeMySQLTableData table [column] [[Some ("0x0); " ++ sql ++ "; -- ")]]) =
    [mysqlInsert table [column] [Some "0x0"]; sql].
Proof.
  intros Ht Hp. unfold payload in Hp. rewrite !andb_true_iff, negb_true_iff in Hp. destruct Hp as [[Hp Hn] Hs].
  apply String.eqb_eq in Hs. apply String.eqb_neq in Hn.
  unfold safeTable in Ht. cbn [forallb] in Ht. rewrite !andb_true_iff in Ht. destruct Ht as [[H1 H2] [H3 _]].
  unfold writeMySQLTableData, concatAll. cbn [map fold_right]. rewrite sapp_nil_r.
  assert (E : forall r, mysqlInsert table [column] [Some ("0x0); " ++ sql ++ "; -- ")] ++ r =
    mysqlInsert table [column] [Some "0x0"] ++ ";" ++ (" " ++ sql) ++ ";" ++ " -- )" ++ r).
  { intros r. unfold mysqlInsert. cbn [length seq map Join mysqlValue nth]. unfold mysqlQuoteValue.
    replace (specialValue ("0x0); " ++ sql ++ "; -- ")) with true by reflexivity.
    rewrite !sapp_assoc. reflexivity. }
  rewrite E. clear E. unfold splitMySQLStatements. change (mkMscan "" [] false 0 0) with (myTop "" []).
  rewrite my_statement.
  2:{ unfold mysqlInsert. cbn [length seq map Join]. my_scan. }
  rewrite my_statement by (apply my_scans_app; [now apply my_scans_plain|now apply my_scans_plain]).
  assert (R : forall cur sts, my_loop (" -- )" ++ ";" ++ newline) (myTop cur sts) = myTop ((cur ++ " ") ++ newline) sts).
  { intros cur sts. vm_compute. reflexivity. }
  rewrite R. unfold myTop. cbn [my_statements my_current].
  destruct (insert_shape table [column] [Some "0x0"]) as [body Hb]. rewrite Hb, (addStatement_trimmed [] "") by done.
  set (ins := (String "I" body ++ ")")%string). unfold addStatement.
  change (TrimSpace ("" ++ " " ++ sql)) with (TrimSpace sql). rewrite Hs. apply String.eqb_neq in Hn. rewrite Hn. reflexivity.
Qed.

Lemma mysql_value_runs_as_sql_witness :
  splitMySQLStatements (writeMySQLTableData (mkMyTable "app" "notes") [mkMyColumn "body" "text" false "" None ""]
    [[Some "0x0); GRANT ALL ON *.* TO eve; -- "]]) =
  ["INSERT INTO `app`.`notes` (`body`) VALUES (0x0)"; "GRANT ALL ON *.* TO eve"].
Proof. exact (mysql_value_runs_as_sql (mkMyTable "app" "notes") (mkMyColumn "body" "text" false "" None "") "GRANT ALL ON *.* TO eve" eq_refl eq_refl). Defined.

(** A backslash is not escaped: MySQL does not read the row back. *)
Example backslash_breaks_row :
  readMysqlInsert (mysqlInsert (mkMyTable "app" "notes") [mkMyColumn "body" "text" false "" None ""] [Some "C:\"]) = None /\
  readMysqlInsert (mysqlInsert (mkMyTable "app" "notes") [mkMyColumn "body" "text" false "" None ""] [Some "C:\new"]) =
    Some (mkInsertion "app" "notes" ["body"] [Some ("C:" ++ String "010" "ew")]).
Proof. vm_compute. split; reflexivity. Qed.
