(* ===== verification/MySqlWire.v ===== *)
(** * Packets of the MySQL protocol

    Models src/internal/drivers/mysql/wire.go and native.go. A connection
    keeps what the server sent that is not read yet, the state of the server
    and the packets sent. The server, dialling, url.Parse and SHA-1 are
    parameters.

    The theorem shows that no query ever gets an answer: reading the first
    packet indexes past the end of a slice. *)

From Stdlib Require Import Ascii String.
From S2P Require Import Prelude ChunkHash Core Calendar GoStrings GoText Manifest Engine PgText PgWire PgConn MySqlText.
Local Open Scope Z_scope.

Definition mysqlMaxPacketSize : Z := Z.shiftl 1 24.
Definition mysqlOKPacket : Z := 0.
Definition mysqlERRPacket : Z := 255.
Definition mysqlEOFHello : Z := 254.
Definition defaultCharset : Z := 33.

Record mysqlPacket := mkMyPacket { pk_Length : Z; pk_Number : Z; pk_Type : Z; pk_Body : bytes }.

Record mysqlField := mkMyField
  { mf_Catalog : string; mf_Table : string; mf_OrgTable : string; mf_Name : string; mf_OrgName : string;
    mf_Charset : Z; mf_Length : Z; mf_Type : Z; mf_Flags : Z; mf_Scale : Z }.

Record mysqlQueryResult := mkMyResult { mq_Fields : list mysqlField; mq_Rows : list mysqlRow; mq_Command : string }.

(** ** Slices and integers *)

Definition outOfRange : string := "index out of range".

(** l[from:from+n] of a slice without spare capacity. *)
Definition sliceOf (from n : Z) (l : bytes) : outcome bytes :=
  if zlen l <? from + n then Panic "slice bounds out of range" else Ok (take (Z.to_nat n) (drop (Z.to_nat from) l)).

(** binary.LittleEndian: both touch the last byte they need first. *)
Definition leUint16 (b : bytes) : outcome Z := if zlen b <? 2 then Panic outOfRange else Ok (le_decode (take 2 b)).
Definition leUint32 (b : bytes) : outcome Z := if zlen b <? 4 then Panic outOfRange else Ok (le_decode (take 4 b)).

(** binary.ReadUvarint, [i] bytes in. *)
Fixpoint uvarint_loop (fuel : nat) (i x : Z) (l : bytes) : option Z :=
  match fuel, l with
  | Datatypes.S fuel, b :: r =>
      if b2z b <? 128 then (if (i =? 9) && (1 <? b2z b) then None else Some (Z.lor x (u64 (Z.shiftl (b2z b) (7 * i)))))
      else uvarint_loop fuel (i + 1) (Z.lor x (u64 (Z.shiftl (Z.land (b2z b) 127) (7 * i)))) r
  | _, _ => None
  end.

Definition ReadUvarint (l : bytes) : option Z := uvarint_loop 10 0 0 l.

(** ** Reading *)

(** The length is read from the first three bytes of the header. *)
Definition readPacket : M bytes mysqlPacket :=
  header <-- readFull 4 ;;
  length <-- mlift (leUint32 (take 3 header)) ;;
  let number := b2z (nth 3 header Byte.x00) in
  if length =? 0 then mret (mkMyPacket 0 number 0 [])
  else if mysqlMaxPacketSize <? length then merr "mysql packet too large"
  else
    body <-- readFull length ;;
    length <-- mlift (leUint32 (take 3 header)) ;;
    mret (mkMyPacket length number (b2z (hd Byte.x00 body)) (tl body)).

Fixpoint nullString_loop (b : bytes) (out : bytes) (i : Z) : string * Z :=
  match b with
  | [] => (string_of_list_byte out, i)
  | c :: r => if Byte.eqb c Byte.x00 then (string_of_list_byte out, i + 1) else nullString_loop r (out ++ [c]) (i + 1)
  end.

Definition readNullString (b : bytes) : string * Z := nullString_loop b [] 0.

Definition parseMySQLError (body : bytes) : outcome string :=
  if zlen body <? 9 then Ok "mysql error"
  else
    code <~ leUint16 (zslice 1 2 body) ;;
    Ok ("mysql error " ++ Itoa code ++ ": " ++ string_of_list_byte (drop 9 body))%string.

(** The error a packet carries. *)
Definition failWith {A} (body : bytes) : outcome A := message <~ parseMySQLError body ;; Err message.

Definition parseOKCommand (body : bytes) : string := if 3 <=? zlen body then "OK" else "".

(** A string after its length in one byte; a length that is too large leaves
    the string empty and the bytes where they are. *)
Definition readShort (l : bytes) : string * bytes :=
  match l with
  | [] => ("", [])
  | n :: r =>
      let slen := b2z n in
      if (0 <? slen) && (slen <=? zlen r) then (string_of_list_byte (take (Z.to_nat slen) r), drop (Z.to_nat slen) r) else ("", r)
  end.

Definition readByte (l : bytes) : Z * bytes := match l with [] => (0, []) | b :: r => (b2z b, r) end.

Definition parseFieldPacket (body : bytes) : mysqlField :=
  let '(catalog, l) := readShort body in
  let '(table, l) := readShort l in
  let '(orgTable, l) := readShort l in
  let '(name, l) := readShort l in
  let '(orgName, l) := readShort l in
  let l := drop 4 l in
  let '(type, l) := readByte l in
  let '(flags, l) := match l with a :: b :: r => (le_decode [a; b], r) | _ => (0, l) end in
  let '(scale, _) := readByte l in
  mkMyField catalog table orgTable name orgName 0 0 type flags scale.

(** The length of a value and what follows it. *)
Definition valueLength (first : Z) (l : bytes) : option (Z * bytes) :=
  if first =? 252 then (if zlen l <? 2 then None else Some (le_decode (take 2 l), drop 2 l))
  else if first =? 253 then (if zlen l <? 3 then None else Some (le_decode (take 3 l), drop 3 l))
  else Some (first, l).

(** The values of [n] fields. *)
Fixpoint parseRowPacket (n : nat) (body : bytes) : mysqlRow :=
  match n with
  | O => []
  | Datatypes.S n =>
      match body with
      | [] => replicate (Datatypes.S n) None
      | b :: l =>
          if b2z b =? 251 then None :: parseRowPacket n l
          else
            match valueLength (b2z b) l with
            | None => replicate (Datatypes.S n) None
            | Some (slen, l) =>
                let slen := Z.min slen (zlen l) in
                if 0 <? slen then Some (string_of_list_byte (take (Z.to_nat slen) l)) :: parseRowPacket n (drop (Z.to_nat slen) l)
                else None :: parseRowPacket n l
            end
      end
  end.

(** Each packet takes at least four bytes. *)
Fixpoint columns_loop (fuel : nat) (fields : list mysqlField) : M bytes (list mysqlField) :=
  match fuel with
  | O => mfuel
  | Datatypes.S fuel =>
      packet <-- readPacket ;;
      if (pk_Type packet =? mysqlEOFHello) && (zlen (pk_Body packet) =? 5) then mret fields
      else if pk_Type packet =? mysqlERRPacket then mlift (failWith (pk_Body packet))
      else columns_loop fuel (fields ++ [parseFieldPacket (pk_Body packet)])
  end.

Fixpoint rows_loop (fuel : nat) (fields : list mysqlField) (rows : list mysqlRow) : M bytes (list mysqlRow) :=
  match fuel with
  | O => mfuel
  | Datatypes.S fuel =>
      packet <-- readPacket ;;
      if pk_Type packet =? mysqlERRPacket then mlift (failWith (pk_Body packet))
      else if pk_Type packet =? mysqlEOFHello then mret rows
      else rows_loop fuel fields (rows ++ [parseRowPacket (length fields) (pk_Body packet)])
  end.

Definition readQueryResponse : M bytes mysqlQueryResult := fun l =>
  (first <-- readPacket ;;
   if pk_Type first =? mysqlOKPacket then mret (mkMyResult [] [] (parseOKCommand (pk_Body first)))
   else if pk_Type first =? mysqlERRPacket then mlift (failWith (pk_Body first))
   else
     match ReadUvarint (pk_Body first) with
     | None | Some 0 => merr "invalid column count"
     | Some _ =>
         fields <-- columns_loop (length l) [] ;;
         rows <-- rows_loop (length l) fields [] ;;
         mret (mkMyResult fields rows "")
     end) l.

(** A value of no characters is read as NULL, and so are the values after the
    end of a packet. *)
Example row_examples :
  parseRowPacket 3 [Byte.x01; Byte.x61; Byte.x00; Byte.xfb] = [Some "a"%string; None; None] /\
  parseRowPacket 3 [Byte.x05; Byte.x61] = [Some "a"%string; None; None].
Proof. vm_compute. split; reflexivity. Qed.

(** ** Writing *)

Definition packetHeader (length number : Z) : bytes := le_encode 3 length ++ [z2b number].

Definition writeCommandPacket (command : Z) (payload : bytes) : bytes :=
  packetHeader (1 + zlen payload) 0 ++ [z2b command] ++ payload.

Definition writePacket (packetNum : Z) (body : bytes) : bytes := packetHeader (zlen body) packetNum ++ body.

(** ** Connections *)

Section Conn.
  Context {S : Type} (serve : bytes -> S -> bytes * S) (sha1 : bytes -> bytes).

Record MyConn := mkMyConn { my_unread : bytes; my_server : S; my_sent : list bytes }.

Definition mySend (packet : bytes) : M MyConn unit := fun c =>
  let '(answer, server) := serve packet (my_server c) in
  (Ok tt, mkMyConn (my_unread c ++ answer) server (my_sent c ++ [packet])).

Definition receiving {A} (m : M bytes A) : M MyConn A := fun c =>
  let '(r, rest) := m (my_unread c) in (r, mkMyConn rest (my_server c) (my_sent c)).

Definition firstOf (l : bytes) : byte := hd Byte.x00 l.

(** Each byte of the challenge is mixed by itself. *)
Definition mysqlNativePassword (password : string) (challenge : bytes) : bytes :=
  let p1 := sha1 (textBytes password) in
  let p2 := sha1 p1 in
  map (fun i => if (i <? length challenge)%nat && (i <? length p2)%nat
                then xorByte (nth i p1 Byte.x00) (firstOf (sha1 (p2 ++ [nth i challenge Byte.x00]))) else Byte.x00) (seq 0 20).

Definition buildAuthResponse (password : string) (handshakeBody : bytes) : bytes :=
  if String.eqb password "" then []
  else if zlen handshakeBody <=? 29 then []
  else let authData := drop 29 handshakeBody in
       if zlen authData <? 20 then [] else mysqlNativePassword password (take 20 authData).

(** What is read of the greeting after its version; all of it is ignored. *)
Definition parseGreeting (body : bytes) : outcome unit :=
  let pos := (readNullString body).2 in
  caps <~ sliceOf pos 4 body ;;
  _ <~ leUint32 caps ;;
  _ <~ (if zlen body <=? pos + 4 then Panic outOfRange else Ok tt) ;;
  status <~ sliceOf (pos + 5) 2 body ;;
  _ <~ leUint16 status ;;
  Ok tt.

(** binary.Write of the capabilities writes nothing: an int has no fixed size. *)
Definition handshakeResponse (username database : string) (authResp : bytes) : bytes :=
  [Byte.x00] ++ le_encode 4 23 ++ [z2b defaultCharset] ++ replicate 23 Byte.x00 ++ textBytes username ++ [Byte.x00] ++
  (if 0 <? zlen authResp then z2b (zlen authResp) :: authResp else [Byte.x00]) ++
  textBytes database ++ [Byte.x00].

Definition mysqlHandshake (username password database : string) : M MyConn unit :=
  packet <-- receiving readPacket ;;
  if negb (pk_Type packet =? mysqlEOFHello) then merr "expected handshake packet 0xfe"
  else
    _ <-- mlift (parseGreeting (pk_Body packet)) ;;
    _ <-- mySend (writePacket 1 (handshakeResponse username database (buildAuthResponse password (pk_Body packet)))) ;;
    result <-- receiving readPacket ;;
    if pk_Type result =? mysqlOKPacket then mret tt
    else if pk_Type result =? mysqlERRPacket then mlift (failWith (pk_Body result))
    else if pk_Type result =? 1 then mret tt
    else merr "unexpected auth response packet type".

Definition mysqlQuery (query : string) : M MyConn mysqlQueryResult :=
  _ <-- mySend (writeCommandPacket 3 (textBytes query)) ;; receiving readQueryResponse.
End Conn.

(** ** Settings *)

Record mysqlConfig := mkMyConfig
  { my_Address : string; my_Host : string; my_Port : string; my_Database : string; my_Username : string; my_Password : string;
    my_Charset : string; my_TLSConfig : string }.

Section Config.
  Context (parseURL : string -> option PgURL).

Definition mysqlDefaults : mysqlConfig := mkMyConfig "" "127.0.0.1" "3306" "mysql" "root" "" "utf8mb4" "".

Definition mysqlConfigFromDSN (dsn : string) : outcome mysqlConfig :=
  match parseURL dsn with
  | None => Err "parse mysql dsn"
  | Some parsed =>
      if negb (String.eqb (ur_Scheme parsed) "mysql") && negb (String.eqb (ur_Scheme parsed) "mariadb")
      then Err "unsupported mysql dsn scheme"
      else
        Ok (mkMyConfig "" (notEmpty (ur_Hostname parsed) (my_Host mysqlDefaults)) (notEmpty (ur_Port parsed) (my_Port mysqlDefaults))
              (notEmpty (TrimPrefix (ur_EscapedPath parsed) "/") (my_Database mysqlDefaults))
              (match ur_User parsed with Some (name, _) => name | None => my_Username mysqlDefaults end)
              (match ur_User parsed with Some (_, Some password) => password | _ => my_Password mysqlDefaults end)
              (my_Charset mysqlDefaults) (my_TLSConfig mysqlDefaults))
  end.

Definition mysqlConfigFromTarget (target : DTarget) : outcome mysqlConfig :=
  let connection := mget (dt_Connection target) in
  let options := mget (dt_Options target) in
  let dsn := TrimSpace (connection "dsn") in
  cfg <~ (if String.eqb dsn "" then Ok mysqlDefaults else mysqlConfigFromDSN dsn) ;;
  let '(addrHost, addrPort) := splitAddress (connection "addr") in
  let host := orElse (connection "host") (notEmpty addrHost (my_Host cfg)) in
  let port := orElse (connection "port") (notEmpty addrPort (my_Port cfg)) in
  let password := firstNonEmpty [connection "password"; options "password"] in
  Ok (mkMyConfig (JoinHostPort host port) host port
        (orElse (firstNonEmpty [connection "database"; options "database"]) (my_Database cfg))
        (orElse (firstNonEmpty [connection "username"; connection "user"; options "username"; options "user"]) (my_Username cfg))
        (if negb (String.eqb (TrimSpace password) "") then password else my_Password cfg)
        (orElse (firstNonEmpty [connection "charset"; options "charset"]) (my_Charset cfg))
        (orElse (firstNonEmpty [connection "tls"; options "tls"]) (my_TLSConfig cfg))).
End Config.

(** ** Queries on connections of their own *)

Record mysqlBinlogEvent := mkBinlogEvent
  { be_LogName : string; be_Pos : Z; be_Type : string; be_Schema : string; be_Table : string; be_Data : bytes }.

(** The event of a row of at least four values; it has to have six. *)
Definition binlogEvent (row : mysqlRow) : outcome mysqlBinlogEvent :=
  if zlen row <? 6 then Panic outOfRange
  else Ok (mkBinlogEvent (default "" (nth 0 row None)) 0 (default "" (nth 3 row None)) (default "" (nth 4 row None)) ""
             (textBytes (default "" (nth 5 row None)))).

Fixpoint binlog_loop (rows : list mysqlRow) : outcome (list mysqlBinlogEvent) :=
  match rows with
  | [] => Ok []
  | row :: rest =>
      if zlen row <? 4 then binlog_loop rest
      else event <~ binlogEvent row ;; events <~ binlog_loop rest ;; Ok (event :: events)
  end.

Section Runner.
  (** The bytes the server sends when a connection is open, None when it
      cannot be opened. *)
  Context {S : Type} (dial : string -> S -> option bytes * S) (serve : bytes -> S -> bytes * S) (sha1 : bytes -> bytes).
  Context (parseURL : string -> option PgURL).

Definition mysqlSession {A} (cfg : mysqlConfig) (m : M MyConn A) : M S A := fun s =>
  match dial (my_Address cfg) s with
  | (None, s) => (Err "dial", s)
  | (Some greeting, s) =>
      let '(r, c) := (_ <-- mysqlHandshake serve sha1 (my_Username cfg) (my_Password cfg) (my_Database cfg) ;; m)
                       (mkMyConn greeting s []) in
      (r, my_server c)
  end.

Definition masterStatus (result : mysqlQueryResult) : outcome (string * string) :=
  match mq_Rows result with
  | (file :: pos :: _) :: _ => Ok (default "" file, default "" pos)
  | _ => Err "SHOW MASTER STATUS returned no rows"
  end.

Definition mysqlSimpleQuery (target : DTarget) (query : string) : M S mysqlQueryResult :=
  cfg <-- mlift (mysqlConfigFromTarget parseURL target) ;; mysqlSession cfg (mysqlQuery serve query).

Definition mysqlGetMasterStatus (target : DTarget) : M S (string * string) :=
  cfg <-- mlift (mysqlConfigFromTarget parseURL target) ;;
  mysqlSession cfg (result <-- mysqlQuery serve "SHOW MASTER STATUS" ;; mlift (masterStatus result)).

Definition binlogQuery (position : string) : string :=
  if negb (String.eqb position "") then "SHOW BINLOG EVENTS IN '" ++ position ++ "'" else "SHOW BINLOG EVENTS".

Definition mysqlGetBinlogEvents (target : DTarget) (position : string) : M S (list mysqlBinlogEvent) :=
  cfg <-- mlift (mysqlConfigFromTarget parseURL target) ;;
  mysqlSession cfg (result <-- mysqlQuery serve (binlogQuery position) ;; mlift (binlog_loop (mq_Rows result))).

(** ** A packet cannot be read *)

Lemma readPacket_panics l : 4 <= zlen l -> (readPacket l).1 = Panic outOfRange.
Proof.
  intros Hl. unfold readPacket, mbind, readFull. destruct (Z.ltb_spec (zlen l) 4); [lia|]. unfold mlift, leUint32.
  destruct (Z.ltb_spec (zlen (take 3 (take (Z.to_nat 4) l))) 4) as [_|H0]; [done|].
  unfold zlen in H0. rewrite !length_take in H0. lia.
Qed.

Lemma session_panics {A} cfg (m : M MyConn A) s greeting s' : dial (my_Address cfg) s = (Some greeting, s') -> 4 <= zlen greeting ->
  mysqlSession cfg m s = (Panic outOfRange, s').
Proof.
  intros Hd Hg. unfold mysqlSession. rewrite Hd. unfold mysqlHandshake, receiving, mbind. cbn [my_unread].
  pose proof (readPacket_panics greeting Hg) as E. destruct (readPacket greeting) as [r rest]. cbn in E. now subst r.
Qed.
End Runner.
