(* ===== verification/MySqlDriver.v ===== *)
(** * The MySQL driver

    Models src/internal/drivers/mysql/native_backup.go (what a backup reads),
    native_restore.go and driver.go against the class [mysqlQueryer], the
    interface of the source; MySqlWire implements it. The external tools are a
    parameter.

    The theorems show what a restore of a native backup runs, that an
    incremental backup holds nothing, and that with the native protocol, the
    default, nothing works against a server that answers. *)

From Stdlib Require Import Ascii String.
From S2P Require Import Prelude ChunkHash Core Calendar GoStrings GoText Manifest Engine PgText PgSplit PgDump PgWire PgConn MySqlText MySqlWire.
Local Open Scope Z_scope.

(** A queryer, with what it acts on. *)
Class mysqlQueryer (Q : Type) := {
  SimpleQuery : DTarget -> string -> M Q mysqlQueryResult;
  GetMasterStatus : DTarget -> M Q (string * string);
  GetBinlogEvents : DTarget -> string -> M Q (list mysqlBinlogEvent)
}.

(** ** Settings *)

Definition databaseObjectKind : string := "database".

Definition databaseName (target : DTarget) : string :=
  let connection := TrimSpace (mget (dt_Connection target) "database") in
  let option := TrimSpace (mget (dt_Options target) "database") in
  if negb (String.eqb connection "") then connection else if negb (String.eqb option "") then option else "mysql".

Definition useNativeProtocol (target : DTarget) : bool :=
  let value := ToLower (TrimSpace (firstNonEmpty
    [mget (dt_Connection target) "protocol"; mget (dt_Connection target) "native_protocol"; mget (dt_Connection target) "native";
     mget (dt_Options target) "protocol"; mget (dt_Options target) "native_protocol"; mget (dt_Options target) "native"])) in
  negb (existsb (String.eqb value) ["mysqldump"; "shell"; "external"]).

Definition mysqlConnectionArgs (target : DTarget) : list string :=
  let connection := mget (dt_Connection target) in
  let '(addrHost, addrPort) := splitAddress (connection "addr") in
  let host := orElse (connection "host") addrHost in
  let port := orElse (connection "port") addrPort in
  let username := TrimSpace (firstNonEmpty [connection "username"; connection "user"]) in
  ["--host"; notEmpty host "127.0.0.1"; "--port"; notEmpty port "3306"] ++
  (if negb (String.eqb username "") then ["--user"; username] else []).

Definition mysqlSetGTIDPurgedMode (target : DTarget) : string :=
  let value := TrimSpace (firstNonEmpty
    [mget (dt_Options target) "set_gtid_purged"; mget (dt_Options target) "dump_set_gtid_purged";
     mget (dt_Connection target) "set_gtid_purged"]) in
  let lower := ToLower value in
  if existsb (String.eqb lower) [""; "false"; "0"; "off"] then "OFF"
  else if existsb (String.eqb lower) ["omit"; "unsupported"; "none"] then ""
  else ToUpper value.

Definition mysqlDumpArgs (target : DTarget) : list string :=
  let mode := mysqlSetGTIDPurgedMode target in
  mysqlConnectionArgs target ++ ["--single-transaction"; "--routines"; "--triggers"; "--events"] ++
  (if negb (String.eqb mode "") then ["--set-gtid-purged=" ++ mode]%string else []).

Definition mysqlArgs (target : DTarget) : list string :=
  mysqlConnectionArgs target ++ ["--database"; databaseName target].

Definition mysqlEnv (target : DTarget) : list string :=
  let password := firstNonEmpty [mget (dt_Connection target) "password"; mget (dt_Options target) "password"] in
  if String.eqb (TrimSpace password) "" then [] else ["MYSQL_PWD=" ++ password]%string.

(** ** Reading the database *)

(** fmt.Sscanf(s, "%d", &count): a count that is not a number stays 0. *)
Fixpoint leadingDigits (s : string) : string :=
  match s with String c r => if isDigit c then String c (leadingDigits r) else EmptyString | EmptyString => EmptyString end.

Fixpoint skipBlanks (s : string) : string :=
  match s with String c r => if asciiSpace c && negb (Ascii.eqb c "010") then skipBlanks r else s | EmptyString => EmptyString end.

Definition scanCount (s : string) : Z :=
  let token := match skipBlanks s with
               | String c r => if Ascii.eqb c "-" || Ascii.eqb c "+" then String c (leadingDigits r) else leadingDigits (String c r)
               | EmptyString => EmptyString
               end in
  match Atoi token with Some z => z | None => 0 end.

(** What the catalogue says of a table. *)
Record MyTableDump := mkMyTableDump
  { my_Table : mysqlTable; my_Create : string; my_Count : Z; my_Columns : list mysqlColumn; my_Rows : list mysqlRow }.

Definition tableOfRow (row : mysqlRow) : list mysqlTable :=
  match row with Some schema :: Some name :: _ => [mkMyTable schema name] | _ => [] end.

Fixpoint columns_of_rows (rows : list mysqlRow) : outcome (list mysqlColumn) :=
  match rows with
  | [] => Ok []
  | row :: rest =>
      if zlen row <? 4 then columns_of_rows rest
      else if zlen row <? 6 then Panic outOfRange
      else
        columns <~ columns_of_rows rest ;;
        Ok (mkMyColumn (default "" (nth 0 row None)) (default "" (nth 1 row None))
              (match nth 2 row None with Some nullable => String.eqb (ToUpper nullable) "NO" | None => false end)
              (default "" (nth 3 row None)) (nth 4 row None) (default "" (nth 5 row None)) :: columns)
  end.

Definition qualifiedName (table : mysqlTable) : string :=
  (quoteMysqlIdentifier (mt_Schema table) ++ "." ++ quoteMysqlIdentifier (mt_Name table))%string.

Section Backup.
  Context {Q : Type} `{!mysqlQueryer Q} (target : DTarget).

Definition mysqlListTables : M Q (list mysqlTable) :=
  result <-- SimpleQuery target ("SELECT TABLE_SCHEMA, TABLE_NAME FROM information_schema.TABLES WHERE TABLE_SCHEMA = " ++
    quoteMysqlValue (databaseName target) ++ " AND TABLE_TYPE = 'BASE TABLE' ORDER BY TABLE_NAME") ;;
  mret (concat (map tableOfRow (mq_Rows result))).

Definition mysqlGetCreateTable (table : mysqlTable) : M Q string :=
  result <-- SimpleQuery target ("SHOW CREATE TABLE " ++ qualifiedName table) ;;
  match mq_Rows result with
  | (_ :: Some create :: _) :: _ => mret create
  | _ => merr "SHOW CREATE TABLE returned no result"
  end.

Definition mysqlListColumns (table : mysqlTable) : M Q (list mysqlColumn) :=
  result <-- SimpleQuery target ("SELECT COLUMN_NAME, DATA_TYPE, IS_NULLABLE, COLUMN_KEY, COLUMN_DEFAULT, EXTRA FROM information_schema.COLUMNS WHERE TABLE_SCHEMA = " ++
    quoteMysqlValue (mt_Schema table) ++ " AND TABLE_NAME = " ++ quoteMysqlValue (mt_Name table) ++ " ORDER BY ORDINAL_POSITION") ;;
  mlift (columns_of_rows (mq_Rows result)).

Definition mysqlGetRowCount (table : mysqlTable) : M Q Z :=
  result <-- SimpleQuery target ("SELECT COUNT(*) FROM " ++ qualifiedName table) ;;
  match mq_Rows result with
  | [] => mret 0
  | [] :: _ => mpanic outOfRange
  | (None :: _) :: _ => mret 0
  | (Some count :: _) :: _ => mret (scanCount count)
  end.

Definition mysqlReadTable (table : mysqlTable) (columns : list mysqlColumn) : M Q (list mysqlRow) :=
  match columns with
  | [] => mret []
  | _ =>
      result <-- SimpleQuery target ("SELECT " ++ Join (map (fun column => quoteMysqlIdentifier (mc_Name column)) columns) ", " ++
                                     " FROM " ++ qualifiedName table) ;;
      mret (mq_Rows result)
  end.

Definition readTableDump (table : mysqlTable) : M Q MyTableDump :=
  create <-- mysqlGetCreateTable table ;;
  count <-- mysqlGetRowCount table ;;
  columns <-- mysqlListColumns table ;;
  rows <-- mysqlReadTable table columns ;;
  mret (mkMyTableDump table create count columns rows).

Fixpoint readTableDumps (tables : list mysqlTable) : M Q (list MyTableDump) :=
  match tables with
  | [] => mret []
  | table :: rest => dump <-- readTableDump table ;; dumps <-- readTableDumps rest ;; mret (dump :: dumps)
  end.

(** ** Native backups and restores *)

Definition tablePayload (dump : MyTableDump) : string :=
  (my_Create dump ++ ";" ++ newline ++ newline ++ writeMySQLTableData (my_Table dump) (my_Columns dump) (my_Rows dump))%string.

Definition mysqlPayload (dumps : list MyTableDump) : string :=
  ("SET NAMES utf8mb4;" ++ newline ++ newline ++ concatAll (map tablePayload dumps))%string.

Definition totalRows (dumps : list MyTableDump) : Z := foldl (fun n dump => i64 (n + my_Count dump)) 0 dumps.

Definition dumpRecords (dumps : list MyTableDump) : list DRecord :=
  let obj := mkObjectRef "" (databaseName target) databaseObjectKind in
  [mkDRecord obj (list_byte_of_string (mysqlPayload dumps)) 0 false; mkDRecord obj [] (totalRows dumps) true].

Definition mysqlNativeBackupFull : M Q (list DRecord * ResumePoint) :=
  tables <-- mysqlListTables ;;
  dumps <-- readTableDumps tables ;;
  mret (dumpRecords dumps, mkResumePoint "mysql" "mysql:native" 0 ∅).

Definition replaceRequired : string :=
  "mysql restore requires replace_existing=true because SQL restore can overwrite existing objects".

Fixpoint run_statements (statements : list string) : M Q unit :=
  match statements with
  | [] => mret tt
  | statement :: rest =>
      if String.eqb (TrimSpace statement) "" then run_statements rest
      else _ <-- SimpleQuery target (TrimSpace statement) ;; run_statements rest
  end.

Definition restoreRecord (record : DRecord) (opts : RestoreOptions) : M Q unit :=
  if rc_Done record || negb (String.eqb (ob_Kind (rc_Object record)) databaseObjectKind) then mret tt
  else if ro_DryRun opts then mret tt
  else if negb (ro_ReplaceExisting opts) then merr replaceRequired
  else run_statements (splitMySQLStatements (string_of_list_byte (rc_Payload record))).

(** The records and what NextRecord reports after them. *)
Fixpoint mysqlNativeRestore (records : list DRecord) (last : string) (opts : RestoreOptions) : M Q unit :=
  match records with
  | [] => if String.eqb last EOF then mret tt else merr last
  | record :: rest => _ <-- restoreRecord record opts ;; mysqlNativeRestore rest last opts
  end.
End Backup.

(** ** Restores of native backups *)

(** A dump of text the splitting leaves whole. *)
Definition goodDump (dump : MyTableDump) : Prop :=
  safeTable (my_Table dump) (my_Columns dump) = true /\ quietText false (my_Create dump) = true /\
  TrimSpace (my_Create dump) = my_Create dump /\ my_Create dump <> ""%string /\
  forall row, In row (my_Rows dump) -> length row = length (my_Columns dump) /\ ordinaryRow row = true.

Definition tableStatements (dump : MyTableDump) : list string :=
  my_Create dump :: map (mysqlInsert (my_Table dump) (my_Columns dump)) (my_Rows dump).

Definition dumpStatements (dumps : list MyTableDump) : list string :=
  "SET NAMES utf8mb4"%string :: concat (map tableStatements dumps).

Lemma split_table dump r cur sts : goodDump dump -> IDIsZero cur = true ->
  exists cur', IDIsZero cur' = true /\
    my_loop (tablePayload dump ++ r) (myTop cur sts) = my_loop r (myTop cur' (sts ++ tableStatements dump)).
Proof.
  intros (Ht & Hq & Htrim & Hne & Hrows) Hc. unfold tablePayload. rewrite !sapp_assoc.
  change (";" ++ ?t)%string with (String ";" t). rewrite (my_scans_quiet _ _ Hq).
  change (my_loop (String ";" ?t) (myTop ?c ?st)) with (my_loop t (myTop "" (addStatement st c))).
  unfold addStatement. rewrite trim_after_blank, Htrim by done. apply String.eqb_neq in Hne. rewrite Hne. cbn [negb].
  change (my_loop (newline ++ newline ++ ?t) (myTop "" ?st)) with (my_loop t (myTop (newline ++ newline) st)).
  destruct (my_rows (my_Table dump) (my_Columns dump) (my_Rows dump) r (newline ++ newline) (sts ++ [my_Create dump]) Ht Hrows eq_refl)
    as (cur' & H1 & H2).
  exists cur'. split; [done|]. etransitivity; [exact H2|]. unfold tableStatements. now rewrite <- app_assoc.
Qed.

Lemma split_dumps dumps cur sts : Forall goodDump dumps -> IDIsZero cur = true ->
  exists cur', IDIsZero cur' = true /\
    my_loop (concatAll (map tablePayload dumps)) (myTop cur sts) = myTop cur' (sts ++ concat (map tableStatements dumps)).
Proof.
  intros Hd. revert cur sts. induction Hd as [|dump dumps Hg Hd IH]; intros cur sts Hc.
  - exists cur. split; [done|]. cbn. now rewrite app_nil_r.
  - unfold concatAll. cbn [map fold_right concat].
    destruct (split_table dump (concatAll (map tablePayload dumps)) cur sts Hg Hc) as (c1 & H1 & H2).
    destruct (IH c1 (sts ++ tableStatements dump) H1) as (c2 & H3 & H4). exists c2. split; [done|].
    etransitivity; [exact H2|]. etransitivity; [exact H4|]. now rewrite <- app_assoc.
Qed.

Lemma split_payload dumps : Forall goodDump dumps -> splitMySQLStatements (mysqlPayload dumps) = dumpStatements dumps.
Proof.
  intros Hd. unfold splitMySQLStatements, mysqlPayload.
  change (my_loop (?a ++ ?b ++ ?c ++ ?t) (mkMscan "" [] false 0 0)) with (my_loop t (myTop (newline ++ newline) ["SET NAMES utf8mb4"%string])).
  destruct (split_dumps dumps (newline ++ newline) ["SET NAMES utf8mb4"%string] Hd eq_refl) as (cur & Hc & E). rewrite E.
  unfold myTop, addStatement. cbn [my_statements my_current]. rewrite <- (sapp_nil_r cur), trim_after_blank by done. reflexivity.
Qed.

Section Restores.
  Context {Q : Type} `{!mysqlQueryer Q}.

Lemma run_good target statements (q : Q) : Forall goodStatement statements ->
  run_statements target statements q =
  foldr (fun statement (rest : M Q unit) => _ <-- SimpleQuery target statement ;; rest) (mret tt) statements q.
Proof.
  intros H. revert q. induction H as [|s sts [Ht Hs] H IH]; intros q; [done|]. cbn [run_statements foldr]. rewrite Ht.
  apply String.eqb_neq in Hs. rewrite Hs. apply mbind_ext. intros. apply IH.
Qed.

Lemma my_run_refused target statement statements (q : Q) : Forall goodStatement statements ->
  (forall q, is_ok (SimpleQuery target statement q).1 = false) -> In statement statements ->
  is_ok (run_statements target statements q).1 = false.
Proof.
  intros Hg Hr. revert q. induction Hg as [|s sts [Ht Hs] Hg IH]; intros q []; cbn [run_statements]; rewrite Ht;
    apply String.eqb_neq in Hs; rewrite Hs; unfold mbind.
  - subst s. specialize (Hr q). now destruct (SimpleQuery target statement q) as [[r|e|e|] q'].
  - destruct (SimpleQuery target s q) as [[r|e|e|] q']; [now apply IH|done..].
Qed.

Lemma my_native_restore_dump (source target : DTarget) dumps opts (q : Q) : Forall goodDump dumps ->
  ro_DryRun opts = false -> ro_ReplaceExisting opts = true ->
  mysqlNativeRestore target (dumpRecords source dumps) EOF opts q = run_statements target (dumpStatements dumps) q.
Proof.
  intros Hd H1 H2. unfold dumpRecords. cbn [mysqlNativeRestore]. unfold restoreRecord at 1. cbn [rc_Done rc_Object ob_Kind rc_Payload].
  rewrite String.eqb_refl, H1, H2. cbn [negb orb]. rewrite string_of_list_byte_of_string, split_payload by done. unfold mbind.
  destruct (run_statements target (dumpStatements dumps) q) as [[[]|e|e|] q']; reflexivity.
Qed.

(** No statement of a backup drops a table: with a table that is still there,
    which MySQL refuses to create, a restore fails although it is told to
    replace what exists. *)
Lemma mysql_restore_never_replaces (source target : DTarget) dumps dump opts (q : Q) : Forall goodDump dumps ->
  In dump dumps -> (forall q, is_ok (SimpleQuery target (my_Create dump) q).1 = false) ->
  ro_DryRun opts = false -> ro_ReplaceExisting opts = true ->
  is_ok (mysqlNativeRestore target (dumpRecords source dumps) EOF opts q).1 = false.
Proof.
  intros Hd Hin Hr H1 H2. rewrite my_native_restore_dump by done. apply (my_run_refused _ (my_Create dump)); [|done|].
  - rewrite <- split_payload by done. apply split_good.
  - right. apply in_concat. exists (tableStatements dump). split; [now apply in_map|now left].
Qed.
End Restores.

(** A restore of a native MySQL backup runs the statements of the backup,
    each whole and in order: the names of characters, and for each table its
    definition and one INSERT for each row, as far as the names, the
    definitions and the values are ordinary text; without replace_existing it
    fails and runs nothing, and a dry run runs nothing. *)
Theorem mysql_restore_runs_dump {Q Q' : Type} `{!mysqlQueryer Q} `{!mysqlQueryer Q'} source tables dumps (q q1 q2 : Q) :
  mysqlListTables source q = (Ok tables, q1) -> readTableDumps source tables q1 = (Ok dumps, q2) -> Forall goodDump dumps ->
  exists rp, mysqlNativeBackupFull source q = (Ok (dumpRecords source dumps, rp), q2) /\
  forall target opts (q' : Q'),
    mysqlNativeRestore target (dumpRecords source dumps) EOF opts q' =
      if ro_DryRun opts then (Ok tt, q')
      else if negb (ro_ReplaceExisting opts) then (Err replaceRequired, q')
      else foldr (fun statement (rest : M Q' unit) => _ <-- SimpleQuery target statement ;; rest) (mret tt) (dumpStatements dumps) q'.
Proof.
  intros H1 H2 Hd. eexists. split.
  - unfold mysqlNativeBackupFull, mbind. rewrite H1, H2. reflexivity.
  - intros target opts q'. destruct (ro_DryRun opts) eqn:E1.
    + unfold dumpRecords. cbn [mysqlNativeRestore]. unfold restoreRecord, mbind. cbn. now rewrite E1.
    + destruct (ro_ReplaceExisting opts) eqn:E2.
      * rewrite my_native_restore_dump by done. apply run_good. rewrite <- split_payload by done. apply split_good.
      * unfold dumpRecords. cbn [mysqlNativeRestore]. unfold restoreRecord at 1, mbind. cbn. now rewrite E1, E2.
Qed.

(** ** The driver *)

Section Driver.
  Context {Q : Type} `{!mysqlQueryer Q} `{!commandRunner Q} (target : DTarget).

Definition MyVersion : M Q string :=
  out <-- RunCommand "mysql" ["--version"] None [] ;; mret (TrimSpace (string_of_list_byte out)).

Definition MyTest : M Q unit :=
  if useNativeProtocol target then _ <-- SimpleQuery target "SELECT 1" ;; mret tt
  else _ <-- RunCommand "mysql" (mysqlArgs target ++ ["--execute"; "SELECT 1"]) None (mysqlEnv target) ;; mret tt.

Definition MyBackupFull : M (Q * list DRecord) ResumePoint :=
  if useNativeProtocol target then
    result <-- onDatabase (mysqlNativeBackupFull target) ;; _ <-- writeRecords result.1 ;; mret result.2
  else
    payload <-- onDatabase (RunCommand "mysqldump" (mysqlDumpArgs target ++ [databaseName target]) None (mysqlEnv target)) ;;
    _ <-- writeObject (mkObjectRef "" (databaseName target) databaseObjectKind) payload ;;
    mret (mkResumePoint "mysql" "mysqldump:single-transaction" 0 ∅).

(** Nothing is written but the position. *)
Definition MyBackupIncremental (parent : Manifest) : M (Q * list DRecord) ResumePoint :=
  if negb (useNativeProtocol target) then merr ErrIncrementalUnsupported
  else
    status <-- onDatabase (GetMasterStatus target) ;;
    mret (mkResumePoint "mysql" ("mysql:binlog:" ++ status.1 ++ ":" ++ status.2) 0
            {["binlog_file" := status.1; "binlog_pos" := status.2]}).

Definition streamRecord (event : mysqlBinlogEvent) : StreamRecord :=
  mkStreamRecord (mkResumePoint "mysql" (be_LogName event ++ ":" ++ Itoa (be_Pos event)) 0
                    {["binlog_file" := be_LogName event; "binlog_pos" := Itoa (be_Pos event)]}) (be_Data event).

Definition MyStream (rp : ResumePoint) : M (Q * list StreamRecord) unit :=
  if negb (useNativeProtocol target) then merr "context canceled"
  else
    events <-- onDatabase (GetBinlogEvents target (mget (rp_Metadata rp) "binlog_file")) ;;
    writeRecords (map streamRecord events).

Fixpoint external_restore (records : list DRecord) (last : string) (opts : RestoreOptions) : M Q unit :=
  match records with
  | [] => if String.eqb last EOF then mret tt else merr last
  | record :: rest =>
      _ <-- (if rc_Done record || negb (String.eqb (ob_Kind (rc_Object record)) databaseObjectKind) then mret tt
             else if ro_DryRun opts then mret tt
             else if negb (ro_ReplaceExisting opts) then merr replaceRequired
             else _ <-- RunCommand "mysql" (mysqlArgs target) (Some (rc_Payload record)) (mysqlEnv target) ;; mret tt) ;;
      external_restore rest last opts
  end.

Definition MyRestore (records : list DRecord) (last : string) (opts : RestoreOptions) : M Q unit :=
  if useNativeProtocol target then mysqlNativeRestore target records last opts else external_restore records last opts.

(** Positions are compared as strings, and a record without one comes first. *)
Definition pastTarget (point : ResumePoint) (targetPoint : ReplayTarget) : bool :=
  (negb (String.eqb (rt_Position targetPoint) "") && String.leb (rt_Position targetPoint) (rp_Position point)) ||
  (negb (TimeIsZero (rt_Time targetPoint)) && negb (TimeIsZero (rp_Time point)) && (rt_Time targetPoint <? rp_Time point)).

Fixpoint replay_records (records : list StreamRecord) (last : string) (targetPoint : ReplayTarget) : M Q unit :=
  match records with
  | [] => if String.eqb last EOF then mret tt else merr last
  | record :: rest =>
      if pastTarget (sr_ResumePoint record) targetPoint then mret tt
      else
        _ <-- (match sr_Payload record with
               | [] => mret tt
               | payload => _ <-- SimpleQuery target (string_of_list_byte payload) ;; mret tt
               end) ;;
        replay_records rest last targetPoint
  end.

Definition MyReplayStream (records : list StreamRecord) (last : string) (targetPoint : ReplayTarget) : M Q unit :=
  if negb (useNativeProtocol target) then merr ErrIncrementalUnsupported else replay_records records last targetPoint.

Lemma mysql_incremental_is_empty parent s : (MyBackupIncremental parent s).2.2 = s.2.
Proof.
  unfold MyBackupIncremental. destruct (negb (useNativeProtocol target)); [done|]. unfold mbind, onDatabase.
  now destruct (GetMasterStatus target s.1) as [[st|e|e|] q].
Qed.
End Driver.

(** ** The runner of the agent *)

Section Runner.
  Context {S : Type} (dial : string -> S -> option bytes * S) (serve : bytes -> S -> bytes * S) (sha1 : bytes -> bytes).
  Context (parseURL : string -> option PgURL).

#[local] Instance mysqlRunner : mysqlQueryer S :=
  {| SimpleQuery := mysqlSimpleQuery dial serve sha1 parseURL;
     GetMasterStatus := mysqlGetMasterStatus dial serve sha1 parseURL;
     GetBinlogEvents := mysqlGetBinlogEvents dial serve sha1 parseURL |}.

(** A server that greets whoever connects to it. *)
Definition greets (address : string) : Prop :=
  forall s, exists greeting s', dial address s = (Some greeting, s') /\ 4 <= zlen greeting.

(** With the native protocol, the default, the agent crashes on every use
    of a MySQL target whose server answers: reading the length of a packet
    indexes past its three bytes, so testing the target, a full or an
    incremental backup, streaming, and a restore that has a statement to run
    all panic when the greeting of the server arrives, before anything is sent
    to it and before anything is written. *)
Theorem mysql_native_panics `{!commandRunner S} target cfg parent rp record records last opts s w w' :
  useNativeProtocol target = true -> mysqlConfigFromTarget parseURL target = Ok cfg -> greets (my_Address cfg) ->
  rc_Done record = false -> ob_Kind (rc_Object record) = databaseObjectKind ->
  ro_DryRun opts = false -> ro_ReplaceExisting opts = true ->
  splitMySQLStatements (string_of_list_byte (rc_Payload record)) <> [] ->
  (MyTest target s).1 = Panic outOfRange /\
  (MyBackupFull target (s, w)).1 = Panic outOfRange /\ (MyBackupFull target (s, w)).2.2 = w /\
  (MyBackupIncremental target parent (s, w)).1 = Panic outOfRange /\
  (MyStream target rp (s, w')).1 = Panic outOfRange /\
  (MyRestore target (record :: records) last opts s).1 = Panic outOfRange.
Proof.
  intros Hn Hcfg Hg H1 H2 H3 H4 H5. destruct (Hg s) as (greeting & s' & Hd & Hlen).
  assert (P : forall A (m : M MyConn A), mysqlSession dial serve sha1 cfg m s = (Panic outOfRange, s')) by (intros; exact (session_panics dial serve sha1 cfg m s greeting s' Hd Hlen)).
  assert (PQ : forall query, mysqlSimpleQuery dial serve sha1 parseURL target query s = (Panic outOfRange, s'))
    by (intros; unfold mysqlSimpleQuery, mbind, mlift; now rewrite Hcfg).
  assert (PR : forall statements, Forall goodStatement statements -> statements <> [] ->
            (run_statements target statements s).1 = Panic outOfRange).
  { intros [|st sts] Hst Hne; [done|]. inversion Hst as [|? ? [Ht Hs]]; subst. cbn [run_statements]. rewrite Ht.
    apply String.eqb_neq in Hs. rewrite Hs. unfold mbind. cbn [SimpleQuery mysqlRunner]. now rewrite PQ. }
  assert (PB : (mysqlNativeBackupFull target s) = (Panic outOfRange, s'))
    by (unfold mysqlNativeBackupFull, mysqlListTables, mbind; cbn [SimpleQuery mysqlRunner]; now rewrite PQ).
  repeat split.
  - unfold MyTest. rewrite Hn. unfold mbind. cbn [SimpleQuery mysqlRunner]. now rewrite PQ.
  - unfold MyBackupFull. rewrite Hn. unfold mbind, onDatabase. cbn [fst]. now rewrite PB.
  - unfold MyBackupFull. rewrite Hn. unfold mbind, onDatabase. cbn [fst]. now rewrite PB.
  - unfold MyBackupIncremental. rewrite Hn. unfold mbind, onDatabase. cbn [negb fst GetMasterStatus mysqlRunner].
    unfold mysqlGetMasterStatus. unfold mbind at 1, mlift at 1. rewrite Hcfg. now rewrite P.
  - unfold MyStream. rewrite Hn. unfold mbind, onDatabase. cbn [negb fst GetBinlogEvents mysqlRunner].
    unfold mysqlGetBinlogEvents. unfold mbind at 1, mlift at 1. rewrite Hcfg. now rewrite P.
  - unfold MyRestore. rewrite Hn. cbn [mysqlNativeRestore]. unfold restoreRecord. rewrite H1, H2, H3, H4, String.eqb_refl. cbn [negb orb].
    unfold mbind. pose proof (PR _ (split_good _) H5) as E. destruct (run_statements _ _ s) as [r s1]. cbn in E. now subst r.
Qed.
End Runner.

(** ** Runs of the MySQL driver

    Concrete databases and servers for the theorems about the driver: a
    database of one table, and a server whose greeting is that of MySQL. *)

Definition answer (rows : list mysqlRow) : mysqlQueryResult := mkMyResult [] rows "".

Definition plainMy : DTarget := mkDTarget "my" "mysql" ∅ ∅.
Definition replacing : RestoreOptions := mkRestoreOptions true false ∅.

Definition createNotes : string := "CREATE TABLE `notes` (`id` int NOT NULL, `body` text DEFAULT 'a;--b')".

(** A database of one table, which logs what it is asked. *)
Definition oneTable (query : string) : mysqlQueryResult :=
  if HasPrefix query "SELECT TABLE_SCHEMA" then answer [[Some "mysql"; Some "notes"]]%string
  else if HasPrefix query "SHOW CREATE" then answer [[Some "notes"; Some createNotes]]%string
  else if HasPrefix query "SELECT COLUMN_NAME" then
    answer [[Some "id"; Some "int"; Some "NO"; Some "PRI"; None; Some ""];
            [Some "body"; Some "text"; Some "YES"; Some ""; Some "a;--b"; Some ""]]%string
  else if HasPrefix query "SELECT COUNT" then answer [[Some "2"]]%string
  else if HasPrefix query "SELECT `id`" then answer [[Some "1"; Some "it's; /*"]; [Some "2"; None]]%string
  else answer [].

Definition logged : mysqlQueryer (list string) := {|
  SimpleQuery := fun _ query log => (Ok (oneTable query), log ++ [query]);
  GetMasterStatus := fun _ log => (Ok ("binlog.000001", "157"), log)%string;
  GetBinlogEvents := fun _ _ log => (Ok [], log)
|}.

Definition notesTables : list mysqlTable := [mkMyTable "mysql" "notes"].
Definition notesDumps : list MyTableDump :=
  match (readTableDumps (mysqlQueryer0 := logged) plainMy notesTables []).1 with Ok dumps => dumps | _ => [] end.

Lemma notes_good : Forall goodDump notesDumps.
Proof.
  apply Forall_cons. split; [|apply Forall_nil; exact I]. repeat split; try (vm_compute; reflexivity); try (vm_compute; discriminate);
    vm_compute in H; destruct H as [<- | [<- | []]]; reflexivity.
Qed.

Lemma mysql_restore_runs_dump_witness :
  exists rp, (mysqlNativeBackupFull (mysqlQueryer0 := logged) plainMy []).1 = Ok (dumpRecords plainMy notesDumps, rp) /\
  (mysqlNativeRestore (mysqlQueryer0 := logged) plainMy (dumpRecords plainMy notesDumps) EOF replacing []).2 =
    ["SET NAMES utf8mb4"; createNotes; "INSERT INTO `mysql`.`notes` (`id`, `body`) VALUES ('1', 'it''s; /*')";
     "INSERT INTO `mysql`.`notes` (`id`, `body`) VALUES ('2', NULL)"]%string.
Proof.
  destruct (mysql_restore_runs_dump (mysqlQueryer0 := logged) (mysqlQueryer1 := logged) plainMy notesTables notesDumps []
    (mysqlListTables (mysqlQueryer0 := logged) plainMy []).2
    (readTableDumps (mysqlQueryer0 := logged) plainMy notesTables (mysqlListTables (mysqlQueryer0 := logged) plainMy []).2).2)
    as (rp & H1 & H2).
  - vm_compute. reflexivity.
  - vm_compute. reflexivity.
  - exact notes_good.
  - exists rp. split; [rewrite H1; reflexivity|]. rewrite H2. vm_compute. reflexivity.
Defined.

(** ** A server that greets *)

(** The first packet of MySQL 8: its length, its number, the version of the
    protocol and the version of the server. *)
Definition greeting : bytes := [z2b 74; z2b 0; z2b 0; z2b 0; z2b 10] ++ textBytes "8.0.36" ++ [z2b 0] ++ replicate 66 (z2b 1).

Definition greeter (address : string) (s : unit) : option bytes * unit :=
  (if String.eqb address "127.0.0.1:3306" then Some greeting else None, s).

Definition silent (packet : bytes) (s : unit) : bytes * unit := ([], s).
Definition sameBytes (l : bytes) : bytes := l.
Definition noURL (dsn : string) : option PgURL := None.

#[local] Instance noTools : commandRunner unit := {| RunCommand := fun _ _ _ _ s => (Err "executable file not found"%string, s) |}.

Definition notesRecord : DRecord := mkDRecord (mkObjectRef "" "mysql" databaseObjectKind) (list_byte_of_string "SELECT 1;") 0 false.

Lemma mysql_native_panics_witness :
  (MyTest (mysqlQueryer0 := mysqlRunner greeter silent sameBytes noURL) plainMy tt).1 = Panic outOfRange.
Proof.
  refine (proj1 (mysql_native_panics greeter silent sameBytes noURL plainMy (mkMyConfig "127.0.0.1:3306" "127.0.0.1" "3306" "mysql" "root" "" "utf8mb4" "")
    (mkManifest 1 "full" "my" (mkMDriver "mysql" "8" "dev") "full" None 1 2 "none" (mkMEncryption "aes-256-gcm" "k" "none") (mkMStats 0 0 0 (0, 1)) [] ∅ None)
    (mkResumePoint "mysql" "" 0 ∅) notesRecord [] EOF replacing tt [] [] _ _ _ _ _ _ _ _)).
  - vm_compute. reflexivity.
  - vm_compute. reflexivity.
  - intros []. exists greeting, tt. split; [reflexivity|]. vm_compute. discriminate.
  - reflexivity.
  - reflexivity.
  - reflexivity.
  - reflexivity.
  - vm_compute. discriminate.
Defined.
