(* ===== verification/Bson.v ===== *)
(** * BSON documents

    Models the documents of src/internal/drivers/mongodb/wire.go: their values
    and how they are written and parsed. The order in which a map is iterated
    is a parameter.

    The theorems show that parsing ends on all bytes, on which bytes it
    panics, and that a document is not read back as it was written. *)

From Stdlib Require Import Ascii String.
From S2P Require Import Prelude ChunkHash Core GoStrings GoText.
Local Open Scope Z_scope.

(** What an interface{} holds: [ADocument] is a bsonDocument, [AFields] the
    map of a parsed document, [ATyped] a bsonValue, [AOther] any type that is
    not written. Maps are lists of entries with distinct keys. *)
Inductive any : Type :=
  | ANil
  | AFloat (bits : Z)
  | AString (s : string)
  | ADocument (entries : list (string * any))
  | AMap (entries : list (string * any))
  | AFields (entries : list (string * (Z * any)))
  | AList (items : list any)
  | ATyped (type : Z) (data : any)
  | AInt32 (z : Z)
  | AInt64 (z : Z)
  | AInt (z : Z)
  | ABool (b : bool)
  | ATime (seconds : Z)
  | ABytes (l : bytes)
  | AOther.

Definition bsonValue : Type := Z * any.
Definition bsonFields : Type := list (string * bsonValue).
Definition bsonDocument : Type := list (string * any).

(** m[key] of a map. *)
Definition field {A} (entries : list (string * A)) (key : string) : option A :=
  match find (fun e => String.eqb e.1 key) entries with Some e => Some e.2 | None => None end.

(** m[key] = value: a key keeps its place. *)
Fixpoint setField {A} (entries : list (string * A)) (key : string) (value : A) : list (string * A) :=
  match entries with
  | [] => [(key, value)]
  | e :: rest => if String.eqb e.1 key then (key, value) :: rest else e :: setField rest key value
  end.

(** ** Writing *)

Definition cstringBytes (s : string) : bytes := list_byte_of_string s ++ [Byte.x00].
Definition le32 (z : Z) : bytes := le_encode 4 z.

Section Write.
  (** The order of iteration over the entries of a map, each with the bytes of
      its value. *)
  Context (iterate : list (string * bytes) -> list (string * bytes)).

(** The entries as a document; the name of an entry comes before the type of
    its value. *)
Definition writeEntries (entries : list (string * bytes)) : bytes :=
  let body := concat (map (fun e => cstringBytes e.1 ++ e.2) (iterate entries)) ++ [Byte.x00] in
  le32 (4 + zlen body) ++ body.

Fixpoint writeBSONValue (val : any) : bytes :=
  match val with
  | ANil => [Byte.x00]
  | AFloat bits => Byte.x01 :: le_encode 8 bits
  | AString s => Byte.x02 :: le32 (zlen (list_byte_of_string s) + 1) ++ cstringBytes s
  | ADocument entries | AMap entries => Byte.x03 :: writeEntries (map (fun e => (e.1, writeBSONValue e.2)) entries)
  | AList items => Byte.x04 :: writeEntries (imap (fun i b => (Itoa (Z.of_nat i), b)) (map writeBSONValue items))
  | ATyped type data => z2b type :: writeBSONValue data
  | AInt32 z | AInt z => z2b 16 :: le32 z
  | AInt64 _ => [z2b 18]
  | ABool b => [Byte.x08; if b then Byte.x01 else Byte.x00]
  | ATime seconds => Byte.x09 :: le_encode 8 (i64 (seconds * 1000))
  | ABytes l => Byte.x05 :: le32 (zlen l) ++ l
  | AFields _ | AOther => [Byte.x0a]
  end.

Definition writeBSONDocument (doc : bsonDocument) : bytes :=
  writeEntries (map (fun e => (e.1, writeBSONValue e.2)) doc).

Definition writeBSON (val : any) : bytes :=
  match val with ADocument doc | AMap doc => writeBSONDocument doc | val => writeBSONValue val end.
End Write.

(** ** Parsing *)

(** The characters up to a zero byte from [pos], and the position after it. *)
Fixpoint cstring_at (l out : bytes) (pos : Z) : string * Z :=
  match l with
  | [] => (string_of_list_byte out, pos)
  | b :: r => if Byte.eqb b Byte.x00 then (string_of_list_byte out, pos + 1) else cstring_at r (out ++ [b]) (pos + 1)
  end.

Definition readCString (data : bytes) (pos : Z) : string * Z := cstring_at (drop (Z.to_nat pos) data) [] pos.

(** The [n] bytes at [pos] as an integer. *)
Definition intAt (data : bytes) (pos n : Z) : Z := le_decode (zslice pos n data).

Definition signedAt (data : bytes) (pos n : Z) : Z :=
  let z := intAt data pos n in (z + 2 ^ (8 * n - 1)) mod 2 ^ (8 * n) - 2 ^ (8 * n - 1).

(** A value of [n] bytes, which is missing when they are not there. *)
Definition fixedValue (data : bytes) (pos n : Z) (value : any) : outcome (any * Z) :=
  if zlen data <? pos + n then Ok (ANil, 0) else Ok (value, n).

Section Parse.
  (** The parser of the documents inside of a document. *)
  Context (parseDocument : bytes -> outcome (option bsonFields * Z)).

Definition parseBSONValue (data : bytes) (pos tp : Z) : outcome (any * Z) :=
  if tp =? 1 then fixedValue data pos 8 (AFloat (intAt data pos 8))
  else if tp =? 2 then
    if zlen data <? pos + 4 then Ok (ANil, 0)
    else
      let strLen := intAt data pos 4 in
      if zlen data <? pos + 4 + strLen then Ok (ANil, 0)
      else if strLen =? 0 then Panic "slice bounds out of range"
      else Ok (AString (string_of_list_byte (zslice (pos + 4) (strLen - 1) data)), strLen + 4)
  else if (tp =? 3) || (tp =? 4) then
    if zlen data <? pos + 4 then Ok (ANil, 0)
    else
      parsed <~ parseDocument (drop (Z.to_nat pos) data) ;;
      if parsed.2 =? 0 then Ok (ANil, 0) else Ok (AFields (default [] parsed.1), parsed.2)
  else if tp =? 5 then
    if zlen data <? pos + 4 then Ok (ANil, 0)
    else
      let subLen := intAt data pos 4 in
      if zlen data <? pos + 4 + subLen + 1 then Ok (ANil, 0)
      else Ok (ABytes (zslice (pos + 4) subLen data), subLen + 5)
  else if tp =? 7 then fixedValue data pos 12 (ABytes (zslice pos 12 data))
  else if tp =? 8 then fixedValue data pos 1 (ABool (negb (intAt data pos 1 =? 0)))
  else if tp =? 10 then Ok (ANil, 1)
  else if tp =? 16 then fixedValue data pos 4 (AInt32 (signedAt data pos 4))
  else if (tp =? 9) || (tp =? 17) || (tp =? 18) then fixedValue data pos 8 (AInt64 (signedAt data pos 8))
  else Ok (ANil, 0).

(** The loop over the entries; each takes at least one byte. *)
Fixpoint fields_loop (fuel : nat) (data : bytes) (docLen pos : Z) (doc : bsonFields) : outcome bsonFields :=
  match fuel with
  | O => Fuel
  | S fuel =>
      if pos <? docLen - 1 then
        let tp := intAt data pos 1 in
        if tp =? 0 then Ok doc
        else
          let '(key, pos) := readCString data (pos + 1) in
          parsed <~ parseBSONValue data pos tp ;;
          if parsed.2 =? 0 then Ok doc
          else fields_loop fuel data docLen (pos + parsed.2) (setField doc key (tp, parsed.1))
      else Ok doc
  end.
End Parse.

(** [depth] bounds the documents inside of each other. *)
Fixpoint parse_depth (depth : nat) (data : bytes) : outcome (option bsonFields * Z) :=
  match depth with
  | O => Fuel
  | S depth =>
      if zlen data <? 4 then Ok (None, 0)
      else
        let docLen := intAt data 0 4 in
        if (zlen data <? docLen) || (docLen <? 5) then Ok (None, 0)
        else
          doc <~ fields_loop (parse_depth depth) (length data + 1) data docLen 4 [] ;;
          Ok (Some doc, docLen)
  end.

Definition parseBSONDocument (data : bytes) : outcome (option bsonFields * Z) := parse_depth (length data + 1) data.

(** ** Documents are not read back *)

Definition pingDocument : bsonDocument := [("ping", AInt 1)]%string.

(** The type of an entry is looked for before its name, where the writer puts
    the name: nothing is read back. *)
Example ping_not_read_back :
  parseBSONDocument (writeBSONDocument id pingDocument) = Ok (Some [], 15) /\
  writeBSONDocument id pingDocument =
    map (fun n => z2b n) [15; 0; 0; 0; 112; 105; 110; 103; 0; 16; 1; 0; 0; 0; 0].
Proof. vm_compute. split; reflexivity. Qed.

(** A string of length 0, where a server sends at least 1, makes the parser
    panic, and what follows a null is skipped by a byte. *)
Example parse_examples :
  parseBSONDocument (map z2b [12; 0; 0; 0; 2; 97; 0; 0; 0; 0; 0; 0]) = Panic "slice bounds out of range" /\
  parseBSONDocument (map z2b [17; 0; 0; 0; 10; 97; 0; 16; 98; 0; 1; 0; 0; 0; 0; 0; 0]) = Ok (Some [("a", (10, ANil))]%string, 17).
Proof. vm_compute. split; reflexivity. Qed.

(** ** Parsing ends *)

Lemma cstring_at_le l out pos : pos <= (cstring_at l out pos).2.
Proof.
  revert out pos. induction l as [|b l IH]; intros out pos; cbn [cstring_at]; [simpl; lia|].
  destruct (Byte.eqb b Byte.x00); [simpl; lia|]. specialize (IH (out ++ [b]) (pos + 1)). lia.
Qed.

(** A parser that ends and consumes no fewer than no bytes. *)
Definition ends {A} (o : outcome (A * Z)) : Prop :=
  match o with Ok r => 0 <= r.2 | Fuel => False | _ => True end.

Lemma fixedValue_ends data pos n value : 0 <= n -> ends (fixedValue data pos n value).
Proof. intros Hn. unfold fixedValue. destruct (zlen data <? pos + n); simpl; lia. Qed.

Lemma intAt_nonneg data pos n : 0 <= intAt data pos n.
Proof. unfold intAt. pose proof (le_decode_bound (zslice pos n data)). lia. Qed.

Section Ends.
  Context (parseDocument : bytes -> outcome (option bsonFields * Z)) (data : bytes).
  Hypothesis inner_ends : forall pos, 4 <= pos -> ends (parseDocument (drop (Z.to_nat pos) data)).

Lemma parseBSONValue_ends pos tp : 4 <= pos -> ends (parseBSONValue parseDocument data pos tp).
Proof.
  intros Hp. unfold parseBSONValue. pose proof (intAt_nonneg data pos 4).
  repeat first
    [ apply fixedValue_ends; lia
    | match goal with
      | |- ends (Ok (_, ?z)) => simpl; lia
      | |- ends (Panic _) => exact I
      | |- ends (obind (parseDocument ?d) _) =>
          let E := fresh in pose proof (inner_ends pos Hp) as E; destruct (parseDocument d) as [[? ?]|?|?|]; simpl in *; try done
      | |- ends (if ?b then _ else _) => destruct b
      end ].
Qed.

Lemma fields_loop_ends docLen fuel pos doc : 4 <= pos -> Z.max 0 (docLen - pos) < Z.of_nat fuel ->
  fields_loop parseDocument fuel data docLen pos doc <> Fuel.
Proof.
  revert pos doc. induction fuel as [|fuel IH]; intros pos doc Hp Hf; [lia|]. cbn [fields_loop].
  destruct (Z.ltb_spec pos (docLen - 1)); [|done]. destruct (intAt data pos 1 =? 0); [done|].
  destruct (readCString data (pos + 1)) as [key pos'] eqn:Ek.
  assert (pos + 1 <= pos') by (pose proof (cstring_at_le (drop (Z.to_nat (pos + 1)) data) [] (pos + 1)) as H1; unfold readCString in Ek; now rewrite Ek in H1).
  pose proof (parseBSONValue_ends pos' (intAt data pos 1) ltac:(lia)) as He.
  destruct (parseBSONValue parseDocument data pos' (intAt data pos 1)) as [[val consumed]|e|e|]; cbn in *; try done.
  destruct (Z.eqb_spec consumed 0); [done|]. apply IH; lia.
Qed.
End Ends.

Lemma parse_depth_ends depth data : (length data < depth)%nat -> ends (parse_depth depth data).
Proof.
  revert data. induction depth as [|depth IH]; intros data Hd; [lia|]. cbn [parse_depth].
  destruct (Z.ltb_spec (zlen data) 4); [simpl; lia|]. destruct (Z.ltb_spec (zlen data) (intAt data 0 4)); [simpl; lia|].
  destruct (Z.ltb_spec (intAt data 0 4) 5); [simpl; lia|]. cbn [orb].
  assert (Hi : forall pos, 4 <= pos -> ends (parse_depth depth (drop (Z.to_nat pos) data))).
  { intros pos Hp. apply IH. rewrite length_drop. unfold zlen in *. lia. }
  pose proof (fields_loop_ends (parse_depth depth) data Hi (intAt data 0 4) (length data + 1) 4 [] ltac:(lia)) as Hl.
  destruct (fields_loop _ _ _ _ _ _) as [doc|e|e|]; cbn; try done; [lia|]. apply Hl; [|done]. unfold zlen in *. lia.
Qed.

(** Parsing ends on all bytes, also on those of a hostile server. *)
Lemma parse_ends data : ends (parseBSONDocument data).
Proof. apply parse_depth_ends. lia. Qed.
