(* ===== verification/MongoWire.v ===== *)
(** * The MongoDB protocol

    Models the messages and sessions of src/internal/drivers/mongodb/wire.go
    and what native.go asks over them. A session keeps what the server sent
    that is not read yet, the state of the server and the messages sent. The
    server, dialling, the order of maps and url.Parse are parameters.

    The theorems show that a reply is read to its end, that every command is a
    ping, and that no message is one MongoDB reads. *)

From Stdlib Require Import Ascii String.
From S2P Require Import Prelude ChunkHash Core Calendar GoStrings GoText Manifest Engine PgWire PgConn Bson.
Local Open Scope Z_scope.

Definition mongoOpMsg : Z := 2013.
Definition mongoOpQuery : Z := 2004.
Definition mongoOpReply : Z := 1.
Definition mongoOpKillCursors : Z := 2007.

Record mongoQueryResult := mkMgResult { mg_Rows : list bsonFields }.

(** ** Messages *)

Record mongoMessageHeader := mkMgHeader { mh_MessageLength : Z; mh_RequestID : Z; mh_ResponseTo : Z; mh_OpCode : Z }.

Record opQuery := mkOpQuery
  { oq_FullCollectionName : string; oq_QueryFlags : Z; oq_NumberToSkip : Z; oq_NumberToReturn : Z; oq_Query : bsonDocument }.

Record opReply := mkOpReply
  { or_ResponseFlags : Z; or_CursorID : Z; or_StartingFrom : Z; or_NumberReturned : Z; or_Documents : list bsonFields }.

Record opMsg := mkOpMsg { om_FlagBits : Z; om_Sections : list (Z * bsonFields) }.

Definition uint32At (data : bytes) (pos : Z) : Z := intAt data pos 4.

(** The first four bytes are overwritten by the length of what was written. *)
Definition putLength (message : bytes) : bytes := le32 (zlen message) ++ drop 4 message.

Definition headerBytes (header : mongoMessageHeader) : bytes :=
  le32 (mh_RequestID header) ++ le32 (mh_ResponseTo header) ++ le32 (mh_OpCode header).

Definition writeOpQuery (iterate : list (string * bytes) -> list (string * bytes)) (header : mongoMessageHeader) (q : opQuery) : bytes :=
  putLength (headerBytes header ++ cstringBytes (oq_FullCollectionName q) ++ le32 (oq_QueryFlags q) ++ le32 (oq_NumberToSkip q) ++
             le32 (oq_NumberToReturn q) ++ writeBSON iterate (ADocument (oq_Query q))).

Definition writeOpKillCursors (header : mongoMessageHeader) (cursorIDs : list Z) : bytes :=
  putLength (headerBytes header ++ le32 0 ++ le32 (zlen cursorIDs) ++ concat (map (le_encode 8) cursorIDs)).

(** The documents of a reply. *)
Fixpoint documents_loop (fuel : nat) (data : bytes) (left pos : Z) (documents : list bsonFields) : outcome (list bsonFields) :=
  match fuel with
  | O => Fuel
  | S fuel =>
      if (0 <? left) && (pos <? zlen data) then
        parsed <~ parseBSONDocument (drop (Z.to_nat pos) data) ;;
        if parsed.2 =? 0 then Ok documents
        else documents_loop fuel data (left - 1) (pos + parsed.2) (documents ++ [default [] parsed.1])
      else Ok documents
  end.

Definition parseOpReply (data : bytes) : outcome opReply :=
  if zlen data <? 20 then Ok (mkOpReply 0 0 0 0 [])
  else
    let returned := signedAt data 16 4 in
    documents <~ documents_loop (length data + 1) data returned 20 [] ;;
    Ok (mkOpReply (signedAt data 0 4) (signedAt data 4 8) (signedAt data 12 4) returned documents).

Fixpoint sections_loop (fuel : nat) (data : bytes) (pos : Z) (sections : list (Z * bsonFields)) : outcome (list (Z * bsonFields)) :=
  match fuel with
  | O => Fuel
  | S fuel =>
      if pos <? zlen data then
        parsed <~ parseBSONDocument (drop (Z.to_nat (pos + 1)) data) ;;
        if parsed.2 =? 0 then Ok sections
        else sections_loop fuel data (pos + 1 + parsed.2) (sections ++ [(intAt data pos 1, default [] parsed.1)])
      else Ok sections
  end.

Definition parseOpMsg (data : bytes) : outcome (option opMsg) :=
  if zlen data <? 4 then Ok None
  else
    sections <~ sections_loop (length data + 1) data 4 [] ;;
    Ok (Some (mkOpMsg (signedAt data 0 4) sections)).

Inductive mongoReply : Type := ReplyOpReply (reply : opReply) | ReplyOpMsg (msg : option opMsg).

(** conn.Read until [n] bytes are there. *)
Definition mgReadFull (n : Z) : M bytes bytes := fun l =>
  if zlen l <? n then (Err EOF, []) else (Ok (take (Z.to_nat n) l), drop (Z.to_nat n) l).

Definition readReply : M bytes mongoReply :=
  h <-- mgReadFull 16 ;;
  let header := mkMgHeader (signedAt h 0 4) (uint32At h 4) (uint32At h 8) (signedAt h 12 4) in
  if (mh_MessageLength header <? 16) || (16 * 1024 * 1024 <? mh_MessageLength header) then merr "invalid message length"
  else
    data <-- mgReadFull (mh_MessageLength header - 16) ;;
    if mh_OpCode header =? mongoOpReply then reply <-- mlift (parseOpReply data) ;; mret (ReplyOpReply reply)
    else if mh_OpCode header =? mongoOpMsg then msg <-- mlift (parseOpMsg data) ;; mret (ReplyOpMsg msg)
    else merr "unexpected op code".

(** reply.OpReply.Documents; the field is nil after an OP_MSG. *)
Definition nilPointer : string := "invalid memory address or nil pointer dereference".

Definition replyOf (reply : mongoReply) : outcome opReply :=
  match reply with ReplyOpReply r => Ok r | ReplyOpMsg _ => Panic nilPointer end.

(** ** Sessions *)

Section Session.
  Context {S : Type} (serve : bytes -> S -> bytes * S) (iterate : list (string * bytes) -> list (string * bytes)).

Record mongoWireSession := mkMgSession
  { sn_unread : bytes; sn_server : S; sn_sent : list bytes; sn_requestID : Z; sn_database : string; sn_clientNonce : string;
    sn_saslPayload : bytes; sn_conversationID : Z; sn_done : bool }.

Definition mgSend (message : bytes) : M mongoWireSession unit := fun s =>
  let '(answer, server) := serve message (sn_server s) in
  (Ok tt, mkMgSession (sn_unread s ++ answer) server (sn_sent s ++ [message]) (sn_requestID s) (sn_database s) (sn_clientNonce s)
            (sn_saslPayload s) (sn_conversationID s) (sn_done s)).

Definition mgReading {A} (m : M bytes A) : M mongoWireSession A := fun s =>
  let '(r, rest) := m (sn_unread s) in
  (r, mkMgSession rest (sn_server s) (sn_sent s) (sn_requestID s) (sn_database s) (sn_clientNonce s) (sn_saslPayload s)
        (sn_conversationID s) (sn_done s)).

Definition nextRequestID : M mongoWireSession Z := fun s =>
  let id := (sn_requestID s + 1) mod 2 ^ 32 in
  (Ok id, mkMgSession (sn_unread s) (sn_server s) (sn_sent s) id (sn_database s) (sn_clientNonce s) (sn_saslPayload s)
            (sn_conversationID s) (sn_done s)).

Definition getDatabase : M mongoWireSession string := fun s => (Ok (sn_database s), s).

(** A request with OP_QUERY, as its bytes. *)
Definition queryMessage (numberToReturn : Z) (doc : bsonDocument) : M mongoWireSession bytes :=
  id <-- nextRequestID ;;
  database <-- getDatabase ;;
  mret (writeOpQuery iterate (mkMgHeader 0 id 0 mongoOpQuery) (mkOpQuery (database ++ ".$cmd") 0 0 numberToReturn doc)).

Definition exchange (message : bytes) : M mongoWireSession opReply :=
  _ <-- mgSend message ;;
  reply <-- mgReading readReply ;;
  mlift (replyOf reply).

(** The command is not looked at: whatever is asked, a ping is sent. *)
Definition query (command : string) : M mongoWireSession mongoQueryResult :=
  message <-- queryMessage 1 pingDocument ;;
  reply <-- exchange message ;;
  match or_Documents reply with
  | [] => merr "query returned no documents"
  | doc :: _ =>
      match field doc "$err" with
      | Some _ => merr "query error"
      | None => mret (mkMgResult [doc])
      end
  end.

Definition ping : M mongoWireSession unit := _ <-- query "ping" ;; mret tt.

Definition killCursors (cursorIDs : list Z) : M mongoWireSession unit :=
  id <-- nextRequestID ;;
  mgSend (writeOpKillCursors (mkMgHeader 0 id 0 mongoOpKillCursors) cursorIDs).

(** The same message is sent until a reply has no cursor or few documents;
    nothing bounds the replies. *)
Fixpoint queryMany_loop (fuel : nat) (message : bytes) (batchSize : Z) (rows : list bsonFields) : M mongoWireSession (list bsonFields) :=
  match fuel with
  | O => mfuel
  | Datatypes.S fuel =>
      reply <-- exchange message ;;
      let rows := rows ++ or_Documents reply in
      if or_CursorID reply =? 0 then mret rows
      else if zlen (or_Documents reply) <? batchSize then _ <-- killCursors [or_CursorID reply] ;; mret rows
      else queryMany_loop fuel message batchSize rows
  end.

Definition queryMany (fuel : nat) (command : string) (batchSize : Z) : M mongoWireSession mongoQueryResult :=
  message <-- queryMessage (signed 32 (- batchSize)) pingDocument ;;
  rows <-- queryMany_loop fuel message batchSize [] ;;
  mret (mkMgResult rows).

(** *** Authentication *)

Definition extractBinary (val : bsonValue) : bytes :=
  match val.2 with ABytes l => l | AString s => list_byte_of_string s | _ => [] end.

(** What a reply to a step of SASL sets; [continuing] also reads done. *)
Definition saslStep (continuing : bool) (name : string) (doc : bsonFields) : M mongoWireSession unit := fun s =>
  match field doc "ok" with
  | Some (_, AFloat 0) | Some (_, AFloat 9223372036854775808) => (Err (name ++ " failed"), s)%string
  | _ =>
      let id := match field doc "conversationId" with Some (_, AInt32 id) => id | _ => sn_conversationID s end in
      let finished := if continuing then match field doc "done" with Some (_, ABool b) => b | _ => sn_done s end else sn_done s in
      let payload := match field doc "payload" with Some val => extractBinary val | None => sn_saslPayload s end in
      (Ok tt, mkMgSession (sn_unread s) (sn_server s) (sn_sent s) (sn_requestID s) (sn_database s) (sn_clientNonce s) payload id finished)
  end.

Definition saslExchange (continuing : bool) (name : string) (doc : bsonDocument) : M mongoWireSession unit :=
  message <-- queryMessage 1 doc ;;
  reply <-- exchange message ;;
  match or_Documents reply with
  | [] => merr (name ++ " returned no documents")
  | result :: _ => saslStep continuing name result
  end.

Definition doSaslStart (doc : bsonDocument) : M mongoWireSession unit := saslExchange false "saslStart" doc.
Definition doSaslContinue (doc : bsonDocument) : M mongoWireSession unit := saslExchange true "saslContinue" doc.

Definition generateNonce : string := string_of_list_byte (hexEncode (map (fun i => z2b (Z.of_nat i)) (seq 0 24))).

(** These do nothing: no proof of the password is computed. *)
Definition processServerFirst (serverFirst password : string) : outcome unit := Ok tt.
Definition buildClientProof (username password : string) : bytes := [].
Definition processServerSecond (serverSecond password : string) : outcome unit := Ok tt.

Definition getConversation : M mongoWireSession (Z * bool * bytes) := fun s => (Ok (sn_conversationID s, sn_done s, sn_saslPayload s), s).

Fixpoint sasl_loop (attempts : nat) (clientProof : bytes) (password : string) : M mongoWireSession unit :=
  match attempts with
  | O => mret tt
  | Datatypes.S attempts =>
      before <-- getConversation ;;
      _ <-- doSaslContinue [("saslContinue", AInt 1); ("conversationId", AInt32 before.1.1); ("payload", ABytes clientProof)]%string ;;
      after <-- getConversation ;;
      if after.1.2 then mret tt
      else
        _ <-- mlift (processServerSecond (string_of_list_byte after.2) password) ;;
        sasl_loop attempts clientProof password
  end.

Definition setClientNonce (nonce : string) : M mongoWireSession unit := fun s =>
  (Ok tt, mkMgSession (sn_unread s) (sn_server s) (sn_sent s) (sn_requestID s) (sn_database s) nonce (sn_saslPayload s)
            (sn_conversationID s) (sn_done s)).

Definition mongoSCRAMAuth (username password mechanism : string) : M mongoWireSession unit :=
  let mechanism := if String.eqb mechanism "" then "SCRAM-SHA-256"%string else mechanism in
  _ <-- setClientNonce generateNonce ;;
  _ <-- doSaslStart [("saslStart", AInt 1); ("mechanism", AString mechanism); ("payload", ABytes []);
                     ("options", ADocument [("skipAuthenticationCheck", ABool false)])]%string ;;
  first <-- getConversation ;;
  _ <-- mlift (processServerFirst (string_of_list_byte first.2) password) ;;
  sasl_loop 10 (buildClientProof username password) password.
End Session.

(** ** Settings *)

Record mongoConfig := mkMgConfig
  { mo_Address : string; mo_Host : string; mo_Port : string; mo_Database : string; mo_Username : string; mo_Password : string;
    mo_AuthSource : string; mo_TLSConfig : string; mo_ReplicaSet : string }.

Section Config.
  Context (parseURL : string -> option PgURL).

Definition mongoDefaults : mongoConfig := mkMgConfig "" "127.0.0.1" "27017" "admin" "" "" "admin" "" "".

Definition mongoConfigFromDSN (dsn : string) : outcome mongoConfig :=
  match parseURL dsn with
  | None => Err "parse mongodb dsn"
  | Some parsed =>
      if negb (String.eqb (ur_Scheme parsed) "mongodb") && negb (String.eqb (ur_Scheme parsed) "mongodb+srv")
      then Err "unsupported mongodb dsn scheme"
      else
        Ok (mkMgConfig "" (notEmpty (ur_Hostname parsed) (mo_Host mongoDefaults)) (notEmpty (ur_Port parsed) (mo_Port mongoDefaults))
              (notEmpty (TrimPrefix (ur_EscapedPath parsed) "/") (mo_Database mongoDefaults))
              (match ur_User parsed with Some (name, _) => name | None => mo_Username mongoDefaults end)
              (match ur_User parsed with Some (_, Some password) => password | _ => mo_Password mongoDefaults end)
              (notEmpty (ur_Query parsed "authSource") (mo_AuthSource mongoDefaults))
              (notEmpty (ur_Query parsed "tls") (mo_TLSConfig mongoDefaults))
              (notEmpty (ur_Query parsed "replicaSet") (mo_ReplicaSet mongoDefaults)))
  end.

Definition authSourceKeys (target : DTarget) : list string :=
  let connection := mget (dt_Connection target) in
  let options := mget (dt_Options target) in
  [connection "authSource"; connection "auth_source"; options "authSource"; options "auth_source"].

Definition mongoConfigFromTarget (target : DTarget) : outcome mongoConfig :=
  let connection := mget (dt_Connection target) in
  let options := mget (dt_Options target) in
  let dsn := TrimSpace (connection "dsn") in
  cfg <~ (if String.eqb dsn "" then Ok mongoDefaults else mongoConfigFromDSN dsn) ;;
  let '(addrHost, addrPort) := splitAddress (TrimSpace (connection "addr")) in
  let host := orElse (connection "host") (notEmpty addrHost (mo_Host cfg)) in
  let port := orElse (connection "port") (notEmpty addrPort (mo_Port cfg)) in
  let password := firstNonEmpty [connection "password"; options "password"] in
  Ok (mkMgConfig (JoinHostPort host port) host port
        (orElse (firstNonEmpty [connection "database"; options "database"]) (mo_Database cfg))
        (orElse (firstNonEmpty [connection "username"; connection "user"; options "username"; options "user"]) (mo_Username cfg))
        (if negb (String.eqb (TrimSpace password) "") then password else mo_Password cfg)
        (orElse (firstNonEmpty (authSourceKeys target)) (mo_AuthSource cfg))
        (mo_TLSConfig cfg) (mo_ReplicaSet cfg)).

Definition mongoConfigAuthSource (cfg : mongoConfig) (target : DTarget) : string :=
  if negb (String.eqb (mo_AuthSource cfg) "") then mo_AuthSource cfg
  else TrimSpace (firstNonEmpty (authSourceKeys target ++ ["admin"%string])).
End Config.

(** ** What is asked over a session of its own *)

(** A cursor: its number, and the documents left of its batch. *)
Record mongoCursor := mkMgCursor { cu_id : Z; cu_ns : string; cu_batch : list bsonFields; cu_closed : bool }.

(** The documents left and whether it has a session. *)
Record mongoChangeStreamCursor := mkMgChanges { cc_session : bool; cc_batch : list bsonDocument; cc_closed : bool }.

(** The entries of documents of a type that a parsed document never has. *)
Definition textField (doc : bsonDocument) (key : string) : option string :=
  match field doc key with Some (AString s) => Some s | _ => None end.

Definition namesOf (items : list any) : list string :=
  concat (map (fun item => match item with
                           | AMap doc => match textField doc "name" with Some name => [name] | None => [] end
                           | _ => []
                           end) items).

Definition databaseNames (row : bsonFields) : list string :=
  match field row "databases" with Some (_, AList items) => namesOf items | _ => [] end.

Definition firstBatch (row : bsonFields) : list any :=
  match field row "cursor" with
  | Some (_, AMap cursor) => match field cursor "firstBatch" with Some (AList items) => items | _ => [] end
  | _ => []
  end.

Section Runner.
  (** What is there to read when a connection is open, None when it cannot be
      opened. *)
  Context {S : Type} (dial : string -> S -> option bytes * S) (serve : bytes -> S -> bytes * S).
  Context (iterate : list (string * bytes) -> list (string * bytes)) (parseURL : string -> option PgURL).

Definition mongoDialWithAuth {A} (cfg : mongoConfig) (m : M mongoWireSession A) : M S A := fun s =>
  match dial (mo_Address cfg) s with
  | (None, s) => (Err "dial", s)
  | (Some unread, s) =>
      let '(r, session) :=
        (_ <-- mongoSCRAMAuth serve iterate (mo_Username cfg) (mo_Password cfg) "" ;; m)
          (mkMgSession unread s [] 0 (mo_Database cfg) "" [] 0 false) in
      (r, sn_server session)
  end.

Definition onTarget {A} (target : DTarget) (m : mongoConfig -> M mongoWireSession A) : M S A :=
  cfg <-- mlift (mongoConfigFromTarget parseURL target) ;; mongoDialWithAuth cfg (m cfg).

(** The first document of the answer to a command. *)
Definition firstRow (command : string) : M mongoWireSession bsonFields :=
  result <-- query serve iterate command ;;
  match mg_Rows result with [] => merr (command ++ " returned no documents") | row :: _ => mret row end.

Definition runnerSimpleQuery (target : DTarget) (command : string) : M S mongoQueryResult :=
  onTarget target (fun _ => query serve iterate command).

Definition runnerGetServerStatus (target : DTarget) : M S bsonFields := onTarget target (fun _ => firstRow "serverStatus").

Definition runnerListDatabases (target : DTarget) : M S (list string) :=
  onTarget target (fun _ => row <-- firstRow "listDatabases" ;; mret (databaseNames row)).

Definition runnerListCollections (target : DTarget) (db : string) : M S (list string) :=
  onTarget target (fun _ => row <-- firstRow ("listCollections." ++ db) ;; mret (namesOf (firstBatch row))).

Definition runnerGetCollectionStats (target : DTarget) (db coll : string) : M S bsonFields :=
  onTarget target (fun _ => firstRow ("collStats." ++ db ++ "." ++ coll)).

(** Nothing is asked: the cursor is empty. *)
Definition runnerFind (target : DTarget) (db coll : string) : M S mongoCursor :=
  onTarget target (fun cfg => mret (mkMgCursor 0 (mo_Database cfg ++ "." ++ coll) [] false)).

(** The document is not sent. *)
Definition runnerInsertOne (target : DTarget) (db coll : string) (doc : bsonDocument) : M S unit :=
  onTarget target
    (fun _ => row <-- firstRow ("insert." ++ db ++ "." ++ coll) ;;
     match field row "ok" with
     | Some (_, AFloat 0) | Some (_, AFloat 9223372036854775808) => merr "insert failed"
     | _ => mret tt
     end).

Definition runnerWatch (target : DTarget) : M S mongoChangeStreamCursor :=
  onTarget target (fun _ => mret (mkMgChanges true [] false)).
End Runner.

(** ** Cursors *)

(** Next: getMore does nothing, so that a cursor with a number and no
    documents left is asked for ever. *)
Fixpoint cursorNext (fuel : nat) : M mongoCursor bsonFields := fun c =>
  if cu_closed c then (Err "cursor closed", c)
  else match cu_batch c with
       | doc :: rest => (Ok doc, mkMgCursor (cu_id c) (cu_ns c) rest (cu_closed c))
       | [] => if cu_id c =? 0 then (Err EOF, c)
               else match fuel with O => (Fuel, c) | S fuel => cursorNext fuel c end
       end.

(** The changes of a session are never fetched. *)
Fixpoint changesNext (fuel : nat) : M mongoChangeStreamCursor bsonDocument := fun c =>
  if cc_closed c then (Err "cursor closed", c)
  else match cc_batch c with
       | doc :: rest => (Ok doc, mkMgChanges (cc_session c) rest (cc_closed c))
       | [] => if negb (cc_session c) then (Err EOF, c)
               else match fuel with O => (Fuel, c) | S fuel => changesNext fuel c end
       end.

Lemma changes_never_end fuel c : cc_session c = true -> cc_closed c = false -> cc_batch c = [] -> changesNext fuel c = (Fuel, c).
Proof. intros H1 H2 H3. induction fuel as [|fuel IH]; cbn [changesNext]; rewrite H1, H2, H3; [done|exact IH]. Qed.

(** ** No message is one MongoDB reads *)

(** The operations of the protocol. *)
Definition knownOperations : list Z := [1; 2001; 2002; 2004; 2005; 2006; 2007; 2010; 2011; 2012; 2013].

Lemma le_decode_four a b c d : le_decode [a; b; c; d] = b2z a + 256 * (b2z b + 256 * (b2z c + 256 * b2z d)).
Proof. cbn [le_decode]. lia. Qed.

Lemma text_word name rest : noByte "000"%char name = true -> (4 <= String.length name)%nat ->
  2 ^ 24 <= le_decode (take 4 (cstringBytes name ++ rest)).
Proof.
  intros Hn Hl. destruct name as [|a [|b [|c [|d name]]]]; try (simpl in Hl; lia).
  cbn [noByte] in Hn. repeat (apply andb_true_iff in Hn as [? Hn]).
  unfold cstringBytes. rewrite !list_byte_cons. cbn [app take]. rewrite le_decode_four.
  assert (Hd : 1 <= b2z (byte_of_ascii d)).
  { pose proof (b2z_range (byte_of_ascii d)). destruct (Z.eq_dec (b2z (byte_of_ascii d)) 0) as [E|]; [|lia].
    destruct d as [[] [] [] [] [] [] [] []]; try discriminate E; discriminate. }
  pose proof (b2z_range (byte_of_ascii a)). pose proof (b2z_range (byte_of_ascii b)). pose proof (b2z_range (byte_of_ascii c)).
  change (2 ^ 24) with (256 * (256 * (256 * 1))). lia.
Qed.

(** The operation is looked for four bytes after it, in the name of the
    collection. *)
Lemma request_operation iterate header q : noByte "000"%char (oq_FullCollectionName q) = true ->
  (4 <= String.length (oq_FullCollectionName q))%nat ->
  2 ^ 24 <= uint32At (writeOpQuery iterate header q) 12 /\ 16 <= zlen (writeOpQuery iterate header q).
Proof.
  intros Hn Hl. unfold writeOpQuery, putLength, headerBytes, uint32At, intAt, zslice. rewrite <- !app_assoc.
  change (drop 4 (le32 ?a ++ ?t)) with t. set (z := le32 (zlen _)).
  split; [|].
  - change (drop (Z.to_nat 12) (z ++ le32 ?a ++ le32 ?b ++ ?t)) with t. now apply text_word.
  - unfold zlen. rewrite !length_app. unfold z, le32, cstringBytes. rewrite !le_encode_length, length_app.
    pose proof (zlen_list_byte (oq_FullCollectionName q)) as E. unfold zlen in E. simpl length. lia.
Qed.

(** A server that follows the protocol: it answers no message whose operation
    it does not know, and says nothing of its own. *)
Definition followsProtocol {S} (dial : string -> S -> option bytes * S) (serve : bytes -> S -> bytes * S) : Prop :=
  (forall address s unread s', dial address s = (Some unread, s') -> unread = []) /\
  (forall message s, 16 <= zlen message -> ~ In (uint32At message 12) knownOperations -> (serve message s).1 = []).

Section Silent.
  Context {S : Type} (dial : string -> S -> option bytes * S) (serve : bytes -> S -> bytes * S).
  Context (iterate : list (string * bytes) -> list (string * bytes)) (parseURL : string -> option PgURL).
  Hypothesis server : followsProtocol dial serve.

Lemma unknown_operation n : 2 ^ 24 <= n -> ~ In n knownOperations.
Proof. change (2 ^ 24) with 16777216. intros Hn. unfold knownOperations. cbn [In]. lia. Qed.

Lemma noByte_append c a b : noByte c a = true -> noByte c b = true -> noByte c (a ++ b) = true.
Proof.
  intros Ha Hb. induction a as [|x a IH]; [done|]. change (String x a ++ b)%string with (String x (a ++ b)).
  cbn [noByte] in *. apply andb_true_iff in Ha as [-> Ha]. now rewrite IH.
Qed.

Lemma sasl_not_answered continuing name doc (s : mongoWireSession (S := S)) : sn_unread s = [] ->
  noByte "000"%char (sn_database s) = true -> (saslExchange serve iterate continuing name doc s).1 = Err EOF.
Proof.
  intros Hu Hn. unfold saslExchange, queryMessage, nextRequestID, getDatabase, exchange, mgSend, mgReading, mbind, mret.
  cbn [sn_database sn_server sn_unread]. set (message := writeOpQuery _ _ _).
  assert (Hm : 2 ^ 24 <= uint32At message 12 /\ 16 <= zlen message).
  { apply request_operation; cbn [oq_FullCollectionName]; [now apply noByte_append|]. rewrite string_app_length. simpl. lia. }
  destruct Hm as [Ho Hl]. pose proof (proj2 server message (sn_server s) Hl (unknown_operation _ Ho)) as E.
  destruct (serve message (sn_server s)) as [answer server']. cbn in E. subst answer. cbn [sn_unread]. rewrite Hu. reflexivity.
Qed.

Lemma auth_fails username password mechanism (s : mongoWireSession (S := S)) : sn_unread s = [] ->
  noByte "000"%char (sn_database s) = true -> (mongoSCRAMAuth serve iterate username password mechanism s).1 = Err EOF.
Proof.
  intros Hu Hn. unfold mongoSCRAMAuth, setClientNonce, doSaslStart. unfold mbind at 1. set (doc := [_; _; _; _]).
  set (s1 := mkMgSession _ _ _ _ _ _ _ _ _). unfold mbind at 1.
  pose proof (sasl_not_answered false "saslStart" doc s1 Hu Hn) as E.
  destruct (saslExchange serve iterate false "saslStart" doc s1) as [r s2]. cbn in E. now subst r.
Qed.

(** No session can be started. *)
Lemma session_fails {A} target (m : mongoConfig -> M mongoWireSession A) cfg s : mongoConfigFromTarget parseURL target = Ok cfg ->
  noByte "000"%char (mo_Database cfg) = true -> exists e, (onTarget dial serve iterate parseURL target m s).1 = Err e.
Proof.
  intros Hc Hn. unfold onTarget. unfold mbind at 1, mlift. rewrite Hc. unfold mongoDialWithAuth.
  destruct (dial (mo_Address cfg) s) as [[unread|] s'] eqn:Ed; [|by eexists].
  apply (proj1 server) in Ed as ->. set (session := mkMgSession _ _ _ _ _ _ _ _ _).
  unfold mbind at 1. pose proof (auth_fails (mo_Username cfg) (mo_Password cfg) "" session eq_refl Hn) as E.
  destruct (mongoSCRAMAuth _ _ _ _ _ session) as [r s2]. cbn in E. subst r. by eexists.
Qed.
End Silent.
