(* ===== verification/MongoDriver.v ===== *)
(** * The MongoDB driver

    Models src/internal/drivers/mongodb/native_backup.go, native_restore.go,
    change_stream.go and driver.go against the class [mongoQueryer], the
    interface of the source; MongoWire implements it. The external tools,
    JSON, fmt's %v and the functions of net/url are parameters.

    The theorems show that a native restore leaves the database as it is, that
    no session of the native protocol can be started, and that the files with
    passwords of the external tools are removed. *)

From Stdlib Require Import Ascii String.
From S2P Require Import Prelude ChunkHash Core Calendar GoStrings GoText Manifest Engine PgText PgSplit PgWire PgConn Bson MongoWire.
Local Open Scope Z_scope.

(** A queryer, with what it acts on. *)
Class mongoQueryer (Q : Type) := {
  SimpleQuery : DTarget -> string -> M Q mongoQueryResult;
  GetServerStatus : DTarget -> M Q bsonFields;
  ListDatabases : DTarget -> M Q (list string);
  ListCollections : DTarget -> string -> M Q (list string);
  GetCollectionStats : DTarget -> string -> string -> M Q bsonFields;
  Find : DTarget -> string -> string -> M Q mongoCursor;
  InsertOne : DTarget -> string -> string -> bsonDocument -> M Q unit;
  Watch : DTarget -> M Q mongoChangeStreamCursor
}.

(** ** Settings *)

Definition databaseObjectKind : string := "database".
Definition deploymentObjectKind : string := "deployment".

Definition configuredDatabaseName (target : DTarget) : option string :=
  let connection := TrimSpace (mget (dt_Connection target) "database") in
  let option := TrimSpace (mget (dt_Options target) "database") in
  if negb (String.eqb connection "") then Some connection else if negb (String.eqb option "") then Some option else None.

Definition databaseName (target : DTarget) : string := default "admin"%string (configuredDatabaseName target).

Definition useMongoNativeProtocol (target : DTarget) : bool :=
  let value := ToLower (TrimSpace (firstNonEmpty
    [mget (dt_Connection target) "protocol"; mget (dt_Connection target) "native_protocol"; mget (dt_Connection target) "native";
     mget (dt_Options target) "protocol"; mget (dt_Options target) "native_protocol"; mget (dt_Options target) "native"])) in
  negb (existsb (String.eqb value) ["mongodump"; "shell"; "external"]).

Definition mongoOplogEnabled (target : DTarget) : bool :=
  let value := ToLower (TrimSpace (firstNonEmpty
    [mget (dt_Connection target) "oplog"; mget (dt_Connection target) "oplog_backup"; mget (dt_Connection target) "consistent_snapshot";
     mget (dt_Options target) "oplog"; mget (dt_Options target) "oplog_backup"; mget (dt_Options target) "consistent_snapshot"])) in
  existsb (String.eqb value) ["true"; "1"; "yes"; "on"; "require"; "required"].

Definition connectionTestCollection (target : DTarget) : string :=
  let value := TrimSpace (firstNonEmpty [mget (dt_Options target) "connection_test_collection"; mget (dt_Connection target) "connection_test_collection"]) in
  if negb (String.eqb value "") then value else "__kronos_connection_test__".

(** ** Native backups *)

Record mongoBackupCollection := mkMgCollection { bc_Database : string; bc_Name : string; bc_Type : string }.

(** An entry of the answer to listCollections. *)
Definition collectionOf (database : string) (item : any) : list mongoBackupCollection :=
  match item with
  | AMap doc => [mkMgCollection database (default "" (textField doc "name")) (default "collection" (textField doc "type"))]%string
  | _ => []
  end.

(** The value of a field as encoding/json gets it. *)
Fixpoint toInterface (data : any) : any :=
  match data with AList items => AList (map toInterface items) | data => data end.

Definition mongoValueToInterface (val : bsonValue) : any := toInterface val.2.

Definition dashes : string := concatAll (repeat "-"%string 60).

Definition collectionHeader (coll : mongoBackupCollection) : string :=
  "// " ++ dashes ++ newline ++ "// Collection: " ++ bc_Database coll ++ "." ++ bc_Name coll ++ newline ++
  "// " ++ dashes ++ newline ++ newline.

Definition insertLine (coll doc : string) : string := "db." ++ coll ++ ".insertOne(" ++ doc ++ ");" ++ newline.

(** The lines of the documents of a collection, none when there are none. *)
Definition documentLines (coll : string) (docs : list string) : string :=
  match docs with
  | [] => ""
  | _ => "// " ++ Itoa (zlen docs) ++ " documents in " ++ coll ++ newline ++ concatAll (map (insertLine coll) docs) ++ newline
  end.

Section Native.
  (** json.Marshal of a map, None when it fails; fmt's %v of a value. *)
  Context (marshal : bsonDocument -> option string) (format : bsonValue -> string).
  Context {Q : Type} `{!mongoQueryer Q} (target : DTarget).

Definition mongoDocToJSON (doc : bsonFields) : option string := marshal (map (fun f => (f.1, mongoValueToInterface f.2)) doc).

Definition mongoListBackupCollections (database : string) : M Q (list mongoBackupCollection) :=
  result <-- SimpleQuery target "listCollections" ;;
  match mg_Rows result with
  | [] => mret []
  | row :: _ => mret (concat (map (collectionOf database) (firstBatch row)))
  end.

(** The statement that creates a collection stays empty, and the indexes are
    not written. *)
Record mongoBackupCollectionInfo := mkMgInfo { ci_CreateStatement : string; ci_Indexes : list string }.

Definition indexOf (coll : string) (doc : bsonFields) : list string :=
  match field doc "name", field doc "v", field doc "spec" with
  | Some (_, AString name), Some _, Some spec =>
      if negb (String.eqb name "_id_") then ["db." ++ coll ++ ".createIndex(" ++ name ++ ", {v: " ++ format spec ++ "})"]%string else []
  | _, _, _ => []
  end.

Definition mongoBackupCollectionInfoData (db coll : string) : M Q mongoBackupCollectionInfo :=
  result <-- SimpleQuery target ("listIndexes." ++ db ++ "." ++ coll) ;;
  mret (mkMgInfo "" (concat (map (indexOf coll) (mg_Rows result)))).

(** A document that has no JSON is left out, and 1000 documents end the loop.
    [fuel] bounds one call of Next, [passes] the documents of the batch. *)
Fixpoint cursor_loop (passes fuel : nat) (cursor : mongoCursor) (docs : list string) : outcome (list string) :=
  match passes with
  | O => Fuel
  | S passes =>
      match cursorNext fuel cursor with
      | (Ok doc, cursor) =>
          let docs := match mongoDocToJSON doc with Some text => docs ++ [text] | None => docs end in
          if 1000 <=? zlen docs then Ok docs else cursor_loop passes fuel cursor docs
      | (Err e, _) => if Contains e EOF then Ok docs else Err e
      | (Panic e, _) => Panic e
      | (Fuel, _) => Fuel
      end
  end.

(** A backup holds at most 1000 documents of a collection. *)
Lemma cursor_loop_bound passes fuel cursor docs out : zlen docs < 1000 ->
  cursor_loop passes fuel cursor docs = Ok out -> zlen out <= 1000.
Proof.
  revert cursor docs. induction passes as [|passes IH]; intros cursor docs Hd; [done|]. cbn [cursor_loop].
  destruct (cursorNext fuel cursor) as [[doc|e|e|] cursor']; [|case_match; [|done]; intros [= <-]; lia|done..].
  assert (L : zlen (match mongoDocToJSON doc with Some text => docs ++ [text] | None => docs end) <= zlen docs + 1)
    by (case_match; unfold zlen in *; rewrite ?length_app; simpl; lia).
  destruct (Z.leb_spec 1000 (zlen (match mongoDocToJSON doc with Some text => docs ++ [text] | None => docs end)));
    [intros [= <-]; lia|now apply IH].
Qed.

Definition mongoBackupCollectionData (fuel : nat) (db coll : string) : M Q (list string) :=
  cursor <-- Find target db coll ;; mlift (cursor_loop (length (cu_batch cursor) + 1) fuel cursor []).

Definition backupCollection (fuel : nat) (coll : mongoBackupCollection) : M Q (string * Z) :=
  if negb (String.eqb (bc_Type coll) "collection") then mret (""%string, 0)
  else
    info <-- mongoBackupCollectionInfoData (bc_Database coll) (bc_Name coll) ;;
    docs <-- mongoBackupCollectionData fuel (bc_Database coll) (bc_Name coll) ;;
    mret ((collectionHeader coll ++ ci_CreateStatement info ++ newline ++ newline ++ documentLines (bc_Name coll) docs)%string, zlen docs).

Fixpoint backupCollections (fuel : nat) (colls : list mongoBackupCollection) : M Q (string * Z) :=
  match colls with
  | [] => mret (""%string, 0)
  | coll :: rest =>
      first <-- backupCollection fuel coll ;; others <-- backupCollections fuel rest ;;
      mret ((first.1 ++ others.1)%string, first.2 + others.2)
  end.

Definition mongoRecords (payload : string) (totalDocs : Z) : list DRecord :=
  let obj := mkObjectRef "" (databaseName target) databaseObjectKind in
  [mkDRecord obj (list_byte_of_string payload) 0 false; mkDRecord obj [] totalDocs true].

Definition mongoNativeBackupFull (fuel : nat) : M Q (list DRecord * ResumePoint) :=
  _ <-- SimpleQuery target "ping" ;;
  colls <-- mongoListBackupCollections (databaseName target) ;;
  body <-- backupCollections fuel colls ;;
  mret (mongoRecords ("use " ++ databaseName target ++ newline ++ newline ++ body.1) body.2,
        mkResumePoint "mongodb" "mongodb:native" 0 ∅).
End Native.

(** ** Native restores *)

Record gscan := mkGscan
  { gs_current : string; gs_statements : list string; gs_inString : bool; gs_inComment : bool; gs_inBlockComment : bool; gs_take : nat; gs_skip : nat }.

(** One pass of the loop; [rest] is what follows [c]. *)
Definition mongo_step (c : ascii) (rest : string) (st : gscan) : gscan :=
  let 'mkGscan current statements inString inComment inBlockComment take skip := st in
  let next := match rest with String d _ => d | EmptyString => NUL end in
  let written := (current ++ String c "")%string in
  match skip, take with
  | S skip, _ => mkGscan current statements inString inComment inBlockComment take skip
  | O, S take => mkGscan written statements inString inComment inBlockComment take 0
  | O, O =>
      if inComment then mkGscan current statements inString (negb (Ascii.eqb c "010")) inBlockComment 0 0
      else if inBlockComment then
        (if Ascii.eqb c "*" && Ascii.eqb next "/" then mkGscan current statements inString false false 0 1
         else mkGscan current statements inString false true 0 0)
      else if negb inString && Ascii.eqb c quote then mkGscan written statements true false false 0 0
      else if inString then
        (if Ascii.eqb c quote then
           (if Ascii.eqb next quote then mkGscan written statements true false false 1 0
            else mkGscan written statements false false false 0 0)
         else mkGscan written statements true false false 0 0)
      else if Ascii.eqb c "/" && Ascii.eqb next "*" then mkGscan current statements false false true 0 1
      else if Ascii.eqb c "-" && Ascii.eqb next "-" then mkGscan current statements false true false 0 1
      else if Ascii.eqb c ";" then mkGscan "" (addStatement statements current) false false false 0 0
      else mkGscan written statements false false false 0 0
  end.

Fixpoint mongo_loop (sql : string) (st : gscan) : gscan :=
  match sql with
  | EmptyString => st
  | String c rest => mongo_loop rest (mongo_step c rest st)
  end.

Definition splitMongoStatements (sql : string) : list string :=
  let st := mongo_loop sql (mkGscan "" [] false false false 0 0) in addStatement (gs_statements st) (gs_current st).

(** The part of a string before its first [sep] and after it. *)
Definition splitFirst (sep : ascii) (s : string) : option (string * string) :=
  match Cut sep s with (a, b, true) => Some (a, b) | _ => None end.

(** The part of a string before its last closing parenthesis. *)
Fixpoint beforeLastParen (s : string) : option string :=
  match s with
  | EmptyString => None
  | String c r =>
      match beforeLastParen r with
      | Some a => Some (String c a)
      | None => if Ascii.eqb c ")" then Some EmptyString else None
      end
  end.

Section Restore.
  Context {Q : Type}.

(** None of these asks the queryer for anything. *)
Definition mongoExecInsertOne (target : DTarget) (queryer : mongoQueryer Q) (body : string) : M Q unit :=
  let body := TrimSpace body in
  if negb (HasPrefix body "{") || negb (HasSuffix body "}") then merr "invalid insertOne body" else mret tt.

Definition mongoExecInsertMany (target : DTarget) (queryer : mongoQueryer Q) (body : string) : M Q unit := mret tt.
Definition mongoExecCreateIndex (target : DTarget) (queryer : mongoQueryer Q) (body : string) : M Q unit := mret tt.

Definition mongoExecuteStatement (target : DTarget) (queryer : mongoQueryer Q) (stmt : string) : M Q unit :=
  let stmt := TrimSpace stmt in
  if String.eqb stmt "" then mret tt
  else if HasPrefix stmt "db." then
    match splitFirst "(" stmt with
    | None => mret tt
    | Some (head, tail) =>
        match splitFirst "." head with
        | None => mret tt
        | Some (_, collPart) =>
            match beforeLastParen tail with
            | None => mret tt
            | Some body =>
                let methodBody := TrimSpace body in
                if HasPrefix head "db." then
                  let methodName := match splitFirst "." collPart with Some (_, name) => name | None => collPart end in
                  if HasPrefix methodName "insertOne" then mongoExecInsertOne target queryer methodBody
                  else if HasPrefix methodName "insertMany" then mongoExecInsertMany target queryer methodBody
                  else if HasPrefix methodName "createIndex" then mongoExecCreateIndex target queryer methodBody
                  else mret tt
                else mret tt
            end
        end
    end
  else mret tt.

Fixpoint run_statements (target : DTarget) (queryer : mongoQueryer Q) (statements : list string) : M Q unit :=
  match statements with
  | [] => mret tt
  | stmt :: rest =>
      let stmt := TrimSpace stmt in
      if String.eqb stmt "" || HasPrefix stmt "use " || HasPrefix stmt "//" then run_statements target queryer rest
      else _ <-- mongoExecuteStatement target queryer stmt ;; run_statements target queryer rest
  end.

Definition replaceRequired : string :=
  "mongodb restore requires replace_existing=true because archive restore can overwrite existing collections".

Definition restoreRecord (target : DTarget) (queryer : mongoQueryer Q) (record : DRecord) (opts : RestoreOptions) : M Q unit :=
  if rc_Done record || negb (String.eqb (ob_Kind (rc_Object record)) databaseObjectKind) then mret tt
  else if ro_DryRun opts then mret tt
  else if negb (ro_ReplaceExisting opts) then merr replaceRequired
  else run_statements target queryer (splitMongoStatements (string_of_list_byte (rc_Payload record))).

(** The records and what NextRecord reports after them. *)
Fixpoint mongoNativeRestore (target : DTarget) (queryer : mongoQueryer Q) (records : list DRecord) (last : string) (opts : RestoreOptions) : M Q unit :=
  match records with
  | [] => if String.eqb last EOF then mret tt else merr last
  | record :: rest => _ <-- restoreRecord target queryer record opts ;; mongoNativeRestore target queryer rest last opts
  end.
End Restore.

(** ** Changes *)

Section Changes.
  (** encoding/json: a map from its text, None when it is not one, and the
      text of a map; the text of a resume token, by fmt and time.Format. *)
  Context (unmarshal : string -> option bsonDocument) (marshal : bsonDocument -> option string) (formatToken : bsonDocument -> string).
  Context {Q : Type} `{!mongoQueryer Q} (target : DTarget).

Definition parseResumeToken (tokenStr : string) : option bsonDocument :=
  if String.eqb tokenStr "" then None else unmarshal tokenStr.

Definition formatResumeToken (token : option bsonDocument) : string :=
  match token with None => "" | Some token => formatToken token end.

(** No change is captured: the parent's position is returned. *)
Definition mongoCaptureChangeStreamResume (resumeToken : bsonDocument) : M Q ResumePoint :=
  let position := formatResumeToken (Some resumeToken) in
  mret (mkResumePoint "mongodb" position 0 {["resumeToken" := position; "kind" := "change_stream"%string]}).

Definition optimeOf (status : bsonFields) : string :=
  match field status "repl" with
  | Some (_, AMap repl) => match field repl "optime" with Some (AString optime) => optime | _ => "" end
  | _ => ""
  end.

Definition mongoCaptureOplogStart : M Q ResumePoint :=
  status <-- GetServerStatus target ;;
  let optime := optimeOf status in
  mret (mkResumePoint "mongodb" ("mongodb:oplog:" ++ optime) 0 {["oplog_optime" := optime; "kind" := "oplog"%string]}).

Definition mongoNativeBackupIncremental (parent : Manifest) : M Q ResumePoint :=
  if negb (mongoOplogEnabled target) then merr ErrIncrementalUnsupported
  else
    match mf_Streams parent !! "mongodb_resume_token"%string with
    | Some tokenStr =>
        match parseResumeToken tokenStr with
        | Some token => mongoCaptureChangeStreamResume token
        | None => mongoCaptureOplogStart
        end
    | None => mongoCaptureOplogStart
    end.

Definition mustMarshalJSON (event : bsonDocument) : bytes :=
  match marshal (map (fun e => (e.1, toInterface e.2)) event) with Some text => list_byte_of_string text | None => [] end.

Definition changeRecord (event : bsonDocument) : StreamRecord :=
  mkStreamRecord (mkResumePoint "mongodb" (formatResumeToken (Some event)) 0 {["kind" := "change_stream"%string]}) (mustMarshalJSON event).

(** [passes] bounds the events of the batch, [fuel] one call of Next. *)
Fixpoint events_loop (passes fuel : nat) (cursor : mongoChangeStreamCursor) : M (Q * list StreamRecord) unit :=
  match passes with
  | O => mfuel
  | S passes =>
      match changesNext fuel cursor with
      | (Ok event, cursor) => _ <-- writeRecords [changeRecord event] ;; events_loop passes fuel cursor
      | (Err e, _) => if String.eqb e EOF then mret tt else merr e
      | (Panic e, _) => mpanic e
      | (Fuel, _) => mfuel
      end
  end.

Definition mongoStreamChangeEvents (fuel : nat) : M (Q * list StreamRecord) unit :=
  cursor <-- onDatabase (Watch target) ;; events_loop (length (cc_batch cursor) + 1) fuel cursor.

Definition mongoStreamOplog (since : string) : M (Q * list StreamRecord) unit := mret tt.

(** A stream without a token or a position waits until it is cancelled. *)
Definition mongoNativeStream (fuel : nat) (rp : ResumePoint) : M (Q * list StreamRecord) unit :=
  match parseResumeToken (mget (rp_Metadata rp) "resumeToken") with
  | Some _ => mongoStreamChangeEvents fuel
  | None =>
      let optime := mget (rp_Metadata rp) "oplog_optime" in
      if negb (String.eqb optime "") then mongoStreamOplog optime else merr "context canceled"
  end.

(** An update inserts the document again, and a deletion is ignored. *)
Definition mongoExecuteChangeEvent (payload : bytes) : M Q unit :=
  match unmarshal (string_of_list_byte payload) with
  | None => merr "invalid change event"
  | Some event =>
      match field event "operationType", field event "ns" with
      | Some (AString operationType), Some (AMap ns) =>
          let db := default "" (textField ns "db") in
          let coll := default "" (textField ns "coll") in
          if String.eqb db "" || String.eqb coll "" then mret tt
          else if existsb (String.eqb operationType) ["insert"; "update"; "replace"] then
            match field event "fullDocument" with Some (AMap doc) => InsertOne target db coll doc | _ => mret tt end
          else mret tt
      | _, _ => mret tt
      end
  end.

(** Positions are compared as strings. *)
Definition pastTarget (point : ResumePoint) (targetPoint : ReplayTarget) : bool :=
  (negb (String.eqb (rt_Position targetPoint) "") && String.leb (rt_Position targetPoint) (rp_Position point)) ||
  (negb (TimeIsZero (rt_Time targetPoint)) && negb (TimeIsZero (rp_Time point)) && (rt_Time targetPoint <? rp_Time point)).

Fixpoint mongoNativeReplayStream (records : list StreamRecord) (last : string) (targetPoint : ReplayTarget) : M Q unit :=
  match records with
  | [] => if String.eqb last EOF then mret tt else merr last
  | record :: rest =>
      if pastTarget (sr_ResumePoint record) targetPoint then mret tt
      else
        _ <-- (match sr_Payload record with [] => mret tt | payload => mongoExecuteChangeEvent payload end) ;;
        mongoNativeReplayStream rest last targetPoint
  end.
End Changes.

(** ** The external tools *)

(** A tool sees the files of the machine; it gives its output or an error. *)
Class mongoTools (Q : Type) := {
  RunTool : string -> list string -> option bytes -> gmap string string -> Q -> (bytes + string) * Q
}.

(** The parts of a URI that the tools are given. *)
Record MongoURI := mkMgURI { mu_Host : string; mu_Path : string; mu_User : option string; mu_AuthSource : string; mu_TLS : option bool }.

Section Tools.
  (** What is used of net/url and strconv: the text of a URI, a URI without
      its password or database, the password and the path of a URI, and a
      quoted text; os.CreateTemp: the name of a new file. *)
  Context (formatURI : MongoURI -> string) (withoutPassword withoutDatabase passwordFromURL : string -> string).
  Context (databasePathFromURI : string -> option string) (quoteText : string -> string) (createTemp : gmap string string -> option string).
  Context {Q : Type} {queryer : mongoQueryer Q} `{!mongoTools Q} (target : DTarget).

(** The database and the files. *)
Definition Machine : Type := Q * gmap string string.

Definition uris : list string :=
  [mget (dt_Connection target) "uri"; mget (dt_Connection target) "dsn"; mget (dt_Options target) "uri"; mget (dt_Options target) "dsn"].

Fixpoint firstSome {A} (f : string -> option A) (values : list string) : option A :=
  match values with
  | [] => None
  | value :: rest => match f value with Some a => Some a | None => firstSome f rest end
  end.

Definition mongoPassword : string :=
  let password := firstNonEmpty [mget (dt_Connection target) "password"; mget (dt_Options target) "password"] in
  if negb (String.eqb (TrimSpace password) "") then password
  else default "" (firstSome (fun value => let p := passwordFromURL value in if String.eqb p "" then None else Some p) uris).

(** The URI of the settings, for a path. *)
Definition settingsURI (path : string) : string :=
  let connection := mget (dt_Connection target) in
  let options := mget (dt_Options target) in
  let '(addrHost, addrPort) := splitAddress (connection "addr") in
  let host := orElse (connection "host") addrHost in
  let port := orElse (connection "port") addrPort in
  let username := firstNonEmpty [connection "username"; connection "user"] in
  let tlsMode := ToLower (TrimSpace (firstNonEmpty [connection "tls"; options "tls"; connection "ssl"; options "ssl"])) in
  formatURI (mkMgURI (JoinHostPort (notEmpty host "127.0.0.1") (notEmpty port "27017")) path
    (if negb (String.eqb username "") then Some username else None)
    (TrimSpace (firstNonEmpty (authSourceKeys target)))
    (if existsb (String.eqb tlsMode) ["true"; "on"; "require"; "required"] then Some true
     else if existsb (String.eqb tlsMode) ["false"; "off"; "disable"; "disabled"] then Some false else None)).

Definition givenURI : string := TrimSpace (firstNonEmpty uris).

Definition mongoURI : string :=
  if negb (String.eqb givenURI "") then withoutPassword givenURI else settingsURI ("/" ++ databaseName target).

Definition mongoDeploymentURI : string :=
  if negb (String.eqb givenURI "") then withoutDatabase (withoutPassword givenURI) else settingsURI "/".

Definition mongoDatabaseScope : option string :=
  match configuredDatabaseName target with Some name => Some name | None => firstSome databasePathFromURI uris end.

Definition configText (uri password : string) : string :=
  ("uri: " ++ quoteText uri ++ newline ++ "password: " ++ quoteText password ++ newline)%string.

(** The arguments, and the file to remove. *)
Definition mongoConnectionArgsForURI (uri : string) : M Machine (list string * option string) := fun m =>
  if String.eqb (TrimSpace mongoPassword) "" then (Ok (["--uri"; uri]%string, None), m)
  else match createTemp m.2 with
       | None => (Err "create temporary file", m)
       | Some path => (Ok (["--config"; path]%string, Some path), (m.1, <[path := configText uri mongoPassword]> m.2))
       end.

Definition cleanup (file : option string) : M Machine unit := fun m =>
  (Ok tt, match file with Some path => (m.1, delete path m.2) | None => m end).

(** A call of a tool, after which the file is removed whatever it did. *)
Definition withArgs {A} (uri : string) (body : list string -> M Machine A) : M Machine A :=
  given <-- mongoConnectionArgsForURI uri ;;
  fun m => let '(r, m') := body given.1 m in (r, (cleanup given.2 m').2).

Definition tool (name : string) (args : list string) (stdin : option bytes) : M Machine bytes := fun m =>
  let '(r, q) := RunTool name args stdin m.2 m.1 in
  (match r with inl out => Ok out | inr e => Err e end, (q, m.2)).

Definition onQueryer {A} (a : M Q A) : M Machine A := fun m => let '(r, q) := a m.1 in (r, (q, m.2)).

Definition MgVersion : M Machine string :=
  out <-- tool "mongodump" ["--version"] None ;; mret (TrimSpace (string_of_list_byte out)).

Definition databaseDumpArgs (args : list string) : list string := args ++ ["--db"; databaseName target; "--archive"]%string.

Definition MgTest : M Machine unit :=
  if useMongoNativeProtocol target then onQueryer (_ <-- SimpleQuery target "ping" ;; mret tt)
  else
    withArgs mongoURI (fun args =>
      _ <-- tool "mongodump" (databaseDumpArgs args ++ ["--collection"; connectionTestCollection target]) None ;; mret tt).

Definition mongoBackupObject : ObjectRef :=
  if mongoOplogEnabled target then mkObjectRef "" "replica-set" deploymentObjectKind
  else mkObjectRef "" (databaseName target) databaseObjectKind.

Definition mongoDump : M Machine bytes :=
  if mongoOplogEnabled target then
    match mongoDatabaseScope with
    | Some (String _ _) => merr "mongodb oplog backups require a full replica-set dump"
    | _ => withArgs mongoDeploymentURI (fun args => tool "mongodump" (args ++ ["--archive"; "--oplog"]) None)
    end
  else withArgs mongoURI (fun args => tool "mongodump" (databaseDumpArgs args) None).

Definition MgBackupFull (marshal : bsonDocument -> option string) (format : bsonValue -> string) (fuel : nat) :
  M (Machine * list DRecord) ResumePoint :=
  if useMongoNativeProtocol target then
    result <-- onDatabase (onQueryer (mongoNativeBackupFull marshal format target fuel)) ;; _ <-- writeRecords result.1 ;; mret result.2
  else
    payload <-- onDatabase mongoDump ;;
    _ <-- writeObject mongoBackupObject payload ;;
    mret (mkResumePoint "mongodb" ("mongodump:archive" ++ (if mongoOplogEnabled target then "+oplog" else "")) 0 ∅).

Definition MgBackupIncremental (unmarshal : string -> option bsonDocument) (formatToken : bsonDocument -> string) (parent : Manifest) :
  M (Machine * list DRecord) ResumePoint :=
  if negb (useMongoNativeProtocol target) then merr ErrIncrementalUnsupported
  else if negb (mongoOplogEnabled target) then merr ErrIncrementalUnsupported
  else onDatabase (onQueryer (mongoNativeBackupIncremental unmarshal formatToken target parent)).

Definition mongoRestoreArgs (args : list string) (sourceDatabase : string) (replayOplog : bool) : list string :=
  let targetDatabase := databaseName target in
  args ++ ["--archive"; "--drop"]%string ++ (if replayOplog then ["--oplogReplay"]%string else []) ++
  (if negb replayOplog && negb (String.eqb sourceDatabase "") && negb (String.eqb targetDatabase "") &&
      negb (String.eqb sourceDatabase targetDatabase)
   then ["--nsFrom"; sourceDatabase ++ ".*"; "--nsTo"; targetDatabase ++ ".*"]%string else []).

Definition externalRecord (record : DRecord) (opts : RestoreOptions) : M Machine unit :=
  let kind := ob_Kind (rc_Object record) in
  let replayOplog := String.eqb kind deploymentObjectKind in
  if rc_Done record || (negb (String.eqb kind databaseObjectKind) && negb replayOplog) then mret tt
  else if ro_DryRun opts then mret tt
  else if negb (ro_ReplaceExisting opts) then merr replaceRequired
  else
    let run := withArgs (if replayOplog then mongoDeploymentURI else mongoURI) (fun args =>
      _ <-- tool "mongorestore" (mongoRestoreArgs args (ob_Name (rc_Object record)) replayOplog) (Some (rc_Payload record)) ;; mret tt) in
    match mongoDatabaseScope with
    | Some (String _ _) => if replayOplog then merr "mongodb oplog restores require a full replica-set target" else run
    | _ => run
    end.

Fixpoint external_restore (records : list DRecord) (last : string) (opts : RestoreOptions) : M Machine unit :=
  match records with
  | [] => if String.eqb last EOF then mret tt else merr last
  | record :: rest => _ <-- externalRecord record opts ;; external_restore rest last opts
  end.

Definition MgRestore (records : list DRecord) (last : string) (opts : RestoreOptions) : M Machine unit :=
  if useMongoNativeProtocol target then onQueryer (mongoNativeRestore target queryer records last opts) else external_restore records last opts.

Definition MgStream (unmarshal : string -> option bsonDocument) (marshal : bsonDocument -> option string) (formatToken : bsonDocument -> string)
  (fuel : nat) (rp : ResumePoint) : M (Q * list StreamRecord) unit :=
  if negb (useMongoNativeProtocol target) then merr "context canceled"
  else if String.eqb (rp_Driver rp) "" || String.eqb (rp_Position rp) "" then merr "context canceled"
  else mongoNativeStream unmarshal marshal formatToken target fuel rp.

Definition MgReplayStream (unmarshal : string -> option bsonDocument) (records : list StreamRecord) (last : string) (targetPoint : ReplayTarget) :
  M Q unit :=
  if negb (useMongoNativeProtocol target) then merr ErrIncrementalUnsupported
  else mongoNativeReplayStream unmarshal target records last targetPoint.

(** ** The files of passwords are removed *)

Hypothesis fresh : forall files path, createTemp files = Some path -> files !! path = None.

Definition keepsFiles {A} (m : M Machine A) : Prop := forall s, (m s).2.2 = s.2.

Lemma keeps_ret {A} (a : A) : keepsFiles (mret a).
Proof. intros s. reflexivity. Qed.

Lemma keeps_err {A} e : keepsFiles (merr e : M Machine A).
Proof. intros s. reflexivity. Qed.

Lemma keepsFiles_bind {A B} (m : M Machine A) (k : A -> M Machine B) : keepsFiles m -> (forall a, keepsFiles (k a)) -> keepsFiles (x <-- m ;; k x).
Proof.
  intros Hm Hk s. unfold mbind. specialize (Hm s). destruct (m s) as [[a|e|e|] s']; cbn in *; [|done..]. now rewrite Hk.
Qed.

Lemma keeps_tool name args stdin : keepsFiles (tool name args stdin).
Proof. intros s. unfold tool. now destruct (RunTool _ _ _ _ _) as [r q]. Qed.

Lemma keeps_queryer {A} (m : M Q A) : keepsFiles (onQueryer m).
Proof. intros s. unfold onQueryer. now destruct (m s.1). Qed.

Lemma keeps_withArgs {A} uri (body : list string -> M Machine A) : (forall args, keepsFiles (body args)) -> keepsFiles (withArgs uri body).
Proof.
  intros Hb s. unfold withArgs, mongoConnectionArgsForURI, mbind. destruct (String.eqb (TrimSpace mongoPassword) "").
  - specialize (Hb ["--uri"; uri]%string s). cbn [fst snd]. destruct (body _ s) as [r m']. exact Hb.
  - destruct (createTemp s.2) as [path|] eqn:Ef; [|done]. apply fresh in Ef. cbn [fst snd].
    specialize (Hb ["--config"; path]%string (s.1, <[path := configText uri mongoPassword]> s.2)). destruct (body _ _) as [r m']. cbn in *.
    rewrite Hb. now apply delete_insert_id.
Qed.
End Tools.

(** The external tools of MongoDB are given the password in a file that
    does not exist before, and the file is gone after every test, full backup
    and restore, whether the tool fails or not: the files of the machine are
    what they were. *)
Theorem mongo_password_files_removed {Q : Type} `{!mongoQueryer Q} `{!mongoTools Q}
  formatURI withoutPassword withoutDatabase passwordFromURL databasePathFromURI quoteText createTemp target marshal format fuel
  records last opts (q : Q) files written :
  (forall files path, createTemp files = Some path -> files !! path = None) ->
  (MgTest formatURI withoutPassword passwordFromURL quoteText createTemp target (q, files)).2.2 = files /\
  (MgBackupFull formatURI withoutPassword withoutDatabase passwordFromURL databasePathFromURI quoteText createTemp target
     marshal format fuel ((q, files), written)).2.1.2 = files /\
  (MgRestore formatURI withoutPassword withoutDatabase passwordFromURL databasePathFromURI quoteText createTemp target
     records last opts (q, files)).2.2 = files.
Proof.
  intros Hf. split; [|split].
  - enough (H : keepsFiles (MgTest formatURI withoutPassword passwordFromURL quoteText createTemp target)) by exact (H (q, files)).
    unfold MgTest. destruct (useMongoNativeProtocol target); [apply keeps_queryer|].
    apply keeps_withArgs; [done|]. intros args. apply keepsFiles_bind; [apply keeps_tool|intros; apply keeps_ret].
  - assert (D : keepsFiles (mongoDump formatURI withoutPassword withoutDatabase passwordFromURL databasePathFromURI quoteText createTemp target)).
    { unfold mongoDump. repeat case_match; first [apply keeps_err | apply keeps_withArgs; [done|intros; apply keeps_tool]]. }
    unfold MgBackupFull. destruct (useMongoNativeProtocol target); unfold mbind, onDatabase, writeObject, writeRecords; cbn [fst snd].
    + pose proof (keeps_queryer (mongoNativeBackupFull marshal format target fuel) (q, files)) as E.
      destruct (onQueryer _ _) as [[r|e|e|] m]; exact E.
    + specialize (D (q, files)). destruct (mongoDump _ _ _ _ _ _ _ _ _) as [[r|e|e|] m]; exact D.
  - enough (H : keepsFiles (MgRestore formatURI withoutPassword withoutDatabase passwordFromURL databasePathFromURI quoteText createTemp target
      records last opts)) by exact (H (q, files)).
    unfold MgRestore. destruct (useMongoNativeProtocol target); [apply keeps_queryer|].
    induction records as [|record rest IH]; cbn [external_restore]; [case_match; [apply keeps_ret|apply keeps_err]|].
    apply keepsFiles_bind; [|intros; exact IH]. unfold externalRecord.
    repeat case_match; first [apply keeps_ret | apply keeps_err | apply keeps_withArgs; [done|]; intros; apply keepsFiles_bind;
      [apply keeps_tool|intros; apply keeps_ret]].
Qed.

(** ** Native restores change nothing *)

(** A computation that leaves the database as it is. *)
Definition idle {Q A} (m : M Q A) : Prop := forall q, (m q).2 = q.

Lemma idle_bind {Q A B} (m : M Q A) (k : A -> M Q B) : idle m -> (forall a, idle (k a)) -> idle (x <-- m ;; k x).
Proof.
  intros Hm Hk q. unfold mbind. specialize (Hm q). destruct (m q) as [[a|e|e|] q']; cbn in *; subst; [apply Hk|done..].
Qed.

Lemma idle_statement {Q} target queryer stmt : idle (mongoExecuteStatement (Q := Q) target queryer stmt).
Proof. intros q. unfold mongoExecuteStatement, mongoExecInsertOne. repeat case_match; reflexivity. Qed.

Lemma idle_statements {Q} target queryer statements : idle (run_statements (Q := Q) target queryer statements).
Proof.
  induction statements as [|stmt rest IH]; [done|]. cbn [run_statements]. case_match; [exact IH|].
  apply idle_bind; [apply idle_statement|intros; exact IH].
Qed.

(** With the native protocol, the default, a restore of MongoDB changes
    nothing, whatever the backup holds: the statements of the records are
    split and taken apart, but none of them is sent to the database. *)
Theorem mongo_restore_changes_nothing {Q : Type} `{!mongoQueryer Q} `{!mongoTools Q}
  formatURI withoutPassword withoutDatabase passwordFromURL databasePathFromURI quoteText createTemp target records last opts s :
  useMongoNativeProtocol target = true ->
  (MgRestore formatURI withoutPassword withoutDatabase passwordFromURL databasePathFromURI quoteText createTemp target
     records last opts s).2 = s.
Proof.
  intros Hn. unfold MgRestore. rewrite Hn. unfold onQueryer.
  enough (H : idle (mongoNativeRestore target mongoQueryer0 records last opts)).
  { specialize (H s.1). destruct (mongoNativeRestore _ _ _ _ _ s.1) as [r q]. cbn in *. subst q. now destruct s. }
  induction records as [|record rest IH]; cbn [mongoNativeRestore]; [intros q; now case_match|].
  apply idle_bind; [|intros; exact IH]. unfold restoreRecord. repeat case_match; [intros q; reflexivity..|apply idle_statements].
Qed.

(** ** The runner of the agent *)

Section Runner.
  Context {S : Type} (dial : string -> S -> option bytes * S) (serve : bytes -> S -> bytes * S).
  Context (iterate : list (string * bytes) -> list (string * bytes)) (parseURL : string -> option PgURL).

#[local] Instance mongoRunner : mongoQueryer S :=
  {| SimpleQuery := runnerSimpleQuery dial serve iterate parseURL;
     GetServerStatus := runnerGetServerStatus dial serve iterate parseURL;
     ListDatabases := runnerListDatabases dial serve iterate parseURL;
     ListCollections := runnerListCollections dial serve iterate parseURL;
     GetCollectionStats := runnerGetCollectionStats dial serve iterate parseURL;
     Find := runnerFind dial serve iterate parseURL;
     InsertOne := runnerInsertOne dial serve iterate parseURL;
     Watch := runnerWatch dial serve iterate parseURL |}.

(** No session of the native protocol of MongoDB can be started. The
    header of a message lacks its first word, so that a server finds the
    operation in the name of the collection; a server that answers only the
    operations of the protocol answers nothing, and every test and full
    backup fails before anything is written. *)
Theorem mongo_native_cannot_start `{!mongoTools S} formatURI withoutPassword withoutDatabase passwordFromURL databasePathFromURI quoteText
  createTemp target cfg marshal format fuel s files written :
  followsProtocol dial serve -> useMongoNativeProtocol target = true ->
  mongoConfigFromTarget parseURL target = Ok cfg -> noByte "000"%char (mo_Database cfg) = true ->
  (exists e, (MgTest formatURI withoutPassword passwordFromURL quoteText createTemp target (s, files)).1 = Err e) /\
  exists e, let result := MgBackupFull formatURI withoutPassword withoutDatabase passwordFromURL databasePathFromURI quoteText createTemp target
    marshal format fuel ((s, files), written) in result.1 = Err e /\ result.2.2 = written.
Proof.
  intros Hs Hn Hc Hd.
  destruct (session_fails dial serve iterate parseURL Hs target (fun _ => query serve iterate "ping") cfg s Hc Hd) as [e E].
  destruct (onTarget dial serve iterate parseURL target (fun _ => query serve iterate "ping") s) as [r s'] eqn:Er. cbn in E. subst r.
  split; exists e.
  - unfold MgTest. rewrite Hn. unfold onQueryer, mbind. cbn [fst SimpleQuery mongoRunner]. unfold runnerSimpleQuery. now rewrite Er.
  - unfold MgBackupFull. rewrite Hn. unfold onDatabase, onQueryer, mongoNativeBackupFull, mbind. cbn [fst snd SimpleQuery mongoRunner].
    unfold runnerSimpleQuery. now rewrite Er.
Qed.
End Runner.

(** ** Runs of the MongoDB driver

    Concrete databases, tools and servers for the theorems about the driver. *)

Definition plainMongo : DTarget := mkDTarget "mg" "mongodb" ∅ ∅.
Definition externalMongo : DTarget := mkDTarget "mg" "mongodb" {["protocol" := "mongodump"; "password" := "secret"]}%string ∅.
Definition replacing : RestoreOptions := mkRestoreOptions true false ∅.

(** A database of one collection, which logs what it is asked. *)
Definition collections : mongoQueryResult :=
  mkMgResult [[("cursor", (3, AMap [("firstBatch", AList [AMap [("name", AString "notes")]])]))]]%string.

#[local] Instance logged : mongoQueryer (list string) := {|
  SimpleQuery := fun _ command log => (Ok (if String.eqb command "listCollections" then collections else mkMgResult [[]]), log ++ [command]);
  GetServerStatus := fun _ log => (Ok [], log);
  ListDatabases := fun _ log => (Ok [], log);
  ListCollections := fun _ _ log => (Ok [], log);
  GetCollectionStats := fun _ _ _ log => (Ok [], log);
  Find := fun _ db coll log => (Ok (mkMgCursor 0 (db ++ "." ++ coll) [[("a", (16, AInt32 1))]; [("a", (16, AInt32 2))]]%string false), log);
  InsertOne := fun _ _ coll _ log => (Ok tt, log ++ [("insert " ++ coll)%string]);
  Watch := fun _ log => (Ok (mkMgChanges false [] false), log)
|}.

(** Texts of documents, and what is used of net/url and strconv. *)
Definition jsonOf (doc : bsonDocument) : option string :=
  match doc with [(key, AInt32 z)] => Some ("{" ++ String quote (key ++ String quote (":" ++ Itoa z ++ "}")))%string | _ => None end.

Definition noFormat (val : bsonValue) : string := "".
Definition plainURI (uri : MongoURI) : string := "mongodb://" ++ mu_Host uri ++ mu_Path uri.
Definition sameText (s : string) : string := s.
Definition noText (s : string) : string := "".
Definition noPath (s : string) : option string := None.

Definition newFile (files : gmap string string) : option string :=
  match files !! "/tmp/kronos-mongo-1.yaml"%string with None => Some "/tmp/kronos-mongo-1.yaml"%string | Some _ => None end.

(** A tool that fails unless it sees the file of its settings. *)
#[local] Instance pickyTool : mongoTools (list string) := {|
  RunTool := fun name args _ files log =>
    (match args with
     | option :: path :: _ => if String.eqb option "--config" && bool_decide (is_Some (files !! path)) then inl [] else inr "no settings"%string
     | _ => inr "no settings"%string
     end, log ++ [(name ++ " " ++ Join args " ")%string])
|}.

Definition dumpRecord : DRecord :=
  mkDRecord (mkObjectRef "" "admin" "database") (list_byte_of_string "db.notes.insertOne({x});") 0 false.

Lemma mongo_password_files_removed_witness :
  (MgTest plainURI sameText noText sameText newFile externalMongo ([], ∅)).2.2 = ∅ /\
  (MgRestore plainURI sameText sameText noText noPath sameText newFile externalMongo [dumpRecord] EOF replacing ([], ∅)).2.2 = ∅.
Proof.
  destruct (mongo_password_files_removed plainURI sameText sameText noText noPath sameText newFile externalMongo jsonOf noFormat 0
    [dumpRecord] EOF replacing [] ∅ []) as (H1 & _ & H2); [|now split].
  intros files path. unfold newFile. destruct (files !! _) eqn:E; [discriminate|]. now intros [= <-].
Defined.

(** The tool does see the file. *)
Example tool_sees_password :
  MgTest plainURI sameText noText sameText newFile externalMongo ([], ∅) =
    (Ok tt, (["mongodump --config /tmp/kronos-mongo-1.yaml --db admin --archive --collection __kronos_connection_test__"]%string, ∅)).
Proof. vm_compute. reflexivity. Qed.

(** A backup of the database, and a restore that succeeds and inserts
    nothing. *)
Example backup_and_lost_restore :
  match (mongoNativeBackupFull jsonOf noFormat plainMongo 0 []).1 with
  | Ok (record :: _, _) =>
      Contains (string_of_list_byte (rc_Payload record)) ("db.notes.insertOne({" ++ String quote ("a" ++ String quote ":1});")) = true /\
      MgRestore plainURI sameText sameText noText noPath sameText newFile plainMongo [record] EOF replacing ([], ∅) = (Ok tt, ([], ∅))
  | _ => False
  end.
Proof. vm_compute. split; reflexivity. Qed.

Lemma mongo_restore_changes_nothing_witness :
  (MgRestore plainURI sameText sameText noText noPath sameText newFile plainMongo [dumpRecord] EOF replacing ([], ∅)).2 = ([], ∅).
Proof. exact (mongo_restore_changes_nothing plainURI sameText sameText noText noPath sameText newFile plainMongo [dumpRecord] EOF replacing ([], ∅) eq_refl). Defined.

(** ** A server that drops what it does not know *)

Definition opened (address : string) (s : unit) : option bytes * unit := (Some [], s).

(** It answers a known operation with an empty reply. *)
Definition strict (message : bytes) (s : unit) : bytes * unit :=
  (if existsb (Z.eqb (uint32At message 12)) knownOperations then le32 16 ++ le32 0 ++ le32 0 ++ le32 1 else [], s).

Definition noURL (dsn : string) : option PgURL := None.

#[local] Instance noTools : mongoTools unit := {| RunTool := fun _ _ _ _ s => (inr "executable file not found"%string, s) |}.

Lemma mongo_native_cannot_start_witness :
  exists e, (MgTest (queryer := mongoRunner opened strict id noURL) plainURI sameText noText sameText newFile plainMongo (tt, ∅)).1 = Err e.
Proof.
  refine (proj1 (mongo_native_cannot_start opened strict id noURL plainURI sameText sameText noText noPath sameText newFile plainMongo
    (mkMgConfig "127.0.0.1:27017" "127.0.0.1" "27017" "admin" "" "" "admin" "" "") jsonOf noFormat 0 tt ∅ [] _ eq_refl _ eq_refl)).
  - split; [now intros address s unread s' [= <- _]|]. intros message s _ Hn. unfold strict.
    destruct (existsb _ knownOperations) eqn:E; [|done]. apply existsb_exists in E as (x & Hx & Ex). apply Z.eqb_eq in Ex. rewrite <- Ex in Hx. done.
  - vm_compute. reflexivity.
Defined.
